(* ===== verification/_CoqProject ===== *)
-Q . S2P
Prelude.v
Bytes.v
Sleeplock.v
Spinlock.v
Buf.v
Memide.v
Ide.v
Ring.v
Bio.v
Cache.v
Log.v
LogOps.v
Txn.v
Inode.v
Xv6fs.v
Example.v
Blocks.v
InodeSpec.v
FileSpec.v
CString.v
Kalloc.v
Vm.v
VmSpec.v
ForkSpec.v
Pipe.v
Grep.v
Ext2fs.v
Vfs.v
Kernel.v
Sched.v
PipeSleep.v
File.v
Proc.v
Syscall.v
Exec.v
Sysfile.v
Trap.v
Seg.v
ProcSpec.v
GrowSpec.v
SchedSpec.v
ExecSpec.v
ReadWrite.v
PathSpec.v
IcacheSpec.v
DirSpec.v
NameSpec.v
Umalloc.v
Ulib.v
Printf.v
Sh.v
ShSpec.v
Ext2Spec.v
Console.v
Port.v
Kbd.v
Apic.v
Uart.v
Dump.v
Boot.v
Mp.v
Mkfs.v
MkfsSpec.v
MkfsBoot.v
Main.v
MainSpec.v
PowerOn.v
Asm.v
AsmSpec.v
AsmBoot.v
Prog.v
ProgSpec.v
GrepSpec.v
ShRun.v
