(* ===== verification/Prelude.v ===== *)
(** * Verification of xv6 with the ext2 file system

    The program is xv6, a small Unix for the x86, with a second file system in the ext2 format (src/). This library translates its C code into
    definitions that can be run, and proves what the parts promise. Definitions have the names of the C functions; where two parts use
    one name, the file tells them apart.

    ** How the code is translated

    C integers are [Z] with the conversions to their width written out ([u8], [u16], [u32], [s32], ...); blocks and structures on disk or in
    physical memory are lists of bytes (Bytes.v). A function that changes state is a computation of the monad [M] of this file: it returns
    ([Ok]), panics ([Panic]), goes to sleep ([Asleep]), does something that C leaves undefined, such as an access outside of a buffer ([Fault]), or runs out
    of fuel ([NoFuel]). [wp m s Q] says that [m] returns from [s] with [Q]; it excludes all other outcomes, so theorems that use it are of total
    correctness. Loops whose end is not structural take fuel: the length of the data, the size of the table, or a bound that is computed
    from the arguments where the loop is called; the theorems show that it is enough, since they exclude [NoFuel]. User programs are
    interaction trees over their system calls.

    ** The parts, from the hardware up

    Drivers are written against interfaces for ports and registers (Port.v), and the theorems run them on devices that are instances.
    - Boot.v: bootmain.c. [bootmain_loads]: the kernel's segments are in memory, although whole sectors are copied over their neighbours.
    - Mp.v, Apic.v, Uart.v, Kbd.v, Console.v: mp.c, lapic.c, ioapic.c, picirq.c, uart.c, kbd.c, console.c. The tables of processors, interrupt
      routing, a date that is not torn by a tick of the clock, the bounded wait of the serial port, the screen as a terminal, the input
      buffer as a line editor, and the way of a typed line from the scan codes to the program that reads it.
    - Spinlock.v: spinlock.c with the processor state of proc.c, as processors that interleave at every access: mutual exclusion.
      Sleeplock.v: sleeplock.c.
    - Kalloc.v, Vm.v, VmSpec.v, ForkSpec.v, GrowSpec.v: kalloc.c and vm.c. Pages are never handed out twice; [copyuvm] copies an address space, [allocuvm] and
      [growproc] grow and shrink it, and failures give every page back.

    The disk and the file systems are layers, each verified against the contract of the one below.
    - Buf.v: the buffers, and the interface [disk driver] as a class with laws. Memide.v (memide.c) and Ide.v (ide.c) are its instances; Ide.v
      shows that requests through the queue and the interrupts transfer blocks ([iderw_transfers]).
    - Ring.v, Bio.v, Cache.v: bio.c, the cache as an LRU ring, and the relation [rep] that its clients use.
    - Log.v, LogOps.v, Txn.v: log.c. [transaction_crash_atomic]: a crash between any two writes leaves all of a transaction or nothing;
      [log_reservation]: with several processes the log does not overflow; [txn] is the log as the file system sees it.
    - Inode.v, Xv6fs.v, Ext2fs.v, Vfs.v: fs.c and ext2fs.c, with the tables of operations as a dispatch on the inode. Example.v is a small disk image for the
      witnesses. Blocks.v, InodeSpec.v, FileSpec.v, ReadWrite.v: the allocator, inodes, and files as lists of bytes in the xv6 format; DirSpec.v: directories
      as finite maps; NameSpec.v: [namex] walks the tree of directories and keeps the reference counts; Ext2Spec.v: files and directories in the ext2 format,
      and where the code leaves the format; PathSpec.v, IcacheSpec.v: path elements and the inode cache.
    - Mkfs.v, MkfsSpec.v: mkfs.c, and that its image is a file system that the theorems on fs.c apply to. MkfsBoot.v: the kernel that starts on the image
      finds every file under its name and reads its bytes ([mkfs_kernel_reads]).

    The kernel above them shares one state (Kernel.v: processes, open files, pipes, memory, file system).
    - Sched.v, Proc.v, ProcSpec.v, SchedSpec.v: proc.c, the process tree under every interleaving, and the fairness of the scheduler.
    - Pipe.v, PipeSleep.v: pipe.c, the order of the bytes, and that no wake-up is lost.
    - File.v, Syscall.v, Sysfile.v, Exec.v, Trap.v: file.c, syscall.c, sysfile.c, exec.c, sysproc.c, trap.c. ExecSpec.v: [exec] replaces the image of a process or
      leaves the process alone.
    - Seg.v: segments, gates and the task state in vm.c, trap.c and mmu.h, read as the processor reads them ([descriptors_protect]).
    - Main.v, MainSpec.v: main.c, with the initialisation functions of the other parts, on the boot processor and on those that it starts. [main_boots]: it
      reaches the scheduler on every processor, with the tables loaded, the first process ready and every page of memory accounted for.
    - PowerOn.v: main, the scheduler and [forkret] in sequence. [power_on_reads]: from the state that the boot loader leaves to the files of the image that
      mkfs has made.
    - Asm.v, AsmSpec.v, AsmBoot.v: swtch.S, trapasm.S, vectors.pl, usys.S, initcode.S, entry.S, entryother.S and bootasm.S, as sequences of instructions on a machine with the segments
      of Seg.v. [trap_roundtrip]: every trap builds a frame with all registers and goes on with the frame that [trap] leaves; [swtch_resumes]: a switch back finds the
      stack and the registers of the caller; [new_process_enters_user]: the first run of a process; [other_processor_starts] and three more on the start of a processor,
      the system calls and the first user code.
    - Dump.v: what the kernel prints for debugging, [getcallerpcs], [procdump] and the message of [panic].
    - CString.v: string.c.

    User space:
    - Ulib.v, Umalloc.v, Printf.v: ulib.c, umalloc.c, printf.c; blocks of the allocator are disjoint, numbers are printed and read back.
    - Sh.v, ShSpec.v, ShRun.v: sh.c. The parser decides the grammar of the shell, and the shell starts the programs of a line with the
      descriptors that their places in the line give them.
    - Grep.v, Prog.v, ProgSpec.v, GrepSpec.v: the other programs. The matcher of grep decides the language of the patterns; cat, wc and
      grep print what they should, however reads cut their input.

    ** Assumptions

    Sections under a spin lock run in one piece, except where the interleavings are the subject (Spinlock.v, LogOps.v, PipeSleep.v). What is not C code is
    an argument of the definitions with its laws as hypotheses, and has an instance: the drivers of disks (Buf.v), ports and registers (Port.v, Boot.v), the
    device switch and the interrupt handlers in File.v and Trap.v, [sbrk] for the allocator, and the calls that user programs make. MainSpec.v states in [platform]
    and [cold] what the start of the kernel relies on: where the linker puts things, a valid table of processors, a local APIC that delivers messages, and
    variables as they are loaded. PowerOn.v joins C code where assembly runs in between: what a processor reads before [mpenter], and what happens between [swtch]
    and [forkret], is verified by itself in AsmBoot.v and AsmSpec.v. There, functions in C are arguments that keep the calling convention, memory is by linear
    addresses, and delivery of interrupts and [iret] are as the manuals of the processor have them. MkfsSpec.v and the interaction trees use functional
    extensionality and related axioms of the standard library.

    ** Not modelled

    The test programs (usertests.c, forktest.c, stressfs.c, ext2fstest.c, zombie.c), which are not part of the system in use. In the assembly code, the
    multiboot header and what follows a call that does not return. Scripts and the build. *)

From Stdlib Require Export ZArith Lia.
From stdpp Require Export base numbers option strings functions gmap list list_numbers.

#[global] Open Scope Z_scope.

(** * Machine integers

    C integers are kept as [Z]; conversions to a width are written out. *)

(** [lia] after the euclidean equations of every division and modulus. *)
Ltac elia := Z.to_euclidean_division_equations; lia.

Definition u8 (z : Z) : Z := z mod 256.
Definition u16 (z : Z) : Z := z mod 65536.
Definition u32 (z : Z) : Z := z mod 4294967296.
Definition s32 (z : Z) : Z := (z + 2147483648) mod 4294967296 - 2147483648.
Definition s16 (z : Z) : Z := (z + 32768) mod 65536 - 32768.
Definition s8 (z : Z) : Z := (z + 128) mod 256 - 128.

Lemma u32_range z : 0 <= u32 z < 4294967296.
Proof. unfold u32. elia. Qed.

Lemma u32_small z : 0 <= z < 4294967296 -> u32 z = z.
Proof. intros. unfold u32. by rewrite Z.mod_small. Qed.

Lemma u8_range z : 0 <= u8 z < 256.
Proof. unfold u8. elia. Qed.

Lemma u8_small z : 0 <= z < 256 -> u8 z = z.
Proof. intros. unfold u8. by rewrite Z.mod_small. Qed.

Lemma s32_small z : -2147483648 <= z < 2147483648 -> s32 z = z.
Proof. intros. unfold s32. rewrite Z.mod_small; lia. Qed.

Lemma u32_s32 z : u32 (s32 z) = u32 z.
Proof. unfold u32, s32. elia. Qed.

(** * Computations of the kernel

    A computation runs on a state and either returns, panics, goes to sleep
    waiting for another thread, performs an access the C language does not
    define, or (for the fuelled loops only) runs out of fuel. *)

Inductive outcome (S A : Type) : Type :=
  | Ok (a : A) (s : S)
  | Panic (msg : string)
  | Asleep
  | Fault
  | NoFuel.
Arguments Ok {S A} a s.
Arguments Panic {S A} msg.
Arguments Asleep {S A}.
Arguments Fault {S A}.
Arguments NoFuel {S A}.

Definition M (S A : Type) : Type := S -> outcome S A.

#[global] Instance M_ret {S} : MRet (M S) := fun A a s => Ok a s.
#[global] Instance M_bind {S} : MBind (M S) := fun A B f m s =>
  match m s with
  | Ok a s' => f a s'
  | Panic msg => Panic msg
  | Asleep => Asleep
  | Fault => Fault
  | NoFuel => NoFuel
  end.

Definition panic {S A} (msg : string) : M S A := fun _ => Panic msg.
Definition asleep {S A} : M S A := fun _ => Asleep.
Definition fault {S A} : M S A := fun _ => Fault.
Definition nofuel {S A} : M S A := fun _ => NoFuel.
Definition gets {S A} (f : S -> A) : M S A := fun s => Ok (f s) s.
Definition modify {S} (f : S -> S) : M S unit := fun s => Ok tt (f s).
Definition guard_ok {S} (b : bool) (m : M S unit) : M S unit :=
  if b then m else mret tt.

(** Running the first half of a sequence. *)
Lemma bind_ok {S A B} (m : M S A) (f : A -> M S B) s a s' :
  m s = Ok a s' -> (m ≫= f) s = f a s'.
Proof. unfold mbind, M_bind. by intros ->. Qed.

Lemma bind_panic {S A B} (m : M S A) (f : A -> M S B) s msg :
  m s = Panic msg -> (m ≫= f) s = Panic msg.
Proof. unfold mbind, M_bind. by intros ->. Qed.

Lemma bind_inv {S A B} (m : M S A) (f : A -> M S B) s b s' :
  (m ≫= f) s = Ok b s' -> exists a s1, m s = Ok a s1 /\ f a s1 = Ok b s'.
Proof. unfold mbind, M_bind. destruct (m s) as [a s1| | | |]; [|done..]. eauto. Qed.

(** An access through a pointer or an index: [Fault] when it is wild. *)
Definition deref {S A} (o : option A) : M S A :=
  match o with Some a => mret a | None => fault end.

(** [zoom get put m] runs [m] on a component of a larger state. *)
Definition zoom {S T A} (get : S -> T) (put : T -> S -> S) (m : M T A) : M S A :=
  fun s => match m (get s) with
           | Ok a t => Ok a (put t s)
           | Panic msg => Panic msg
           | Asleep => Asleep
           | Fault => Fault
           | NoFuel => NoFuel
           end.

(** [for_each l body]: a [for] loop over the values [l]; [body] answers
    [Some b] to leave the loop with [b] and [None] to go on. *)
Fixpoint for_each {S A B} (l : list A) (body : A -> M S (option B)) : M S (option B) :=
  match l with
  | [] => mret None
  | x :: t =>
      r ← body x;
      match r with
      | Some b => mret (Some b)
      | None => for_each t body
      end
  end.

(** A [for] loop without an early exit. *)
Fixpoint for_all {S A} (l : list A) (body : A -> M S unit) : M S unit :=
  match l with
  | [] => mret tt
  | x :: t => body x ;; for_all t body
  end.

(** The values [lo, lo+1, ..., hi-1] of a counting loop. *)
Definition range (lo hi : Z) : list Z := seqZ lo (hi - lo).

(** * Weakest preconditions: the computation returns and its result
    satisfies [Q]. Total correctness: panics and the like falsify it. *)
Definition wp {S A} (m : M S A) (s : S) (Q : A -> S -> Prop) : Prop :=
  match m s with Ok a s' => Q a s' | _ => False end.

Lemma wp_ret {S A} (a : A) (s : S) (Q : A -> S -> Prop) : Q a s -> wp (mret a) s Q.
Proof. done. Qed.

Lemma wp_bind {S A B} (m : M S A) (f : A -> M S B) s Q :
  wp m s (fun a s' => wp (f a) s' Q) -> wp (m ≫= f) s Q.
Proof. unfold wp, mbind, M_bind. by destruct (m s). Qed.

Lemma wp_mono {S A} (m : M S A) s (P Q : A -> S -> Prop) :
  wp m s P -> (forall a s', P a s' -> Q a s') -> wp m s Q.
Proof. unfold wp. destruct (m s); auto. Qed.

Lemma wp_gets {S A} (f : S -> A) s Q : Q (f s) s -> wp (gets f) s Q.
Proof. done. Qed.

Lemma wp_modify {S} (f : S -> S) s Q : Q tt (f s) -> wp (modify f) s Q.
Proof. done. Qed.

Lemma wp_deref {S A} (o : option A) a (s : S) Q : o = Some a -> Q a s -> wp (deref o) s Q.
Proof. by intros ->. Qed.

Lemma wp_zoom {S T A} get put (m : M T A) (s : S) Q :
  wp m (get s) (fun a t => Q a (put t s)) -> wp (zoom get put m) s Q.
Proof. unfold wp, zoom. by destruct (m (get s)). Qed.

Lemma wp_ok {S A} (m : M S A) s Q : wp m s Q <-> exists a s', m s = Ok a s' /\ Q a s'.
Proof.
  unfold wp. split.
  - destruct (m s) as [a s'| | | |]; [|done..]. by exists a, s'.
  - by intros (a & s' & -> & H).
Qed.

Lemma wp_eq {S A} (m : M S A) s a s' (Q : A -> S -> Prop) : m s = Ok a s' -> Q a s' -> wp m s Q.
Proof. unfold wp. by intros ->. Qed.

Lemma wp_Ok {S A} (m : M S A) s a s' (Q : A -> S -> Prop) : m s = Ok a s' -> wp m s Q -> Q a s'.
Proof. unfold wp. by intros ->. Qed.

(** A loop without early exit: an invariant indexed by the values done. *)
Lemma wp_for_all {S A} (l : list A) (body : A -> M S unit) (I : list A -> S -> Prop) s :
  I [] s ->
  (forall k x s, l !! length k = Some x -> k = take (length k) l -> I k s ->
     wp (body x) s (fun _ s' => I (k ++ [x]) s')) ->
  wp (for_all l body) s (fun _ s' => I l s').
Proof.
  intros H0 Hstep.
  enough (forall r k s, l = k ++ r -> I k s -> wp (for_all r body) s (fun _ s' => I l s')) as H
    by (by apply (H l [])).
  clear s H0. induction r as [|x r IH]; intros k s Hl Hk; simpl.
  - rewrite app_nil_r in Hl. subst. by apply wp_ret.
  - apply wp_bind. eapply wp_mono.
    + apply (Hstep k); [by rewrite Hl, list_lookup_middle | by rewrite Hl, take_app_length | done].
    + intros [] s' Hs'. apply (IH (k ++ [x])); [by rewrite <- app_assoc | done].
Qed.

(** A loop over [0 .. n-1]. *)
Lemma wp_for_range {St} (n : nat) (body : Z -> M St unit) (I : nat -> St -> Prop) s (Q : unit -> St -> Prop) :
  I 0%nat s ->
  (forall k s, (k < n)%nat -> I k s -> wp (body (Z.of_nat k)) s (fun _ => I (S k))) ->
  (forall s, I n s -> Q tt s) ->
  wp (for_all (range 0 (Z.of_nat n)) body) s Q.
Proof.
  intros H0 Hstep HQ. eapply wp_mono.
  - apply (wp_for_all _ _ (fun k s => I (length k) s)); [done|].
    intros k x s' Hx Hk HI. unfold range in Hx. rewrite lookup_seqZ in Hx. destruct Hx as [-> Hlt].
    rewrite length_app, Nat.add_1_r. rewrite Z.add_0_l. apply Hstep; [lia|done].
  - intros [] s' HI. apply HQ. unfold range in HI. rewrite length_seqZ in HI.
    by replace n with (Z.to_nat (Z.of_nat n - 0)) by lia.
Qed.

Lemma nodup_take {A} k (l : list A) : NoDup l -> NoDup (take k l).
Proof. intros Hl. rewrite <- (take_drop k l) in Hl. by apply list.NoDup_app in Hl as [? _]. Qed.

(** A search loop that leaves the state alone: the first answer, or none. *)
Lemma wp_search {St B} (n : nat) (body : Z -> M St (option B)) (f : nat -> option B) s Q :
  (forall k, (k < n)%nat -> body (Z.of_nat k) s = Ok (f k) s) ->
  (forall k b, (k < n)%nat -> f k = Some b -> (forall j, (j < k)%nat -> f j = None) -> Q (Some b) s) ->
  ((forall k, (k < n)%nat -> f k = None) -> Q None s) ->
  wp (for_each (range 0 (Z.of_nat n)) body) s Q.
Proof.
  intros Hb Hsome Hnone. unfold range. rewrite Z.sub_0_r.
  enough (forall m k, (k + m = n)%nat -> (forall j, (j < k)%nat -> f j = None) ->
    wp (for_each (seqZ (Z.of_nat k) (Z.of_nat m)) body) s Q) as He.
  { apply (He n 0%nat); [done|lia]. }
  clear -Hb Hsome Hnone. induction m as [|m IH]; intros k Hk Hlt.
  - simpl. apply wp_ret, Hnone. intros j Hj. apply Hlt. lia.
  - rewrite seqZ_cons by lia. simpl. eapply wp_bind, wp_eq; [apply Hb; lia|].
    destruct (f k) as [b|] eqn:Hf; [apply wp_ret, (Hsome k); [lia|done|done]|].
    replace (Z.succ (Z.of_nat k)) with (Z.of_nat (S k)) by lia.
    replace (Z.pred (Z.of_nat (S m))) with (Z.of_nat m) by lia.
    apply IH; [lia|]. intros j Hj. destruct (decide (j = k)) as [->|]; [done|]. apply Hlt. lia.
Qed.

(** A loop with early exit: an invariant indexed by the number of rounds done. *)
Lemma wp_for_each {St B} (n : nat) (body : Z -> M St (option B)) (I : nat -> St -> Prop) s Q :
  I 0%nat s ->
  (forall k s, (k < n)%nat -> I k s ->
     wp (body (Z.of_nat k)) s (fun r s' => match r with Some b => Q (Some b) s' | None => I (S k) s' end)) ->
  (forall s, I n s -> Q None s) ->
  wp (for_each (range 0 (Z.of_nat n)) body) s Q.
Proof.
  intros H0 Hstep HQ. unfold range. rewrite Z.sub_0_r.
  enough (forall m k s, (k + m = n)%nat -> I k s ->
    wp (for_each (seqZ (Z.of_nat k) (Z.of_nat m)) body) s Q) as He by (by apply (He n 0%nat)).
  clear s H0. induction m as [|m IH]; intros k s Hk HI.
  - simpl. apply wp_ret, HQ. by replace n with k by lia.
  - rewrite seqZ_cons by lia. simpl. eapply wp_bind, wp_mono; [apply Hstep; [lia|done]|].
    intros [b|] s' Hr; [by apply wp_ret|].
    replace (Z.succ (Z.of_nat k)) with (Z.of_nat (S k)) by lia.
    replace (Z.pred (Z.of_nat (S m))) with (Z.of_nat m) by lia. apply IH; [lia|done].
Qed.

(** A computation that panics after a first part that returns. *)
Lemma wp_panics {St A B} (m : M St A) (k : A -> M St B) s msg :
  wp m s (fun a s' => k a s' = Panic msg) -> (m ≫= k) s = Panic msg.
Proof. unfold wp, mbind, M_bind. by destruct (m s). Qed.

(** * Frames: what a computation that returns leaves in relation [R] *)
Definition respects {S A} (R : S -> S -> Prop) (m : M S A) : Prop :=
  forall s a s', m s = Ok a s' -> R s s'.

Section respects.
Context {S : Type} (R : S -> S -> Prop) `{!PreOrder R}.

Lemma respects_ret {A} (a : A) : respects R (mret a).
Proof. intros s a' s' [= _ ->]. reflexivity. Qed.

Lemma respects_bind {A B} (m : M S A) (f : A -> M S B) :
  respects R m -> (forall a, respects R (f a)) -> respects R (m ≫= f).
Proof. intros Hm Hf s b s' (a & s1 & H1 & H2)%bind_inv. transitivity s1; [by eapply Hm|by eapply Hf]. Qed.

Lemma respects_gets {A} (f : S -> A) : respects R (gets f).
Proof. intros s a' s' [= _ ->]. reflexivity. Qed.

Lemma respects_modify (f : S -> S) : (forall s, R s (f s)) -> respects R (modify f).
Proof. by intros Hf s a s' [= _ <-]. Qed.

Lemma respects_guard b (m : M S unit) : respects R m -> respects R (guard_ok b m).
Proof. destruct b; [done|]. intros _. apply respects_ret. Qed.

Lemma respects_deref {A} (o : option A) : respects R (deref o).
Proof. destruct o; [apply respects_ret|]. by intros s a s'. Qed.

Lemma respects_read {A} (f : S -> option A) : respects R (fun s => deref (f s) s).
Proof. intros s a s'. destruct (f s); [|done]. intros [= _ ->]. reflexivity. Qed.

Lemma respects_panic {A} msg : respects (A:=A) R (panic msg).
Proof. by intros s a s'. Qed.
Lemma respects_asleep {A} : respects (A:=A) R asleep.
Proof. by intros s a s'. Qed.
Lemma respects_nofuel {A} : respects (A:=A) R nofuel.
Proof. by intros s a s'. Qed.

Lemma respects_for_all {A} (l : list A) (body : A -> M S unit) :
  (forall x, respects R (body x)) -> respects R (for_all l body).
Proof. intros Hb. induction l as [|x l IH]; simpl; [apply respects_ret|]. by apply respects_bind. Qed.

Lemma respects_for_each {A B} (l : list A) (body : A -> M S (option B)) :
  (forall x, respects R (body x)) -> respects R (for_each l body).
Proof.
  intros Hb. induction l as [|x l IH]; simpl; [apply respects_ret|].
  apply respects_bind; [done|]. intros [b|]; [apply respects_ret|done].
Qed.

Lemma respects_zoom {T A} (get : S -> T) put (m : M T A) :
  (forall t s, R s (put t s)) -> respects R (zoom get put m).
Proof. intros Hp s a s'. unfold zoom. destruct (m (get s)); [|done..]. by intros [= _ <-]. Qed.
End respects.

Create HintDb frame.
#[export] Hint Resolve respects_ret respects_gets respects_deref respects_read respects_panic respects_asleep respects_nofuel : frame.

(** Follows the structure of a computation down to the calls that the [frame]
    database knows. *)
Ltac frame_step :=
  match goal with
  | |- respects _ (_ ≫= _) => apply respects_bind; [apply _| |intros ?]
  | |- respects _ (guard_ok _ _) => apply respects_guard; [apply _|]
  | |- respects _ (for_all _ _) => apply respects_for_all; [apply _|intros ?]
  | |- respects _ (for_each _ _) => apply respects_for_each; [apply _|intros ?]
  | |- _ => solve [eauto with frame typeclass_instances]
  | |- respects _ (if ?b then _ else _) => destruct b
  | |- respects _ (match ?x with _ => _ end) => destruct x
  | |- respects _ (let '_ := ?x in _) => destruct x
  end.
Ltac frame := repeat frame_step.

Lemma respects_mono {S A} (R R' : S -> S -> Prop) (m : M S A) :
  (forall s s', R s s' -> R' s s') -> respects R m -> respects R' m.
Proof. unfold respects. eauto. Qed.

(** * Partial correctness: if the computation returns, the result satisfies [Q] *)
Definition wlp {S A} (m : M S A) (s : S) (Q : A -> S -> Prop) : Prop :=
  forall a s', m s = Ok a s' -> Q a s'.

Lemma wlp_ret {S A} (a : A) (s : S) (Q : A -> S -> Prop) : Q a s -> wlp (mret a) s Q.
Proof. by intros HQ a' s' [= <- <-]. Qed.

Lemma wlp_bind {S A B} (m : M S A) (f : A -> M S B) s Q :
  wlp m s (fun a s' => wlp (f a) s' Q) -> wlp (m ≫= f) s Q.
Proof. intros Hm b s' (a & s1 & H1 & H2)%bind_inv. by eapply Hm. Qed.

Lemma wlp_gets {S A} (f : S -> A) s (Q : A -> S -> Prop) : Q (f s) s -> wlp (gets f) s Q.
Proof. by intros HQ a s' [= <- <-]. Qed.

Lemma wlp_modify {S} (f : S -> S) s (Q : unit -> S -> Prop) : Q tt (f s) -> wlp (modify f) s Q.
Proof. by intros HQ [] s' [= <-]. Qed.

Lemma wlp_guard {S} b (m : M S unit) s (Q : unit -> S -> Prop) :
  (b = true -> wlp m s Q) -> (b = false -> Q tt s) -> wlp (guard_ok b m) s Q.
Proof. destruct b; intros H1 H2; [by apply H1|]. by apply wlp_ret, H2. Qed.

Lemma wlp_panic {S A} msg (s : S) (Q : A -> S -> Prop) : wlp (panic msg) s Q.
Proof. by intros a s'. Qed.

Lemma wlp_deref {S A} (o : option A) (s : S) (Q : A -> S -> Prop) :
  (forall a, o = Some a -> Q a s) -> wlp (deref o) s Q.
Proof. intros HQ. destruct o as [a|]; [by apply wlp_ret, HQ|]. by intros a s'. Qed.

Lemma wlp_respects {S A} (R : S -> S -> Prop) (m : M S A) s (Q : A -> S -> Prop) :
  respects R m -> (forall a s', R s s' -> Q a s') -> wlp m s Q.
Proof. intros Hm HQ a s' He. by eapply HQ, Hm. Qed.

Lemma wlp_mono {S A} (m : M S A) s (P Q : A -> S -> Prop) :
  wlp m s P -> (forall a s', P a s' -> Q a s') -> wlp m s Q.
Proof. unfold wlp. eauto. Qed.
