(* ===== verification/Bytes.v ===== *)
(** Byte sequences: little-endian fields, splicing a field into a block, and
    bitmaps. Blocks and C structures are [list Z] of bytes in [0, 256). *)

From S2P Require Import Prelude.

Definition byte_ok (b : Z) : Prop := 0 <= b < 256.
Abbreviation bytes_ok := (Forall byte_ok).

(** ** Little-endian integers *)

Fixpoint le_enc (n : nat) (z : Z) : list Z :=
  match n with
  | O => []
  | S n => z mod 256 :: le_enc n (z / 256)
  end.

Fixpoint le_dec (l : list Z) : Z :=
  match l with
  | [] => 0
  | b :: t => b + 256 * le_dec t
  end.

Lemma length_le_enc n z : length (le_enc n z) = n.
Proof. revert z. induction n; intros; simpl; auto. Qed.

Lemma le_enc_ok n z : bytes_ok (le_enc n z).
Proof.
  revert z. induction n; intros z; simpl; constructor; auto.
  unfold byte_ok. elia.
Qed.

Lemma le_dec_enc n z : le_dec (le_enc n z) = z mod 256 ^ Z.of_nat n.
Proof.
  revert z. induction n as [|n IH]; intros z.
  - simpl. by rewrite Z.mod_1_r.
  - cbn [le_enc le_dec]. rewrite IH, Nat2Z.inj_succ, Z.pow_succ_r by lia.
    rewrite Z.rem_mul_r by (try apply Z.pow_pos_nonneg; lia). lia.
Qed.

Lemma le_dec_enc_small n z : 0 <= z < 256 ^ Z.of_nat n -> le_dec (le_enc n z) = z.
Proof. intros. by rewrite le_dec_enc, Z.mod_small. Qed.

Lemma le_enc_dec l : bytes_ok l -> le_enc (length l) (le_dec l) = l.
Proof.
  induction 1 as [|b l Hb _ IH]; [done|]. cbn [length le_enc le_dec].
  unfold byte_ok in Hb.
  rewrite (Z.mul_comm 256), Z_mod_plus_full, Z.mod_small by lia.
  rewrite Z.div_add, Z.div_small by lia. by rewrite Z.add_0_l, IH.
Qed.

Lemma le_dec_range l : bytes_ok l -> 0 <= le_dec l < 256 ^ Z.of_nat (length l).
Proof.
  induction 1 as [|b l Hb _ IH]; [done|]. cbn [length le_dec].
  unfold byte_ok in Hb. rewrite Nat2Z.inj_succ, Z.pow_succ_r by lia. lia.
Qed.

Lemma le_dec_replicate_0 n : le_dec (replicate n 0) = 0.
Proof. induction n as [|n IH]; [done|]. cbn [replicate le_dec]. lia. Qed.

(** ** Slices *)

Definition slice {A} (off n : nat) (l : list A) : list A := take n (drop off l).

(** [splice off xs l] overwrites [l] from [off] on with [xs]: a [memmove] into
    the middle of a block. *)
Definition splice {A} (off : nat) (xs l : list A) : list A :=
  take off l ++ xs ++ drop (off + length xs) l.

Section slices.
Context {A : Type}.
Implicit Types l xs : list A.

Lemma length_slice off n l : (off + n <= length l)%nat -> length (slice off n l) = n.
Proof. intros. unfold slice. rewrite length_take, length_drop. lia. Qed.

Lemma lookup_slice off n l i : (i < n)%nat -> slice off n l !! i = l !! (off + i)%nat.
Proof. intros. unfold slice. by rewrite lookup_take_lt, lookup_drop. Qed.

Lemma length_splice off xs l :
  (off + length xs <= length l)%nat -> length (splice off xs l) = length l.
Proof. intros. unfold splice. rewrite !length_app, length_take, length_drop. lia. Qed.

Lemma lookup_splice_in off xs l i :
  (off + length xs <= length l)%nat -> (off <= i < off + length xs)%nat ->
  splice off xs l !! i = xs !! (i - off)%nat.
Proof.
  intros Hl Hi. unfold splice.
  rewrite lookup_app_r; rewrite length_take; [|lia].
  rewrite Nat.min_l by lia. by rewrite lookup_app_l by lia.
Qed.

Lemma lookup_splice_out off xs l i :
  (off + length xs <= length l)%nat -> (i < off \/ off + length xs <= i)%nat ->
  splice off xs l !! i = l !! i.
Proof.
  intros Hl [Hi|Hi]; unfold splice.
  - rewrite lookup_app_l by (rewrite length_take; lia). by rewrite lookup_take_lt.
  - rewrite lookup_app_r; rewrite length_take; [|lia].
    rewrite lookup_app_r by lia. rewrite lookup_drop. f_equal. lia.
Qed.

Lemma lookup_splice off xs l i :
  (off + length xs <= length l)%nat ->
  splice off xs l !! i =
    (if decide (off <= i < off + length xs)%nat then xs !! (i - off)%nat else l !! i).
Proof.
  intros. case_decide; [by apply lookup_splice_in|apply lookup_splice_out; lia].
Qed.

Lemma slice_splice_same off xs l :
  (off + length xs <= length l)%nat -> slice off (length xs) (splice off xs l) = xs.
Proof.
  intros. unfold slice, splice. rewrite drop_app_length'.
  - by rewrite take_app_length.
  - rewrite length_take. lia.
Qed.

Lemma slice_splice_other off xs l off' n :
  (off + length xs <= length l)%nat -> (off' + n <= off \/ off + length xs <= off')%nat ->
  slice off' n (splice off xs l) = slice off' n l.
Proof.
  intros Hl Hd. apply list_eq. intros i. destruct (decide (i < n)%nat).
  - rewrite !lookup_slice by done. apply lookup_splice_out; [done|lia].
  - rewrite !lookup_ge_None_2; [done| |]; unfold slice; rewrite length_take; lia.
Qed.

Lemma splice_id off n l : (off + n <= length l)%nat -> splice off (slice off n l) l = l.
Proof.
  intros Hl. unfold splice. rewrite length_slice by done. unfold slice.
  rewrite (app_assoc (take off l)), take_take_drop, take_drop. done.
Qed.

Lemma splice_splice_same off xs ys l :
  length xs = length ys -> (off + length xs <= length l)%nat ->
  splice off xs (splice off ys l) = splice off xs l.
Proof.
  intros He Hl. apply list_eq. intros i.
  rewrite !lookup_splice by (rewrite ?length_splice; lia). case_decide; [done|].
  case_decide; [lia|done].
Qed.

Lemma Forall_splice (P : A -> Prop) off xs l :
  Forall P xs -> Forall P l -> Forall P (splice off xs l).
Proof.
  intros. unfold splice.
  repeat apply Forall_app_2; [by apply Forall_take|done|by apply Forall_drop].
Qed.

Lemma Forall_slice (P : A -> Prop) off n l : Forall P l -> Forall P (slice off n l).
Proof. intros. by apply Forall_take, Forall_drop. Qed.

Lemma insert_splice i x l : (i < length l)%nat -> <[i:=x]> l = splice i [x] l.
Proof.
  intros. apply list_eq. intros j. rewrite lookup_splice by (simpl; lia). simpl.
  destruct (decide (i = j)) as [<-|].
  - rewrite list_lookup_insert_eq by done. rewrite decide_True by lia.
    by rewrite Nat.sub_diag.
  - rewrite list_lookup_insert_ne by done. by rewrite decide_False by lia.
Qed.
End slices.

(** ** Fields of a structure *)

Definition get_le (n off : nat) (l : list Z) : Z := le_dec (slice off n l).
Definition put_le (n off : nat) (z : Z) (l : list Z) : list Z := splice off (le_enc n z) l.

Lemma length_put_le n off z l :
  (off + n <= length l)%nat -> length (put_le n off z l) = length l.
Proof. intros. apply length_splice. by rewrite length_le_enc. Qed.

Lemma get_put_same n off z l :
  (off + n <= length l)%nat -> get_le n off (put_le n off z l) = z mod 256 ^ Z.of_nat n.
Proof.
  intros. unfold get_le, put_le. rewrite <- (length_le_enc n z) at 1.
  rewrite slice_splice_same by (by rewrite length_le_enc). apply le_dec_enc.
Qed.

Lemma get_put_other n off z l n' off' :
  (off + n <= length l)%nat -> (off' + n' <= off \/ off + n <= off')%nat ->
  get_le n' off' (put_le n off z l) = get_le n' off' l.
Proof.
  intros. unfold get_le, put_le. by rewrite slice_splice_other by (rewrite length_le_enc; lia).
Qed.

Lemma put_put_same n off z z' l :
  (off + n <= length l)%nat -> put_le n off z (put_le n off z' l) = put_le n off z l.
Proof. intros. apply splice_splice_same; by rewrite !length_le_enc. Qed.

Lemma put_le_ok n off z l : bytes_ok l -> bytes_ok (put_le n off z l).
Proof. intros. apply Forall_splice; [apply le_enc_ok|done]. Qed.

Lemma get_le_range n off l :
  bytes_ok l -> (off + n <= length l)%nat -> 0 <= get_le n off l < 256 ^ Z.of_nat n.
Proof.
  intros Hok Hl. unfold get_le.
  pose proof (le_dec_range (slice off n l) (Forall_slice _ _ _ _ Hok)) as H.
  by rewrite length_slice in H.
Qed.

Lemma get_le_replicate_0 n off k : get_le n off (replicate k 0) = 0.
Proof.
  unfold get_le, slice. rewrite drop_replicate, take_replicate. apply le_dec_replicate_0.
Qed.

(** ** Arrays of 32-bit words inside a block, the [uint *a] of the C code *)

Definition word_at (l : list Z) (i : nat) : Z := get_le 4 (4 * i) l.
Definition set_word (l : list Z) (i : nat) (z : Z) : list Z := put_le 4 (4 * i) z l.

Lemma word_at_set_same l i z :
  (4 * i + 4 <= length l)%nat -> word_at (set_word l i z) i = z mod 4294967296.
Proof. intros. unfold word_at, set_word. by rewrite get_put_same. Qed.

Lemma word_at_set_small l i z :
  (4 * i + 4 <= length l)%nat -> 0 <= z < 4294967296 -> word_at (set_word l i z) i = z.
Proof. intros. rewrite word_at_set_same by done. by apply Z.mod_small. Qed.

Lemma word_at_set_other l i j z :
  (4 * i + 4 <= length l)%nat -> i <> j -> word_at (set_word l i z) j = word_at l j.
Proof. intros. unfold word_at, set_word. rewrite get_put_other; [done|done|lia]. Qed.

Lemma length_set_word l i z :
  (4 * i + 4 <= length l)%nat -> length (set_word l i z) = length l.
Proof. apply length_put_le. Qed.

Lemma set_word_ok l i z : bytes_ok l -> bytes_ok (set_word l i z).
Proof. apply put_le_ok. Qed.

(** [bytes_ok] by computation. *)
Definition bytes_okb (l : list Z) : bool := forallb (fun b => (0 <=? b) && (b <? 256)) l.

Lemma bytes_okb_spec l : bytes_okb l = true -> bytes_ok l.
Proof.
  unfold bytes_okb. induction l as [|b l IH]; simpl; [constructor|].
  rewrite !andb_true_iff. intros [[? ?] ?]. constructor; [unfold byte_ok; lia|auto].
Qed.

(** ** Bitmaps, least significant bit first: bit [i] is in byte [i/8]. *)

Definition rd (l : list Z) (i : Z) : Z := default 0 (l !! Z.to_nat i).

Definition bit (l : list Z) (i : Z) : bool := Z.testbit (rd l (i / 8)) (i mod 8).

(** The mask [1 << (i % 8)] of the C code. *)
Definition bmask (i : Z) : Z := Z.shiftl 1 (i mod 8).

Definition set_bit (l : list Z) (i : Z) : list Z :=
  <[Z.to_nat (i / 8) := u8 (Z.lor (rd l (i / 8)) (bmask i))]> l.

Definition clear_bit (l : list Z) (i : Z) : list Z :=
  <[Z.to_nat (i / 8) := u8 (Z.land (rd l (i / 8)) (Z.lnot (bmask i)))]> l.

Lemma bmask_pow i : bmask i = 2 ^ (i mod 8).
Proof. unfold bmask. rewrite Z.shiftl_mul_pow2, Z.mul_1_l by elia. done. Qed.

Lemma land_bmask b i : (Z.land b (bmask i) =? 0) = negb (Z.testbit b (i mod 8)).
Proof.
  rewrite bmask_pow. assert (0 <= i mod 8) by elia.
  destruct (Z.testbit b (i mod 8)) eqn:E; simpl.
  - apply Z.eqb_neq. intros H0. apply (f_equal (fun z => Z.testbit z (i mod 8))) in H0.
    rewrite Z.land_spec, E, Z.pow2_bits_true, Z.bits_0 in H0 by done. done.
  - apply Z.eqb_eq, Z.bits_inj'. intros n Hn. rewrite Z.land_spec, Z.bits_0.
    destruct (decide (n = i mod 8)) as [->|]; [by rewrite E|].
    rewrite Z.pow2_bits_false by done. apply andb_false_r.
Qed.

Lemma length_set_bit l i : length (set_bit l i) = length l.
Proof. apply length_insert. Qed.

Lemma length_clear_bit l i : length (clear_bit l i) = length l.
Proof. apply length_insert. Qed.

Lemma set_bit_ok l i : bytes_ok l -> bytes_ok (set_bit l i).
Proof. intros. apply Forall_insert; [done|]. apply u8_range. Qed.

Lemma clear_bit_ok l i : bytes_ok l -> bytes_ok (clear_bit l i).
Proof. intros. apply Forall_insert; [done|]. apply u8_range. Qed.

Lemma testbit_u8 z k : 0 <= k < 8 -> Z.testbit (u8 z) k = Z.testbit z k.
Proof. intros. unfold u8. change 256 with (2 ^ 8). apply Z.mod_pow2_bits_low. lia. Qed.

Lemma bit_insert l i j b :
  0 <= i < 8 * Z.of_nat (length l) -> 0 <= j ->
  bit (<[Z.to_nat (i / 8) := b]> l) j =
    (if decide (j / 8 = i / 8) then Z.testbit b (j mod 8) else bit l j).
Proof.
  intros Hi Hj. unfold bit, rd. case_decide as He.
  - rewrite He, list_lookup_insert_eq by elia. done.
  - rewrite list_lookup_insert_ne; [done|]. elia.
Qed.

Lemma div_mod_8_inj i j : i / 8 = j / 8 -> i mod 8 = j mod 8 -> i = j.
Proof. elia. Qed.

Lemma bit_set_bit l i j :
  0 <= i < 8 * Z.of_nat (length l) -> 0 <= j ->
  bit (set_bit l i) j = (if decide (i = j) then true else bit l j).
Proof.
  intros Hi Hj. unfold set_bit. rewrite bit_insert by done.
  case_decide as He; [|by rewrite decide_False by congruence].
  rewrite testbit_u8, Z.lor_spec, bmask_pow by elia.
  case_decide as He'; subst.
  - rewrite Z.pow2_bits_true by elia. apply orb_true_r.
  - rewrite Z.pow2_bits_false by (intros ?; apply He'; by apply div_mod_8_inj).
    rewrite orb_false_r. unfold bit. by rewrite He.
Qed.

Lemma bit_clear_bit l i j :
  0 <= i < 8 * Z.of_nat (length l) -> 0 <= j ->
  bit (clear_bit l i) j = (if decide (i = j) then false else bit l j).
Proof.
  intros Hi Hj. unfold clear_bit. rewrite bit_insert by done.
  case_decide as He; [|by rewrite decide_False by congruence].
  rewrite testbit_u8, Z.land_spec, Z.lnot_spec, bmask_pow by elia.
  case_decide as He'; subst.
  - rewrite Z.pow2_bits_true by elia. apply andb_false_r.
  - rewrite Z.pow2_bits_false by (intros ?; apply He'; by apply div_mod_8_inj).
    rewrite andb_true_r. unfold bit. by rewrite He.
Qed.

(** Two byte sequences with the same length and the same bits are equal. *)
Lemma byte_bits_eq a b :
  byte_ok a -> byte_ok b -> (forall k, 0 <= k < 8 -> Z.testbit a k = Z.testbit b k) -> a = b.
Proof.
  unfold byte_ok. intros Ha Hb H. apply Z.bits_inj'. intros k Hk.
  destruct (decide (k < 8)); [by apply H|].
  rewrite <- (Z.mod_small a (2 ^ 8)), <- (Z.mod_small b (2 ^ 8)) by (simpl; lia).
  by rewrite !Z.mod_pow2_bits_high by lia.
Qed.

Lemma bits_eq l l' :
  bytes_ok l -> bytes_ok l' -> length l = length l' ->
  (forall i, 0 <= i < 8 * Z.of_nat (length l) -> bit l i = bit l' i) -> l = l'.
Proof.
  intros Hl Hl' Hlen Hb. apply list_eq_same_length with (n := length l); [done..|].
  intros i x y Hi Hx Hy. apply byte_bits_eq.
  - exact (Forall_lookup_1 _ _ _ _ Hl Hx).
  - exact (Forall_lookup_1 _ _ _ _ Hl' Hy).
  - intros k Hk. specialize (Hb (8 * Z.of_nat i + k)).
    unfold bit, rd in Hb.
    replace ((8 * Z.of_nat i + k) / 8) with (Z.of_nat i) in Hb by elia.
    replace ((8 * Z.of_nat i + k) mod 8) with k in Hb by elia.
    rewrite Nat2Z.id, Hx, Hy in Hb. apply Hb. lia.
Qed.

(** ** Bytes spread over blocks of 1024 *)

Definition bytes_of (blk : Z -> list Z) (off n : Z) : list Z := (fun o => rd (blk (o / 1024)) (o mod 1024)) <$> seqZ off n.

Lemma length_bytes_of blk off n : length (bytes_of blk off n) = Z.to_nat n.
Proof. unfold bytes_of. by rewrite length_fmap, length_seqZ. Qed.

Lemma lookup_bytes_of blk off n i :
  (i < Z.to_nat n)%nat -> bytes_of blk off n !! i = Some (rd (blk ((off + Z.of_nat i) / 1024)) ((off + Z.of_nat i) mod 1024)).
Proof. intros Hi. unfold bytes_of. rewrite list_lookup_fmap, lookup_seqZ_lt by lia. done. Qed.

Lemma bytes_of_app blk off m n : 0 <= m -> 0 <= n -> bytes_of blk off m ++ bytes_of blk (off + m) n = bytes_of blk off (m + n).
Proof. intros. unfold bytes_of. by rewrite <- fmap_app, <- seqZ_app. Qed.

(** The part of one block. *)
Lemma slice_bytes_of blk off m :
  length (blk (off / 1024)) = 1024%nat -> 0 <= off -> 0 <= m <= 1024 - off mod 1024 ->
  slice (Z.to_nat (off mod 1024)) (Z.to_nat m) (blk (off / 1024)) = bytes_of blk off m.
Proof.
  intros Hlen Hoff Hm. assert (0 <= off mod 1024 < 1024) by elia.
  apply (list_eq_same_length _ _ (Z.to_nat m)).
  - apply length_bytes_of.
  - apply length_slice. lia.
  - intros i x y Hi Hx Hy. rewrite lookup_slice in Hx by done. rewrite lookup_bytes_of in Hy by done. injection Hy as <-.
    replace ((off + Z.of_nat i) / 1024) with (off / 1024) by elia.
    replace ((off + Z.of_nat i) mod 1024) with (off mod 1024 + Z.of_nat i) by elia.
    unfold rd. replace (Z.to_nat (off mod 1024 + Z.of_nat i)) with (Z.to_nat (off mod 1024) + i)%nat by lia.
    by rewrite Hx.
Qed.

(** A part of what was read from the start. *)
Lemma slice_bytes_prefix blk size off n :
  0 <= off -> 0 <= n -> off + n <= size ->
  slice (Z.to_nat off) (Z.to_nat n) (bytes_of blk 0 size) = bytes_of blk off n.
Proof.
  intros Ho Hn Hs. apply (list_eq_same_length _ _ (Z.to_nat n)).
  - apply length_bytes_of.
  - apply length_slice. rewrite length_bytes_of. lia.
  - intros i a b Hi Ha Hb. rewrite lookup_slice in Ha by done. rewrite lookup_bytes_of in Ha, Hb by lia. simplify_eq.
    f_equal; [f_equal; f_equal|f_equal]; lia.
Qed.

