(* ===== verification/Sleeplock.v ===== *)
(** Sleep locks (sleeplock.c, sleeplock.h) as one thread sees them.

    The critical sections of the inner spin lock [lk->lk] run without
    interleaving, so they are single steps here; the interleavings of several
    threads on a spin lock are the subject of [Spinlock.v]. [me] is
    [myproc()->pid]. *)

From S2P Require Import Prelude.

(** [struct sleeplock]: is the lock held, and the pid of its holder. *)
Record sleeplock := Sleeplock { sl_locked : Z; sl_pid : Z }.

Definition initsleeplock : sleeplock := Sleeplock 0 0.

(** [acquiresleep]: sleep while the lock is held, then take it. In a run of one
    thread nobody releases a held lock, so the thread stays asleep. *)
Definition acquiresleep {S} (me : Z) (lk : sleeplock) : M S sleeplock :=
  if negb (sl_locked lk =? 0) then asleep else mret (Sleeplock 1 me).

Definition releasesleep (lk : sleeplock) : sleeplock := Sleeplock 0 0.

Definition holdingsleep (me : Z) (lk : sleeplock) : bool :=
  negb (sl_locked lk =? 0) && (sl_pid lk =? me).

Lemma acquiresleep_free {S} me lk (s : S) Q :
  sl_locked lk = 0 -> Q (Sleeplock 1 me) s -> wp (acquiresleep me lk) s Q.
Proof. unfold acquiresleep. by intros ->. Qed.

Lemma holdingsleep_acquired me : holdingsleep me (Sleeplock 1 me) = true.
Proof. unfold holdingsleep. simpl. by rewrite Z.eqb_refl. Qed.
