(* ===== verification/Spinlock.v ===== *)
(** Spin locks (spinlock.c), with the interrupt flag and the nesting counter of the
    processor they disable interrupts on (proc.c), as programs of several
    processors that interleave at every access to a lock.

    The fields of a lock that only debugging uses (its name and the call stack)
    are left out. [ncli] counts nested calls and is taken as a mathematical integer. *)

From S2P Require Import Prelude.

(** A lock, and what a processor has of [struct cpu] and of its flags register. *)
Record spinlock := Spinlock { locked : Z; lk_cpu : option nat }.
Record cpu := Cpu { c_if : bool; c_ncli : Z; c_intena : bool }.

Definition initlock : spinlock := Spinlock 0 None.

Definition set_if b c := Cpu b (c_ncli c) (c_intena c).
Definition set_ncli n c := Cpu (c_if c) n (c_intena c).
Definition set_intena b c := Cpu (c_if c) (c_ncli c) b.

(** Where a processor is in [acquire] or [release] of a lock:
    the flags are read ([Flags]); [pushcli] is over ([Nested]); [holding] has read [locked] ([Seen]);
    spinning on the exchange ([Spin]); the lock is taken ([Taken]);
    the call of [release] ([Called]), [holding] has read [locked] ([Tested]), the checks are over ([Passed]),
    the owner is erased ([Erased]), the lock is free ([Freed]). *)
Inductive point :=
  | Flags (b : bool) | Nested | Seen (v : Z) | Spin | Taken
  | Called | Tested (v : Z) | Passed | Erased | Freed.

Section Cpu.
(** [cpus[i].apicid] for the processors found at boot, and what [lapicid()] reads on this one. *)
Context (apicids : list Z) (hw : Z).

Definition mycpu : M cpu nat :=
  f ← gets c_if;
  if (f : bool) then panic "mycpu called with interrupts enabled
"
  else match list_find (eq hw) apicids with
       | Some (i, _) => mret i
       | None => panic "unknown apicid
"
       end.

(** [pushcli], with the flags that [readeflags] has returned. *)
Definition pushcli_with (eflags : bool) : M cpu unit :=
  modify (set_if false) ;;
  _ ← mycpu;
  n ← gets c_ncli;
  guard_ok (n =? 0) (modify (set_intena eflags)) ;;
  modify (fun c => set_ncli (c_ncli c + 1) c).
Definition pushcli : M cpu unit := f ← gets c_if; pushcli_with f.

Definition popcli : M cpu unit :=
  f ← gets c_if;
  guard_ok f (panic "popcli - interruptible") ;;
  _ ← mycpu;
  modify (fun c => set_ncli (c_ncli c - 1) c) ;;
  n ← gets c_ncli;
  guard_ok (n <? 0) (panic "popcli") ;;
  e ← gets c_intena;
  guard_ok ((n =? 0) && e) (modify (set_if true)).

Definition on_cpu {A} (m : M cpu A) : M (cpu * spinlock) A := zoom fst (fun c s => (c, snd s)) m.

(** The second half of [holding], after it has read [v] from [lock->locked]. *)
Definition holding_rest (v : Z) : M (cpu * spinlock) bool :=
  r ← (if v =? 0 then mret false
       else i ← on_cpu mycpu; k ← gets snd; mret (bool_decide (lk_cpu k = Some i)));
  on_cpu popcli ;;
  mret r.

Definition lock_upd (f : spinlock -> spinlock) : M (cpu * spinlock) unit := modify (fun s => (fst s, f (snd s))).

(** One step of [acquire] or [release]: the code between two accesses to the lock. [None] is the return. *)
Definition micro (p : point) : M (cpu * spinlock) (option point) :=
  match p with
  | Flags b => on_cpu (pushcli_with b) ;; mret (Some Nested)
  | Nested => on_cpu pushcli ;; k ← gets snd; mret (Some (Seen (locked k)))
  | Seen v => h ← holding_rest v; guard_ok h (panic "acquire") ;; mret (Some Spin)
  | Spin => k ← gets snd;                                    (* xchg(&lk->locked, 1) *)
      lock_upd (fun k => Spinlock 1 (lk_cpu k)) ;;
      mret (Some (if locked k =? 0 then Taken else Spin))
  | Taken => i ← on_cpu mycpu;
      lock_upd (fun k => Spinlock (locked k) (Some i)) ;;
      mret None
  | Called => on_cpu pushcli ;; k ← gets snd; mret (Some (Tested (locked k)))
  | Tested v => h ← holding_rest v; guard_ok (negb h) (panic "release") ;; mret (Some Passed)
  | Passed => lock_upd (fun k => Spinlock (locked k) None) ;; mret (Some Erased)
  | Erased => lock_upd (fun k => Spinlock 0 (lk_cpu k)) ;; mret (Some Freed)
  | Freed => on_cpu popcli ;; mret None
  end.

(** The checks at the start of [sched]; [running] is [p->state == RUNNING]. *)
Definition sched_checks (running : bool) : M (cpu * spinlock) unit :=
  on_cpu pushcli ;; k ← gets snd; h ← holding_rest (locked k);
  guard_ok (negb h) (panic "sched ptable.lock") ;;
  n ← gets (fun s => c_ncli (fst s));
  guard_ok (negb (n =? 1)) (panic "sched locks") ;;
  guard_ok running (panic "sched running") ;;
  f ← gets (fun s => c_if (fst s));
  guard_ok f (panic "sched interruptible").
End Cpu.

(** ** Processors that interleave

    A processor runs code that calls [acquire] and [release] as it likes; [f_at] is where it is inside a call, and
    [f_held] are the locks it has acquired and not released. An interrupt suspends that code where it is, also
    inside [acquire], and runs a handler with interrupts off; [f_base] tells whether they are on when the code holds no lock. *)
Record frame := Frame { f_at : option (nat * point); f_held : list nat; f_base : bool }.
Record core := Core { cr_cpu : cpu; cr_top : frame; cr_below : list frame }.

Definition start (base : bool) : core := Core (Cpu base 0 false) (Frame None [] base) [].

Definition goes (at' : option (nat * point)) (held : list nat) (c' : cpu) (c : core) : core :=
  Core c' (Frame at' held (f_base (cr_top c))) (cr_below c).

Definition held_after (l : nat) (p : point) (held : list nat) : list nat :=
  match p with Taken => l :: held | Erased => filter (fun m => m <> l) held | _ => held end.

Section System.
Context (apicids : list Z) (hw : nat -> Z).

Inductive step : list core * list spinlock -> list core * list spinlock -> Prop :=
  | st_acquire i c l cs ks :
      cs !! i = Some c -> f_at (cr_top c) = None -> (l < length ks)%nat ->
      step (cs, ks) (<[i := goes (Some (l, Flags (c_if (cr_cpu c)))) (f_held (cr_top c)) (cr_cpu c) c]> cs, ks)
  | st_release i c l cs ks :
      cs !! i = Some c -> f_at (cr_top c) = None -> (l < length ks)%nat ->
      step (cs, ks) (<[i := goes (Some (l, Called)) (f_held (cr_top c)) (cr_cpu c) c]> cs, ks)
  | st_micro i c l p k r c' k' cs ks :
      cs !! i = Some c -> f_at (cr_top c) = Some (l, p) -> ks !! l = Some k ->
      micro apicids (hw i) p (cr_cpu c, k) = Ok r (c', k') ->
      step (cs, ks) (<[i := goes ((fun q => (l, q)) <$> r) (held_after l p (f_held (cr_top c))) c' c]> cs, <[l := k']> ks)
  | st_interrupt i c cs ks :
      cs !! i = Some c -> c_if (cr_cpu c) = true ->
      step (cs, ks) (<[i := Core (set_if false (cr_cpu c)) (Frame None [] false) (cr_top c :: cr_below c)]> cs, ks)
  | st_iret i c f fs cs ks :
      cs !! i = Some c -> f_at (cr_top c) = None -> f_held (cr_top c) = [] -> cr_below c = f :: fs ->
      step (cs, ks) (<[i := Core (set_if true (cr_cpu c)) f fs]> cs, ks).

(** A lock belongs to the processor from the exchange that finds it free to the store that frees it. *)
Definition owns (c : core) (l : nat) : Prop := l ∈ f_held (cr_top c) \/ f_at (cr_top c) = Some (l, Taken).
Definition unnamed (c : core) (l : nat) : Prop := f_at (cr_top c) = Some (l, Taken) \/ f_at (cr_top c) = Some (l, Erased).
#[export] Instance point_dec : EqDecision point.
Proof. solve_decision. Defined.
#[export] Instance unnamed_dec c l : Decision (unnamed c l).
Proof. unfold unnamed. apply _. Defined.

(** How many [pushcli] are open on top of one for each lock held. *)
Definition extra (a : option (nat * point)) : Z :=
  match a with
  | Some (_, (Nested | Spin | Taken | Freed | Tested _)) => 1
  | Some (_, Seen _) => 2
  | _ => 0
  end.

(** What is known at a point. *)
Definition at_ok (f : frame) (c : cpu) : Prop :=
  match f_at f with
  | Some (_, Flags b) => b = c_if c
  | Some (l, (Seen v | Tested v)) => l ∈ f_held f -> v = 1
  | Some (l, Taken) => l ∉ f_held f
  | Some (l, (Passed | Erased)) => l ∈ f_held f
  | _ => True
  end.

Definition suspended (f : frame) : Prop :=
  f_held f = [] /\ f_base f = true /\ (f_at f = None \/ exists l, f_at f = Some (l, Flags true) \/ f_at f = Some (l, Called)).

(** The counter, the flag and the saved flag agree; with no [pushcli] open interrupts are as [base] says. *)
Definition counted (base : bool) (c : cpu) : Prop :=
  0 <= c_ncli c /\ c_if c = base && (c_ncli c =? 0) /\ (c_ncli c <> 0 -> c_intena c = base).

Record core_ok (c : core) : Prop := {
  co_ncli : c_ncli (cr_cpu c) = Z.of_nat (length (f_held (cr_top c))) + extra (f_at (cr_top c));
  co_count : counted (f_base (cr_top c)) (cr_cpu c);
  co_nodup : NoDup (f_held (cr_top c));
  co_at : at_ok (cr_top c) (cr_cpu c);
  co_below : Forall suspended (cr_below c);
}.

Definition lock_ok (cs : list core) (l : nat) (k : spinlock) : Prop :=
  (locked k = 0 /\ lk_cpu k = None /\ forall i c, cs !! i = Some c -> ~ owns c l) \/
  (exists i c, locked k = 1 /\ cs !! i = Some c /\ owns c l /\ lk_cpu k = (if decide (unnamed c l) then None else Some i) /\
     forall j c', cs !! j = Some c' -> owns c' l -> j = i).

Definition sys_ok (s : list core * list spinlock) : Prop :=
  (forall i c, s.1 !! i = Some c -> core_ok c) /\ (forall l k, s.2 !! l = Some k -> lock_ok s.1 l k).

(** ** The code of one processor *)

Section Me.
Context (i : nat) (Hme : fst <$> list_find (eq (hw i)) apicids = Some i).

Lemma mycpu_ok c : c_if c = false -> mycpu apicids (hw i) c = Ok i c.
Proof.
  intros Hf. unfold mycpu, mbind, M_bind, gets. rewrite Hf. destruct (list_find _ _) as [[j a]|]; [|done].
  simpl in Hme. by injection Hme as ->.
Qed.

Lemma pushcli_with_ok b c :
  pushcli_with apicids (hw i) b c = Ok tt (Cpu false (c_ncli c + 1) (if c_ncli c =? 0 then b else c_intena c)).
Proof.
  unfold pushcli_with. rewrite (bind_ok _ _ _ tt (set_if false c)) by done. rewrite (bind_ok _ _ _ i _ (mycpu_ok (set_if false c) eq_refl)).
  unfold mbind, M_bind, gets, guard_ok, modify. cbn. by destruct (c_ncli c =? 0).
Qed.

Lemma popcli_ok c :
  c_if c = false -> 1 <= c_ncli c -> popcli apicids (hw i) c = Ok tt (Cpu ((c_ncli c =? 1) && c_intena c) (c_ncli c - 1) (c_intena c)).
Proof.
  intros Hf Hn. unfold popcli. rewrite (bind_ok _ _ _ (c_if c) c) by done. rewrite Hf.
  rewrite (bind_ok _ _ _ tt c) by done. rewrite (bind_ok _ _ _ i _ (mycpu_ok c Hf)).
  unfold mbind, M_bind, gets, guard_ok, modify. cbn. rewrite (proj2 (Z.ltb_ge _ 0)) by lia.
  destruct c as [f n e]. cbn in *. subst f. replace (n - 1 =? 0) with (n =? 1) by (destruct (Z.eqb_spec n 1), (Z.eqb_spec (n - 1) 0); lia || done).
  by destruct ((n =? 1) && e).
Qed.

Definition popped (c : cpu) : cpu := Cpu ((c_ncli c =? 1) && c_intena c) (c_ncli c - 1) (c_intena c).
Definition pushed (b : bool) (c : cpu) : cpu := Cpu false (c_ncli c + 1) (if c_ncli c =? 0 then b else c_intena c).

(** [holding] answers whether the lock was taken and names this processor. *)
Definition names (v : Z) (k : spinlock) : bool := negb (v =? 0) && bool_decide (lk_cpu k = Some i).

Lemma holding_rest_ok v c k :
  c_if c = false -> 1 <= c_ncli c -> holding_rest apicids (hw i) v (c, k) = Ok (names v k) (popped c, k).
Proof.
  intros Hf Hn. unfold holding_rest, names. destruct (v =? 0); cbn [negb andb].
  - rewrite (bind_ok _ _ _ false (c, k)) by done. unfold mbind, M_bind, on_cpu, zoom. cbn. by rewrite popcli_ok.
  - assert ((j ← on_cpu (mycpu apicids (hw i)); k ← gets snd; mret (bool_decide (lk_cpu k = Some j))) (c, k) =
      Ok (bool_decide (lk_cpu k = Some i)) (c, k)) as He.
    { unfold mbind, M_bind, on_cpu, zoom. cbn. by rewrite mycpu_ok. }
    rewrite (bind_ok _ _ _ _ _ He). unfold mbind, M_bind, on_cpu, zoom. cbn. by rewrite popcli_ok.
Qed.

(** What a step does, checks included. *)
Definition effect (p : point) (c : cpu) (k : spinlock) : outcome (cpu * spinlock) (option point) :=
  match p with
  | Flags b => Ok (Some Nested) (pushed b c, k)
  | Nested => Ok (Some (Seen (locked k))) (pushed (c_if c) c, k)
  | Seen v => if names v k then Panic "acquire" else Ok (Some Spin) (popped c, k)
  | Spin => Ok (Some (if locked k =? 0 then Taken else Spin)) (c, Spinlock 1 (lk_cpu k))
  | Taken => Ok None (c, Spinlock (locked k) (Some i))
  | Called => Ok (Some (Tested (locked k))) (pushed (c_if c) c, k)
  | Tested v => if names v k then Ok (Some Passed) (popped c, k) else Panic "release"
  | Passed => Ok (Some Erased) (c, Spinlock (locked k) None)
  | Erased => Ok (Some Freed) (c, Spinlock 0 (lk_cpu k))
  | Freed => Ok None (popped c, k)
  end.

Lemma micro_effect p c k :
  (match p with Seen _ | Taken | Tested _ | Freed => c_if c = false /\ 1 <= c_ncli c | _ => True end) ->
  micro apicids (hw i) p (c, k) = effect p c k.
Proof.
  intros Hp. destruct p; cbn [micro effect]; try match type of Hp with _ /\ _ => destruct Hp end; unfold pushcli, mbind, M_bind, on_cpu, zoom; cbn;
    rewrite ?pushcli_with_ok, ?holding_rest_ok, ?mycpu_ok, ?popcli_ok by done; try done; by destruct (names v k).
Qed.

Lemma counted_pushed base c : counted base c -> counted base (pushed (c_if c) c).
Proof.
  intros (Hn & Hf & He). unfold counted, pushed. cbn. split; [lia|]. split.
  - rewrite (proj2 (Z.eqb_neq _ 0)) by lia. by rewrite andb_false_r.
  - intros _. destruct (Z.eqb_spec (c_ncli c) 0); [|by apply He]. by rewrite Hf, andb_true_r.
Qed.

Lemma counted_popped base c : counted base c -> 1 <= c_ncli c -> counted base (popped c).
Proof.
  intros (_ & Hf & He) Hn. unfold counted, popped. cbn. split; [lia|]. specialize (He ltac:(lia)). split; [|done].
  rewrite He, andb_comm. f_equal. destruct (Z.eqb_spec (c_ncli c) 1), (Z.eqb_spec (c_ncli c - 1) 0); lia || done.
Qed.

Lemma counted_off base c : counted base c -> 1 <= c_ncli c -> c_if c = false.
Proof. intros (_ & -> & _) Hn. rewrite (proj2 (Z.eqb_neq _ 0)) by lia. apply andb_false_r. Qed.

Lemma core_micro c l p k :
  core_ok c -> f_at (cr_top c) = Some (l, p) -> micro apicids (hw i) p (cr_cpu c, k) = effect p (cr_cpu c) k.
Proof.
  intros [Hn Hc _ _ _] Hat. apply micro_effect. rewrite Hat in Hn.
  destruct p; cbn [extra] in Hn; try done; (split; [|lia]); eapply counted_off; [exact Hc|lia|exact Hc|lia|exact Hc|lia|exact Hc|lia].
Qed.

(** A filter on a list without duplicates takes one element away. *)
Lemma length_filter_ne (l : nat) held : NoDup held -> l ∈ held -> length held = S (length (filter (fun m => m <> l) held)).
Proof.
  intros Hd Hl. change (length held = length (l :: filter (fun m => m <> l) held)). apply Permutation_length, NoDup_Permutation; [done| |].
  - apply NoDup_cons. split; [|by apply NoDup_filter]. by intros [? _]%list_elem_of_filter.
  - intros x. rewrite elem_of_cons, list_elem_of_filter. destruct (decide (x = l)) as [->|]; naive_solver.
Qed.

(** The processor's own state is right after the step. *)
Lemma core_step c l p k r c' k' :
  core_ok c -> f_at (cr_top c) = Some (l, p) ->
  (l ∈ f_held (cr_top c) -> locked k = 1) -> (f_at (cr_top c) = Some (l, p) -> p <> Taken -> lk_cpu k = Some i -> l ∈ f_held (cr_top c)) ->
  effect p (cr_cpu c) k = Ok r (c', k') -> core_ok (goes ((fun q => (l, q)) <$> r) (held_after l p (f_held (cr_top c))) c' c).
Proof.
  intros [Hn Hc Hd Ha Hb] Hat Hl1 Hl2 Hr. unfold at_ok in Ha. rewrite Hat in *. specialize (Hl2 eq_refl).
  destruct p; cbn [effect held_after extra] in *; try destruct (names v k) eqn:Hnm; try discriminate; injection Hr as <- <- <-;
    (split; cbn [goes cr_cpu cr_top cr_below f_at f_held f_base fmap option_fmap option_map]; [| | |unfold at_ok; cbn|exact Hb]); try exact Hd; try exact Hc;
    try (apply counted_popped; [done|lia]); try (by apply counted_pushed); cbn [pushed popped c_ncli extra length]; try lia; try done.
  - subst b. by apply counted_pushed.
  - by destruct (locked k =? 0).
  - destruct (Z.eqb_spec (locked k) 0) as [H0|]; [|done]. intros Hl. specialize (Hl1 Hl). lia.
  - by apply NoDup_cons.
  - apply Hl2; [done|]. unfold names in Hnm. by apply andb_true_iff in Hnm as [_ ?%bool_decide_eq_true].
  - pose proof (length_filter_ne l _ Hd Ha). lia.
  - by apply NoDup_filter.
Qed.

(** A lock that is free when the processor takes it has no owner before, and this one after. *)
Lemma lock_free cs l k j c : lock_ok cs l k -> locked k = 0 -> cs !! j = Some c -> ~ owns c l.
Proof. intros [(_ & _ & Hno)|(j' & c' & H1 & _)] H0; [apply Hno|lia]. Qed.

Lemma lock_owner cs l k j c : lock_ok cs l k -> cs !! j = Some c -> owns c l ->
  locked k = 1 /\ lk_cpu k = (if decide (unnamed c l) then None else Some j) /\ forall j' c', cs !! j' = Some c' -> owns c' l -> j' = j.
Proof.
  intros [(_ & _ & Hno)|(j' & c' & H1 & Hc' & Ho & Hk & Hu)] Hc Hoc; [by apply Hno in Hc|].
  pose proof (Hu _ _ Hc Hoc) as ->. rewrite Hc in Hc'. injection Hc' as <-. done.
Qed.

Lemma lock_named cs l k c : lock_ok cs l k -> lk_cpu k = Some i -> cs !! i = Some c -> owns c l.
Proof.
  intros [(_ & Hn & _)|(j & c' & _ & Hc' & Ho & Hk & _)] Hi Hc; [congruence|].
  rewrite Hk in Hi. destruct (decide (unnamed c' l)); [done|]. injection Hi as ->. rewrite Hc in Hc'. by injection Hc' as <-.
Qed.

Lemma lock_keep cs j c c' l k :
  cs !! j = Some c -> (owns c' l <-> owns c l) -> (unnamed c' l <-> unnamed c l) -> lock_ok cs l k -> lock_ok (<[j := c']> cs) l k.
Proof.
  intros Hc Ho Hu [(H0 & Hn & Hno)|(m & d & H1 & Hd & Hod & Hk & Huniq)].
  - left. split_and!; [done|done|]. intros j' d [(-> & -> & _)|[_ Hd]]%list_lookup_insert_Some; [rewrite Ho; by eapply Hno|by eapply Hno].
  - right. assert (forall j' d', <[j := c']> cs !! j' = Some d' -> owns d' l -> j' = m) as Hu'.
    { intros j' d' [(-> & -> & _)|[_ Hd']]%list_lookup_insert_Some Hod'; [apply (Huniq _ c Hc); by apply Ho|by apply (Huniq _ d')]. }
    destruct (decide (m = j)) as [->|Hne].
    + rewrite Hc in Hd. injection Hd as <-. exists j, c'. split_and!; [done|apply list_lookup_insert_eq; by eapply lookup_lt_Some|by apply Ho| |done].
      rewrite Hk. by apply decide_ext.
    + exists m, d. rewrite list_lookup_insert_ne by done. done.
Qed.

(** The processor becomes the owner, or stops to be it. *)
Lemma lock_take cs j c c' l k :
  cs !! j = Some c -> (forall m d, cs !! m = Some d -> m <> j -> ~ owns d l) -> owns c' l -> locked k = 1 ->
  lk_cpu k = (if decide (unnamed c' l) then None else Some j) -> lock_ok (<[j := c']> cs) l k.
Proof.
  intros Hc Hno Ho H1 Hk. right. exists j, c'. split_and!; [done|apply list_lookup_insert_eq; by eapply lookup_lt_Some|done|done|].
  intros m d [(-> & _ & _)|[Hne Hd]]%list_lookup_insert_Some Hod; [done|]. by destruct (Hno m d Hd (not_eq_sym Hne)).
Qed.

Lemma lock_leave cs j c c' l k :
  cs !! j = Some c -> (forall m d, cs !! m = Some d -> m <> j -> ~ owns d l) -> ~ owns c' l -> locked k = 0 -> lk_cpu k = None ->
  lock_ok (<[j := c']> cs) l k.
Proof.
  intros Hc Hno Ho H0 Hk. left. split_and!; [done|done|].
  intros m d [(_ & -> & _)|[Hne Hd]]%list_lookup_insert_Some; [done|]. by apply (Hno m d Hd).
Qed.

Lemma lock_step cs c l p k r c' k' :
  core_ok c -> cs !! i = Some c -> f_at (cr_top c) = Some (l, p) -> lock_ok cs l k -> effect p (cr_cpu c) k = Ok r (c', k') ->
  lock_ok (<[i := goes ((fun q => (l, q)) <$> r) (held_after l p (f_held (cr_top c))) c' c]> cs) l k'.
Proof.
  intros [_ _ _ Ha _] Hc Hat Hk Hr. unfold at_ok in Ha. rewrite Hat in Ha.
  destruct p; cbn [effect held_after] in *; try destruct (names v k) eqn:Hnm; try discriminate; injection Hr as <- <- <-;
    try (eapply lock_keep; [exact Hc|unfold owns; cbn; rewrite Hat; naive_solver|unfold unnamed; cbn; rewrite Hat; naive_solver|exact Hk]).
  - destruct (Z.eqb_spec (locked k) 0) as [H0|H0].
    + eapply lock_take; [exact Hc|intros m d Hd _; by eapply lock_free|by right|done|].
      rewrite decide_True by (by left). destruct Hk as [(_ & ? & _)|(? & ? & ? & _)]; [done|lia].
    + assert (Spinlock 1 (lk_cpu k) = k) as -> by (destruct Hk as [(? & _)|(? & ? & ? & _)], k; cbn in *; [lia|by subst]).
      eapply lock_keep; [exact Hc|unfold owns; cbn; rewrite Hat; naive_solver|unfold unnamed; cbn; rewrite Hat; naive_solver|exact Hk].
  - destruct (lock_owner cs l k i c Hk Hc (or_intror Hat)) as (H1 & _ & Hu). eapply lock_take; [exact Hc| |by left; left|done|].
    + intros m d Hd Hne Ho. by apply Hne, (Hu m d).
    + rewrite decide_False; [done|]. by intros [?|?].
  - destruct (lock_owner cs l k i c Hk Hc (or_introl Ha)) as (H1 & _ & Hu). eapply lock_take; [exact Hc| |by left|done|].
    + intros m d Hd Hne Ho. by apply Hne, (Hu m d).
    + rewrite decide_True; [done|]. by right.
  - destruct (lock_owner cs l k i c Hk Hc (or_introl Ha)) as (H1 & Hn & Hu). rewrite decide_True in Hn by (by right).
    eapply lock_leave; [exact Hc| | |done|exact Hn].
    + intros m d Hd Hne Ho. by apply Hne, (Hu m d).
    + intros [Hl|Hl]; [|done]. by apply list_elem_of_filter in Hl as [? _].
Qed.
End Me.

(** ** Every reachable state *)

Definition boot_sys (bases : list bool) (n : nat) : list core * list spinlock := (start <$> bases, replicate n initlock).

Lemma boot_sys_ok bases n : sys_ok (boot_sys bases n).
Proof.
  split; cbn.
  - intros i c Hc. apply list_lookup_fmap_Some in Hc as (b & -> & _). split; cbn; try done; [|constructor].
    split; [done|]. split; [by rewrite andb_true_r|done].
  - intros l k Hk. apply lookup_replicate in Hk as [-> _]. left. split_and!; [done|done|].
    intros i c Hc. apply list_lookup_fmap_Some in Hc as (b & -> & _). intros [Hl|Hl]; [by apply elem_of_nil in Hl|done].
Qed.

Context (Hids : forall i, (i < length apicids)%nat -> fst <$> list_find (eq (hw i)) apicids = Some i).

(** A change of one processor that does not touch any lock. *)
Lemma quiet_ok cs ks i c c' :
  sys_ok (cs, ks) -> cs !! i = Some c -> core_ok c' -> (forall l, owns c' l <-> owns c l) -> (forall l, unnamed c' l <-> unnamed c l) ->
  sys_ok (<[i := c']> cs, ks).
Proof.
  intros [Hcs Hks] Hc Hc' Ho Hu. split; cbn in *.
  - intros j d [(_ & -> & _)|[_ Hd]]%list_lookup_insert_Some; [done|by eapply Hcs].
  - intros l k Hk. eapply lock_keep; [exact Hc|apply Ho|apply Hu|by apply Hks].
Qed.

(** Another lock does not change hands. *)
Lemma owns_other c l p r c' m :
  m <> l -> f_at (cr_top c) = Some (l, p) ->
  owns (goes ((fun q => (l, q)) <$> r) (held_after l p (f_held (cr_top c))) c' c) m <-> owns c m.
Proof.
  intros Hne Hat. unfold owns. cbn. rewrite Hat. assert (m ∈ held_after l p (f_held (cr_top c)) <-> m ∈ f_held (cr_top c)) as ->.
  { destruct p; cbn; try done; [rewrite elem_of_cons; naive_solver|rewrite list_elem_of_filter; naive_solver]. }
  destruct r; cbn; naive_solver.
Qed.

(** With interrupts on, the processor holds no lock and is not inside an access to one. *)
Lemma interruptible c : core_ok c -> c_if (cr_cpu c) = true ->
  suspended (cr_top c) /\ c_ncli (cr_cpu c) = 0 /\ (forall l, ~ owns c l) /\ (forall l, ~ unnamed c l).
Proof.
  intros [Hn (H0 & Hi & _) _ Ha _] Hf. rewrite Hf in Hi. symmetry in Hi. apply andb_true_iff in Hi as [Hb Hz%Z.eqb_eq].
  assert (0 <= extra (f_at (cr_top c))) as Hx by (destruct (f_at (cr_top c)) as [[? []]|]; cbn; lia).
  assert (f_held (cr_top c) = []) as Hh by (apply nil_length_inv; lia). unfold at_ok in Ha. rewrite Hh, Hf in Ha. rewrite Hh in Hn. cbn in Hn.
  unfold suspended, owns, unnamed. rewrite Hh.
  destruct (f_at (cr_top c)) as [[l []]|]; cbn in Hn, Ha; try lia; try (by apply elem_of_nil in Ha); subst;
    (split_and!; [done|done|eauto|done| |]); intros m [Hm|Hm]; try done; by apply elem_of_nil in Hm.
Qed.

Lemma step_ok s s' : step s s' -> length s.1 = length apicids -> sys_ok s -> sys_ok s' /\ length s'.1 = length apicids.
Proof.
  intros Hs Hlen Hok. destruct Hs as [i c l cs ks Hc Hat Hl|i c l cs ks Hc Hat Hl|i c l p k r c' k' cs ks Hc Hat Hk Hm|i c cs ks Hc Hf|i c f fs cs ks Hc Hat Hh Hb];
    (split; [|cbn in *; by rewrite length_insert]); pose proof (proj1 Hok i c Hc) as Hco.
  - eapply quiet_ok; [exact Hok|exact Hc| | |]; [|intros m; unfold owns; cbn; rewrite Hat; naive_solver|intros m; unfold unnamed; cbn; rewrite Hat; naive_solver].
    destruct Hco as [Hn Hcnt Hd _ Hbl]. rewrite Hat in Hn. split; try done.
  - eapply quiet_ok; [exact Hok|exact Hc| | |]; [|intros m; unfold owns; cbn; rewrite Hat; naive_solver|intros m; unfold unnamed; cbn; rewrite Hat; naive_solver].
    destruct Hco as [Hn Hcnt Hd _ Hbl]. rewrite Hat in Hn. split; try done.
  - assert (fst <$> list_find (eq (hw i)) apicids = Some i) as Hme by (apply Hids; cbn in Hlen; rewrite <- Hlen; by eapply lookup_lt_Some).
    destruct Hok as [Hcs Hks]. cbn in *. rewrite (core_micro i Hme c l) in Hm by done. pose proof (Hks l k Hk) as Hlk. split; cbn.
    + intros j d [(_ & <- & _)|[_ Hd]]%list_lookup_insert_Some; [|by eapply Hcs]. eapply (core_step i); [done|done| | |exact Hm].
      * intros Hl. by apply (lock_owner cs l k i c Hlk Hc (or_introl Hl)).
      * intros _ Hp Hi. destruct (lock_named i cs l k c Hlk Hi Hc) as [?|Ht]; [done|]. rewrite Hat in Ht. by injection Ht as ->.
    + intros m k2 [(<- & <- & _)|[Hne Hk2]]%list_lookup_insert_Some; [by eapply lock_step|].
      eapply lock_keep; [exact Hc| | |by apply Hks].
      * apply owns_other; [done|exact Hat].
      * unfold unnamed. cbn. rewrite Hat. destruct r; cbn; naive_solver.
  - destruct (interruptible c Hco Hf) as (Hsus & Hn & Ho & Hu). eapply quiet_ok; [exact Hok|exact Hc| |intros l; split; [|by intros ?%Ho]|intros l; split; [|by intros ?%Hu]].
    + split; cbn; try done; [|by constructor|by constructor; [|apply Hco]]. split; cbn; [lia|]. split; [done|]. by intros ?.
    + intros [Hl|Hl]; [by apply elem_of_nil in Hl|done].
    + by intros [Hl|Hl].
  - pose proof (co_below _ Hco) as Hsus. rewrite Hb in Hsus. apply Forall_cons in Hsus as [Hf Hfs].
    destruct Hf as (Hh' & Hbase & Hat'). assert (c_ncli (cr_cpu c) = 0) as Hn by (rewrite (co_ncli _ Hco), Hat, Hh; done).
    eapply quiet_ok; [exact Hok|exact Hc| |intros l; split|intros l; split].
    + split; cbn; [rewrite Hh', Hn; by destruct Hat' as [->|[l [->| ->]]]| |by rewrite Hh'; constructor| |done].
      * split; cbn; [lia|]. split; [by rewrite Hbase, Hn|]. by intros ?.
      * unfold at_ok. by destruct Hat' as [->|[l [->| ->]]].
    + intros [Hl|Hl]; cbn in Hl; [rewrite Hh' in Hl; by apply elem_of_nil in Hl|]. by destruct Hat' as [E|[m [E|E]]]; rewrite E in Hl.
    + intros [Hl|Hl]; [rewrite Hh in Hl; by apply elem_of_nil in Hl|by rewrite Hat in Hl].
    + intros Hu. by destruct Hat' as [E|[m [E|E]]]; destruct Hu as [Hu|Hu]; cbn in Hu; rewrite E in Hu.
    + by intros [Hl|Hl]; rewrite Hat in Hl.
Qed.

Lemma reach_ok bases n s : length bases = length apicids -> rtc step (boot_sys bases n) s -> sys_ok s /\ length s.1 = length apicids.
Proof.
  intros Hb Hr. assert (sys_ok (boot_sys bases n) /\ length (boot_sys bases n).1 = length apicids) as H0
    by (split; [apply boot_sys_ok|cbn; by rewrite length_fmap]).
  revert H0. induction Hr as [|s1 s2 s3 Hs _ IH]; [done|]. intros [Hok Hl]. apply IH. by eapply step_ok.
Qed.

(** [holding] answers whether the lock is held here. *)
Lemma names_held cs i c l k v :
  cs !! i = Some c -> lock_ok cs l k -> ~ unnamed c l -> (l ∈ f_held (cr_top c) -> v <> 0) ->
  names i v k = true <-> l ∈ f_held (cr_top c).
Proof.
  intros Hc Hk Hu Hv. unfold names. rewrite andb_true_iff, negb_true_iff, bool_decide_eq_true, Z.eqb_neq. split.
  - intros [_ Hi]. destruct (lock_named i cs l k c Hk Hi Hc) as [?|?]; [done|]. destruct Hu. by left.
  - intros Hl. split; [by apply Hv|]. destruct (lock_owner cs l k i c Hk Hc (or_introl Hl)) as (_ & -> & _). by rewrite decide_False.
Qed.

Lemma pop_pushed c : c_if (popped (pushed (c_if c) c)) = (c_ncli c =? 0) && c_if c /\ c_ncli (popped (pushed (c_if c) c)) = c_ncli c.
Proof.
  unfold popped, pushed. cbn. split; [|lia]. destruct (Z.eqb_spec (c_ncli c) 0), (Z.eqb_spec (c_ncli c + 1) 1); lia || done.
Qed.

Lemma sched_checks_eq i running c k :
  fst <$> list_find (eq (hw i)) apicids = Some i -> 0 <= c_ncli c ->
  sched_checks apicids (hw i) running (c, k) =
    if negb (names i (locked k) k) then Panic "sched ptable.lock"
    else if negb (c_ncli c =? 1) then Panic "sched locks"
    else if running then Panic "sched running" else Ok tt (popped (pushed (c_if c) c), k).
Proof.
  intros Hme Hn. unfold sched_checks. rewrite (bind_ok _ _ _ tt (pushed (c_if c) c, k)).
  2:{ unfold on_cpu, zoom, pushcli. rewrite (bind_ok _ _ _ (c_if c) c) by done. by rewrite (pushcli_with_ok i Hme). }
  rewrite (bind_ok _ _ _ k (pushed (c_if c) c, k)) by done.
  rewrite (bind_ok _ _ _ _ _ (holding_rest_ok i Hme (locked k) (pushed (c_if c) c) k eq_refl ltac:(cbn; lia))).
  destruct (names i (locked k) k); [|done]. cbn [negb]. destruct (pop_pushed c) as [Hf Hnc].
  rewrite (bind_ok (guard_ok false _) _ _ tt (popped (pushed (c_if c) c), k)) by done.
  rewrite (bind_ok (gets _) _ _ (c_ncli c) (popped (pushed (c_if c) c), k)) by (unfold gets; cbn [fst]; by rewrite Hnc).
  destruct (Z.eqb_spec (c_ncli c) 1) as [H1|]; [|done]. cbn. destruct running; [done|]. unfold popped, pushed. cbn. rewrite H1. done.
Qed.

(** The calls that the code must not make. *)
Definition misuse (p : point) (l : nat) (held : list nat) : Prop :=
  match p with Seen _ => l ∈ held | Tested _ => l ∉ held | _ => False end.

Section One.
Context (cs : list core) (i : nat) (c : core) (l : nat) (k : spinlock).
Hypothesis Hme : fst <$> list_find (eq (hw i)) apicids = Some i.
Hypothesis Hc : cs !! i = Some c.
Hypothesis Hco : core_ok c.
Hypothesis Hk : lock_ok cs l k.

Lemma owner_off : owns c l -> c_if (cr_cpu c) = false.
Proof.
  destruct Hco as [Hn Hcnt _ _ _]. intros Ho. eapply counted_off; [exact Hcnt|]. destruct Ho as [Hl|Ht]; [|rewrite Ht in Hn; cbn in Hn; lia].
  assert (0 < length (f_held (cr_top c)))%nat by (destruct (f_held (cr_top c)); [by apply elem_of_nil in Hl|cbn; lia]).
  assert (0 <= extra (f_at (cr_top c))) by (destruct (f_at (cr_top c)) as [[? []]|]; cbn; lia). lia.
Qed.

Lemma checks_exact p : f_at (cr_top c) = Some (l, p) ->
  (misuse p l (f_held (cr_top c)) ->
     micro apicids (hw i) p (cr_cpu c, k) = Panic (match p with Seen _ => "acquire" | _ => "release" end)) /\
  (~ misuse p l (f_held (cr_top c)) -> exists r t, micro apicids (hw i) p (cr_cpu c, k) = Ok r t).
Proof.
  intros Hat. rewrite (core_micro i Hme c l) by done. pose proof (co_at _ Hco) as Ha. unfold at_ok in Ha. rewrite Hat in Ha.
  assert (forall v, (p = Seen v \/ p = Tested v) -> names i v k = true <-> l ∈ f_held (cr_top c)) as Hnm.
  { intros v Hp. apply (names_held cs); [done|done|unfold unnamed; rewrite Hat; naive_solver|]. intros Hl. destruct Hp as [-> | ->]; by rewrite Ha. }
  destruct p; cbn; try (split; [done|eauto]).
  - specialize (Hnm v (or_introl eq_refl)). destruct (names i v k); (split; [|eauto]); [done|naive_solver|naive_solver].
  - specialize (Hnm v (or_intror eq_refl)). destruct (names i v k); (split; [|eauto]); [naive_solver|done|naive_solver].
Qed.

Lemma sched_exact : f_at (cr_top c) = None ->
  (exists t, sched_checks apicids (hw i) false (cr_cpu c, k) = Ok tt t) <-> f_held (cr_top c) = [l].
Proof.
  intros Hat. destruct Hco as [Hn (H0 & _) _ _ _]. rewrite Hat in Hn. cbn in Hn. rewrite sched_checks_eq by done.
  pose proof (names_held cs i c l k (locked k) Hc Hk) as Hnm.
  assert (names i (locked k) k = true <-> l ∈ f_held (cr_top c)) as Hl.
  { apply Hnm; [unfold unnamed; rewrite Hat; naive_solver|]. intros Hl. by rewrite (proj1 (lock_owner cs l k i c Hk Hc (or_introl Hl))). }
  destruct (names i (locked k) k); cbn [negb]; [|split; [by intros [? ?]|intros Hh; rewrite Hh in Hl; set_solver]].
  destruct (Z.eqb_spec (c_ncli (cr_cpu c)) 1) as [H1|H1]; cbn [negb].
  - split; [intros _|eauto]. specialize (proj1 Hl eq_refl) as Hin. destruct (f_held (cr_top c)) as [|m [|]]; cbn in *; [lia| |lia].
    apply list_elem_of_singleton in Hin. by subst.
  - split; [by intros [? ?]|]. intros Hh. rewrite Hh in Hn. cbn in Hn. lia.
Qed.
End One.

(** C8: Spin locks exclude, under every interleaving of the processors and of interrupts: a lock has one owner at
    most; interrupts are off on a processor that owns a lock, so no handler can wait for it; [acquire] and [release] panic
    exactly when the processor has the lock already or does not have it, and no check of [mycpu] or [popcli]
    ever fires; the checks of [sched] pass exactly for code that holds [ptable.lock] and no other lock. *)
Theorem spinlock_exclusion bases n cs ks :
  length bases = length apicids -> rtc step (boot_sys bases n) (cs, ks) ->
  forall l k, ks !! l = Some k ->
    (forall i j c d, cs !! i = Some c -> cs !! j = Some d -> owns c l -> owns d l -> i = j) /\
    forall i c, cs !! i = Some c ->
      (owns c l -> c_if (cr_cpu c) = false) /\
      (forall p, f_at (cr_top c) = Some (l, p) ->
         (misuse p l (f_held (cr_top c)) ->
            micro apicids (hw i) p (cr_cpu c, k) = Panic (match p with Seen _ => "acquire" | _ => "release" end)) /\
         (~ misuse p l (f_held (cr_top c)) -> exists r t, micro apicids (hw i) p (cr_cpu c, k) = Ok r t)) /\
      (f_at (cr_top c) = None ->
         (exists t, sched_checks apicids (hw i) false (cr_cpu c, k) = Ok tt t) <-> f_held (cr_top c) = [l]).
Proof.
  intros Hb Hr l k Hk. destruct (reach_ok _ _ _ Hb Hr) as [[Hcs Hks] Hlen]. cbn in *. pose proof (Hks l k Hk) as Hl. split.
  { intros i j c d Hc Hd Hoc Hod. destruct (lock_owner cs l k i c Hl Hc Hoc) as (_ & _ & Hu). by rewrite (Hu j d). }
  intros i c Hc. pose proof (Hcs i c Hc) as Hco.
  assert (fst <$> list_find (eq (hw i)) apicids = Some i) as Hme by (apply Hids; rewrite <- Hlen; by eapply lookup_lt_Some).
  split_and!; [by apply owner_off|by apply (checks_exact cs)|by apply (sched_exact cs)].
Qed.

End System.

(** Two processors with the identifiers 4 and 6. The first has the lock, the second spins on it. *)
Definition two_ids : list Z := [4; 6].
Definition two_hw (i : nat) : Z := match i with O => 4 | _ => 6 end.

(** Running the next piece of code of a processor. *)
Definition turn (i : nat) (s : list core * list spinlock) : option (list core * list spinlock) :=
  c ← s.1 !! i; lp ← f_at (cr_top c); k ← s.2 !! lp.1;
  match micro two_ids (two_hw i) lp.2 (cr_cpu c, k) with
  | Ok r (c', k') => Some (<[i := goes ((fun q => (lp.1, q)) <$> r) (held_after lp.1 lp.2 (f_held (cr_top c))) c' c]> s.1, <[lp.1 := k']> s.2)
  | _ => None
  end.
Lemma turn_step i s s' : turn i s = Some s' -> step two_ids two_hw s s'.
Proof.
  destruct s as [cs ks]. unfold turn. intros (c & Hc & ([l p] & Hat & (k & Hk & He)%bind_Some)%bind_Some)%bind_Some. cbn in *.
  destruct (micro _ _ p _) as [r [c' k']| | | |] eqn:Hm; [|done..]. injection He as <-. by eapply st_micro.
Qed.
Definition turns (ts : list nat) (s : list core * list spinlock) : option (list core * list spinlock) := foldl (fun o i => o ≫= turn i) (Some s) ts.
Lemma turns_steps ts s s' : turns ts s = Some s' -> rtc (step two_ids two_hw) s s'.
Proof.
  unfold turns. revert s. induction ts as [|i ts IH]; intros s; cbn; [intros [= ->]; apply rtc_refl|].
  destruct (turn i s) as [s1|] eqn:Ht.
  - intros Hf. eapply rtc_l; [by eapply turn_step|by apply IH].
  - intros Hf. exfalso. clear -Hf. induction ts; cbn in Hf; [done|]. by apply IHts.
Qed.

Definition called (s : list core * list spinlock) (i : nat) : list core * list spinlock :=
  match s.1 !! i with
  | Some c => (<[i := goes (Some (0%nat, Flags (c_if (cr_cpu c)))) (f_held (cr_top c)) (cr_cpu c) c]> s.1, s.2)
  | None => s
  end.

Lemma spinlock_exclusion_witness :
  exists cs ks, rtc (step two_ids two_hw) (boot_sys [true; true] 1) (cs, ks) /\
    (exists c d, cs !! 0%nat = Some c /\ cs !! 1%nat = Some d /\ owns c 0 /\ f_at (cr_top d) = Some (0%nat, Spin) /\ ~ owns d 0 /\ c_if (cr_cpu c) = false).
Proof.
  set (s1 := called (called (boot_sys [true; true] 1) 0) 1).
  destruct (turns [0; 1; 0; 1; 0; 1; 0; 0; 1; 1]%nat s1) as [[cs ks]|] eqn:Hs; [|by vm_compute in Hs].
  assert (rtc (step two_ids two_hw) (boot_sys [true; true] 1) (cs, ks)) as Hr.
  { eapply rtc_l; [by apply (st_acquire _ _ 0 (start true) 0); [..|apply Nat.lt_0_1]|].
    eapply rtc_l; [by apply (st_acquire _ _ 1 (start true) 0); [..|apply Nat.lt_0_1]|]. exact (turns_steps _ _ _ Hs). }
  exists cs, ks. split; [exact Hr|].
  assert (exists c d k, cs !! 0%nat = Some c /\ cs !! 1%nat = Some d /\ ks !! 0%nat = Some k /\ f_held (cr_top c) = [0%nat] /\
    f_at (cr_top d) = Some (0%nat, Spin)) as (c & d & k & Hc & Hd & Hk & Hh & Ha).
  { vm_compute in Hs. injection Hs as <- <-. do 3 eexists. by split_and!. }
  assert (owns c 0) as Ho by (left; rewrite Hh; left).
  destruct (spinlock_exclusion two_ids two_hw) with (bases := [true; true]) (n := 1%nat) (cs := cs) (ks := ks) (l := 0%nat) (k := k) as [Hex Hone]; [|done|done|done|].
  - intros [|[|i]] Hi; [done|done|cbn in Hi; lia].
  - exists c, d. split_and!; [done|done|done|done| |by apply (Hone 0%nat c)].
    intros Hod. by specialize (Hex 0%nat 1%nat c d Hc Hd Ho Hod).
Defined.
