(* ===== verification/Buf.v ===== *)
(** Disk buffers and the interface of the disk drivers.

    [struct buf] of buf.h, the array [bcache.buf] with its list head, and what
    a disk driver ([iderw] of ide.c or of memide.c, whichever the kernel is
    linked with) promises to the buffer cache. *)

From S2P Require Import Prelude Bytes Sleeplock.

Definition BSIZE : Z := 1024.
Definition NBUF : nat := 30.
Definition ROOTDEV : Z := 1.
Definition EXT2DEV : Z := 2.

Definition B_VALID : Z := 2.
Definition B_DIRTY : Z := 4.

(** The contents of a block: [BSIZE] bytes. *)
Definition block_ok (l : list Z) : Prop := length l = 1024%nat /\ bytes_ok l.

Definition fill_block (v : Z) : list Z := replicate 1024 v.
Arguments fill_block : simpl never.
Definition zero_block : list Z := fill_block 0.

Lemma fill_block_ok v : byte_ok v -> block_ok (fill_block v).
Proof. intros. split; [done|]. by apply Forall_replicate. Qed.

Lemma zero_block_ok : block_ok zero_block.
Proof. by apply fill_block_ok. Qed.

(** [struct buf]. Pointers to buffers are indices into [bcache]; the last
    index, [NBUF], is [bcache.head]. *)
Record buf := Buf {
  b_flags : Z;
  b_dev : Z;
  b_blockno : Z;
  b_lock : sleeplock;
  b_refcnt : Z;
  b_prev : nat;
  b_next : nat;
  b_data : list Z;
}.

Definition HEAD : nat := NBUF.

Definition with_flags (v : Z) (b : buf) : buf :=
  Buf v (b_dev b) (b_blockno b) (b_lock b) (b_refcnt b) (b_prev b) (b_next b) (b_data b).
Definition with_key (dev blockno : Z) (b : buf) : buf :=
  Buf (b_flags b) dev blockno (b_lock b) (b_refcnt b) (b_prev b) (b_next b) (b_data b).
Definition with_lock (v : sleeplock) (b : buf) : buf :=
  Buf (b_flags b) (b_dev b) (b_blockno b) v (b_refcnt b) (b_prev b) (b_next b) (b_data b).
Definition with_refcnt (v : Z) (b : buf) : buf :=
  Buf (b_flags b) (b_dev b) (b_blockno b) (b_lock b) v (b_prev b) (b_next b) (b_data b).
Definition with_prev (v : nat) (b : buf) : buf :=
  Buf (b_flags b) (b_dev b) (b_blockno b) (b_lock b) (b_refcnt b) v (b_next b) (b_data b).
Definition with_next (v : nat) (b : buf) : buf :=
  Buf (b_flags b) (b_dev b) (b_blockno b) (b_lock b) (b_refcnt b) (b_prev b) v (b_data b).
Definition with_data (v : list Z) (b : buf) : buf :=
  Buf (b_flags b) (b_dev b) (b_blockno b) (b_lock b) (b_refcnt b) (b_prev b) (b_next b) v.

(** The buffer cache, the disk below it, and the pid of the running process. *)
Record bstate (D : Type) := BState { bufs : list buf; disk : D; me : Z }.
Arguments BState {D} bufs disk me.
Arguments bufs {D} b.
Arguments disk {D} b.
Arguments me {D} b.

Section access.
Context {D : Type}.

Definition set_bufs (bs : list buf) (s : bstate D) : bstate D := BState bs (disk s) (me s).
Definition set_disk (d : D) (s : bstate D) : bstate D := BState (bufs s) d (me s).

(** [*b], and the update of fields of [*b]; wild pointers fault. *)
Definition buf_at (i : nat) : M (bstate D) buf := fun s => deref (bufs s !! i) s.
Definition buf_upd (i : nat) (f : buf -> buf) : M (bstate D) unit := fun s =>
  match bufs s !! i with
  | Some b => Ok tt (set_bufs (<[i := f b]> (bufs s)) s)
  | None => Fault
  end.

Lemma wp_buf_at i b (s : bstate D) (Q : buf -> bstate D -> Prop) :
  bufs s !! i = Some b -> Q b s -> wp (buf_at i) s Q.
Proof. unfold wp, buf_at. by intros ->. Qed.

Lemma wp_buf_upd i f b (s : bstate D) (Q : unit -> bstate D -> Prop) :
  bufs s !! i = Some b -> Q tt (set_bufs (<[i := f b]> (bufs s)) s) -> wp (buf_upd i f) s Q.
Proof. unfold wp, buf_upd. by intros ->. Qed.
Lemma buf_upd_fuse {A} i f g (k : M (bstate D) A) s :
  (buf_upd i f ;; buf_upd i g ;; k) s = (buf_upd i (fun x => g (f x)) ;; k) s.
Proof.
  unfold mbind, M_bind, buf_upd. destruct (bufs s !! i) as [x|] eqn:Hx; [|done].
  simpl. rewrite list_lookup_insert_eq by (by eapply lookup_lt_Some).
  unfold set_bufs. simpl. by rewrite list_insert_insert_eq.
Qed.

Lemma buf_upd_eq {A} i f (k : M (bstate D) A) s x :
  bufs s !! i = Some x -> (buf_upd i f ;; k) s = k (set_bufs (<[i := f x]> (bufs s)) s).
Proof. intros Hx. unfold mbind, M_bind, buf_upd. by rewrite Hx. Qed.
End access.

(** A completed block write: device, block number, contents. *)
Abbreviation dwrite := (Z * Z * list Z)%type.

(** Contents of a disk after some writes, oldest first. *)
Definition apply_write (v : Z -> Z -> list Z) (w : dwrite) : Z -> Z -> list Z :=
  fun dev b => if decide ((dev, b) = w.1) then w.2 else v dev b.
Definition replay (v : Z -> Z -> list Z) (ws : list dwrite) : Z -> Z -> list Z :=
  foldl apply_write v ws.

Lemma replay_app v ws ws' : replay v (ws ++ ws') = replay (replay v ws) ws'.
Proof. apply foldl_app. Qed.

Lemma replay_notin v ws dev b :
  (dev, b) ∉ ws.*1 -> replay v ws dev b = v dev b.
Proof.
  revert v. induction ws as [|w ws IH]; intros v Hn; [done|].
  rewrite fmap_cons, not_elem_of_cons in Hn. destruct Hn as [Hw Hn].
  simpl. rewrite IH by done. unfold apply_write. by rewrite decide_False.
Qed.

Lemma replay_in v ws dev b x :
  NoDup ws.*1 -> (dev, b, x) ∈ ws -> replay v ws dev b = x.
Proof.
  revert v. induction ws as [|w ws IH]; intros v Hnd Hin; [by apply not_elem_of_nil in Hin|].
  rewrite fmap_cons, NoDup_cons in Hnd. destruct Hnd as [Hw Hnd].
  apply elem_of_cons in Hin as [<-|Hin]; simpl; [|by apply IH].
  rewrite replay_notin by done. unfold apply_write. by rewrite decide_True.
Qed.

Lemma replay_agree v v' ws dev b :
  v dev b = v' dev b -> replay v ws dev b = replay v' ws dev b.
Proof.
  revert v v'. induction ws as [|w ws IH]; intros v v' He; [done|]. simpl. apply IH.
  unfold apply_write. by case_decide.
Qed.

(** What a disk driver gives the buffer cache. [dblock] is the contents of a
    block, [dhist] the writes completed so far, [dvalid] the blocks that exist,
    [dwf] says that the driver is idle and its disks are there. *)
Class DiskDriver (D : Type) := {
  iderw : nat -> M (bstate D) unit;
  dblock : D -> Z -> Z -> list Z;
  dhist : D -> list dwrite;
  dvalid : D -> Z -> Z -> Prop;
  dwf : D -> Prop;
}.

(** [d'] is [d] up to the driver's own bookkeeping. *)
Definition dsame {D} `{DiskDriver D} (d d' : D) : Prop :=
  dwf d' /\ (forall dev b, dblock d' dev b = dblock d dev b) /\
  (forall dev b, dvalid d' dev b <-> dvalid d dev b) /\ dhist d' = dhist d.

(** [d'] is [d] after the write of one block. *)
Definition dwrote {D} `{DiskDriver D} (w : dwrite) (d d' : D) : Prop :=
  dwf d' /\
  (forall dev b, dvalid d dev b -> dblock d' dev b = apply_write (dblock d) w dev b) /\
  (forall dev b, dvalid d' dev b <-> dvalid d dev b) /\ dhist d' = dhist d ++ [w].

(** [iderw]: "If B_DIRTY is set, write buf to disk, clear B_DIRTY, set B_VALID.
    Else if B_VALID is not set, read buf from disk, set B_VALID." *)
Class DiskDriverLaws (D : Type) `{DiskDriver D} := {
  iderw_read : forall (s : bstate D) i b,
    dwf (disk s) -> bufs s !! i = Some b -> holdingsleep (me s) (b_lock b) = true ->
    b_flags b = 0 -> block_ok (b_data b) ->
    dvalid (disk s) (b_dev b) (b_blockno b) ->
    wp (iderw i) s (fun _ s' => exists d', dsame (disk s) d' /\
      s' = BState (<[i := with_flags B_VALID
                       (with_data (dblock (disk s) (b_dev b) (b_blockno b)) b)]> (bufs s))
             d' (me s));
  iderw_write : forall (s : bstate D) i b,
    dwf (disk s) -> bufs s !! i = Some b -> holdingsleep (me s) (b_lock b) = true ->
    b_flags b = Z.lor B_VALID B_DIRTY -> block_ok (b_data b) ->
    dvalid (disk s) (b_dev b) (b_blockno b) ->
    wp (iderw i) s (fun _ s' => exists d',
      dwrote (b_dev b, b_blockno b, b_data b) (disk s) d' /\
      s' = BState (<[i := with_flags B_VALID b]> (bufs s)) d' (me s));
  dblock_ok : forall d dev b, dwf d -> dvalid d dev b -> block_ok (dblock d dev b);
  dvalid_dev : forall d dev b, dvalid d dev b -> dev <> 0;
}.
