(* ===== verification/Memide.v ===== *)
(** The in-memory disk (memide.c), a disk driver without a device: the blocks
    live in the image [_binary_fs_img_start] linked into the kernel. *)

From S2P Require Import Prelude Bytes Sleeplock Buf.

(** [disksize], the bytes at [memdisk], and the writes completed so far (the
    history is not in the C program; nothing reads it but [dhist]). *)
Record memdisk := Memdisk { md_disksize : Z; md_bytes : list Z; md_hist : list dwrite }.

(** [ideinit]: [img] is the image and [size] its length, the symbol
    [_binary_fs_img_size]. *)
Definition ideinit (img : list Z) (size : Z) : memdisk :=
  Memdisk (s32 (size / BSIZE)) img [].

(** [memmove(p, b->data, BSIZE)] with [p = memdisk + b->blockno*BSIZE]. *)
Definition md_store (blockno : Z) (data : list Z) (d : memdisk) (dev : Z) : memdisk :=
  Memdisk (md_disksize d) (splice (Z.to_nat (blockno * BSIZE)) data (md_bytes d))
    (md_hist d ++ [(dev, blockno, data)]).

Definition md_load (blockno : Z) (d : memdisk) : list Z :=
  slice (Z.to_nat (blockno * BSIZE)) (Z.to_nat BSIZE) (md_bytes d).

Definition md_iderw (i : nat) : M (bstate memdisk) unit :=
  b ← buf_at i;
  pid ← gets me;
  if negb (holdingsleep pid (b_lock b)) then panic "iderw: buf not locked"
  else if Z.land (b_flags b) (Z.lor B_VALID B_DIRTY) =? B_VALID
  then panic "iderw: nothing to do"
  else if negb (b_dev b =? 1) then panic "iderw: request not for disk 1"
  else
    d ← gets disk;
    if u32 (md_disksize d) <=? b_blockno b then panic "iderw: block out of range"
    else
      (if negb (Z.land (b_flags b) B_DIRTY =? 0) then
         buf_upd i (fun b => with_flags (Z.land (b_flags b) (Z.lnot B_DIRTY)) b) ;;
         modify (fun s => set_disk (md_store (b_blockno b) (b_data b) (disk s) (b_dev b)) s)
       else
         buf_upd i (with_data (md_load (b_blockno b) d))) ;;
      buf_upd i (fun b => with_flags (Z.lor (b_flags b) B_VALID) b).

Definition md_valid (d : memdisk) (dev b : Z) : Prop := dev = 1 /\ 0 <= b < md_disksize d.

(** The image has [disksize] blocks of bytes. *)
Definition md_wf (d : memdisk) : Prop :=
  0 <= md_disksize d < 2147483648 /\
  length (md_bytes d) = Z.to_nat (md_disksize d * BSIZE) /\ bytes_ok (md_bytes d).

Arguments md_store : simpl never.
Arguments md_load : simpl never.

#[export] Instance memide_driver : DiskDriver memdisk := {|
  iderw := md_iderw;
  dblock d dev b := md_load b d;
  dhist := md_hist;
  dvalid := md_valid;
  dwf := md_wf;
|}.

Lemma md_load_ok d b : md_wf d -> 0 <= b < md_disksize d -> block_ok (md_load b d).
Proof.
  intros (Hs & Hl & Hok) Hb. unfold BSIZE in *. split.
  - unfold md_load. rewrite length_slice; unfold BSIZE; [done|]. lia.
  - by apply Forall_slice.
Qed.

(** Block-sized slices at block offsets do not overlap. *)
Lemma md_load_store d dev b data b' :
  md_wf d -> 0 <= b < md_disksize d -> 0 <= b' < md_disksize d -> length data = 1024%nat ->
  md_load b' (md_store b data d dev) = if decide (b' = b) then data else md_load b' d.
Proof.
  intros (Hs & Hl & Hok) Hb Hb' Hd. unfold md_load, md_store, BSIZE in *. simpl.
  case_decide as He.
  - subst b'. rewrite <- Hd at 1. rewrite slice_splice_same; [done|lia].
  - apply slice_splice_other; lia.
Qed.

Lemma md_store_wf d dev b data :
  md_wf d -> 0 <= b < md_disksize d -> block_ok data -> md_wf (md_store b data d dev).
Proof.
  intros (Hs & Hl & Hok) Hb (Hd & Hdok). unfold md_wf, md_store, BSIZE in *. simpl.
  repeat split; [lia|lia| |by apply Forall_splice].
  rewrite length_splice; [done|lia].
Qed.

#[export] Instance memide_laws : DiskDriverLaws memdisk.
Proof.
  split.
  - intros s i b Hwf Hi Hh Hf Hok (Hdev & Hb). simpl. unfold md_iderw.
    eapply wp_bind, wp_buf_at; [done|]. eapply wp_bind, wp_gets.
    rewrite Hh, Hf, Hdev. simpl. eapply wp_bind, wp_gets.
    rewrite u32_small by (destruct Hwf; lia).
    rewrite (proj2 (Z.leb_gt _ _)) by lia.
    eapply wp_bind, wp_buf_upd; [done|]. eapply wp_buf_upd.
    { simpl. rewrite list_lookup_insert_eq; [done|]. by eapply lookup_lt_Some. }
    exists (disk s). split; [done|]. unfold set_bufs. simpl.
    rewrite list_insert_insert_eq. by rewrite Hf.
  - intros s i b Hwf Hi Hh Hf Hok (Hdev & Hb). simpl. unfold md_iderw.
    eapply wp_bind, wp_buf_at; [done|]. eapply wp_bind, wp_gets.
    rewrite Hh, Hf, Hdev. simpl. eapply wp_bind, wp_gets.
    rewrite u32_small by (destruct Hwf; lia).
    rewrite (proj2 (Z.leb_gt _ _)) by lia.
    eapply wp_bind, wp_bind, wp_buf_upd; [done|]. eapply wp_modify, wp_buf_upd.
    { simpl. rewrite list_lookup_insert_eq; [done|]. by eapply lookup_lt_Some. }
    eexists. split; [|unfold set_bufs, set_disk; simpl; by rewrite list_insert_insert_eq, Hf].
    simpl. split; [by apply md_store_wf|]. split; [|done].
    intros dev b' (-> & Hb'). simpl. rewrite md_load_store by (done || apply Hok).
    unfold apply_write. simpl. repeat case_decide; by simplify_eq.
  - intros d dev b Hwf (Hdev & Hb). by apply md_load_ok.
  - intros d dev b (-> & _). done.
Qed.

(** The disk with given blocks. *)
Definition disk_of (blks : list (list Z)) : memdisk :=
  Memdisk (Z.of_nat (length blks)) (mjoin blks) [].

Lemma disk_of_wf blks :
  Forall block_ok blks -> Z.of_nat (length blks) < 2147483648 -> md_wf (disk_of blks).
Proof.
  intros Hok Hlt. unfold md_wf, disk_of, BSIZE. simpl. split_and!; [lia|lia| |].
  - assert (length (mjoin blks) = length blks * 1024)%nat as ->; [|lia]. clear Hlt.
    induction Hok as [|b blks [Hb _] Hok IH]; [done|]. simpl. rewrite length_app, IH, Hb. lia.
  - apply Forall_join. eapply Forall_impl; [exact Hok|]. by intros b [_ Hb].
Qed.

Lemma md_load_disk_of blks k b :
  Forall block_ok blks -> blks !! k = Some b -> md_load (Z.of_nat k) (disk_of blks) = b.
Proof.
  intros Hok. unfold md_load, disk_of, BSIZE. simpl.
  replace (Z.to_nat (Z.of_nat k * 1024)) with (k * 1024)%nat by lia. change (Z.to_nat 1024) with 1024%nat.
  revert k. induction Hok as [|b' blks [Hb _] Hok IH]; intros k Hk; [done|].
  unfold slice in *. destruct k as [|k].
  - injection Hk as ->. simpl mjoin. rewrite Nat.mul_0_l, drop_0, <- Hb. apply take_app_length.
  - simpl mjoin. rewrite drop_app_ge by lia. rewrite <- (IH k Hk). repeat f_equal. lia.
Qed.
