(* ===== verification/Ide.v ===== *)
(** The IDE driver (ide.c) on a disk controller given by the ports it reads and
    writes, and the proof that it keeps the promises of a disk driver. *)

From S2P Require Import Prelude Bytes Sleeplock Buf.

Definition IDE_BSY : Z := 128.
Definition IDE_DRDY : Z := 64.
Definition IDE_DF : Z := 32.
Definition IDE_ERR : Z := 1.
Definition IDE_CMD_READ : Z := 32.
Definition IDE_CMD_WRITE : Z := 48.
Definition IDE_CMD_RDMUL : Z := 196.
Definition IDE_CMD_WRMUL : Z := 197.
Definition SECTOR_SIZE : Z := 512.
Definition FSSIZE : Z := 1000.
Definition EXT2FSSIZE : Z := 20000.

(** The two IDE channels as the kernel reaches them: [inb], [outb], [insl] and
    [outsl] of x86.h, and the interrupt that is pending, with the state once the
    processor has taken it. [patience] is how often the status is polled before a
    controller that does not become ready is given up. [sector h c d n] is what
    drive [d] of channel [c] holds in sector [n]. *)
Class Ata (H : Type) := {
  inb : Z -> H -> Z * H;
  outb : Z -> Z -> H -> H;
  insl : Z -> nat -> H -> list Z * H;
  outsl : Z -> list Z -> H -> H;
  take_irq : H -> option (Z * H);
  patience : nat;
  sector : H -> Z -> Z -> Z -> list Z;
}.

(** The driver's globals; [ide_qnext] is the field [qnext] of the buffers, which
    only the driver uses. [ide_hist] records the blocks written and is read by
    [dhist] alone. *)
Record ide (H : Type) := Ide {
  ide_hw : H; idequeue : option nat; ide_qnext : gmap nat (option nat); havedisk1 : Z; havedisk2 : Z;
  ide_hist : list dwrite;
}.
Arguments Ide {H}. Arguments ide_hw {H}. Arguments idequeue {H}. Arguments ide_qnext {H}.
Arguments havedisk1 {H}. Arguments havedisk2 {H}. Arguments ide_hist {H}.

Section Ide.
Context {H : Type} `{Ata H}.
Abbreviation st := (bstate (ide H)).

Definition set_hw h (d : ide H) : ide H :=
  Ide h (idequeue d) (ide_qnext d) (havedisk1 d) (havedisk2 d) (ide_hist d).
Definition set_queue q (d : ide H) : ide H :=
  Ide (ide_hw d) q (ide_qnext d) (havedisk1 d) (havedisk2 d) (ide_hist d).
Definition set_qnext i q (d : ide H) : ide H :=
  Ide (ide_hw d) (idequeue d) (<[i := q]> (ide_qnext d)) (havedisk1 d) (havedisk2 d) (ide_hist d).
Definition note_write w (d : ide H) : ide H :=
  Ide (ide_hw d) (idequeue d) (ide_qnext d) (havedisk1 d) (havedisk2 d) (ide_hist d ++ [w]).

Definition hw {A} (f : H -> A * H) : M st A := fun s =>
  let (a, h) := f (ide_hw (disk s)) in Ok a (set_disk (set_hw h (disk s)) s).
Definition ide_upd (f : ide H -> ide H) : M st unit := modify (fun s => set_disk (f (disk s)) s).
Definition out (port v : Z) : M st unit := hw (fun h => (tt, outb port v h)).

(** The polling loop of [idewait]: the status once the drive is ready. *)
Fixpoint poll (fuel : nat) (port : Z) (h : H) : option (Z * H) :=
  match fuel with
  | O => None
  | S fuel =>
      let (r, h) := inb (port + 7) h in
      if negb (Z.land r (Z.lor IDE_BSY IDE_DRDY) =? IDE_DRDY) then poll fuel port h else Some (r, h)
  end.

Definition idewait (checkerr : bool) (portno : Z) : M st Z := fun s =>
  match poll patience portno (ide_hw (disk s)) with
  | None => NoFuel
  | Some (r, h) =>
      Ok (if checkerr && negb (Z.land r (Z.lor IDE_DF IDE_ERR) =? 0) then -1 else 0)
        (set_disk (set_hw h (disk s)) s)
  end.

(** The probing loops of [ideinit]. *)
Fixpoint probe (n : nat) (port : Z) (h : H) : Z * H :=
  match n with
  | O => (0, h)
  | S n => let (r, h) := inb port h in if negb (r =? 0) then (1, h) else probe n port h
  end.

(** [ideinit]: [initlock] and the two [ioapicenable] apart. *)
Definition ideinit (h : H) : ide H :=
  let h := outb 502 (Z.lor 224 (Z.shiftl 1 4)) h in
  let (d1, h) := probe 1000 503 h in
  let h := outb 374 (u8 (Z.lor 224 (Z.shiftl 2 4))) h in
  let (d2, h) := probe 1000 375 h in
  let h := outb 502 (Z.lor 224 (Z.shiftl 0 4)) h in
  Ide h None ∅ d1 d2 [].

Definition idestart (ob : option nat) : M st unit :=
  i ← (match ob with None => panic "idestart" | Some i => mret i end);
  b ← buf_at i;
  guard_ok ((b_dev b =? ROOTDEV) && (FSSIZE <=? b_blockno b)) (panic "incorrect xv6 blockno") ;;
  guard_ok ((b_dev b =? EXT2DEV) && (EXT2FSSIZE <=? b_blockno b)) (panic "incorrect ext2 blockno") ;;
  let portno := if b_dev b <=? 1 then 496 else 368 in
  let sector_per_block := BSIZE / SECTOR_SIZE in
  let sector := s32 (b_blockno b * sector_per_block) in
  let read_cmd := if sector_per_block =? 1 then IDE_CMD_READ else IDE_CMD_RDMUL in
  let write_cmd := if sector_per_block =? 1 then IDE_CMD_WRITE else IDE_CMD_WRMUL in
  guard_ok (7 <? sector_per_block) (panic "idestart") ;;
  idewait false portno ;;
  (if b_dev b <=? 1 then out 1014 0 else out 886 0) ;;
  out (portno + 2) sector_per_block ;;
  out (portno + 3) (Z.land sector 255) ;;
  out (portno + 4) (Z.land (Z.shiftr sector 8) 255) ;;
  out (portno + 5) (Z.land (Z.shiftr sector 16) 255) ;;
  out (portno + 6) (Z.lor (Z.lor 224 (Z.shiftl (Z.land (b_dev b) 1) 4)) (Z.land (Z.shiftr sector 24) 15)) ;;
  if negb (Z.land (b_flags b) B_DIRTY =? 0) then
    out (portno + 7) write_cmd ;;
    hw (fun h => (tt, outsl portno (b_data b) h)) ;;
    ide_upd (note_write (b_dev b, b_blockno b, b_data b))
  else out (portno + 7) read_cmd.

Definition ideintr (flag : Z) : M st unit :=
  let portno := if flag =? 0 then 496 else 368 in
  q ← gets (fun s => idequeue (disk s));
  match q with
  | None => mret tt
  | Some i =>
      next ← gets (fun s => default None (ide_qnext (disk s) !! i));
      ide_upd (set_queue next) ;;
      b ← buf_at i;
      (if Z.land (b_flags b) B_DIRTY =? 0 then
         r ← idewait true portno;
         guard_ok (0 <=? r) (
           data ← hw (insl portno (Z.to_nat (BSIZE / 4)));
           buf_upd i (with_data data))
       else mret tt) ;;
      buf_upd i (fun b => with_flags (Z.lor (b_flags b) B_VALID) b) ;;
      buf_upd i (fun b => with_flags (Z.land (b_flags b) (Z.lnot B_DIRTY)) b) ;;
      q ← gets (fun s => idequeue (disk s));
      match q with None => mret tt | Some _ => idestart q end
  end.

(** The loop that walks to the end of the queue: the last buffer of it. *)
Fixpoint queue_end (fuel : nat) (qnext : gmap nat (option nat)) (i : nat) : option nat :=
  match fuel with
  | O => None
  | S fuel => match default None (qnext !! i) with None => Some i | Some j => queue_end fuel qnext j end
  end.

Definition ide_append (i : nat) : M st unit :=
  ide_upd (set_qnext i None) ;;
  d ← gets disk;
  match idequeue d with
  | None => ide_upd (set_queue (Some i))
  | Some j =>
      match queue_end (S NBUF) (ide_qnext d) j with
      | Some e => ide_upd (set_qnext e (Some i))
      | None => nofuel
      end
  end.

(** [while((b->flags & (B_VALID|B_DIRTY)) != B_VALID) sleep(b, &idelock);]: while it
    sleeps the controller's interrupts are served. *)
Fixpoint ide_sleep (fuel : nat) (i : nat) : M st unit :=
  match fuel with
  | O => asleep
  | S fuel =>
      b ← buf_at i;
      if Z.land (b_flags b) (Z.lor B_VALID B_DIRTY) =? B_VALID then mret tt
      else fun s =>
        match take_irq (ide_hw (disk s)) with
        | None => Asleep
        | Some (flag, h) => (ideintr flag ;; ide_sleep fuel i) (set_disk (set_hw h (disk s)) s)
        end
  end.

Definition ide_iderw (i : nat) : M st unit :=
  b ← buf_at i;
  pid ← gets me;
  guard_ok (negb (holdingsleep pid (b_lock b))) (panic "iderw: buf not locked") ;;
  guard_ok (Z.land (b_flags b) (Z.lor B_VALID B_DIRTY) =? B_VALID) (panic "iderw: nothing to do") ;;
  d ← gets disk;
  guard_ok (negb (b_dev b =? 0) && (havedisk1 d =? 0)) (panic "iderw: ide disk 1 not present") ;;
  guard_ok (negb (b_dev b =? 0) && (havedisk2 d =? 0)) (panic "iderw: ide disk 2 not present") ;;
  ide_append i ;;
  q ← gets (fun s => idequeue (disk s));
  guard_ok (bool_decide (q = Some i)) (idestart q) ;;
  ide_sleep (S (S NBUF)) i.
End Ide.

(** ** What the driver relies on of the controller *)

Definition port_of (c : Z) : Z := if c =? 0 then 496 else 368.
Definition ctl_of (c : Z) : Z := if c =? 0 then 1014 else 886.

(** The registers written to give a command. *)
Definition command {H} `{Ata H} (c d lba cmd : Z) (h : H) : H :=
  let p := port_of c in
  outb (p + 7) cmd
    (outb (p + 6) (Z.lor (Z.lor 224 (Z.shiftl d 4)) (Z.land (Z.shiftr lba 24) 15))
      (outb (p + 5) (Z.land (Z.shiftr lba 16) 255)
        (outb (p + 4) (Z.land (Z.shiftr lba 8) 255)
          (outb (p + 3) (Z.land lba 255)
            (outb (p + 2) 2
              (outb (ctl_of c) 0 h)))))).

(** [h'] holds the same sectors as [h]. *)
Definition same_sectors {H} `{Ata H} (h h' : H) : Prop :=
  forall c d n, sector h' c d n = sector h c d n.

(** A controller with nothing to do takes a command; when the data of a write is
    there, or that of a read can be fetched, it interrupts. *)
Class AtaLaws (H : Type) `{Ata H} := {
  idle : H -> Prop;
  present : H -> Z -> Z -> Z -> Prop;
  sector_ok : forall h c d n, idle h -> present h c d n ->
    length (sector h c d n) = 512%nat /\ bytes_ok (sector h c d n);
  poll_idle : forall h c, idle h ->
    exists r h', poll patience (port_of c) h = Some (r, h') /\ idle h' /\ same_sectors h h' /\
      forall c d n, present h' c d n <-> present h c d n;
  write_multiple : forall h c d n data, idle h -> c = 0 \/ c = 1 -> d = 0 \/ d = 1 -> 0 <= n < 2 ^ 28 - 1 ->
    present h c d n -> present h c d (n + 1) -> length data = 1024%nat -> bytes_ok data ->
    exists h', take_irq (outsl (port_of c) data (command c d n IDE_CMD_WRMUL h)) = Some (c, h') /\
      idle h' /\ (forall c d n, present h' c d n <-> present h c d n) /\
      forall c' d' n', sector h' c' d' n' =
        if decide ((c', d', n') = (c, d, n)) then take 512 data
        else if decide ((c', d', n') = (c, d, n + 1)) then drop 512 data else sector h c' d' n';
  read_multiple : forall h c d n, idle h -> c = 0 \/ c = 1 -> d = 0 \/ d = 1 -> 0 <= n < 2 ^ 28 - 1 ->
    present h c d n -> present h c d (n + 1) ->
    exists h1 h2 h3 r, take_irq (command c d n IDE_CMD_RDMUL h) = Some (c, h1) /\
      poll patience (port_of c) h1 = Some (r, h2) /\ Z.land r (Z.lor IDE_DF IDE_ERR) = 0 /\
      insl (port_of c) 256 h2 = (sector h c d n ++ sector h c d (n + 1), h3) /\
      idle h3 /\ same_sectors h h3 /\ forall c d n, present h3 c d n <-> present h c d n;
}.

(** ** The driver as a disk driver *)

Section IdeDriver.
Context {H : Type} `{Ata H} `{!AtaLaws H}.

(** Channel and drive of a device. *)
Definition chan (dev : Z) : Z := if dev <=? 1 then 0 else 1.
Definition drive (dev : Z) : Z := Z.land dev 1.

Definition ide_block (d : ide H) (dev b : Z) : list Z :=
  sector (ide_hw d) (chan dev) (drive dev) (2 * b) ++ sector (ide_hw d) (chan dev) (drive dev) (2 * b + 1).
Definition ide_valid (d : ide H) (dev b : Z) : Prop :=
  ((dev = ROOTDEV /\ 0 <= b < FSSIZE) \/ (dev = EXT2DEV /\ 0 <= b < EXT2FSSIZE)) /\
  present (ide_hw d) (chan dev) (drive dev) (2 * b) /\ present (ide_hw d) (chan dev) (drive dev) (2 * b + 1).
Definition ide_wf (d : ide H) : Prop :=
  idequeue d = None /\ havedisk1 d <> 0 /\ havedisk2 d <> 0 /\ idle (ide_hw d).

#[export] Instance ide_driver : DiskDriver (ide H) := {|
  iderw := ide_iderw;
  dblock := ide_block;
  dhist := ide_hist;
  dvalid := ide_valid;
  dwf := ide_wf;
|}.

Lemma wp_hw {A} (f : H -> A * H) s a h (Q : A -> bstate (ide H) -> Prop) :
  f (ide_hw (disk s)) = (a, h) -> Q a (set_disk (set_hw h (disk s)) s) -> wp (hw f) s Q.
Proof. intros Hf HQ. unfold wp, hw. by rewrite Hf. Qed.

Lemma wp_out port x s (Q : unit -> bstate (ide H) -> Prop) :
  Q tt (set_disk (set_hw (outb port x (ide_hw (disk s))) (disk s)) s) -> wp (out port x) s Q.
Proof. intros HQ. by eapply wp_hw. Qed.

Lemma wp_idewait ck port s r h (Q : Z -> bstate (ide H) -> Prop) :
  poll patience port (ide_hw (disk s)) = Some (r, h) ->
  Q (if ck && negb (Z.land r (Z.lor IDE_DF IDE_ERR) =? 0) then -1 else 0) (set_disk (set_hw h (disk s)) s) ->
  wp (idewait ck port) s Q.
Proof. intros Hp HQ. unfold wp, idewait. by rewrite Hp. Qed.

(** The checks of [iderw] pass and the buffer is alone in the queue. *)
Lemma wp_iderw_start s i b Q :
  ide_wf (disk s) -> bufs s !! i = Some b -> holdingsleep (me s) (b_lock b) = true ->
  Z.land (b_flags b) (Z.lor B_VALID B_DIRTY) <> B_VALID ->
  wp (idestart (Some i) ;; ide_sleep (S (S NBUF)) i) (set_disk (set_queue (Some i) (set_qnext i None (disk s))) s) Q ->
  wp (ide_iderw i) s Q.
Proof.
  intros (Hq & Hd1 & Hd2 & _) Hb Hh Hf Hw. unfold ide_iderw.
  eapply wp_bind, wp_buf_at; [done|]. eapply wp_bind, wp_gets. rewrite Hh. eapply wp_bind, wp_ret.
  rewrite (proj2 (Z.eqb_neq _ _) Hf). eapply wp_bind, wp_ret. eapply wp_bind, wp_gets.
  rewrite (proj2 (Z.eqb_neq _ _) Hd1), (proj2 (Z.eqb_neq _ _) Hd2), andb_false_r.
  eapply wp_bind, wp_ret. eapply wp_bind, wp_ret.
  apply wp_bind. unfold ide_append. eapply wp_bind, wp_modify. eapply wp_bind, wp_gets. simpl idequeue. rewrite Hq.
  eapply wp_modify. eapply wp_bind, wp_gets. simpl idequeue. rewrite bool_decide_true by done. exact Hw.
Qed.

(** [idestart] gives the command. *)
Lemma wp_idestart s i b r h (Q : unit -> bstate (ide H) -> Prop) :
  bufs s !! i = Some b -> ide_valid (disk s) (b_dev b) (b_blockno b) ->
  let c := chan (b_dev b) in let d := drive (b_dev b) in
  poll patience (port_of c) (ide_hw (disk s)) = Some (r, h) ->
  (let lba := 2 * b_blockno b in
   if Z.land (b_flags b) B_DIRTY =? 0
   then Q tt (set_disk (set_hw (command c d lba IDE_CMD_RDMUL h) (disk s)) s)
   else Q tt (set_disk (note_write (b_dev b, b_blockno b, b_data b)
          (set_hw (outsl (port_of c) (b_data b) (command c d lba IDE_CMD_WRMUL h)) (disk s))) s)) ->
  wp (idestart (Some i)) s Q.
Proof.
  intros Hb [Hdev _] c d Hp HQ. unfold idestart. eapply wp_bind, wp_ret, wp_bind, wp_buf_at; [done|].
  assert ((b_dev b =? ROOTDEV) && (FSSIZE <=? b_blockno b) = false) as ->.
  { unfold FSSIZE, ROOTDEV, EXT2DEV in *. lia. }
  eapply wp_bind, wp_ret.
  assert ((b_dev b =? EXT2DEV) && (EXT2FSSIZE <=? b_blockno b) = false) as ->.
  { unfold EXT2FSSIZE, ROOTDEV, EXT2DEV in *. lia. }
  eapply wp_bind, wp_ret. change (BSIZE / SECTOR_SIZE) with 2. cbn [Z.eqb Z.ltb Z.compare Pos.eqb].
  eapply wp_bind, wp_ret.
  assert ((if b_dev b <=? 1 then 496 else 368) = port_of c) as -> by (unfold c, chan, port_of; by destruct (b_dev b <=? 1)).
  assert (s32 (b_blockno b * 2) = 2 * b_blockno b) as ->.
  { rewrite s32_small; unfold FSSIZE, EXT2FSSIZE in *; lia. }
  eapply wp_bind, wp_idewait; [exact Hp|]. apply wp_bind.
  assert (forall s (Q : unit -> bstate (ide H) -> Prop), Q tt (set_disk (set_hw (outb (ctl_of c) 0 (ide_hw (disk s))) (disk s)) s) ->
    wp (if b_dev b <=? 1 then out 1014 0 else out 886 0) s Q) as Hctl.
  { intros s' Q' HQ'. unfold c, chan, ctl_of in HQ'. destruct (b_dev b <=? 1); by apply wp_out. }
  apply Hctl. do 5 (eapply wp_bind, wp_out).
  destruct (Z.land (b_flags b) B_DIRTY =? 0); simpl negb; cbn iota.
  - apply wp_out. exact HQ.
  - eapply wp_bind, wp_out. eapply wp_bind, wp_hw; [done|]. apply wp_modify. exact HQ.
Qed.

Definition done_flags (f : Z) : Z := Z.land (Z.lor f B_VALID) (Z.lnot B_DIRTY).

(** The interrupt of the only request in the queue. *)
Lemma wp_ideintr_write s i b flag (Q : unit -> bstate (ide H) -> Prop) :
  idequeue (disk s) = Some i -> ide_qnext (disk s) !! i = Some None -> bufs s !! i = Some b ->
  Z.land (b_flags b) B_DIRTY <> 0 ->
  Q tt (BState (<[i := with_flags (done_flags (b_flags b)) b]> (bufs s)) (set_queue None (disk s)) (me s)) ->
  wp (ideintr flag) s Q.
Proof.
  intros Hq Hn Hb Hf HQ. unfold ideintr. eapply wp_bind, wp_gets. rewrite Hq. eapply wp_bind, wp_gets.
  rewrite Hn. eapply wp_bind, wp_modify. eapply wp_bind, wp_buf_at; [exact Hb|].
  rewrite (proj2 (Z.eqb_neq _ _) Hf). apply wp_bind, wp_ret.
  eapply wp_bind, wp_buf_upd; [exact Hb|]. eapply wp_bind, wp_buf_upd.
  { simpl. rewrite list_lookup_insert_eq; [done|]. by eapply lookup_lt_Some. }
  eapply wp_bind, wp_gets. simpl. apply wp_ret. unfold set_bufs, set_disk. simpl. rewrite list_insert_insert_eq. exact HQ.
Qed.

Lemma wp_ideintr_read s i b c r h2 h3 data (Q : unit -> bstate (ide H) -> Prop) :
  idequeue (disk s) = Some i -> ide_qnext (disk s) !! i = Some None -> bufs s !! i = Some b ->
  Z.land (b_flags b) B_DIRTY = 0 -> poll patience (port_of c) (ide_hw (disk s)) = Some (r, h2) ->
  Z.land r (Z.lor IDE_DF IDE_ERR) = 0 -> insl (port_of c) 256 h2 = (data, h3) ->
  Q tt (BState (<[i := with_flags (done_flags (b_flags b)) (with_data data b)]> (bufs s))
         (set_hw h3 (set_queue None (disk s))) (me s)) ->
  wp (ideintr c) s Q.
Proof.
  intros Hq Hn Hb Hf Hp Hr Hin HQ. unfold ideintr. eapply wp_bind, wp_gets. rewrite Hq. eapply wp_bind, wp_gets.
  rewrite Hn. eapply wp_bind, wp_modify. eapply wp_bind, wp_buf_at; [exact Hb|].
  rewrite Hf, Z.eqb_refl. apply wp_bind. change (if c =? 0 then 496 else 368) with (port_of c).
  eapply wp_bind, wp_idewait; [exact Hp|]. rewrite Hr. simpl andb. cbn iota.
  eapply wp_bind, wp_hw; [exact Hin|]. eapply wp_buf_upd; [exact Hb|].
  eapply wp_bind, wp_buf_upd.
  { simpl. rewrite list_lookup_insert_eq; [done|]. by eapply lookup_lt_Some. }
  eapply wp_bind, wp_buf_upd.
  { simpl. rewrite !list_lookup_insert_eq; [done|..]; rewrite ?length_insert; by eapply lookup_lt_Some. }
  eapply wp_bind, wp_gets. simpl. apply wp_ret. unfold set_bufs, set_disk. simpl. rewrite !list_insert_insert_eq. exact HQ.
Qed.

Lemma wp_ide_sleep s i b c h n (Q : unit -> bstate (ide H) -> Prop) :
  bufs s !! i = Some b -> Z.land (b_flags b) (Z.lor B_VALID B_DIRTY) <> B_VALID ->
  take_irq (ide_hw (disk s)) = Some (c, h) ->
  wp (ideintr c) (set_disk (set_hw h (disk s)) s) (fun _ s' =>
    (exists b', bufs s' !! i = Some b' /\ b_flags b' = B_VALID) /\ Q tt s') ->
  wp (ide_sleep (S (S n)) i) s Q.
Proof.
  intros Hb Hf Hirq Hw. cbn [ide_sleep]. eapply wp_bind, wp_buf_at; [exact Hb|].
  rewrite (proj2 (Z.eqb_neq _ _) Hf). unfold wp at 1. rewrite Hirq.
  change (wp (ideintr c ;; ide_sleep (S n) i) (set_disk (set_hw h (disk s)) s) Q).
  eapply wp_bind, wp_mono; [exact Hw|]. intros [] s' ((b' & Hb' & Hf') & HQ).
  cbn [ide_sleep]. eapply wp_bind, wp_buf_at; [exact Hb'|]. by rewrite Hf'.
Qed.

Lemma ide_valid_args d dev b :
  ide_valid d dev b -> (chan dev = 0 \/ chan dev = 1) /\ (drive dev = 0 \/ drive dev = 1) /\ 0 <= 2 * b < 2 ^ 28 - 1.
Proof.
  intros [[[-> Hb]|[-> Hb]] _]; unfold FSSIZE, EXT2FSSIZE in *; (split_and!; [by auto| |lia|lia]); vm_compute; tauto.
Qed.

Lemma ide_valid_ext d d' dev b :
  (forall c n m, present (ide_hw d') c n m <-> present (ide_hw d) c n m) -> ide_valid d' dev b <-> ide_valid d dev b.
Proof. intros Hp. unfold ide_valid. by rewrite !Hp. Qed.

(** Sectors of distinct blocks are distinct. *)
Lemma ide_block_other d dev dev' b b' :
  ide_valid d dev b -> ide_valid d dev' b' -> (dev, b) <> (dev', b') ->
  chan dev = chan dev' -> drive dev = drive dev' -> b <> b'.
Proof.
  intros [Hd _] [Hd' _] Hne Hc Hdr ->. apply Hne. f_equal.
  destruct Hd as [[-> _]|[-> _]], Hd' as [[-> _]|[-> _]]; done.
Qed.

Lemma ide_read_law (s : bstate (ide H)) i b :
  ide_wf (disk s) -> bufs s !! i = Some b -> holdingsleep (me s) (b_lock b) = true ->
  b_flags b = 0 -> block_ok (b_data b) -> ide_valid (disk s) (b_dev b) (b_blockno b) ->
  wp (ide_iderw i) s (fun _ s' => exists d', dsame (disk s) d' /\
    s' = BState (<[i := with_flags B_VALID (with_data (ide_block (disk s) (b_dev b) (b_blockno b)) b)]> (bufs s))
           d' (me s)).
Proof.
  intros Hwf Hb Hh Hf Hok Hv. pose proof (ide_valid_args _ _ _ Hv) as (Hc & Hd & Hn).
  pose proof Hwf as (Hq & Hd1 & Hd2 & Hidle). destruct (poll_idle _ (chan (b_dev b)) Hidle) as (r & h & Hp & Hidle' & Hs & Hpr).
  destruct Hv as [Hv0 [Hv1 Hv2]].
  destruct (read_multiple h (chan (b_dev b)) (drive (b_dev b)) (2 * b_blockno b))
    as (h1 & h2 & h3 & r' & Hirq & Hp2 & Hr & Hin & Hidle3 & Hs3 & Hpr3); [done|done|done|done|by apply Hpr|by apply Hpr|].
  eapply wp_iderw_start; [done|done|done|by rewrite Hf|].
  eapply wp_bind, wp_idestart; [done|by split|exact Hp|]. rewrite Hf. simpl Z.land. cbn [Z.eqb].
  eapply wp_ide_sleep; [done|by rewrite Hf|exact Hirq|].
  eapply wp_ideintr_read; [done|simpl; apply lookup_insert_eq|done|by rewrite Hf|exact Hp2|exact Hr|exact Hin|].
  split. { eexists. split; [apply list_lookup_insert_eq; by eapply lookup_lt_Some|]. simpl. by rewrite Hf. }
  eexists. split; [|rewrite Hf; repeat f_equal; unfold dblock; simpl; unfold ide_block; by rewrite !Hs].
  split; [done|]. split; [|split; [|done]].
  - intros dev b'. simpl. unfold ide_block. simpl. by rewrite !Hs3, !Hs.
  - intros dev b'. apply ide_valid_ext. intros. simpl. by rewrite Hpr3.
Qed.

Lemma ide_write_law (s : bstate (ide H)) i b :
  ide_wf (disk s) -> bufs s !! i = Some b -> holdingsleep (me s) (b_lock b) = true ->
  b_flags b = Z.lor B_VALID B_DIRTY -> block_ok (b_data b) -> ide_valid (disk s) (b_dev b) (b_blockno b) ->
  wp (ide_iderw i) s (fun _ s' => exists d', dwrote (b_dev b, b_blockno b, b_data b) (disk s) d' /\
    s' = BState (<[i := with_flags B_VALID b]> (bufs s)) d' (me s)).
Proof.
  intros Hwf Hb Hh Hf Hok Hv. pose proof (ide_valid_args _ _ _ Hv) as (Hc & Hd & Hn).
  pose proof Hwf as (Hq & Hd1 & Hd2 & Hidle). destruct (poll_idle _ (chan (b_dev b)) Hidle) as (r & h & Hp & Hidle' & Hs & Hpr).
  pose proof Hv as [Hv0 [Hv1 Hv2]].
  destruct (write_multiple h (chan (b_dev b)) (drive (b_dev b)) (2 * b_blockno b) (b_data b))
    as (h1 & Hirq & Hidle1 & Hpr1 & Hsec); [done|done|done|done|by apply Hpr|by apply Hpr|apply Hok|apply Hok|].
  eapply wp_iderw_start; [done|done|done|by rewrite Hf|].
  eapply wp_bind, wp_idestart; [done|done|exact Hp|]. rewrite Hf. change (Z.land _ B_DIRTY =? 0) with false. cbn iota.
  eapply wp_ide_sleep; [done|by rewrite Hf|exact Hirq|].
  eapply wp_ideintr_write; [done|simpl; apply lookup_insert_eq|done|by rewrite Hf|].
  split. { eexists. split; [apply list_lookup_insert_eq; by eapply lookup_lt_Some|]. simpl. by rewrite Hf. }
  eexists. split; [|rewrite Hf; done]. split; [done|]. split; [|split; [|done]].
  - intros dev b' Hv'. simpl. unfold ide_block. simpl. rewrite !Hsec.
    unfold apply_write. simpl. destruct (decide ((dev, b') = (b_dev b, b_blockno b))) as [[= -> ->]|Hne].
    * rewrite decide_True, decide_False, decide_True by (done || (intros [=]; lia)). apply take_drop.
    * pose proof (ide_block_other _ _ _ _ _ Hv' Hv Hne) as Hbb.
      rewrite !decide_False; [by rewrite !Hs|..]; intros [= E1 E2 E3]; specialize (Hbb E1 E2); lia.
  - intros dev b'. apply ide_valid_ext. intros. simpl. by rewrite Hpr1.
Qed.

#[export] Instance ide_laws : DiskDriverLaws (ide H).
Proof.
  split.
  - exact ide_read_law.
  - exact ide_write_law.
  - intros d dev b (_ & _ & _ & Hidle) (_ & H1 & H2). destruct (sector_ok _ _ _ _ Hidle H1), (sector_ok _ _ _ _ Hidle H2).
    split; [unfold dblock; simpl; unfold ide_block; rewrite length_app; lia|by apply Forall_app].
  - intros d dev b [[[-> _]|[-> _]] _]; done.
Qed.
End IdeDriver.

(** ** A controller

    Two channels with two drives each; every sector exists and holds zeroes until
    it is written. It shows that the laws can be met. *)

Record sim := Sim {
  sm_reg : Z -> Z; sm_store : gmap (Z * Z * Z) (list Z); sm_irq : option Z;
  sm_cmd : option (Z * Z * Z); sm_data : list Z;
}.

Definition sm_sector (h : sim) (c d n : Z) : list Z := default (replicate 512 0) (sm_store h !! (c, d, n)).

(** The sector number in the registers of the channel at [p]. *)
Definition sm_lba (reg : Z -> Z) (p : Z) : Z :=
  reg (p + 3) + 256 * reg (p + 4) + 65536 * reg (p + 5) + 16777216 * Z.land (reg (p + 6)) 15.
Definition sm_drive (reg : Z -> Z) (p : Z) : Z := Z.land (Z.shiftr (reg (p + 6)) 4) 1.

Definition sm_outb (port v : Z) (h : sim) : sim :=
  let reg := fun q => if q =? port then v else sm_reg h q in
  if (port =? 503) || (port =? 375) then
    let c := if port =? 503 then 0 else 1 in
    let p := port - 7 in
    let d := sm_drive reg p in
    let n := sm_lba reg p in
    if v =? IDE_CMD_RDMUL then
      Sim reg (sm_store h) (Some c) None (sm_sector h c d n ++ sm_sector h c d (n + 1))
    else Sim reg (sm_store h) (sm_irq h) (Some (c, d, n)) []
  else Sim reg (sm_store h) (sm_irq h) (sm_cmd h) (sm_data h).

Definition sm_outsl (port : Z) (data : list Z) (h : sim) : sim :=
  match sm_cmd h with
  | Some (c, d, n) =>
      Sim (sm_reg h) (<[(c, d, n) := take 512 data]> (<[(c, d, n + 1) := drop 512 data]> (sm_store h)))
        (Some c) None []
  | None => h
  end.

#[export] Instance sim_ata : Ata sim := {|
  inb port h := (IDE_DRDY, h);
  outb := sm_outb;
  insl port n h := (take (4 * n) (sm_data h), Sim (sm_reg h) (sm_store h) (sm_irq h) (sm_cmd h) (drop (4 * n) (sm_data h)));
  outsl := sm_outsl;
  take_irq h := match sm_irq h with
                | Some c => Some (c, Sim (sm_reg h) (sm_store h) None (sm_cmd h) (sm_data h))
                | None => None
                end;
  patience := 1;
  sector := sm_sector;
|}.

Definition sector_ok512 (l : list Z) : Prop := length l = 512%nat /\ bytes_ok l.

Definition sm_idle (h : sim) : Prop := sm_irq h = None /\ map_Forall (fun _ => sector_ok512) (sm_store h).

Lemma sm_idle_sector h c d n : sm_idle h -> sector_ok512 (sm_sector h c d n).
Proof.
  intros [_ Hok]. unfold sm_sector. destruct (sm_store h !! (c, d, n)) as [l|] eqn:Hl; [by apply (Hok _ _ Hl)|].
  split; [done|]. by apply Forall_replicate.
Qed.

(** The registers hold what the driver put together. *)
Lemma device_register d x :
  d = 0 \/ d = 1 -> 0 <= x < 16 ->
  Z.land (Z.lor (Z.lor 224 (Z.shiftl d 4)) (Z.land x 15)) 15 = x /\
  Z.land (Z.shiftr (Z.lor (Z.lor 224 (Z.shiftl d 4)) (Z.land x 15)) 4) 1 = d.
Proof.
  intros Hd Hx.
  assert (Forall (fun x => forall d, d = 0 \/ d = 1 ->
    Z.land (Z.lor (Z.lor 224 (Z.shiftl d 4)) (Z.land x 15)) 15 = x /\
    Z.land (Z.shiftr (Z.lor (Z.lor 224 (Z.shiftl d 4)) (Z.land x 15)) 4) 1 = d) (seqZ 0 16)) as HF.
  { repeat (apply Forall_cons_2; [intros d' [->| ->]; split; reflexivity|]). apply Forall_nil_2. }
  rewrite Forall_forall in HF. apply HF; [|done]. apply elem_of_seqZ. lia.
Qed.

Lemma land_255 z : Z.land z 255 = z mod 256.
Proof. change 255 with (Z.ones 8). by rewrite Z.land_ones. Qed.

Lemma lba_split n : 0 <= n < 2 ^ 28 -> 0 <= Z.shiftr n 24 < 16 /\
  Z.land n 255 + 256 * Z.land (Z.shiftr n 8) 255 + 65536 * Z.land (Z.shiftr n 16) 255 + 16777216 * Z.shiftr n 24 = n.
Proof.
  intros Hn. rewrite !land_255, !Z.shiftr_div_pow2 by lia. change (2 ^ 8) with 256. change (2 ^ 16) with 65536.
  change (2 ^ 24) with 16777216. split; elia.
Qed.

(** Sums and differences of port numbers, computed. *)
Ltac add_ports :=
  repeat match goal with
         | |- context [Z.add (Zpos ?a) (Zpos ?b)] =>
             let r := eval vm_compute in (Zpos a + Zpos b) in change (Z.add (Zpos a) (Zpos b)) with r
         | |- context [Z.sub (Zpos ?a) (Zpos ?b)] =>
             let r := eval vm_compute in (Zpos a - Zpos b) in change (Z.sub (Zpos a) (Zpos b)) with r
         end.

Lemma sim_command h c d n cmd :
  (c = 0 \/ c = 1) -> (d = 0 \/ d = 1) -> 0 <= n < 2 ^ 28 - 1 ->
  exists reg, command c d n cmd h =
    if cmd =? IDE_CMD_RDMUL then Sim reg (sm_store h) (Some c) None (sm_sector h c d n ++ sm_sector h c d (n + 1))
    else Sim reg (sm_store h) (sm_irq h) (Some (c, d, n)) [].
Proof.
  intros Hc Hd Hn. destruct (lba_split n ltac:(lia)) as [H24 Hsum].
  destruct (device_register d (Z.shiftr n 24) Hd H24) as [Hr1 Hr2].
  unfold command. cbn [outb sim_ata]. set (r3 := Z.land n 255) in *.
  set (r4 := Z.land (Z.shiftr n 8) 255) in *. set (r5 := Z.land (Z.shiftr n 16) 255) in *.
  set (r6 := Z.lor _ _) in *. clearbody r3 r4 r5 r6.
  destruct Hc as [->| ->]; eexists; unfold port_of, ctl_of; cbn [Z.eqb]; add_ports; cbn -[Z.land Z.mul Z.shiftr sm_sector];
    unfold sm_lba, sm_drive; add_ports; cbn -[Z.land Z.mul Z.shiftr sm_sector]; rewrite Hr1, Hr2, Hsum; done.
Qed.

#[export] Instance sim_laws : AtaLaws sim.
Proof.
  refine {| idle := sm_idle; present := fun _ _ _ _ => True |}.
  - intros h c d n Hi _. by apply sm_idle_sector.
  - intros h c Hi. by exists IDE_DRDY, h.
  - intros h c d n data Hi Hc Hd Hn _ _ Hl Hok. destruct (sim_command h c d n IDE_CMD_WRMUL Hc Hd Hn) as [reg ->].
    eexists. split; [done|]. split; [|split; [done|]].
    + split; [done|]. apply map_Forall_insert_2; [|apply map_Forall_insert_2; [|apply Hi]].
      * split; [rewrite length_take; lia|by apply Forall_take].
      * split; [rewrite length_drop; lia|by apply Forall_drop].
    + intros c' d' n'. cbn [sector sim_ata]. unfold sm_sector. simpl. case_decide as E1.
      * by rewrite E1, lookup_insert_eq.
      * rewrite lookup_insert_ne by congruence. case_decide as E2.
        -- by rewrite E2, lookup_insert_eq.
        -- by rewrite lookup_insert_ne by congruence.
  - intros h c d n Hi Hc Hd Hn _ _. destruct (sim_command h c d n IDE_CMD_RDMUL Hc Hd Hn) as [reg ->].
    change (IDE_CMD_RDMUL =? IDE_CMD_RDMUL) with true. cbn iota.
    do 4 eexists. split; [done|]. split; [done|]. split; [done|]. split; [|split; [|split; [|done]]].
    + destruct (sm_idle_sector h c d n Hi) as [H1 _], (sm_idle_sector h c d (n + 1) Hi) as [H2 _].
      cbn [insl sim_ata sm_data]. rewrite take_ge by (rewrite length_app, H1, H2; done). done.
    + split; [done|apply Hi].
    + done.
Defined.

Definition sim_blank : ide sim := ideinit (Sim (fun _ => 0) ∅ None None []).

(** * Properties *)

(** C29: [iderw] of the IDE driver, on a controller that obeys [AtaLaws], with its
    queue empty and both disks found, for a locked buffer of a block that exists:
    a dirty buffer ends up on the disk, which changes in that block alone and
    counts one more write; an invalid one gets the bytes of the block and the
    disk does not change. Either way the buffer is valid and clean at the end, no
    other buffer changes, and the driver is ready for the next request. *)
Theorem iderw_transfers {H} `{AtaLaws H} (s : bstate (ide H)) i b :
  ide_wf (disk s) -> bufs s !! i = Some b -> holdingsleep (me s) (b_lock b) = true ->
  b_flags b = 0 \/ b_flags b = Z.lor B_VALID B_DIRTY -> block_ok (b_data b) ->
  ide_valid (disk s) (b_dev b) (b_blockno b) ->
  exists d', ide_wf d' /\ (forall dev n, ide_valid d' dev n <-> ide_valid (disk s) dev n) /\
    if b_flags b =? 0
    then ide_iderw i s = Ok tt (BState (<[i := with_flags B_VALID
           (with_data (ide_block (disk s) (b_dev b) (b_blockno b)) b)]> (bufs s)) d' (me s)) /\
         (forall dev n, ide_block d' dev n = ide_block (disk s) dev n) /\ ide_hist d' = ide_hist (disk s)
    else ide_iderw i s = Ok tt (BState (<[i := with_flags B_VALID b]> (bufs s)) d' (me s)) /\
         (forall dev n, ide_valid (disk s) dev n -> ide_block d' dev n =
            if decide ((dev, n) = (b_dev b, b_blockno b)) then b_data b else ide_block (disk s) dev n) /\
         ide_hist d' = ide_hist (disk s) ++ [(b_dev b, b_blockno b, b_data b)].
Proof.
  intros Hwf Hb Hh [Hf|Hf] Hok Hv; rewrite Hf; simpl Z.eqb; cbn iota.
  - pose proof (ide_read_law s i b Hwf Hb Hh Hf Hok Hv) as Hw.
    apply (proj1 (wp_ok _ _ _)) in Hw as ([] & s' & He & d' & (E1 & E2 & E3 & E4) & ->).
    exists d'. split; [exact E1|]. split; [exact E3|]. split; [exact He|]. split; [exact E2|exact E4].
  - pose proof (ide_write_law s i b Hwf Hb Hh Hf Hok Hv) as Hw.
    apply (proj1 (wp_ok _ _ _)) in Hw as ([] & s' & He & d' & (E1 & E2 & E3 & E4) & ->).
    exists d'. split; [exact E1|]. split; [exact E3|]. split; [exact He|]. split; [exact E2|exact E4].
Qed.

Lemma iderw_transfers_witness :
  exists d', ide_iderw 0 (BState [Buf 6 2 19999 (Sleeplock 1 3) 1 0 0 (fill_block 7)] sim_blank 3) =
    Ok tt (BState [Buf 2 2 19999 (Sleeplock 1 3) 1 0 0 (fill_block 7)] d' 3) /\ ide_block d' 2 19999 = fill_block 7.
Proof.
  destruct (iderw_transfers (BState [Buf 6 2 19999 (Sleeplock 1 3) 1 0 0 (fill_block 7)] sim_blank 3) 0
    (Buf 6 2 19999 (Sleeplock 1 3) 1 0 0 (fill_block 7))) as (d' & _ & _ & He & Hblk & _).
  - split; [reflexivity|]. split; [discriminate|]. split; [discriminate|]. split; [reflexivity|].
    apply map_Forall_empty.
  - reflexivity.
  - reflexivity.
  - right. reflexivity.
  - apply fill_block_ok. split; lia.
  - split; [right; simpl; unfold EXT2FSSIZE; split; [reflexivity|lia]|]. split; exact I.
  - exists d'. split; [exact He|]. rewrite Hblk.
    + reflexivity.
    + split; [right; simpl; unfold EXT2FSSIZE; split; [reflexivity|lia]|]. split; exact I.
Defined.
