(* ===== verification/Ring.v ===== *)
(** Doubly linked rings through a sentinel: the shape of the buffer cache's LRU
    list, as facts about the two pointer functions [next] and [prev]. *)

From S2P Require Import Prelude.

(** [links N P c]: along [c] every node's [N] is the node after it and every
    node's [P] is the node before it. *)
Fixpoint links (N P : nat -> option nat) (c : list nat) : Prop :=
  match c with
  | a :: ((b :: _) as t) => N a = Some b /\ P b = Some a /\ links N P t
  | _ => True
  end.

Lemma links_cons N P a b t :
  links N P (a :: b :: t) <-> N a = Some b /\ P b = Some a /\ links N P (b :: t).
Proof. done. Qed.

Lemma links_app N P c1 a c2 :
  links N P (c1 ++ a :: c2) <-> links N P (c1 ++ [a]) /\ links N P (a :: c2).
Proof.
  induction c1 as [|b c1 IH]; [simpl; tauto|].
  destruct c1 as [|b' c1]; [simpl; tauto|].
  change ((b :: b' :: c1) ++ a :: c2) with (b :: b' :: (c1 ++ a :: c2)).
  change ((b :: b' :: c1) ++ [a]) with (b :: b' :: (c1 ++ [a])).
  rewrite !links_cons. simpl in IH. tauto.
Qed.

(** Only [N] on all nodes but the last and [P] on all but the first matter. *)
Lemma links_ext N P N' P' a c z :
  (forall x, x ∈ (a :: c) -> N' x = N x) -> (forall x, x ∈ c ++ [z] -> P' x = P x) ->
  links N P (a :: c ++ [z]) -> links N' P' (a :: c ++ [z]).
Proof.
  revert a. induction c as [|b c IH]; intros a HN HP Hl.
  - simpl in *. rewrite HN, HP by set_solver. tauto.
  - simpl in Hl. destruct Hl as (Ha & Hb & Hl). simpl. split_and!.
    + rewrite HN; [done|set_solver].
    + rewrite HP; [done|set_solver].
    + apply IH; [set_solver|set_solver|done].
Qed.

Lemma list_snoc_inv {A} (a : A) l : exists q p, a :: l = q ++ [p].
Proof.
  revert a. induction l as [|b l IH]; intros a; [by exists [], a|].
  destruct (IH b) as (q & p & ->). by exists (a :: q), p.
Qed.

(** A ring: the sentinel [h], the nodes [l] in order, and back to [h]. *)
Definition ring (h : nat) (N P : nat -> option nat) (l : list nat) : Prop :=
  NoDup l /\ (h ∉ l) /\ links N P (h :: l ++ [h]).

Lemma ring_ext h N P N' P' l :
  (forall x, x ∈ (h :: l) -> N' x = N x /\ P' x = P x) -> ring h N P l -> ring h N' P' l.
Proof.
  intros He (Hnd & Hh & Hl). split_and!; [done|done|].
  eapply links_ext; [| |done]; set_solver.
Qed.

(** A node in the middle of a ring: its neighbours. *)
Lemma ring_split h N P l1 b l2 :
  ring h N P (l1 ++ b :: l2) ->
  exists q p n r, h :: l1 = q ++ [p] /\ l2 ++ [h] = n :: r /\
    N b = Some n /\ P b = Some p /\ links N P (q ++ [p]) /\ links N P (n :: r).
Proof.
  intros (_ & _ & Hl).
  destruct (list_snoc_inv h l1) as (q & p & Hq).
  assert (exists n r, l2 ++ [h] = n :: r) as (n & r & Hr).
  { destruct l2 as [|n l2]; [by exists h, []|by exists n, (l2 ++ [h])]. }
  exists q, p, n, r.
  replace (h :: (l1 ++ b :: l2) ++ [h]) with (q ++ p :: b :: n :: r) in Hl.
  2:{ rewrite <- app_assoc. simpl. rewrite Hr, (app_comm_cons l1), Hq, <- app_assoc. done. }
  apply links_app in Hl as (Hl1 & Hl2). rewrite !links_cons in Hl2. tauto.
Qed.

(** Unlinking [b]: [b->next->prev = b->prev; b->prev->next = b->next]. *)
Lemma ring_unlink h N P l1 b l2 n p :
  ring h N P (l1 ++ b :: l2) -> N b = Some n -> P b = Some p ->
  ring h (<[p := Some n]> N) (<[n := Some p]> P) (l1 ++ l2).
Proof.
  intros Hr Hn Hp. pose proof Hr as (Hnd & Hh & _).
  destruct (ring_split _ _ _ _ _ _ Hr) as (q & p' & n' & r & Hq & Hr2 & HN & HP & Hl1 & Hl2).
  rewrite HN in Hn. rewrite HP in Hp. injection Hn as ->. injection Hp as ->.
  apply NoDup_app in Hnd as (Hnd1 & Hdis & Hnd2). apply NoDup_cons in Hnd2 as (Hb & Hnd2).
  assert (p ∈ (h :: l1)) as Hpin by (rewrite Hq; set_solver).
  assert (n ∈ l2 ++ [h]) as Hnin by (rewrite Hr2; set_solver).
  split_and!.
  { apply NoDup_app. split_and!; [done| |done]. set_solver. }
  { set_solver. }
  rewrite <- app_assoc, Hr2, (app_comm_cons l1), Hq, <- app_assoc.
  apply (links_app _ _ q p). split.
  - (* up to p *)
    destruct q as [|a q]; [done|].
    injection Hq as <- Hq. simpl. apply (links_ext N P); [| |done].
    + intros x Hx. rewrite fn_lookup_insert_ne; [done|]. intros <-.
      rewrite Hq in Hnd1, Hh. apply NoDup_app in Hnd1 as (_ & Hd & _).
      set_solver.
    + intros x Hx. rewrite fn_lookup_insert_ne; [done|]. intros <-.
      rewrite <- Hq in Hx. set_solver.
  - simpl. rewrite !fn_lookup_insert. split_and!; [done|done|].
    (* from n on *)
    destruct l2 as [|a l2]; simpl in Hr2; injection Hr2 as <- <-; [done|].
    apply NoDup_cons in Hnd2 as (Ha & Hnd2).
    apply (links_ext N P); [| |done].
    + intros x Hx. rewrite fn_lookup_insert_ne; [done|]. intros <-. set_solver.
    + intros x Hx. rewrite fn_lookup_insert_ne; [done|]. intros <-. set_solver.
Qed.

(** Inserting [b] after the sentinel: [b->next = h->next; b->prev = h;
    h->next->prev = b; h->next = b]. *)
Lemma ring_insert_front h N P l b f :
  ring h N P l -> b ∉ l -> b <> h -> N h = Some f ->
  ring h (<[h := Some b]> (<[b := Some f]> N)) (<[f := Some b]> (<[b := Some h]> P)) (b :: l).
Proof.
  intros (Hnd & Hh & Hl) Hb Hbh Hf. split_and!.
  { by apply NoDup_cons. }
  { set_solver. }
  assert (f ∈ l ++ [h]) as Hfin.
  { destruct l as [|a l]; simpl in Hl; destruct Hl as (Ha & _); set_solver. }
  assert (b <> f) as Hbf by set_solver.
  simpl. rewrite fn_lookup_insert, fn_lookup_insert_ne, fn_lookup_insert by done.
  split_and!; [done|done|].
  destruct l as [|a l]; simpl in *; destruct Hl as (Ha & Ha' & Hl).
  - rewrite Hf in Ha. injection Ha as ->.
    rewrite fn_lookup_insert_ne, !fn_lookup_insert by done. done.
  - rewrite Hf in Ha. injection Ha as ->.
    rewrite fn_lookup_insert_ne, !fn_lookup_insert by done. split_and!; [done|done|].
    apply NoDup_cons in Hnd as (Hal & Hnd).
    apply (links_ext N P); [| |done].
    + intros x Hx. rewrite !fn_lookup_insert_ne by set_solver. done.
    + intros x Hx. rewrite !fn_lookup_insert_ne by set_solver. done.
Qed.

(** Following [N] from the sentinel visits [l]; following [P] visits it backwards. *)
Fixpoint path (h : nat) (N : nat -> option nat) (b : nat) (l : list nat) : Prop :=
  match l with
  | [] => b = h
  | a :: t => b = a /\ a <> h /\ exists c, N a = Some c /\ path h N c t
  end.

Lemma links_path_next h N P a l :
  h ∉ l -> links N P (a :: l ++ [h]) -> exists f, N a = Some f /\ path h N f l.
Proof.
  revert a. induction l as [|b l IH]; intros a Hh Hl; simpl in *.
  - destruct Hl as (Ha & _). by exists h.
  - destruct Hl as (Ha & _ & Hl). exists b. split; [done|]. split_and!; [done|set_solver|].
    apply IH; [set_solver|done].
Qed.

Lemma links_rev N P c : links N P c -> links P N (rev c).
Proof.
  induction c as [|a c IH]; [done|]. destruct c as [|b c]; [done|].
  intros (Ha & Hb & Hl). change (rev (a :: b :: c)) with ((rev c ++ [b]) ++ [a]).
  rewrite <- app_assoc. simpl. rewrite links_app. split; [by apply IH|]. simpl. done.
Qed.

Lemma ring_path_next h N P l : ring h N P l -> exists f, N h = Some f /\ path h N f l.
Proof. intros (_ & Hh & Hl). by eapply links_path_next. Qed.

Lemma ring_path_prev h N P l : ring h N P l -> exists f, P h = Some f /\ path h P f (rev l).
Proof.
  intros (_ & Hh & Hl). apply links_rev in Hl. simpl in Hl. rewrite rev_app_distr in Hl.
  simpl in Hl. eapply links_path_next; [|done]. by rewrite list_elem_of_In, <- in_rev, <- list_elem_of_In.
Qed.
