(* ===== verification/Bio.v ===== *)
(** The buffer cache (bio.c): an LRU ring of [NBUF] buffers over a disk driver. *)

From S2P Require Import Prelude Bytes Sleeplock Buf Ring Memide.

(** The static [bcache]: zeroed memory. *)
Definition zero_buf : buf := Buf 0 0 0 (Sleeplock 0 0) 0 0 0 zero_block.
Definition bcache_bss : list buf := replicate (S NBUF) zero_buf.

Section Bio.
Context {D : Type} `{DiskDriver D}.

(** [binit]: "Create linked list of buffers". *)
Definition binit : M (bstate D) unit :=
  buf_upd HEAD (with_prev HEAD) ;;
  buf_upd HEAD (with_next HEAD) ;;
  for_all (seq 0 NBUF) (fun b =>
    h ← buf_at HEAD;
    buf_upd b (with_next (b_next h)) ;;
    buf_upd b (with_prev HEAD) ;;
    buf_upd b (with_lock initsleeplock) ;;
    buf_upd (b_next h) (with_prev b) ;;
    buf_upd HEAD (with_next b)).

(** The two list walks of [bget]: follow [sel] ([next] or [prev]) from [b] until
    [bcache.head], and stop at the first buffer that satisfies [p]. *)
Fixpoint bwalk (sel : buf -> nat) (p : buf -> bool) (fuel : nat) (b : nat)
  : M (bstate D) (option nat) :=
  match fuel with
  | O => nofuel
  | S fuel =>
      if (b =? HEAD)%nat then mret None
      else
        x ← buf_at b;
        if p x then mret (Some b) else bwalk sel p fuel (sel x)
  end.

(** Take the sleep lock of buffer [b]. *)
Definition block_acquire (b : nat) : M (bstate D) unit :=
  x ← buf_at b;
  pid ← gets me;
  lk ← acquiresleep pid (b_lock x);
  buf_upd b (with_lock lk).

Definition bget (dev blockno : Z) : M (bstate D) nat :=
  (* Is the block already cached? *)
  h ← buf_at HEAD;
  r ← bwalk b_next (fun x => (b_dev x =? dev) && (b_blockno x =? blockno)) (S NBUF) (b_next h);
  match r with
  | Some b =>
      buf_upd b (fun x => with_refcnt (b_refcnt x + 1) x) ;;
      block_acquire b ;;
      mret b
  | None =>
      (* Not cached; recycle an unused buffer. *)
      r ← bwalk b_prev (fun x => (b_refcnt x =? 0) && (Z.land (b_flags x) B_DIRTY =? 0))
            (S NBUF) (b_prev h);
      match r with
      | Some b =>
          buf_upd b (with_key dev blockno) ;;
          buf_upd b (with_flags 0) ;;
          buf_upd b (with_refcnt 1) ;;
          block_acquire b ;;
          mret b
      | None => panic "bget: no buffers"
      end
  end.

(** "Return a locked buf with the contents of the indicated block." *)
Definition bread (dev blockno : Z) : M (bstate D) nat :=
  b ← bget dev blockno;
  x ← buf_at b;
  guard_ok (Z.land (b_flags x) B_VALID =? 0) (iderw b) ;;
  mret b.

(** "Write b's contents to disk.  Must be locked." *)
Definition bwrite (b : nat) : M (bstate D) unit :=
  x ← buf_at b;
  pid ← gets me;
  if negb (holdingsleep pid (b_lock x)) then panic "bwrite"
  else
    buf_upd b (fun x => with_flags (Z.lor (b_flags x) B_DIRTY) x) ;;
    iderw b.

(** "Release a locked buffer. Move to the head of the MRU list." *)
Definition brelse (b : nat) : M (bstate D) unit :=
  x ← buf_at b;
  pid ← gets me;
  if negb (holdingsleep pid (b_lock x)) then panic "brelse"
  else
    buf_upd b (fun x => with_lock (releasesleep (b_lock x)) x) ;;
    buf_upd b (fun x => with_refcnt (b_refcnt x - 1) x) ;;
    x ← buf_at b;
    guard_ok (b_refcnt x =? 0) (
      buf_upd (b_next x) (with_prev (b_prev x)) ;;
      x ← buf_at b;
      buf_upd (b_prev x) (with_next (b_next x)) ;;
      h ← buf_at HEAD;
      buf_upd b (with_next (b_next h)) ;;
      buf_upd b (with_prev HEAD) ;;
      h ← buf_at HEAD;
      buf_upd (b_next h) (with_prev b) ;;
      buf_upd HEAD (with_next b)).

(** Reading and writing [bp->data] through a buffer pointer. *)
Definition bdata (b : nat) : M (bstate D) (list Z) := x ← buf_at b; mret (b_data x).
Definition bset (b : nat) (f : list Z -> list Z) : M (bstate D) unit :=
  buf_upd b (fun x => with_data (f (b_data x)) x).
End Bio.

(** * The LRU ring *)

Definition nx (bs : list buf) (i : nat) : option nat := b_next <$> bs !! i.
Definition pv (bs : list buf) (i : nat) : option nat := b_prev <$> bs !! i.

(** [lru bs l]: the ring through [bcache.head] holds every buffer once, in the
    order [l], most recently released first. *)
Definition lru (bs : list buf) (l : list nat) : Prop :=
  ring HEAD (nx bs) (pv bs) l /\ l ≡ₚ seq 0 NBUF /\ length bs = S NBUF.

(** Everything in a buffer but its ring pointers. *)
Definition core (x : buf) : buf := with_prev 0 (with_next 0 x).
Definition cores (bs : list buf) : list buf := core <$> take NBUF bs.

Lemma elem_of_lru bs l i : lru bs l -> i ∈ l <-> (i < NBUF)%nat.
Proof. intros (_ & Hp & _). rewrite Hp, elem_of_seq. lia. Qed.

Lemma cores_lookup bs i c :
  cores bs !! i = Some c <-> (i < NBUF)%nat /\ exists x, bs !! i = Some x /\ c = core x.
Proof.
  unfold cores. rewrite list_lookup_fmap_Some. setoid_rewrite lookup_take_Some. naive_solver.
Qed.

Lemma cores_insert bs i y :
  (i < NBUF)%nat -> cores (<[i := y]> bs) = <[i := core y]> (cores bs).
Proof.
  intros. unfold cores. rewrite take_insert_lt, list_fmap_insert by done. done.
Qed.

Lemma cores_insert_same bs i x y :
  bs !! i = Some x -> core y = core x -> cores (<[i := y]> bs) = cores bs.
Proof.
  intros Hx Hy. destruct (decide (i < NBUF)%nat).
  - rewrite cores_insert, Hy by done. apply list_insert_id, cores_lookup. eauto.
  - unfold cores. rewrite take_insert_ge by lia. done.
Qed.

Lemma lru_insert bs l i x y :
  lru bs l -> bs !! i = Some x -> b_next y = b_next x -> b_prev y = b_prev x ->
  lru (<[i := y]> bs) l.
Proof.
  intros (Hr & Hp & Hl) Hx Hn Hpv. split_and!; [|done|by rewrite length_insert].
  eapply ring_ext; [|done]. intros j _. unfold nx, pv.
  destruct (decide (i = j)) as [<-|].
  - rewrite list_lookup_insert_eq, Hx by (by eapply lookup_lt_Some). simpl. by rewrite Hn, Hpv.
  - by rewrite list_lookup_insert_ne.
Qed.

(** ** Following the ring *)

(** The first node of [l] whose buffer satisfies [p]. *)
Fixpoint first_such (p : buf -> bool) (bs : list buf) (l : list nat) : option nat :=
  match l with
  | [] => None
  | a :: t => match bs !! a with
              | Some x => if p x then Some a else first_such p bs t
              | None => None
              end
  end.

Lemma first_such_Some p bs l i :
  first_such p bs l = Some i -> i ∈ l /\ exists x, bs !! i = Some x /\ p x = true.
Proof.
  induction l as [|a l IH]; [done|]. simpl. destruct (bs !! a) as [x|] eqn:Ha; [|done].
  destruct (p x) eqn:Hx.
  - intros [= <-]. split; [set_solver|eauto].
  - intros Hf. apply IH in Hf as (Hi & Hx'). split; [set_solver|done].
Qed.

Lemma first_such_None p bs l :
  Forall (fun i => is_Some (bs !! i)) l -> first_such p bs l = None ->
  forall i x, i ∈ l -> bs !! i = Some x -> p x = false.
Proof.
  induction 1 as [|a l [x Ha] _ IH]; [set_solver|]. simpl. rewrite Ha.
  destruct (p x) eqn:Hx; [done|]. intros Hf i y Hi Hy.
  apply elem_of_cons in Hi as [->|Hi]; [congruence|eauto].
Qed.

Lemma first_such_last p bs l i :
  Forall (fun i => is_Some (bs !! i)) l -> first_such p bs (rev l) = Some i ->
  exists l1 l2 x, l = l1 ++ i :: l2 /\ bs !! i = Some x /\ p x = true /\
    Forall (fun j => forall y, bs !! j = Some y -> p y = false) l2.
Proof.
  induction l as [|a l IH] using rev_ind; [done|].
  intros Hall. apply Forall_app in Hall as (Hall & Ha). apply Forall_cons in Ha as ([x Hx] & _).
  rewrite rev_app_distr. simpl. rewrite Hx. destruct (p x) eqn:Hp.
  - intros [= <-]. exists l, [], x. done.
  - intros Hf. destruct (IH Hall Hf) as (l1 & l2 & y & -> & Hy & Hpy & Hl2).
    exists l1, (l2 ++ [a]), y. rewrite <- app_assoc. split_and!; try done.
    apply Forall_app. split; [done|]. apply Forall_singleton. intros z Hz. congruence.
Qed.

Section walks.
Context {D : Type} `{DiskDriver D}.
Implicit Types s : bstate D.

Lemma bwalk_path sel p fuel b l s :
  path HEAD (fun i => sel <$> bufs s !! i) b l -> (length l < fuel)%nat ->
  bwalk sel p fuel b s = Ok (first_such p (bufs s) l) s.
Proof.
  revert fuel b. induction l as [|a l IH]; intros fuel b Hp Hf;
    (destruct fuel as [|fuel]; [simpl in Hf; lia|]); cbn [bwalk path first_such] in *.
  - subst. rewrite Nat.eqb_refl. done.
  - destruct Hp as (-> & Hne & c & Hc & Hp).
    rewrite (proj2 (Nat.eqb_neq _ _)) by done.
    unfold mbind, M_bind at 1. unfold buf_at.
    destruct (bufs s !! a) as [x|] eqn:Ha; [|done]. simpl in Hc. injection Hc as Hc. simpl.
    destruct (p x) eqn:Hx; [done|]. rewrite Hc. apply IH; [done|]. simpl in Hf. lia.
Qed.

Lemma lru_walk_next s l p :
  lru (bufs s) l -> exists h, bufs s !! HEAD = Some h /\
    bwalk b_next p (S NBUF) (b_next h) s = Ok (first_such p (bufs s) l) s.
Proof.
  intros (Hr & Hp & Hlen). destruct (ring_path_next _ _ _ _ Hr) as (f & Hf & Hpath).
  unfold nx in Hf. destruct (bufs s !! HEAD) as [h|]; [|done]. injection Hf as Hf.
  exists h. split; [done|]. rewrite Hf. apply bwalk_path; [done|].
  rewrite Hp, length_seq. lia.
Qed.

Lemma lru_walk_prev s l p :
  lru (bufs s) l -> exists h, bufs s !! HEAD = Some h /\
    bwalk b_prev p (S NBUF) (b_prev h) s = Ok (first_such p (bufs s) (rev l)) s.
Proof.
  intros (Hr & Hp & Hlen). destruct (ring_path_prev _ _ _ _ Hr) as (f & Hf & Hpath).
  unfold pv in Hf. destruct (bufs s !! HEAD) as [h|]; [|done]. injection Hf as Hf.
  exists h. split; [done|]. rewrite Hf. apply bwalk_path; [done|].
  rewrite length_rev, Hp, length_seq. lia.
Qed.
End walks.

(** ** Pointer surgery *)

(** [ptrs s N P]: the pointer fields of [s] are [N] and [P]. *)
Definition ptrs {D} (s : bstate D) (N P : nat -> option nat) : Prop :=
  (forall j, nx (bufs s) j = N j) /\ (forall j, pv (bufs s) j = P j).

(** [s'] differs from [s] in pointer fields only. *)
Definition same_cores {D} (s s' : bstate D) : Prop :=
  cores (bufs s') = cores (bufs s) /\ length (bufs s') = length (bufs s) /\
  disk s' = disk s /\ me s' = me s.

Section surgery.
Context {D : Type} `{DiskDriver D}.
Implicit Types s : bstate D.

Lemma wp_set_next s N P i v c Q :
  ptrs s N P -> N i = Some c ->
  (forall s', ptrs s' (<[i := Some v]> N) P -> same_cores s s' -> Q tt s') ->
  wp (buf_upd i (with_next v)) s Q.
Proof.
  intros (HN & HP) Hi HQ. rewrite <- HN in Hi. unfold nx in Hi.
  destruct (bufs s !! i) as [x|] eqn:Hx; [|done].
  eapply wp_buf_upd; [done|]. apply HQ.
  - assert (i < length (bufs s))%nat by (by eapply lookup_lt_Some).
    split; intros j; unfold nx, pv, set_bufs; simpl;
      (destruct (decide (i = j)) as [<-|]; [rewrite list_lookup_insert_eq by done
                                          |rewrite list_lookup_insert_ne by done]).
    + by rewrite fn_lookup_insert.
    + rewrite fn_lookup_insert_ne by done. apply HN.
    + rewrite <- HP. unfold pv. by rewrite Hx.
    + apply HP.
  - unfold same_cores. simpl. rewrite length_insert. split_and!; try done.
    by eapply cores_insert_same.
Qed.

Lemma wp_set_prev s N P i v c Q :
  ptrs s N P -> P i = Some c ->
  (forall s', ptrs s' N (<[i := Some v]> P) -> same_cores s s' -> Q tt s') ->
  wp (buf_upd i (with_prev v)) s Q.
Proof.
  intros (HN & HP) Hi HQ. rewrite <- HP in Hi. unfold pv in Hi.
  destruct (bufs s !! i) as [x|] eqn:Hx; [|done].
  eapply wp_buf_upd; [done|]. apply HQ.
  - assert (i < length (bufs s))%nat by (by eapply lookup_lt_Some).
    split; intros j; unfold nx, pv, set_bufs; simpl;
      (destruct (decide (i = j)) as [<-|]; [rewrite list_lookup_insert_eq by done
                                          |rewrite list_lookup_insert_ne by done]).
    + rewrite <- HN. unfold nx. by rewrite Hx.
    + apply HN.
    + by rewrite fn_lookup_insert.
    + rewrite fn_lookup_insert_ne by done. apply HP.
  - unfold same_cores. simpl. rewrite length_insert. split_and!; try done.
    by eapply cores_insert_same.
Qed.

Lemma wp_read_ptrs s N P i n p Q :
  ptrs s N P -> N i = Some n -> P i = Some p ->
  (forall x, b_next x = n -> b_prev x = p -> bufs s !! i = Some x -> Q x s) ->
  wp (buf_at i) s Q.
Proof.
  intros (HN & HP) Hn Hp HQ. rewrite <- HN in Hn. rewrite <- HP in Hp. unfold nx, pv in *.
  destruct (bufs s !! i) as [x|] eqn:Hx; [|done]. eapply wp_buf_at; [done|].
  apply HQ; simpl in *; congruence.
Qed.

Lemma same_cores_refl s : same_cores s s.
Proof. done. Qed.

Lemma same_cores_trans s1 s2 s3 : same_cores s1 s2 -> same_cores s2 s3 -> same_cores s1 s3.
Proof. intros (? & ? & ? & ?) (? & ? & ? & ?). unfold same_cores. split_and!; congruence. Qed.

(** The list surgery at the end of [brelse] moves [b] to the front of the ring. *)
Lemma wp_move_to_front s l1 b l2 x Q :
  lru (bufs s) (l1 ++ b :: l2) -> bufs s !! b = Some x ->
  (forall s', lru (bufs s') (b :: l1 ++ l2) -> same_cores s s' -> Q tt s') ->
  wp (buf_upd (b_next x) (with_prev (b_prev x)) ;;
      x ← buf_at b;
      buf_upd (b_prev x) (with_next (b_next x)) ;;
      h ← buf_at HEAD;
      buf_upd b (with_next (b_next h)) ;;
      buf_upd b (with_prev HEAD) ;;
      h ← buf_at HEAD;
      buf_upd (b_next h) (with_prev b) ;;
      buf_upd HEAD (with_next b)) s Q.
Proof.
  intros (Hr & Hperm & Hlen) Hx HQ.
  pose proof Hr as (Hnd & Hh & _).
  destruct (ring_split _ _ _ _ _ _ Hr) as (q & p & n & r & Hq & Hr2 & HN & HP & _ & _).
  assert (b_next x = n /\ b_prev x = p) as [-> ->].
  { unfold nx, pv in HN, HP. rewrite Hx in HN, HP. by simplify_eq/=. }
  assert (p ∈ (HEAD :: l1)) as Hpin by (rewrite Hq; set_solver).
  assert (n ∈ l2 ++ [HEAD]) as Hnin by (rewrite Hr2; set_solver).
  assert (b <> HEAD) as HbH by set_solver.
  apply list.NoDup_app in Hnd as (_ & Hdis & Hnd2). apply NoDup_cons in Hnd2 as (Hb2 & _).
  assert (b <> n) as Hbn by set_solver. assert (b <> p) as Hbp by set_solver.
  pose proof (ring_unlink _ _ _ _ _ _ _ _ Hr HN HP) as Hu.
  destruct (ring_path_next _ _ _ _ Hu) as (f & Hf & _).
  pose proof Hu as (_ & _ & Hlinks).
  assert (f ∈ (l1 ++ l2) ++ [HEAD]) as Hfin.
  { destruct (l1 ++ l2) as [|a l]; simpl in Hlinks; destruct Hlinks as (Ha & _);
      rewrite Hf in Ha; injection Ha as ->; set_solver. }
  assert (b ∉ l1 ++ l2) as Hbl by set_solver.
  assert (b <> f) as Hbf by set_solver.
  assert (forall j, j ∈ (HEAD :: l1 ++ b :: l2) -> is_Some (nx (bufs s) j) /\ is_Some (pv (bufs s) j))
    as Hin.
  { intros j Hj. unfold nx, pv. rewrite !fmap_is_Some, !lookup_lt_is_Some, Hlen.
    rewrite Hperm in Hj. apply elem_of_cons in Hj as [->|Hj]; [unfold HEAD; lia|].
    apply elem_of_seq in Hj. lia. }
  assert (is_Some (nx (bufs s) p)) as [cp Hcp] by (apply Hin; set_solver).
  assert (is_Some (pv (bufs s) n)) as [cn Hcn] by (apply Hin; set_solver).
  assert (is_Some (pv (bufs s) HEAD)) as [ch Hch] by (apply Hin; set_solver).
  assert (is_Some (pv (bufs s) f)) as [cf Hcf] by (apply Hin; set_solver).
  assert (ptrs s (nx (bufs s)) (pv (bufs s))) as H0 by done.
  eapply wp_bind, wp_set_prev; [done|done|]. intros s1 H1 Hc1.
  eapply wp_bind, wp_read_ptrs; [done|done|rewrite fn_lookup_insert_ne by done; done|].
  intros x1 -> -> _.
  eapply wp_bind, wp_set_next; [done|done|]. intros s2 H2 Hc2.
  assert (exists ch', (<[n:=Some p]> (pv (bufs s))) HEAD = Some ch') as [ch' Hch'].
  { destruct (decide (n = HEAD)) as [->|];
      [by rewrite fn_lookup_insert; eauto|by rewrite fn_lookup_insert_ne; eauto]. }
  eapply wp_bind, wp_read_ptrs; [done|done|done|]. intros x2 -> _ _.
  eapply wp_bind, wp_set_next; [done|by rewrite fn_lookup_insert_ne|]. intros s3 H3 Hc3.
  eapply wp_bind, wp_set_prev; [done|by rewrite fn_lookup_insert_ne|]. intros s4 H4 Hc4.
  eapply wp_bind, wp_read_ptrs; [done|by rewrite fn_lookup_insert_ne|by rewrite fn_lookup_insert_ne|].
  intros x4 -> _ _.
  assert (exists cf', (<[b:=Some HEAD]> (<[n:=Some p]> (pv (bufs s)))) f = Some cf') as [cf' Hcf'].
  { rewrite fn_lookup_insert_ne by done. destruct (decide (n = f)) as [->|];
      [by rewrite fn_lookup_insert; eauto|by rewrite fn_lookup_insert_ne; eauto]. }
  eapply wp_bind, wp_set_prev; [done|done|]. intros s5 H5 Hc5.
  eapply wp_set_next; [done|by rewrite fn_lookup_insert_ne|]. intros s6 (H6N & H6P) Hc6.
  pose proof (ring_insert_front _ _ _ _ b f Hu Hbl HbH Hf) as Hfinal.
  assert (same_cores s s6) as Hsame by eauto 10 using same_cores_trans.
  apply HQ; [|done]. split_and!.
  - eapply ring_ext; [|exact Hfinal]. intros j _. by rewrite H6N, H6P.
  - rewrite <- Hperm. by rewrite Permutation_middle.
  - destruct Hsame as (_ & -> & _). done.
Qed.
End surgery.

(** * The cache as its clients see it *)

Definition key_is (dev b : Z) (x : buf) : Prop := b_dev x = dev /\ b_blockno x = b.
#[export] Instance key_is_dec dev b x : Decision (key_is dev b x).
Proof. unfold key_is. apply _. Defined.

Section invariant.
Context {D : Type} `{DiskDriver D}.

(** A buffer nobody holds: never used, or dirty (pinned by the log), or clean
    and then equal to the disk. *)
Definition idle_buf (d : D) (x : buf) : Prop :=
  b_refcnt x = 0 /\ b_lock x = Sleeplock 0 0 /\
  ((b_flags x = 0 /\ b_dev x = 0) \/ b_flags x = 6 \/
   (b_flags x = 2 /\ b_data x = dblock d (b_dev x) (b_blockno x))).

(** A buffer the running process holds. *)
Definition held_buf (pid : Z) (x : buf) : Prop :=
  b_refcnt x = 1 /\ b_lock x = Sleeplock 1 pid /\ (b_flags x = 2 \/ b_flags x = 6).

(** The invariant of the cache between two calls, in a run of one process. *)
Record cwf (d : D) (pid : Z) (cs : list buf) : Prop := {
  cw_len : length cs = NBUF;
  cw_dwf : dwf d;
  cw_ok : forall i x, cs !! i = Some x -> block_ok (b_data x);
  cw_valid : forall i x, cs !! i = Some x -> b_dev x <> 0 -> dvalid d (b_dev x) (b_blockno x);
  cw_dev : forall i x, cs !! i = Some x -> b_flags x <> 0 -> b_dev x <> 0;
  cw_buf : forall i x, cs !! i = Some x -> idle_buf d x \/ held_buf pid x;
  cw_uniq : forall i j x y, cs !! i = Some x -> cs !! j = Some y -> b_dev x <> 0 ->
    b_dev y = b_dev x -> b_blockno y = b_blockno x -> i = j;
}.

Definition binv (s : bstate D) : Prop :=
  (exists l, lru (bufs s) l) /\ cwf (disk s) (me s) (cores (bufs s)).

(** What a reader of block [b] sees: the cached copy if there is one, else the
    disk. *)
Definition cview (cs : list buf) (d : D) (dev b : Z) : list Z :=
  match list_find (key_is dev b) cs with
  | Some (_, x) => b_data x
  | None => dblock d dev b
  end.
Definition bview (s : bstate D) : Z -> Z -> list Z := cview (cores (bufs s)) (disk s).

Lemma cview_hit d pid cs i x dev b :
  cwf d pid cs -> cs !! i = Some x -> key_is dev b x -> dev <> 0 -> cview cs d dev b = b_data x.
Proof.
  intros Hwf Hi Hk Hdev. unfold cview.
  destruct (list_find (key_is dev b) cs) as [[j y]|] eqn:Hf.
  - apply list_find_Some in Hf as (Hj & [Hy1 Hy2] & _). destruct Hk as [Hx1 Hx2].
    assert (i = j) as <- by (eapply cw_uniq; eauto; congruence). congruence.
  - eapply list_find_None, Forall_lookup_1 in Hf; [|done]. done.
Qed.

Lemma cview_miss d cs dev b :
  (forall i x, cs !! i = Some x -> ~ key_is dev b x) -> cview cs d dev b = dblock d dev b.
Proof.
  intros Hm. unfold cview. destruct (list_find (key_is dev b) cs) as [[j y]|] eqn:Hf; [|done].
  apply list_find_Some in Hf as (Hj & Hy & _). by apply Hm in Hj.
Qed.

Lemma cview_cases cs d dev b :
  (exists i x, cs !! i = Some x /\ key_is dev b x /\ cview cs d dev b = b_data x) \/
  ((forall i x, cs !! i = Some x -> ~ key_is dev b x) /\ cview cs d dev b = dblock d dev b).
Proof.
  unfold cview. destruct (list_find (key_is dev b) cs) as [[j y]|] eqn:Hf.
  - apply list_find_Some in Hf as (Hj & Hy & _). left. eauto.
  - right. split; [|done]. intros i x Hx. rewrite list_find_None in Hf.
    by eapply Forall_lookup_1 in Hf.
Qed.

Lemma cview_ok d pid cs dev b :
  cwf d pid cs -> dvalid d dev b -> DiskDriverLaws D -> block_ok (cview cs d dev b).
Proof.
  intros Hwf Hv ?. destruct (cview_cases cs d dev b) as [(i & x & Hx & _ & ->)|[_ ->]].
  - by eapply cw_ok.
  - apply dblock_ok; [|done]. by eapply cw_dwf.
Qed.

(** Changing the contents of one cached block changes the view there only. *)
Lemma cview_update d pid cs i x y dev b :
  cwf d pid cs -> cs !! i = Some x -> b_dev x <> 0 -> dev <> 0 ->
  b_dev y = b_dev x -> b_blockno y = b_blockno x ->
  cview (<[i := y]> cs) d dev b =
    (if decide ((dev, b) = (b_dev x, b_blockno x)) then b_data y else cview cs d dev b).
Proof.
  intros Hwf Hi Hdx Hdev Hy1 Hy2.
  assert (i < length cs)%nat as Hlt by (by eapply lookup_lt_Some).
  case_decide as He.
  - simplify_eq.
    destruct (cview_cases (<[i := y]> cs) d (b_dev x) (b_blockno x))
      as [(j & z & Hz & [Hz1 Hz2] & ->)|[Hm _]].
    + destruct (decide (i = j)) as [<-|Hne].
      * rewrite list_lookup_insert_eq in Hz by done. congruence.
      * rewrite list_lookup_insert_ne in Hz by done.
        exfalso. apply Hne. by eapply (cw_uniq _ _ _ Hwf i j).
    + exfalso. apply (Hm i y); [by apply list_lookup_insert_eq|done].
  - destruct (cview_cases cs d dev b) as [(j & z & Hz & Hk & ->)|[Hm ->]].
    + assert (i <> j) as Hne by (intros <-; destruct Hk; congruence).
      destruct (cview_cases (<[i := y]> cs) d dev b) as [(k & w & Hw & Hk' & ->)|[Hm _]].
      * destruct (decide (i = k)) as [<-|Hne'].
        { rewrite list_lookup_insert_eq in Hw by done. destruct Hk'. congruence. }
        rewrite list_lookup_insert_ne in Hw by done.
        destruct Hk, Hk'. assert (j = k) as <- by (eapply (cw_uniq _ _ _ Hwf); eauto; congruence).
        congruence.
      * exfalso. apply (Hm j z); [by rewrite list_lookup_insert_ne|done].
    + apply cview_miss. intros j z Hz Hk. destruct (decide (i = j)) as [<-|Hne].
      * rewrite list_lookup_insert_eq in Hz by done. destruct Hk. congruence.
      * rewrite list_lookup_insert_ne in Hz by done. by apply (Hm j z).
Qed.

(** The view depends on the blocks and contents of the buffers, and on the disk
    for the blocks that are not cached. *)
Lemma cview_congr cs cs' d d' dev b :
  Forall2 (fun x x' => b_dev x' = b_dev x /\ b_blockno x' = b_blockno x /\ b_data x' = b_data x) cs cs' ->
  ((forall i x, cs !! i = Some x -> ~ key_is dev b x) -> dblock d' dev b = dblock d dev b) ->
  cview cs' d' dev b = cview cs d dev b.
Proof.
  intros HF Hm. destruct (cview_cases cs d dev b) as [(i & x & Hx & Hk & _)|[Hn Hv]].
  - clear Hm. unfold cview. revert i Hx. induction HF as [|y y' cs cs' (H1 & H2 & H3) HF IH]; [done|].
    intros i Hx. simpl. destruct (decide (key_is dev b y)) as [Hy|Hy].
    + rewrite decide_True; [done|]. unfold key_is in *. by rewrite H1, H2.
    + rewrite decide_False; [|unfold key_is in *; by rewrite H1, H2].
      destruct i as [|i]; [simpl in Hx; congruence|]. specialize (IH i Hx).
      destruct (list_find _ cs) as [[]|], (list_find _ cs') as [[]|]; done.
  - rewrite Hv, <- Hm by done. apply cview_miss. intros i x' Hx'.
    eapply Forall2_lookup_r in HF as (x & Hx & H1 & H2 & _); [|done].
    unfold key_is. rewrite H1, H2. by apply (Hn i).
Qed.

Lemma same_block_insert cs i c y :
  cs !! i = Some c -> b_dev y = b_dev c -> b_blockno y = b_blockno c -> b_data y = b_data c ->
  Forall2 (fun x x' => b_dev x' = b_dev x /\ b_blockno x' = b_blockno x /\ b_data x' = b_data x)
    cs (<[i := y]> cs).
Proof.
  intros Hc H1 H2 H3. apply Forall2_same_length_lookup_2; [by rewrite length_insert|].
  intros j x x' Hx Hx'. rewrite list_lookup_insert in Hx'. case_decide; naive_solver congruence.
Qed.

Lemma cview_ext cs d d' dev b :
  (forall dev b, dblock d' dev b = dblock d dev b) -> cview cs d' dev b = cview cs d dev b.
Proof. intros He. unfold cview. by destruct (list_find _ _) as [[]|]. Qed.

Lemma cwf_dsame d d' pid cs : dsame d d' -> cwf d pid cs -> cwf d' pid cs.
Proof.
  intros (Hwf & Hb & Hv & _) []. split; eauto.
  - intros i x Hx Hne. apply Hv. eauto.
  - intros i x Hx. destruct (cw_buf0 i x Hx) as [(? & ? & Hf)|?]; [left|by right].
    split_and!; [done..|]. rewrite Hb. done.
Qed.
End invariant.

(** * The operations *)

Section operations.
Context {D : Type} `{DiskDriver D} `{!DiskDriverLaws D}.
Implicit Types s : bstate D.

(** [bread] of block [b] can go ahead: the block is cached and not held, or it
    is not cached and some buffer can be recycled. *)
Definition has_room (cs : list buf) (dev b : Z) : Prop :=
  (exists i x, cs !! i = Some x /\ key_is dev b x /\ b_refcnt x = 0) \/
  ((forall i x, cs !! i = Some x -> ~ key_is dev b x) /\
   exists i x, cs !! i = Some x /\ b_refcnt x = 0 /\ b_flags x <> 6).

Definition locked_buf (pid : Z) (x : buf) : buf := with_lock (Sleeplock 1 pid) (with_refcnt 1 x).
Definition recycled_buf (dev b : Z) (x : buf) : buf := with_flags 0 (with_key dev b x).

Definition match_key (dev b : Z) (x : buf) : bool := (b_dev x =? dev) && (b_blockno x =? b).
Definition recyclable (x : buf) : bool :=
  (b_refcnt x =? 0) && (Z.land (b_flags x) B_DIRTY =? 0).

Lemma match_key_spec dev b x : match_key dev b x = true <-> key_is dev b x.
Proof. unfold match_key, key_is. rewrite andb_true_iff, !Z.eqb_eq. done. Qed.

(** The buffer [bget] answers, and the buffer it stores there. *)
Definition bget_choice (bs : list buf) (l : list nat) (dev b : Z) : option (nat * bool) :=
  match first_such (match_key dev b) bs l with
  | Some i => Some (i, true)
  | None => (., false) <$> first_such recyclable bs (rev l)
  end.

Lemma lru_lookup bs l i : lru bs l -> i ∈ l -> is_Some (bs !! i).
Proof.
  intros Hl Hi. pose proof Hl as (_ & _ & Hlen). apply lookup_lt_is_Some.
  apply (elem_of_lru _ _ _ Hl) in Hi. lia.
Qed.

Lemma lru_all bs l k : lru bs l -> l ≡ₚ k -> Forall (fun i => is_Some (bs !! i)) k.
Proof.
  intros Hl Hk. apply Forall_forall. intros i Hi. rewrite <- Hk in Hi. by eapply lru_lookup.
Qed.

Lemma rev_perm {A} (l : list A) : l ≡ₚ rev l.
Proof. apply Permutation_rev. Qed.

Lemma block_acquire_eq s i x :
  bufs s !! i = Some x ->
  block_acquire i s =
    if sl_locked (b_lock x) =? 0
    then Ok tt (set_bufs (<[i := with_lock (Sleeplock 1 (me s)) x]> (bufs s)) s) else Asleep.
Proof.
  intros Hx. unfold block_acquire, mbind, M_bind, buf_at, deref, gets, acquiresleep, buf_upd.
  rewrite Hx. simpl. by destruct (sl_locked (b_lock x) =? 0); simpl; [rewrite Hx|].
Qed.

(** [bget] on every branch: a cached block, a recycled buffer, no buffer left, or
    a block whose buffer is held. *)
Lemma bget_eq s l dev b :
  lru (bufs s) l ->
  bget dev b s =
    match bget_choice (bufs s) l dev b with
    | None => Panic "bget: no buffers"
    | Some (i, hit) =>
        match bufs s !! i with
        | None => Fault
        | Some x =>
            if sl_locked (b_lock x) =? 0
            then Ok i (set_bufs (<[i := with_lock (Sleeplock 1 (me s))
                   (if hit then with_refcnt (b_refcnt x + 1) x
                    else with_refcnt 1 (recycled_buf dev b x))]> (bufs s)) s)
            else Asleep
        end
    end.
Proof.
  intros Hl. unfold bget, bget_choice.
  destruct (lru_walk_next s l (match_key dev b) Hl) as (h & Hh & Hw).
  destruct (lru_walk_prev s l recyclable Hl) as (h' & Hh' & Hw').
  assert (h' = h) as -> by congruence.
  assert (buf_at HEAD s = Ok h s) as Hhead by (unfold buf_at, deref; by rewrite Hh).
  rewrite (bind_ok _ _ _ _ _ Hhead).
  change (fun x : buf => (b_dev x =? dev) && (b_blockno x =? b)) with (match_key dev b).
  change (fun x : buf => (b_refcnt x =? 0) && (Z.land (b_flags x) B_DIRTY =? 0)) with recyclable.
  rewrite (bind_ok _ _ _ _ _ Hw).
  destruct (first_such (match_key dev b) (bufs s) l) as [i|] eqn:Hf.
  - apply first_such_Some in Hf as (_ & x & Hx & _). rewrite Hx.
    assert (i < length (bufs s))%nat by (by eapply lookup_lt_Some).
    rewrite (buf_upd_eq i _ _ s x Hx). unfold mbind, M_bind.
    erewrite block_acquire_eq by (simpl; by rewrite list_lookup_insert_eq).
    simpl. rewrite list_insert_insert_eq. by destruct (sl_locked (b_lock x) =? 0).
  - rewrite (bind_ok _ _ _ _ _ Hw').
    destruct (first_such recyclable (bufs s) (rev l)) as [i|] eqn:Hf'; [|done].
    apply first_such_Some in Hf' as (_ & x & Hx & _). simpl. rewrite Hx.
    assert (i < length (bufs s))%nat by (by eapply lookup_lt_Some).
    rewrite !buf_upd_fuse, (buf_upd_eq i _ _ s x Hx). unfold mbind, M_bind.
    erewrite block_acquire_eq by (simpl; by rewrite list_lookup_insert_eq).
    simpl. rewrite list_insert_insert_eq. by destruct (sl_locked (b_lock x) =? 0).
Qed.

(** [bget] when it returns. *)
Lemma wp_bget s l dev b i hit x Q :
  lru (bufs s) l -> bget_choice (bufs s) l dev b = Some (i, hit) -> bufs s !! i = Some x ->
  b_refcnt x = 0 -> sl_locked (b_lock x) = 0 ->
  Q i (set_bufs (<[i := locked_buf (me s) (if hit then x else recycled_buf dev b x)]> (bufs s)) s) ->
  wp (bget dev b) s Q.
Proof.
  intros Hl Hc Hx Hrc Hlk HQ. unfold wp. rewrite (bget_eq s l) by done.
  rewrite Hc, Hx, Hlk. simpl. unfold locked_buf in HQ. destruct hit; [|done]. by rewrite Hrc.
Qed.

(** Under [has_room] the choice of [bget] is defined. *)
Lemma bget_choice_hit s l dev b i x :
  lru (bufs s) l -> cwf (disk s) (me s) (cores (bufs s)) -> dev <> 0 ->
  cores (bufs s) !! i = Some x -> key_is dev b x -> bget_choice (bufs s) l dev b = Some (i, true).
Proof.
  intros Hl Hwf Hdev Hx [Hk1 Hk2]. unfold bget_choice.
  pose proof Hx as Hx'. apply cores_lookup in Hx' as (Hi & y & Hy & ->).
  destruct (first_such (match_key dev b) (bufs s) l) as [j|] eqn:Hf.
  - apply first_such_Some in Hf as (Hj & z & Hz & Hzk). apply match_key_spec in Hzk as [Hz1 Hz2].
    assert (i = j) as <-; [|done].
    eapply (cw_uniq _ _ _ Hwf i j); [done| | | |].
    + apply cores_lookup. split; [by apply (elem_of_lru _ _ _ Hl)|eauto].
    + simpl in *. congruence.
    + simpl in *. congruence.
    + simpl in *. congruence.
  - exfalso. eapply first_such_None with (i := i) (x := y) in Hf; [| |by apply (elem_of_lru _ _ _ Hl)|done].
    + apply not_true_iff_false in Hf. apply Hf, match_key_spec. done.
    + by eapply lru_all.
Qed.

Lemma bget_choice_miss s l dev b :
  lru (bufs s) l -> cwf (disk s) (me s) (cores (bufs s)) ->
  (forall i x, cores (bufs s) !! i = Some x -> ~ key_is dev b x) ->
  (exists i x, cores (bufs s) !! i = Some x /\ b_refcnt x = 0 /\ b_flags x <> 6) ->
  exists i x, bget_choice (bufs s) l dev b = Some (i, false) /\
    cores (bufs s) !! i = Some x /\ b_refcnt x = 0 /\ b_flags x <> 6.
Proof.
  intros Hl Hwf Hm (i & x & Hx & Hrc & Hfl). unfold bget_choice.
  destruct (first_such (match_key dev b) (bufs s) l) as [j|] eqn:Hf.
  { exfalso. apply first_such_Some in Hf as (Hj & z & Hz & Hzk). apply match_key_spec in Hzk.
    apply (Hm j (core z)); [|done]. apply cores_lookup.
    split; [by apply (elem_of_lru _ _ _ Hl)|eauto]. }
  destruct (first_such recyclable (bufs s) (rev l)) as [j|] eqn:Hf'.
  - apply first_such_Some in Hf' as (Hj & z & Hz & Hzr). rewrite <- (rev_perm l) in Hj.
    assert (cores (bufs s) !! j = Some (core z)) as Hcz.
    { apply cores_lookup. split; [by apply (elem_of_lru _ _ _ Hl)|eauto]. }
    exists j, (core z). unfold recyclable in Hzr. apply andb_true_iff in Hzr as [H1 H2].
    apply Z.eqb_eq in H1. simpl. split_and!; try done.
    intros He. by rewrite He in H2.
  - exfalso. apply cores_lookup in Hx as (Hi & y & Hy & ->). simpl in *.
    eapply first_such_None with (i := i) (x := y) in Hf'.
    + unfold recyclable in Hf'. rewrite Hrc in Hf'. simpl in Hf'.
      destruct (cw_buf _ _ _ Hwf i (core y)) as [(_ & _ & Hc)|(Hc & _)].
      * apply cores_lookup. eauto.
      * simpl in Hc. destruct Hc as [[Hc _]|[Hc|[Hc _]]]; rewrite Hc in Hf'; done.
      * simpl in Hc. lia.
    + eapply lru_all; [done|apply rev_perm].
    + rewrite <- (rev_perm l). by apply (elem_of_lru _ _ _ Hl).
    + done.
Qed.

Lemma cwf_insert (d : D) pid cs i c y :
  cwf d pid cs -> cs !! i = Some c -> block_ok (b_data y) ->
  (b_dev y <> 0 -> dvalid d (b_dev y) (b_blockno y)) -> (b_flags y <> 0 -> b_dev y <> 0) ->
  (idle_buf d y \/ held_buf pid y) ->
  (forall j x, j <> i -> cs !! j = Some x -> b_dev y <> 0 -> ~ key_is (b_dev y) (b_blockno y) x) ->
  cwf d pid (<[i := y]> cs).
Proof.
  intros [] Hc Hok Hv Hfd Hb Hu. assert (i < length cs)%nat by (by eapply lookup_lt_Some).
  split; [by rewrite length_insert|done|..].
  1-4: intros j x Hx; destruct (decide (i = j)) as [<-|];
       [rewrite list_lookup_insert_eq in Hx by done; by injection Hx as <-
       |rewrite list_lookup_insert_ne in Hx by done; eauto].
  intros j k x z Hx Hz Hne He1 He2.
  rewrite list_lookup_insert in Hx, Hz.
  repeat case_decide; simplify_eq; destruct_and?; simplify_eq; [done|..].
  - exfalso. eapply Hu; [|exact Hx|congruence|done]. intros ->. tauto.
  - exfalso. eapply Hu; [|exact Hz|congruence|done]. intros ->. tauto.
  - eauto.
Qed.

(** A change of one buffer that keeps its block. *)
Lemma cwf_insert_same (d : D) pid cs i c y :
  cwf d pid cs -> cs !! i = Some c -> block_ok (b_data y) ->
  b_dev y = b_dev c -> b_blockno y = b_blockno c -> b_flags c <> 0 -> (idle_buf d y \/ held_buf pid y) ->
  cwf d pid (<[i := y]> cs).
Proof.
  intros Hwf Hc Hok Hd Hb Hf Hcase. eapply cwf_insert; try done.
  - rewrite Hd, Hb. by eapply cw_valid.
  - rewrite Hd. intros _. by eapply cw_dev.
  - intros j x Hj Hx Hne [Hk1 Hk2]. apply Hj. symmetry.
    eapply (cw_uniq _ _ _ Hwf i j c x); congruence.
Qed.

(** What [bread] promises: buffer [i] is held, holds block [b] with its current
    contents, keeps its dirtiness, and nothing else is changed. *)
Record bread_post s (dev b : Z) (i : nat) s' : Prop := {
  br_inv : binv s';
  br_disk : dsame (disk s) (disk s');
  br_me : me s' = me s;
  br_view : forall dev' b', dev' <> 0 -> bview s' dev' b' = bview s dev' b';
  br_buf : exists c y, cores (bufs s) !! i = Some c /\ b_refcnt c = 0 /\
    cores (bufs s') = <[i := y]> (cores (bufs s)) /\
    key_is dev b y /\ held_buf (me s) y /\ b_data y = bview s dev b /\
    ((key_is dev b c /\ b_flags y = b_flags c) \/
     (~ key_is dev b c /\ b_flags c <> 6 /\ b_flags y = 2 /\
      forall j x, cores (bufs s) !! j = Some x -> ~ key_is dev b x))
}.

Lemma idle_of (d : D) pid cs i x :
  cwf d pid cs -> cs !! i = Some x -> b_refcnt x = 0 -> idle_buf d x.
Proof. intros Hwf Hx Hr. destruct (cw_buf _ _ _ Hwf i x Hx) as [?|(? & _)]; [done|lia]. Qed.

(** The block is cached: [bread] only takes the lock. *)
Lemma wp_bread_hit s dev b i c Q :
  binv s -> dev <> 0 -> cores (bufs s) !! i = Some c -> key_is dev b c -> b_refcnt c = 0 ->
  (forall s', bread_post s dev b i s' -> Q i s') -> wp (bread dev b) s Q.
Proof.
  intros [[l Hl] Hwf] Hdev Hc Hk Hrc HQ.
  pose proof (bget_choice_hit _ _ _ _ _ _ Hl Hwf Hdev Hc Hk) as Hch.
  pose proof Hc as Hc'. apply cores_lookup in Hc' as (Hi & x & Hx & ->).
  destruct (idle_of _ _ _ _ _ Hwf Hc Hrc) as (_ & Hlk & Hfl).
  assert (b_flags x = 2 \/ b_flags x = 6) as Hfl'.
  { destruct Hk as [Hk _]. simpl in *. destruct Hfl as [[_ ?]|[?|[? _]]]; [congruence|auto..]. }
  unfold bread. eapply wp_bind, wp_bget; [done|done|done|done|simpl in Hlk; by rewrite Hlk|].
  eapply wp_bind, wp_buf_at; [simpl; rewrite list_lookup_insert_eq; [done|by eapply lookup_lt_Some]|].
  eapply wp_bind. unfold guard_ok. cbn [b_flags locked_buf with_lock with_refcnt].
  replace (Z.land (b_flags x) B_VALID =? 0) with false by (by destruct Hfl' as [-> | ->]).
  apply wp_ret, wp_ret, HQ.
  assert (held_buf (me s) (core (locked_buf (me s) x))) as Hheld by (split_and!; done).
  assert (cores (<[i := locked_buf (me s) x]> (bufs s)) =
          <[i := core (locked_buf (me s) x)]> (cores (bufs s))) as Hcs by (by apply cores_insert).
  split.
  - split; [exists l; by eapply lru_insert|]. cbn [bufs set_bufs disk me]. rewrite Hcs.
    eapply cwf_insert_same; try done; [by eapply (cw_ok _ _ _ Hwf) in Hc| |by right].
    simpl. destruct Hfl' as [-> | ->]; done.
  - split_and!; try done. by eapply cw_dwf.
  - done.
  - intros dev' b' Hdev'. unfold bview. cbn [bufs set_bufs disk me]. rewrite Hcs.
    destruct Hk as [Hk1 Hk2]. rewrite (cview_update _ _ _ _ _ _ _ _ Hwf Hc) by (simpl in *; congruence).
    case_decide as He; [|done]. injection He as -> ->. symmetry.
    by apply (cview_hit _ _ _ i (core x) _ _ Hwf).
  - exists (core x), (core (locked_buf (me s) x)). split_and!; try done.
    + symmetry. by apply (cview_hit _ _ _ i (core x) _ _ Hwf).
    + by left.
Qed.

(** The block is not cached: a clean buffer is recycled and read from disk. *)
Lemma wp_bread_miss s dev b Q :
  binv s -> dev <> 0 -> dvalid (disk s) dev b ->
  (forall i x, cores (bufs s) !! i = Some x -> ~ key_is dev b x) ->
  (exists i x, cores (bufs s) !! i = Some x /\ b_refcnt x = 0 /\ b_flags x <> 6) ->
  (forall i s', bread_post s dev b i s' -> Q i s') -> wp (bread dev b) s Q.
Proof.
  intros [[l Hl] Hwf] Hdev Hv Hm Hrec HQ.
  destruct (bget_choice_miss _ _ _ _ Hl Hwf Hm Hrec) as (i & c & Hch & Hc & Hrc & Hfl).
  pose proof Hc as Hc'. apply cores_lookup in Hc' as (Hi & x & Hx & ->).
  destruct (idle_of _ _ _ _ _ Hwf Hc Hrc) as (_ & Hlk & Hfl').
  pose proof (cw_ok _ _ _ Hwf i _ Hc) as Hok.
  assert (i < length (bufs s))%nat as Hlt by (by eapply lookup_lt_Some).
  unfold bread. eapply wp_bind, wp_bget; [done|done|done|done|simpl in Hlk; by rewrite Hlk|].
  set (y0 := locked_buf (me s) (recycled_buf dev b x)).
  eapply wp_bind, wp_buf_at; [simpl; by rewrite list_lookup_insert_eq|].
  eapply wp_bind. unfold guard_ok. replace (Z.land (b_flags y0) B_VALID =? 0) with true by done.
  set (s1 := set_bufs (<[i := y0]> (bufs s)) s).
  eapply wp_mono.
  { apply (iderw_read s1 i y0); try done.
    - by eapply cw_dwf.
    - simpl. by rewrite list_lookup_insert_eq.
    - apply holdingsleep_acquired. }
  intros [] s2 (d' & Hds & ->). apply wp_ret, HQ. cbn [bufs s1 set_bufs disk me].
  rewrite list_insert_insert_eq.
  set (y := with_flags B_VALID _).
  assert (cores (<[i := y]> (bufs s)) = <[i := core y]> (cores (bufs s))) as Hcs
    by (by apply cores_insert).
  assert (held_buf (me s) (core y)) as Hheld by (split_and!; [done|done|by left]).
  assert (cview (cores (bufs s)) (disk s) dev b = dblock (disk s) dev b) as Hview
    by (by apply cview_miss).
  assert (cwf (disk s) (me s) (<[i := core y]> (cores (bufs s)))) as Hwf'.
  { eapply cwf_insert; try done; [|by right|]; simpl.
    - by apply dblock_ok; [eapply cw_dwf|].
    - intros j z Hj Hz _. by apply (Hm j z). }
  split.
  - split; [exists l; by eapply lru_insert|]. cbn [bufs disk me]. rewrite Hcs.
    by eapply cwf_dsame.
  - done.
  - done.
  - intros dev' b' Hdev'. unfold bview. cbn [bufs disk me]. rewrite Hcs.
    rewrite (cview_ext _ (disk s) d') by apply Hds.
    destruct (decide ((dev', b') = (dev, b))) as [He|Hne].
    + injection He as -> ->. rewrite Hview.
      apply (cview_hit _ _ _ i (core y) _ _ Hwf'); [|done|done].
      apply list_lookup_insert_eq. by rewrite (cw_len _ _ _ Hwf).
    + destruct (cview_cases (cores (bufs s)) (disk s) dev' b') as [(j & z & Hz & Hzk & Hzv)|[Hmm ->]].
      * destruct (decide (i = j)) as [<-|Hij].
        -- (* the recycled buffer was clean: the disk has its contents *)
           rewrite Hzv. rewrite Hc in Hz. injection Hz as <-. destruct Hzk as [Hz1 Hz2].
           destruct Hfl' as [[_ Hd0]|[?|[_ Hd]]]; [simpl in *; congruence|done|].
           rewrite Hd, Hz1, Hz2. apply cview_miss. intros k w Hw [Hw1 Hw2].
           destruct (decide (i = k)) as [<-|Hik].
           { rewrite list_lookup_insert_eq in Hw by (rewrite (cw_len _ _ _ Hwf); done).
             injection Hw as <-. simpl in *. congruence. }
           rewrite list_lookup_insert_ne in Hw by done. apply Hik.
           eapply (cw_uniq _ _ _ Hwf i k (core x) w); simpl in *; congruence.
        -- rewrite Hzv. apply (cview_hit _ _ _ j z _ _ Hwf'); [|done|done].
           by rewrite list_lookup_insert_ne.
      * apply cview_miss. intros k w Hw Hk. destruct (decide (i = k)) as [<-|Hik].
        { rewrite list_lookup_insert_eq in Hw by (rewrite (cw_len _ _ _ Hwf); done).
          injection Hw as <-. destruct Hk. simpl in *. congruence. }
        rewrite list_lookup_insert_ne in Hw by done. by apply (Hmm k w).
  - exists (core x), (core y). split_and!; try done. right. split_and!; try done. by apply (Hm i).
Qed.

(** [bread] returns the block with its current contents, whenever the cache has
    room for it. *)
Lemma wp_bread s dev b Q :
  binv s -> dev <> 0 -> dvalid (disk s) dev b -> has_room (cores (bufs s)) dev b ->
  (forall i s', bread_post s dev b i s' -> Q i s') -> wp (bread dev b) s Q.
Proof.
  intros Hinv Hdev Hv [(i & x & Hx & Hk & Hr)|[Hm Hrec]] HQ.
  - eapply wp_bread_hit; eauto.
  - eapply wp_bread_miss; eauto.
Qed.

Lemma held_flags pid x : held_buf pid x -> b_flags x <> 0.
Proof. intros (_ & _ & [-> | ->]); done. Qed.

(** Writing through [bp->data]. *)
Lemma wp_bset s i c f Q :
  binv s -> cores (bufs s) !! i = Some c -> held_buf (me s) c -> block_ok (f (b_data c)) ->
  (forall s', binv s' -> cores (bufs s') = <[i := with_data (f (b_data c)) c]> (cores (bufs s)) ->
     disk s' = disk s -> me s' = me s -> Q tt s') ->
  wp (bset i f) s Q.
Proof.
  intros [[l Hl] Hwf] Hc Hh Hok HQ. pose proof Hc as Hc'.
  apply cores_lookup in Hc' as (Hi & x & Hx & ->). unfold bset.
  eapply wp_buf_upd; [done|]. apply HQ; cbn [bufs set_bufs disk me]; try done.
  - split; cbn [bufs set_bufs disk me]; [exists l; by eapply lru_insert|].
    rewrite cores_insert by done.
    eapply cwf_insert_same; try done; [by eapply held_flags|by right].
  - by rewrite cores_insert.
Qed.

Lemma wp_bdata s i c Q :
  cores (bufs s) !! i = Some c -> Q (b_data c) s -> wp (bdata i) s Q.
Proof.
  intros Hc HQ. apply cores_lookup in Hc as (Hi & x & Hx & ->). unfold bdata.
  eapply wp_bind, wp_buf_at; [done|]. by apply wp_ret.
Qed.

Lemma held_holding pid x : held_buf pid x -> holdingsleep pid (b_lock x) = true.
Proof. intros (_ & -> & _). apply holdingsleep_acquired. Qed.

(** [bwrite] makes the disk agree with the buffer, whose contents every reader
    already saw. *)
Lemma wp_bwrite s i c Q :
  binv s -> cores (bufs s) !! i = Some c -> held_buf (me s) c ->
  (forall s', binv s' -> cores (bufs s') = <[i := with_flags 2 c]> (cores (bufs s)) ->
     dwrote (b_dev c, b_blockno c, b_data c) (disk s) (disk s') -> me s' = me s ->
     (forall dev b, dev <> 0 -> dvalid (disk s) dev b -> bview s' dev b = bview s dev b) ->
     Q tt s') ->
  wp (bwrite i) s Q.
Proof.
  intros [[l Hl] Hwf] Hc Hh HQ. pose proof Hc as Hc'.
  apply cores_lookup in Hc' as (Hi & x & Hx & ->). unfold bwrite.
  pose proof (held_flags _ _ Hh) as Hf0.
  pose proof (cw_dev _ _ _ Hwf i _ Hc Hf0) as Hdev.
  pose proof (cw_ok _ _ _ Hwf i _ Hc) as Hok.
  pose proof (held_holding _ _ Hh) as Hhold.
  pose proof (cw_valid _ _ _ Hwf i _ Hc Hdev) as Hv.
  assert (i < length (bufs s))%nat as Hlt by (by eapply lookup_lt_Some).
  eapply wp_bind, wp_buf_at; [done|]. eapply wp_bind, wp_gets.
  simpl in Hhold. rewrite Hhold. cbn [negb].
  eapply wp_bind, wp_buf_upd; [done|].
  set (s1 := set_bufs _ s). set (x1 := with_flags (Z.lor (b_flags x) B_DIRTY) x) in *.
  eapply wp_mono.
  { apply (iderw_write s1 i x1); try done.
    - by eapply cw_dwf.
    - simpl. by rewrite list_lookup_insert_eq.
    - destruct Hh as (_ & _ & [Hf|Hf]); simpl in Hf; simpl; by rewrite Hf. }
  intros [] s2 (d' & Hds & ->). cbn [s1 bufs set_bufs disk me b_dev b_blockno b_data x1 with_flags core
    with_prev with_next] in *.
  rewrite list_insert_insert_eq.
  assert (cores (<[i := with_flags B_VALID x1]> (bufs s)) = <[i := with_flags 2 (core x)]> (cores (bufs s)))
    as Hcs by (by rewrite cores_insert).
  destruct Hds as (Hdw & Hblk & Hval & Hhist).
  assert (forall j y, j <> i -> cores (bufs s) !! j = Some y -> b_dev y <> 0 ->
    dblock d' (b_dev y) (b_blockno y) = dblock (disk s) (b_dev y) (b_blockno y)) as Hother.
  { intros j y Hj Hy Hne. rewrite Hblk by (by eapply (cw_valid _ _ _ Hwf j)).
    unfold apply_write. rewrite decide_False; [done|]. simpl. intros He. simplify_eq.
    apply Hj. by eapply (cw_uniq _ _ _ Hwf j i y (core x)). }
  assert (held_buf (me s) (with_flags 2 (core x))) as Hh'.
  { destruct Hh as (? & ? & _). split_and!; [done|done|by left]. }
  assert (cwf d' (me s) (<[i := with_flags 2 (core x)]> (cores (bufs s)))) as Hwf'.
  { eapply (cwf_insert_same _ _ _ i (core x)); try done; [|by right].
    destruct Hwf. split; try done.
    - intros j y Hy Hne. apply Hval. eauto.
    - intros j y Hy. destruct (decide (j = i)) as [->|Hj].
      { right. assert (y = core x) as -> by congruence. done. }
      destruct (cw_buf0 j y Hy) as [(? & ? & Hf)|?]; [left|by right].
      split_and!; try done. destruct Hf as [?|[?|[Hf Hd]]]; [by left|by right; left|].
      right; right. split; [done|]. rewrite Hd. symmetry. eapply Hother; eauto.
      eapply cw_dev0; [done|]. by rewrite Hf. }
  apply HQ; cbn [bufs set_bufs disk me]; try done.
  - split; cbn [bufs disk me]; [exists l; by eapply lru_insert|]. by rewrite Hcs.
  - intros dev b Hne Hdv. unfold bview. cbn [bufs disk]. rewrite Hcs.
    apply cview_congr; [by eapply same_block_insert|].
    intros Hn. rewrite Hblk by done. unfold apply_write. rewrite decide_False; [done|].
    simpl. intros He. simplify_eq. by apply (Hn i (core x)).
Qed.

(** [brelse] of a buffer held once moves it to the front of the ring. *)
Lemma wp_brelse_ring s l1 i l2 x Q :
  lru (bufs s) (l1 ++ i :: l2) -> bufs s !! i = Some x ->
  holdingsleep (me s) (b_lock x) = true -> b_refcnt x = 1 ->
  (forall s', lru (bufs s') (i :: l1 ++ l2) ->
     cores (bufs s') = cores (<[i := with_refcnt 0 (with_lock (Sleeplock 0 0) x)]> (bufs s)) ->
     disk s' = disk s -> me s' = me s -> Q tt s') ->
  wp (brelse i) s Q.
Proof.
  intros Hl Hx Hhold Hrc HQ. unfold brelse.
  assert (i < length (bufs s))%nat as Hlt by (by eapply lookup_lt_Some).
  eapply wp_bind, wp_buf_at; [done|]. eapply wp_bind, wp_gets.
  rewrite Hhold. cbn [negb].
  eapply wp_bind, wp_buf_upd; [done|].
  eapply wp_bind, wp_buf_upd; [simpl; by rewrite list_lookup_insert_eq|].
  unfold set_bufs. cbn [bufs disk me]. rewrite list_insert_insert_eq.
  set (y := with_refcnt 0 (with_lock (Sleeplock 0 0) x)) in *.
  replace (with_refcnt _ _) with y by (unfold y; simpl; by rewrite Hrc).
  eapply wp_bind, wp_buf_at; [simpl; by rewrite list_lookup_insert_eq|].
  change (guard_ok (b_refcnt y =? 0)) with (@guard_ok (bstate D) true). unfold guard_ok.
  assert (lru (<[i := y]> (bufs s)) (l1 ++ i :: l2)) as Hl' by (by eapply lru_insert).
  eapply (wp_move_to_front (BState (<[i := y]> (bufs s)) (disk s) (me s)) l1 i l2 y);
    [done|simpl; by rewrite list_lookup_insert_eq|].
  intros s' Hl'' (Hcs & _ & Hd & Hme). by apply HQ.
Qed.

(** [brelse] gives the buffer back; a clean one must still agree with the disk. *)
Lemma wp_brelse s i c Q :
  binv s -> cores (bufs s) !! i = Some c -> held_buf (me s) c ->
  (b_flags c = 6 \/ b_data c = dblock (disk s) (b_dev c) (b_blockno c)) ->
  (forall s', binv s' ->
     cores (bufs s') = <[i := with_lock (Sleeplock 0 0) (with_refcnt 0 c)]> (cores (bufs s)) ->
     disk s' = disk s -> me s' = me s ->
     (forall dev b, bview s' dev b = bview s dev b) -> Q tt s') ->
  wp (brelse i) s Q.
Proof.
  intros [[l Hl] Hwf] Hc Hh Hclean HQ. pose proof Hc as Hc'.
  apply cores_lookup in Hc' as (Hi & x & Hx & ->).
  pose proof (held_holding _ _ Hh) as Hhold. pose proof (cw_ok _ _ _ Hwf i _ Hc) as Hok.
  assert (i ∈ l) as Hin by (by apply (elem_of_lru _ _ _ Hl)).
  apply list_elem_of_split in Hin as (l1 & l2 & ->).
  pose proof Hh as (Hrc & _ & Hfl).
  eapply wp_brelse_ring; [done|done|done|done|].
  intros s' Hl'' Hcs Hd Hme. rewrite cores_insert in Hcs by done.
  apply HQ; try done.
  - split; [eauto|]. rewrite Hcs, Hd, Hme.
    eapply cwf_insert_same; try done; [by eapply held_flags|left].
    split_and!; try done. simpl in *. destruct Hfl as [Hfl|Hfl]; [|by right; left].
    right; right. split; [done|]. destruct Hclean as [?|?]; [congruence|done].
  - intros dev b. unfold bview. rewrite Hcs, Hd. apply cview_congr; [|done].
    by eapply same_block_insert.
Qed.
End operations.

(** * Boot *)

(** The buffers as [binit] leaves them: never used, in the order 29, ..., 0. *)
Definition boot_buf (i : nat) : buf :=
  Buf 0 0 0 initsleeplock 0 (S i) (match i with O => HEAD | S j => j end) zero_block.
Definition boot_bufs : list buf :=
  (boot_buf <$> seq 0 NBUF) ++ [with_prev 0 (with_next 29 zero_buf)].
Definition boot {D} (d : D) (pid : Z) : bstate D := BState boot_bufs d pid.

Lemma binit_boot {D} `{DiskDriver D} (d : D) pid :
  binit (BState bcache_bss d pid) = Ok tt (boot d pid).
Proof. vm_compute. reflexivity. Qed.

Lemma boot_lru : lru boot_bufs (rev (seq 0 NBUF)).
Proof.
  split_and!; [|symmetry; apply rev_perm|done].
  split_and!; [| |vm_compute; tauto].
  - rewrite <- (rev_perm (seq 0 NBUF)). apply NoDup_seq.
  - rewrite <- (rev_perm (seq 0 NBUF)), elem_of_seq. unfold HEAD. lia.
Qed.

Lemma boot_cores_lookup i x :
  cores boot_bufs !! i = Some x -> (i < NBUF)%nat /\ x = core (boot_buf i).
Proof.
  intros Hx. apply cores_lookup in Hx as (Hi & y & Hy & ->). split; [done|].
  unfold boot_bufs in Hy. rewrite lookup_app_l in Hy by (by rewrite length_fmap, length_seq).
  rewrite list_lookup_fmap, lookup_seq_lt in Hy by done. by injection Hy as <-.
Qed.

Lemma boot_binv {D} `{DiskDriver D} (d : D) pid : dwf d -> binv (boot d pid).
Proof.
  intros Hd. split; [eexists; apply boot_lru|]. simpl. split; [done|done|..].
  all: intros i; try (intros x Hx; apply boot_cores_lookup in Hx as (Hi & ->)); try done.
  - apply zero_block_ok.
  - left. split_and!; [done|done|by left].
  - intros j x y Hx. apply boot_cores_lookup in Hx as (Hi & ->). done.
Qed.

Lemma boot_has_room dev b : dev <> 0 -> has_room (cores boot_bufs) dev b.
Proof.
  intros Hdev. right. split.
  - intros i x Hx [Hk _]. apply boot_cores_lookup in Hx as (_ & ->). simpl in Hk. congruence.
  - exists 0%nat, (core (boot_buf 0)). done.
Qed.

(** * Properties of the buffer cache *)

(** A small disk for the examples: block [b] is filled with the byte [b]. *)
Definition ex_disk (n : nat) : memdisk :=
  Memdisk (Z.of_nat n) (mjoin ((fun b => fill_block (Z.of_nat b)) <$> seq 0 n)) [].

Lemma ex_disk_wf n : (n <= 256)%nat -> md_wf (ex_disk n).
Proof.
  intros Hn. unfold md_wf, ex_disk, BSIZE. simpl. split_and!; [lia|lia|..].
  - assert (forall k, length (mjoin ((fun b => fill_block (Z.of_nat b)) <$> seq k n)) = n * 1024)%nat
      as Hlen.
    { clear Hn. induction n as [|n IH]; intros k; [done|].
      cbn [seq fmap list_fmap mjoin list_join]. by rewrite length_app, IH. }
    rewrite Hlen. lia.
  - apply Forall_join, Forall_fmap, Forall_forall. intros b Hb. apply elem_of_seq in Hb.
    apply fill_block_ok. unfold byte_ok. lia.
Qed.

(** C28: whenever the cache has room for block [b] (it is cached and not held, or
    some unreferenced clean buffer can be recycled), [bread] returns: the buffer is
    locked by the caller and holds the current contents of the block, the invariant
    of the cache is kept, and no reader sees a difference on any block. *)
Theorem bread_returns_current_block {D} `{DiskDriverLaws D} (s : bstate D) dev b :
  binv s -> dev <> 0 -> dvalid (disk s) dev b -> has_room (cores (bufs s)) dev b ->
  exists i s', bread dev b s = Ok i s' /\ bread_post s dev b i s'.
Proof.
  intros Hinv Hdev Hv Hr.
  apply (wp_ok (bread dev b) s (fun i s' => bread_post s dev b i s')).
  by eapply wp_bread.
Qed.

Lemma bread_returns_current_block_witness :
  exists i s', bread 1 2 (boot (ex_disk 4) 7) = Ok i s' /\
    bread_post (boot (ex_disk 4) 7) 1 2 i s'.
Proof.
  apply (bread_returns_current_block (boot (ex_disk 4) 7) 1 2); [|done| |by apply boot_has_room].
  - apply boot_binv, ex_disk_wf. lia.
  - split; simpl; lia.
Defined.

(** the replacement policy is LRU. A block that is not cached goes into the
    least recently released buffer that is unreferenced and clean, and releasing a
    buffer makes it the most recent one. *)
Theorem replacement_is_lru {D} `{DiskDriverLaws D} (s s' : bstate D) l :
  lru (bufs s) l ->
  (forall dev b i, bget dev b s = Ok i s' ->
     Forall (fun j => forall x, bufs s !! j = Some x -> match_key dev b x = false) l ->
     lru (bufs s') l /\
     exists l1 l2 x, l = l1 ++ i :: l2 /\ bufs s !! i = Some x /\ recyclable x = true /\
       Forall (fun j => forall y, bufs s !! j = Some y -> recyclable y = false) l2) /\
  (forall l1 i l2 x, l = l1 ++ i :: l2 -> bufs s !! i = Some x -> b_refcnt x = 1 ->
     brelse i s = Ok tt s' -> lru (bufs s') (i :: l1 ++ l2)).
Proof.
  intros Hl. split.
  - intros dev b i Hb Hm. rewrite (bget_eq s l) in Hb by done. unfold bget_choice in Hb.
    destruct (first_such (match_key dev b) (bufs s) l) as [k|] eqn:Hf.
    { apply first_such_Some in Hf as (Hk & x & Hx & Hkey).
      rewrite Forall_forall in Hm. specialize (Hm k Hk x Hx). congruence. }
    destruct (first_such recyclable (bufs s) (rev l)) as [k|] eqn:Hf'; simpl in Hb; [|done].
    apply first_such_last in Hf' as (l1 & l2 & x & -> & Hx & Hr & Hl2);
      [|eapply lru_all; [done|reflexivity]].
    rewrite Hx in Hb. destruct (sl_locked (b_lock x) =? 0); [|done]. injection Hb as <- <-.
    split; [by eapply lru_insert|]. by exists l1, l2, x.
  - intros l1 i l2 x -> Hx Hrc Hb.
    assert (holdingsleep (me s) (b_lock x) = true) as Hhold.
    { destruct (holdingsleep (me s) (b_lock x)) eqn:E; [done|]. unfold brelse in Hb.
      unfold mbind, M_bind, buf_at, gets in Hb. rewrite Hx in Hb. simpl in Hb. by rewrite E in Hb. }
    assert (wp (brelse i) s (fun _ s' => lru (bufs s') (i :: l1 ++ l2))) as Hwp
      by (eapply wp_brelse_ring; eauto).
    unfold wp in Hwp. by rewrite Hb in Hwp.
Qed.

Lemma replacement_is_lru_witness :
  exists s', bget 1 2 (boot (ex_disk 4) 7) = Ok 0%nat s' /\ lru (bufs s') (rev (seq 0 NBUF)).
Proof.
  eexists. split; [reflexivity|].
  apply (proj1 (replacement_is_lru (boot (ex_disk 4) 7) _ _ boot_lru) 1 2 0%nat); [reflexivity|].
  apply Forall_forall. intros j Hj x Hx.
  rewrite <- (rev_perm (seq 0 NBUF)), elem_of_seq in Hj.
  assert (cores boot_bufs !! j = Some (core x)) as Hc by (apply cores_lookup; eauto with lia).
  apply boot_cores_lookup in Hc as (_ & Hc). unfold match_key.
  replace (b_dev x) with 0 by (by destruct x; injection Hc). done.
Defined.

(** C40: [bget] panics with "bget: no buffers" exactly when the block is not cached
    and every buffer is referenced or dirty. *)
Theorem bget_panics_iff_full {D} `{DiskDriverLaws D} (s : bstate D) l dev b :
  lru (bufs s) l ->
  bget dev b s = Panic "bget: no buffers" <->
  (forall j x, (j < NBUF)%nat -> bufs s !! j = Some x ->
     match_key dev b x = false /\ recyclable x = false).
Proof.
  intros Hl. rewrite (bget_eq s l) by done. unfold bget_choice.
  pose proof (lru_all _ _ _ Hl (reflexivity l)) as Hall.
  pose proof (lru_all _ _ _ Hl (rev_perm l)) as Hall'.
  split.
  - destruct (first_such (match_key dev b) (bufs s) l) as [i|] eqn:Hf.
    { destruct (bufs s !! i) as [x|]; [|done]. by destruct (sl_locked (b_lock x) =? 0). }
    destruct (first_such recyclable (bufs s) (rev l)) as [i|] eqn:Hf'; simpl.
    { destruct (bufs s !! i) as [x|]; [|done]. by destruct (sl_locked (b_lock x) =? 0). }
    intros _ j x Hj Hx. apply (elem_of_lru _ _ _ Hl) in Hj. split.
    + eapply (first_such_None (match_key dev b)); [exact Hall|done..].
    + eapply (first_such_None recyclable); [exact Hall'|done| |done]. by rewrite <- (rev_perm l).
  - intros Hn.
    destruct (first_such (match_key dev b) (bufs s) l) as [i|] eqn:Hf.
    { apply first_such_Some in Hf as (Hi & x & Hx & Hm). apply (elem_of_lru _ _ _ Hl) in Hi.
      destruct (Hn i x Hi Hx). congruence. }
    destruct (first_such recyclable (bufs s) (rev l)) as [i|] eqn:Hf'; simpl; [|done].
    apply first_such_Some in Hf' as (Hi & x & Hx & Hm). rewrite <- (rev_perm l) in Hi.
    apply (elem_of_lru _ _ _ Hl) in Hi. destruct (Hn i x Hi Hx). congruence.
Qed.

Lemma bget_panics_iff_full_witness :
  bget 1 2 (boot (ex_disk 4) 7) <> Panic "bget: no buffers".
Proof.
  intros Hp. pose proof (proj1 (bget_panics_iff_full (boot (ex_disk 4) 7) _ 1 2 boot_lru) Hp) as Hn.
  destruct (Hn 0%nat (boot_buf 0)) as [_ Hr]; [unfold NBUF; lia|reflexivity|discriminate].
Defined.
