(* ===== verification/Cache.v ===== *)
(** The buffer cache as its clients reason about it.

    [rep s v d h hs P] relates a state of the cache to an abstract one: [v] is
    the contents of every block as readers see it, [d] the contents on disk, [h]
    the writes the disk has completed, [hs] the buffers the running process
    holds with their blocks, [P] the blocks whose buffer is dirty (the blocks of
    the current log transaction). The rules below say what each operation of
    bio.c does to the abstract state: they are the contract the log and the file
    systems are verified against. *)

From S2P Require Import Prelude Bytes Sleeplock Buf Ring Memide Bio.

Definition blocks : Type := Z -> Z -> list Z.
Abbreviation handle := (nat * (Z * Z))%type.

(** The buffer is among those held; and the buffers left once it is taken out. *)
Ltac held := solve [apply list_elem_of_here | apply list_elem_of_further; held].
Ltac take_out :=
  first [reflexivity | etransitivity; [apply perm_skip; take_out | apply perm_swap]].

Lemma same_outside (P P' : gset (Z * Z)) k0 :
  P' ∪ {[k0]} = P ∪ {[k0]} -> forall k, k <> k0 -> k ∈ P' <-> k ∈ P.
Proof.
  intros He k Hk. assert (k ∈ P' ∪ {[k0]} <-> k ∈ P ∪ {[k0]}) as Hi by (by rewrite He).
  rewrite !elem_of_union, !elem_of_singleton in Hi. tauto.
Qed.

Section Rep.
Context {D : Type} `{DiskDriver D} `{!DiskDriverLaws D}.
Context (V : Z -> Z -> Prop) (pid : Z).
Implicit Types (s : bstate D) (v d : blocks) (hs : list handle) (P : gset (Z * Z)).

Record rep s v d (h : list dwrite) hs P : Prop := {
  rp_inv : binv s;
  rp_me : me s = pid;
  rp_valid : forall dev b, dvalid (disk s) dev b <-> V dev b;
  rp_view : forall dev b, V dev b -> bview s dev b = v dev b;
  rp_disk : forall dev b, V dev b -> dblock (disk s) dev b = d dev b;
  rp_hist : dhist (disk s) = h;
  rp_held : forall i dev b, (i, (dev, b)) ∈ hs ->
    exists y, cores (bufs s) !! i = Some y /\ key_is dev b y /\ held_buf pid y;
  rp_all : forall i x, cores (bufs s) !! i = Some x -> b_refcnt x <> 0 ->
    (i, (b_dev x, b_blockno x)) ∈ hs;
  rp_nodup : NoDup hs.*1;
  rp_dirty : forall i x, cores (bufs s) !! i = Some x -> b_flags x = 6 ->
    (b_dev x, b_blockno x) ∈ P;
  rp_pin : forall dev b, (dev, b) ∈ P ->
    exists i x, cores (bufs s) !! i = Some x /\ key_is dev b x /\ b_flags x = 6;
}.

Lemma rep_cwf s v d h hs P : rep s v d h hs P -> cwf (disk s) (me s) (cores (bufs s)).
Proof. by intros [[_ ?]]. Qed.

Lemma rep_valid_dev s v d h hs P dev b : rep s v d h hs P -> V dev b -> dev <> 0.
Proof. intros Hr Hv. apply (rp_valid _ _ _ _ _ _ Hr) in Hv. by eapply dvalid_dev. Qed.

Lemma rep_held_valid s v d h hs P i dev b : rep s v d h hs P -> (i, (dev, b)) ∈ hs -> V dev b.
Proof.
  intros Hr Hi. pose proof (rep_cwf _ _ _ _ _ _ Hr) as Hwf.
  destruct (rp_held _ _ _ _ _ _ Hr _ _ _ Hi) as (y & Hy & [<- <-] & Hh).
  apply (rp_valid _ _ _ _ _ _ Hr). eapply cw_valid; [done|done|].
  eapply cw_dev; [done|done|]. by eapply held_flags.
Qed.

Lemma rep_block_ok s v d h hs P dev b : rep s v d h hs P -> V dev b -> block_ok (v dev b).
Proof.
  intros Hr Hv. rewrite <- (rp_view _ _ _ _ _ _ Hr) by done. eapply cview_ok; [by eapply rep_cwf| |done].
  by apply (rp_valid _ _ _ _ _ _ Hr).
Qed.

(** A buffer is determined by its block. *)
Lemma rep_uniq s v d h hs P dev b i j x y :
  rep s v d h hs P -> V dev b -> cores (bufs s) !! i = Some x -> cores (bufs s) !! j = Some y ->
  key_is dev b x -> key_is dev b y -> i = j.
Proof.
  intros Hr Hv Hx Hy [Hx1 Hx2] [Hy1 Hy2]. pose proof (rep_valid_dev _ _ _ _ _ _ _ _ Hr Hv).
  eapply (cw_uniq _ _ _ (rep_cwf _ _ _ _ _ _ Hr) i j x y); congruence.
Qed.

(** A block that is neither dirty nor held reads as it is on disk. *)
Lemma rep_clean s v d h hs P dev b :
  rep s v d h hs P -> V dev b -> (dev, b) ∉ P -> (dev, b) ∉ hs.*2 -> v dev b = d dev b.
Proof.
  intros Hr Hv Hp Hn. pose proof (rep_cwf _ _ _ _ _ _ Hr) as Hwf.
  rewrite <- (rp_view _ _ _ _ _ _ Hr), <- (rp_disk _ _ _ _ _ _ Hr) by done. unfold bview.
  destruct (cview_cases (cores (bufs s)) (disk s) dev b) as [(i & x & Hx & [Hk1 Hk2] & ->)|[_ ->]]; [|done].
  destruct (decide (b_refcnt x = 0)) as [Hz|Hz].
  - destruct (idle_of _ _ _ _ _ Hwf Hx Hz) as (_ & _ & [[_ Hc]|[Hc|[_ Hc]]]).
    + exfalso. eapply rep_valid_dev; [done|exact Hv|congruence].
    + exfalso. apply Hp. rewrite <- Hk1, <- Hk2. by eapply rp_dirty.
    + congruence.
  - exfalso. apply Hn. apply (rp_all _ _ _ _ _ _ Hr) in Hx; [|done].
    apply list_elem_of_fmap. eexists. split; [|exact Hx]. simpl. congruence.
Qed.

Lemma rep_ext s v v' d d' h hs P :
  rep s v d h hs P -> (forall dev b, V dev b -> v dev b = v' dev b) ->
  (forall dev b, V dev b -> d dev b = d' dev b) -> rep s v' d' h hs P.
Proof.
  intros [] Hv Hd. split; try done; intros dev b HV.
  - rewrite <- Hv by done. auto.
  - rewrite <- Hd by done. auto.
Qed.

Lemma apply_write_twice v (k : Z * Z) x y dev b :
  apply_write (apply_write v (k, x)) (k, y) dev b = apply_write v (k, y) dev b.
Proof. unfold apply_write. simpl. by case_decide. Qed.

(** ** Room in the cache *)

Lemma pinned_indices s v d h hs P :
  rep s v d h hs P -> exists I, length I = size P /\
    forall i x, cores (bufs s) !! i = Some x -> b_flags x = 6 -> i ∈ I.
Proof.
  intros Hr. pose proof (rep_cwf _ _ _ _ _ _ Hr) as Hwf.
  enough (forall P', P' ⊆ P -> exists I, length I = size P' /\
    forall i x, cores (bufs s) !! i = Some x -> b_flags x = 6 -> (b_dev x, b_blockno x) ∈ P' -> i ∈ I)
    as Hex.
  { destruct (Hex P) as (I & HI & Hin); [done|]. exists I. split; [done|].
    intros i x Hx Hf. eapply Hin; eauto. by eapply rp_dirty. }
  induction P' as [|[dev b] P' Hni IH] using set_ind_L; intros Hsub.
  { exists []. split; [by rewrite size_empty|set_solver]. }
  destruct IH as (I & HI & Hin); [set_solver|].
  destruct (rp_pin _ _ _ _ _ _ Hr dev b) as (j & y & Hy & [Hy1 Hy2] & Hyf); [set_solver|].
  exists (j :: I). split; [rewrite size_union by set_solver; rewrite size_singleton; simpl; lia|].
  intros i x Hx Hxf Hxin. apply elem_of_cons.
  apply elem_of_union in Hxin as [He|Hxin]; [left|right; eauto].
  apply elem_of_singleton in He. injection He as He1 He2.
  eapply (cw_uniq _ _ _ Hwf i j x y); try congruence. eapply cw_dev; [done|done|]. by rewrite Hxf.
Qed.

Lemma pigeonhole (I : list nat) n : (length I < n)%nat -> exists i, (i < n)%nat /\ i ∉ I.
Proof.
  intros Hlt. destruct (decide (Exists (fun i => i ∉ I) (seq 0 n))) as [He|He].
  - apply Exists_exists in He as (i & Hi & Hn). apply elem_of_seq in Hi. exists i. split; [lia|done].
  - exfalso. rewrite <- Forall_Exists_neg in He.
    assert (seq 0 n ⊆+ I) as Hsub.
    { apply NoDup_submseteq; [apply NoDup_seq|]. intros i Hi. rewrite Forall_forall in He.
      destruct (decide (i ∈ I)); [done|]. by specialize (He i Hi). }
    apply submseteq_length in Hsub. rewrite length_seq in Hsub. lia.
Qed.

(** With fewer dirty and held buffers than [NBUF], any other block can be read;
    a dirty one is in the cache and can be read always. *)
Definition room hs P (dev b : Z) : Prop :=
  ((dev, b) ∉ hs.*2) /\ ((size P + length hs < NBUF)%nat \/ (dev, b) ∈ P).

Lemma rep_room s v d h hs P dev b :
  rep s v d h hs P -> room hs P dev b -> has_room (cores (bufs s)) dev b.
Proof.
  intros Hr [Hn Hlt]. pose proof (rep_cwf _ _ _ _ _ _ Hr) as Hwf.
  assert (forall i x, cores (bufs s) !! i = Some x -> b_refcnt x <> 0 ->
    (i, (b_dev x, b_blockno x)) ∈ hs) as Hall by apply Hr.
  destruct (decide (Exists (key_is dev b) (cores (bufs s)))) as [Hx|Hx].
  - left. apply Exists_exists in Hx as (x & Hx & [Hk1 Hk2]).
    apply list_elem_of_lookup in Hx as (i & Hi). exists i, x. split_and!; [done|done|].
    destruct (decide (b_refcnt x = 0)) as [|Hz]; [done|]. exfalso. apply Hn.
    apply list_elem_of_fmap. eexists. split; [|by eapply Hall]. simpl. congruence.
  - right. rewrite <- Forall_Exists_neg in Hx. split.
    { intros i x Hi. by eapply Forall_lookup_1 in Hx. }
    destruct Hlt as [Hlt|Hp].
    2:{ exfalso. destruct (rp_pin _ _ _ _ _ _ Hr _ _ Hp) as (i & x & Hi & Hk & _).
        by eapply Forall_lookup_1 in Hx. }
    destruct (pinned_indices _ _ _ _ _ _ Hr) as (I & HI & Hin).
    destruct (pigeonhole (I ++ hs.*1) NBUF) as (i & Hi & Hni); [rewrite length_app, length_fmap; lia|].
    destruct (cores (bufs s) !! i) as [x|] eqn:Hxi.
    2:{ apply lookup_ge_None in Hxi. rewrite (cw_len _ _ _ Hwf) in Hxi. lia. }
    exists i, x. split_and!; [done|..].
    + destruct (decide (b_refcnt x = 0)); [done|]. exfalso. apply Hni, elem_of_app. right.
      apply list_elem_of_fmap. eexists. split; [|by eapply Hall]. done.
    + intros Hf. apply Hni, elem_of_app. left. eauto.
Qed.

(** ** The operations *)

Lemma lookup_insert_cases {A} (l : list A) i j x y :
  <[i := y]> l !! j = Some x -> (j = i /\ x = y) \/ (j <> i /\ l !! j = Some x).
Proof.
  rewrite list_lookup_insert. case_decide as He; [|intros Hx].
  - destruct He as [-> _]. intros [= ->]. by left.
  - right. split; [|done]. intros ->. apply He. split; [done|]. by eapply lookup_lt_Some.
Qed.

(** A second change of a block hides the first. *)
Lemma rep_twice s v d h hs P k x y :
  rep s (apply_write (apply_write v (k, x)) (k, y)) d h hs P ->
  rep s (apply_write v (k, y)) d h hs P.
Proof. intros Hr. eapply rep_ext; [exact Hr| |done]. intros. apply apply_write_twice. Qed.

Lemma rep_held_ne s v d h hs P i dev b x :
  rep s v d h hs P -> (i, (dev, b)) ∈ hs -> cores (bufs s) !! i = Some x -> b_refcnt x <> 0.
Proof.
  intros Hr Hi Hx. destruct (rp_held _ _ _ _ _ _ Hr _ _ _ Hi) as (y & Hy & _ & Hc & _).
  replace x with y by congruence. by rewrite Hc.
Qed.

Lemma elem_of_handle_fst (i : nat) (k : Z * Z) hs : (i, k) ∈ hs -> i ∈ hs.*1.
Proof. intros Hi. apply list_elem_of_fmap. by exists (i, k). Qed.

(** [bread]: the caller gets a buffer with the block; no block changes. *)
Lemma wpc_bread s v d h hs P dev b Q :
  rep s v d h hs P -> V dev b -> room hs P dev b ->
  (forall i s', rep s' v d h ((i, (dev, b)) :: hs) P -> Q i s') ->
  wp (bread dev b) s Q.
Proof.
  intros Hr Hv Hroom HQ. pose proof (rep_valid_dev _ _ _ _ _ _ _ _ Hr Hv) as Hd0.
  eapply wp_bread; [by apply Hr|done|by apply (rp_valid _ _ _ _ _ _ Hr)|by eapply rep_room|].
  intros i s' [Hinv (Hdw & Hblk & Hval & Hh) Hme Hview (c & y & Hc & Hc0 & Hcs & Hk & Hheld & Hdat & Hfl)].
  apply HQ. pose proof (rp_me _ _ _ _ _ _ Hr) as Hpid. rewrite Hpid in *.
  assert (forall j k, (j, k) ∈ hs -> j <> i) as Hji.
  { intros j [dev' b'] Hj ->. by apply (rep_held_ne _ _ _ _ _ _ _ _ _ _ Hr Hj Hc). }
  assert (i < length (cores (bufs s)))%nat as Hil by (by eapply lookup_lt_Some).
  split; [done|congruence|..].
  - intros dev' b'. rewrite Hval. apply (rp_valid _ _ _ _ _ _ Hr).
  - intros dev' b' Hv'. rewrite Hview by (by eapply rep_valid_dev). by apply Hr.
  - intros dev' b' Hv'. rewrite Hblk. by apply Hr.
  - rewrite Hh. apply Hr.
  - intros j dev' b' Hj. apply elem_of_cons in Hj as [Hj|Hj].
    + simplify_eq. exists y. rewrite Hcs. split_and!; [by rewrite list_lookup_insert_eq|done..].
    + rewrite Hcs, list_lookup_insert_ne by (symmetry; by eapply Hji). by apply Hr.
  - intros j x Hx Hnz. rewrite Hcs in Hx. apply elem_of_cons.
    apply lookup_insert_cases in Hx as [[-> ->]|[_ Hx]]; [left|right; by apply Hr].
    by destruct Hk as [-> ->].
  - simpl. apply NoDup_cons. split; [|apply Hr]. intros Hin.
    apply list_elem_of_fmap in Hin as ([j k] & He & Hin). simpl in He. subst. by eapply Hji.
  - intros j x Hx Hf. rewrite Hcs in Hx. apply lookup_insert_cases in Hx as [[-> ->]|[_ Hx]]; [|by eapply Hr].
    destruct Hk as [Hk1 Hk2]. destruct Hfl as [[[Hc1 Hc2] Hfc]|(_ & _ & Hf2 & _)]; [|congruence].
    rewrite Hk1, Hk2, <- Hc1, <- Hc2. eapply Hr; [done|congruence].
  - intros dev' b' Hp. destruct (rp_pin _ _ _ _ _ _ Hr _ _ Hp) as (j & x & Hx & Hkx & Hfx).
    rewrite Hcs. destruct (decide (j = i)) as [->|Hne].
    + assert (x = c) as -> by congruence. exists i, y. rewrite list_lookup_insert_eq by done.
      destruct Hfl as [[[Hc1 Hc2] Hfc]|(_ & Hnf & _)]; [|done].
      split_and!; [done| |congruence]. destruct Hkx, Hk. split; congruence.
    + exists j, x. by rewrite list_lookup_insert_ne by done.
Qed.

(** A change of a held buffer that keeps it held: the common part of the rules
    for writing into a buffer, writing it to disk, and marking it dirty. *)
Lemma rep_change s s' v v' d d' h h' hs P P' i dev b c y :
  rep s v d h hs P -> (i, (dev, b)) ∈ hs -> cores (bufs s) !! i = Some c ->
  binv s' -> me s' = me s -> cores (bufs s') = <[i := y]> (cores (bufs s)) ->
  key_is dev b y -> held_buf pid y ->
  (forall dev b, dvalid (disk s') dev b <-> V dev b) ->
  (forall dev b, V dev b -> bview s' dev b = v' dev b) ->
  (forall dev b, V dev b -> dblock (disk s') dev b = d' dev b) ->
  dhist (disk s') = h' -> P' ∪ {[(dev, b)]} = P ∪ {[(dev, b)]} ->
  (b_flags y = 6 <-> (dev, b) ∈ P') ->
  rep s' v' d' h' hs P'.
Proof.
  intros Hr Hi Hc Hinv Hme Hcs Hk Hheld Hval Hview Hdisk Hh HP Hy.
  pose proof (rp_me _ _ _ _ _ _ Hr) as Hpid. pose proof (rep_held_valid _ _ _ _ _ _ _ _ _ Hr Hi) as HV.
  assert (i < length (cores (bufs s)))%nat as Hil by (by eapply lookup_lt_Some).
  assert (key_is dev b c) as Hkc.
  { destruct (rp_held _ _ _ _ _ _ Hr _ _ _ Hi) as (z & Hz & Hkz & _). by replace c with z by congruence. }
  pose proof (same_outside P P' (dev, b) HP) as HPk.
  split; [done|congruence|done|done|done|done|..].
  - intros j dev' b' Hj. rewrite Hcs. destruct (decide (j = i)) as [->|Hne].
    + exists y. rewrite list_lookup_insert_eq by done. split_and!; [done| |done].
      destruct (rp_held _ _ _ _ _ _ Hr _ _ _ Hj) as (z & Hz & [] & _), Hkc, Hk.
      assert (z = c) as -> by congruence. split; congruence.
    + rewrite list_lookup_insert_ne by done. by apply Hr.
  - intros j x Hx Hnz. rewrite Hcs in Hx.
    apply lookup_insert_cases in Hx as [[-> ->]|[_ Hx]]; [by destruct Hk as [-> ->]|by apply Hr].
  - apply Hr.
  - intros j x Hx Hf. rewrite Hcs in Hx. apply lookup_insert_cases in Hx as [[-> ->]|[Hne Hx]].
    + destruct Hk as [-> ->]. by apply Hy.
    + apply HPk; [|by eapply Hr]. intros He. injection He as He1 He2. apply Hne.
      by eapply (rep_uniq _ _ _ _ _ _ dev b j i).
  - intros dev' b' Hp. rewrite Hcs. destruct (decide ((dev', b') = (dev, b))) as [He|He].
    + injection He as -> ->. exists i, y. rewrite list_lookup_insert_eq by done. by rewrite Hy.
    + apply HPk in Hp; [|done]. destruct (rp_pin _ _ _ _ _ _ Hr _ _ Hp) as (j & x & Hx & [Hx1 Hx2] & Hf).
      exists j, x. rewrite list_lookup_insert_ne; [done|]. intros <-.
      apply He. destruct Hkc. congruence.
Qed.

(** Reading [bp->data]. *)
Lemma wpc_bdata s v d h hs P i dev b Q :
  rep s v d h hs P -> (i, (dev, b)) ∈ hs -> Q (v dev b) s -> wp (bdata i) s Q.
Proof.
  intros Hr Hi HQ. pose proof (rep_held_valid _ _ _ _ _ _ _ _ _ Hr Hi) as HV.
  destruct (rp_held _ _ _ _ _ _ Hr _ _ _ Hi) as (y & Hy & Hk & _).
  eapply wp_bdata; [done|]. rewrite <- (rp_view _ _ _ _ _ _ Hr) in HQ by done. unfold bview in HQ.
  rewrite (cview_hit _ _ _ i y _ _ (rep_cwf _ _ _ _ _ _ Hr)) in HQ; [done..|by eapply rep_valid_dev].
Qed.

(** Writing through [bp->data]: the block changes for every reader. *)
Lemma wpc_bset s v d h hs P i dev b f Q :
  rep s v d h hs P -> (i, (dev, b)) ∈ hs -> block_ok (f (v dev b)) ->
  (forall s', rep s' (apply_write v (dev, b, f (v dev b))) d h hs P -> Q tt s') ->
  wp (bset i f) s Q.
Proof.
  intros Hr Hi Hok HQ. pose proof (rep_held_valid _ _ _ _ _ _ _ _ _ Hr Hi) as HV.
  pose proof (rep_valid_dev _ _ _ _ _ _ _ _ Hr HV) as Hd0.
  pose proof (rep_cwf _ _ _ _ _ _ Hr) as Hwf.
  destruct (rp_held _ _ _ _ _ _ Hr _ _ _ Hi) as (c & Hc & Hk & Hh).
  assert (v dev b = b_data c) as Hvc.
  { rewrite <- (rp_view _ _ _ _ _ _ Hr) by done. by apply (cview_hit _ _ _ i c _ _ Hwf). }
  eapply wp_bset; [by apply Hr|done|by rewrite (rp_me _ _ _ _ _ _ Hr)|by rewrite <- Hvc|].
  intros s' Hinv Hcs Hd Hme. apply HQ.
  eapply (rep_change s s' v _ d d h h hs P P i dev b c); try done; rewrite ?Hd; try apply Hr.
  - intros dev' b' Hv'. unfold bview. rewrite Hcs, Hd.
    rewrite (cview_update _ _ _ i c _ _ _ Hwf);
      [|done|by destruct Hk as [-> _]|by eapply rep_valid_dev|done|done].
    destruct Hk as [Hk1 Hk2]. unfold apply_write. rewrite Hk1, Hk2. simpl.
    case_decide; [by rewrite Hvc|by apply Hr].
  - simpl. split; [intros Hf; destruct Hk as [<- <-]; by eapply Hr|].
    intros Hp. destruct (rp_pin _ _ _ _ _ _ Hr _ _ Hp) as (j & x & Hx & Hkx & Hf).
    assert (i = j) as <- by (by eapply rep_uniq). congruence.
Qed.

(** [bwrite]: the disk gets the contents of the block, which is clean then. *)
Lemma wpc_bwrite s v d h hs P i dev b Q :
  rep s v d h hs P -> (i, (dev, b)) ∈ hs ->
  (forall s', rep s' v (apply_write d (dev, b, v dev b)) (h ++ [(dev, b, v dev b)]) hs
     (P ∖ {[(dev, b)]}) -> Q tt s') ->
  wp (bwrite i) s Q.
Proof.
  intros Hr Hi HQ. pose proof (rep_held_valid _ _ _ _ _ _ _ _ _ Hr Hi) as HV.
  pose proof (rep_valid_dev _ _ _ _ _ _ _ _ Hr HV) as Hd0.
  pose proof (rep_cwf _ _ _ _ _ _ Hr) as Hwf. pose proof (rp_me _ _ _ _ _ _ Hr) as Hpid.
  destruct (rp_held _ _ _ _ _ _ Hr _ _ _ Hi) as (c & Hc & Hk & Hh).
  assert (v dev b = b_data c) as Hvc.
  { rewrite <- (rp_view _ _ _ _ _ _ Hr) by done. by apply (cview_hit _ _ _ i c _ _ Hwf). }
  eapply wp_bwrite; [by apply Hr|done|by rewrite Hpid|].
  intros s' Hinv Hcs (Hdw & Hblk & Hval & Hhist) Hme Hview. apply HQ.
  destruct Hk as [Hk1 Hk2]. rewrite Hk1, Hk2, <- Hvc in *.
  eapply (rep_change s s' v v d _ h _ hs P _ i dev b c); try done.
  - destruct Hh as (? & ? & _). split_and!; [done|done|by left].
  - intros dev' b'. rewrite Hval. apply Hr.
  - intros dev' b' Hv'. rewrite Hview; [by apply Hr|by eapply rep_valid_dev|].
    by apply (rp_valid _ _ _ _ _ _ Hr).
  - intros dev' b' Hv'. rewrite Hblk by (by apply (rp_valid _ _ _ _ _ _ Hr)).
    unfold apply_write. case_decide; [done|by apply Hr].
  - rewrite Hhist. by rewrite (rp_hist _ _ _ _ _ _ Hr).
  - apply leibniz_equiv. intros k. rewrite !elem_of_union, elem_of_difference, elem_of_singleton. 
    destruct (decide (k = (dev, b))); tauto.
  - simpl. split; [done|]. intros Hp. by apply elem_of_difference in Hp as [_ []]; apply elem_of_singleton.
Qed.

(** [b->flags |= B_DIRTY]. *)
Lemma wpc_dirty s v d h hs P i dev b Q :
  rep s v d h hs P -> (i, (dev, b)) ∈ hs ->
  (forall s', rep s' v d h hs (P ∪ {[(dev, b)]}) -> Q tt s') ->
  wp (buf_upd i (fun x => with_flags (Z.lor (b_flags x) B_DIRTY) x)) s Q.
Proof.
  intros Hr Hi HQ. pose proof (rep_held_valid _ _ _ _ _ _ _ _ _ Hr Hi) as HV.
  pose proof (rep_cwf _ _ _ _ _ _ Hr) as Hwf. pose proof (rp_me _ _ _ _ _ _ Hr) as Hpid.
  destruct (rp_held _ _ _ _ _ _ Hr _ _ _ Hi) as (c & Hc & Hk & Hh).
  pose proof Hc as Hc'. apply cores_lookup in Hc' as (Hlt & x & Hx & ->).
  pose proof Hh as (Hh1 & Hh2 & Hfl).
  set (g := fun x => with_flags (Z.lor (b_flags x) B_DIRTY) x).
  assert (held_buf pid (core (g x))) as Hheld.
  { split_and!; [done|done|]. right. simpl in *. by destruct Hfl as [-> | ->]. }
  assert (cwf (disk s) (me s) (<[i := core (g x)]> (cores (bufs s)))) as Hwf'.
  { eapply cwf_insert_same; [done|done|exact (cw_ok _ _ _ Hwf i _ Hc)|done|done|by eapply held_flags|].
    right. by rewrite Hpid. }
  eapply wp_buf_upd; [done|]. apply HQ.
  assert (cores (<[i := g x]> (bufs s)) = <[i := core (g x)]> (cores (bufs s))) as Hcs
    by (by rewrite cores_insert).
  eapply (rep_change s _ v v d d h h hs P _ i dev b (core x)); try apply Hr; try done.
  - destruct (rp_inv _ _ _ _ _ _ Hr) as [[l Hl] _].
    split; [exists l; by eapply lru_insert|]. simpl. by rewrite Hcs.
  - intros dev' b' Hv'. unfold bview. simpl. rewrite Hcs. rewrite <- (rp_view _ _ _ _ _ _ Hr) by done.
    apply cview_congr; [|done]. by eapply same_block_insert.
  - by rewrite <- (assoc_L _), (idemp_L (∪)).
  - simpl. split; [intros _; apply elem_of_union; right; by apply elem_of_singleton|].
    intros _. simpl in *. by destruct Hfl as [-> | ->].
Qed.

(** [brelse]: the buffer goes back to the cache. If it is not dirty it must agree
    with the disk, or the change would be lost when the buffer is recycled. *)
Lemma wpc_brelse s v d h hs hs' P i dev b Q :
  rep s v d h hs P -> hs ≡ₚ (i, (dev, b)) :: hs' -> (dev, b) ∈ P \/ v dev b = d dev b ->
  (forall s', rep s' v d h hs' P -> Q tt s') ->
  wp (brelse i) s Q.
Proof.
  intros Hr Hperm Hclean HQ.
  assert ((i, (dev, b)) ∈ hs) as Hi by (rewrite Hperm; apply elem_of_cons; by left).
  pose proof (rep_held_valid _ _ _ _ _ _ _ _ _ Hr Hi) as HV.
  pose proof (rep_valid_dev _ _ _ _ _ _ _ _ Hr HV) as Hd0.
  pose proof (rep_cwf _ _ _ _ _ _ Hr) as Hwf. pose proof (rp_me _ _ _ _ _ _ Hr) as Hpid.
  destruct (rp_held _ _ _ _ _ _ Hr _ _ _ Hi) as (c & Hc & Hk & Hh).
  assert (v dev b = b_data c) as Hvc.
  { rewrite <- (rp_view _ _ _ _ _ _ Hr) by done. by apply (cview_hit _ _ _ i c _ _ Hwf). }
  pose proof (rp_nodup _ _ _ _ _ _ Hr) as Hnd. rewrite Hperm in Hnd. simpl in Hnd.
  apply NoDup_cons in Hnd as [Hni Hnd].
  assert (i < length (cores (bufs s)))%nat as Hil by (by eapply lookup_lt_Some).
  eapply wp_brelse; [by apply Hr|done|by rewrite Hpid|..].
  { destruct Hclean as [Hp|Hcl]; [left|right].
    - destruct (rp_pin _ _ _ _ _ _ Hr _ _ Hp) as (j & x & Hx & Hkx & Hf).
      assert (i = j) as <- by (by eapply rep_uniq). congruence.
    - destruct Hk as [-> ->]. by rewrite <- Hvc, Hcl, (rp_disk _ _ _ _ _ _ Hr). }
  intros s' Hinv Hcs Hd Hme Hview. apply HQ.
  split; [done|congruence|rewrite Hd; apply Hr| |rewrite Hd; apply Hr|rewrite Hd; apply Hr| | |done|..].
  - intros dev' b' Hv'. rewrite Hview. by apply Hr.
  - intros j dev' b' Hj. rewrite Hcs, list_lookup_insert_ne.
    + apply Hr. rewrite Hperm. apply elem_of_cons. by right.
    + intros <-. by apply Hni, (elem_of_handle_fst i (dev', b')).
  - intros j x Hx Hnz. rewrite Hcs in Hx. apply lookup_insert_cases in Hx as [[-> ->]|[Hne Hx]]; [done|].
    apply (rp_all _ _ _ _ _ _ Hr) in Hx; [|done]. rewrite Hperm in Hx.
    apply elem_of_cons in Hx as [Hx|Hx]; [|done]. by simplify_eq.
  - intros j x Hx Hf. rewrite Hcs in Hx.
    apply lookup_insert_cases in Hx as [[-> ->]|[_ Hx]]; [|by eapply Hr].
    simpl in *. by eapply Hr.
  - intros dev' b' Hp. destruct (rp_pin _ _ _ _ _ _ Hr _ _ Hp) as (j & x & Hx & Hkx & Hf).
    rewrite Hcs. destruct (decide (j = i)) as [->|Hne].
    + assert (x = c) as -> by congruence. eexists i, _. by rewrite list_lookup_insert_eq.
    + exists j, x. by rewrite list_lookup_insert_ne.
Qed.
End Rep.

(** After [binit] every block reads as it is on disk. *)
Lemma boot_rep {D} `{DiskDriverLaws D} (d : D) pid :
  dwf d -> rep (dvalid d) pid (boot d pid) (dblock d) (dblock d) (dhist d) [] ∅.
Proof.
  intros Hd. split; try done; [by apply boot_binv|..].
  - intros dev b Hv. apply cview_miss. intros i x Hx [Hk _].
    apply boot_cores_lookup in Hx as (_ & ->). by apply (dvalid_dev _ _ _ Hv).
  - intros i dev b Hin. by apply not_elem_of_nil in Hin.
  - intros i x Hx. by apply boot_cores_lookup in Hx as (_ & ->).
  - constructor.
  - intros i x Hx. by apply boot_cores_lookup in Hx as (_ & ->).
Qed.

Lemma boot_rep_on {D} `{DiskDriverLaws D} (disk0 : D) pid (V : Z -> Z -> Prop) (d : blocks) :
  dwf disk0 -> (forall dev b, dvalid disk0 dev b <-> V dev b) ->
  (forall dev b, V dev b -> dblock disk0 dev b = d dev b) ->
  rep V pid (boot disk0 pid) d d (dhist disk0) [] ∅.
Proof.
  intros Hwf Hval Hd. destruct (boot_rep disk0 pid Hwf) as [? ? ? Hview Hdisk]. split; try done.
  intros dev b HV. rewrite Hview by (by apply Hval). by apply Hd.
Qed.
