(* ===== verification/Log.v ===== *)
(** The log, log.c: write-ahead logging of the blocks of file-system calls.

    The state is the in-memory [struct log] over the buffer cache. A process runs
    alone here, so a critical section of log.lock is one step and [begin_op]
    answers [Asleep] where the code sleeps; LogOps.v has the interleavings of
    several processes. The header block is kept as its bytes: word 0 is [n] and
    word [1+i] is [block[i]] of the on-disk [struct logheader]. *)

From S2P Require Import Prelude Bytes Sleeplock Buf Ring Memide Bio Cache.

Definition LOGSIZE : Z := 30.
Definition MAXOPBLOCKS : Z := 10.

(** [struct superblock], seven words. *)
Record superblock := Superblock {
  sb_size : Z; sb_nblocks : Z; sb_ninodes : Z; sb_nlog : Z;
  sb_logstart : Z; sb_inodestart : Z; sb_bmapstart : Z;
}.

Definition superblock_of (data : list Z) : superblock :=
  Superblock (word_at data 0) (word_at data 1) (word_at data 2) (word_at data 3)
    (word_at data 4) (word_at data 5) (word_at data 6).

Record logst (D : Type) := Logst {
  lg_bio : bstate D;
  lg_start : Z; lg_size : Z; lg_outstanding : Z; lg_committing : Z; lg_dev : Z;
  lh_n : Z; lh_block : list Z;
}.
Arguments Logst {D}.
Arguments lg_bio {D}. Arguments lg_start {D}. Arguments lg_size {D}.
Arguments lg_outstanding {D}. Arguments lg_committing {D}. Arguments lg_dev {D}.
Arguments lh_n {D}. Arguments lh_block {D}.

Section Log.
Context {D : Type} `{DiskDriver D}.
Implicit Types s : logst D.

Definition set_bio b s : logst D :=
  Logst b (lg_start s) (lg_size s) (lg_outstanding s) (lg_committing s) (lg_dev s) (lh_n s) (lh_block s).
Definition set_where (start size dev : Z) s : logst D :=
  Logst (lg_bio s) start size (lg_outstanding s) (lg_committing s) dev (lh_n s) (lh_block s).
Definition set_outstanding o s : logst D :=
  Logst (lg_bio s) (lg_start s) (lg_size s) o (lg_committing s) (lg_dev s) (lh_n s) (lh_block s).
Definition set_committing c s : logst D :=
  Logst (lg_bio s) (lg_start s) (lg_size s) (lg_outstanding s) c (lg_dev s) (lh_n s) (lh_block s).
Definition set_lh n bl s : logst D :=
  Logst (lg_bio s) (lg_start s) (lg_size s) (lg_outstanding s) (lg_committing s) (lg_dev s) n bl.

(** A call into bio.c. *)
Definition bio {A} (m : M (bstate D) A) : M (logst D) A := zoom lg_bio set_bio m.

(** [log.lh.block[i]] and its assignment; outside of the array is a fault. *)
Definition lh_block_at (i : Z) : M (logst D) Z := fun s =>
  deref (if (0 <=? i) && (i <? LOGSIZE) then lh_block s !! Z.to_nat i else None) s.
Definition lh_block_set (i x : Z) : M (logst D) unit :=
  lh_block_at i ;; modify (fun s => set_lh (lh_n s) (<[Z.to_nat i := x]> (lh_block s)) s).

(** [xv6fs_readsb] of fs.c. *)
Definition xv6fs_readsb (dev : Z) : M (logst D) superblock :=
  bp ← bio (bread (u32 dev) 1);
  data ← bio (bdata bp);
  bio (brelse bp) ;;
  mret (superblock_of data).

Definition install_trans : M (logst D) unit :=
  n ← gets lh_n;
  for_all (range 0 n) (fun tail =>
    dev ← gets lg_dev;
    start ← gets lg_start;
    lbuf ← bio (bread (u32 dev) (u32 (start + tail + 1)));
    blk ← lh_block_at tail;
    dbuf ← bio (bread (u32 dev) (u32 blk));
    src ← bio (bdata lbuf);
    bio (bset dbuf (fun _ => src)) ;;
    bio (bwrite dbuf) ;;
    bio (brelse lbuf) ;;
    bio (brelse dbuf)).

Definition read_head : M (logst D) unit :=
  dev ← gets lg_dev;
  start ← gets lg_start;
  buf ← bio (bread (u32 dev) (u32 start));
  data ← bio (bdata buf);
  modify (fun s => set_lh (s32 (word_at data 0)) (lh_block s) s) ;;
  n ← gets lh_n;
  for_all (range 0 n) (fun i => lh_block_set i (s32 (word_at data (S (Z.to_nat i))))) ;;
  bio (brelse buf).

Definition write_head : M (logst D) unit :=
  dev ← gets lg_dev;
  start ← gets lg_start;
  buf ← bio (bread (u32 dev) (u32 start));
  n ← gets lh_n;
  bio (bset buf (fun data => set_word data 0 n)) ;;
  for_all (range 0 n) (fun i =>
    blk ← lh_block_at i;
    bio (bset buf (fun data => set_word data (S (Z.to_nat i)) blk))) ;;
  bio (bwrite buf) ;;
  bio (brelse buf).

Definition clear_n : M (logst D) unit := modify (fun s => set_lh 0 (lh_block s) s).

Definition recover_from_log : M (logst D) unit :=
  read_head ;; install_trans ;; clear_n ;; write_head.

(** [sizeof(struct logheader)] is 124, so the first check never fires. *)
Definition initlog (dev : Z) : M (logst D) unit :=
  guard_ok (BSIZE <=? 4 + 4 * LOGSIZE) (panic "initlog: too big logheader") ;;
  sb ← xv6fs_readsb dev;
  modify (set_where (s32 (sb_logstart sb)) (s32 (sb_nlog sb)) dev) ;;
  recover_from_log.

Definition begin_op : M (logst D) unit := fun s =>
  if negb (lg_committing s =? 0) then Asleep
  else if lh_n s + (lg_outstanding s + 1) * MAXOPBLOCKS >? LOGSIZE then Asleep
  else Ok tt (set_outstanding (lg_outstanding s + 1) s).

Definition write_log : M (logst D) unit :=
  n ← gets lh_n;
  for_all (range 0 n) (fun tail =>
    dev ← gets lg_dev;
    start ← gets lg_start;
    to ← bio (bread (u32 dev) (u32 (start + tail + 1)));
    blk ← lh_block_at tail;
    from ← bio (bread (u32 dev) (u32 blk));
    src ← bio (bdata from);
    bio (bset to (fun _ => src)) ;;
    bio (bwrite to) ;;
    bio (brelse from) ;;
    bio (brelse to)).

Definition commit : M (logst D) unit :=
  n ← gets lh_n;
  guard_ok (n >? 0) (write_log ;; write_head ;; install_trans ;; clear_n ;; write_head).

(** [end_op] has two critical sections of log.lock: the first answers
    [do_commit], the second follows [commit], which runs without the lock. *)
Definition end_op_enter : M (logst D) bool :=
  modify (fun s => set_outstanding (lg_outstanding s - 1) s) ;;
  committing ← gets lg_committing;
  guard_ok (negb (committing =? 0)) (panic "log.committing") ;;
  outstanding ← gets lg_outstanding;
  if outstanding =? 0 then modify (set_committing 1) ;; mret true else mret false.
Definition end_op_leave : M (logst D) unit := modify (set_committing 0).
Definition end_op : M (logst D) unit :=
  do_commit ← end_op_enter;
  guard_ok do_commit (commit ;; end_op_leave).

Definition log_write (b : nat) : M (logst D) unit :=
  n ← gets lh_n;
  size ← gets lg_size;
  guard_ok ((n >=? LOGSIZE) || (n >=? size - 1)) (panic "too big a transaction") ;;
  outstanding ← gets lg_outstanding;
  guard_ok (outstanding <? 1) (panic "log_write outside of trans") ;;
  x ← bio (buf_at b);
  found ← for_each (range 0 n) (fun i =>
    blk ← lh_block_at i;
    mret (if u32 blk =? b_blockno x then Some i else None));
  let i := default (Z.max 0 n) found in
  lh_block_set i (s32 (b_blockno x)) ;;
  guard_ok (i =? n) (modify (fun s => set_lh (n + 1) (lh_block s) s)) ;;
  bio (buf_upd b (fun x => with_flags (Z.lor (b_flags x) B_DIRTY) x)).

(** [struct log log] in the kernel's bss, over a machine with disk [d]; [boot]
    ends with [binit] (called by main) and [initlog] (called by forkret). *)
Definition log_bss (d : D) (pid : Z) : logst D :=
  Logst (BState bcache_bss d pid) 0 0 0 0 0 0 (replicate (Z.to_nat LOGSIZE) 0).
Definition boot_log (dev : Z) : M (logst D) unit := bio binit ;; initlog dev.
End Log.

(** * Specification *)

(** The log lives in blocks [start .. start+nlog-1] of device [dev]. *)
Section spec.
Context {D : Type} `{DiskDriver D} `{!DiskDriverLaws D}.
Context (V : Z -> Z -> Prop) (pid dev start nlog : Z).
Implicit Types (s : logst D) (v d : blocks) (L : list Z).

Record geometry : Prop := {
  ge_start : 0 < start;
  ge_size : 0 < nlog /\ start + nlog < 2 ^ 31;
  ge_dev : 0 < dev < 2 ^ 31;
  ge_valid : forall b, start <= b < start + nlog -> V dev b;
}.

(** A block the log may be asked to write. *)
Definition home (b : Z) : Prop := 0 <= b < 2 ^ 31 /\ V dev b /\ ~ (start <= b < start + nlog).

(** The in-memory header lists the blocks [L]. *)
Record header s L : Prop := {
  hd_dev : lg_dev s = dev;
  hd_start : lg_start s = start;
  hd_size : lg_size s = nlog;
  hd_n : lh_n s = Z.of_nat (length L);
  hd_len : length (lh_block s) = Z.to_nat LOGSIZE;
  hd_take : take (length L) (lh_block s) = L;
  hd_home : Forall home L;
  hd_nodup : NoDup L;
  hd_fits : (length L <= 30)%nat /\ Z.of_nat (length L) < nlog;
}.

Definition pins L : gset (Z * Z) := list_to_set ((dev,.) <$> L).

(** The header as block contents. *)
Definition header_block (hb : list Z) L : Prop :=
  block_ok hb /\ word_at hb 0 = Z.of_nat (length L) /\
  forall i b, L !! i = Some b -> word_at hb (S i) = b.

(** The writes of [write_log] and of [install_trans]. *)
Definition log_writes v L : list dwrite :=
  imap (fun k b => (dev, start + Z.of_nat k + 1, v dev b)) L.
Definition home_writes v L : list dwrite :=
  imap (fun k b => (dev, b, v dev (start + Z.of_nat k + 1))) L.

Lemma elem_of_pins L b : (dev, b) ∈ pins L <-> b ∈ L.
Proof.
  unfold pins. rewrite elem_of_list_to_set, list_elem_of_fmap. split; [|eauto].
  by intros (c & [= ->] & Hc).
Qed.

Lemma size_pins L : (size (pins L) <= length L)%nat.
Proof.
  unfold pins. induction L as [|b L IH]; [done|]. rewrite fmap_cons, list_to_set_cons. simpl length.
  rewrite size_union_alt. pose proof (subseteq_size (list_to_set ((dev,.) <$> L) ∖ {[(dev, b)]} : gset (Z * Z))
    (list_to_set ((dev,.) <$> L))) as Hs. rewrite size_singleton.
  specialize (Hs ltac:(set_solver)). lia.
Qed.

Lemma wp_bio {A} (m : M (bstate D) A) s Q :
  wp m (lg_bio s) (fun a t => Q a (set_bio t s)) -> wp (bio m) s Q.
Proof. apply wp_zoom. Qed.

Lemma header_bio t s L : header s L -> header (set_bio t s) L.
Proof. by intros []. Qed.

Lemma header_lookup s L k b :
  header s L -> L !! k = Some b -> home b /\ lh_block s !! k = Some b /\ (k < length L)%nat.
Proof.
  intros Hh Hb. pose proof (lookup_lt_Some _ _ _ Hb) as Hk. split_and!; [|  |done].
  - eapply Forall_lookup_1; [apply Hh|done].
  - rewrite <- (hd_take _ _ Hh), lookup_take in Hb. by case_decide.
Qed.

Lemma wp_lh_block_at s L k b Q :
  header s L -> L !! k = Some b -> Q b s -> wp (lh_block_at (Z.of_nat k)) s Q.
Proof.
  intros Hh Hb HQ. destruct (header_lookup _ _ _ _ Hh Hb) as (_ & Hk & Hlt).
  destruct (hd_fits _ _ Hh). unfold lh_block_at, LOGSIZE.
  replace (_ && _) with true by (symmetry; apply andb_true_iff; lia).
  rewrite Nat2Z.id. by eapply wp_deref.
Qed.


(** ** The writes of a commit *)

Lemma elem_of_log_writes v L x :
  x ∈ log_writes v L <-> exists k b, L !! k = Some b /\ x = (dev, start + Z.of_nat k + 1, v dev b).
Proof. unfold log_writes. rewrite elem_of_lookup_imap. split; intros (i & y & ? & ?); eauto. Qed.

Lemma elem_of_home_writes v L x :
  x ∈ home_writes v L <-> exists k b, L !! k = Some b /\ x = (dev, b, v dev (start + Z.of_nat k + 1)).
Proof. unfold home_writes. rewrite elem_of_lookup_imap. split; intros (i & y & ? & ?); eauto. Qed.

Lemma log_writes_nodup v L : NoDup (log_writes v L).*1.
Proof.
  unfold log_writes. rewrite fmap_imap. apply NoDup_alt. intros i j x.
  rewrite !list_lookup_imap. destruct (L !! i), (L !! j); simpl; intros; simplify_eq. lia.
Qed.

Lemma home_writes_keys v L : (home_writes v L).*1 = (dev,.) <$> L.
Proof. unfold home_writes. rewrite fmap_imap, <- (imap_const (dev,.)). by apply imap_ext. Qed.

Lemma log_writes_at w v L k b :
  L !! k = Some b -> replay w (log_writes v L) dev (start + Z.of_nat k + 1) = v dev b.
Proof.
  intros Hk. apply replay_in; [apply log_writes_nodup|]. apply elem_of_log_writes. eauto.
Qed.

Lemma log_writes_other w v L dev' b :
  ~ (dev' = dev /\ start < b <= start + Z.of_nat (length L)) ->
  replay w (log_writes v L) dev' b = w dev' b.
Proof.
  intros Hn. apply replay_notin. intros Hin. apply Hn.
  apply list_elem_of_fmap in Hin as (x & He & Hx).
  apply elem_of_log_writes in Hx as (k & c & Hk & ->). simpl in He. simplify_eq.
  apply lookup_lt_Some in Hk. lia.
Qed.

Lemma home_writes_at w v L k b :
  NoDup L -> L !! k = Some b ->
  replay w (home_writes v L) dev b = v dev (start + Z.of_nat k + 1).
Proof.
  intros Hnd Hk. apply replay_in; [|apply elem_of_home_writes; eauto].
  rewrite home_writes_keys. apply NoDup_fmap_2; [|done]. by intros ? ? [= ->].
Qed.

Lemma home_writes_other w v L dev' b :
  ~ (dev' = dev /\ b ∈ L) -> replay w (home_writes v L) dev' b = w dev' b.
Proof.
  intros Hn. apply replay_notin. rewrite home_writes_keys. intros Hin.
  apply list_elem_of_fmap in Hin as (c & [= -> ->] & Hc). by apply Hn.
Qed.

Lemma log_writes_snoc v L k b :
  L !! k = Some b ->
  log_writes v (take (S k) L) = log_writes v (take k L) ++ [(dev, start + Z.of_nat k + 1, v dev b)].
Proof.
  intros Hk. unfold log_writes. rewrite (take_S_r _ _ _ Hk), imap_app. simpl.
  rewrite length_take_le by (apply lookup_lt_Some in Hk; lia). by rewrite Nat.add_0_r.
Qed.

Lemma home_writes_snoc v L k b :
  L !! k = Some b ->
  home_writes v (take (S k) L) = home_writes v (take k L) ++ [(dev, b, v dev (start + Z.of_nat k + 1))].
Proof.
  intros Hk. unfold home_writes. rewrite (take_S_r _ _ _ Hk), imap_app. simpl.
  rewrite length_take_le by (apply lookup_lt_Some in Hk; lia). by rewrite Nat.add_0_r.
Qed.

(** ** [write_log] and [install_trans] *)

Context (Hgeo : geometry).

Lemma u32_home b : home b -> u32 b = b.
Proof. intros ((? & ?) & _). apply u32_small. lia. Qed.

Lemma u32_area b : start <= b < start + nlog -> u32 b = b.
Proof. destruct Hgeo. intros ?. apply u32_small. lia. Qed.

Lemma u32_dev : u32 dev = dev.
Proof. destruct Hgeo. apply u32_small. lia. Qed.

Lemma replay_snoc v ws x : apply_write (replay v ws) x = replay v (ws ++ [x]).
Proof. by rewrite replay_app. Qed.

Lemma apply_write_same v b x : apply_write v (dev, b, x) dev b = x.
Proof. unfold apply_write. by rewrite decide_True. Qed.

Lemma apply_write_ne v (k : Z * Z) x dev' b : (dev', b) <> k -> apply_write v (k, x) dev' b = v dev' b.
Proof. intros Hn. unfold apply_write. by rewrite decide_False. Qed.

Lemma area_not_home L b : Forall home L -> b ∈ L -> ~ (start <= b < start + nlog).
Proof. intros HL Hb. rewrite Forall_forall in HL. by apply (HL b). Qed.

Lemma wp_write_log s L v d h Q :
  header s L -> (length L < NBUF)%nat -> rep V pid (lg_bio s) v d h [] (pins L) ->
  (forall t, rep V pid t (replay v (log_writes v L)) (replay d (log_writes v L))
     (h ++ log_writes v L) [] (pins L) -> Q tt (set_bio t s)) ->
  wp write_log s Q.
Proof.
  intros Hh Hn Hr HQ. unfold write_log. eapply wp_bind, wp_gets. rewrite (hd_n _ _ Hh).
  apply (wp_for_range _ _ (fun k s' => exists t, s' = set_bio t s /\
    rep V pid t (replay v (log_writes v (take k L))) (replay d (log_writes v (take k L)))
      (h ++ log_writes v (take k L)) [] (pins L))).
  - exists (lg_bio s). split; [by destruct s|].
    simpl. by rewrite app_nil_r.
  - intros k s' Hk (t & -> & Ht). destruct (lookup_lt_is_Some_2 _ _ Hk) as [b Hb].
    pose proof (header_bio t _ _ Hh) as Hh'.
    destruct (header_lookup _ _ _ _ Hh Hb) as (Hhome & _ & _). pose proof Hhome as (Hb0 & HVb & Hout).
    destruct (hd_fits _ _ Hh) as [_ Hfit].
    pose proof (size_pins L) as Hsp. assert (start <= start + Z.of_nat k + 1 < start + nlog) as Harea by lia.
    eapply wp_bind, wp_gets, wp_bind, wp_gets. simpl.
    rewrite (hd_dev _ _ Hh), (hd_start _ _ Hh), u32_dev, (u32_area _ Harea).
    eapply wp_bind, wp_bio, wpc_bread; [exact Ht|by apply Hgeo|split; [set_solver|simpl; left; lia]|].
    intros to t1 H1. eapply wp_bind, wp_lh_block_at; [by repeat apply header_bio|done|].
    rewrite (u32_home _ Hhome). eapply wp_bind, wp_bio, wpc_bread; [exact H1|done| |].
    { split; [|right; apply elem_of_pins; by eapply list_elem_of_lookup_2].
      simpl. intros Hin. apply list_elem_of_singleton in Hin. injection Hin as ->. by apply Hout. }
    intros from t2 H2. eapply wp_bind, wp_bio, wpc_bdata; [exact H2|held|].
    rewrite log_writes_other by (rewrite length_take; lia).
    eapply wp_bind, wp_bio, wpc_bset; [exact H2|held|by eapply rep_block_ok|]. intros t3 H3.
    eapply wp_bind, wp_bio, wpc_bwrite; [exact H3|held|]. intros t4 H4.
    rewrite apply_write_same, !replay_snoc, <- app_assoc, <- !(log_writes_snoc _ _ _ _ Hb) in H4.
    rewrite difference_disjoint_L in H4.
    2:{ apply disjoint_singleton_r. rewrite elem_of_pins. intros Hin.
        by eapply (area_not_home L); [apply Hh|exact Hin|]. }
    eapply wp_bind, wp_bio, wpc_brelse; [exact H4|take_out| |].
    { left. apply elem_of_pins. by eapply list_elem_of_lookup_2. }
    intros t5 H5. eapply wp_bio, wpc_brelse; [exact H5|take_out| |].
    { right. by rewrite !(log_writes_at _ _ _ _ b) by (by rewrite lookup_take_lt by lia). }
    intros t6 H6. exists t6. split; [done|exact H6].
  - intros s' (t & -> & Ht). apply HQ. by rewrite take_ge in Ht.
Qed.

(** What [install_trans] needs of the cache: a buffer for the log block, and one
    for the home block unless that is dirty. *)
Definition install_room L (P : gset (Z * Z)) : Prop :=
  (size P < NBUF)%nat /\ ((size P + 1 < NBUF)%nat \/ pins L ⊆ P) /\
  forall b, start <= b < start + nlog -> (dev, b) ∉ P.

Lemma install_room_step L P k b :
  NoDup L -> L !! k = Some b -> install_room L P ->
  let P' := P ∖ pins (take k L) in
  (size P' < NBUF)%nat /\ ((size P' + 1 < NBUF)%nat \/ (dev, b) ∈ P').
Proof.
  intros Hnd Hb (H1 & H2 & _) P'. assert (size P' <= size P)%nat by (apply subseteq_size; set_solver).
  split; [lia|]. destruct H2 as [H2|H2]; [left; lia|right].
  apply elem_of_difference. rewrite elem_of_pins. split.
  - apply H2, elem_of_pins. by eapply list_elem_of_lookup_2.
  - intros Hin. apply elem_of_take in Hin as (j & Hj & Hlt).
    assert (j = k) by (by eapply NoDup_lookup). lia.
Qed.

Lemma pins_snoc L P k b :
  L !! k = Some b -> (P ∖ pins (take k L)) ∖ {[(dev, b)]} = P ∖ pins (take (S k) L).
Proof.
  intros Hb. rewrite (take_S_r _ _ _ Hb). unfold pins. rewrite fmap_app, list_to_set_app_L.
  simpl. rewrite (right_id_L ∅ (∪)). by rewrite difference_difference_l_L.
Qed.

Lemma wp_install_trans s L v d h P Q :
  header s L -> install_room L P -> rep V pid (lg_bio s) v d h [] P ->
  (forall t, rep V pid t (replay v (home_writes v L)) (replay d (home_writes v L))
     (h ++ home_writes v L) [] (P ∖ pins L) -> Q tt (set_bio t s)) ->
  wp install_trans s Q.
Proof.
  intros Hh Hroom Hr HQ. unfold install_trans. eapply wp_bind, wp_gets. rewrite (hd_n _ _ Hh).
  apply (wp_for_range _ _ (fun k s' => exists t, s' = set_bio t s /\
    rep V pid t (replay v (home_writes v (take k L))) (replay d (home_writes v (take k L)))
      (h ++ home_writes v (take k L)) [] (P ∖ pins (take k L)))).
  - exists (lg_bio s). split; [by destruct s|]. simpl. unfold pins. simpl.
    by rewrite app_nil_r, difference_empty_L.
  - intros k s' Hk (t & -> & Ht). destruct (lookup_lt_is_Some_2 _ _ Hk) as [b Hb].
    destruct (header_lookup _ _ _ _ Hh Hb) as (Hhome & _ & _). pose proof Hhome as (Hb0 & HVb & Hout).
    destruct (hd_fits _ _ Hh) as [_ Hfit].
    destruct (install_room_step _ _ _ _ (hd_nodup _ _ Hh) Hb Hroom) as [Hs1 Hs2].
    assert (start <= start + Z.of_nat k + 1 < start + nlog) as Harea by lia.
    eapply wp_bind, wp_gets, wp_bind, wp_gets. simpl.
    rewrite (hd_dev _ _ Hh), (hd_start _ _ Hh), u32_dev, (u32_area _ Harea).
    eapply wp_bind, wp_bio, wpc_bread; [exact Ht|by apply Hgeo|split; [set_solver|simpl; left; lia]|].
    intros lbuf t1 H1. eapply wp_bind, wp_lh_block_at; [by repeat apply header_bio|done|].
    rewrite (u32_home _ Hhome). eapply wp_bind, wp_bio, wpc_bread; [exact H1|done| |].
    { split; [|done]. simpl. intros Hin. apply list_elem_of_singleton in Hin. injection Hin as ->.
      by apply Hout. }
    intros dbuf t2 H2. eapply wp_bind, wp_bio, wpc_bdata; [exact H2|held|].
    assert (forall w j, replay w (home_writes v (take j L)) dev (start + Z.of_nat k + 1) =
      w dev (start + Z.of_nat k + 1)) as Hlog.
    { intros w j. apply home_writes_other. intros [_ Hin]. apply elem_of_take in Hin as (i & Hi & _).
      apply list_elem_of_lookup_2 in Hi. by eapply (area_not_home L); [apply Hh| |]. }
    assert (v dev (start + Z.of_nat k + 1) = d dev (start + Z.of_nat k + 1)) as Hclean.
    { rewrite <- (Hlog v k), <- (Hlog d k). eapply rep_clean; [exact Ht|by apply Hgeo| |set_solver].
      intros Hin. apply elem_of_difference in Hin as [Hin _]. revert Hin. by apply Hroom. }
    rewrite Hlog.
    eapply wp_bind, wp_bio, wpc_bset; [exact H2|held|by eapply rep_block_ok; [|apply Hgeo]|]. intros t3 H3.
    eapply wp_bind, wp_bio, wpc_bwrite; [exact H3|held|]. intros t4 H4.
    rewrite apply_write_same, !replay_snoc, <- app_assoc, <- !(home_writes_snoc _ _ _ _ Hb) in H4.
    rewrite (pins_snoc _ _ _ _ Hb) in H4.
    eapply wp_bind, wp_bio, wpc_brelse; [exact H4|take_out| |].
    { right. by rewrite !Hlog. }
    intros t5 H5. eapply wp_bio, wpc_brelse; [exact H5|take_out| |].
    { assert (NoDup (take (S k) L)) by (apply nodup_take, (hd_nodup _ _ Hh)).
      assert (take (S k) L !! k = Some b) by (by rewrite lookup_take_lt by lia).
      right. by rewrite !(home_writes_at _ _ _ k b). }
    intros t6 H6. exists t6. split; [done|exact H6].
  - intros s' (t & -> & Ht). apply HQ. by rewrite take_ge in Ht.
Qed.

(** ** The header block *)

(** The header block once [n] and the first [k] entries are written. *)
Definition header_upto k (hb : list Z) L : Prop :=
  block_ok hb /\ word_at hb 0 = Z.of_nat (length L) /\
  forall i b, (i < k)%nat -> L !! i = Some b -> word_at hb (S i) = b.

Lemma header_upto_start hb s L :
  block_ok hb -> header s L -> header_upto 0 (set_word hb 0 (Z.of_nat (length L))) L.
Proof.
  intros [Hlen Hok] Hh. destruct (hd_fits _ _ Hh). unfold BSIZE in *. split_and!; [|..|lia].
  - split; [rewrite length_set_word; lia|by apply set_word_ok].
  - apply word_at_set_small; lia.
Qed.

Lemma header_upto_step hb s L k b :
  header s L -> L !! k = Some b -> header_upto k hb L -> header_upto (S k) (set_word hb (S k) b) L.
Proof.
  intros Hh Hb ([Hlen Hok] & H0 & Hi). destruct (hd_fits _ _ Hh).
  destruct (header_lookup _ _ _ _ Hh Hb) as ((Hb0 & _) & _ & Hk). unfold BSIZE in *. split_and!.
  - split; [rewrite length_set_word; lia|by apply set_word_ok].
  - by rewrite word_at_set_other by lia.
  - intros i c Hic Hc. destruct (decide (i = k)) as [->|Hne].
    + simplify_eq. apply word_at_set_small; lia.
    + rewrite word_at_set_other by lia. apply Hi; [lia|done].
Qed.

Lemma wp_write_head s L v d h P Q :
  header s L -> rep V pid (lg_bio s) v d h [] P -> (dev, start) ∉ P -> (size P < NBUF)%nat ->
  (forall t hb, header_block hb L ->
     rep V pid t (apply_write v (dev, start, hb)) (apply_write d (dev, start, hb))
       (h ++ [(dev, start, hb)]) [] P -> Q tt (set_bio t s)) ->
  wp write_head s Q.
Proof.
  intros Hh Hr Hnp Hsz HQ. destruct (hd_fits _ _ Hh) as [Hfit _].
  assert (start <= start < start + nlog) as Harea by (destruct Hgeo; lia).
  unfold write_head. eapply wp_bind, wp_gets, wp_bind, wp_gets. simpl.
  rewrite (hd_dev _ _ Hh), (hd_start _ _ Hh), u32_dev, (u32_area _ Harea).
  eapply wp_bind, wp_bio, wpc_bread; [exact Hr|by apply Hgeo|split; [set_solver|simpl; left; lia]|].
  intros buf t1 H1. eapply wp_bind, wp_gets. simpl. rewrite (hd_n _ _ Hh).
  assert (block_ok (v dev start)) as Hok by (eapply rep_block_ok; [exact H1|by apply Hgeo]).
  pose proof (header_upto_start _ _ _ Hok Hh) as Hup.
  eapply wp_bind, wp_bio, wpc_bset; [exact H1|held|apply Hup|]. intros t2 H2.
  eapply wp_bind, (wp_for_range _ _ (fun k s' => exists t hb, s' = set_bio t s /\ header_upto k hb L /\
    rep V pid t (apply_write v (dev, start, hb)) d h [(buf, (dev, start))] P)).
  - exists t2. eauto.
  - intros k s' Hk (t & hb & -> & Hhb & Ht). destruct (lookup_lt_is_Some_2 _ _ Hk) as [b Hb].
    eapply wp_bind, wp_lh_block_at; [by repeat apply header_bio|done|].
    pose proof (header_upto_step _ _ _ _ _ Hh Hb Hhb) as Hup'. rewrite Nat2Z.id.
    eapply wp_bio, wpc_bset; [exact Ht|held|rewrite apply_write_same; apply Hup'|].
    intros t' Ht'. rewrite apply_write_same in Ht'. apply rep_twice in Ht'. exists t'. eauto.
  - intros s' (t & hb & -> & (Hhb1 & Hhb2 & Hhb3) & Ht).
    eapply wp_bind, wp_bio, wpc_bwrite; [exact Ht|held|]. intros t4 H4.
    rewrite apply_write_same, difference_disjoint_L in H4
      by (by apply disjoint_singleton_r).
    eapply wp_bio, wpc_brelse; [exact H4|take_out|right; by rewrite !apply_write_same|].
    intros t5 H5. apply (HQ t5 hb); [|done]. split_and!; [done|done|].
    intros i b Hb. apply Hhb3; [by eapply lookup_lt_Some|done].
Qed.

(** The list of blocks can be the log of one transaction. *)
Definition loggable L : Prop :=
  Forall home L /\ NoDup L /\ (length L <= 30)%nat /\ Z.of_nat (length L) < nlog.

Lemma header_loggable s L : header s L -> loggable L.
Proof. by intros []. Qed.

(** The fields of [struct log] that do not change after [initlog]. *)
Definition placed s : Prop :=
  lg_dev s = dev /\ lg_start s = start /\ lg_size s = nlog /\ length (lh_block s) = Z.to_nat LOGSIZE.

Lemma header_intro s L bl :
  placed s -> loggable L -> length bl = Z.to_nat LOGSIZE -> take (length L) bl = L ->
  header (set_lh (Z.of_nat (length L)) bl s) L.
Proof. by intros (? & ? & ? & ?) (? & ? & ? & ?) ? ?. Qed.

Lemma header_nil s : placed s -> header (set_lh 0 (lh_block s) s) [].
Proof.
  intros Hp. apply (header_intro s []); [done| |apply Hp|done].
  split_and!; [constructor|constructor|simpl; lia|simpl; destruct Hgeo; lia].
Qed.

Lemma header_placed s L : header s L -> placed s.
Proof. by intros []. Qed.

Lemma wp_lh_block_set s i x Q :
  length (lh_block s) = Z.to_nat LOGSIZE -> (i < 30)%nat ->
  Q tt (set_lh (lh_n s) (<[i := x]> (lh_block s)) s) -> wp (lh_block_set (Z.of_nat i) x) s Q.
Proof.
  intros Hlen Hi HQ. unfold lh_block_set, lh_block_at, LOGSIZE in *.
  destruct (lookup_lt_is_Some_2 (lh_block s) i) as [y Hy]; [lia|].
  eapply wp_bind. rewrite (proj2 (andb_true_iff _ _)) by lia. rewrite Nat2Z.id.
  eapply wp_deref; [done|]. by apply wp_modify.
Qed.

Lemma s32_word b : home b -> s32 b = b.
Proof. intros ((? & ?) & _). apply s32_small. lia. Qed.

Lemma wp_read_head s L v d h P Q :
  placed s -> loggable L -> rep V pid (lg_bio s) v d h [] P -> (dev, start) ∉ P -> (size P < NBUF)%nat ->
  header_block (v dev start) L ->
  (forall t bl, rep V pid t v d h [] P ->
     header (set_bio t (set_lh (Z.of_nat (length L)) bl s)) L ->
     Q tt (set_bio t (set_lh (Z.of_nat (length L)) bl s))) ->
  wp read_head s Q.
Proof.
  intros Hp HL Hr Hnp Hsz (Hok & Hn & Hw) HQ. pose proof Hp as (Hd & Hs & _ & Hlen).
  pose proof HL as (Hhome & _ & Hl30 & _).
  assert (start <= start < start + nlog) as Harea by (destruct Hgeo; lia).
  unfold read_head. eapply wp_bind, wp_gets, wp_bind, wp_gets. simpl.
  rewrite Hd, Hs, u32_dev, (u32_area _ Harea).
  eapply wp_bind, wp_bio, wpc_bread; [exact Hr|by apply Hgeo|split; [set_solver|simpl; left; lia]|].
  intros buf t1 H1. eapply wp_bind, wp_bio, wpc_bdata; [exact H1|held|].
  eapply wp_bind, wp_modify, wp_bind, wp_gets. simpl. rewrite Hn, s32_small by lia.
  eapply wp_bind, (wp_for_range _ _ (fun k s' => exists bl,
    s' = set_bio t1 (set_lh (Z.of_nat (length L)) bl s) /\ length bl = Z.to_nat LOGSIZE /\
    take k bl = take k L)).
  - exists (lh_block s). done.
  - intros k s' Hk (bl & -> & Hbl & Htk). destruct (lookup_lt_is_Some_2 _ _ Hk) as [b Hb].
    rewrite Nat2Z.id, (Hw _ _ Hb), s32_word by (by eapply Forall_lookup_1).
    apply wp_lh_block_set; [done|lia|]. exists (<[k := b]> bl). split_and!; [done|by rewrite length_insert|].
    rewrite (take_S_r _ _ _ Hb), <- Htk. rewrite (take_S_r _ _ b).
    + by rewrite take_insert_ge by lia.
    + rewrite list_lookup_insert_eq; [done|]. unfold LOGSIZE in Hbl. lia.
  - intros s' (bl & -> & Hbl & Htk). eapply wp_bio, wpc_brelse; [exact H1|take_out| |].
    { right. eapply rep_clean; [exact Hr|by apply Hgeo|done|set_solver]. }
    intros t2 H2. apply HQ; [done|]. apply header_bio. apply header_intro; [done..|].
    by rewrite Htk, take_ge by lia.
Qed.

(** ** Recovery and commit *)

Lemma empty_room : (size (∅ : gset (Z * Z)) + 1 < NBUF)%nat.
Proof. rewrite size_empty. unfold NBUF. lia. Qed.

Lemma wp_clear s L Q :
  header s L -> (header (set_lh 0 (lh_block s) s) [] -> Q tt (set_lh 0 (lh_block s) s)) ->
  wp clear_n s Q.
Proof. intros Hh HQ. apply wp_modify, HQ, header_nil. by eapply header_placed. Qed.

(** [recover_from_log]: the blocks listed in the header on disk get the contents
    of their log blocks, and the log is empty then. *)
Lemma wp_recover s L v d h Q :
  placed s -> loggable L -> rep V pid (lg_bio s) v d h [] ∅ -> header_block (d dev start) L ->
  (forall s' hb, header s' [] -> lg_outstanding s' = lg_outstanding s ->
     lg_committing s' = lg_committing s -> header_block hb [] ->
     let T := home_writes v L ++ [(dev, start, hb)] in
     rep V pid (lg_bio s') (replay v T) (replay d T) (h ++ T) [] ∅ -> Q tt s') ->
  wp recover_from_log s Q.
Proof.
  intros Hp HL Hr Hhb HQ.
  assert (V dev start) as HV by (apply Hgeo; destruct Hgeo; lia).
  assert (v dev start = d dev start) as Hvd by (by eapply rep_clean; [exact Hr|..]; set_solver).
  unfold recover_from_log. eapply wp_bind, wp_read_head; [done|exact HL|exact Hr|set_solver|by pose proof empty_room; lia|by rewrite Hvd|].
  intros t bl Ht Hh. eapply wp_bind, wp_install_trans; [exact Hh| |exact Ht|].
  { pose proof empty_room. split_and!; [lia|left; lia|]. intros. apply not_elem_of_empty. }
  intros t2 H2. replace (∅ ∖ pins L) with (∅ : gset (Z * Z)) in H2 by set_solver. eapply wp_bind, wp_clear; [by eapply header_bio|].
  intros Hh3. eapply wp_write_head; [exact Hh3|exact H2|set_solver|by pose proof empty_room; lia|].
  intros t4 hb Hhb4 H4. apply (HQ _ hb); try done; [by apply header_bio|].
  simpl. rewrite !replay_app, app_assoc. exact H4.
Qed.

(** The writes of a commit: the log blocks, the header (the commit point), the
    home blocks, and the empty header. *)
Definition commit_writes v L (hb hb' : list Z) : list dwrite :=
  log_writes v L ++ [(dev, start, hb)] ++ ((fun b => (dev, b, v dev b)) <$> L) ++ [(dev, start, hb')].

Lemma home_writes_logged v L hb :
  loggable L ->
  home_writes (replay v (log_writes v L ++ [(dev, start, hb)])) L = (fun b => (dev, b, v dev b)) <$> L.
Proof.
  intros HL. unfold home_writes. rewrite <- (imap_const (fun b => (dev, b, v dev b))).
  apply imap_ext. intros k b Hb. rewrite replay_app. simpl.
  rewrite apply_write_ne by (intros [=]; lia). by rewrite (log_writes_at _ _ _ _ _ Hb).
Qed.

Lemma wp_commit s L v d h Q :
  header s L -> L <> [] -> (length L < NBUF)%nat -> rep V pid (lg_bio s) v d h [] (pins L) ->
  (forall s' hb hb', header s' [] -> lg_outstanding s' = lg_outstanding s ->
     lg_committing s' = lg_committing s -> header_block hb L -> header_block hb' [] ->
     let T := commit_writes v L hb hb' in
     rep V pid (lg_bio s') (replay v T) (replay d T) (h ++ T) [] ∅ -> Q tt s') ->
  wp commit s Q.
Proof.
  intros Hh Hne Hlt Hr HQ. pose proof (header_loggable _ _ Hh) as HL.
  pose proof (size_pins L) as Hsp. unfold commit. eapply wp_bind, wp_gets. rewrite (hd_n _ _ Hh).
  replace (_ >? _) with true by (destruct L; [done|simpl; symmetry; apply Z.gtb_lt; lia]).
  assert (forall b, start <= b < start + nlog -> (dev, b) ∉ pins L) as Hpin.
  { intros b Hb Hin. apply elem_of_pins in Hin. by eapply area_not_home; [apply HL|..]. }
  assert ((dev, start) ∉ pins L) as Hps by (apply Hpin; destruct Hgeo; lia).
  eapply wp_bind, wp_write_log; [done|done|exact Hr|]. intros t1 H1.
  eapply wp_bind, wp_write_head; [by apply header_bio|exact H1|done|lia|]. intros t2 hb Hhb H2.
  rewrite !replay_snoc, <- app_assoc in H2.
  eapply wp_bind, wp_install_trans; [by do 2 apply header_bio| |exact H2|].
  { split_and!; [lia|by right|done]. }
  intros t3 H3. rewrite home_writes_logged, <- !replay_app, <- !app_assoc in H3 by done.
  replace (pins L ∖ pins L) with (∅ : gset (Z * Z)) in H3 by set_solver.
  eapply wp_bind, wp_clear; [by do 3 apply header_bio|]. intros Hh4.
  eapply wp_write_head; [exact Hh4|exact H3|set_solver|by pose proof empty_room; lia|].
  intros t5 hb' Hhb' H5. apply (HQ _ hb hb'); try done; [by apply header_bio|].
  rewrite !replay_snoc, <- !app_assoc in H5. exact H5.
Qed.

(** ** Crashes *)

(** [new] is what the disk has once recovery has run on [d]. *)
Definition recovers_to d (new : Z -> list Z) : Prop :=
  exists L, loggable L /\ header_block (d dev start) L /\
    forall b, home b -> replay d (home_writes d L) dev b = new b.

Lemma loggable_nil : loggable [].
Proof. split_and!; [constructor|constructor|simpl; lia|simpl; destruct Hgeo; lia]. Qed.

Lemma recovers_empty d new :
  header_block (d dev start) [] -> (forall b, home b -> d dev b = new b) -> recovers_to d new.
Proof. intros Hhb Hn. exists []. split_and!; [apply loggable_nil|done|done]. Qed.

Lemma log_writes_take v L k : take k (log_writes v L) = log_writes v (take k L).
Proof.
  apply list_eq. intros i. unfold log_writes. rewrite lookup_take, !list_lookup_imap, lookup_take.
  by case_decide.
Qed.

Lemma log_writes_home w v L b :
  loggable L -> home b -> replay w (log_writes v L) dev b = w dev b.
Proof. intros (_ & _ & _ & Hl) (_ & _ & Hout). apply log_writes_other. lia. Qed.

Lemma not_home_start : ~ home start.
Proof. intros (_ & _ & Hout). destruct Hgeo. lia. Qed.

Lemma home_values v L (w : blocks) b :
  NoDup L -> b ∈ L -> replay w ((fun b => (dev, b, v dev b)) <$> L) dev b = v dev b.
Proof.
  intros Hnd Hb. apply replay_in.
  - rewrite <- list_fmap_compose. apply NoDup_fmap_2; [|done]. by intros ? ? [= ->].
  - apply list_elem_of_fmap. eauto.
Qed.

Lemma home_values_other v L (w : blocks) b :
  b ∉ L -> replay w ((fun b => (dev, b, v dev b)) <$> L) dev b = w dev b.
Proof.
  intros Hb. apply replay_notin. rewrite <- list_fmap_compose. intros Hin.
  apply list_elem_of_fmap in Hin as (c & [= ->] & Hc). done.
Qed.

(** A crash before the header is written: the old contents. *)
Lemma crash_before d v L k :
  loggable L -> header_block (d dev start) [] ->
  recovers_to (replay d (log_writes v (take k L))) (d dev).
Proof.
  intros (HL1 & HL2 & HL3 & HL4) Hhb. apply recovers_empty.
  - rewrite log_writes_other by lia. done.
  - intros b Hb. apply log_writes_home; [|done].
    split_and!; [by apply Forall_take|by apply nodup_take|rewrite length_take; lia..].
Qed.

(** A crash after it, whatever part of the home writes were done: the new ones. *)
Lemma crash_after d v L hb j :
  loggable L -> header_block hb L -> (forall b, home b -> b ∉ L -> d dev b = v dev b) ->
  recovers_to (replay d (log_writes v L ++ [(dev, start, hb)] ++
    take j ((fun b => (dev, b, v dev b)) <$> L))) (v dev).
Proof.
  intros HL Hhb Hvd. pose proof HL as (HL1 & HL2 & HL3 & HL4). rewrite <- fmap_take, !replay_app. simpl.
  set (w := apply_write (replay d (log_writes v L)) (dev, start, hb)).
  set (wj := replay w _).
  assert (forall b, start <= b < start + nlog -> wj dev b = w dev b) as Harea.
  { intros b Hb. apply home_values_other. intros Hin. apply elem_of_take in Hin as (i & Hi & _).
    apply list_elem_of_lookup_2 in Hi. by eapply (area_not_home L). }
  exists L. split_and!; [done| |].
  - rewrite Harea by (destruct Hgeo; lia). unfold w. by rewrite apply_write_same.
  - intros b Hb. destruct (decide (b ∈ L)) as [Hin|Hin].
    + apply list_elem_of_lookup in Hin as (i & Hi). pose proof (lookup_lt_Some _ _ _ Hi).
      rewrite (home_writes_at _ _ _ i) by done. rewrite Harea by lia. unfold w.
      rewrite apply_write_ne by (intros [=]; lia). by apply log_writes_at.
    + rewrite home_writes_other by tauto. unfold wj. rewrite home_values_other.
      * unfold w. rewrite apply_write_ne by (intros [= ->]; by apply not_home_start).
        rewrite log_writes_home by done. auto.
      * intros Ht. apply elem_of_take in Ht as (i & Hi & _). apply Hin. by eapply list_elem_of_lookup_2.
Qed.

(** Wherever in the writes of a commit the machine stops, recovery makes the home
    blocks all old or all new. *)
Lemma commit_writes_atomic d v L hb hb' k :
  loggable L -> header_block (d dev start) [] -> header_block hb L -> header_block hb' [] ->
  (forall b, home b -> b ∉ L -> d dev b = v dev b) ->
  let dk := replay d (take k (commit_writes v L hb hb')) in
  (recovers_to dk (d dev) /\ (k <= length L)%nat) \/ (recovers_to dk (v dev) /\ (length L < k)%nat).
Proof.
  intros HL Hhb0 Hhb Hhb' Hvd dk. unfold dk, commit_writes.
  set (A := log_writes v L). set (B := (fun b => (dev, b, v dev b)) <$> L).
  assert (length A = length L) as HA by apply length_imap. assert (length B = length L) as HB by apply length_fmap.
  rewrite take_app, HA. destruct (decide (k <= length L)%nat) as [Hk|Hk]; [left|right]; (split; [|lia]).
  - replace (k - length L)%nat with 0%nat by lia. rewrite app_nil_r. unfold A. rewrite log_writes_take.
    by apply crash_before.
  - rewrite (take_ge A) by lia. destruct (k - length L)%nat as [|j] eqn:Hj; [lia|].
    cbn [app take]. rewrite take_app. destruct (decide (j <= length L)%nat) as [Hjl|Hjl].
    + replace (j - length B)%nat with 0%nat by lia. rewrite take_0, app_nil_r. by apply (crash_after d v L hb j).
    + rewrite !take_ge by (simpl; lia). destruct HL as (HL1 & HL2 & HL3 & HL4).
      assert (A ++ (dev, start, hb) :: B ++ [(dev, start, hb')] =
        ((A ++ [(dev, start, hb)]) ++ B) ++ [(dev, start, hb')]) as -> by (by rewrite <- !app_assoc).
      rewrite replay_app. simpl. apply recovers_empty; [by rewrite apply_write_same|].
      intros b Hb. rewrite apply_write_ne by (intros [= ->]; by apply not_home_start).
      rewrite replay_app. destruct (decide (b ∈ L)) as [Hin|Hin]; unfold B; [by apply home_values|].
      rewrite home_values_other, replay_app by done. simpl.
      rewrite apply_write_ne by (intros [= ->]; by apply not_home_start).
      unfold A. rewrite log_writes_home by done. auto.
Qed.

(** ** The operations of a transaction *)

(** [begin_op] when there is room for one more operation. *)
Lemma begin_op_ok s L :
  header s L -> lg_committing s = 0 ->
  Z.of_nat (length L) + (lg_outstanding s + 1) * MAXOPBLOCKS <= LOGSIZE ->
  begin_op s = Ok tt (set_outstanding (lg_outstanding s + 1) s).
Proof.
  intros Hh Hc Hn. unfold begin_op. rewrite Hc, (hd_n _ _ Hh). simpl.
  destruct (Z.gtb_spec (Z.of_nat (length L) + (lg_outstanding s + 1) * MAXOPBLOCKS) LOGSIZE); [lia|done].
Qed.

(** Log absorption: a block is listed once. *)
Definition log_add L b : list Z := if decide (b ∈ L) then L else L ++ [b].

Lemma elem_of_log_add L b c : c ∈ log_add L b <-> c ∈ L \/ c = b.
Proof.
  unfold log_add. case_decide as Hb; [|rewrite elem_of_app, list_elem_of_singleton; tauto].
  split; [tauto|]. by intros [?| ->].
Qed.

Lemma pins_log_add L b : pins (log_add L b) = pins L ∪ {[(dev, b)]}.
Proof.
  apply leibniz_equiv. intros [dev' c]. rewrite elem_of_union, elem_of_singleton.
  unfold pins. rewrite !elem_of_list_to_set, !list_elem_of_fmap. split.
  - intros (x & [= -> ->] & Hx). apply elem_of_log_add in Hx as [Hx| ->]; [left; eauto|by right].
  - intros [(x & [= -> ->] & Hx)|[= -> ->]]; eexists; (split; [done|]); apply elem_of_log_add; auto.
Qed.

Lemma header_log_add s L b bl :
  header s L -> home b -> (length L < 30)%nat -> Z.of_nat (length L) < nlog - 1 -> (b ∉ L) ->
  length bl = Z.to_nat LOGSIZE -> take (length L) bl = L -> bl !! length L = Some b ->
  header (set_lh (Z.of_nat (length L) + 1) bl s) (L ++ [b]).
Proof.
  intros Hh Hb H30 Hfit Hni Hbl Htk Hat. pose proof (header_loggable _ _ Hh) as (H1 & H2 & _).
  replace (Z.of_nat (length L) + 1) with (Z.of_nat (length (L ++ [b]))) by (rewrite length_app; simpl; lia).
  apply header_intro; [by eapply header_placed| |done|].
  - split_and!; [by apply Forall_app_2, Forall_singleton| |rewrite length_app; simpl; lia..].
    apply list.NoDup_app. split_and!; [done| |apply NoDup_singleton].
    intros x Hx Hxb. apply list_elem_of_singleton in Hxb. by subst.
  - rewrite length_app, Nat.add_1_r, (take_S_r _ _ _ Hat). by rewrite Htk.
Qed.

Lemma wp_log_write s L v d h hs i b Q :
  header s L -> rep V pid (lg_bio s) v d h hs (pins L) -> (i, (dev, b)) ∈ hs -> home b ->
  1 <= lg_outstanding s -> (length L < 30)%nat -> Z.of_nat (length L) < nlog - 1 ->
  (forall t n bl, header (set_bio t (set_lh n bl s)) (log_add L b) ->
     rep V pid t v d h hs (pins (log_add L b)) -> Q tt (set_bio t (set_lh n bl s))) ->
  wp (log_write i) s Q.
Proof.
  intros Hh Hr Hi Hb Hout H30 Hfit HQ. unfold log_write.
  eapply wp_bind, wp_gets, wp_bind, wp_gets. rewrite (hd_n _ _ Hh), (hd_size _ _ Hh).
  eapply wp_bind. replace (_ || _) with false by (symmetry; apply orb_false_iff; unfold LOGSIZE; split; lia).
  apply wp_ret. eapply wp_bind, wp_gets, wp_bind.
  replace (_ <? 1) with false by (symmetry; apply Z.ltb_ge; lia). apply wp_ret.
  destruct (rp_held _ _ _ _ _ _ _ _ Hr _ _ _ Hi) as (y & Hy & [Hk1 Hk2] & _).
  apply cores_lookup in Hy as (_ & x & Hx & ->).
  eapply wp_bind, wp_bio, wp_buf_at; [done|].
  replace (b_blockno x) with b by (symmetry; exact Hk2). replace (set_bio (lg_bio s) s) with s by (by destruct s).
  assert (forall k c, L !! k = Some c -> (u32 c =? b) = bool_decide (c = b)) as Hcmp.
  { intros k c Hc. destruct (header_lookup _ _ _ _ Hh Hc) as (Hch & _). rewrite (u32_home _ Hch).
    by destruct (Z.eqb_spec c b); [rewrite bool_decide_true|rewrite bool_decide_false]. }
  eapply wp_bind, (wp_search _ _ (fun k => c ← L !! k; if u32 c =? b then Some (Z.of_nat k) else None)).
  - intros k Hk. destruct (lookup_lt_is_Some_2 _ _ Hk) as [c Hc]. rewrite Hc. simpl.
    pose proof (wp_lh_block_at s L k c (fun a s' => a = c /\ s' = s) Hh Hc ltac:(done)) as Hw.
    apply wp_ok in Hw as (a & s' & He & -> & ->). by rewrite (bind_ok _ _ _ _ _ He).
  - intros k z Hk Hz _. destruct (lookup_lt_is_Some_2 _ _ Hk) as [c Hc]. rewrite Hc in Hz. simpl in Hz.
    rewrite (Hcmp k c Hc) in Hz. case_bool_decide as Hcb; [|done]. injection Hz as <-. subst c. simpl.
    pose proof (header_lookup _ _ _ _ Hh Hc) as (_ & Hbl & _).
    eapply wp_bind, wp_lh_block_set; [apply Hh|lia|]. rewrite s32_word, list_insert_id by done.
    eapply wp_bind. replace (Z.of_nat k =? _) with false by (symmetry; apply Z.eqb_neq; lia). apply wp_ret.
    assert (log_add L b = L) as Hadd.
    { unfold log_add. rewrite decide_True; [done|]. by eapply list_elem_of_lookup_2. }
    eapply wp_bio, wpc_dirty; [exact Hr|exact Hi|]. intros t Ht. rewrite <- pins_log_add, Hadd in Ht.
    apply HQ; rewrite Hadd; [|done]. apply header_bio. by destruct Hh, s.
  - intros Hall. simpl. assert (b ∉ L) as Hni.
    { intros Hin. apply list_elem_of_lookup in Hin as (k & Hk). specialize (Hall k (lookup_lt_Some _ _ _ Hk)).
      rewrite Hk in Hall. simpl in Hall. rewrite (Hcmp k b Hk), bool_decide_true in Hall by done. done. }
    rewrite Z.max_r by lia. eapply wp_bind, wp_lh_block_set; [apply Hh|lia|]. rewrite s32_word by done.
    eapply wp_bind. rewrite Z.eqb_refl. apply wp_modify.
    assert (log_add L b = L ++ [b]) as Hadd by (unfold log_add; by rewrite decide_False).
    eapply wp_bio, wpc_dirty; [exact Hr|exact Hi|]. intros t Ht. rewrite <- pins_log_add in Ht.
    apply HQ; [|done]. apply header_bio. rewrite Hadd. apply header_log_add; try done.
    + simpl. rewrite length_insert. apply Hh.
    + simpl. rewrite take_insert_ge by lia. apply Hh.
    + simpl. apply list_lookup_insert_eq. rewrite (hd_len _ _ Hh). unfold LOGSIZE. lia.
Qed.

(** The last operation of a transaction commits it. *)
Lemma end_op_commits s Q :
  lg_committing s = 0 -> lg_outstanding s = 1 ->
  wp commit (set_committing 1 (set_outstanding 0 s)) (fun _ s' => Q tt (set_committing 0 s')) ->
  wp end_op s Q.
Proof.
  intros Hc Ho Hw. unfold end_op, end_op_enter.
  eapply wp_bind, wp_bind, wp_modify, wp_bind, wp_gets. simpl. rewrite Hc, Ho. simpl.
  eapply wp_bind, wp_ret, wp_bind, wp_gets. simpl. eapply wp_bind, wp_modify, wp_ret, wp_bind, wp_mono; [exact Hw|].
  intros [] s' Hs'. by apply wp_modify.
Qed.

(** The super block gives the place of the log. *)
Definition sb_locates (blk : list Z) : Prop :=
  sb_logstart (superblock_of blk) = start /\ sb_nlog (superblock_of blk) = nlog.

Lemma wp_readsb s d h Q :
  rep V pid (lg_bio s) d d h [] ∅ -> V dev 1 ->
  (forall t, rep V pid t d d h [] ∅ -> Q (superblock_of (d dev 1)) (set_bio t s)) -> wp (xv6fs_readsb dev) s Q.
Proof.
  intros Hr HV1 HQ. unfold xv6fs_readsb. rewrite u32_dev.
  eapply wp_bind, wp_bio, wpc_bread; [exact Hr|done|split; [set_solver|left; pose proof empty_room; cbn [length]; lia]|].
  intros i t1 H1. eapply wp_bind, wp_bio, wpc_bdata; [exact H1|held|].
  eapply wp_bind, wp_bio, wpc_brelse; [exact H1|take_out|by right|]. intros t2 H2. by apply wp_ret, HQ.
Qed.

(** [initlog] with the contents [d] on the disk: recovery runs. *)
Lemma wp_initlog s d h new Q :
  rep V pid (lg_bio s) d d h [] ∅ -> V dev 1 -> sb_locates (d dev 1) -> recovers_to d new ->
  length (lh_block s) = Z.to_nat LOGSIZE ->
  (forall s' v h', header s' [] -> lg_outstanding s' = lg_outstanding s -> lg_committing s' = lg_committing s ->
     rep V pid (lg_bio s') v v h' [] ∅ -> header_block (v dev start) [] -> (forall b, home b -> v dev b = new b) -> Q tt s') ->
  wp (initlog dev) s Q.
Proof.
  intros Hr HV1 [Hst Hnl] (L & HL & Hhb & Hnew) Hlen HQ.
  unfold initlog. eapply wp_bind, wp_ret, wp_bind, wp_readsb; [exact Hr|done|]. intros t H2.
  eapply wp_bind, wp_modify. rewrite Hst, Hnl.
  destruct Hgeo as [Hg1 [Hg2 Hg3] Hg4 Hg5]. rewrite !s32_small by lia.
  eapply (wp_recover _ L); [done|done|exact H2|done|].
  intros s' hb Hh Ho Hc Hhb' T HT. eapply (HQ s' (replay d T)); [done|done|done|exact HT|..].
  - unfold T. rewrite replay_app. simpl. by rewrite apply_write_same.
  - intros b Hb. unfold T. rewrite replay_app. simpl.
    rewrite apply_write_ne by (intros [= ->]; by apply not_home_start). by apply Hnew.
Qed.

(** Booting on a disk with contents [d]. *)
Lemma wp_boot_log (disk0 : D) d new :
  dwf disk0 -> (forall dev b, dvalid disk0 dev b <-> V dev b) ->
  (forall dev b, V dev b -> dblock disk0 dev b = d dev b) ->
  V dev 1 -> sb_locates (d dev 1) -> recovers_to d new ->
  wp (boot_log dev) (log_bss disk0 pid) (fun _ s => exists v, header s [] /\ lg_outstanding s = 0 /\
    lg_committing s = 0 /\ (exists h, rep V pid (lg_bio s) v v h [] ∅) /\
    header_block (v dev start) [] /\ forall b, home b -> v dev b = new b).
Proof.
  intros Hwf Hval Hd HV1 Hsb Hrec. unfold boot_log.
  eapply wp_bind, wp_bio, wp_eq; [apply binit_boot|].
  eapply wp_initlog; [by apply boot_rep_on|done|done|done|done|]. intros s v h Hh Ho Hc Hr Hhb Hv. exists v. split_and!; eauto.
Qed.
End spec.

(** * Properties of the log *)

(** A log at rest: no operation, nothing logged, an empty header on disk, and
    every block on disk is what readers see. *)
Record quiet {D} `{DiskDriver D} V pid dev start nlog (s : logst D) (v : blocks) : Prop := {
  qu_header : header V dev start nlog s [];
  qu_ops : lg_outstanding s = 0 /\ lg_committing s = 0;
  qu_rep : exists h, rep V pid (lg_bio s) v v h [] ∅;
  qu_disk : header_block (v dev start) [];
}.

Section transaction.
Context {D : Type} `{DiskDriver D} `{!DiskDriverLaws D}.
Context (V : Z -> Z -> Prop) (pid dev start nlog : Z).
Context (Hgeo : geometry V dev start nlog) (Hnlog : MAXOPBLOCKS < nlog).
Implicit Types (s : logst D) (v : blocks) (ws : list (Z * list Z)).

(** The use of the log that the comment before [log_write] describes: an
    operation that replaces the contents of some blocks. *)
Definition update_block (w : Z * list Z) : M (logst D) unit :=
  bp ← bio (bread dev w.1);
  bio (bset bp (fun _ => w.2)) ;;
  log_write bp ;;
  bio (brelse bp).
Definition transaction ws : M (logst D) unit :=
  begin_op ;; for_all ws update_block ;; end_op.

Definition as_writes ws : list dwrite := (fun w => (dev, w.1, w.2)) <$> ws.
Definition logged ws : list Z := foldl log_add [] ws.*1.

Lemma logged_snoc ws w : logged (ws ++ [w]) = log_add (logged ws) w.1.
Proof. unfold logged. by rewrite fmap_app, foldl_app. Qed.

Lemma logged_length ws : (length (logged ws) <= length ws)%nat.
Proof.
  induction ws as [|w ws IH] using rev_ind; [done|]. rewrite logged_snoc, length_app. simpl.
  unfold log_add. case_decide; [lia|]. rewrite length_app. simpl. lia.
Qed.

Lemma elem_of_logged ws b : b ∈ logged ws <-> b ∈ ws.*1.
Proof.
  induction ws as [|w ws IH] using rev_ind; [done|].
  rewrite logged_snoc, elem_of_log_add, fmap_app, elem_of_app, IH. simpl. by rewrite list_elem_of_singleton.
Qed.

Lemma wp_update_block s L v d h b x Q :
  header V dev start nlog s L -> rep V pid (lg_bio s) v d h [] (pins dev L) ->
  home V dev start nlog b -> block_ok x -> 1 <= lg_outstanding s -> (length L < 10)%nat ->
  (forall t n bl, header V dev start nlog (set_bio t (set_lh n bl s)) (log_add L b) ->
     rep V pid t (apply_write v (dev, b, x)) d h [] (pins dev (log_add L b)) ->
     Q tt (set_bio t (set_lh n bl s))) ->
  wp (update_block (b, x)) s Q.
Proof.
  intros Hh Hr Hb Hx Ho Hl HQ. pose proof Hb as (_ & HVb & _). pose proof (size_pins dev L) as Hsz.
  unfold update_block, MAXOPBLOCKS in *. simpl.
  eapply wp_bind, wp_bio, wpc_bread; [exact Hr|done|split; [set_solver|left; unfold NBUF; simpl; lia]|].
  intros i t1 H1. eapply wp_bind, wp_bio, wpc_bset; [exact H1|held|done|]. intros t2 H2.
  eapply wp_bind, wp_log_write; [by do 2 apply header_bio|exact H2|held|done|done|lia|lia|].
  intros t3 n bl Hh3 H3. eapply wp_bio, wpc_brelse; [exact H3|take_out| |].
  { left. apply elem_of_pins, elem_of_log_add. by right. }
  intros t4 H4. apply (HQ t4 n bl); [|done]. exact (header_bio _ _ _ _ t4 _ _ Hh3).
Qed.

(** The blocks of a transaction before it ends: logged, pinned and seen by
    readers, while the disk is as it was. *)
Lemma wp_updates s v h ws :
  header V dev start nlog s [] -> rep V pid (lg_bio s) v v h [] ∅ -> 1 <= lg_outstanding s ->
  Forall (fun w => home V dev start nlog w.1 /\ block_ok w.2) ws -> (length ws <= 10)%nat ->
  wp (for_all ws update_block) s (fun _ s' =>
    header V dev start nlog s' (logged ws) /\ lg_outstanding s' = lg_outstanding s /\
    lg_committing s' = lg_committing s /\
    rep V pid (lg_bio s') (replay v (as_writes ws)) v h [] (pins dev (logged ws))).
Proof.
  intros Hh Hr Ho Hws Hlen.
  apply (wp_for_all _ _ (fun ws' s' => header V dev start nlog s' (logged ws') /\
    lg_outstanding s' = lg_outstanding s /\ lg_committing s' = lg_committing s /\
    rep V pid (lg_bio s') (replay v (as_writes ws')) v h [] (pins dev (logged ws')))); [done|].
  intros ws' [b x] s' Hk Htk (Hh' & Ho' & Hc' & Hr').
  destruct (Forall_lookup_1 _ _ _ _ Hws Hk) as [Hb Hx]. apply lookup_lt_Some in Hk.
  pose proof (logged_length ws').
  eapply wp_update_block; [done|exact Hr'|done|done|lia|lia|].
  intros t n bl Hh2 H2. rewrite logged_snoc. split_and!; [done|done|done|].
  unfold as_writes. rewrite fmap_app, replay_app. exact H2.
Qed.

Lemma as_writes_notin v ws b : b ∉ ws.*1 -> replay v (as_writes ws) dev b = v dev b.
Proof.
  intros Hb. apply replay_notin. unfold as_writes. rewrite <- list_fmap_compose. intros Hin.
  apply list_elem_of_fmap in Hin as (w & [= ->] & Hw). apply Hb, list_elem_of_fmap. eauto.
Qed.

(** A whole transaction: what it writes, and the state it ends in. *)
Lemma wp_transaction s v h ws :
  header V dev start nlog s [] -> rep V pid (lg_bio s) v v h [] ∅ ->
  lg_outstanding s = 0 -> lg_committing s = 0 ->
  Forall (fun w => home V dev start nlog w.1 /\ block_ok w.2) ws -> (length ws <= 10)%nat -> ws <> [] ->
  wp (transaction ws) s (fun _ s' => exists hb hb',
    header V dev start nlog s' [] /\ lg_outstanding s' = 0 /\ lg_committing s' = 0 /\
    header_block hb (logged ws) /\ header_block hb' [] /\
    let new := replay v (as_writes ws) in
    let T := commit_writes dev start new (logged ws) hb hb' in
    rep V pid (lg_bio s') (replay new T) (replay v T) (h ++ T) [] ∅).
Proof.
  intros Hh Hr Ho Hc Hws Hlen Hne. unfold transaction. eapply wp_bind, wp_eq.
  { eapply begin_op_ok; [done|done|]. rewrite Ho. unfold MAXOPBLOCKS, LOGSIZE. simpl. lia. }
  eapply wp_bind, wp_mono.
  { apply (wp_updates (set_outstanding _ s) v h ws); try done; [by destruct Hh|simpl; lia]. }
  intros [] s' (Hh' & Ho' & Hc' & Hr'). simpl in Ho', Hc'. rewrite Ho in Ho'. rewrite Hc in Hc'.
  apply end_op_commits; [done|done|].
  assert (logged ws <> []) as Hlne.
  { destruct ws as [|w ws]; [done|]. intros He. eapply (not_elem_of_nil w.1). rewrite <- He.
    apply elem_of_logged. simpl. apply list_elem_of_here. }
  pose proof (logged_length ws). unfold NBUF in *.
  eapply wp_commit; [done|by destruct Hh'|exact Hlne|unfold NBUF; lia|exact Hr'|].
  intros s2 hb hb' Hh2 Ho2 Hc2 Hhb Hhb' T HT. exists hb, hb'. simpl. split_and!; try done.
  by destruct Hh2.
Qed.

Lemma header_block_nil blk blk' :
  header_block blk [] -> blk' = blk -> header_block blk' [].
Proof. by intros ? ->. Qed.

(** What every reader sees after the commit: the new contents. *)
Lemma commit_writes_new v L hb hb' b :
  loggable V dev start nlog L -> home V dev start nlog b ->
  replay v (commit_writes dev start v L hb hb') dev b = v dev b.
Proof.
  intros HL Hb. unfold commit_writes. rewrite !replay_app. simpl.
  assert (b <> start) as Hne by (intros ->; by eapply not_home_start).
  rewrite apply_write_ne by congruence. destruct (decide (b ∈ L)).
  - apply home_values; [apply HL|done].
  - rewrite home_values_other by done. rewrite apply_write_ne by congruence. by eapply log_writes_home.
Qed.

Lemma commit_writes_head (v w : blocks) L hb hb' :
  replay w (commit_writes dev start v L hb hb') dev start = hb'.
Proof. unfold commit_writes. rewrite !replay_app. simpl. apply apply_write_same. Qed.

Lemma logged_loggable ws :
  Forall (fun w => home V dev start nlog w.1 /\ block_ok w.2) ws -> (length ws <= 10)%nat ->
  loggable V dev start nlog (logged ws).
Proof.
  intros Hws Hlen. unfold MAXOPBLOCKS in *. pose proof (logged_length ws). split_and!; [| |lia|lia].
  - apply Forall_forall. intros b Hb. apply elem_of_logged, list_elem_of_fmap in Hb as (w & -> & Hw).
    rewrite Forall_forall in Hws. by apply Hws.
  - clear. induction ws as [|w ws IH] using rev_ind; [constructor|]. rewrite logged_snoc. unfold log_add.
    case_decide as Hb; [done|]. apply list.NoDup_app. split_and!; [done| |apply NoDup_singleton].
    intros x Hx Hxb. apply list_elem_of_singleton in Hxb. by subst.
Qed.

(** An operation that writes nothing. *)
Lemma transaction_nil s :
  header V dev start nlog s [] -> lg_outstanding s = 0 -> lg_committing s = 0 ->
  transaction [] s = Ok tt (set_committing 0 (set_committing 1 (set_outstanding 0 s))).
Proof.
  intros Hh Ho Hc. unfold transaction.
  erewrite bind_ok by (eapply begin_op_ok; [exact Hh|done|by rewrite Ho]). simpl.
  erewrite bind_ok by done. unfold end_op, end_op_enter, mbind, M_bind, modify, gets. simpl. rewrite Hc, Ho. simpl.
  unfold commit, mbind, M_bind, gets. simpl. by rewrite (hd_n _ _ _ _ _ _ Hh).
Qed.

(** The writes of a commit leave a block that is neither logged nor in the log
    alone, wherever they stop. *)
Lemma crash_keeps v w L hb hb' k b :
  loggable V dev start nlog L -> ~ (start <= b < start + nlog) -> b ∉ L ->
  replay w (take k (commit_writes dev start v L hb hb')) dev b = w dev b.
Proof.
  intros HL Hout Hb. apply replay_notin. intros Hin. apply list_elem_of_fmap in Hin as (x & He & Hx).
  apply elem_of_take in Hx as (i & Hx & _). apply list_elem_of_lookup_2 in Hx.
  assert (start <= start < start + nlog) by (destruct Hgeo; lia).
  unfold commit_writes in Hx. rewrite !elem_of_app, !list_elem_of_singleton in Hx.
  destruct HL as (_ & _ & _ & HL).
  destruct Hx as [Hx|[->|[Hx| ->]]]; [..|by injection He as ->; apply Hout].
  - apply elem_of_log_writes in Hx as (j & c & Hj & ->). apply lookup_lt_Some in Hj.
    injection He as ->. apply Hout. lia.
  - injection He as ->. by apply Hout.
  - apply list_elem_of_fmap in Hx as (c & -> & Hc). by injection He as ->.
Qed.

Lemma boot_recovers disk0 d new :
  dwf disk0 -> (forall dev b, dvalid disk0 dev b <-> V dev b) ->
  (forall dev b, V dev b -> dblock disk0 dev b = d dev b) ->
  V dev 1 -> sb_locates start nlog (d dev 1) -> recovers_to V dev start nlog d new ->
  exists s v, boot_log dev (log_bss disk0 pid) = Ok tt s /\ quiet V pid dev start nlog s v /\
    forall b, home V dev start nlog b -> v dev b = new b.
Proof.
  intros Hwf Hval Hd HV1 Hsb Hrec.
  pose proof (wp_boot_log V pid dev start nlog Hgeo disk0 d new Hwf Hval Hd HV1 Hsb Hrec) as Hw.
  apply (proj1 (wp_ok _ _ _)) in Hw as ([] & s & He & v & Hh & Ho & Hc & Hr & Hhb & Hv).
  exists s, v. split; [exact He|]. split; [|exact Hv]. clear He. by split.
Qed.
End transaction.

(** C1: file-system operations are atomic with respect to crashes. From a log at
    rest, an operation that writes up to MAXOPBLOCKS blocks ([begin_op], a
    [bread]/[log_write]/[brelse] per block, [end_op]) runs to the end, leaves the
    log at rest, and every home block has its new contents; it makes the disk
    perform a sequence of block writes [T]. There is a commit point [c] in [T]:
    for every [k], if the machine stops after [k] of these writes and boots again
    ([binit], [initlog] with its recovery), it comes up with a log at rest and
    every home block old if [k <= c], every home block new if [k > c]. *)
Theorem transaction_crash_atomic {D} `{DiskDriverLaws D} V pid dev start nlog (s : logst D) v ws :
  geometry V dev start nlog -> MAXOPBLOCKS < nlog -> V dev 1 -> 1 < start ->
  quiet V pid dev start nlog s v -> sb_locates start nlog (v dev 1) ->
  Forall (fun w => home V dev start nlog w.1 /\ block_ok w.2 /\ w.1 <> 1) ws -> (length ws <= 10)%nat ->
  exists s' v' T c,
    transaction dev ws s = Ok tt s' /\ quiet V pid dev start nlog s' v' /\
    (forall b, home V dev start nlog b -> v' dev b = replay v (as_writes dev ws) dev b) /\
    dhist (disk (lg_bio s')) = dhist (disk (lg_bio s)) ++ T /\
    forall k (disk0 : D), dwf disk0 -> (forall dev b, dvalid disk0 dev b <-> V dev b) ->
      (forall dev b, V dev b -> dblock disk0 dev b = replay v (take k T) dev b) ->
      exists s'' v'', boot_log dev (log_bss disk0 pid) = Ok tt s'' /\
        quiet V pid dev start nlog s'' v'' /\
        forall b, home V dev start nlog b ->
          v'' dev b = if decide (k <= c)%nat then v dev b else replay v (as_writes dev ws) dev b.
Proof.
  intros Hgeo Hnlog HV1 Hst Hq Hsb Hws Hlen. pose proof Hq as [Hh [Ho Hc] [h Hr] Hhb0].
  assert (Forall (fun w => home V dev start nlog w.1 /\ block_ok w.2) ws) as Hws'
    by (eapply Forall_impl; [exact Hws|naive_solver]).
  assert (dhist (disk (lg_bio s)) = h) as -> by apply Hr.
  destruct (decide (ws = [])) as [->|Hne].
  { exists (set_committing 0 (set_committing 1 (set_outstanding 0 s))), v, [], 0%nat. split_and!; try done.
    - by eapply transaction_nil.
    - split; try done; [by destruct Hh|eauto].
    - rewrite app_nil_r. apply Hr.
    - intros k disk0 Hwf Hval Hd. rewrite take_nil in Hd.
      assert (recovers_to V dev start nlog v (v dev)) as Hrec by (by apply recovers_empty).
      destruct (boot_recovers V pid dev start nlog Hgeo disk0 v (v dev) Hwf Hval Hd HV1 Hsb Hrec)
        as (s2 & v2 & He & Hq2 & Hv2).
      exists s2, v2. split; [exact He|]. split; [exact Hq2|]. clear He. intros b Hb. rewrite Hv2 by done.
      by case_decide. }
  pose proof (wp_transaction V pid dev start nlog Hgeo Hnlog s v h ws Hh Hr Ho Hc Hws' Hlen Hne) as Hw.
  apply (proj1 (wp_ok _ _ _)) in Hw as ([] & s' & He & hb & hb' & Hh' & Ho' & Hc' & Hhb & Hhb' & HT).
  set (new := replay v (as_writes dev ws)) in *. set (T := commit_writes dev start new (logged ws) hb hb') in *.
  assert (loggable V dev start nlog (logged ws)) as HL by (by eapply logged_loggable).
  assert (forall dev b, V dev b -> replay new T dev b = replay v T dev b) as Heq.
  { intros dev' b HV. by eapply rep_clean; [exact HT|..]; set_solver. }
  exists s', (replay v T), T, (length (logged ws)). split; [exact He|]. clear He. split_and!.
  - split; [done|done| |by unfold T; rewrite commit_writes_head].
    eexists. by eapply rep_ext; [exact HT|..].
  - intros b Hb. pose proof Hb as (_ & HV & _). rewrite <- Heq by done. by eapply commit_writes_new.
  - apply HT.
  - intros k disk0 Hwf Hval Hd.
    assert (forall b, home V dev start nlog b -> b ∉ logged ws -> v dev b = new dev b) as Hsame.
    { intros b _ Hb. rewrite elem_of_logged in Hb. unfold new. by rewrite as_writes_notin. }
    assert (replay v (take k T) dev 1 = v dev 1) as H1.
    { apply (crash_keeps V dev start nlog Hgeo); [done|lia|]. rewrite elem_of_logged. intros Hin.
      apply list_elem_of_fmap in Hin as (w & Hw1 & Hw2). rewrite Forall_forall in Hws.
      by apply (Hws w Hw2). }
    pose proof (commit_writes_atomic V dev start nlog Hgeo v new (logged ws) hb hb' k HL Hhb0 Hhb Hhb' Hsame)
      as [[Hrec Hk]|[Hrec Hk]].
    + destruct (boot_recovers V pid dev start nlog Hgeo disk0 _ (v dev) Hwf Hval Hd) as (s2 & v2 & He2 & Hq2 & Hv2);
        [done|by rewrite H1|done|].
      exists s2, v2. split; [exact He2|]. split; [exact Hq2|]. clear He2. intros b Hb.
      by rewrite Hv2, decide_True.
    + destruct (boot_recovers V pid dev start nlog Hgeo disk0 _ (new dev) Hwf Hval Hd) as (s2 & v2 & He2 & Hq2 & Hv2);
        [done|by rewrite H1|done|].
      exists s2, v2. split; [exact He2|]. split; [exact Hq2|]. clear He2. intros b Hb.
      by rewrite Hv2, decide_False by (done || lia).
Qed.

(** A disk of 64 blocks with an empty log of 30 blocks at block 2. *)
Definition sb_block (ws : list Z) : list Z :=
  mjoin (le_enc 4 <$> ws) ++ replicate (1024 - 4 * length ws) 0.
Definition log_blks : list (list Z) :=
  [zero_block; sb_block [64; 30; 16; 30; 2; 32; 34]] ++ replicate 62 zero_block.
Definition log_disk : memdisk := disk_of log_blks.

Lemma log_disk_blocks : Forall block_ok log_blks.
Proof.
  apply Forall_app_2; [|apply Forall_replicate, zero_block_ok].
  apply Forall_cons. split; [apply zero_block_ok|]. apply Forall_singleton.
  split; [by vm_compute|]. apply bytes_okb_spec. by vm_compute.
Qed.

Lemma log_disk_wf : dwf log_disk.
Proof. apply disk_of_wf; [apply log_disk_blocks|done]. Qed.

Lemma log_disk_at k b : log_blks !! k = Some b -> dblock log_disk 1 (Z.of_nat k) = b.
Proof. apply md_load_disk_of, log_disk_blocks. Qed.

Lemma log_disk_geometry : geometry (dvalid log_disk) 1 2 30.
Proof. split; try lia. intros b Hb. split; [done|]. simpl. lia. Qed.

Lemma log_disk_recovers : recovers_to (dvalid log_disk) 1 2 30 (dblock log_disk) (dblock log_disk 1).
Proof.
  apply recovers_empty; [apply log_disk_geometry| |done].
  assert (dblock log_disk 1 2 = zero_block) as -> by exact (log_disk_at 2 _ eq_refl).
  split_and!; [apply zero_block_ok|by vm_compute|done].
Qed.

Lemma log_disk_sb : sb_locates 2 30 (dblock log_disk 1 1).
Proof.
  assert (dblock log_disk 1 1 = sb_block [64; 30; 16; 30; 2; 32; 34]) as ->
    by exact (log_disk_at 1 _ eq_refl).
  by vm_compute.
Qed.

Lemma log_disk_home b : 32 <= b < 64 \/ b = 1 -> home (dvalid log_disk) 1 2 30 b.
Proof. intros Hb. split; [lia|]. split; [|lia]. split; [done|]. simpl. lia. Qed.

Definition log_ws : list (Z * list Z) := [(40, fill_block 9); (41, fill_block 8); (40, fill_block 7)].

Lemma log_ws_ok :
  Forall (fun w => home (dvalid log_disk) 1 2 30 w.1 /\ block_ok w.2 /\ w.1 <> 1) log_ws.
Proof.
  repeat (apply Forall_cons; split; [split_and!; [apply log_disk_home; simpl; lia|by apply fill_block_ok|done]|]).
  by apply Forall_nil.
Qed.

Lemma transaction_crash_atomic_witness :
  exists (s s' : logst memdisk) v,
    boot_log 1 (log_bss log_disk 7) = Ok tt s /\ transaction 1 log_ws s = Ok tt s' /\
    quiet (dvalid log_disk) 7 1 2 30 s' v.
Proof.
  assert (dvalid log_disk 1 1) as HV1 by (by split).
  assert (home (dvalid log_disk) 1 2 30 1) as Hhome by (apply log_disk_home; lia).
  destruct (boot_recovers (D := memdisk) (dvalid log_disk) 7 1 2 30 log_disk_geometry log_disk _ _ log_disk_wf
    (fun _ _ => iff_refl _) (fun _ _ _ => eq_refl) HV1 log_disk_sb log_disk_recovers)
    as (s & v & Hb & Hq & Hv).
  assert (sb_locates 2 30 (v 1 1)) as Hsb by (rewrite (Hv 1 Hhome); exact log_disk_sb).
  destruct (transaction_crash_atomic (dvalid log_disk) 7 1 2 30 s v log_ws log_disk_geometry eq_refl HV1
    eq_refl Hq Hsb log_ws_ok (Nat.le_add_r 3 7)) as (s' & v' & T & c & He & Hq' & _).
  exists s, s', v'. split; [exact Hb|]. split; [exact He|exact Hq'].
Defined.
