(* ===== verification/LogOps.v ===== *)
(** Several processes in the log: the interleavings of the critical sections of
    [begin_op], [log_write] and [end_op], and the reservation of log space that
    [begin_op] makes for each operation. *)

From S2P Require Import Prelude Bytes Sleeplock Buf Ring Memide Bio Cache Log.

(** [keeps f m]: when [m] returns, [f] of the state is what it was. *)
Definition keeps {S A B} (f : S -> B) (m : M S A) : Prop :=
  forall s a s', m s = Ok a s' -> f s' = f s.

Section keeps.
Context {S B : Type} (f : S -> B).

Lemma keeps_ret {A} (a : A) : keeps f (mret a).
Proof. by intros s a' s' [= _ ->]. Qed.
Lemma keeps_gets {A} (g : S -> A) : keeps f (gets g).
Proof. by intros s a' s' [= _ ->]. Qed.
Lemma keeps_fail {A} (m : M S A) : (forall s a s', m s <> Ok a s') -> keeps f m.
Proof. intros Hm s a s' He. by apply Hm in He. Qed.
Lemma keeps_modify g : (forall s, f (g s) = f s) -> keeps f (modify g).
Proof. intros Hg s a s' [= _ <-]. apply Hg. Qed.
Lemma keeps_bind {A C} (m : M S A) (k : A -> M S C) :
  keeps f m -> (forall a, keeps f (k a)) -> keeps f (m ≫= k).
Proof.
  intros Hm Hk s c s' He. apply bind_inv in He as (a & s1 & H1 & H2).
  rewrite (Hk _ _ _ _ H2). by eapply Hm.
Qed.
Lemma keeps_guard b (m : M S unit) : keeps f m -> keeps f (guard_ok b m).
Proof. intros Hm. destruct b; [done|apply keeps_ret]. Qed.
Lemma keeps_deref {A} (g : S -> option A) : keeps f (fun s => deref (g s) s).
Proof. intros s a s'. destruct (g s); simpl; [|done]. by intros [= _ ->]. Qed.
Lemma keeps_for_all {A} (l : list A) body : (forall x, keeps f (body x)) -> keeps f (for_all l body).
Proof. intros Hb. induction l; simpl; [apply keeps_ret|]. by apply keeps_bind. Qed.
Lemma keeps_for_each {A C} (l : list A) (body : A -> M S (option C)) :
  (forall x, keeps f (body x)) -> keeps f (for_each l body).
Proof.
  intros Hb. induction l; simpl; [apply keeps_ret|]. apply keeps_bind; [done|].
  intros [c|]; [apply keeps_ret|done].
Qed.
Lemma keeps_zoom {T A} get put (m : M T A) : (forall t s, f (put t s) = f s) -> keeps f (zoom get put m).
Proof. intros Hp s a s'. unfold zoom. destruct (m (get s)); [|done..]. intros [= _ <-]. apply Hp. Qed.
End keeps.

Create HintDb keeps.
#[export] Hint Resolve keeps_ret keeps_gets keeps_modify keeps_deref keeps_zoom : keeps.
Ltac keeps :=
  repeat first [apply keeps_bind; [|intros ?] | apply keeps_guard | apply keeps_for_all; intros ?
               | apply keeps_for_each; intros ?];
  auto with keeps.

(** The fields of the log that [commit] leaves alone. *)
Definition counters {D} (s : logst D) : Z * Z * Z :=
  (lg_size s, lg_outstanding s, lg_committing s).

(** For every operation in progress, by process, the blocks it has logged. *)
Abbreviation ops := (gmap Z (gset Z)).

Section Ops.
Context {D : Type} `{DiskDriver D}.
Implicit Types s : logst D.

Lemma keeps_bio {A B} (f : logst D -> B) (m : M (bstate D) A) :
  (forall t s, f (set_bio t s) = f s) -> keeps f (bio m).
Proof. apply keeps_zoom. Qed.

Lemma keeps_lh_block_at {B} (f : logst D -> B) i : keeps f (lh_block_at i).
Proof. apply keeps_deref. Qed.
#[local] Hint Resolve keeps_bio keeps_lh_block_at : keeps.

Lemma write_log_keeps {B} (f : logst D -> B) : (forall t s, f (set_bio t s) = f s) -> keeps f write_log.
Proof. intros Hf. unfold write_log. keeps. Qed.

Lemma install_trans_keeps {B} (f : logst D -> B) :
  (forall t s, f (set_bio t s) = f s) -> keeps f install_trans.
Proof. intros Hf. unfold install_trans. keeps. Qed.

Lemma write_head_keeps {B} (f : logst D -> B) : (forall t s, f (set_bio t s) = f s) -> keeps f write_head.
Proof. intros Hf. unfold write_head. keeps. Qed.
#[local] Hint Resolve write_log_keeps install_trans_keeps write_head_keeps : keeps.

Lemma commit_keeps : keeps (counters (D := D)) commit.
Proof.
  unfold commit, clear_n. keeps.
Qed.

(** The blocks of the current transaction. *)
Definition lh_blocks s : list Z := u32 <$> take (Z.to_nat (lh_n s)) (lh_block s).

Definition lh_wf s : Prop := 0 <= lh_n s <= LOGSIZE /\ length (lh_block s) = Z.to_nat LOGSIZE.

Lemma length_lh_blocks s : lh_wf s -> Z.of_nat (length (lh_blocks s)) = lh_n s.
Proof.
  intros (Hn & Hl). unfold lh_blocks, LOGSIZE in *. rewrite length_fmap, length_take. lia.
Qed.

Lemma lh_block_at_ok s k c :
  lh_wf s -> lh_blocks s !! k = Some c ->
  exists z, lh_block_at (Z.of_nat k) s = Ok z s /\ u32 z = c /\ lh_block s !! k = Some z /\ (k < Z.to_nat (lh_n s))%nat.
Proof.
  intros (Hn & Hl) Hk. unfold lh_blocks in Hk. apply list_lookup_fmap_Some in Hk as (z & -> & Hk).
  rewrite lookup_take in Hk. case_decide; [|done]. exists z. split_and!; [|done|done|done].
  unfold lh_block_at, LOGSIZE in *. rewrite (proj2 (andb_true_iff _ _)) by lia.
  by rewrite Nat2Z.id, Hk.
Qed.

(** [log_write] of block [b] when the checks pass: the block is listed once. *)
Lemma wp_log_write_run s i x :
  lh_wf s -> bufs (lg_bio s) !! i = Some x -> 0 <= b_blockno x < 2 ^ 32 ->
  lh_n s < LOGSIZE -> lh_n s < lg_size s - 1 -> 1 <= lg_outstanding s ->
  wp (log_write i) s (fun _ s' =>
    counters s' = counters s /\ lh_wf s' /\ lh_blocks s' = log_add (lh_blocks s) (b_blockno x)).
Proof.
  intros Hwf Hx Hb Hn Hfit Hout. pose proof Hwf as (Hn0 & Hl). pose proof (length_lh_blocks s Hwf) as Hlen.
  unfold log_write. eapply wp_bind, wp_gets, wp_bind, wp_gets, wp_bind.
  replace (_ || _) with false by (symmetry; apply orb_false_iff; lia). apply wp_ret.
  eapply wp_bind, wp_gets, wp_bind. replace (_ <? 1) with false by (symmetry; apply Z.ltb_ge; lia).
  apply wp_ret. eapply wp_bind, wp_bio, wp_buf_at; [done|].
  replace (set_bio (lg_bio s) s) with s by (by destruct s). rewrite <- Hlen.
  set (b := b_blockno x) in *. set (g := fun x => with_flags (Z.lor (b_flags x) B_DIRTY) x).
  eapply wp_bind, (wp_search _ _ (fun k => c ← lh_blocks s !! k; if c =? b then Some (Z.of_nat k) else None)).
  - intros k Hk. destruct (lookup_lt_is_Some_2 _ _ Hk) as [c Hc]. rewrite Hc. simpl.
    destruct (lh_block_at_ok _ _ _ Hwf Hc) as (z & Hz & <- & _). by rewrite (bind_ok _ _ _ _ _ Hz).
  - intros k z Hk Hz _. destruct (lookup_lt_is_Some_2 _ _ Hk) as [c Hc]. rewrite Hc in Hz. simpl in Hz.
    destruct (Z.eqb_spec c b) as [Hcb|]; [|done]. rewrite Hcb in Hc. clear c Hcb.
    injection Hz as <-. simpl.
    destruct (lh_block_at_ok _ _ _ Hwf Hc) as (z & _ & Hzb & Hzk & Hkn).
    eapply wp_bind, wp_lh_block_set; [done|unfold LOGSIZE in *; lia|].
    eapply wp_bind. replace (Z.of_nat k =? _) with false by (symmetry; apply Z.eqb_neq; lia). apply wp_ret.
    eapply wp_bio, wp_buf_upd; [done|]. split_and!; [done|by split; simpl; rewrite ?length_insert|].
    unfold log_add. rewrite decide_True by (by eapply list_elem_of_lookup_2).
    unfold lh_blocks. simpl. rewrite take_insert_lt by done. rewrite list_fmap_insert.
    apply list_insert_id. rewrite u32_s32, u32_small by lia. exact Hc.
  - intros Hall. simpl. assert (b ∉ lh_blocks s) as Hni.
    { intros Hin. apply list_elem_of_lookup in Hin as (k & Hk). specialize (Hall k (lookup_lt_Some _ _ _ Hk)).
      rewrite Hk in Hall. simpl in Hall. by rewrite Z.eqb_refl in Hall. }
    rewrite Hlen, Z.max_r by lia. rewrite <- (Z2Nat.id (lh_n s)) at 1 by lia.
    eapply wp_bind, wp_lh_block_set; [done|unfold LOGSIZE in *; lia|].
    eapply wp_bind. rewrite Z.eqb_refl. apply wp_modify.
    eapply wp_bio, wp_buf_upd; [done|]. split_and!; [done| |].
    + split; simpl; [unfold LOGSIZE in *; lia|by rewrite length_insert].
    + unfold log_add. rewrite decide_False by done. unfold lh_blocks. simpl.
      replace (Z.to_nat (lh_n s + 1)) with (S (Z.to_nat (lh_n s))) by lia.
      rewrite (take_S_r _ _ (s32 b)), take_insert_ge, fmap_app by (lia || apply list_lookup_insert_eq; unfold LOGSIZE in *; lia).
      simpl. by rewrite u32_s32, u32_small by lia.
Qed.

Lemma commit_lh s s' : lh_wf s -> commit s = Ok tt s' -> lh_n s' = 0 /\ length (lh_block s') = length (lh_block s).
Proof.
  intros ((Hn & _) & _) Hc. unfold commit, clear_n in Hc. apply bind_inv in Hc as (n & s1 & [= <- <-] & Hc).
  destruct (Z.gtb_spec (lh_n s) 0) as [Hgt|Hle]; [|injection Hc as <-; split; [lia|done]].
  simpl in Hc. apply bind_inv in Hc as ([] & s1 & H1 & Hc).
  apply bind_inv in Hc as ([] & s2 & H2 & Hc). apply bind_inv in Hc as ([] & s3 & H3 & Hc).
  apply bind_inv in Hc as ([] & s4 & [= <-] & H4).
  assert (length (lh_block s3) = length (lh_block s)) as <-.
  { eapply (install_trans_keeps lh_block) in H3; [|done]. eapply (write_head_keeps lh_block) in H2; [|done].
    eapply (write_log_keeps lh_block) in H1; [|done]. congruence. }
  pose proof (write_head_keeps (fun s => (lh_n s, lh_block s)) ltac:(done) _ _ _ H4) as [= -> ->]. done.
Qed.

(** * Interleavings *)

(** An operation logs at most [cap] distinct blocks. *)
Context (cap : nat).

(** The critical sections of log.lock, and [commit], which runs when no operation
    is in progress; between them the buffer cache may change in any way. *)
Inductive lstep : logst D * ops -> logst D * ops -> Prop :=
| ls_begin p s s' o : o !! p = None -> begin_op s = Ok tt s' -> lstep (s, o) (s', <[p := ∅]> o)
| ls_bio t s o : lstep (s, o) (set_bio t s, o)
| ls_write p i x B s s' o :
    o !! p = Some B -> bufs (lg_bio s) !! i = Some x -> 0 <= b_blockno x < 2 ^ 32 ->
    (size ({[b_blockno x]} ∪ B) <= cap)%nat -> log_write i s = Ok tt s' ->
    lstep (s, o) (s', <[p := {[b_blockno x]} ∪ B]> o)
| ls_end p B do_commit s s' o :
    o !! p = Some B -> end_op_enter s = Ok do_commit s' -> lstep (s, o) (s', delete p o)
| ls_commit s s' s'' o :
    lg_committing s = 1 -> commit s = Ok tt s' -> end_op_leave s' = Ok tt s'' -> lstep (s, o) (s'', o).

(** The log after [initlog]: empty, no operation in progress. *)
Definition log_init s : Prop :=
  lh_n s = 0 /\ length (lh_block s) = Z.to_nat LOGSIZE /\ lg_outstanding s = 0 /\ lg_committing s = 0.

(** The blocks the operations in progress may still log. *)
Definition reserved (o : ops) : nat := map_fold (fun _ B r => (cap - size B) + r)%nat 0%nat o.

Lemma reserved_insert p B o :
  o !! p = None -> reserved (<[p := B]> o) = (cap - size B + reserved o)%nat.
Proof. intros Hp. unfold reserved. rewrite map_fold_insert_L; [done|lia|done]. Qed.

Lemma reserved_lookup p B o :
  o !! p = Some B -> reserved o = (cap - size B + reserved (delete p o))%nat.
Proof.
  intros Hp. rewrite <- (insert_delete_id o p B Hp) at 1. apply reserved_insert. apply lookup_delete_eq.
Qed.

Lemma reserved_bound o : (reserved o <= size o * cap)%nat.
Proof.
  induction o as [|p B o Hp IH] using map_ind; [done|].
  rewrite reserved_insert, map_size_insert_None by done. lia.
Qed.

(** The invariant of the reservation: the log and what may still come into it
    take at most 28 of the 29 log blocks that mkfs makes. *)
Record ops_inv (s : logst D) (o : ops) : Prop := {
  oi_wf : lh_wf s;
  oi_count : lg_outstanding s = Z.of_nat (size o);
  oi_commit : lg_committing s = 0 \/ (lg_committing s = 1 /\ o = ∅);
  oi_blocks : forall p B, o !! p = Some B -> (size B <= cap)%nat /\ forall b, b ∈ B -> b ∈ lh_blocks s;
  oi_room : lh_n s + Z.of_nat (reserved o) <= 28;
  oi_empty : lg_committing s = 0 -> o = ∅ -> lh_n s = 0;
  oi_size : 30 <= lg_size s;
}.

Lemma ops_inv_init s : log_init s -> 30 <= lg_size s -> ops_inv s ∅.
Proof.
  intros (Hn & Hl & Ho & Hc) Hs. split; try done.
  - unfold lh_wf, LOGSIZE in *. lia.
  - by left.
  - unfold reserved. rewrite map_fold_empty. lia.
Qed.

Context (Hcap : Z.of_nat cap < MAXOPBLOCKS).

Lemma ops_inv_begin p s s' o :
  ops_inv s o -> o !! p = None -> begin_op s = Ok tt s' -> ops_inv s' (<[p := ∅]> o).
Proof.
  intros [Hwf Hc Hcm Hb Hr He Hs] Hp. unfold begin_op.
  destruct (Z.eqb_spec (lg_committing s) 0) as [Hc0|]; [|done]. simpl.
  destruct (Z.gtb_spec (lh_n s + (lg_outstanding s + 1) * MAXOPBLOCKS) LOGSIZE) as [|Hle]; [done|].
  intros [= <-]. pose proof (reserved_bound o) as Hrb. unfold MAXOPBLOCKS, LOGSIZE in *. split; simpl; try done.
  - rewrite map_size_insert_None by done. lia.
  - by left.
  - intros q B Hq. apply lookup_insert_Some in Hq as [[<- <-]|[_ Hq]]; [|by apply (Hb q)].
    rewrite size_empty. split; [lia|set_solver].
  - rewrite reserved_insert, size_empty by done.
    destruct (decide (o = ∅)) as [->|Hne]; [rewrite (He Hc0 eq_refl); unfold reserved; rewrite map_fold_empty; lia|].
    assert (size o <> 0)%nat by (by rewrite map_size_non_empty_iff). nia.
  - intros _ Hi. by apply insert_non_empty in Hi.
Qed.

Lemma ops_inv_write p i x B s o :
  ops_inv s o -> o !! p = Some B -> bufs (lg_bio s) !! i = Some x -> 0 <= b_blockno x < 2 ^ 32 ->
  (size ({[b_blockno x]} ∪ B) <= cap)%nat ->
  wp (log_write i) s (fun _ s' => ops_inv s' (<[p := {[b_blockno x]} ∪ B]> o)).
Proof.
  intros [Hwf Hc Hcm Hb Hr He Hs] Hp Hx Hbr Hcp. destruct (Hb p B Hp) as [HB1 HB2].
  assert (lg_committing s = 0) as Hc0.
  { destruct Hcm as [?|[_ ->]]; [done|]. by rewrite lookup_empty in Hp. }
  assert (size o <> 0)%nat as Hso by (rewrite map_size_non_empty_iff; intros ->; by rewrite lookup_empty in Hp).
  eapply wp_mono; [apply (wp_log_write_run s i x); [done|done|done|unfold LOGSIZE; lia|lia|lia]|].
  intros [] s' (Hcnt & Hwf' & Hadd). unfold counters in Hcnt. injection Hcnt as Hsz Hout Hcom.
  set (b := b_blockno x) in *. assert (forall c, c ∈ lh_blocks s -> c ∈ lh_blocks s') as Hsub.
  { intros c Hin. rewrite Hadd. apply elem_of_log_add. by left. }
  pose proof (length_lh_blocks s Hwf) as Hl. pose proof (length_lh_blocks s' Hwf') as Hl'.
  pose proof (reserved_lookup p B o Hp) as Hres.
  assert (lookup_del : delete p o !! p = None) by apply lookup_delete_eq.
  split; [done| |by rewrite Hcom; left| | | |lia].
  - rewrite map_size_insert_Some by done. lia.
  - intros q B' Hq. apply lookup_insert_Some in Hq as [[<- <-]|[_ Hq]].
    + split; [done|]. intros c Hin. apply elem_of_union in Hin as [Hin|Hin]; [|auto].
      apply elem_of_singleton in Hin as ->. rewrite Hadd. apply elem_of_log_add. by right.
    + destruct (Hb q B' Hq). split; [done|]. auto.
  - rewrite <- insert_delete_eq, reserved_insert by done. rewrite Hadd in Hl'. unfold log_add in Hl'.
    destruct (decide (b ∈ B)) as [HbB|HbB].
    + replace ({[b]} ∪ B) with B by set_solver. rewrite decide_True in Hl' by auto. lia.
    + rewrite size_union, size_singleton in * by set_solver.
      case_decide; [lia|]. rewrite length_app in Hl'. simpl in Hl'. lia.
  - intros _ Hi. by apply insert_non_empty in Hi.
Qed.

Lemma ops_inv_end p B c s s' o :
  ops_inv s o -> o !! p = Some B -> end_op_enter s = Ok c s' -> ops_inv s' (delete p o).
Proof.
  intros [Hwf Hc Hcm Hb Hr He Hs] Hp.
  assert (lg_committing s = 0) as Hc0.
  { destruct Hcm as [?|[_ ->]]; [done|]. by rewrite lookup_empty in Hp. }
  assert (size (delete p o) = (size o - 1)%nat) as Hd by (rewrite map_size_delete, Hp; lia).
  assert (size o <> 0)%nat as Hso by (rewrite map_size_non_empty_iff; intros ->; by rewrite lookup_empty in Hp).
  pose proof (reserved_lookup p B o Hp) as Hres.
  unfold end_op_enter, mbind, M_bind, modify, gets. simpl. rewrite Hc0. simpl.
  destruct (Z.eqb_spec (lg_outstanding s - 1) 0) as [Hz|Hz]; intros [= <- <-]; (split; simpl; try done).
  all: try (rewrite Hd; lia); try lia.
  2, 3: intros q B' Hq; apply lookup_delete_Some in Hq as [_ Hq]; by apply (Hb q).
  - right. split; [done|]. apply map_size_empty_inv. lia.
  - intros _ Hemp. exfalso. apply Hz. rewrite <- map_size_empty_iff in Hemp. lia.
Qed.

Lemma ops_inv_step s o s' o' : ops_inv s o -> lstep (s, o) (s', o') -> ops_inv s' o'.
Proof.
  intros Hi Hs. inversion Hs; subst.
  - by eapply ops_inv_begin.
  - by destruct Hi.
  - pose proof (ops_inv_write _ _ _ _ _ _ Hi ltac:(eassumption) ltac:(eassumption) ltac:(eassumption)
      ltac:(eassumption)) as Hw. by eapply wp_Ok in Hw.
  - by eapply ops_inv_end.
  - destruct Hi as [Hwf Hc Hcm Hb Hr He Hsz]. destruct Hcm as [|[_ ->]]; [congruence|].
    match goal with H : commit _ = _ |- _ => pose proof (commit_keeps _ _ _ H) as Hk;
      apply commit_lh in H as [Hn Hl]; [|done] end.
    match goal with H : end_op_leave _ = _ |- _ => injection H as <- end.
    injection Hk as Hk1 Hk2 Hk3. split; simpl; try done; try lia.
    + unfold lh_wf. simpl. destruct Hwf as [_ ?]. rewrite Hn, Hl. done.
    + rewrite Hn. unfold reserved. rewrite map_fold_empty. lia.
Qed.

Lemma ops_inv_reach c c' : rtc lstep c c' -> ops_inv c.1 c.2 -> ops_inv c'.1 c'.2.
Proof.
  induction 1 as [|[s1 o1] [s2 o2] c' Hs _ IH]; [done|]. intros Hi. apply IH. by eapply ops_inv_step.
Qed.
End Ops.

(** C26: log space reservation. With a log of at least 30 blocks (mkfs makes 30) and
    operations that log at most 9 distinct blocks each, in every interleaving of
    any number of processes: [log_write] by an operation within that budget
    returns (none of its panics fires) and [end_op]'s "log.committing" panic does
    not fire. *)
Theorem log_reservation {D} `{DiskDriver D} cap (s0 s : logst D) (o : ops) p B :
  Z.of_nat cap < MAXOPBLOCKS -> log_init s0 -> 30 <= lg_size s0 ->
  rtc (lstep cap) (s0, ∅) (s, o) -> o !! p = Some B ->
  (forall i x, bufs (lg_bio s) !! i = Some x -> 0 <= b_blockno x < 2 ^ 32 ->
     (size ({[b_blockno x]} ∪ B) <= cap)%nat -> exists s', log_write i s = Ok tt s') /\
  exists do_commit s', end_op_enter s = Ok do_commit s'.
Proof.
  intros Hcap Hinit Hsz Hrtc Hp.
  assert (ops_inv cap s o) as Hi.
  { apply (ops_inv_reach cap Hcap (s0, ∅) (s, o) Hrtc). by apply ops_inv_init. }
  split.
  - intros i x Hx Hb Hc. pose proof (ops_inv_write cap Hcap _ _ _ _ _ _ Hi Hp Hx Hb Hc) as Hw.
    apply (proj1 (wp_ok _ _ _)) in Hw as ([] & s' & Hs & _). eauto.
  - destruct (oi_commit _ _ _ Hi) as [Hc0|[_ ->]]; [|by rewrite lookup_empty in Hp].
    unfold end_op_enter, mbind, M_bind, modify, gets. simpl. rewrite Hc0. simpl. case_match; eauto.
Qed.

(** ** Schedules by computation *)

Inductive action := Begin (p : Z) | Write (p b : Z).

Definition buf_of_block (b : Z) : buf := with_data [] (with_key 1 b zero_buf).

(** One action of a schedule; [Write p b] puts block [b] in a buffer first. *)
Definition run_action (cap : nat) (a : action) (c : logst memdisk * ops) : option (logst memdisk * ops) :=
  let (s, o) := c in
  match a with
  | Begin p =>
      match o !! p, begin_op s with
      | None, Ok _ s' => Some (s', <[p := ∅]> o)
      | _, _ => None
      end
  | Write p b =>
      B ← o !! p;
      if decide (0 <= b < 2 ^ 32 /\ (size ({[b]} ∪ B) <= cap)%nat) then
        match log_write 0 (set_bio (BState [buf_of_block b] (disk_of []) 1) s) with
        | Ok _ s' => Some (s', <[p := {[b]} ∪ B]> o)
        | _ => None
        end
      else None
  end.

Lemma run_action_steps cap a c c' : run_action cap a c = Some c' -> rtc (lstep cap) c c'.
Proof.
  destruct c as [s o], a as [p|p b]; simpl.
  - destruct (o !! p) eqn:Hp, (begin_op s) as [[] s'| | | |] eqn:Hb; try done. intros [= <-].
    by apply rtc_once, ls_begin.
  - intros Hr. apply bind_Some in Hr as (B & HB & Hr). case_decide as Hb; [|done]. destruct Hb as [Hb Hc].
    destruct (log_write _ _) as [[] s'| | | |] eqn:Hw; try done.
    injection Hr as <-. eapply rtc_l; [apply (ls_bio cap (BState [buf_of_block b] (disk_of []) 1))|].
    apply rtc_once. by apply (ls_write cap p 0 (buf_of_block b) B).
Qed.

Definition run_actions cap (l : list action) c : option (logst memdisk * ops) :=
  foldl (fun r a => r ≫= run_action cap a) (Some c) l.

Lemma run_actions_steps cap l c c' : run_actions cap l c = Some c' -> rtc (lstep cap) c c'.
Proof.
  unfold run_actions. revert c. induction l as [|a l IH]; intros c; simpl; [by intros [= <-]|].
  destruct (run_action cap a c) as [c1|] eqn:Ha.
  - intros Hl. etrans; [by eapply run_action_steps|by apply IH].
  - intros Hl. exfalso. clear -Hl. induction l; simpl in Hl; [done|auto].
Qed.

Definition empty_log (nlog : Z) : logst memdisk :=
  Logst (BState [] (disk_of []) 1) 2 nlog 0 0 1 0 (replicate 30 0).

(** Three operations that log 10, 10 and 9 blocks, and the tenth of the last. *)
Definition overcommit : list action :=
  [Begin 1; Begin 2; Begin 3] ++ (Write 1 <$> seqZ 100 10) ++ (Write 2 <$> seqZ 200 10) ++
  (Write 3 <$> seqZ 300 9).
Definition overcommit_check : bool :=
  match run_actions 10 overcommit (empty_log 30, ∅) with
  | Some (s, o) =>
      bool_decide (o !! 3 = Some (list_to_set (seqZ 300 9))) &&
      match log_write 0 (set_bio (BState [buf_of_block 310] (disk_of []) 1) s) with
      | Panic msg => String.eqb msg "too big a transaction"
      | _ => false
      end
  | None => false
  end.

(** the budget of the comment in param.h is one too many. When every operation
    logs at most MAXOPBLOCKS = 10 distinct blocks, there is an interleaving of
    three operations, on the log of 30 blocks that mkfs makes, after which
    [log_write] of one of them panics with "too big a transaction" although it
    stays within its 10 blocks: [begin_op] admits operations up to LOGSIZE = 30
    blocks, but one of the 30 blocks is the header and [log_write] accepts 29. *)
Theorem log_reservation_overcommits :
  exists (s : logst memdisk) (o : ops) p B x,
    rtc (lstep 10) (empty_log 30, ∅) (s, o) /\ o !! p = Some B /\
    bufs (lg_bio s) !! 0%nat = Some x /\ (size ({[b_blockno x]} ∪ B) <= 10)%nat /\
    log_write 0 s = Panic "too big a transaction".
Proof.
  assert (overcommit_check = true) as Hl by (by vm_compute). unfold overcommit_check in Hl.
  destruct (run_actions 10 overcommit (empty_log 30, ∅)) as [[s o]|] eqn:Hr; [|discriminate Hl].
  apply run_actions_steps in Hr. apply andb_true_iff in Hl as [Ho Hp]. apply bool_decide_eq_true in Ho.
  exists (set_bio (BState [buf_of_block 310] (disk_of []) 1) s), o, 3, (list_to_set (seqZ 300 9)), (buf_of_block 310).
  split_and!; [|exact Ho|done|by vm_compute|].
  - eapply rtc_r; [exact Hr|]. apply ls_bio.
  - destruct (log_write _ _) as [|msg| | |]; try done. by apply String.eqb_eq in Hp as ->.
Qed.

Lemma log_reservation_witness :
  exists s : logst memdisk,
    rtc (lstep 9) (empty_log 30, ∅) (s, {[1 := ∅]}) /\
    exists do_commit s', end_op_enter s = Ok do_commit s'.
Proof.
  exists (set_outstanding 1 (empty_log 30)).
  assert (rtc (lstep 9) (empty_log 30, ∅) (set_outstanding 1 (empty_log 30), {[1 := ∅]})) as Hr.
  { apply (run_actions_steps 9 [Begin 1]). by vm_compute. }
  split; [exact Hr|].
  refine (proj2 (log_reservation 9 (empty_log 30) _ _ 1 ∅ _ _ _ Hr _)); [done|by vm_compute|done|].
  apply lookup_insert_eq.
Defined.
