(* ===== verification/Txn.v ===== *)
(** The log as the file system uses it inside an operation.

    [txn l v d h hs L] is the state between [begin_op] and [end_op]: [v] is what
    readers see, [d] the disk (unchanged until the commit), [hs] the buffers held
    and [L] the blocks logged so far. *)

From S2P Require Import Prelude Bytes Sleeplock Buf Ring Memide Bio Cache Log.

Section Txn.
Context {D : Type} `{DiskDriver D} `{!DiskDriverLaws D}.
Context (V : Z -> Z -> Prop) (pid dev start nlog : Z).
Context (Hgeo : geometry V dev start nlog).
Implicit Types (l : logst D) (v d : blocks) (L : list Z).

Record txn l v d h hs L : Prop := {
  tx_header : header V dev start nlog l L;
  tx_rep : rep V pid (lg_bio l) v d h hs (pins dev L);
  tx_op : 1 <= lg_outstanding l;
}.

(** There is a buffer for one more block. *)
Definition free_buf (hs : list handle) L (b : Z) : Prop :=
  ((dev, b) ∉ hs.*2) /\ ((length L + length hs < NBUF)%nat \/ b ∈ L).

Lemma free_buf_room hs L b : free_buf hs L b -> room hs (pins dev L) dev b.
Proof.
  intros [Hn Hr]. split; [done|]. pose proof (size_pins dev L).
  destruct Hr as [Hr|Hr]; [left; lia|right; by apply elem_of_pins].
Qed.

Lemma txn_bio l v d h hs L v' hs' t :
  txn l v d h hs L -> rep V pid t v' d h hs' (pins dev L) -> txn (set_bio t l) v' d h hs' L.
Proof. intros [] Hr. split; [by apply header_bio|done|done]. Qed.

(** A block that is not held is logged, or as on disk. *)
Lemma txn_clean l v d h hs L b :
  txn l v d h hs L -> V dev b -> (dev, b) ∉ hs.*2 -> b ∈ L \/ v dev b = d dev b.
Proof.
  intros [_ Hr _] HV Hn. destruct (decide (b ∈ L)) as [|Hb]; [by left|right].
  eapply rep_clean; [exact Hr|done| |done]. by rewrite elem_of_pins.
Qed.

Lemma wpt_bread l v d h hs L b Q :
  txn l v d h hs L -> V dev b -> free_buf hs L b ->
  (forall i l', txn l' v d h ((i, (dev, b)) :: hs) L -> b ∈ L \/ v dev b = d dev b -> Q i l') ->
  wp (bio (bread dev b)) l Q.
Proof.
  intros Ht HV Hf HQ. pose proof (txn_clean _ _ _ _ _ _ _ Ht HV (proj1 Hf)) as Hcl.
  eapply wp_bio, wpc_bread; [apply Ht|done|by apply free_buf_room|].
  intros i t Hr. apply HQ; [by eapply txn_bio|done].
Qed.

Lemma wpt_bdata l v d h hs L i b Q :
  txn l v d h hs L -> (i, (dev, b)) ∈ hs -> Q (v dev b) l -> wp (bio (bdata i)) l Q.
Proof.
  intros Ht Hi HQ. eapply wp_bio, wpc_bdata; [apply Ht|done|]. by destruct l.
Qed.

Lemma wpt_bset l v d h hs L i b f Q :
  txn l v d h hs L -> (i, (dev, b)) ∈ hs -> block_ok (f (v dev b)) ->
  (forall l', txn l' (apply_write v (dev, b, f (v dev b))) d h hs L -> Q tt l') ->
  wp (bio (bset i f)) l Q.
Proof.
  intros Ht Hi Hok HQ. eapply wp_bio, wpc_bset; [apply Ht|done|done|].
  intros t Hr. apply HQ. by eapply txn_bio.
Qed.

Lemma wpt_log_write l v d h hs L i b Q :
  txn l v d h hs L -> (i, (dev, b)) ∈ hs -> home V dev start nlog b ->
  (length L < 29)%nat -> Z.of_nat (length L) < nlog - 1 ->
  (forall l', txn l' v d h hs (log_add L b) -> Q tt l') ->
  wp (log_write i) l Q.
Proof.
  intros Ht Hi Hb Hl Hn HQ. eapply wp_log_write; [apply Ht|apply Ht|done|done|apply Ht|lia|done|].
  intros t n bl Hh Hr. apply HQ. split; [done|done|apply Ht].
Qed.

Lemma wpt_brelse l v d h hs hs' L i b Q :
  txn l v d h hs L -> hs ≡ₚ (i, (dev, b)) :: hs' -> b ∈ L \/ v dev b = d dev b ->
  (forall l', txn l' v d h hs' L -> Q tt l') ->
  wp (bio (brelse i)) l Q.
Proof.
  intros Ht Hp Hcl HQ. eapply wp_bio, wpc_brelse; [apply Ht|done| |].
  { rewrite elem_of_pins. done. }
  intros t Hr. apply HQ. by eapply txn_bio.
Qed.

Lemma txn_ext l v v' d h hs L :
  txn l v d h hs L -> (forall dev b, V dev b -> v dev b = v' dev b) -> txn l v' d h hs L.
Proof. intros [] Hv. split; [done| |done]. by eapply rep_ext. Qed.

Lemma txn_block_ok l v d h hs L b : txn l v d h hs L -> V dev b -> block_ok (v dev b).
Proof. intros [_ Hr _]. by eapply rep_block_ok. Qed.

Lemma log_add_length L b : (length (log_add L b) <= S (length L))%nat.
Proof. unfold log_add. case_decide; [lia|]. rewrite length_app. simpl. lia. Qed.

Lemma log_add_in L b : b ∈ log_add L b.
Proof. apply elem_of_log_add. by right. Qed.

Lemma log_add_mono L b c : b ∈ L -> b ∈ log_add L c.
Proof. intros. apply elem_of_log_add. by left. Qed.
End Txn.

Create HintDb txn.
#[export] Hint Resolve log_add_in log_add_mono : txn.
