(* ===== verification/Inode.v ===== *)
(** The inode cache shared by the two file systems: [struct inode], the tables of
    block addresses, and [iget]/[idup] of fs.c.

    A [struct inode *] into the cache is an index into [fs_inode]; [ip->addrs]
    points into one of the two tables [xv6fs_addrs] and [ext2fs_addrs], and
    [ip->iops] at one of the two tables of operations. *)

From S2P Require Import Prelude Bytes Sleeplock Buf Ring Memide Bio Cache Log.

Definition NINODE : nat := 50.
Definition NDEV : Z := 10.
Definition ROOTINO : Z := 1.
Definition EXT2INO : Z := 2.
Definition T_DIR : Z := 1.
Definition T_FILE : Z := 2.
Definition T_DEV : Z := 3.

(** [&xv6fs_inode_ops] and [&ext2fs_inode_ops]. *)
Inductive inode_ops := XV6FS | EXT2FS.
#[export] Instance inode_ops_dec : EqDecision inode_ops.
Proof. solve_decision. Defined.

(** [&xv6fs_addrs[k]] and [&ext2fs_addrs[k]]. *)
Inductive addrs_ptr := XAddrs (k : nat) | EAddrs (k : nat).
#[export] Instance addrs_ptr_dec : EqDecision addrs_ptr.
Proof. solve_decision. Defined.

Record inode := Inode {
  i_dev : Z; i_inum : Z; i_ref : Z; i_lock : sleeplock; i_valid : Z;
  i_iops : option inode_ops;
  i_type : Z; i_major : Z; i_minor : Z; i_nlink : Z; i_size : Z;
  i_addrs : option addrs_ptr;
}.

Definition with_iref r ip := Inode (i_dev ip) (i_inum ip) r (i_lock ip) (i_valid ip) (i_iops ip)
  (i_type ip) (i_major ip) (i_minor ip) (i_nlink ip) (i_size ip) (i_addrs ip).
Definition with_ilock l ip := Inode (i_dev ip) (i_inum ip) (i_ref ip) l (i_valid ip) (i_iops ip)
  (i_type ip) (i_major ip) (i_minor ip) (i_nlink ip) (i_size ip) (i_addrs ip).
Definition with_valid v ip := Inode (i_dev ip) (i_inum ip) (i_ref ip) (i_lock ip) v (i_iops ip)
  (i_type ip) (i_major ip) (i_minor ip) (i_nlink ip) (i_size ip) (i_addrs ip).
Definition with_iops o ip := Inode (i_dev ip) (i_inum ip) (i_ref ip) (i_lock ip) (i_valid ip) o
  (i_type ip) (i_major ip) (i_minor ip) (i_nlink ip) (i_size ip) (i_addrs ip).
Definition with_type t ip := Inode (i_dev ip) (i_inum ip) (i_ref ip) (i_lock ip) (i_valid ip) (i_iops ip)
  t (i_major ip) (i_minor ip) (i_nlink ip) (i_size ip) (i_addrs ip).
Definition with_majmin ma mi ip := Inode (i_dev ip) (i_inum ip) (i_ref ip) (i_lock ip) (i_valid ip) (i_iops ip)
  (i_type ip) ma mi (i_nlink ip) (i_size ip) (i_addrs ip).
Definition with_nlink n ip := Inode (i_dev ip) (i_inum ip) (i_ref ip) (i_lock ip) (i_valid ip) (i_iops ip)
  (i_type ip) (i_major ip) (i_minor ip) n (i_size ip) (i_addrs ip).
Definition with_isize n ip := Inode (i_dev ip) (i_inum ip) (i_ref ip) (i_lock ip) (i_valid ip) (i_iops ip)
  (i_type ip) (i_major ip) (i_minor ip) (i_nlink ip) n (i_addrs ip).
Definition with_addrs a ip := Inode (i_dev ip) (i_inum ip) (i_ref ip) (i_lock ip) (i_valid ip) (i_iops ip)
  (i_type ip) (i_major ip) (i_minor ip) (i_nlink ip) (i_size ip) a.

(** [struct xv6fs_addrs] and [struct ext2fs_addrs]: 13 and 15 block numbers. *)
Record addrs := Addrs { a_busy : Z; a_blk : list Z }.
Definition with_busy b a := Addrs b (a_blk a).
Definition with_blk l a := Addrs (a_busy a) l.

(** The file-system globals: the log below, [sb], [ext2_sb] (its 1024 bytes),
    [icache] and the two tables of addresses. *)
Record fsst (D : Type) := Fsst {
  fs_log : logst D; fs_sb : superblock; fs_ext2_sb : list Z;
  fs_inode : list inode; fs_xaddrs : list addrs; fs_eaddrs : list addrs;
}.
Arguments Fsst {D}. Arguments fs_log {D}. Arguments fs_sb {D}. Arguments fs_ext2_sb {D}.
Arguments fs_inode {D}. Arguments fs_xaddrs {D}. Arguments fs_eaddrs {D}.

(** The tests of the search loops of [iget]. *)
Definition caches (dev inum : Z) (ip : inode) : Prop := 0 < i_ref ip /\ i_dev ip = dev /\ i_inum ip = inum.
#[export] Instance caches_dec dev inum ip : Decision (caches dev inum ip).
Proof. unfold caches. apply _. Defined.
Definition unused (ip : inode) : Prop := i_ref ip = 0.
#[export] Instance unused_dec ip : Decision (unused ip).
Proof. unfold unused. apply _. Defined.
Definition idle_addrs (a : addrs) : Prop := a_busy a = 0.
#[export] Instance idle_addrs_dec a : Decision (idle_addrs a).
Proof. unfold idle_addrs. apply _. Defined.

Section Inode.
Context {D : Type} `{DiskDriver D}.
Implicit Types s : fsst D.

Definition set_log l s : fsst D :=
  Fsst l (fs_sb s) (fs_ext2_sb s) (fs_inode s) (fs_xaddrs s) (fs_eaddrs s).
Definition set_sb sb s : fsst D :=
  Fsst (fs_log s) sb (fs_ext2_sb s) (fs_inode s) (fs_xaddrs s) (fs_eaddrs s).
Definition set_ext2_sb sb s : fsst D :=
  Fsst (fs_log s) (fs_sb s) sb (fs_inode s) (fs_xaddrs s) (fs_eaddrs s).
Definition set_inodes l s : fsst D :=
  Fsst (fs_log s) (fs_sb s) (fs_ext2_sb s) l (fs_xaddrs s) (fs_eaddrs s).
Definition set_xaddrs l s : fsst D :=
  Fsst (fs_log s) (fs_sb s) (fs_ext2_sb s) (fs_inode s) l (fs_eaddrs s).
Definition set_eaddrs l s : fsst D :=
  Fsst (fs_log s) (fs_sb s) (fs_ext2_sb s) (fs_inode s) (fs_xaddrs s) l.

(** Calls into log.c and bio.c. *)
Definition log {A} (m : M (logst D) A) : M (fsst D) A := zoom fs_log set_log m.
Definition dbuf {A} (m : M (bstate D) A) : M (fsst D) A := log (bio m).

(** [myproc()->pid], which the sleep locks record. *)
Definition fs_pid s : Z := me (lg_bio (fs_log s)).

(** [*ip] and the update of its fields. *)
Definition inode_at (ip : nat) : M (fsst D) inode := fun s => deref (fs_inode s !! ip) s.
Definition inode_upd (ip : nat) (f : inode -> inode) : M (fsst D) unit := fun s =>
  match fs_inode s !! ip with
  | Some x => Ok tt (set_inodes (<[ip := f x]> (fs_inode s)) s)
  | None => Fault
  end.

(** The address table behind [ip->addrs], for each of the two file systems. *)
Definition xaddrs_at (k : nat) : M (fsst D) addrs := fun s => deref (fs_xaddrs s !! k) s.
Definition xaddrs_upd (k : nat) (f : addrs -> addrs) : M (fsst D) unit :=
  a ← xaddrs_at k; modify (fun s => set_xaddrs (<[k := f a]> (fs_xaddrs s)) s).
Definition eaddrs_at (k : nat) : M (fsst D) addrs := fun s => deref (fs_eaddrs s !! k) s.
Definition eaddrs_upd (k : nat) (f : addrs -> addrs) : M (fsst D) unit :=
  a ← eaddrs_at k; modify (fun s => set_eaddrs (<[k := f a]> (fs_eaddrs s)) s).

(** [iget]. The second search loop reads [ext2fs_addrs[i]], not [[j]]: its
    counter [j] is 0 or NINODE when it ends. *)
Definition iget (dev inum : Z) : M (fsst D) nat :=
  inodes ← gets fs_inode;
  match list_find (caches dev inum) inodes with
  | Some (k, ip) => inode_upd k (with_iref (i_ref ip + 1)) ;; mret k
  | None =>
      let empty := fst <$> list_find unused inodes in
      xs ← gets fs_xaddrs;
      let i := default NINODE (fst <$> list_find idle_addrs xs) in
      a ← eaddrs_at i;
      let j := if decide (idle_addrs a) then 0%nat else NINODE in
      match empty with
      | None => panic "iget: no inodes"
      | Some k =>
          inode_upd k (fun ip => with_valid 0 (with_iref 1
            (Inode dev inum (i_ref ip) (i_lock ip) (i_valid ip) (i_iops ip) (i_type ip) (i_major ip)
               (i_minor ip) (i_nlink ip) (i_size ip) (i_addrs ip)))) ;;
          (if dev =? ROOTDEV then
             inode_upd k (fun ip => with_addrs (Some (XAddrs i)) (with_iops (Some XV6FS) ip)) ;;
             xaddrs_upd i (with_busy 1)
           else
             inode_upd k (fun ip => with_addrs (Some (EAddrs j)) (with_iops (Some EXT2FS) ip)) ;;
             eaddrs_upd j (with_busy 1)) ;;
          mret k
      end
  end.

Definition idup (ip : nat) : M (fsst D) nat :=
  inode_upd ip (fun x => with_iref (i_ref x + 1) x) ;; mret ip.

(** [ip->iops]: the table of operations to call through; null is a fault. *)
Definition ops_of (ip : nat) : M (fsst D) inode_ops := x ← inode_at ip; deref (i_iops x).

(** The index behind [ip->addrs] for the code of each file system. *)
Definition xptr (ip : nat) : M (fsst D) nat :=
  x ← inode_at ip; deref (match i_addrs x with Some (XAddrs k) => Some k | _ => None end).
Definition eptr (ip : nat) : M (fsst D) nat :=
  x ← inode_at ip; deref (match i_addrs x with Some (EAddrs k) => Some k | _ => None end).

(** The tables in the kernel's bss. *)
Definition inode_bss : inode := Inode 0 0 0 (Sleeplock 0 0) 0 None 0 0 0 0 0 None.
Definition fs_bss (l : logst D) : fsst D :=
  Fsst l (Superblock 0 0 0 0 0 0 0) (replicate 1024 0) (replicate NINODE inode_bss)
    (replicate NINODE (Addrs 0 (replicate 13 0))) (replicate NINODE (Addrs 0 (replicate 15 0))).
End Inode.
