(* ===== verification/Xv6fs.v ===== *)
(** The xv6 file system, first part of fs.c: blocks, on-disk inodes, and the
    operations of [xv6fs_inode_ops] that call no other operation through
    [ip->iops]. The rest is in Vfs.v. *)

From S2P Require Import Prelude Bytes Sleeplock Buf Ring Memide Bio Cache Log Inode.

Definition NDIRECT : nat := 12.
Definition NINDIRECT : Z := 256.
Definition MAXFILE : Z := Z.of_nat NDIRECT + NINDIRECT.
Definition BPB : Z := BSIZE * 8.
Definition IPB : Z := 16.
Definition IBLOCK (i : Z) (sb : superblock) : Z := u32 (i / IPB + sb_inodestart sb).
Definition BBLOCK (b : Z) (sb : superblock) : Z := u32 (b / BPB + sb_bmapstart sb).

(** [struct dinode], 64 bytes. *)
Record dinode := Dinode {
  d_type : Z; d_major : Z; d_minor : Z; d_nlink : Z; d_size : Z; d_addrs : list Z;
}.

Definition dinode_enc (di : dinode) : list Z :=
  le_enc 2 (d_type di) ++ le_enc 2 (d_major di) ++ le_enc 2 (d_minor di) ++ le_enc 2 (d_nlink di) ++
  le_enc 4 (d_size di) ++ mjoin (le_enc 4 <$> d_addrs di).
Definition dinode_dec (l : list Z) : dinode :=
  Dinode (s16 (get_le 2 0 l)) (s16 (get_le 2 2 l)) (s16 (get_le 2 4 l)) (s16 (get_le 2 6 l))
    (get_le 4 8 l) ((fun k => get_le 4 (12 + 4 * k) l) <$> seq 0 13).

(** Slot [inum % IPB] of an inode block. *)
Definition dinode_off (inum : Z) : nat := 64 * Z.to_nat (inum mod IPB).
Definition dinode_at (data : list Z) (inum : Z) : dinode := dinode_dec (slice (dinode_off inum) 64 data).
Definition dinode_set (data : list Z) (inum : Z) (di : dinode) : list Z :=
  splice (dinode_off inum) (dinode_enc di) data.

Section Xv6fs.
Context {D : Type} `{DiskDriver D}.
Implicit Types s : fsst D.

Definition xv6fs_bzero (dev bno : Z) : M (fsst D) unit :=
  bp ← dbuf (bread (u32 dev) (u32 bno));
  dbuf (bset bp (fun _ => zero_block)) ;;
  log (log_write bp) ;;
  dbuf (brelse bp).

Definition xv6fs_balloc (dev : Z) : M (fsst D) Z :=
  sb ← gets fs_sb;
  r ← for_each (range 0 ((sb_size sb + BPB - 1) / BPB)) (fun k =>
    let b := k * BPB in
    bp ← dbuf (bread dev (BBLOCK b sb));
    found ← for_each (range 0 (Z.min BPB (sb_size sb - b))) (fun bi =>
      data ← dbuf (bdata bp);
      let m := Z.shiftl 1 (bi mod 8) in
      if Z.land (rd data (bi / 8)) m =? 0 then
        dbuf (bset bp (fun data => <[Z.to_nat (bi / 8) := u8 (Z.lor (rd data (bi / 8)) m)]> data)) ;;
        log (log_write bp) ;;
        dbuf (brelse bp) ;;
        xv6fs_bzero dev (b + bi) ;;
        mret (Some (b + bi))
      else mret None);
    match found with
    | Some x => mret (Some x)
    | None => dbuf (brelse bp) ;; mret None
    end);
  match r with
  | Some b => mret b
  | None => panic "balloc: out of blocks"
  end.

Definition xv6fs_bfree (dev b : Z) : M (fsst D) unit :=
  sb ← gets fs_sb;
  bp ← dbuf (bread (u32 dev) (BBLOCK b sb));
  let bi := b mod BPB in
  let m := Z.shiftl 1 (bi mod 8) in
  data ← dbuf (bdata bp);
  guard_ok (Z.land (rd data (bi / 8)) m =? 0) (panic "freeing free block") ;;
  dbuf (bset bp (fun data => <[Z.to_nat (bi / 8) := u8 (Z.land (rd data (bi / 8)) (Z.lnot m))]> data)) ;;
  log (log_write bp) ;;
  dbuf (brelse bp).

(** [xv6fs_iinit]; the message it prints is not modelled. *)
Definition xv6fs_iinit (dev : Z) : M (fsst D) unit :=
  modify (fun s => set_inodes (with_ilock initsleeplock <$> fs_inode s) s) ;;
  sb ← log (xv6fs_readsb dev);
  modify (set_sb sb).

Definition xv6fs_ialloc (dev type : Z) : M (fsst D) nat :=
  sb ← gets fs_sb;
  r ← for_each (range 1 (sb_ninodes sb)) (fun inum =>
    bp ← dbuf (bread dev (IBLOCK inum sb));
    data ← dbuf (bdata bp);
    if d_type (dinode_at data inum) =? 0 then
      dbuf (bset bp (fun data => dinode_set data inum (Dinode type 0 0 0 0 (replicate 13 0)))) ;;
      log (log_write bp) ;;
      dbuf (brelse bp) ;;
      ip ← iget dev inum;
      mret (Some ip)
    else dbuf (brelse bp) ;; mret None);
  match r with
  | Some ip => mret ip
  | None => panic "ialloc: no inodes"
  end.

Definition xv6fs_iupdate (ip : nat) : M (fsst D) unit :=
  x ← inode_at ip;
  sb ← gets fs_sb;
  bp ← dbuf (bread (i_dev x) (IBLOCK (i_inum x) sb));
  k ← xptr ip;
  ad ← xaddrs_at k;
  dbuf (bset bp (fun data => dinode_set data (i_inum x)
    (Dinode (i_type x) (i_major x) (i_minor x) (i_nlink x) (i_size x) (a_blk ad)))) ;;
  log (log_write bp) ;;
  dbuf (brelse bp).

Definition inode_acquire (ip : nat) : M (fsst D) unit :=
  x ← inode_at ip;
  pid ← gets fs_pid;
  l ← acquiresleep pid (i_lock x);
  inode_upd ip (with_ilock l).
Definition inode_release (ip : nat) : M (fsst D) unit :=
  inode_upd ip (fun x => with_ilock (releasesleep (i_lock x)) x).

Definition xv6fs_ilock (ip : nat) : M (fsst D) unit :=
  x ← inode_at ip;
  guard_ok (i_ref x <? 1) (panic "ilock") ;;
  inode_acquire ip ;;
  x ← inode_at ip;
  guard_ok (i_valid x =? 0) (
    sb ← gets fs_sb;
    bp ← dbuf (bread (i_dev x) (IBLOCK (i_inum x) sb));
    data ← dbuf (bdata bp);
    let di := dinode_at data (i_inum x) in
    inode_upd ip (fun y => with_iops (Some XV6FS) (with_isize (d_size di) (with_nlink (d_nlink di)
      (with_majmin (d_major di) (d_minor di) (with_type (d_type di) y))))) ;;
    k ← xptr ip;
    xaddrs_upd k (with_blk (d_addrs di)) ;;
    dbuf (brelse bp) ;;
    inode_upd ip (with_valid 1) ;;
    guard_ok (d_type di =? 0) (panic "ilock: no type")).

Definition xv6fs_iunlock (ip : nat) : M (fsst D) unit :=
  x ← inode_at ip;
  pid ← gets fs_pid;
  guard_ok (negb (holdingsleep pid (i_lock x)) || (i_ref x <? 1)) (panic "iunlock") ;;
  inode_release ip.

Definition xv6fs_bmap (ip : nat) (bn : Z) : M (fsst D) Z :=
  x ← inode_at ip;
  k ← xptr ip;
  if bn <? Z.of_nat NDIRECT then
    ad ← xaddrs_at k;
    addr ← deref (a_blk ad !! Z.to_nat bn);
    if addr =? 0 then
      addr ← xv6fs_balloc (i_dev x);
      xaddrs_upd k (fun ad => with_blk (<[Z.to_nat bn := addr]> (a_blk ad)) ad) ;;
      mret addr
    else mret addr
  else
    let bn := bn - Z.of_nat NDIRECT in
    if bn <? NINDIRECT then
      ad ← xaddrs_at k;
      addr ← deref (a_blk ad !! NDIRECT);
      addr ← (if addr =? 0 then
                addr ← xv6fs_balloc (i_dev x);
                xaddrs_upd k (fun ad => with_blk (<[NDIRECT := addr]> (a_blk ad)) ad) ;;
                mret addr
              else mret addr);
      bp ← dbuf (bread (i_dev x) addr);
      data ← dbuf (bdata bp);
      let addr := word_at data (Z.to_nat bn) in
      addr ← (if addr =? 0 then
                addr ← xv6fs_balloc (i_dev x);
                dbuf (bset bp (fun data => set_word data (Z.to_nat bn) addr)) ;;
                log (log_write bp) ;;
                mret addr
              else mret addr);
      dbuf (brelse bp) ;;
      mret addr
    else panic "bmap: out of range".

(** [struct stat]. *)
Record stat := Stat { st_type : Z; st_dev : Z; st_ino : Z; st_nlink : Z; st_size : Z }.
Definition xv6fs_stati (ip : nat) : M (fsst D) stat :=
  x ← inode_at ip;
  mret (Stat (i_type x) (s32 (i_dev x)) (i_inum x) (i_nlink x) (i_size x)).

(** The devices behind [devsw[].read] and [devsw[].write]; [None] is a null
    function pointer. [read ip n] gives the count it returns and the bytes it
    stores at [dst]. *)
Context (devsw_read : Z -> option (nat -> Z -> M (fsst D) (Z * list Z))).
Context (devsw_write : Z -> option (nat -> list Z -> Z -> M (fsst D) Z)).

(** The copy loop of [readi]: [left = n - tot]. *)
Fixpoint xv6fs_read_loop (fuel : nat) (ip : nat) (off left : Z) : M (fsst D) (list Z) :=
  match fuel with
  | O => nofuel
  | S fuel =>
      if left <=? 0 then mret []
      else
        x ← inode_at ip;
        addr ← xv6fs_bmap ip (off / BSIZE);
        bp ← dbuf (bread (i_dev x) addr);
        let m := Z.min left (BSIZE - off mod BSIZE) in
        data ← dbuf (bdata bp);
        dbuf (brelse bp) ;;
        rest ← xv6fs_read_loop fuel ip (off + m) (left - m);
        mret (slice (Z.to_nat (off mod BSIZE)) (Z.to_nat m) data ++ rest)
  end.

(** Rounds enough for [n] bytes from any offset. *)
Definition rounds (n : Z) : nat := Z.to_nat (n / BSIZE) + 3.

Definition xv6fs_readi (ip : nat) (off n : Z) : M (fsst D) (Z * list Z) :=
  x ← inode_at ip;
  if i_type x =? T_DEV then
    if (i_major x <? 0) || (NDEV <=? i_major x) then mret (-1, [])
    else match devsw_read (i_major x) with
         | None => mret (-1, [])
         | Some read => read ip (s32 n)
         end
  else if (i_size x <? off) || (u32 (off + n) <? off) then mret (-1, [])
  else
    let n := if i_size x <? off + n then i_size x - off else n in
    bytes ← xv6fs_read_loop (rounds n) ip off n;
    mret (s32 n, bytes).

(** The copy loop of [writei]. *)
Fixpoint xv6fs_write_loop (fuel : nat) (ip : nat) (src : list Z) (off left : Z) : M (fsst D) Z :=
  match fuel with
  | O => nofuel
  | S fuel =>
      if left <=? 0 then mret off
      else
        x ← inode_at ip;
        addr ← xv6fs_bmap ip (off / BSIZE);
        bp ← dbuf (bread (i_dev x) addr);
        let m := Z.min left (BSIZE - off mod BSIZE) in
        dbuf (bset bp (splice (Z.to_nat (off mod BSIZE)) (take (Z.to_nat m) src))) ;;
        log (log_write bp) ;;
        dbuf (brelse bp) ;;
        xv6fs_write_loop fuel ip (drop (Z.to_nat m) src) (off + m) (left - m)
  end.
End Xv6fs.
