(* ===== verification/Example.v ===== *)
(** A small file-system image: the concrete disk on which the theorems about the
    file system are applied. 64 blocks: super block, a log of 30 blocks at 2, inode
    blocks 32 and 33, bitmap 34, data from 35 on. Inode 1 is the root directory with
    entries for itself, its parent and the file [f], which is inode 2 and holds
    five bytes. *)

From S2P Require Import Prelude Bytes Sleeplock Buf Ring Memide Bio Cache Log Txn Inode Xv6fs.

Definition img_sb : superblock := Superblock 64 29 16 30 2 32 34.

(** A block that starts with the given bytes. *)
Definition pad_block (l : list Z) : list Z := l ++ replicate (1024 - length l) 0.

Definition img_root : dinode := Dinode T_DIR 0 0 1 48 (35 :: replicate 12 0).
Definition img_file : dinode := Dinode T_FILE 0 0 1 5 (36 :: replicate 12 0).
Definition img_dirent (inum : Z) (name : list Z) : list Z :=
  le_enc 2 inum ++ name ++ replicate (14 - length name) 0.

Definition img_inodes : list Z :=
  pad_block (replicate 64 0 ++ dinode_enc img_root ++ dinode_enc img_file).
Definition img_bitmap : list Z := pad_block [255; 255; 255; 255; 31].
Definition img_dir : list Z := pad_block (img_dirent 1 [46] ++ img_dirent 1 [46; 46] ++ img_dirent 2 [102]).
Definition img_data : list Z := pad_block [104; 101; 108; 108; 111].

Definition img_blks : list (list Z) :=
  [zero_block; sb_block [64; 29; 16; 30; 2; 32; 34]] ++ replicate 30 zero_block ++
  [img_inodes; zero_block; img_bitmap; img_dir; img_data] ++ replicate 27 zero_block.
Definition img : memdisk := disk_of img_blks.

Definition block_okb (l : list Z) : bool := (length l =? 1024)%nat && bytes_okb l.
Lemma block_okb_spec l : block_okb l = true -> block_ok l.
Proof.
  unfold block_okb. rewrite andb_true_iff, Nat.eqb_eq. intros [? ?]. split; [done|by apply bytes_okb_spec].
Qed.

Lemma img_blocks_ok : Forall block_ok img_blks.
Proof.
  assert (forallb block_okb img_blks = true) as Hb by (by vm_compute).
  apply Forall_forall. intros b Hin. apply block_okb_spec. rewrite forallb_forall in Hb. apply Hb.
  by apply list_elem_of_In.
Qed.

Lemma img_wf : dwf img.
Proof. apply disk_of_wf; [apply img_blocks_ok|done]. Qed.

Lemma img_at k b : img_blks !! k = Some b -> dblock img 1 (Z.of_nat k) = b.
Proof. apply md_load_disk_of, img_blocks_ok. Qed.

Lemma img_geometry : geometry (dvalid img) 1 2 30.
Proof. split; try lia. intros b Hb. split; [done|]. simpl. lia. Qed.

Lemma img_recovers : recovers_to (dvalid img) 1 2 30 (dblock img) (dblock img 1).
Proof.
  apply recovers_empty; [apply img_geometry| |done].
  assert (dblock img 1 2 = zero_block) as -> by exact (img_at 2 _ eq_refl).
  split_and!; [apply zero_block_ok|by vm_compute|done].
Qed.

Lemma img_sb_locates : sb_locates 2 30 (dblock img 1 1).
Proof.
  assert (dblock img 1 1 = sb_block [64; 29; 16; 30; 2; 32; 34]) as -> by exact (img_at 1 _ eq_refl).
  by vm_compute.
Qed.

Lemma img_home k : (32 <= k < 64)%nat \/ k = 1%nat -> home (dvalid img) 1 2 30 (Z.of_nat k).
Proof. intros Hk. split; [lia|]. split; [|lia]. split; [done|]. simpl. lia. Qed.

(** The contents of the image, as a map of blocks. *)
Definition img_map (b : Z) : list Z := default zero_block (img_blks !! Z.to_nat b).

Lemma img_map_at b : 0 <= b < 64 -> dblock img 1 b = img_map b.
Proof.
  intros Hb. destruct (lookup_lt_is_Some_2 img_blks (Z.to_nat b)) as [x Hx].
  { change (length img_blks) with 64%nat. lia. }
  unfold img_map. rewrite Hx. rewrite <- (img_at _ _ Hx), Z2Nat.id by lia. done.
Qed.

(** After boot and [begin_op]: a transaction with nothing logged, in which every
    home block reads as in the image. *)
Lemma img_begin :
  exists (l0 l : logst memdisk) (v : blocks) h, boot_log 1 (log_bss img 7) = Ok tt l0 /\
    begin_op l0 = Ok tt l /\ txn (dvalid img) 7 1 2 30 l v v h [] [] /\
    forall b, 32 <= b < 64 \/ b = 1 -> v 1 b = img_map b.
Proof.
  assert (dvalid img 1 1) as HV1 by (by split).
  destruct (boot_recovers (D := memdisk) (dvalid img) 7 1 2 30 img_geometry img _ _ img_wf
    (fun _ _ => iff_refl _) (fun _ _ _ => eq_refl) HV1 img_sb_locates img_recovers)
    as (s & v & Hb & [Hh [Ho Hc] [h Hr] Hd] & Hv).
  exists s, (set_outstanding (lg_outstanding s + 1) s), v, h. split; [exact Hb|]. clear Hb.
  split; [|split].
  - eapply begin_op_ok; [exact Hh|done|]. rewrite Ho. done.
  - split; [by destruct Hh|done|]. simpl. lia.
  - intros b Hbb. rewrite <- img_map_at by lia. apply Hv.
    replace b with (Z.of_nat (Z.to_nat b)) by lia. apply img_home. lia.
Qed.
