(* ===== verification/Blocks.v ===== *)
(** The block allocator of the xv6 file system, [xv6fs_bzero], [xv6fs_balloc] and
    [xv6fs_bfree] of fs.c, inside a transaction. *)

From S2P Require Import Prelude Bytes Sleeplock Buf Ring Memide Bio Cache Log Txn Inode Xv6fs Example.

(** The layout of the disk that mkfs makes, from the super block. *)
Record layout (V : Z -> Z -> Prop) (sb : superblock) : Prop := {
  la_log : 1 < sb_logstart sb /\ 30 <= sb_nlog sb;
  la_inodes : sb_logstart sb + sb_nlog sb <= sb_inodestart sb /\ 0 <= sb_ninodes sb;
  la_bmap : sb_inodestart sb + sb_ninodes sb / IPB + 1 <= sb_bmapstart sb;
  la_data : sb_bmapstart sb + (sb_size sb - 1) / BPB + 1 <= sb_size sb < 2 ^ 31;
  la_valid : forall b, 0 <= b < sb_size sb -> V ROOTDEV b;
}.

Definition datastart (sb : superblock) : Z := sb_bmapstart sb + (sb_size sb - 1) / BPB + 1.

Section Blocks.
Context {D : Type} `{DiskDriver D} `{!DiskDriverLaws D}.
Context (V : Z -> Z -> Prop) (pid : Z) (sb : superblock) (Hla : layout V sb).
Implicit Types (s : fsst D) (v d : blocks) (L : list Z) (hs : list handle).

Abbreviation dev := ROOTDEV.
Abbreviation fs_home := (home V dev (sb_logstart sb) (sb_nlog sb)).

(** The file system inside a transaction. *)
Definition ftxn s v d h hs L : Prop :=
  fs_sb s = sb /\ txn V pid dev (sb_logstart sb) (sb_nlog sb) (fs_log s) v d h hs L.

Lemma layout_geometry : geometry V dev (sb_logstart sb) (sb_nlog sb).
Proof.
  destruct Hla. unfold BPB, BSIZE, IPB in *. split.
  - lia.
  - elia.
  - done.
  - intros b Hb. apply la_valid0. elia.
Qed.

Lemma fs_home_range b : sb_inodestart sb <= b < sb_size sb -> fs_home b.
Proof. destruct Hla. intros Hb. split; [lia|]. split; [apply la_valid0; lia|lia]. Qed.

Lemma wp_log {A} (m : M (logst D) A) s Q :
  wp m (fs_log s) (fun a l => Q a (set_log l s)) -> wp (log m) s Q.
Proof. apply wp_zoom. Qed.

Lemma set_log_id s : set_log (fs_log s) s = s.
Proof. by destruct s. Qed.

(** ** The rules of Txn.v at this level *)

Lemma wpf_bread s v d h hs L b Q :
  ftxn s v d h hs L -> V dev b -> free_buf dev hs L b ->
  (forall i l, ftxn (set_log l s) v d h ((i, (dev, b)) :: hs) L -> b ∈ L \/ v dev b = d dev b ->
     Q i (set_log l s)) ->
  wp (dbuf (bread dev b)) s Q.
Proof.
  intros [Hsb Ht] HV Hf HQ. eapply wp_log, wpt_bread; [exact Ht|done|done|].
  intros i l Hl Hc. by apply HQ.
Qed.

Lemma wpf_bdata s v d h hs L i b Q :
  ftxn s v d h hs L -> (i, (dev, b)) ∈ hs -> Q (v dev b) s -> wp (dbuf (bdata i)) s Q.
Proof.
  intros [Hsb Ht] Hi HQ. eapply wp_log, wpt_bdata; [exact Ht|done|]. by rewrite set_log_id.
Qed.

Lemma wpf_bset s v d h hs L i b f Q :
  ftxn s v d h hs L -> (i, (dev, b)) ∈ hs -> block_ok (f (v dev b)) ->
  (forall l, ftxn (set_log l s) (apply_write v (dev, b, f (v dev b))) d h hs L -> Q tt (set_log l s)) ->
  wp (dbuf (bset i f)) s Q.
Proof.
  intros [Hsb Ht] Hi Hok HQ. eapply wp_log, wpt_bset; [exact Ht|done|done|].
  intros l Hl. by apply HQ.
Qed.

Lemma wpf_log_write s v d h hs L i b Q :
  ftxn s v d h hs L -> (i, (dev, b)) ∈ hs -> fs_home b -> (length L < 29)%nat ->
  (forall l, ftxn (set_log l s) v d h hs (log_add L b) -> Q tt (set_log l s)) ->
  wp (log (log_write i)) s Q.
Proof.
  intros [Hsb Ht] Hi Hb Hl HQ. eapply wp_log, wpt_log_write; [exact Ht|done|done|done| |].
  - destruct Hla. lia.
  - intros l Hl'. by apply HQ.
Qed.

Lemma wpf_brelse s v d h hs hs' L i b Q :
  ftxn s v d h hs L -> hs ≡ₚ (i, (dev, b)) :: hs' -> b ∈ L \/ v dev b = d dev b ->
  (forall l, ftxn (set_log l s) v d h hs' L -> Q tt (set_log l s)) ->
  wp (dbuf (brelse i)) s Q.
Proof.
  intros [Hsb Ht] Hp Hc HQ. eapply wp_log, wpt_brelse; [exact Ht|done|done|].
  intros l Hl. by apply HQ.
Qed.

Lemma ftxn_ext s v v' d h hs L :
  ftxn s v d h hs L -> (forall dev b, V dev b -> v dev b = v' dev b) -> ftxn s v' d h hs L.
Proof. intros [? ?] Hv. split; [done|]. by eapply txn_ext. Qed.

Lemma ftxn_block_ok s v d h hs L b : ftxn s v d h hs L -> V dev b -> block_ok (v dev b).
Proof. intros [_ Ht]. by eapply txn_block_ok. Qed.

(** ** The bitmap *)

(** The block of the bitmap with the bit of block [b], and that bit. *)
Definition bitmap_block (b : Z) : Z := b / BPB + sb_bmapstart sb.
Definition in_use v (b : Z) : bool := bit (v dev (bitmap_block b)) (b mod BPB).

Lemma bitmap_block_range b : 0 <= b < sb_size sb -> sb_inodestart sb <= bitmap_block b < datastart sb.
Proof. destruct Hla. unfold bitmap_block, datastart, BPB, BSIZE, IPB in *. elia. Qed.

Lemma datastart_size : datastart sb <= sb_size sb.
Proof. destruct Hla. unfold datastart. lia. Qed.

Lemma BBLOCK_eq b : 0 <= b < sb_size sb -> BBLOCK b sb = bitmap_block b.
Proof.
  intros Hb. pose proof (bitmap_block_range b Hb). pose proof datastart_size. destruct Hla.
  unfold BBLOCK, bitmap_block in *. apply u32_small. lia.
Qed.

(** ** Zeroing *)

Lemma wp_bzero s v d h hs L b Q :
  ftxn s v d h hs L -> fs_home b -> free_buf dev hs L b -> (length L < 29)%nat ->
  (forall l, ftxn (set_log l s) (apply_write v (dev, b, zero_block)) d h hs (log_add L b) ->
     Q tt (set_log l s)) ->
  wp (xv6fs_bzero dev b) s Q.
Proof.
  intros Ht Hb Hf Hl HQ. pose proof Hb as (_ & HV & _). unfold xv6fs_bzero.
  rewrite (u32_home _ _ _ _ _ Hb). change (u32 dev) with dev.
  eapply wp_bind, wpf_bread; [exact Ht|done|done|]. intros i l1 H1 _.
  eapply wp_bind, wpf_bset; [exact H1|held|apply zero_block_ok|]. intros l2 H2.
  eapply wp_bind, wpf_log_write; [exact H2|held|done|done|]. intros l3 H3.
  eapply wpf_brelse; [exact H3|take_out|left; apply log_add_in|]. intros l4 H4. by apply HQ.
Qed.

(** ** Allocating *)

(** Free blocks are data blocks nobody holds, and no bitmap block is held. *)
Definition bitmap_ok v hs : Prop :=
  forall b, 0 <= b < sb_size sb ->
    ((dev, bitmap_block b) ∉ hs.*2) /\
    (in_use v b = false -> datastart sb <= b /\ ((dev, b) ∉ hs.*2)).

(** The contents after block [b] is allocated. *)
Definition allocated v (b : Z) : blocks :=
  apply_write (apply_write v (dev, bitmap_block b, set_bit (v dev (bitmap_block b)) (b mod BPB)))
    (dev, b, zero_block).

Lemma test_bit data bi : (Z.land (rd data (bi / 8)) (Z.shiftl 1 (bi mod 8)) =? 0) = negb (bit data bi).
Proof. apply land_bmask. Qed.

Lemma wp_balloc s v d h hs L Q :
  ftxn s v d h hs L -> bitmap_ok v hs -> (length L < 28)%nat -> (length L + length hs < 28)%nat ->
  (exists b, 0 <= b < sb_size sb /\ in_use v b = false) ->
  (forall b l, datastart sb <= b < sb_size sb -> in_use v b = false ->
     (forall c, 0 <= c < b -> in_use v c = true) ->
     ftxn (set_log l s) (allocated v b) d h hs (log_add (log_add L (bitmap_block b)) b) ->
     Q b (set_log l s)) ->
  wp (xv6fs_balloc dev) s Q.
Proof.
  intros Ht Hbm Hl Hlh (b0 & Hb0 & Hfree0) HQ. pose proof datastart_size as Hds. pose proof Ht as [Hsb _].
  unfold xv6fs_balloc. eapply wp_bind, wp_gets. rewrite Hsb.
  set (n := (sb_size sb + BPB - 1) / BPB).
  assert (0 <= n /\ sb_size sb <= n * 8192 < sb_size sb + 8192) as [Hn0 Hn]
    by (unfold n, BPB, BSIZE; simpl; elia).
  clearbody n. change BPB with 8192 in *.
  rewrite <- (Z2Nat.id n Hn0).
  eapply wp_bind, (wp_for_each _ _ (fun k s' => exists l, s' = set_log l s /\ ftxn s' v d h hs L /\
    forall c, 0 <= c < Z.of_nat k * 8192 -> c < sb_size sb -> in_use v c = true)).
  { exists (fs_log s). rewrite set_log_id. split_and!; [done|done|]. lia. }
  2:{ intros s' (l & -> & _ & Hall). exfalso. rewrite Z2Nat.id in Hall by done.
      rewrite Hall in Hfree0 by lia. done. }
  intros k s' Hk (l & -> & Hl' & Hall). assert (Z.of_nat k * 8192 < sb_size sb) as Hkb.
  { lia. }
  pose proof (bitmap_block_range (Z.of_nat k * 8192) ltac:(lia)) as Hbr.
  rewrite BBLOCK_eq by lia. set (bb := bitmap_block (Z.of_nat k * 8192)) in *.
  assert (fs_home bb) as Hbbh by (apply fs_home_range; lia).
  eapply wp_bind, wpf_bread; [exact Hl'|apply Hbbh| |].
  { split; [apply (Hbm (Z.of_nat k * 8192)); lia|left; unfold NBUF; lia]. }
  intros bp l1 H1 Hclean. set (m := Z.min 8192 (sb_size sb - Z.of_nat k * 8192)).
  assert (0 <= m <= 8192 /\ Z.of_nat k * 8192 + m <= sb_size sb) as Hm by (unfold m; lia). rewrite <- (Z2Nat.id m) by lia.
  assert (forall bi, 0 <= bi < m -> bitmap_block (Z.of_nat k * 8192 + bi) = bb /\
    in_use v (Z.of_nat k * 8192 + bi) = bit (v dev bb) bi) as Hbi.
  { intros bi Hbi. unfold in_use, bb, bitmap_block. change BPB with 8192.
    replace ((Z.of_nat k * 8192 + bi) / 8192) with (Z.of_nat k * 8192 / 8192) by elia.
    replace ((Z.of_nat k * 8192 + bi) mod 8192) with bi by elia. done. }
  eapply wp_bind, (wp_for_each _ _ (fun j s' => s' = set_log l1 s /\
    forall c, 0 <= c < Z.of_nat k * 8192 + Z.of_nat j -> c < sb_size sb -> in_use v c = true)).
  { split; [done|]. intros c Hc. apply Hall. lia. }
  2:{ intros s' (-> & Hall'). eapply wp_bind, wpf_brelse; [exact H1|take_out|done|]. intros l2 H2.
      apply wp_ret. exists l2. split_and!; [done|done|]. intros c Hc Hcs. apply Hall'; [|done].
      destruct (decide (m = 8192)); unfold m in *; lia. }
  intros j s' Hj (-> & Hall'). destruct (Hbi (Z.of_nat j) ltac:(lia)) as [Hbbj Huse].
  eapply wp_bind, wpf_bdata; [exact H1|held|]. rewrite test_bit, <- Huse.
  destruct (in_use v (Z.of_nat k * 8192 + Z.of_nat j)) eqn:Hu; simpl.
  { apply wp_ret. split; [done|]. intros c Hc Hcs.
    destruct (decide (c = Z.of_nat k * 8192 + Z.of_nat j)) as [->|]; [done|]. apply Hall'; lia. }
  set (b := Z.of_nat k * 8192 + Z.of_nat j) in *.
  destruct (Hbm b ltac:(lia)) as [Hbmh Hdata]. destruct (Hdata Hu) as [Hds' Hnh].
  assert (block_ok (v dev bb)) as [Hbl Hbo] by (eapply ftxn_block_ok; [exact H1|apply Hbbh]).
  change (fun data => <[_ := _]> data) with (fun data => set_bit data (Z.of_nat j)).
  eapply wp_bind, wpf_bset; [exact H1|held|split; [by rewrite length_set_bit|by apply set_bit_ok]|].
  intros l2 H2. eapply wp_bind, wpf_log_write; [exact H2|held|done|lia|]. intros l3 H3.
  eapply wp_bind, wpf_brelse; [exact H3|take_out|left; apply log_add_in|]. intros l4 H4.
  pose proof (log_add_length L bb) as Hal.
  eapply wp_bind, wp_bzero; [exact H4|apply fs_home_range; lia| |lia|].
  { split; [done|left; unfold NBUF; lia]. }
  intros l5 H5. apply wp_ret, wp_ret, (HQ b); [lia|done|intros c Hc; apply Hall'; lia|].
  assert (b mod 8192 = Z.of_nat j) as Hmod by (unfold b; elia).
  unfold allocated. change BPB with 8192. rewrite Hbbj, Hmod. exact H5.
Qed.

(** ** Freeing *)

Definition freed v (b : Z) : blocks :=
  apply_write v (dev, bitmap_block b, clear_bit (v dev (bitmap_block b)) (b mod BPB)).

Lemma wp_bfree s v d h hs L b Q :
  ftxn s v d h hs L -> 0 <= b < sb_size sb -> in_use v b = true -> free_buf dev hs L (bitmap_block b) ->
  (length L < 29)%nat ->
  (forall l, ftxn (set_log l s) (freed v b) d h hs (log_add L (bitmap_block b)) -> Q tt (set_log l s)) ->
  wp (xv6fs_bfree dev b) s Q.
Proof.
  intros Ht Hb Hu Hf Hl HQ. pose proof Ht as [Hsb _]. unfold xv6fs_bfree. eapply wp_bind, wp_gets.
  rewrite Hsb, BBLOCK_eq by done. change (u32 dev) with dev.
  pose proof (bitmap_block_range b Hb) as Hbr. pose proof datastart_size as Hds.
  assert (fs_home (bitmap_block b)) as Hbbh by (apply fs_home_range; lia).
  eapply wp_bind, wpf_bread; [exact Ht|apply Hbbh|done|]. intros bp l1 H1 _.
  eapply wp_bind, wpf_bdata; [exact H1|held|]. rewrite test_bit.
  change (bit (v dev (bitmap_block b)) (b mod BPB)) with (in_use v b). rewrite Hu.
  eapply wp_bind, wp_ret.
  change (fun data => <[_ := _]> data) with (fun data => clear_bit data (b mod BPB)).
  assert (block_ok (v dev (bitmap_block b))) as [Hbl Hbo] by (eapply ftxn_block_ok; [exact H1|apply Hbbh]).
  eapply wp_bind, wpf_bset; [exact H1|held|split; [by rewrite length_clear_bit|by apply clear_bit_ok]|].
  intros l2 H2. eapply wp_bind, wpf_log_write; [exact H2|held|done|done|]. intros l3 H3.
  eapply wpf_brelse; [exact H3|take_out|left; apply log_add_in|]. intros l4 H4. by apply HQ.
Qed.

(** Freeing a block that is free. *)
Lemma bfree_panics s v d h hs L b :
  ftxn s v d h hs L -> 0 <= b < sb_size sb -> in_use v b = false -> free_buf dev hs L (bitmap_block b) ->
  xv6fs_bfree dev b s = Panic "freeing free block".
Proof.
  intros Ht Hb Hu Hf. pose proof Ht as [Hsb _]. unfold xv6fs_bfree. apply wp_panics, wp_gets.
  rewrite Hsb, BBLOCK_eq by done. change (u32 dev) with dev.
  pose proof (bitmap_block_range b Hb) as Hbr. pose proof datastart_size as Hds.
  assert (fs_home (bitmap_block b)) as Hbbh by (apply fs_home_range; lia).
  eapply wp_panics, wpf_bread; [exact Ht|apply Hbbh|done|]. intros bp l1 H1 _.
  eapply wp_panics, wpf_bdata; [exact H1|held|]. rewrite test_bit.
  change (bit (v dev (bitmap_block b)) (b mod BPB)) with (in_use v b). by rewrite Hu.
Qed.

(** ** What allocating and freeing do to the bitmap *)

Lemma in_use_write v c b data :
  (dev, bitmap_block c) <> (dev, b) -> in_use (apply_write v (dev, b, data)) c = in_use v c.
Proof. intros Hne. unfold in_use. by rewrite apply_write_ne. Qed.

Lemma in_use_set v b c :
  0 <= b < sb_size sb -> 0 <= c < sb_size sb -> block_ok (v dev (bitmap_block b)) ->
  in_use (apply_write v (dev, bitmap_block b, set_bit (v dev (bitmap_block b)) (b mod BPB))) c =
  (if decide (c = b) then true else in_use v c).
Proof.
  intros Hb Hc [Hlen _]. unfold in_use. destruct (decide (bitmap_block c = bitmap_block b)) as [He|Hne].
  - rewrite He, apply_write_same, bit_set_bit by (rewrite ?Hlen; unfold BPB, BSIZE; elia).
    unfold bitmap_block in He. assert (c / BPB = b / BPB) as Hd by lia.
    destruct (decide (c = b)) as [->|Hcb]; [by rewrite decide_True|]. rewrite decide_False; [done|].
    intros Hm. apply Hcb. unfold BPB, BSIZE in *. elia.
  - rewrite apply_write_ne by congruence. by rewrite decide_False by congruence.
Qed.

Lemma in_use_freed v b c :
  0 <= b < sb_size sb -> 0 <= c < sb_size sb -> block_ok (v dev (bitmap_block b)) ->
  in_use (freed v b) c = (if decide (c = b) then false else in_use v c).
Proof.
  intros Hb Hc [Hlen _]. unfold in_use, freed. destruct (decide (bitmap_block c = bitmap_block b)) as [He|Hne].
  - rewrite He, apply_write_same, bit_clear_bit by (rewrite ?Hlen; unfold BPB, BSIZE; elia).
    unfold bitmap_block in He. assert (c / BPB = b / BPB) as Hd by lia.
    destruct (decide (c = b)) as [->|Hcb]; [by rewrite decide_True|]. rewrite decide_False; [done|].
    intros Hm. apply Hcb. unfold BPB, BSIZE in *. elia.
  - rewrite apply_write_ne by congruence. by rewrite decide_False by congruence.
Qed.

Lemma in_use_allocated v b c :
  datastart sb <= b < sb_size sb -> 0 <= c < sb_size sb -> block_ok (v dev (bitmap_block b)) ->
  in_use (allocated v b) c = (if decide (c = b) then true else in_use v c).
Proof.
  intros Hb Hc Hok. unfold allocated. pose proof (bitmap_block_range c Hc).
  assert (0 <= b) by (destruct Hla; unfold datastart, BPB, BSIZE, IPB in *; elia).
  rewrite in_use_write by (intros [=]; lia). apply in_use_set; [lia|lia|done].
Qed.

(** Freeing a block just allocated gives the bitmap back as it was. *)
Lemma freed_allocated v b :
  datastart sb <= b < sb_size sb -> in_use v b = false -> block_ok (v dev (bitmap_block b)) ->
  freed (allocated v b) b dev (bitmap_block b) = v dev (bitmap_block b).
Proof.
  intros Hb Hu [Hlen Hok]. assert (0 <= b) by (destruct Hla; unfold datastart, BPB, BSIZE, IPB in *; elia).
  pose proof (bitmap_block_range b ltac:(lia)). unfold freed. rewrite apply_write_same.
  unfold allocated. rewrite apply_write_ne by (intros [=]; lia). rewrite apply_write_same.
  apply bits_eq; [by apply clear_bit_ok, set_bit_ok|done|by rewrite length_clear_bit, length_set_bit|].
  intros i Hi. rewrite length_clear_bit, length_set_bit in Hi.
  rewrite bit_clear_bit, bit_set_bit by (rewrite ?length_set_bit; unfold BPB, BSIZE in *; elia).
  case_decide; [|done]. subst. by rewrite <- Hu.
Qed.
End Blocks.

(** The image satisfies the layout, and a transaction on it can begin. *)
Lemma img_layout : layout (dvalid img) img_sb.
Proof.
  split; [by vm_compute..|]. intros b Hb. simpl in Hb. split; [done|]. simpl. lia.
Qed.

Lemma img_ftxn :
  exists (s : fsst memdisk) (v : blocks) h, ftxn (dvalid img) 7 img_sb s v v h [] [] /\
    forall b, 32 <= b < 64 \/ b = 1 -> v 1 b = img_map b.
Proof.
  destruct img_begin as (l0 & l & v & h & _ & _ & Ht & Hv).
  exists (set_sb img_sb (fs_bss l)), v, h. split; [|done]. by split.
Qed.

Lemma img_in_use (v : blocks) b :
  (forall b, 32 <= b < 64 \/ b = 1 -> v 1 b = img_map b) -> 0 <= b < 64 -> in_use img_sb v b = (b <? 37).
Proof.
  intros Hv Hb. unfold in_use, bitmap_block. replace (b / BPB + sb_bmapstart img_sb) with 34 by (unfold BPB, BSIZE; simpl; elia).
  replace (b mod BPB) with b by (unfold BPB, BSIZE; elia).
  change ROOTDEV with 1. rewrite Hv by lia.
  assert (Forall (fun b => bit img_bitmap b = (b <? 37)) (seqZ 0 64)) as HF
    by (apply (bool_decide_unpack _); by vm_compute).
  rewrite Forall_forall in HF. change (img_map 34) with img_bitmap. apply HF, elem_of_seqZ. lia.
Qed.

(** * Properties *)

(** [xv6fs_balloc] inside a transaction with room for two more log blocks, on a
    bitmap in which no metadata block is free: when some block is free it returns
    the lowest free block; afterwards that block is in use and all zeroes, every
    other block is in use exactly if it was, no other block but the one of the
    bitmap changes, and both are logged. Freeing the block then gives the bitmap
    back as it was. *)
Theorem balloc_lowest_free {D} `{DiskDriverLaws D} V pid sb (s : fsst D) v d h hs L :
  layout V sb -> ftxn V pid sb s v d h hs L -> bitmap_ok sb v hs ->
  (length L < 27)%nat -> (length L + length hs < 27)%nat ->
  (exists b, 0 <= b < sb_size sb /\ in_use sb v b = false) ->
  exists b s' v', xv6fs_balloc ROOTDEV s = Ok b s' /\
    ftxn V pid sb s' v' d h hs (log_add (log_add L (bitmap_block sb b)) b) /\
    datastart sb <= b < sb_size sb /\ in_use sb v b = false /\
    (forall c, 0 <= c < b -> in_use sb v c = true) /\
    v' ROOTDEV b = zero_block /\
    (forall c, 0 <= c < sb_size sb -> in_use sb v' c = if decide (c = b) then true else in_use sb v c) /\
    (forall c, c <> b -> c <> bitmap_block sb b -> v' ROOTDEV c = v ROOTDEV c) /\
    exists s'' v'', xv6fs_bfree ROOTDEV b s' = Ok tt s'' /\ 
      ftxn V pid sb s'' v'' d h hs (log_add (log_add L (bitmap_block sb b)) b) /\
      forall c, c <> b -> v'' ROOTDEV c = v ROOTDEV c.
Proof.
  intros Hla Ht Hbm Hl Hlh Hfree.
  assert (wp (xv6fs_balloc ROOTDEV) s (fun b s' => exists l, s' = set_log l s /\ datastart sb <= b < sb_size sb /\
    in_use sb v b = false /\ (forall c, 0 <= c < b -> in_use sb v c = true) /\
    ftxn V pid sb s' (allocated sb v b) d h hs (log_add (log_add L (bitmap_block sb b)) b))) as Hw.
  { eapply (wp_balloc V pid sb Hla); [exact Ht|done|lia|lia|done|]. intros b l Hb Hu Hlow Ht'. exists l. done. }
  apply (proj1 (wp_ok _ _ _)) in Hw as (b & s' & He & l & -> & Hb & Hu & Hlow & Ht').
  exists b, (set_log l s), (allocated sb v b). split; [exact He|]. clear He.
  assert (0 <= b) as Hb0 by (destruct Hla; unfold datastart, BPB, BSIZE, IPB in *; elia).
  pose proof (bitmap_block_range V sb Hla b ltac:(lia)) as Hbr.
  assert (block_ok (v ROOTDEV (bitmap_block sb b))) as Hok.
  { eapply ftxn_block_ok; [exact Ht|]. apply Hla. pose proof (datastart_size V sb Hla). destruct Hla. lia. }
  split_and!; try done; try lia.
  - apply apply_write_same.
  - intros c Hc. by apply (in_use_allocated V sb Hla).
  - intros c Hcb Hcm. unfold allocated. by rewrite !apply_write_ne by congruence.
  - assert (wp (xv6fs_bfree ROOTDEV b) (set_log l s) (fun _ s' =>
      ftxn V pid sb s' (freed sb (allocated sb v b) b) d h hs
        (log_add (log_add (log_add L (bitmap_block sb b)) b) (bitmap_block sb b)))) as Hw.
    { pose proof (log_add_length L (bitmap_block sb b)). pose proof (log_add_length (log_add L (bitmap_block sb b)) b).
      eapply (wp_bfree V pid sb Hla); [exact Ht'|lia| | |lia|done].
      - rewrite (in_use_allocated V sb Hla) by (done || lia). by rewrite decide_True.
      - split; [apply (Hbm b); lia|left; unfold NBUF; lia]. }
    apply (proj1 (wp_ok _ _ _)) in Hw as ([] & s'' & He & Hf). exists s'', (freed sb (allocated sb v b) b).
    split; [exact He|]. clear He. split.
    + unfold log_add at 1 in Hf. rewrite decide_True in Hf; [done|].
      apply log_add_mono, log_add_in.
    + intros c Hc. destruct (decide (c = bitmap_block sb b)) as [->|Hne].
      * by apply (freed_allocated V sb Hla).
      * unfold freed, allocated. by rewrite !apply_write_ne by congruence.
Qed.

Lemma balloc_lowest_free_witness :
  exists (s s' : fsst memdisk), xv6fs_balloc ROOTDEV s = Ok 37 s'.
Proof.
  destruct img_ftxn as (s & v & h & Ht & Hv).
  destruct (balloc_lowest_free (dvalid img) 7 img_sb s v v h [] [] img_layout Ht)
    as (b & s' & v' & He & _ & Hb & Hu & Hlow & _).
  - intros b Hb. split; [apply not_elem_of_nil|]. rewrite (img_in_use v b Hv Hb).
    intros Hlt. apply Z.ltb_ge in Hlt. split; [|apply not_elem_of_nil]. change (datastart img_sb) with 35. lia.
  - simpl. lia.
  - simpl. lia.
  - exists 40. split; [simpl; lia|]. rewrite (img_in_use v 40 Hv) by lia. done.
  - exists s, s'. rewrite He. f_equal. clear He. change (datastart img_sb) with 35 in Hb. simpl in Hb.
    rewrite (img_in_use v b Hv) in Hu by lia. apply Z.ltb_ge in Hu.
    destruct (decide (b = 37)) as [|Hne]; [done|]. specialize (Hlow 37 ltac:(lia)).
    by rewrite (img_in_use v 37 Hv) in Hlow by lia.
Defined.

(** [xv6fs_bfree] frees a block in use: its bit is cleared and nothing else
    changes; on a block that is free it panics ("freeing free block"). *)
Theorem bfree_spec {D} `{DiskDriverLaws D} V pid sb (s : fsst D) v d h hs L b :
  layout V sb -> ftxn V pid sb s v d h hs L -> 0 <= b < sb_size sb ->
  free_buf ROOTDEV hs L (bitmap_block sb b) -> (length L < 29)%nat ->
  if in_use sb v b
  then exists s' v', xv6fs_bfree ROOTDEV b s = Ok tt s' /\
    ftxn V pid sb s' v' d h hs (log_add L (bitmap_block sb b)) /\
    (forall c, 0 <= c < sb_size sb -> in_use sb v' c = if decide (c = b) then false else in_use sb v c) /\
    forall c, c <> bitmap_block sb b -> v' ROOTDEV c = v ROOTDEV c
  else xv6fs_bfree ROOTDEV b s = Panic "freeing free block".
Proof.
  intros Hla Ht Hb Hf Hl. destruct (in_use sb v b) eqn:Hu; [|by eapply (bfree_panics V pid sb Hla)].
  assert (wp (xv6fs_bfree ROOTDEV b) s (fun _ s' =>
    ftxn V pid sb s' (freed sb v b) d h hs (log_add L (bitmap_block sb b)))) as Hw.
  { by eapply (wp_bfree V pid sb Hla). }
  apply (proj1 (wp_ok _ _ _)) in Hw as ([] & s' & He & Ht'). exists s', (freed sb v b).
  split; [exact He|]. clear He. split; [done|].
  pose proof (bitmap_block_range V sb Hla b Hb). pose proof (datastart_size V sb Hla).
  assert (block_ok (v ROOTDEV (bitmap_block sb b))) as Hok.
  { eapply ftxn_block_ok; [exact Ht|]. apply Hla. destruct Hla. lia. }
  split.
  - intros c Hc. by apply in_use_freed.
  - intros c Hc. unfold freed. by rewrite apply_write_ne by congruence.
Qed.

Lemma bfree_spec_witness :
  exists (s s' : fsst memdisk), xv6fs_bfree ROOTDEV 36 s = Ok tt s' /\
    xv6fs_bfree ROOTDEV 50 s = Panic "freeing free block".
Proof.
  destruct img_ftxn as (s & v & h & Ht & Hv).
  assert (forall b, free_buf ROOTDEV [] [] b) as Hf.
  { intros b. split; [apply not_elem_of_nil|left; simpl; unfold NBUF; lia]. }
  pose proof (bfree_spec (dvalid img) 7 img_sb s v v h [] [] 36 img_layout Ht ltac:(simpl; lia) (Hf _)
    ltac:(simpl; lia)) as H1.
  pose proof (bfree_spec (dvalid img) 7 img_sb s v v h [] [] 50 img_layout Ht ltac:(simpl; lia) (Hf _)
    ltac:(simpl; lia)) as H2.
  rewrite (img_in_use v 36 Hv) in H1 by lia. rewrite (img_in_use v 50 Hv) in H2 by lia.
  destruct H1 as (s' & v' & H1 & _). exists s, s'. split; [exact H1|exact H2].
Defined.
