(* ===== verification/InodeSpec.v ===== *)
(** On-disk inodes of the xv6 file system: the codec of [struct dinode],
    [xv6fs_iupdate] and [xv6fs_ilock]. *)

From S2P Require Import Prelude Bytes Sleeplock Buf Ring Memide Bio Cache Log Txn Inode Xv6fs Example Blocks.

#[local] Arguments le_enc : simpl never.

(** ** The codec *)

Definition s16_ok (z : Z) : Prop := -32768 <= z < 32768.
Definition u32_ok (z : Z) : Prop := 0 <= z < 4294967296.
#[export] Instance u32_ok_dec z : Decision (u32_ok z).
Proof. unfold u32_ok. apply _. Defined.

Record dinode_ok (di : dinode) : Prop := {
  dok_type : s16_ok (d_type di); dok_major : s16_ok (d_major di); dok_minor : s16_ok (d_minor di);
  dok_nlink : s16_ok (d_nlink di); dok_size : u32_ok (d_size di);
  dok_len : length (d_addrs di) = 13%nat; dok_addrs : Forall u32_ok (d_addrs di);
}.

Lemma length_enc_words l : length (mjoin (le_enc 4 <$> l)) = (4 * length l)%nat.
Proof. induction l as [|z l IH]; [done|]. change (mjoin (le_enc 4 <$> z :: l)) with (le_enc 4 z ++ mjoin (le_enc 4 <$> l)).
  rewrite length_app, length_le_enc, IH. simpl. lia. Qed.

Lemma length_dinode_enc di : length (d_addrs di) = 13%nat -> length (dinode_enc di) = 64%nat.
Proof.
  intros Hl. unfold dinode_enc. rewrite !length_app, !length_le_enc, length_enc_words, Hl. done.
Qed.

Lemma enc_words_ok l : bytes_ok (mjoin (le_enc 4 <$> l)).
Proof. apply Forall_join, Forall_fmap, Forall_true. intros z. apply le_enc_ok. Qed.

Lemma dinode_enc_ok di : bytes_ok (dinode_enc di).
Proof. unfold dinode_enc. repeat apply Forall_app_2; try apply le_enc_ok. apply enc_words_ok. Qed.

Lemma get_le_app_l n off l l' : (off + n <= length l)%nat -> get_le n off (l ++ l') = get_le n off l.
Proof. intros Hl. unfold get_le, slice. rewrite drop_app_le, take_app_le by (rewrite ?length_drop; lia). done. Qed.

Lemma get_le_app_r n off l l' : get_le n (length l + off) (l ++ l') = get_le n off l'.
Proof. unfold get_le, slice. by rewrite drop_app_add. Qed.

Lemma get_le_skip n off k z l : (k <= off)%nat -> get_le n off (le_enc k z ++ l) = get_le n (off - k) l.
Proof.
  intros Hk. replace off with (length (le_enc k z) + (off - k))%nat at 1 by (rewrite length_le_enc; lia).
  apply get_le_app_r.
Qed.

Lemma get_le_enc n z l : 0 <= z < 256 ^ Z.of_nat n -> get_le n 0 (le_enc n z ++ l) = z.
Proof.
  intros Hz. rewrite get_le_app_l by (rewrite length_le_enc; lia). unfold get_le, slice. rewrite drop_0.
  rewrite take_ge by (rewrite length_le_enc; lia). by apply le_dec_enc_small.
Qed.

Lemma s16_get z l : s16_ok z -> s16 (get_le 2 0 (le_enc 2 z ++ l)) = z.
Proof.
  unfold s16_ok. intros Hz. rewrite get_le_app_l by (rewrite length_le_enc; lia). unfold get_le, slice.
  rewrite drop_0, take_ge by (rewrite length_le_enc; lia). rewrite le_dec_enc. unfold s16.
  change (256 ^ Z.of_nat 2) with 65536. elia.
Qed.

Lemma word_enc_words l k z : Forall u32_ok l -> l !! k = Some z -> get_le 4 (4 * k) (mjoin (le_enc 4 <$> l)) = z.
Proof.
  revert k. induction l as [|y l IH]; intros k Hl Hk; [done|]. apply Forall_cons in Hl as [Hy Hl].
  change (mjoin (le_enc 4 <$> y :: l)) with (le_enc 4 y ++ mjoin (le_enc 4 <$> l)).
  destruct k as [|k]; simpl in Hk.
  - injection Hk as <-. by apply get_le_enc.
  - replace (4 * S k)%nat with (length (le_enc 4 y) + 4 * k)%nat by (rewrite length_le_enc; lia).
    rewrite get_le_app_r. by apply IH.
Qed.

(** Decoding what was encoded. *)
Lemma dinode_dec_enc di : dinode_ok di -> dinode_dec (dinode_enc di) = di.
Proof.
  intros []. destruct di as [t ma mi nl sz ad]. unfold dinode_dec, dinode_enc.
  cbn [d_type d_major d_minor d_nlink d_size d_addrs] in *. f_equal.
  - by apply s16_get.
  - rewrite get_le_skip by lia. by apply s16_get.
  - rewrite !get_le_skip by (simpl; lia). by apply s16_get.
  - rewrite !get_le_skip by (simpl; lia). by apply s16_get.
  - rewrite !get_le_skip by (simpl; lia). by apply get_le_enc.
  - apply list_eq_same_length with (n := 13%nat); [done|by rewrite length_fmap, length_seq|].
    intros k x y Hk Hx Hy. apply list_lookup_fmap_Some in Hx as (j & -> & Hj).
    apply lookup_seq in Hj as [-> _]. cbn [Nat.add].
    rewrite !get_le_skip by lia. replace (_ - _)%nat with (4 * k)%nat by lia. by apply word_enc_words.
Qed.

(** The slots of an inode block. *)
Lemma dinode_at_set_same data inum di :
  length data = 1024%nat -> dinode_ok di -> dinode_at (dinode_set data inum di) inum = di.
Proof.
  intros Hl Hok. unfold dinode_at, dinode_set, dinode_off, IPB.
  pose proof (length_dinode_enc di (dok_len _ Hok)) as He.
  rewrite <- He. rewrite slice_splice_same by (rewrite He, Hl; elia). by apply dinode_dec_enc.
Qed.

Lemma dinode_at_set_other data inum inum' di :
  length data = 1024%nat -> dinode_ok di -> inum mod IPB <> inum' mod IPB ->
  dinode_at (dinode_set data inum di) inum' = dinode_at data inum'.
Proof.
  intros Hl Hok Hne. unfold dinode_at, dinode_set, dinode_off, IPB in *.
  pose proof (length_dinode_enc di (dok_len _ Hok)) as He.
  rewrite slice_splice_other; [done|rewrite He, Hl; elia|rewrite He; elia].
Qed.

Lemma dinode_set_ok data inum di :
  block_ok data -> length (d_addrs di) = 13%nat -> block_ok (dinode_set data inum di).
Proof.
  intros [Hl Hok] Hd. pose proof (length_dinode_enc di Hd) as He. unfold dinode_set, dinode_off, IPB. split.
  - rewrite length_splice; [done|]. rewrite He, Hl. elia.
  - apply Forall_splice; [apply dinode_enc_ok|done].
Qed.

(** ** The in-core inode *)

Section InodeSpec.
Context {D : Type} `{DiskDriver D} `{!DiskDriverLaws D}.
Context (V : Z -> Z -> Prop) (pid : Z) (sb : superblock) (Hla : layout V sb).
Implicit Types (s : fsst D) (v d : blocks) (L : list Z) (hs : list handle).

(** Entry [ip] of the cache is [x], an inode of the xv6 file system with the
    addresses [A] in slot [k] of its table. *)
Record iown s (ip : nat) (x : inode) (k : nat) (A : list Z) : Prop := {
  io_at : fs_inode s !! ip = Some x;
  io_dev : i_dev x = ROOTDEV;
  io_ptr : i_addrs x = Some (XAddrs k);
  io_addrs : exists busy, fs_xaddrs s !! k = Some (Addrs busy A);
}.

Lemma iown_log s l ip x k A : iown s ip x k A -> iown (set_log l s) ip x k A.
Proof. by intros []. Qed.

Lemma wp_inode_at s ip x k A Q : iown s ip x k A -> Q x s -> wp (inode_at ip) s Q.
Proof. intros [Hx _ _ _] HQ. unfold inode_at, wp. by rewrite Hx. Qed.

Lemma wp_xptr s ip x k A Q : iown s ip x k A -> Q k s -> wp (xptr ip) s Q.
Proof.
  intros Hi HQ. eapply wp_bind, wp_inode_at; [exact Hi|]. by rewrite (io_ptr _ _ _ _ _ Hi).
Qed.

Lemma wp_xaddrs_at s ip x k A Q : iown s ip x k A -> (forall busy, Q (Addrs busy A) s) -> wp (xaddrs_at k) s Q.
Proof. intros [_ _ _ [busy Ha]] HQ. unfold xaddrs_at, wp. rewrite Ha. apply HQ. Qed.

(** Storing new addresses. *)
Definition set_blk (k : nat) (A : list Z) s : fsst D :=
  set_xaddrs (alter (with_blk A) k (fs_xaddrs s)) s.

Lemma wp_xaddrs_upd g s ip x k A Q :
  iown s ip x k A -> (iown (set_blk k (g A) s) ip x k (g A) -> Q tt (set_blk k (g A) s)) ->
  wp (xaddrs_upd k (fun ad => with_blk (g (a_blk ad)) ad)) s Q.
Proof.
  intros [Hx Hd Hp [busy Ha]] HQ. apply wp_bind. unfold wp at 1, xaddrs_at. rewrite Ha. apply wp_modify.
  assert (<[k:=with_blk (g A) (Addrs busy A)]> (fs_xaddrs s) = alter (with_blk (g A)) k (fs_xaddrs s)) as He.
  { apply list_eq. intros j. destruct (decide (j = k)) as [->|Hne].
    - rewrite list_lookup_insert_eq, list_lookup_alter_eq, Ha; [done|]. by eapply lookup_lt_Some.
    - by rewrite list_lookup_insert_ne, list_lookup_alter_ne. }
  simpl a_blk. rewrite He. apply HQ. split; [done|done|done|].
  exists busy. unfold set_blk. simpl. by rewrite list_lookup_alter_eq, Ha.
Qed.

Lemma ftxn_blk s v d h hs L k A : ftxn V pid sb s v d h hs L -> ftxn V pid sb (set_blk k A s) v d h hs L.
Proof. done. Qed.

(** ** Inode blocks *)

Definition inode_block (inum : Z) : Z := inum / IPB + sb_inodestart sb.

Lemma inode_block_range inum : 0 <= inum < sb_ninodes sb -> sb_inodestart sb <= inode_block inum < sb_bmapstart sb.
Proof. destruct Hla. unfold inode_block, IPB in *. elia. Qed.

Lemma bmapstart_datastart : 0 <= sb_inodestart sb /\ sb_bmapstart sb <= datastart sb <= sb_size sb.
Proof. destruct Hla. unfold datastart, BPB, BSIZE, IPB in *. elia. Qed.

Lemma IBLOCK_eq inum : 0 <= inum < sb_ninodes sb -> IBLOCK inum sb = inode_block inum.
Proof.
  intros Hi. pose proof (inode_block_range _ Hi). pose proof bmapstart_datastart. destruct Hla.
  unfold IBLOCK. apply u32_small. unfold inode_block in *. lia.
Qed.

Lemma inode_block_home inum : 0 <= inum < sb_ninodes sb -> home V ROOTDEV (sb_logstart sb) (sb_nlog sb) (inode_block inum).
Proof.
  intros Hi. pose proof (inode_block_range _ Hi). pose proof bmapstart_datastart. eapply fs_home_range; [done|lia].
Qed.

(** The on-disk inode that [iupdate] writes for [x] with addresses [A]. *)
Definition dinode_of (x : inode) (A : list Z) : dinode :=
  Dinode (i_type x) (i_major x) (i_minor x) (i_nlink x) (i_size x) A.

(** The on-disk inode in a view of the blocks. *)
Definition inode_on v (inum : Z) : dinode := dinode_at (v ROOTDEV (inode_block inum)) inum.

Definition inode_written v (inum : Z) (di : dinode) : blocks :=
  apply_write v (ROOTDEV, inode_block inum, dinode_set (v ROOTDEV (inode_block inum)) inum di).

Lemma wp_iupdate s v d h hs L ip x k A Q :
  ftxn V pid sb s v d h hs L -> iown s ip x k A -> length A = 13%nat -> 0 <= i_inum x < sb_ninodes sb ->
  free_buf ROOTDEV hs L (inode_block (i_inum x)) -> (length L < 29)%nat ->
  (forall l, ftxn V pid sb (set_log l s) (inode_written v (i_inum x) (dinode_of x A)) d h hs
     (log_add L (inode_block (i_inum x))) -> Q tt (set_log l s)) ->
  wp (xv6fs_iupdate ip) s Q.
Proof.
  intros Ht Hi HA Hn Hf Hl HQ. pose proof Ht as [Hsb _]. pose proof (inode_block_home _ Hn) as Hh.
  unfold xv6fs_iupdate. eapply wp_bind, wp_inode_at; [exact Hi|]. eapply wp_bind, wp_gets.
  rewrite Hsb, (io_dev _ _ _ _ _ Hi), IBLOCK_eq by done.
  eapply wp_bind, (wpf_bread V pid sb); [exact Ht|apply Hh|done|]. intros bp l1 H1 _.
  apply (iown_log s l1) in Hi. eapply wp_bind, wp_xptr; [exact Hi|].
  eapply wp_bind, wp_xaddrs_at; [exact Hi|]. intros busy.
  eapply wp_bind, (wpf_bset V pid sb); [exact H1|held| |].
  { apply dinode_set_ok; [|done]. eapply ftxn_block_ok; [exact H1|apply Hh]. }
  intros l2 H2. eapply wp_bind, (wpf_log_write V pid sb Hla); [exact H2|held|done|done|]. intros l3 H3.
  eapply (wpf_brelse V pid sb); [exact H3|take_out|left; apply log_add_in|]. intros l4 H4. by apply HQ.
Qed.

Lemma inode_on_written v inum di :
  block_ok (v ROOTDEV (inode_block inum)) -> dinode_ok di -> inode_on (inode_written v inum di) inum = di.
Proof. intros [Hl _] Hok. unfold inode_on, inode_written. rewrite apply_write_same. by apply dinode_at_set_same. Qed.

Lemma inode_on_other v inum inum' di :
  block_ok (v ROOTDEV (inode_block inum)) -> dinode_ok di -> inum <> inum' ->
  inode_on (inode_written v inum di) inum' = inode_on v inum'.
Proof.
  intros [Hl _] Hok Hne. unfold inode_on, inode_written.
  destruct (decide (inode_block inum' = inode_block inum)) as [He|Hb].
  - rewrite He, apply_write_same. apply dinode_at_set_other; [done|done|].
    intros Hm. apply Hne. unfold inode_block, IPB in *. elia.
  - by rewrite apply_write_ne by congruence.
Qed.

(** ** Locking *)

Definition set_ino (ip : nat) (x : inode) s : fsst D := set_inodes (<[ip := x]> (fs_inode s)) s.

Lemma iown_set s ip x k A y :
  iown s ip x k A -> i_dev y = ROOTDEV -> i_addrs y = Some (XAddrs k) -> iown (set_ino ip y s) ip y k A.
Proof.
  intros [Hx Hd Hp Ha] Hyd Hyp. split; [|done|done|done].
  simpl. apply list_lookup_insert_eq. by eapply lookup_lt_Some.
Qed.

Lemma wp_inode_upd s ip x k A f Q :
  iown s ip x k A -> Q tt (set_ino ip (f x) s) -> wp (inode_upd ip f) s Q.
Proof. intros [Hx _ _ _] HQ. unfold inode_upd, wp. by rewrite Hx. Qed.

Lemma set_ino_twice ip x y s : set_ino ip y (set_ino ip x s) = set_ino ip y s.
Proof. unfold set_ino. simpl. unfold set_inodes. simpl. by rewrite list_insert_insert_eq. Qed.

(** The entry with the fields of the on-disk inode. *)
Definition loaded (x : inode) (di : dinode) : inode :=
  Inode (i_dev x) (i_inum x) (i_ref x) (Sleeplock 1 pid) 1 (Some XV6FS)
    (d_type di) (d_major di) (d_minor di) (d_nlink di) (d_size di) (i_addrs x).

Lemma wp_inode_acquire s v d h hs L ip x k A Q :
  ftxn V pid sb s v d h hs L -> iown s ip x k A -> sl_locked (i_lock x) = 0 ->
  (let y := with_ilock (Sleeplock 1 pid) x in
   iown (set_ino ip y s) ip y k A -> Q tt (set_ino ip y s)) ->
  wp (inode_acquire ip) s Q.
Proof.
  intros [_ [_ Hr _]] Hi Hlk HQ. unfold inode_acquire. eapply wp_bind, wp_inode_at; [exact Hi|].
  eapply wp_bind, wp_gets, wp_bind, acquiresleep_free; [done|]. unfold fs_pid. rewrite (rp_me _ _ _ _ _ _ _ _ Hr).
  eapply wp_inode_upd; [exact Hi|]. apply HQ, (iown_set _ _ x); [done|apply Hi|apply Hi].
Qed.

(** [ilock] of an entry that is already valid only takes the lock. *)
Lemma wp_ilock_valid s v d h hs L ip x k A Q :
  ftxn V pid sb s v d h hs L -> iown s ip x k A -> 0 < i_ref x -> sl_locked (i_lock x) = 0 -> i_valid x <> 0 ->
  (let y := with_ilock (Sleeplock 1 pid) x in
   iown (set_ino ip y s) ip y k A -> Q tt (set_ino ip y s)) ->
  wp (xv6fs_ilock ip) s Q.
Proof.
  intros Ht Hi Hr Hlk Hv HQ. unfold xv6fs_ilock. eapply wp_bind, wp_inode_at; [exact Hi|].
  replace (i_ref x <? 1) with false by (symmetry; apply Z.ltb_ge; lia). eapply wp_bind, wp_ret.
  eapply wp_bind, wp_inode_acquire; [exact Ht|exact Hi|done|]. intros y Hy.
  eapply wp_bind, wp_inode_at; [exact Hy|]. simpl. replace (i_valid x =? 0) with false by (symmetry; by apply Z.eqb_neq).
  by apply wp_ret, HQ.
Qed.

(** [ilock] of an entry that is not valid also reads the inode from the disk. *)
Lemma wp_ilock_load s v d h hs L ip x k A Q :
  ftxn V pid sb s v d h hs L -> iown s ip x k A -> 0 < i_ref x -> sl_locked (i_lock x) = 0 -> i_valid x = 0 ->
  0 <= i_inum x < sb_ninodes sb -> free_buf ROOTDEV hs L (inode_block (i_inum x)) ->
  d_type (inode_on v (i_inum x)) <> 0 ->
  (forall l, let di := inode_on v (i_inum x) in
     let s' := set_log l (set_blk k (d_addrs di) (set_ino ip (loaded x di) s)) in
     ftxn V pid sb s' v d h hs L -> iown s' ip (loaded x di) k (d_addrs di) -> Q tt s') ->
  wp (xv6fs_ilock ip) s Q.
Proof.
  intros Ht Hi Hr Hlk Hv Hn Hf Hty HQ. pose proof (inode_block_home _ Hn) as Hh. pose proof Ht as [Hsb _].
  unfold xv6fs_ilock. eapply wp_bind, wp_inode_at; [exact Hi|].
  replace (i_ref x <? 1) with false by (symmetry; apply Z.ltb_ge; lia). eapply wp_bind, wp_ret.
  eapply wp_bind, wp_inode_acquire; [exact Ht|exact Hi|done|]. intros y Hy.
  eapply wp_bind, wp_inode_at; [exact Hy|]. change (i_valid _) with (i_valid x). rewrite Hv.
  change (0 =? 0) with true. unfold guard_ok at 1.
  eapply wp_bind, wp_gets. change (fs_sb _) with (fs_sb s). change (i_dev _) with (i_dev x).
  change (i_inum y) with (i_inum x). rewrite Hsb, (io_dev _ _ _ _ _ Hi), IBLOCK_eq by done.
  eapply wp_bind, (wpf_bread V pid sb); [split; [exact Hsb|apply Ht]|apply Hh|done|]. intros bp l1 H1 Hcl.
  eapply wp_bind, (wpf_bdata V pid sb); [exact H1|held|].
  change (dinode_at (v ROOTDEV (inode_block (i_inum x))) (i_inum x)) with (inode_on v (i_inum x)).
  set (di := inode_on v (i_inum x)) in *. apply (iown_log _ l1) in Hy.
  eapply wp_bind, wp_inode_upd; [exact Hy|].
  set (y2 := with_iops _ _). eapply (iown_set _ _ _ _ _ y2) in Hy; [|apply Hi|apply Hi].
  eapply wp_bind, wp_xptr; [exact Hy|].
  eapply wp_bind, (wp_xaddrs_upd (fun _ => d_addrs di)); [exact Hy|]. intros Hy3.
  eapply wp_bind, (wpf_brelse V pid sb); [split; [exact Hsb|apply H1]|take_out|done|]. intros l2 H2.
  apply (iown_log _ l2) in Hy3. eapply wp_bind, wp_inode_upd; [exact Hy3|].
  eapply (iown_set _ _ _ _ _ (with_valid 1 y2)) in Hy3; [|apply Hi|apply Hi].
  replace (d_type di =? 0) with false by (symmetry; by apply Z.eqb_neq). apply wp_ret.
  assert (set_ino ip (with_valid 1 y2) (set_log l2 (set_blk k (d_addrs di) (set_ino ip y2 (set_log l1 (set_ino ip y s)))))
    = set_log l2 (set_blk k (d_addrs di) (set_ino ip (loaded x di) s))) as He.
  { unfold set_ino, set_log, set_blk, set_inodes, set_xaddrs. cbn [fs_inode fs_sb fs_ext2_sb fs_xaddrs fs_eaddrs fs_log].
    by rewrite !list_insert_insert_eq. }
  rewrite He in *. apply HQ; [by split; [|apply H2]|done].
Qed.

Lemma wp_iunlock s v d h hs L ip x k A Q :
  ftxn V pid sb s v d h hs L -> iown s ip x k A -> 0 < i_ref x -> i_lock x = Sleeplock 1 pid ->
  (let y := with_ilock (Sleeplock 0 0) x in
   iown (set_ino ip y s) ip y k A -> Q tt (set_ino ip y s)) ->
  wp (xv6fs_iunlock ip) s Q.
Proof.
  intros [_ [_ Hr _]] Hi Href Hlk HQ. unfold xv6fs_iunlock. eapply wp_bind, wp_inode_at; [exact Hi|].
  eapply wp_bind, wp_gets. unfold fs_pid. rewrite (rp_me _ _ _ _ _ _ _ _ Hr), Hlk, holdingsleep_acquired.
  replace (i_ref x <? 1) with false by (symmetry; apply Z.ltb_ge; lia). eapply wp_bind, wp_ret.
  eapply wp_inode_upd; [exact Hi|]. apply HQ, (iown_set _ _ x); [done|apply Hi|apply Hi].
Qed.
End InodeSpec.

(** A transaction on the image with the inode [x] in entry 0 of the cache. *)
Lemma img_open (x : inode) (A : list Z) :
  i_dev x = ROOTDEV -> i_addrs x = Some (XAddrs 0) ->
  exists (s : fsst memdisk) (v : blocks) h, ftxn (dvalid img) 7 img_sb s v v h [] [] /\ iown s 0 x 0 A /\
    forall b, 32 <= b < 64 \/ b = 1 -> v 1 b = img_map b.
Proof.
  intros Hd Hp. destruct img_begin as (l0 & l & v & h & _ & _ & Ht & Hv).
  exists (set_blk 0 A (set_ino 0 x (set_sb img_sb (fs_bss l)))), v, h. split; [by split|]. split; [|done].
  split; [done|done|done|]. by exists 0.
Qed.

(** * Properties *)

(** [xv6fs_iupdate] and [xv6fs_ilock] round-trip: writing the in-core inode [x]
    with addresses [A] changes its slot of its inode block and nothing else, other
    inodes included; when its cache entry has since been recycled (not valid, any
    old contents in it and in its table of addresses), locking it gives back type,
    device numbers, link count, size and addresses as they were written. *)
Theorem iupdate_ilock_roundtrip {D} `{DiskDriverLaws D} V pid sb (s : fsst D) v d h hs L ip x k A :
  layout V sb -> ftxn V pid sb s v d h hs L -> iown s ip x k A ->
  dinode_ok (dinode_of x A) -> i_type x <> 0 -> 0 <= i_inum x < sb_ninodes sb ->
  free_buf ROOTDEV hs L (inode_block sb (i_inum x)) -> (length L < 29)%nat ->
  exists s1 v1, xv6fs_iupdate ip s = Ok tt s1 /\ fs_inode s1 = fs_inode s /\
    ftxn V pid sb s1 v1 d h hs (log_add L (inode_block sb (i_inum x))) /\
    (forall i, i <> i_inum x -> inode_on sb v1 i = inode_on sb v i) /\
    (forall b, b <> inode_block sb (i_inum x) -> v1 ROOTDEV b = v ROOTDEV b) /\
    forall y A', i_dev y = ROOTDEV -> i_inum y = i_inum x -> i_addrs y = Some (XAddrs k) ->
      0 < i_ref y -> sl_locked (i_lock y) = 0 -> i_valid y = 0 ->
      exists s2, xv6fs_ilock ip (set_blk k A' (set_ino ip y s1)) = Ok tt s2 /\
        iown s2 ip (loaded pid y (dinode_of x A)) k A.
Proof.
  intros Hla Ht Hi Hok Hty Hn Hf Hl. pose proof (inode_block_home V sb Hla _ Hn) as Hh.
  assert (block_ok (v ROOTDEV (inode_block sb (i_inum x)))) as Hb by (eapply ftxn_block_ok; [exact Ht|apply Hh]).
  assert (wp (xv6fs_iupdate ip) s (fun _ s1 => exists l, s1 = set_log l s /\
    ftxn V pid sb s1 (inode_written sb v (i_inum x) (dinode_of x A)) d h hs
      (log_add L (inode_block sb (i_inum x))))) as Hw.
  { eapply (wp_iupdate V pid sb Hla); [exact Ht|exact Hi|apply Hok|done|done|done|]. intros l Ht'. by exists l. }
  apply (proj1 (wp_ok _ _ _)) in Hw as ([] & s1 & He & l & -> & Ht1).
  exists (set_log l s), (inode_written sb v (i_inum x) (dinode_of x A)). split; [exact He|]. clear He.
  split; [done|]. split; [exact Ht1|]. split; [|split].
  - intros i Hne. by apply inode_on_other.
  - intros b Hne. unfold inode_written. by rewrite apply_write_ne by congruence.
  - intros y A' Hd Hin Hp Hr Hlk Hv.
    set (s1 := set_blk k A' (set_ino ip y (set_log l s))).
    assert (iown s1 ip y k A') as Hi1.
    { destruct Hi as [Hx _ _ [busy Ha]]. split; [|done|done|exists busy].
      - simpl. apply list_lookup_insert_eq. by eapply lookup_lt_Some.
      - unfold s1. simpl. by rewrite list_lookup_alter_eq, Ha. }
    assert (wp (xv6fs_ilock ip) s1 (fun _ s2 => iown s2 ip (loaded pid y (dinode_of x A)) k A)) as Hw.
    { eapply (wp_ilock_load V pid sb Hla); [exact Ht1|exact Hi1|done|done|done|by rewrite Hin| | |].
      - rewrite Hin. destruct Hf as [Hf1 Hf2]. split; [done|right; apply log_add_in].
      - rewrite Hin, inode_on_written by done. exact Hty.
      - rewrite Hin, inode_on_written by done. intros l2 di s' _ Hi2. exact Hi2. }
    apply (proj1 (wp_ok _ _ _)) in Hw as ([] & s2 & He & Hi2). exists s2. split; [exact He|exact Hi2].
Qed.

Lemma iupdate_ilock_roundtrip_witness :
  exists (s s1 s2 : fsst memdisk) x, xv6fs_iupdate 0 s = Ok tt s1 /\
    xv6fs_ilock 0 (set_blk 0 [] (set_ino 0 (Inode 1 3 1 (Sleeplock 0 0) 0 None 9 9 9 9 9 (Some (XAddrs 0))) s1)) = Ok tt s2 /\
    fs_inode s2 !! 0%nat = Some x /\ i_size x = 700.
Proof.
  set (x := Inode 1 3 1 (Sleeplock 1 7) 1 (Some XV6FS) T_FILE 0 0 1 700 (Some (XAddrs 0))).
  destruct (img_open x (40 :: replicate 12 0) eq_refl eq_refl) as (s & v & h & Ht & Hi & Hv).
  destruct (iupdate_ilock_roundtrip (dvalid img) 7 img_sb s v v h [] [] 0 x 0 (40 :: replicate 12 0))
    as (s1 & v1 & He1 & _ & _ & _ & _ & Hlk).
  - exact img_layout.
  - exact Ht.
  - exact Hi.
  - split; try (unfold s16_ok, u32_ok; simpl; lia); [done|]. apply (bool_decide_unpack _). by vm_compute.
  - done.
  - simpl. lia.
  - split; [apply not_elem_of_nil|left; simpl; unfold NBUF; lia].
  - simpl. lia.
  - destruct (Hlk (Inode 1 3 1 (Sleeplock 0 0) 0 None 9 9 9 9 9 (Some (XAddrs 0))) [] eq_refl eq_refl eq_refl
      ltac:(simpl; lia) eq_refl eq_refl) as (s2 & He2 & Hi2).
    exists s, s1, s2, (loaded 7 (Inode 1 3 1 (Sleeplock 0 0) 0 None 9 9 9 9 9 (Some (XAddrs 0)))
      (dinode_of x (40 :: replicate 12 0))). split; [exact He1|]. split; [exact He2|]. split; [apply Hi2|done].
Defined.
