(* ===== verification/FileSpec.v ===== *)
(** The contents of a file of the xv6 file system: [xv6fs_bmap], and [readi] and
    [writei] as operations on the bytes of the file. *)

From S2P Require Import Prelude Bytes Sleeplock Buf Ring Memide Bio Cache Log Txn Inode Xv6fs Example Blocks InodeSpec.

(** ** Counting free blocks *)

Lemma filter_agree {A} (P Q : A -> Prop) `{forall x, Decision (P x)} `{forall x, Decision (Q x)} (l : list A) :
  (forall x, x ∈ l -> P x <-> Q x) -> filter P l = filter Q l.
Proof.
  induction l as [|y l IH]; intros HPQ; [done|]. rewrite !filter_cons, IH by (intros; apply HPQ; by right).
  pose proof (HPQ y (list_elem_of_here _ _)). destruct (decide (P y)), (decide (Q y)); (done || tauto).
Qed.

Lemma filter_remove {A} (P Q : A -> Prop) `{forall x, Decision (P x)} `{forall x, Decision (Q x)} (l : list A) b :
  NoDup l -> b ∈ l -> P b -> (forall x, x ∈ l -> Q x <-> P x /\ x <> b) ->
  length (filter P l) = S (length (filter Q l)).
Proof.
  induction l as [|y l IH]; intros Hnd Hb HP HQ; [by apply not_elem_of_nil in Hb|].
  apply NoDup_cons in Hnd as [Hy Hnd]. rewrite !filter_cons.
  assert (forall x, x ∈ l -> Q x <-> P x /\ x <> b) as HQ' by (intros; apply HQ; by right).
  pose proof (HQ y (list_elem_of_here _ _)) as HQy.
  apply elem_of_cons in Hb as [<-|Hb].
  - rewrite decide_True by done. rewrite (decide_False (P := Q b)) by tauto. simpl. do 2 f_equal.
    apply filter_agree. intros x Hx. rewrite HQ' by done. split; [|tauto]. intros. split; [done|].
    by intros ->.
  - assert (y <> b) by (intros ->; done). specialize (IH Hnd Hb HP HQ').
    destruct (decide (P y)), (decide (Q y)); simpl; (lia || tauto).
Qed.

Section FileSpec.
Context {D : Type} `{DiskDriver D} `{!DiskDriverLaws D}.
Context (V : Z -> Z -> Prop) (pid : Z) (sb : superblock) (Hla : layout V sb).
Implicit Types (s : fsst D) (v d : blocks) (L A : list Z) (hs : list handle).

Abbreviation dev := ROOTDEV.
Abbreviation ftxn := (ftxn V pid sb).
Abbreviation in_use := (in_use sb).
Abbreviation bitmap_block := (bitmap_block sb).
Abbreviation allocated := (allocated sb).

Definition data_block (b : Z) : Prop := datastart sb <= b < sb_size sb.
Definition free_list v : list Z := filter (fun c => in_use v c = false) (seqZ 0 (sb_size sb)).
Definition nfree v : nat := length (free_list v).

(** No metadata block is free. *)
Definition bm_ok v : Prop := forall b, 0 <= b < sb_size sb -> in_use v b = false -> datastart sb <= b.

Lemma data_block_pos b : data_block b -> 0 < b < sb_size sb /\ sb_bmapstart sb < b /\ V dev b /\ 0 < sb_inodestart sb.
Proof.
  intros Hb. destruct Hla. unfold data_block, datastart, BPB, BSIZE, IPB in *. split_and!; try elia.
  apply Hla. elia.
Qed.

Lemma data_not_bitmap b c : data_block b -> 0 <= c < sb_size sb -> bitmap_block c <> b.
Proof. intros Hb Hc. pose proof (bitmap_block_range V sb Hla c Hc). unfold data_block in *. lia. Qed.

Lemma data_home b : data_block b -> home V dev (sb_logstart sb) (sb_nlog sb) b.
Proof.
  intros Hb. pose proof (bmapstart_datastart V sb Hla). apply (fs_home_range V sb Hla).
  pose proof (data_block_pos b Hb). pose proof (bitmap_block_range V sb Hla b). unfold data_block in *. lia.
Qed.

Lemma free_exists v : (0 < nfree v)%nat -> exists b, 0 <= b < sb_size sb /\ in_use v b = false.
Proof.
  unfold nfree. destruct (free_list v) as [|b l] eqn:Hl; simpl; [lia|]. intros _. exists b.
  assert (b ∈ free_list v) as Hb by (rewrite Hl; by left).
  unfold free_list in Hb. apply list_elem_of_filter in Hb as [? Hb]. apply elem_of_seqZ in Hb. split; [lia|done].
Qed.

Lemma bm_ok_bitmap v : bm_ok v -> bitmap_ok sb v [].
Proof. intros Hbm b Hb. split; [apply not_elem_of_nil|]. intros Hu. split; [by apply Hbm|apply not_elem_of_nil]. Qed.

Lemma bm_ok_bitmap_held v i c :
  bm_ok v -> data_block c -> in_use v c = true -> bitmap_ok sb v [(i, (dev, c))].
Proof.
  intros Hbm Hc Hu b Hb. simpl. rewrite !list_elem_of_singleton. split.
  - intros [= He]. by apply (data_not_bitmap c b).
  - intros Hf. split; [by apply Hbm|]. intros [= ->]. congruence.
Qed.

(** ** What allocation changes *)

Record grows v v' (b : Z) : Prop := {
  gr_data : data_block b;
  gr_free : in_use v b = false;
  gr_zero : v' dev b = zero_block;
  gr_other : forall c, data_block c -> c <> b -> v' dev c = v dev c;
  gr_meta : forall c, c < sb_bmapstart sb -> v' dev c = v dev c;
  gr_use : forall c, 0 <= c < sb_size sb -> in_use v' c = if decide (c = b) then true else in_use v c;
}.

Lemma allocated_grows v b :
  data_block b -> in_use v b = false -> block_ok (v dev (bitmap_block b)) -> grows v (allocated v b) b.
Proof.
  intros Hb Hu Hok. pose proof (data_block_pos b Hb) as Hp. split; [done|done| | | |].
  - apply apply_write_same.
  - intros c Hc Hne. pose proof (data_not_bitmap c b Hc ltac:(lia)). unfold Blocks.allocated.
    by rewrite !apply_write_ne by congruence.
  - intros c Hc. pose proof (bitmap_block_range V sb Hla b ltac:(lia)). unfold Blocks.allocated.
    rewrite !apply_write_ne; [done| |]; unfold Blocks.bitmap_block, BPB, BSIZE in *; intros [=]; elia.
  - intros c Hc. by apply (in_use_allocated V sb Hla).
Qed.

Lemma grows_bm v v' b : grows v v' b -> bm_ok v -> bm_ok v'.
Proof.
  intros Hg Hbm c Hc. rewrite (gr_use _ _ _ Hg) by done. case_decide; [done|]. by apply Hbm.
Qed.

Lemma grows_nfree v v' b : grows v v' b -> nfree v = S (nfree v').
Proof.
  intros Hg. pose proof (data_block_pos b (gr_data _ _ _ Hg)). apply (filter_remove _ _ _ b).
  - apply NoDup_seqZ.
  - apply elem_of_seqZ. lia.
  - apply Hg.
  - intros c Hc. apply elem_of_seqZ in Hc. rewrite (gr_use _ _ _ Hg) by lia. case_decide; naive_solver.
Qed.

(** Writing to a data block leaves the bitmap alone. *)
Lemma in_use_data_write v c b x :
  data_block b -> 0 <= c < sb_size sb -> in_use (apply_write v (dev, b, x)) c = in_use v c.
Proof. intros Hb Hc. apply in_use_write. intros [= He]. by apply (data_not_bitmap b c). Qed.

Lemma bm_ok_write v b x : data_block b -> bm_ok v -> bm_ok (apply_write v (dev, b, x)).
Proof. intros Hb Hbm c Hc. rewrite in_use_data_write by done. by apply Hbm. Qed.

Lemma nfree_write v b x : data_block b -> nfree (apply_write v (dev, b, x)) = nfree v.
Proof.
  intros Hb. unfold nfree, free_list. f_equal. apply filter_agree.
  intros c Hc. apply elem_of_seqZ in Hc. by rewrite in_use_data_write by (done || lia).
Qed.

(** ** The blocks of a file *)

Definition maxblk : Z := 268.

(** The indirect block, and the address of block [bn] of the file; 0 for none. *)
Definition ind A : Z := default 0 (A !! NDIRECT).
Definition baddr v A (bn : Z) : Z :=
  if bn <? 12 then default 0 (A !! Z.to_nat bn)
  else if ind A =? 0 then 0 else word_at (v dev (ind A)) (Z.to_nat (bn - 12)).

(** The addresses [f] with indirect block [i] are data blocks in use, all distinct. *)
Record addrs_ok (use : Z -> bool) (f : Z -> Z) (i : Z) : Prop := {
  ao_data : forall bn, 0 <= bn < maxblk -> f bn <> 0 -> data_block (f bn) /\ use (f bn) = true;
  ao_ind : i <> 0 -> data_block i /\ use i = true;
  ao_inj : forall bn bn', 0 <= bn < maxblk -> 0 <= bn' < maxblk -> f bn <> 0 -> f bn = f bn' -> bn = bn';
  ao_ne : forall bn, 0 <= bn < maxblk -> f bn <> 0 -> f bn <> i;
}.

Definition file_ok v A : Prop := length A = 13%nat /\ addrs_ok (in_use v) (baddr v A) (ind A).

Lemma addrs_ok_ext use use' f f' i :
  addrs_ok use f i -> (forall bn, 0 <= bn < maxblk -> f' bn = f bn) ->
  (forall c, data_block c -> use c = true -> use' c = true) -> addrs_ok use' f' i.
Proof.
  intros [H1 H2 H3 H4] Hf Hu. split.
  - intros bn Hbn. rewrite Hf by done. intros Hne. destruct (H1 bn Hbn Hne). auto.
  - intros Hi. destruct (H2 Hi). auto.
  - intros bn bn' Hbn Hbn'. rewrite !Hf by done. by apply H3.
  - intros bn Hbn. rewrite Hf by done. by apply H4.
Qed.

(** Linking a fresh block [b] as block [bn]. *)
Lemma addrs_ok_link use use' f f' i bn b :
  addrs_ok use f i -> data_block b -> use b = false -> use' b = true ->
  (forall c, data_block c -> use c = true -> use' c = true) ->
  0 <= bn < maxblk -> f' bn = b -> (forall n, 0 <= n < maxblk -> n <> bn -> f' n = f n) -> addrs_ok use' f' i.
Proof.
  intros [H1 H2 H3 H4] Hb Hfree Hub Hu Hbn Hf Hf'. pose proof (data_block_pos b Hb) as Hp.
  assert (forall n, 0 <= n < maxblk -> f n <> b) as Hfresh.
  { intros n Hn He. destruct (H1 n Hn) as [_ Hx]; [lia|]. rewrite He in Hx. congruence. }
  assert (i <> b) as Hi. { intros He. destruct H2 as [_ Hx]; [lia|]. rewrite He in Hx. congruence. }
  split.
  - intros n Hn Hne. destruct (decide (n = bn)) as [->|Hnb]; [by rewrite Hf|].
    rewrite Hf' in * by done. destruct (H1 n Hn Hne). auto.
  - intros Hi0. destruct (H2 Hi0). auto.
  - intros n n' Hn Hn' Hne He. destruct (decide (n = bn)) as [->|Hnb], (decide (n' = bn)) as [->|Hnb']; [done| | |].
    + rewrite Hf, Hf' in He by done. by destruct (Hfresh n' Hn').
    + rewrite Hf, Hf' in He by done. by destruct (Hfresh n Hn).
    + rewrite !Hf' in * by done. by apply H3.
  - intros n Hn Hne. destruct (decide (n = bn)) as [->|Hnb]; [rewrite Hf; congruence|].
    rewrite Hf' in * by done. by apply H4.
Qed.

(** Linking a fresh block as the indirect block. *)
Lemma addrs_ok_ind use use' f f' b :
  addrs_ok use f 0 -> data_block b -> use b = false -> use' b = true ->
  (forall c, data_block c -> use c = true -> use' c = true) ->
  (forall n, 0 <= n < maxblk -> f' n = f n) -> addrs_ok use' f' b.
Proof.
  intros [H1 H2 H3 H4] Hb Hfree Hub Hu Hf. split.
  - intros n Hn. rewrite Hf by done. intros Hne. destruct (H1 n Hn Hne). auto.
  - done.
  - intros n n' Hn Hn'. rewrite !Hf by done. by apply H3.
  - intros n Hn. rewrite Hf by done. intros Hne He. destruct (H1 n Hn Hne). congruence.
Qed.

(** ** [bmap] *)

(** The step from [v], [A] to [v'], [A'] that makes [addr] block [bn] of the file,
    with at most [q] fresh blocks. *)
Record maps (q : nat) v A v' A' (bn addr : Z) : Prop := {
  mp_ok : file_ok v' A';
  mp_addr : baddr v' A' bn = addr /\ data_block addr;
  mp_other : forall n, 0 <= n < maxblk -> n <> bn -> baddr v' A' n = baddr v A n;
  mp_old : baddr v A bn <> 0 -> v' = v /\ A' = A;
  mp_new : baddr v A bn = 0 -> v' dev addr = zero_block /\ in_use v addr = false;
  mp_ind : ind A' = ind A \/ in_use v (ind A') = false;
  mp_data : forall c, data_block c -> in_use v c = true -> c <> ind A -> v' dev c = v dev c;
  mp_meta : forall c, c < sb_bmapstart sb -> v' dev c = v dev c;
  mp_use : forall c, data_block c -> in_use v c = true -> in_use v' c = true;
  mp_bm : bm_ok v';
  mp_nfree : (nfree v <= nfree v' + q)%nat;
}.

Lemma grows_mono v v' b c : grows v v' b -> data_block c -> in_use v c = true -> in_use v' c = true.
Proof.
  intros Hg Hc Hu. pose proof (data_block_pos c Hc). rewrite (gr_use _ _ _ Hg) by lia. by case_decide.
Qed.

Lemma grows_baddr v v' b A n : grows v v' b -> file_ok v A -> baddr v' A n = baddr v A n.
Proof.
  intros Hg [_ Hok]. unfold baddr. destruct (n <? 12); [done|].
  destruct (ind A =? 0) eqn:Hi; [done|]. apply Z.eqb_neq in Hi.
  destruct (ao_ind _ _ _ Hok Hi) as [Hd Hu]. rewrite (gr_other _ _ _ Hg); [done|done|].
  intros He. rewrite He in Hu. by rewrite (gr_free _ _ _ Hg) in Hu.
Qed.

Lemma grows_use v v' b : grows v v' b -> in_use v' b = true.
Proof.
  intros Hg. pose proof (data_block_pos b (gr_data _ _ _ Hg)). rewrite (gr_use _ _ _ Hg) by lia.
  by rewrite decide_True.
Qed.

(** A direct block. *)
Lemma maps_direct v v' A bn b :
  file_ok v A -> bm_ok v -> 0 <= bn < 12 -> baddr v A bn = 0 -> grows v v' b ->
  maps 1 v A v' (<[Z.to_nat bn := b]> A) bn b.
Proof.
  intros Hf Hbm Hbn Hz Hg. pose proof Hf as [Hlen Hok].
  assert (ind (<[Z.to_nat bn := b]> A) = ind A) as Hind.
  { unfold ind, NDIRECT. by rewrite list_lookup_insert_ne by lia. }
  assert (baddr v' (<[Z.to_nat bn := b]> A) bn = b) as Hb.
  { unfold baddr. rewrite (proj2 (Z.ltb_lt bn 12)) by lia. by rewrite list_lookup_insert_eq by lia. }
  assert (forall n, 0 <= n < maxblk -> n <> bn -> baddr v' (<[Z.to_nat bn := b]> A) n = baddr v A n) as Ho.
  { intros n Hn Hne. rewrite <- (grows_baddr v v' b A n) by done. unfold baddr. rewrite Hind.
    by rewrite list_lookup_insert_ne by lia. }
  split.
  - split; [by rewrite length_insert|]. rewrite Hind.
    eapply addrs_ok_link; [exact Hok|apply Hg|apply Hg|by apply grows_use with v|by intros; eapply grows_mono| |exact Hb|done].
    unfold maxblk. lia.
  - split; [done|apply Hg].
  - done.
  - done.
  - intros _. split; apply Hg.
  - by left.
  - intros c Hc Hu _. apply (gr_other _ _ _ Hg); [done|]. intros ->. by rewrite (gr_free _ _ _ Hg) in Hu.
  - apply Hg.
  - intros c. by eapply grows_mono.
  - by eapply grows_bm.
  - rewrite (grows_nfree _ _ _ Hg). lia.
Qed.

(** A block behind the indirect block. *)
Lemma maps_indirect v v' A bn b :
  file_ok v A -> bm_ok v -> 12 <= bn < maxblk -> ind A <> 0 -> baddr v A bn = 0 -> grows v v' b ->
  block_ok (v dev (ind A)) ->
  maps 1 v A (apply_write v' (dev, ind A, set_word (v' dev (ind A)) (Z.to_nat (bn - 12)) b)) A bn b.
Proof.
  intros Hf Hbm Hbn Hi Hz Hg [Hlen _]. pose proof Hf as [HlA Hok]. unfold maxblk in Hbn.
  destruct (ao_ind _ _ _ Hok Hi) as [Hid Hiu].
  pose proof (data_block_pos b (gr_data _ _ _ Hg)) as Hbp. pose proof (data_block_pos _ Hid) as Hip.
  assert (ind A <> b) as Hib. { intros He. rewrite He, (gr_free _ _ _ Hg) in Hiu. done. }
  assert (v' dev (ind A) = v dev (ind A)) as Hvi by (by apply Hg). rewrite Hvi.
  set (v2 := apply_write v' _).
  assert (baddr v2 A bn = b) as Hb.
  { unfold baddr. rewrite (proj2 (Z.ltb_ge bn 12)), (proj2 (Z.eqb_neq _ _) Hi) by lia. unfold v2.
    rewrite apply_write_same. apply word_at_set_small; [rewrite Hlen; lia|destruct Hla; lia]. }
  assert (forall n, 0 <= n < maxblk -> n <> bn -> baddr v2 A n = baddr v A n) as Ho.
  { intros n Hn Hne. unfold baddr. destruct (n <? 12) eqn:Hn12; [done|]. apply Z.ltb_ge in Hn12.
    destruct (ind A =? 0); [done|]. unfold v2. rewrite apply_write_same. unfold maxblk in Hn.
    apply word_at_set_other; lia. }
  assert (forall c, data_block c -> in_use v c = true -> in_use v2 c = true) as Hmono.
  { intros c Hc Hu. pose proof (data_block_pos c Hc). unfold v2. rewrite in_use_data_write by (done || lia).
    by eapply grows_mono. }
  split.
  - split; [done|]. eapply addrs_ok_link; [exact Hok|apply Hg|apply Hg| |exact Hmono| |exact Hb|done].
    + unfold v2. rewrite in_use_data_write by (done || lia). by eapply grows_use.
    + unfold maxblk. lia.
  - split; [done|apply Hg].
  - done.
  - done.
  - intros _. split; [|apply Hg]. unfold v2. rewrite apply_write_ne by congruence. apply Hg.
  - by left.
  - intros c Hc Hu Hne. unfold v2. rewrite apply_write_ne by congruence. apply Hg; [done|].
    intros ->. by rewrite (gr_free _ _ _ Hg) in Hu.
  - intros c Hc. unfold v2. rewrite apply_write_ne by (intros [=]; lia). by apply (gr_meta _ _ _ Hg).
  - exact Hmono.
  - apply bm_ok_write; [done|]. by eapply grows_bm.
  - unfold v2. rewrite nfree_write by done. rewrite (grows_nfree _ _ _ Hg). lia.
Qed.

(** Allocating the indirect block itself. *)
Lemma zero_word i : word_at zero_block i = 0.
Proof. apply get_le_replicate_0. Qed.

Lemma ind_fresh v v' A b :
  file_ok v A -> ind A = 0 -> grows v v' b ->
  let A' := <[NDIRECT := b]> A in
  file_ok v' A' /\ ind A' = b /\ forall n, 0 <= n < maxblk -> baddr v' A' n = baddr v A n.
Proof.
  intros [Hlen Hok] Hi Hg A'. pose proof (data_block_pos b (gr_data _ _ _ Hg)) as Hbp.
  assert (ind A' = b) as Hi' by (unfold ind, A'; rewrite list_lookup_insert_eq by (unfold NDIRECT; lia); done).
  assert (forall n, 0 <= n < maxblk -> baddr v' A' n = baddr v A n) as Ho.
  { intros n Hn. unfold baddr. rewrite Hi, Hi'. destruct (n <? 12) eqn:Hn12.
    - apply Z.ltb_lt in Hn12. unfold A'. by rewrite list_lookup_insert_ne by (unfold NDIRECT; lia).
    - rewrite (proj2 (Z.eqb_neq b 0)) by lia. rewrite (gr_zero _ _ _ Hg). apply zero_word. }
  split; [|done]. split; [by unfold A'; rewrite length_insert|]. rewrite Hi'. rewrite Hi in Hok.
  eapply addrs_ok_ind; [exact Hok|apply Hg|apply Hg|by eapply grows_use|by intros; eapply grows_mono|done].
Qed.

Lemma maps_after_ind q v v1 v2 A A2 bn b addr :
  file_ok v A -> ind A = 0 -> grows v v1 b -> 12 <= bn < maxblk ->
  maps q v1 (<[NDIRECT := b]> A) v2 A2 bn addr -> maps (S q) v A v2 A2 bn addr.
Proof.
  intros Hf Hi Hg Hbn [M1 M2 M3 M4 M5 M0 M6 M7 M8 M9 M10].
  destruct (ind_fresh v v1 A b Hf Hi Hg) as (_ & Hind & Ho).
  assert (baddr v A bn = 0) as Hz by (unfold baddr; rewrite (proj2 (Z.ltb_ge bn 12)) by lia; by rewrite Hi).
  assert (forall c, in_use v c = true -> c <> b) as Hcb.
  { intros c Hu ->. by rewrite (gr_free _ _ _ Hg) in Hu. }
  split; try done.
  - intros n Hn Hne. rewrite M3, Ho; done.
  - intros _. rewrite Ho in M5 by lia. destruct (M5 Hz) as [M5a M5b]. split; [done|].
    destruct M2 as [_ M2]. pose proof (data_block_pos _ M2). rewrite (gr_use _ _ _ Hg) in M5b by lia. by case_decide.
  - right. rewrite Hind in M0. destruct M0 as [->|M0]; [apply Hg|].
    destruct (decide (ind A2 = b)) as [->|Hne]; [apply Hg|].
    assert (ind A2 <> 0 -> data_block (ind A2)) as Hd2. { intros Hi2. by apply M1. }
    destruct (decide (ind A2 = 0)) as [Hi0|Hi0].
    + rewrite Hi0 in *. rewrite (gr_use _ _ _ Hg) in M0; [by rewrite decide_False in M0|].
      pose proof (data_block_pos b (gr_data _ _ _ Hg)). lia.
    + pose proof (data_block_pos _ (Hd2 Hi0)). rewrite (gr_use _ _ _ Hg) in M0 by lia. by rewrite decide_False in M0.
  - intros c Hc Hu _. rewrite M6, (gr_other _ _ _ Hg); auto; [by eapply grows_mono|]. rewrite Hind. auto.
  - intros c Hc. rewrite M7 by done. by apply (gr_meta _ _ _ Hg).
  - intros c Hc Hu. apply M8; [done|]. by eapply grows_mono.
  - rewrite (grows_nfree _ _ _ Hg). lia.
Qed.

(** An operation on the file of table slot [k] changes the addresses in that slot
    and, of the other globals, only what is below the log. *)
Definition frame (k : nat) s s' : Prop := exists l A, s' = set_log l (set_blk k A s).

#[export] Instance frame_preorder k : PreOrder (frame k).
Proof.
  split.
  - intros s. exists (fs_log s), (default [] (a_blk <$> fs_xaddrs s !! k)). destruct s as [l sb' e i xs es].
    unfold set_log, set_blk, set_xaddrs. simpl. f_equal. apply list_eq. intros j.
    destruct (decide (j = k)) as [->|Hne]; [|by rewrite list_lookup_alter_ne].
    rewrite list_lookup_alter_eq. destruct (xs !! k) as [[busy A]|]; done.
  - intros s1 s2 s3 (l2 & A2 & ->) (l3 & A3 & ->). exists l3, A3. unfold set_log, set_blk, set_xaddrs. simpl. f_equal.
    apply list_eq. intros j.
    destruct (decide (j = k)) as [->|Hne]; [|by rewrite !list_lookup_alter_ne].
    rewrite !list_lookup_alter_eq. destruct (fs_xaddrs s1 !! k); done.
Qed.

Lemma frame_inodes k s s' : frame k s s' -> fs_inode s' = fs_inode s.
Proof. by intros (l & A & ->). Qed.

Lemma frame_log k l s : frame k s (set_log l s).
Proof. destruct (reflexivity s : frame k s s) as (l' & A & Hs). exists l, A. rewrite Hs at 1. done. Qed.

Lemma frame_blk k A s : frame k s (set_blk k A s).
Proof. exists (fs_log s), A. by destruct s. Qed.

Lemma frame_to s s' l k : frame k s s' -> frame k s (set_log l s').
Proof. intros Hf. etrans; [exact Hf|apply frame_log]. Qed.

Lemma wp_balloc_grows s v d h hs L Q :
  ftxn s v d h hs L -> bitmap_ok sb v hs -> (length L + length hs < 28)%nat -> (0 < nfree v)%nat ->
  (forall b l v' L', grows v v' b -> ftxn (set_log l s) v' d h hs L' -> L ⊆ L' ->
     (length L' <= length L + 2)%nat -> Q b (set_log l s)) ->
  wp (xv6fs_balloc dev) s Q.
Proof.
  intros Ht Hbm Hl Hn HQ. eapply (wp_balloc V pid sb Hla); [exact Ht|done|lia|lia|by apply free_exists|].
  intros b l Hb Hu _ Ht'. eapply HQ; [|exact Ht'| |].
  - apply allocated_grows; [done|done|]. eapply ftxn_block_ok; [exact Ht|]. apply Hla.
    pose proof (data_block_pos b Hb). pose proof (bitmap_block_range V sb Hla b ltac:(lia)). unfold data_block in Hb.
    pose proof (bmapstart_datastart V sb Hla). lia.
  - intros c Hc. by apply log_add_mono, log_add_mono.
  - pose proof (log_add_length (log_add L (bitmap_block b)) b). pose proof (log_add_length L (bitmap_block b)). lia.
Qed.

(** The part of [bmap] behind an indirect block. *)
Definition bmap_tail (i bn : Z) : M (fsst D) Z :=
  bp ← dbuf (bread dev i);
  data ← dbuf (bdata bp);
  addr ← (if word_at data (Z.to_nat bn) =? 0 then
            addr ← xv6fs_balloc dev;
            dbuf (bset bp (fun data => set_word data (Z.to_nat bn) addr)) ;;
            log (log_write bp) ;;
            mret addr
          else mret (word_at data (Z.to_nat bn)));
  dbuf (brelse bp) ;;
  mret addr.

Lemma maps_same v A bn :
  file_ok v A -> bm_ok v -> 0 <= bn < maxblk -> baddr v A bn <> 0 -> maps 0 v A v A bn (baddr v A bn).
Proof.
  intros Hf Hbm Hbn Hne. pose proof Hf as [_ Hok]. split; try done; [|by left|lia]. split; [done|]. by apply Hok.
Qed.

Lemma wp_bmap_tail s v d h L ip x k A bn Q :
  ftxn s v d h [] L -> iown s ip x k A -> file_ok v A -> bm_ok v -> 12 <= bn < maxblk -> ind A <> 0 ->
  (length L < 24)%nat -> baddr v A bn <> 0 \/ (1 <= nfree v)%nat ->
  (forall l v' addr L', ftxn (set_log l s) v' d h [] L' -> maps 1 v A v' A bn addr ->
     L ⊆ L' -> (length L' <= length L + 3)%nat -> (baddr v A bn <> 0 -> L' = L) -> Q addr (set_log l s)) ->
  wp (bmap_tail (ind A) (bn - 12)) s Q.
Proof.
  intros Ht Hi Hf Hbm Hbn Hind Hl Hfree HQ. pose proof Hf as [HlA Hok].
  destruct (ao_ind _ _ _ Hok Hind) as [Hid Hiu]. pose proof (data_home _ Hid) as Hih.
  assert (baddr v A bn = word_at (v dev (ind A)) (Z.to_nat (bn - 12))) as Hba.
  { unfold baddr. by rewrite (proj2 (Z.ltb_ge bn 12)), (proj2 (Z.eqb_neq _ _) Hind) by lia. }
  unfold bmap_tail. eapply wp_bind, (wpf_bread V pid sb); [exact Ht|apply Hih| |].
  { split; [apply not_elem_of_nil|left; simpl; unfold NBUF; lia]. }
  intros bp l1 H1 Hcl. eapply wp_bind, (wpf_bdata V pid sb); [exact H1|held|]. rewrite <- Hba.
  destruct (baddr v A bn =? 0) eqn:Hz.
  - apply Z.eqb_eq in Hz. destruct Hfree as [|Hfree]; [done|].
    assert (block_ok (v dev (ind A))) as Hbok by (eapply ftxn_block_ok; [exact H1|apply Hih]).
    eapply wp_bind, wp_bind, wp_balloc_grows; [exact H1|by apply bm_ok_bitmap_held|simpl; lia|lia|].
    intros b l2 v' L' Hg H2 HL HlL.
    assert (v' dev (ind A) = v dev (ind A)) as Hvi.
    { apply Hg; [done|]. intros He. rewrite He, (gr_free _ _ _ Hg) in Hiu. done. }
    eapply wp_bind, (wpf_bset V pid sb); [exact H2|held| |].
    { rewrite Hvi. destruct Hbok as [Hb1 Hb2]. split; [|by apply set_word_ok].
      rewrite length_set_word; [done|]. rewrite Hb1. unfold maxblk in Hbn. lia. }
    intros l3 H3. eapply wp_bind, (wpf_log_write V pid sb Hla); [exact H3|held|done|lia|]. intros l4 H4.
    apply wp_ret. eapply wp_bind, (wpf_brelse V pid sb); [exact H4|take_out|left; apply log_add_in|].
    intros l5 H5. apply wp_ret. eapply HQ; [exact H5| | | |].
    + by apply maps_indirect.
    + intros c Hc. by apply log_add_mono, HL.
    + pose proof (log_add_length L' (ind A)). lia.
    + done.
  - apply Z.eqb_neq in Hz. apply wp_bind, wp_ret.
    eapply wp_bind, (wpf_brelse V pid sb); [exact H1|take_out|done|]. intros l2 H2. apply wp_ret.
    eapply HQ; [exact H2| |done|lia|done]. destruct (maps_same v A bn Hf Hbm ltac:(lia) Hz). by split; try lia.
Qed.

Lemma maps_weaken q q' v A v' A' bn addr : (q <= q')%nat -> maps q v A v' A' bn addr -> maps q' v A v' A' bn addr.
Proof. intros Hq []. split; try done. lia. Qed.

(** The state after [bmap], for any postcondition. *)
Definition bmap_post s v d h L ip x k A bn (Q : Z -> fsst D -> Prop) : Prop :=
  forall s' v' A' addr L', ftxn s' v' d h [] L' -> iown s' ip x k A' -> frame k s s' ->
    maps 2 v A v' A' bn addr -> L ⊆ L' -> (length L' <= length L + 5)%nat ->
    (baddr v A bn <> 0 -> L' = L) -> Q addr s'.

Lemma wp_bmap_direct s v d h L ip x k A bn Q :
  ftxn s v d h [] L -> iown s ip x k A -> file_ok v A -> bm_ok v -> 0 <= bn < 12 ->
  (length L < 22)%nat -> baddr v A bn <> 0 \/ (2 <= nfree v)%nat ->
  bmap_post s v d h L ip x k A bn Q -> wp (xv6fs_bmap ip bn) s Q.
Proof.
  intros Ht Hi Hf Hbm Hbn Hl Hfree HQ. pose proof Hf as [HlA Hok]. unfold xv6fs_bmap.
  eapply wp_bind, wp_inode_at; [exact Hi|]. eapply wp_bind, wp_xptr; [exact Hi|].
  change (Z.of_nat NDIRECT) with 12. rewrite (proj2 (Z.ltb_lt bn 12)) by lia.
  eapply wp_bind, wp_xaddrs_at; [exact Hi|]. intros busy. simpl a_blk.
  destruct (lookup_lt_is_Some_2 A (Z.to_nat bn)) as [a Ha]; [lia|].
  assert (baddr v A bn = a) as Hba by (unfold baddr; rewrite (proj2 (Z.ltb_lt bn 12)) by lia; by rewrite Ha).
  eapply wp_bind, wp_deref; [exact Ha|]. rewrite <- Hba.
  destruct (baddr v A bn =? 0) eqn:Hz.
  - apply Z.eqb_eq in Hz. destruct Hfree as [|Hfree]; [done|]. rewrite (io_dev _ _ _ _ _ Hi).
    eapply wp_bind, wp_balloc_grows; [exact Ht|by apply bm_ok_bitmap|simpl; lia|lia|].
    intros b l1 v' L' Hg H1 HL HlL. eapply iown_log in Hi.
    eapply wp_bind, (wp_xaddrs_upd (fun A => <[Z.to_nat bn := b]> A)); [exact Hi|]. intros Hi2. apply wp_ret.
    eapply HQ; [apply ftxn_blk; exact H1|exact Hi2|etrans; [apply frame_log|apply frame_blk]| |done|lia|done].
    eapply maps_weaken, maps_direct; [lia|done..].
  - apply Z.eqb_neq in Hz. apply wp_ret.
    eapply HQ; [exact Ht|exact Hi|done| |done|lia|done]. eapply maps_weaken, maps_same; [lia|done|done| |done].
    unfold maxblk. lia.
Qed.

Lemma wp_bmap_indirect s v d h L ip x k A bn Q :
  ftxn s v d h [] L -> iown s ip x k A -> file_ok v A -> bm_ok v -> 12 <= bn < maxblk ->
  (length L < 22)%nat -> baddr v A bn <> 0 \/ (2 <= nfree v)%nat ->
  bmap_post s v d h L ip x k A bn Q -> wp (xv6fs_bmap ip bn) s Q.
Proof.
  intros Ht Hi Hf Hbm Hbn Hl Hfree HQ. pose proof Hf as [HlA Hok]. unfold xv6fs_bmap.
  eapply wp_bind, wp_inode_at; [exact Hi|]. eapply wp_bind, wp_xptr; [exact Hi|].
  change (Z.of_nat NDIRECT) with 12. rewrite (proj2 (Z.ltb_ge bn 12)) by lia.
  rewrite (proj2 (Z.ltb_lt (bn - 12) NINDIRECT)) by (unfold NINDIRECT, maxblk in *; lia).
  eapply wp_bind, wp_xaddrs_at; [exact Hi|]. intros busy. simpl a_blk.
  destruct (lookup_lt_is_Some_2 A NDIRECT) as [a Ha]; [unfold NDIRECT; lia|].
  assert (ind A = a) as Hind by (unfold ind; by rewrite Ha).
  eapply wp_bind, wp_deref; [exact Ha|]. rewrite <- Hind, (io_dev _ _ _ _ _ Hi).
  destruct (ind A =? 0) eqn:Hz.
  - apply Z.eqb_eq in Hz. destruct Hfree as [Hne|Hfree].
    { destruct Hne. unfold baddr. rewrite (proj2 (Z.ltb_ge bn 12)) by lia. by rewrite Hz. }
    eapply wp_bind, wp_bind, wp_balloc_grows; [exact Ht|by apply bm_ok_bitmap|simpl; lia|lia|].
    intros b l1 v1 L1 Hg H1 HL1 HlL1. eapply iown_log in Hi.
    eapply wp_bind, (wp_xaddrs_upd (fun A => <[NDIRECT := b]> A)); [exact Hi|]. intros Hi2. apply wp_ret.
    destruct (ind_fresh v v1 A b Hf Hz Hg) as (Hf1 & Hi1 & Ho).
    pose proof (data_block_pos b (gr_data _ _ _ Hg)) as Hbp. pose proof (grows_nfree _ _ _ Hg).
    change (wp (bmap_tail b (bn - 12)) (set_blk k (<[NDIRECT:=b]> A) (set_log l1 s)) Q).
    pose proof (wp_bmap_tail _ _ _ _ _ _ _ _ _ bn Q (ftxn_blk V pid sb _ _ _ _ _ _ k (<[NDIRECT:=b]> A) H1) Hi2) as Hw.
    rewrite Hi1 in Hw. apply Hw; [done|by eapply grows_bm|done|lia|lia|right; lia|].
    intros l2 v2 addr L2 H2 Hm HL2 HlL2 _. eapply HQ.
    + exact H2.
    + by apply iown_log.
    + apply frame_to. etrans; [apply frame_log|apply frame_blk].
    + by eapply maps_after_ind.
    + by etrans.
    + lia.
    + intros []. unfold baddr. rewrite (proj2 (Z.ltb_ge bn 12)) by lia. by rewrite Hz.
  - apply Z.eqb_neq in Hz. apply wp_bind, wp_ret.
    change (wp (bmap_tail (ind A) (bn - 12)) s Q).
    eapply wp_bmap_tail; [exact Ht|exact Hi|done|done|done|done|lia|destruct Hfree; [by left|right; lia]|].
    intros l v' addr L' H1 Hm HL HlL Hsame. eapply HQ; [exact H1|by apply iown_log|apply frame_log| |done|lia|done].
    eapply maps_weaken; [|exact Hm]. lia.
Qed.

Lemma wp_bmap s v d h L ip x k A bn Q :
  ftxn s v d h [] L -> iown s ip x k A -> file_ok v A -> bm_ok v -> 0 <= bn < maxblk ->
  (length L < 22)%nat -> baddr v A bn <> 0 \/ (2 <= nfree v)%nat ->
  bmap_post s v d h L ip x k A bn Q -> wp (xv6fs_bmap ip bn) s Q.
Proof.
  intros. destruct (decide (bn < 12)); [eapply wp_bmap_direct|eapply wp_bmap_indirect]; try done; lia.
Qed.

(** ** Bytes *)

(** The byte at offset [o] of the file, and its first [n] bytes from [off]. *)
Definition fbyte v A (o : Z) : Z := rd (v dev (baddr v A (o / 1024))) (o mod 1024).
Definition fbytes v A (off n : Z) : list Z := bytes_of (fun bn => v dev (baddr v A bn)) off n.

(** The file has blocks for its first [n] bytes. *)
Definition covered v A (n : Z) : Prop := forall bn, 0 <= bn -> bn * 1024 < n -> baddr v A bn <> 0.

Lemma slice_fbytes v A off m :
  length (v dev (baddr v A (off / 1024))) = 1024%nat -> 0 <= off -> 0 <= m <= 1024 - off mod 1024 ->
  slice (Z.to_nat (off mod 1024)) (Z.to_nat m) (v dev (baddr v A (off / 1024))) = fbytes v A off m.
Proof. apply (slice_bytes_of (fun bn => v dev (baddr v A bn))). Qed.

Lemma fbytes_app v A off m n : 0 <= m -> 0 <= n -> fbytes v A off m ++ fbytes v A (off + m) n = fbytes v A off (m + n).
Proof. apply bytes_of_app. Qed.

(** The rounds the copy loops need. *)
Definition needs (fuel : nat) (off left : Z) : Prop :=
  (0 < fuel)%nat /\ (0 < left -> (off mod 1024 + left + 1023) / 1024 < Z.of_nat fuel).

Lemma rounds_enough off n : 0 <= n -> needs (rounds n) off n.
Proof. intros. unfold needs, rounds. change BSIZE with 1024. split; [lia|]. intros. elia. Qed.

Lemma needs_next fuel off left m :
  needs (S fuel) off left -> 0 < left -> m = Z.min left (1024 - off mod 1024) -> 0 <= off ->
  needs fuel (off + m) (left - m) /\ 0 < m <= 1024 - off mod 1024 /\ m <= left.
Proof.
  unfold needs. intros [_ Hn] Hl Hm Ho. specialize (Hn Hl). split_and!; [elia|intros; elia|elia|elia|lia].
Qed.

Lemma wp_read_loop d h L ip x k A v fuel off left s Q :
  ftxn s v d h [] L -> iown s ip x k A -> file_ok v A -> bm_ok v -> covered v A (off + left) ->
  0 <= off -> 0 <= left -> off + left <= maxblk * 1024 -> (length L < 22)%nat -> needs fuel off left ->
  (forall s', ftxn s' v d h [] L -> iown s' ip x k A -> frame k s s' -> Q (fbytes v A off left) s') ->
  wp (xv6fs_read_loop fuel ip off left) s Q.
Proof.
  intros Ht Hi Hf Hbm Hcov Hoff Hleft Hmax Hl. revert s off left Ht Hi Hcov Hoff Hleft Hmax Q.
  induction fuel as [|fuel IH]; intros s off left Ht Hi Hcov Hoff Hleft Hmax Q Hfuel HQ.
  { exfalso. destruct Hfuel. lia. }
  simpl. destruct (left <=? 0) eqn:Hz.
  { apply Z.leb_le in Hz. replace left with 0 in * by lia. apply wp_ret. by apply HQ. }
  apply Z.leb_gt in Hz. change BSIZE with 1024. unfold maxblk in Hmax.
  set (m := Z.min left (1024 - off mod 1024)).
  destruct (needs_next fuel off left m Hfuel Hz eq_refl Hoff) as (Hfuel' & Hm & Hml).
  clearbody m. assert (0 <= off / 1024 < 268 /\ off / 1024 * 1024 <= off) as [Hbn Hbo] by elia.
  assert (baddr v A (off / 1024) <> 0) as Hne by (apply Hcov; lia).
  eapply wp_bind, wp_inode_at; [exact Hi|].
  eapply wp_bind, wp_bmap; [exact Ht|exact Hi|done|done|done|done|by left|].
  intros s1 v1 A1 addr L1 H1 Hi1 Hfr1 Hmp _ _ HL1.
  destruct (mp_old _ _ _ _ _ _ _ Hmp Hne) as [-> ->]. destruct (mp_addr _ _ _ _ _ _ _ Hmp) as [Haddr Hd].
  rewrite (HL1 Hne) in H1. pose proof (data_home _ Hd) as Hh. rewrite (io_dev _ _ _ _ _ Hi).
  eapply wp_bind, (wpf_bread V pid sb); [exact H1|apply Hh| |].
  { split; [apply not_elem_of_nil|left; simpl; unfold NBUF; lia]. }
  intros bp l2 H2 Hcl. eapply wp_bind, (wpf_bdata V pid sb); [exact H2|held|].
  assert (block_ok (v dev addr)) as [Hlen _] by (eapply ftxn_block_ok; [exact H2|apply Hh]).
  eapply wp_bind, (wpf_brelse V pid sb); [exact H2|take_out|done|]. intros l3 H3.
  eapply wp_bind, IH; [exact H3|by do 2 apply iown_log| |lia|lia|unfold maxblk; lia|done|].
  { intros bn ? ?. apply Hcov; lia. }
  intros s4 H4 Hi4 Hfr4. apply wp_ret. rewrite <- Haddr, slice_fbytes, fbytes_app by (rewrite ?Haddr; lia).
  replace (m + (left - m)) with left by lia. apply HQ; [done|done|].
  etrans; [do 2 apply frame_to; exact Hfr1|]. exact Hfr4.
Qed.

(** ** Writing *)

(** Block [c] does not belong to the file. *)
Definition not_in v A (c : Z) : Prop := c <> ind A /\ forall n, 0 <= n < maxblk -> baddr v A n <> c.

(** The step from [v], [A] to [v'], [A'] that stores [bs] at offset [off] of the
    file: other bytes of the file, metadata and the blocks of other files stay. *)
Record writes v A v' A' (off : Z) (bs : list Z) : Prop := {
  wr_ok : file_ok v' A';
  wr_bm : bm_ok v';
  wr_bytes : forall o, off <= o < off + Z.of_nat (length bs) -> fbyte v' A' o = rd bs (o - off);
  wr_keep : forall o, 0 <= o < maxblk * 1024 -> ~ (off <= o < off + Z.of_nat (length bs)) ->
    baddr v A (o / 1024) <> 0 -> fbyte v' A' o = fbyte v A o;
  wr_old : forall n, 0 <= n < maxblk -> baddr v A n <> 0 -> baddr v' A' n = baddr v A n;
  wr_cov : forall o, off <= o < off + Z.of_nat (length bs) -> baddr v' A' (o / 1024) <> 0;
  wr_same : (forall o, off <= o < off + Z.of_nat (length bs) -> baddr v A (o / 1024) <> 0) -> A' = A;
  wr_meta : forall c, c < sb_bmapstart sb -> v' dev c = v dev c;
  wr_others : forall c, data_block c -> in_use v c = true -> not_in v A c ->
    v' dev c = v dev c /\ in_use v' c = true /\ not_in v' A' c;
}.

Lemma rd_app_l l l' i : 0 <= i < Z.of_nat (length l) -> rd (l ++ l') i = rd l i.
Proof. intros. unfold rd. by rewrite lookup_app_l by lia. Qed.

Lemma rd_app_r l l' i : Z.of_nat (length l) <= i -> rd (l ++ l') i = rd l' (i - Z.of_nat (length l)).
Proof. intros. unfold rd. rewrite lookup_app_r by lia. do 2 f_equal. lia. Qed.

Lemma writes_nil v A off : file_ok v A -> bm_ok v -> writes v A v A off [].
Proof. intros. split; try done; simpl; lia. Qed.

Lemma writes_app v A v1 A1 v2 A2 off b1 b2 :
  0 <= off -> off + Z.of_nat (length b1) + Z.of_nat (length b2) <= maxblk * 1024 ->
  writes v A v1 A1 off b1 -> writes v1 A1 v2 A2 (off + Z.of_nat (length b1)) b2 -> writes v A v2 A2 off (b1 ++ b2).
Proof.
  intros Hoff Hmax W1 W2. unfold maxblk in Hmax.
  assert (forall o, 0 <= o < maxblk * 1024 -> 0 <= o / 1024 < maxblk) as Hdiv by (unfold maxblk; intros; elia).
  split; try apply W2.
  - rewrite length_app. intros o Ho. destruct (decide (o < off + Z.of_nat (length b1))) as [Hlt|Hge].
    + rewrite (wr_keep _ _ _ _ _ _ W2); [|unfold maxblk; lia|lia|apply (wr_cov _ _ _ _ _ _ W1); lia].
      rewrite (wr_bytes _ _ _ _ _ _ W1) by lia. by rewrite rd_app_l by lia.
    + rewrite (wr_bytes _ _ _ _ _ _ W2), rd_app_r by lia. f_equal. lia.
  - rewrite length_app. intros o Ho Hout Hne.
    rewrite (wr_keep _ _ _ _ _ _ W2); [|done|lia|by rewrite (wr_old _ _ _ _ _ _ W1) by auto].
    by apply (wr_keep _ _ _ _ _ _ W1); [|lia|].
  - intros n Hn Hne. rewrite (wr_old _ _ _ _ _ _ W2); [by apply (wr_old _ _ _ _ _ _ W1)|done|].
    by rewrite (wr_old _ _ _ _ _ _ W1) by done.
  - rewrite length_app. intros o Ho. destruct (decide (o < off + Z.of_nat (length b1))) as [Hlt|Hge].
    + pose proof (wr_cov _ _ _ _ _ _ W1 o ltac:(lia)) as Hc. rewrite (wr_old _ _ _ _ _ _ W2); [done| |done].
      apply Hdiv. unfold maxblk. lia.
    + apply (wr_cov _ _ _ _ _ _ W2). lia.
  - rewrite length_app. intros Hall. rewrite (wr_same _ _ _ _ _ _ W2).
    + apply (wr_same _ _ _ _ _ _ W1). intros o Ho. apply Hall. lia.
    + intros o Ho. rewrite (wr_old _ _ _ _ _ _ W1); [apply Hall; lia|apply Hdiv; unfold maxblk; lia|apply Hall; lia].
  - intros c Hc. by rewrite (wr_meta _ _ _ _ _ _ W2), (wr_meta _ _ _ _ _ _ W1).
  - intros c Hc Hu Hni. destruct (wr_others _ _ _ _ _ _ W1 c Hc Hu Hni) as (H1 & H2 & H3).
    destruct (wr_others _ _ _ _ _ _ W2 c Hc H2 H3) as (H4 & H5 & H6). split; [congruence|done].
Qed.

Lemma baddr_write v A c x n : c <> ind A -> baddr (apply_write v (dev, c, x)) A n = baddr v A n.
Proof. intros Hc. unfold baddr. by rewrite apply_write_ne by congruence. Qed.

(** One round of the copy loop. *)
Lemma writes_chunk v A v1 A1 off bs addr :
  file_ok v A -> 0 <= off -> (0 < length bs)%nat -> off mod 1024 + Z.of_nat (length bs) <= 1024 -> off < maxblk * 1024 ->
  maps 2 v A v1 A1 (off / 1024) addr -> length (v1 dev addr) = 1024%nat ->
  writes v A (apply_write v1 (dev, addr, splice (Z.to_nat (off mod 1024)) bs (v1 dev addr))) A1 off bs.
Proof.
  intros Hf Hoff Hbs0 Hbs Hmax Hmp Hlen. unfold maxblk in Hmax. pose proof (mp_addr _ _ _ _ _ _ _ Hmp) as [Haddr Hd].
  pose proof (data_block_pos _ Hd) as Hdp. pose proof (mp_ok _ _ _ _ _ _ _ Hmp) as [Hl1 Hok1].
  assert (0 <= off / 1024 < maxblk) as Hbn by (unfold maxblk; elia).
  assert (addr <> ind A1) as Hai by (rewrite <- Haddr; apply Hok1; [done|lia]).
  set (v2 := apply_write _ _). assert (forall n, baddr v2 A1 n = baddr v1 A1 n) as Hb by (intros; by apply baddr_write).
  assert (forall o, off / 1024 = o / 1024 -> fbyte v2 A1 o = rd (splice (Z.to_nat (off mod 1024)) bs (v1 dev addr)) (o mod 1024)) as Hin.
  { intros o Ho. unfold fbyte. rewrite Hb, <- Ho, Haddr. unfold v2. by rewrite apply_write_same. }
  split.
  - split; [done|]. eapply addrs_ok_ext; [exact Hok1|by intros; apply Hb|].
    intros c Hc Hu. pose proof (data_block_pos _ Hc). unfold v2. by rewrite in_use_data_write by (done || lia).
  - apply bm_ok_write; [done|]. apply Hmp.
  - intros o Ho. rewrite Hin by elia. unfold rd. rewrite lookup_splice_in by (rewrite ?Hlen; elia).
    do 2 f_equal. elia.
  - intros o Ho Hout Hne. destruct (decide (o / 1024 = off / 1024)) as [He|Hne'].
    + rewrite He in Hne. destruct (mp_old _ _ _ _ _ _ _ Hmp Hne) as [-> ->]. rewrite Hin by done.
      unfold rd. rewrite lookup_splice_out by (rewrite ?Hlen; elia). unfold fbyte. by rewrite He, Haddr.
    + assert (0 <= o / 1024 < maxblk) as Hobn by (unfold maxblk in *; elia). destruct Hf as [_ Hok].
      pose proof (mp_other _ _ _ _ _ _ _ Hmp (o / 1024) Hobn Hne') as Ho1.
      unfold fbyte. rewrite Hb, Ho1. unfold v2. rewrite apply_write_ne.
      * rewrite (mp_data _ _ _ _ _ _ _ Hmp); [done|by apply Hok..].
      * intros [= He]. apply Hne'. apply (ao_inj _ _ _ Hok1); [done|done| |]; rewrite Ho1; [done|congruence].
  - intros n Hn Hne. rewrite Hb. destruct (decide (n = off / 1024)) as [->|Hne'].
    + by destruct (mp_old _ _ _ _ _ _ _ Hmp Hne) as [-> ->].
    + by apply (mp_other _ _ _ _ _ _ _ Hmp).
  - intros o Ho. rewrite Hb. replace (o / 1024) with (off / 1024) by elia. rewrite Haddr. lia.
  - intros Hall. apply Hmp. apply Hall. lia.
  - intros c Hc. unfold v2. rewrite apply_write_ne by (intros [=]; lia). by apply (mp_meta _ _ _ _ _ _ _ Hmp).
  - intros c Hc Hu [Hni Hn]. pose proof (data_block_pos _ Hc).
    assert (c <> addr) as Hca.
    { intros ->. destruct (decide (baddr v A (off / 1024) = 0)) as [Hz|Hz].
      - destruct (mp_new _ _ _ _ _ _ _ Hmp Hz). congruence.
      - destruct (mp_old _ _ _ _ _ _ _ Hmp Hz) as [-> ->]. by apply (Hn (off / 1024)). }
    split; [|split; [|split]].
    + unfold v2. rewrite apply_write_ne by congruence. by apply (mp_data _ _ _ _ _ _ _ Hmp).
    + unfold v2. rewrite in_use_data_write by (done || lia). by apply (mp_use _ _ _ _ _ _ _ Hmp).
    + destruct (mp_ind _ _ _ _ _ _ _ Hmp) as [->|Hi]; [done|]. by intros ->; rewrite Hi in Hu.
    + intros n Hnr. rewrite Hb. destruct (decide (n = off / 1024)) as [->|Hne]; [by rewrite Haddr|].
      rewrite (mp_other _ _ _ _ _ _ _ Hmp) by done. by apply Hn.
Qed.

(** The number of rounds of the copy loop. *)
Definition chunks (off left : Z) : Z := if 0 <? left then (off mod 1024 + left + 1023) / 1024 else 0.

Lemma chunks_next off left m :
  0 < left -> m = Z.min left (1024 - off mod 1024) -> 0 <= off ->
  chunks off left = 1 + chunks (off + m) (left - m) /\ 0 <= chunks (off + m) (left - m) /\
  0 < m <= 1024 - off mod 1024 /\ m <= left.
Proof.
  intros Hl Hm Ho. unfold chunks. rewrite (proj2 (Z.ltb_lt 0 left) Hl).
  destruct (0 <? left - m) eqn:He; [apply Z.ltb_lt in He|apply Z.ltb_ge in He]; split_and!; elia.
Qed.

Lemma nfree_maps_write q v A v1 A1 bn addr x :
  maps q v A v1 A1 bn addr -> (nfree v <= nfree (apply_write v1 (dev, addr, x)) + q)%nat.
Proof.
  intros Hmp. pose proof (mp_addr _ _ _ _ _ _ _ Hmp) as [_ Hd]. rewrite nfree_write by done. apply Hmp.
Qed.

Lemma wp_write_loop d h ip x k fuel s v A L src off left Q :
  ftxn s v d h [] L -> iown s ip x k A -> file_ok v A -> bm_ok v -> bytes_ok src ->
  0 <= off -> 0 <= left -> Z.of_nat (length src) = left -> off + left <= maxblk * 1024 ->
  Z.of_nat (length L) + 6 * chunks off left <= 27 -> 2 * chunks off left <= Z.of_nat (nfree v) -> needs fuel off left ->
  (forall s' v' A' L', ftxn s' v' d h [] L' -> iown s' ip x k A' -> frame k s s' -> writes v A v' A' off src ->
     Z.of_nat (length L') <= Z.of_nat (length L) + 6 * chunks off left -> Q (off + left) s') ->
  wp (xv6fs_write_loop fuel ip src off left) s Q.
Proof.
  revert s v A L src off left Q. induction fuel as [|fuel IH];
    intros s v A L src off left Q Ht Hi Hf Hbm Hsrc Hoff Hleft Hsl Hmax HL Hfree Hfuel HQ.
  { exfalso. destruct Hfuel. lia. }
  simpl. destruct (left <=? 0) eqn:Hz.
  { apply Z.leb_le in Hz. apply wp_ret. replace off with (off + left) at 1 by lia.
    destruct src; [|simpl in Hsl; lia]. eapply HQ; [exact Ht|done|done|by apply writes_nil|]. unfold chunks in *. case_match; lia. }
  apply Z.leb_gt in Hz. change BSIZE with 1024. set (m := Z.min left (1024 - off mod 1024)).
  destruct (needs_next fuel off left m Hfuel Hz eq_refl Hoff) as (Hfuel' & Hm & Hml).
  destruct (chunks_next off left m Hz eq_refl Hoff) as (Hch & Hch0 & _).
  clearbody m. unfold maxblk in Hmax. assert (0 <= off / 1024 < 268) as Hbn by elia.
  eapply wp_bind, wp_inode_at; [exact Hi|].
  eapply wp_bind, wp_bmap; [exact Ht|exact Hi|done|done|done|lia|right; lia|].
  intros s1 v1 A1 addr L1 H1 Hi1 Hfr1 Hmp HL1 HlL1 _. pose proof (mp_addr _ _ _ _ _ _ _ Hmp) as [Haddr Hd].
  pose proof (data_home _ Hd) as Hh. rewrite (io_dev _ _ _ _ _ Hi).
  eapply wp_bind, (wpf_bread V pid sb); [exact H1|apply Hh| |].
  { split; [apply not_elem_of_nil|left; simpl; unfold NBUF; lia]. }
  intros bp l2 H2 Hcl. assert (block_ok (v1 dev addr)) as [Hlen Hbo] by (eapply ftxn_block_ok; [exact H2|apply Hh]).
  set (bs := take (Z.to_nat m) src). assert (length bs = Z.to_nat m) as Hbs by (unfold bs; rewrite length_take; lia).
  assert (0 <= off mod 1024 < 1024) as Hom by elia.
  eapply wp_bind, (wpf_bset V pid sb); [exact H2|held| |].
  { split; [rewrite length_splice; [done|lia]|]. apply Forall_splice; [by apply Forall_take|done]. }
  intros l3 H3. eapply wp_bind, (wpf_log_write V pid sb Hla); [exact H3|held|done|lia|]. intros l4 H4.
  eapply wp_bind, (wpf_brelse V pid sb); [exact H4|take_out|left; apply log_add_in|]. intros l5 H5.
  pose proof (log_add_length L1 addr) as Hadd.
  assert (writes v A (apply_write v1 (dev, addr, splice (Z.to_nat (off mod 1024)) bs (v1 dev addr))) A1 off bs) as Hw.
  { apply writes_chunk; try done; unfold maxblk; lia. }
  pose proof (nfree_maps_write _ _ _ _ _ _ _ (splice (Z.to_nat (off mod 1024)) bs (v1 dev addr)) Hmp) as Hnf.
  eapply IH; [exact H5|by do 4 apply iown_log|apply Hw|apply Hw|by apply Forall_drop|lia|lia| |unfold maxblk; lia|lia|lia|done|].
  { rewrite length_drop. lia. }
  intros s6 v6 A6 L6 H6 Hi6 Hfr6 Hw6 HL6. replace (off + m + (left - m)) with (off + left) by lia.
  eapply HQ; [exact H6|done| | |lia].
  - etrans; [do 4 apply frame_to; exact Hfr1|exact Hfr6].
  - rewrite <- (take_drop (Z.to_nat m) src). fold bs. eapply writes_app; [done| |exact Hw|].
    + rewrite Hbs, length_drop. unfold maxblk. lia.
    + rewrite Hbs, Z2Nat.id by lia. exact Hw6.
Qed.
End FileSpec.
