(* ===== verification/CString.v ===== *)
(** Memory and string routines of the kernel, string.c.

    [memmove] and [memset] work on one array of bytes with pointers as offsets, so
    that overlapping ranges are as in the source. The string routines take what is
    in memory from a pointer on; those that write give the bytes they store from
    the destination on. [None] is an access outside of the array. Characters are
    bytes, 0 to 255. *)

From S2P Require Import Prelude Bytes.

(** ** memmove *)

(** [while(n-- > 0) *d++ = *s++]. *)
Fixpoint copy_forward (n : nat) (d s : nat) (mem : list Z) : option (list Z) :=
  match n with
  | O => Some mem
  | S n =>
      c ← mem !! s;
      _ ← mem !! d;
      copy_forward n (S d) (S s) (<[d := c]> mem)
  end.

(** [while(n-- > 0) *--d = *--s]. *)
Fixpoint copy_backward (n : nat) (d s : nat) (mem : list Z) : option (list Z) :=
  match n, s, d with
  | O, _, _ => Some mem
  | S n, S s, S d =>
      c ← mem !! s;
      _ ← mem !! d;
      copy_backward n d s (<[d := c]> mem)
  | _, _, _ => None
  end.

Definition memmove (mem : list Z) (d s n : nat) : option (list Z) :=
  if (s <? d)%nat && (d <? s + n)%nat then copy_backward n (d + n) (s + n) mem
  else copy_forward n d s mem.

(** ** memset *)

(** The [stosb] and [stosl] instructions: [cnt] stores of a byte or a word. *)
Fixpoint stosb (d : nat) (c : Z) (cnt : nat) (mem : list Z) : option (list Z) :=
  match cnt with
  | O => Some mem
  | S cnt => _ ← mem !! d; stosb (S d) c cnt (<[d := u8 c]> mem)
  end.
Fixpoint stosl (d : nat) (w : Z) (cnt : nat) (mem : list Z) : option (list Z) :=
  match cnt with
  | O => Some mem
  | S cnt => _ ← mem !! (d + 3)%nat; stosl (d + 4) w cnt (splice d (le_enc 4 w) mem)
  end.

(** [base] is the address of the array. *)
Definition memset (base : Z) (mem : list Z) (d : nat) (c : Z) (n : nat) : option (list Z) :=
  if ((base + Z.of_nat d) mod 4 =? 0) && (n mod 4 =? 0)%nat then
    let c := Z.land c 255 in
    stosl d (Z.lor (Z.lor (Z.lor (Z.shiftl c 24) (Z.shiftl c 16)) (Z.shiftl c 8)) c) (n / 4) mem
  else stosb d c n mem.

(** ** Comparing *)

Fixpoint memcmp (s1 s2 : list Z) (n : nat) {struct n} : option Z :=
  match n with
  | O => Some 0
  | S n =>
      match s1, s2 with
      | a :: s1, b :: s2 => if negb (a =? b) then Some (a - b) else memcmp s1 s2 n
      | _, _ => None
      end
  end.

Fixpoint strncmp (p q : list Z) (n : nat) {struct n} : option Z :=
  match n with
  | O => Some 0
  | S n =>
      match p, q with
      | a :: p, b :: q => if negb (a =? 0) && (a =? b) then strncmp p q n else Some (a - b)
      | _, _ => None
      end
  end.

(** ** Copying *)

(** The second loop pads with NULs up to [n] bytes. *)
Fixpoint strncpy (t : list Z) (n : nat) {struct n} : option (list Z) :=
  match n with
  | O => Some []
  | S n' =>
      match t with
      | [] => None
      | c :: t => if c =? 0 then Some (0 :: replicate n' 0) else cons c <$> strncpy t n'
      end
  end.

Fixpoint safestrcpy_loop (t : list Z) (n : nat) {struct n} : option (list Z) :=
  match n with
  | O => Some [0]
  | S n =>
      match t with
      | [] => None
      | c :: t => if c =? 0 then Some [0; 0] else cons c <$> safestrcpy_loop t n
      end
  end.
Definition safestrcpy (t : list Z) (n : Z) : option (list Z) :=
  if n <=? 0 then Some [] else safestrcpy_loop t (Z.to_nat (n - 1)).

Fixpoint strlen (s : list Z) : option Z :=
  match s with
  | [] => None
  | c :: s => if c =? 0 then Some 0 else Z.succ <$> strlen s
  end.

(** * Specification *)

(** The string that starts at a pointer: what is before the first NUL. *)
Fixpoint cstr (l : list Z) : list Z :=
  match l with
  | [] => []
  | c :: l => if c =? 0 then [] else c :: cstr l
  end.

(** There is a NUL in the array. *)
Definition terminated (l : list Z) : Prop := 0 ∈ l.

Lemma copy_forward_spec n d s mem :
  (d + n <= length mem)%nat -> (s + n <= length mem)%nat -> (d <= s \/ s + n <= d)%nat ->
  copy_forward n d s mem = Some (splice d (slice s n mem) mem).
Proof.
  revert d s mem. induction n as [|n IH]; intros d s mem Hd Hs Hov; simpl.
  { unfold slice, splice. simpl. by rewrite Nat.add_0_r, take_drop. }
  destruct (lookup_lt_is_Some_2 mem s) as [c Hc]; [lia|].
  destruct (lookup_lt_is_Some_2 mem d) as [e He]; [lia|]. rewrite Hc, He. simpl.
  rewrite IH by (rewrite ?length_insert; lia). f_equal. apply list_eq. intros i.
  assert (length (slice s (S n) mem) = S n) as Hl1 by (apply length_slice; lia).
  assert (length (slice (S s) n (<[d := c]> mem)) = n) as Hl2 by (apply length_slice; rewrite length_insert; lia).
  destruct (decide (S d <= i < S d + n)%nat) as [Hi|Hi].
  - rewrite lookup_splice_in by (rewrite ?length_insert; lia). rewrite lookup_splice_in by lia.
    rewrite !lookup_slice by lia. rewrite list_lookup_insert_ne by lia. f_equal. lia.
  - rewrite lookup_splice_out by (rewrite ?length_insert; lia). destruct (decide (i = d)) as [->|Hne].
    + rewrite list_lookup_insert_eq by lia. rewrite lookup_splice_in by lia.
      rewrite lookup_slice by lia. rewrite <- Hc. f_equal. lia.
    + rewrite list_lookup_insert_ne by lia. rewrite lookup_splice_out by lia. done.
Qed.

Lemma copy_backward_spec n d s mem :
  (d + n <= length mem)%nat -> (s + n <= length mem)%nat -> (s <= d)%nat ->
  copy_backward n (d + n) (s + n) mem = Some (splice d (slice s n mem) mem).
Proof.
  revert mem. induction n as [|n IH]; intros mem Hd Hs Hov.
  { simpl. unfold slice, splice. simpl. by rewrite Nat.add_0_r, take_drop. }
  rewrite !Nat.add_succ_r. cbn [copy_backward].
  destruct (lookup_lt_is_Some_2 mem (s + n)) as [c Hc]; [lia|].
  destruct (lookup_lt_is_Some_2 mem (d + n)) as [e He]; [lia|]. rewrite Hc, He. simpl.
  rewrite IH by (rewrite ?length_insert; lia). f_equal. apply list_eq. intros i.
  assert (length (slice s (S n) mem) = S n) as Hl1 by (apply length_slice; lia).
  assert (length (slice s n (<[(d + n)%nat := c]> mem)) = n) as Hl2
    by (apply length_slice; rewrite length_insert; lia).
  destruct (decide (d <= i < d + n)%nat) as [Hi|Hi].
  - rewrite lookup_splice_in by (rewrite ?length_insert; lia). rewrite lookup_splice_in by lia.
    rewrite !lookup_slice by lia. rewrite list_lookup_insert_ne by lia. done.
  - rewrite lookup_splice_out by (rewrite ?length_insert; lia). destruct (decide (i = d + n)%nat) as [->|Hne].
    + rewrite list_lookup_insert_eq by lia. rewrite lookup_splice_in by lia.
      rewrite lookup_slice by lia. rewrite <- Hc. f_equal. lia.
    + rewrite list_lookup_insert_ne by lia. rewrite lookup_splice_out by lia. done.
Qed.

Lemma stosb_spec d c n mem :
  (d + n <= length mem)%nat -> stosb d c n mem = Some (splice d (replicate n (u8 c)) mem).
Proof.
  revert d mem. induction n as [|n IH]; intros d mem Hd; cbn [stosb].
  { unfold splice. simpl. by rewrite Nat.add_0_r, take_drop. }
  destruct (lookup_lt_is_Some_2 mem d) as [e He]; [lia|]. rewrite He. simpl.
  rewrite IH by (rewrite length_insert; lia). f_equal. apply list_eq. intros i.
  rewrite !lookup_splice by (simpl; rewrite ?length_insert, ?length_replicate; lia).
  simpl length. rewrite !length_replicate. destruct (decide (i = d)) as [->|Hne].
  - rewrite decide_False, decide_True by lia. rewrite list_lookup_insert_eq by lia.
    by rewrite Nat.sub_diag.
  - rewrite list_lookup_insert_ne by lia. do 2 case_decide; try lia; [|done].
    change (u8 c :: replicate n (u8 c)) with (replicate (S n) (u8 c)).
    rewrite !lookup_replicate_2 by lia. done.
Qed.

(** The word [memset] stores is four times the byte: checked for the 256 bytes. *)
Lemma word_of_byte c : 0 <= c < 256 ->
  le_enc 4 (Z.lor (Z.lor (Z.lor (Z.shiftl c 24) (Z.shiftl c 16)) (Z.shiftl c 8)) c) = replicate 4 c.
Proof.
  intros Hc. set (P := fun c => le_enc 4 (Z.lor (Z.lor (Z.lor (Z.shiftl c 24) (Z.shiftl c 16)) (Z.shiftl c 8)) c)
    = replicate 4 c).
  assert (Forall P (seqZ 0 256)) as HF by (apply (bool_decide_unpack _); by vm_compute).
  rewrite Forall_forall in HF. apply HF, elem_of_seqZ. lia.
Qed.

Lemma stosl_spec d c n mem :
  0 <= c < 256 -> (d + 4 * n <= length mem)%nat ->
  stosl d (Z.lor (Z.lor (Z.lor (Z.shiftl c 24) (Z.shiftl c 16)) (Z.shiftl c 8)) c) n mem =
  Some (splice d (replicate (4 * n) c) mem).
Proof.
  intros Hc. set (w := Z.lor _ c). assert (le_enc 4 w = replicate 4 c) as Hw by (by apply word_of_byte).
  clearbody w. revert d mem. induction n as [|n IH]; intros d mem Hd; cbn [stosl].
  { unfold splice. simpl. by rewrite Nat.add_0_r, take_drop. }
  destruct (lookup_lt_is_Some_2 mem (d + 3)) as [e He]; [lia|]. rewrite He, Hw. cbn [mbind option_bind].
  rewrite IH by (rewrite length_splice; simpl; lia). f_equal. apply list_eq. intros i.
  rewrite !lookup_splice by (rewrite ?length_splice, ?length_replicate; simpl length; lia).
  rewrite !length_replicate. repeat case_decide; try lia; try done; by rewrite !lookup_replicate_2 by lia.
Qed.

(** [memmove] copies as if through a temporary copy, whatever the overlap of
    source and destination: [n] bytes at [d] become what the [n] bytes at [s]
    were, and no other byte changes. *)
Theorem memmove_snapshot mem d s n :
  (d + n <= length mem)%nat -> (s + n <= length mem)%nat ->
  memmove mem d s n = Some (splice d (slice s n mem) mem).
Proof.
  intros Hd Hs. unfold memmove. destruct (Nat.ltb_spec s d), (Nat.ltb_spec d (s + n)); simpl.
  - apply copy_backward_spec; lia.
  - apply copy_forward_spec; lia.
  - apply copy_forward_spec; lia.
  - apply copy_forward_spec; lia.
Qed.

Lemma memmove_snapshot_witness :
  memmove [1; 2; 3; 4; 5; 6] 2 0 4 = Some [1; 2; 1; 2; 3; 4].
Proof. rewrite (memmove_snapshot [1; 2; 3; 4; 5; 6] 2 0 4); [reflexivity|simpl; lia|simpl; lia]. Defined.

(** [memset] fills [n] bytes with the low byte of [c] and changes nothing else,
    by words when address and length are multiples of four and by bytes
    otherwise. *)
Theorem memset_fills base mem d c n :
  (d + n <= length mem)%nat -> memset base mem d c n = Some (splice d (replicate n (u8 c)) mem).
Proof.
  intros Hd. unfold memset. assert (Z.land c 255 = u8 c) as Hc by (apply (Z.land_ones c 8); lia).
  case_match eqn:Hm; [|by apply stosb_spec]. apply andb_true_iff in Hm as [_ Hm]. apply Nat.eqb_eq in Hm.
  rewrite Hc. pose proof (Nat.div_mod_eq n 4). rewrite stosl_spec by (apply u8_range || lia).
  do 3 f_equal. lia.
Qed.

Lemma memset_fills_witness : memset 4096 [1; 2; 3; 4; 5; 6] 0 263 4 = Some [7; 7; 7; 7; 5; 6].
Proof. rewrite (memset_fills 4096 [1; 2; 3; 4; 5; 6] 0 263 4); [reflexivity|simpl; lia]. Defined.

(** ** Strings *)

Lemma cstr_take l n : cstr (take n l) = take n (cstr l).
Proof.
  revert n. induction l as [|c l IH]; intros [|n]; try done. simpl. case_match; [done|]. by rewrite IH.
Qed.

Lemma terminated_cons c l : terminated (c :: l) -> c <> 0 -> terminated l.
Proof. unfold terminated. intros Ht Hc. apply elem_of_cons in Ht as [<-|]; [done|done]. Qed.

(** [strncmp] stays inside of its arguments when they are terminated or have [n]
    bytes. *)
Definition readable (l : list Z) (n : nat) : Prop := terminated l \/ (n <= length l)%nat.

Lemma readable_cons c l n : readable (c :: l) (S n) -> c <> 0 -> readable l n.
Proof.
  intros [Ht|Hl] Hc; [left; by eapply terminated_cons|right]. simpl in Hl. lia.
Qed.

Lemma readable_nil n : readable [] (S n) -> False.
Proof. intros [Ht|Hl]; [by apply not_elem_of_nil in Ht|simpl in Hl; lia]. Qed.

(** [strncmp] on every input: it is defined, zero exactly on strings that agree
    up to [n] bytes, and otherwise the difference at the first byte that differs. *)
Lemma strncmp_spec n p q :
  bytes_ok p -> bytes_ok q -> readable p n -> readable q n ->
  exists r, strncmp p q n = Some r /\ (r = 0 <-> take n (cstr p) = take n (cstr q)).
Proof.
  revert p q. induction n as [|n IH]; intros p q Hp Hq Hrp Hrq; [by exists 0|].
  destruct p as [|a p]; [by apply readable_nil in Hrp|]. destruct q as [|b q]; [by apply readable_nil in Hrq|].
  apply Forall_cons in Hp as [Ha Hp]. apply Forall_cons in Hq as [Hb Hq]. simpl.
  destruct (Z.eqb_spec a 0) as [->|Ha0]; simpl.
  - exists (0 - b). split; [done|]. destruct (Z.eqb_spec b 0); [subst; done|]. split; [lia|done].
  - destruct (Z.eqb_spec a b) as [->|Hab]; simpl.
    + rewrite (proj2 (Z.eqb_neq _ _) Ha0).
      destruct (IH p q Hp Hq) as (r & Hr & Hz); [by eapply readable_cons..|].
      exists r. split; [done|]. rewrite Hz. simpl. split; [by intros ->|by intros [= ->]].
    + exists (a - b). split; [done|].
      destruct (Z.eqb_spec b 0); (split; [lia|]); [done|]. intros [= ->]. done.
Qed.

(** [strncpy]: [n] bytes, the string cut at [n] and NULs after it. *)
Lemma strncpy_spec t n :
  readable t n -> strncpy t n = Some (take n (cstr t) ++ replicate (n - length (cstr t)) 0).
Proof.
  revert t. induction n as [|n IH]; intros t Hr; [done|].
  destruct t as [|c t]; [by apply readable_nil in Hr|]. simpl.
  destruct (Z.eqb_spec c 0) as [->|Hc]; [done|]. rewrite IH by (by eapply readable_cons). done.
Qed.

Lemma strlen_spec s : terminated s -> strlen s = Some (Z.of_nat (length (cstr s))).
Proof.
  induction s as [|c s IH]; intros Ht; [by apply not_elem_of_nil in Ht|]. simpl.
  destruct (Z.eqb_spec c 0) as [->|Hc]; [done|]. rewrite IH by (by eapply terminated_cons).
  cbn [fmap option_fmap option_map length]. f_equal. lia.
Qed.

Lemma safestrcpy_loop_spec t n :
  readable t n -> exists l, safestrcpy_loop t n = Some l /\ (length l <= S n)%nat /\
    cstr l = take n (cstr t) /\ terminated l.
Proof.
  revert t. induction n as [|n IH]; intros t Hr.
  { exists [0]. split_and!; [done|simpl; lia|done|apply list_elem_of_here]. }
  destruct t as [|c t]; [by apply readable_nil in Hr|]. simpl.
  destruct (Z.eqb_spec c 0) as [->|Hc].
  - exists [0; 0]. split_and!; [done|simpl; lia|done|apply list_elem_of_here].
  - destruct (IH t) as (l & -> & Hl & Hs & Ht); [by eapply readable_cons|].
    exists (c :: l). split_and!; [done|simpl; lia| |by apply list_elem_of_further].
    simpl. by rewrite (proj2 (Z.eqb_neq _ _) Hc), Hs.
Qed.
