(* ===== verification/Kalloc.v ===== *)
(** Physical memory and its allocator (kalloc.c).

    Memory is the set of pages at their kernel addresses, each 4096 bytes. The free
    list runs through the first word of the free pages themselves. *)

From S2P Require Import Prelude Bytes.

Definition PGSIZE : Z := 4096.
Definition KERNBASE : Z := 2147483648.
Definition PHYSTOP : Z := 234881024.
Definition EXTMEM : Z := 1048576.
Definition DEVSPACE : Z := 4261412864.
Definition KERNLINK : Z := KERNBASE + EXTMEM.
Definition V2P (a : Z) : Z := u32 (a - KERNBASE).
Definition P2V (a : Z) : Z := u32 (a + KERNBASE).
Definition PGROUNDUP (sz : Z) : Z := Z.land (u32 (sz + PGSIZE - 1)) (Z.lnot (PGSIZE - 1)).
Definition PGROUNDDOWN (a : Z) : Z := Z.land a (Z.lnot (PGSIZE - 1)).

(** [kmem] and the memory it manages. *)
Record vmst := Vmst { vm_mem : gmap Z (list Z); freelist : Z; use_lock : Z }.
Definition set_mem m (s : vmst) := Vmst m (freelist s) (use_lock s).
Definition set_freelist p (s : vmst) := Vmst (vm_mem s) p (use_lock s).

(** The page at [p], a fault if there is none; and the update of its bytes. *)
Definition page_at (p : Z) : M vmst (list Z) := fun s => deref (vm_mem s !! p) s.
Definition page_upd (p : Z) (f : list Z -> list Z) : M vmst unit :=
  l ← page_at p; modify (fun s => set_mem (<[p := f l]> (vm_mem s)) s).

(** [memset(v, c, PGSIZE)]. *)
Definition fill_page (c : Z) : list Z := replicate 4096 c.
Arguments fill_page : simpl never.

Section Kalloc.
(** [end], the first address after the kernel. *)
Context (kend : Z).

Definition kfree (v : Z) : M vmst unit :=
  guard_ok (negb (v mod PGSIZE =? 0) || (v <? kend) || (PHYSTOP <=? V2P v)) (panic "kfree") ;;
  page_upd v (fun _ => fill_page 1) ;;
  next ← gets freelist;
  page_upd v (fun l => set_word l 0 next) ;;
  modify (set_freelist v).

Definition kalloc : M vmst Z :=
  r ← gets freelist;
  if r =? 0 then mret 0
  else
    l ← page_at r;
    modify (set_freelist (word_at l 0)) ;;
    mret r.

(** The pages of [freerange]: from [PGROUNDUP(vstart)] while a whole page is left. *)
Fixpoint freerange_loop (fuel : nat) (p vend : Z) : M vmst unit :=
  match fuel with
  | O => nofuel
  | S fuel => if p + PGSIZE <=? vend then kfree p ;; freerange_loop fuel (p + PGSIZE) vend else mret tt
  end.
Definition freerange (vstart vend : Z) : M vmst unit :=
  freerange_loop (S (Z.to_nat ((vend - PGROUNDUP vstart) / PGSIZE))) (PGROUNDUP vstart) vend.

(** [kinit1] and [kinit2]; the lock is free at this point of the boot. *)
Definition kinit1 (vstart vend : Z) : M vmst unit :=
  modify (fun s => Vmst (vm_mem s) (freelist s) 0) ;; freerange vstart vend.
Definition kinit2 (vstart vend : Z) : M vmst unit :=
  freerange vstart vend ;; modify (fun s => Vmst (vm_mem s) (freelist s) 1).

(** ** The free list *)

Definition page_ok (l : list Z) : Prop := length l = 4096%nat /\ bytes_ok l.

(** A page the allocator may hold. *)
Definition allocatable (p : Z) : Prop := p mod 4096 = 0 /\ kend <= p /\ KERNBASE < p < KERNBASE + PHYSTOP.

(** [fl m p l]: the list from [p] on is [l]. *)
Inductive fl (m : gmap Z (list Z)) : Z -> list Z -> Prop :=
  | fl_nil : fl m 0 []
  | fl_cons p pg l : allocatable p -> m !! p = Some pg -> fl m (word_at pg 0) l -> fl m p (p :: l).

(** The free pages are [l], each once, and every page has its bytes. *)
Record kmem_ok (s : vmst) (l : list Z) : Prop := {
  km_list : fl (vm_mem s) (freelist s) l;
  km_nodup : NoDup l;
  km_pages : map_Forall (fun _ => page_ok) (vm_mem s);
}.

Lemma fl_insert m p l q pg : fl m p l -> q ∉ l -> fl (<[q := pg]> m) p l.
Proof.
  induction 1 as [|p pg' l Ha Hp Hfl IH]; intros Hq; [constructor|].
  apply not_elem_of_cons in Hq as [Hne Hq]. eapply fl_cons; [done| |by apply IH].
  by rewrite lookup_insert_ne.
Qed.

Lemma fl_allocatable m p l q : fl m p l -> q ∈ l -> allocatable q.
Proof.
  induction 1 as [|p pg' l Ha Hp Hfl IH]; intros Hq; [by apply not_elem_of_nil in Hq|].
  apply elem_of_cons in Hq as [->|Hq]; auto.
Qed.

Lemma fl_page m p l q : fl m p l -> q ∈ l -> is_Some (m !! q).
Proof.
  induction 1 as [|p pg' l Ha Hp Hfl IH]; intros Hq; [by apply not_elem_of_nil in Hq|].
  apply elem_of_cons in Hq as [->|Hq]; eauto.
Qed.

Lemma fl_det m p l l' : fl m p l -> fl m p l' -> l = l'.
Proof.
  intros Hl. revert l'. induction Hl as [|p pg l Ha Hp Hfl IH]; intros l' Hl'.
  - inversion Hl' as [|p' pg' l'' Ha]; [done|]. subst. destruct Ha as (_ & _ & Ha). unfold KERNBASE in *. lia.
  - inversion Hl' as [|p' pg' l'' Ha' Hp']; subst.
    + destruct Ha as (_ & _ & Ha). unfold KERNBASE in *. lia.
    + f_equal. apply IH. congruence.
Qed.

(** Pages outside of the free list may be written. *)
Lemma kmem_ok_write s l p pg :
  kmem_ok s l -> p ∉ l -> page_ok pg -> kmem_ok (set_mem (<[p := pg]> (vm_mem s)) s) l.
Proof.
  intros [Hfl Hnd Hpg] Hp Hok. split; [by apply fl_insert|done|by apply map_Forall_insert_2].
Qed.

Lemma wp_page_at p pg s (Q : list Z -> vmst -> Prop) : vm_mem s !! p = Some pg -> Q pg s -> wp (page_at p) s Q.
Proof. intros Hp HQ. unfold wp, page_at. by rewrite Hp. Qed.

Lemma wp_page_upd p pg f s (Q : unit -> vmst -> Prop) :
  vm_mem s !! p = Some pg -> Q tt (set_mem (<[p := f pg]> (vm_mem s)) s) -> wp (page_upd p f) s Q.
Proof. intros Hp HQ. eapply wp_bind, wp_page_at; [done|]. by apply wp_modify. Qed.

(** ** [kalloc] and [kfree] *)

Lemma wp_kalloc s l (Q : Z -> vmst -> Prop) :
  kmem_ok s l ->
  match l with
  | [] => Q 0 s
  | p :: l => forall q, kmem_ok (set_freelist q s) l -> Q p (set_freelist q s)
  end ->
  wp kalloc s Q.
Proof.
  intros [Hfl Hnd Hpg] HQ. unfold kalloc. eapply wp_bind, wp_gets.
  destruct s as [m fr u]. simpl in *. destruct Hfl as [|p pg l' Ha Hp Hfl'].
  - by apply wp_ret.
  - pose proof Ha as (_ & _ & Hr). rewrite (proj2 (Z.eqb_neq p 0)) by (unfold KERNBASE in *; lia).
    eapply wp_bind, wp_page_at; [exact Hp|]. eapply wp_bind, wp_modify, wp_ret.
    apply HQ. apply NoDup_cons in Hnd as [_ Hnd]. by split.
Qed.

Lemma page_ok_fill c : byte_ok c -> page_ok (fill_page c).
Proof. intros. split; [done|]. by apply Forall_replicate. Qed.

Lemma page_ok_set_word pg i z : page_ok pg -> (4 * i + 4 <= 4096)%nat -> page_ok (set_word pg i z).
Proof. intros [Hl Hok] Hi. split; [by rewrite length_set_word; rewrite ?Hl|by apply set_word_ok]. Qed.

Lemma V2P_allocatable p : allocatable p -> V2P p = p - KERNBASE.
Proof. intros (_ & _ & Hp). unfold V2P. apply u32_small. unfold KERNBASE, PHYSTOP in *. lia. Qed.

Lemma kfree_checks p :
  (negb (p mod PGSIZE =? 0) || (p <? kend) || (PHYSTOP <=? V2P p)) = true <->
  ~ (p mod 4096 = 0 /\ kend <= p /\ V2P p < PHYSTOP).
Proof. unfold PGSIZE. rewrite !orb_true_iff, negb_true_iff, Z.eqb_neq, Z.ltb_lt, Z.leb_le. lia. Qed.

(** The page as [kfree] leaves it: ones, and the link in its first word. *)
Definition freed_page (next : Z) : list Z := set_word (fill_page 1) 0 next.

Lemma fl_head_u32 m p l : fl m p l -> 0 <= p < 4294967296.
Proof. intros Hfl. destruct Hfl as [|p pg l (_ & _ & Ha)]; unfold KERNBASE, PHYSTOP in *; lia. Qed.

Lemma wp_kfree s l p (Q : unit -> vmst -> Prop) :
  kmem_ok s l -> allocatable p -> p ∉ l -> is_Some (vm_mem s !! p) ->
  (let s' := set_freelist p (set_mem (<[p := freed_page (freelist s)]> (vm_mem s)) s) in
   kmem_ok s' (p :: l) -> Q tt s') ->
  wp (kfree p) s Q.
Proof.
  intros [Hfl Hnd Hpg] Ha Hp [pg Hpp] HQ. unfold kfree.
  destruct (negb (p mod PGSIZE =? 0) || (p <? kend) || (PHYSTOP <=? V2P p)) eqn:Hc.
  { exfalso. apply kfree_checks in Hc. apply Hc. rewrite V2P_allocatable by done.
    destruct Ha as (? & ? & ?). unfold KERNBASE, PHYSTOP in *. lia. }
  eapply wp_bind, wp_ret. eapply wp_bind, wp_page_upd; [exact Hpp|]. eapply wp_bind, wp_gets.
  eapply wp_bind, wp_page_upd; [simpl; apply lookup_insert_eq|]. apply wp_modify.
  unfold set_mem, set_freelist in *. simpl in *. rewrite insert_insert_eq. apply HQ.
  split; [|by apply NoDup_cons|].
  - eapply fl_cons; [done|apply lookup_insert_eq|]. unfold freed_page.
    rewrite word_at_set_small; [by apply fl_insert|unfold fill_page; rewrite length_replicate; lia|by eapply fl_head_u32].
  - apply map_Forall_insert_2; [|done]. apply page_ok_set_word; [by apply page_ok_fill|lia].
Qed.

Lemma kfree_panics s p : ~ (p mod 4096 = 0 /\ kend <= p /\ V2P p < PHYSTOP) -> kfree p s = Panic "kfree".
Proof. intros Hp. apply kfree_checks in Hp. unfold kfree. by rewrite Hp. Qed.

(** ** [freerange] *)

(** The pages put on the list, the last one first. *)
Fixpoint pages_of (p : Z) (n : nat) : list Z :=
  match n with O => [] | S n => pages_of (p + 4096) n ++ [p] end.

Lemma elem_of_pages_of p n q : q ∈ pages_of p n <-> exists i, 0 <= i < Z.of_nat n /\ q = p + 4096 * i.
Proof.
  revert p. induction n as [|n IH]; intros p; simpl.
  - rewrite elem_of_nil. split; [done|]. intros (i & Hi & _). lia.
  - rewrite elem_of_app, list_elem_of_singleton, IH. split.
    + intros [(i & Hi & ->)| ->]; [exists (i + 1)|exists 0]; lia.
    + intros (i & Hi & ->). destruct (decide (i = 0)); [right; lia|left; exists (i - 1); lia].
Qed.

Lemma wp_freerange_loop fuel n p vend s l (Q : unit -> vmst -> Prop) :
  kmem_ok s l -> (n < fuel)%nat -> p + 4096 * Z.of_nat n <= vend < p + 4096 * Z.of_nat n + 4096 ->
  (forall q, q ∈ pages_of p n -> allocatable q /\ (q ∉ l) /\ is_Some (vm_mem s !! q)) ->
  (forall s', kmem_ok s' (pages_of p n ++ l) -> dom (vm_mem s') = dom (vm_mem s) ->
     (forall q, q ∉ pages_of p n -> vm_mem s' !! q = vm_mem s !! q) -> Q tt s') ->
  wp (freerange_loop fuel p vend) s Q.
Proof.
  revert fuel p s l Q. induction n as [|n IH]; intros [|fuel] p s l Q Hok Hf Hv Hq HQ; try lia; simpl; unfold PGSIZE.
  - rewrite (proj2 (Z.leb_gt _ _)) by lia. apply wp_ret. by apply HQ.
  - rewrite (proj2 (Z.leb_le _ _)) by lia.
    destruct (Hq p) as (Ha & Hp & Hm); [apply elem_of_pages_of; exists 0; lia|].
    eapply wp_bind, wp_kfree; [done|done|done|done|]. intros s1 Hok1.
    assert (dom (vm_mem s1) = dom (vm_mem s)) as Hdom by (simpl; rewrite dom_insert_L; by apply subseteq_union_1_L, singleton_subseteq_l, elem_of_dom).
    eapply IH; [exact Hok1|lia|lia| |].
    + intros q Hqn. pose proof (proj1 (elem_of_pages_of _ _ _) Hqn) as (i & Hi & Hqi).
      destruct (Hq q) as (Haq & Hql & Hqm); [apply elem_of_app; by left|]. split; [done|].
      split; [apply not_elem_of_cons; split; [lia|done]|]. rewrite <- elem_of_dom, Hdom. by apply elem_of_dom.
    + change (pages_of p (S n)) with (pages_of (p + 4096) n ++ [p]) in *. intros s' Hok' Hd Hm'. apply HQ; [by rewrite <- app_assoc|by rewrite Hd|].
      intros q Hqn. rewrite not_elem_of_app, not_elem_of_cons in Hqn. rewrite Hm' by tauto. apply lookup_insert_ne. naive_solver.
Qed.

Lemma wp_freerange n vstart vend s l (Q : unit -> vmst -> Prop) :
  let p := PGROUNDUP vstart in
  kmem_ok s l -> p + 4096 * Z.of_nat n <= vend < p + 4096 * Z.of_nat n + 4096 ->
  (forall q, q ∈ pages_of p n -> allocatable q /\ (q ∉ l) /\ is_Some (vm_mem s !! q)) ->
  (forall s', kmem_ok s' (pages_of p n ++ l) -> dom (vm_mem s') = dom (vm_mem s) ->
     (forall q, q ∉ pages_of p n -> vm_mem s' !! q = vm_mem s !! q) -> Q tt s') ->
  wp (freerange vstart vend) s Q.
Proof.
  intros p Hok Hn Hq HQ. eapply wp_freerange_loop; [exact Hok| |exact Hn|exact Hq|exact HQ].
  fold p. unfold PGSIZE. replace ((vend - p) / 4096) with (Z.of_nat n) by elia. lia.
Qed.

(** ** Clients

    [own] are the pages allocated and not freed since. Clients free only pages they
    own, and write only to those. *)
Inductive kstep : vmst * list Z -> vmst * list Z -> Prop :=
  | ks_none s own s' : kalloc s = Ok 0 s' -> kstep (s, own) (s', own)
  | ks_alloc s own p s' : kalloc s = Ok p s' -> p <> 0 -> kstep (s, own) (s', p :: own)
  | ks_free s o1 p o2 s' : kfree p s = Ok tt s' -> kstep (s, o1 ++ p :: o2) (s', o1 ++ o2)
  | ks_write s own p pg : p ∈ own -> page_ok pg -> kstep (s, own) (set_mem (<[p := pg]> (vm_mem s)) s, own).

(** The pages [all] exist and may be on the free list. *)
Definition backed (all : list Z) (s : vmst) : Prop :=
  forall p, p ∈ all -> allocatable p /\ is_Some (vm_mem s !! p).

(** Every page of [all] is owned or free, exactly once. *)
Definition kinv (all : list Z) (c : vmst * list Z) : Prop :=
  exists l, kmem_ok c.1 l /\ NoDup (c.2 ++ l) /\ c.2 ++ l ≡ₚ all /\ backed all c.1.

Lemma backed_dom all s s' : backed all s -> dom (vm_mem s') = dom (vm_mem s) -> backed all s'.
Proof.
  intros HF Hd p Hp. destruct (HF p Hp) as [Ha Hs]. split; [done|].
  rewrite <- elem_of_dom, Hd. by apply elem_of_dom.
Qed.

Lemma dom_page_write (m : gmap Z (list Z)) p pg : is_Some (m !! p) -> dom (<[p := pg]> m) = dom m.
Proof. intros Hp. rewrite dom_insert_L. by apply subseteq_union_1_L, singleton_subseteq_l, elem_of_dom. Qed.

Lemma kalloc_result s l p s' :
  kmem_ok s l -> kalloc s = Ok p s' ->
  (l = [] /\ p = 0 /\ s' = s) \/ exists l' q, l = p :: l' /\ p <> 0 /\ s' = set_freelist q s /\ kmem_ok s' l'.
Proof.
  intros Hok He. refine (wp_Ok kalloc s p s' (fun p s' => (l = [] /\ p = 0 /\ s' = s) \/
    exists l' q, l = p :: l' /\ p <> 0 /\ s' = set_freelist q s /\ kmem_ok s' l') He _).
  clear He. eapply (wp_kalloc s l); [done|]. destruct l as [|r l]; [by left|].
  intros q Hok'. right. exists l, q. split_and!; [done| |done|done].
  destruct (fl_allocatable _ _ _ r (km_list _ _ Hok) (list_elem_of_here _ _)) as (_ & _ & Ha). unfold KERNBASE in Ha. lia.
Qed.

Lemma kfree_result s l p s' :
  kmem_ok s l -> allocatable p -> p ∉ l -> is_Some (vm_mem s !! p) -> kfree p s = Ok tt s' ->
  kmem_ok s' (p :: l) /\ dom (vm_mem s') = dom (vm_mem s).
Proof.
  intros Hok Ha Hp Hm He.
  refine (wp_Ok (kfree p) s tt s' (fun _ s' => kmem_ok s' (p :: l) /\ dom (vm_mem s') = dom (vm_mem s)) He _).
  clear He. eapply (wp_kfree s l p); [done|done|done|done|].
  intros s1 Hok1. split; [done|]. by apply dom_page_write.
Qed.

Lemma nodup_middle (o1 o2 l : list Z) p :
  NoDup ((o1 ++ p :: o2) ++ l) -> (p ∉ l) /\ NoDup ((o1 ++ o2) ++ p :: l) /\
  (o1 ++ o2) ++ p :: l ≡ₚ (o1 ++ p :: o2) ++ l.
Proof.
  intros Hnd. assert ((o1 ++ o2) ++ p :: l ≡ₚ (o1 ++ p :: o2) ++ l) as Hperm.
  { rewrite <- (Permutation_middle (o1 ++ o2)), <- (Permutation_middle o1). done. }
  split; [|split; [by rewrite Hperm|done]]. rewrite <- Hperm in Hnd.
  apply list.NoDup_app in Hnd as (_ & _ & Hnd). by apply NoDup_cons in Hnd as [? _].
Qed.

Lemma kstep_inv all c c' : kstep c c' -> kinv all c -> kinv all c'.
Proof.
  intros Hstep (l & Hok & Hnd & Hp & Hall).
  destruct Hstep as [s own s' He|s own p s' He Hne|s o1 p o2 s' He|s own p pg Hin Hpg]; simpl in *.
  - destruct (kalloc_result _ _ _ _ Hok He) as [(-> & _ & ->)|(l' & q & _ & ? & _)]; [by exists []|done].
  - destruct (kalloc_result _ _ _ _ Hok He) as [(_ & -> & _)|(l' & q & -> & _ & -> & Hok')]; [done|].
    exists l'. split; [done|]. simpl. rewrite <- (Permutation_middle own l' p) in Hnd, Hp. done.
  - destruct (nodup_middle _ _ _ _ Hnd) as (Hpl & Hnd' & Hperm).
    destruct (Hall p) as [Ha Hm]. { rewrite <- Hp, !elem_of_app. left; right; by left. }
    destruct (kfree_result _ _ _ _ Hok Ha Hpl Hm He) as [Hok' Hd].
    exists (p :: l). split; [done|]. simpl. split; [done|]. split; [by rewrite Hperm|by eapply backed_dom].
  - exists l. simpl. split_and!; [|done|done|].
    + apply kmem_ok_write; [done| |done]. intros Hl. apply list.NoDup_app in Hnd as (_ & Hd & _). by apply (Hd p).
    + eapply backed_dom; [done|]. apply dom_page_write, Hall. rewrite <- Hp, elem_of_app. by left.
Qed.

Lemma kinv_reach all c c' : rtc kstep c c' -> kinv all c -> kinv all c'.
Proof. induction 1; [done|]. eauto using kstep_inv. Qed.

Lemma pages_of_nodup p n : NoDup (pages_of p n).
Proof.
  revert p. induction n as [|n IH]; intros p; simpl; [apply NoDup_nil_2|].
  apply list.NoDup_app. split; [apply IH|]. split; [|apply NoDup_singleton].
  intros x Hx ->%list_elem_of_singleton. apply elem_of_pages_of in Hx as (i & Hi & Hx). lia.
Qed.
End Kalloc.

(** * Properties *)

Lemma PGROUNDUP_spec a : 0 <= a < 4294963200 -> PGROUNDUP a = (a + 4095) / 4096 * 4096.
Proof.
  intros Ha. unfold PGROUNDUP, PGSIZE. rewrite u32_small by lia. change (4096 - 1) with (Z.ones 12).
  rewrite <- Z.ldiff_land, Z.ldiff_ones_r, Z.shiftl_mul_pow2, Z.shiftr_div_pow2 by lia.
  change (2 ^ 12) with 4096. f_equal. f_equal. lia.
Qed.

(** C36: The page allocator. After [kinit1] of a range of existing pages above the
    kernel, and however its clients allocate, free what they own and write to what
    they own: every page of the range is owned by one client or free, never both
    and never twice; [kalloc] returns, with the null pointer exactly when every
    page is owned; and freeing a page one owns does not panic. *)
Theorem kalloc_no_double kend vstart vend s0 n :
  freelist s0 = 0 -> map_Forall (fun _ => page_ok) (vm_mem s0) ->
  0 <= vstart < 4294963200 ->
  let all := pages_of (PGROUNDUP vstart) n in
  PGROUNDUP vstart + 4096 * Z.of_nat n <= vend < PGROUNDUP vstart + 4096 * Z.of_nat n + 4096 ->
  backed kend all s0 ->
  exists s1, kinit1 kend vstart vend s0 = Ok tt s1 /\
    forall s own, rtc (kstep kend) (s1, []) (s, own) ->
      NoDup own /\ (forall p, p ∈ own -> p ∈ all) /\
      (exists p s', kalloc s = Ok p s' /\ (p = 0 <-> own ≡ₚ all) /\ (p <> 0 -> p ∈ all /\ p ∉ own)) /\
      (forall p, p ∈ own -> exists s', kfree kend p s = Ok tt s').
Proof.
  intros Hf Hpg Hvs all Hve Hall.
  assert (wp (kinit1 kend vstart vend) s0 (fun _ s1 => kinv kend all (s1, []))) as Hw.
  { unfold kinit1. eapply wp_bind, wp_modify. 
    eapply (wp_freerange kend n); [split; [simpl; rewrite Hf; constructor|apply NoDup_nil_2|done]|done| |].
    - intros q Hq. destruct (Hall q Hq). split; [done|]. split; [apply not_elem_of_nil|done].
    - intros s' Hok Hd _. exists all. rewrite app_nil_r in Hok. split; [done|]. simpl.
      split; [apply pages_of_nodup|]. split; [done|]. by eapply backed_dom. }
  apply (proj1 (wp_ok _ _ _)) in Hw as ([] & s1 & He & Hinv). exists s1. split; [exact He|]. clear He.
  intros s own Hr. apply (kinv_reach kend all) in Hr; [|done]. destruct Hr as (l & Hok & Hnd & Hp & Hb). simpl in *.
  pose proof Hnd as Hnd'. apply list.NoDup_app in Hnd' as (Hno & Hdis & _). split; [done|].
  assert (forall p, p ∈ own -> p ∈ all) as Hin by (intros p Hpo; rewrite <- Hp, elem_of_app; by left).
  split; [done|]. split.
  - assert (wp kalloc s (fun p _ => (p = 0 <-> l = []) /\ (p <> 0 -> p ∈ l))) as Hw.
    { eapply (wp_kalloc kend s l); [done|]. destruct l as [|r l]; [done|]. intros q _. split; [|intros _; by left].
      destruct (fl_allocatable kend _ _ _ r (km_list _ _ _ Hok) (list_elem_of_here _ _)) as (_ & _ & Ha).
      unfold KERNBASE in Ha. split; [lia|done]. }
    apply (proj1 (wp_ok _ _ _)) in Hw as (p & s' & He & Hz & Hl). exists p, s'. split; [exact He|]. clear He. split.
    + rewrite Hz. split; [intros ->; by rewrite app_nil_r in Hp|].
      intros Ho. rewrite Ho in Hp. destruct l; [done|]. apply Permutation_length in Hp. rewrite length_app in Hp. simpl in Hp. lia.
    + intros Hne. specialize (Hl Hne). split; [rewrite <- Hp, elem_of_app; by right|]. intros Ho. by apply (Hdis p).
  - intros p Hpo. destruct (Hb p (Hin p Hpo)) as [Ha Hm].
    assert (wp (kfree kend p) s (fun _ _ => True)) as Hw by (eapply wp_kfree; [done|done|by apply Hdis|done|done]).
    apply (proj1 (wp_ok _ _ _)) in Hw as ([] & s' & He & _). exists s'. exact He.
Qed.

(** Four pages from 0x80100000 on, the kernel ending in the first of them. *)
Definition small_mem : vmst :=
  Vmst (list_to_map ((fun i => (KERNLINK + 4096 * i, fill_page 0)) <$> [0; 1; 2; 3])) 0 0.

Lemma kalloc_no_double_witness :
  exists s1 p s2, kinit1 (KERNLINK + 1234) (KERNLINK + 1234) (KERNLINK + 16384) small_mem = Ok tt s1 /\
    kalloc s1 = Ok p s2 /\ p <> 0.
Proof.
  destruct (kalloc_no_double (KERNLINK + 1234) (KERNLINK + 1234) (KERNLINK + 16384) small_mem 3) as (s1 & He & Hs).
  - reflexivity.
  - unfold small_mem. simpl. repeat (apply map_Forall_insert_2; [by apply page_ok_fill|]). apply map_Forall_empty.
  - unfold KERNLINK, KERNBASE, EXTMEM. lia.
  - split; vm_compute; congruence.
  - intros p Hp. apply elem_of_pages_of in Hp as (i & Hi & ->).
    assert (PGROUNDUP (KERNLINK + 1234) = KERNLINK + 4096) as -> by reflexivity.
    split; [unfold allocatable, KERNLINK, KERNBASE, EXTMEM, PHYSTOP; split_and!; elia|].
    assert (i = 0 \/ i = 1 \/ i = 2) as [->|[->| ->]] by lia; by eexists.
  - destruct (Hs s1 [] (rtc_refl _ _)) as (_ & _ & (p & s2 & Ha & Hz & _) & _). exists s1, p, s2.
    split; [exact He|]. split; [exact Ha|]. intros ->. pose proof (Permutation_length (proj1 Hz eq_refl)). discriminate.
Defined.
