(* ===== verification/Vm.v ===== *)
(** Page tables and user memory (vm.c).

    A page directory is named by the kernel address of its page; a [pte_t *] is the
    page that holds the entry and the index of the entry in it. Messages printed on
    the console are not modelled. *)

From S2P Require Import Prelude Bytes Kalloc.

Definition PTE_P : Z := 1.
Definition PTE_W : Z := 2.
Definition PTE_U : Z := 4.
Definition PDX (va : Z) : nat := Z.to_nat (Z.land (Z.shiftr va 22) 1023).
Definition PTX (va : Z) : nat := Z.to_nat (Z.land (Z.shiftr va 12) 1023).
Definition PGADDR (d t o : Z) : Z := u32 (Z.lor (Z.lor (Z.shiftl d 22) (Z.shiftl t 12)) o).
Definition PTE_ADDR (pte : Z) : Z := Z.land pte (Z.lnot 4095).
Definition PTE_FLAGS (pte : Z) : Z := Z.land pte 4095.
Definition NPDENTRIES : Z := 1024.

(** [*pte & PTE_P] and the like. *)
Definition has (flag pte : Z) : bool := negb (Z.land pte flag =? 0).

Definition pte_ptr : Type := Z * nat.
Definition pte_at (p : pte_ptr) : M vmst Z := l ← page_at p.1; mret (word_at l p.2).
Definition pte_set (p : pte_ptr) (v : Z) : M vmst unit := page_upd p.1 (fun l => set_word l p.2 v).

Section Vm.
(** [end] and [data], from the linker script. *)
Context (kend kdata : Z).

Definition walkpgdir (pgdir va : Z) (alloc : bool) : M vmst (option pte_ptr) :=
  pde ← pte_at (pgdir, PDX va);
  if has PTE_P pde then mret (Some (P2V (PTE_ADDR pde), PTX va))
  else if negb alloc then mret None
  else
    pgtab ← kalloc;
    if pgtab =? 0 then mret None
    else
      page_upd pgtab (fun _ => fill_page 0) ;;
      pte_set (pgdir, PDX va) (Z.lor (Z.lor (Z.lor (V2P pgtab) PTE_P) PTE_W) PTE_U) ;;
      mret (Some (pgtab, PTX va)).

(** The loop of [mappages]; it ends when [a] has reached [last]. *)
Fixpoint mappages_loop (fuel : nat) (pgdir a last pa perm : Z) : M vmst Z :=
  match fuel with
  | O => nofuel
  | S fuel =>
      p ← walkpgdir pgdir a true;
      match p with
      | None => mret (-1)
      | Some p =>
          pte ← pte_at p;
          guard_ok (has PTE_P pte) (panic "remap") ;;
          pte_set p (Z.lor (Z.lor pa perm) PTE_P) ;;
          if a =? last then mret 0
          else mappages_loop fuel pgdir (u32 (a + PGSIZE)) last (u32 (pa + PGSIZE)) perm
      end
  end.
Definition mappages (pgdir va size pa perm : Z) : M vmst Z :=
  let a := PGROUNDDOWN va in
  let last := PGROUNDDOWN (u32 (va + size - 1)) in
  mappages_loop (S (Z.to_nat (u32 (last - a) / PGSIZE))) pgdir a last pa perm.

(** [struct kmap kmap[]]: virtual address, physical start and end, permissions. *)
Definition kmap : list (Z * Z * Z * Z) :=
  [(KERNBASE, 0, EXTMEM, PTE_W); (KERNLINK, V2P KERNLINK, V2P kdata, 0);
   (kdata, V2P kdata, PHYSTOP, PTE_W); (DEVSPACE, DEVSPACE, 0, PTE_W)].

(** The loop of [deallocuvm]. *)
Fixpoint deallocuvm_loop (fuel : nat) (pgdir a oldsz : Z) : M vmst unit :=
  match fuel with
  | O => nofuel
  | S fuel =>
      if oldsz <=? a then mret tt
      else
        p ← walkpgdir pgdir a false;
        match p with
        | None =>
            let a := u32 (PGADDR (Z.of_nat (PDX a) + 1) 0 0 - PGSIZE) in
            deallocuvm_loop fuel pgdir (u32 (a + PGSIZE)) oldsz
        | Some p =>
            pte ← pte_at p;
            guard_ok (has PTE_P pte) (
              let pa := PTE_ADDR pte in
              guard_ok (pa =? 0) (panic "kfree") ;;
              kfree kend (P2V pa) ;;
              pte_set p 0) ;;
            deallocuvm_loop fuel pgdir (u32 (a + PGSIZE)) oldsz
        end
  end.
Definition deallocuvm (pgdir oldsz newsz : Z) : M vmst Z :=
  if oldsz <=? newsz then mret (s32 oldsz)
  else
    deallocuvm_loop (S (Z.to_nat (oldsz / PGSIZE + 1))) pgdir (PGROUNDUP newsz) oldsz ;;
    mret (s32 newsz).

Definition freevm (pgdir : Z) : M vmst unit :=
  guard_ok (pgdir =? 0) (panic "freevm: no pgdir") ;;
  _ ← deallocuvm pgdir KERNBASE 0;
  for_all (range 0 NPDENTRIES) (fun i =>
    pde ← pte_at (pgdir, Z.to_nat i);
    guard_ok (has PTE_P pde) (kfree kend (P2V (PTE_ADDR pde)))) ;;
  kfree kend pgdir.

(** Set up the kernel part of a page table; the null pointer is 0. *)
Definition setupkvm : M vmst Z :=
  pgdir ← kalloc;
  if pgdir =? 0 then mret 0
  else
    page_upd pgdir (fun _ => fill_page 0) ;;
    guard_ok (DEVSPACE <? P2V PHYSTOP) (panic "PHYSTOP too high") ;;
    r ← for_each kmap (fun '(virt, start, stop, perm) =>
          r ← mappages pgdir virt (u32 (stop - start)) start perm;
          if r <? 0 then freevm pgdir ;; mret (Some 0) else mret None);
    mret (default pgdir r).

(** [init] is the initcode binary. *)
Definition inituvm (pgdir : Z) (init : list Z) (sz : Z) : M vmst unit :=
  guard_ok (PGSIZE <=? sz) (panic "inituvm: more than a page") ;;
  mem ← kalloc;
  page_upd mem (fun _ => fill_page 0) ;;
  _ ← mappages pgdir 0 PGSIZE (V2P mem) (Z.lor PTE_W PTE_U);
  page_upd mem (splice 0 (take (Z.to_nat sz) init)).

(** The loop of [allocuvm]; [None] when memory is short and has been given back. *)
Fixpoint allocuvm_loop (fuel : nat) (pgdir a newsz oldsz : Z) : M vmst (option unit) :=
  match fuel with
  | O => nofuel
  | S fuel =>
      if newsz <=? a then mret (Some tt)
      else
        mem ← kalloc;
        if mem =? 0 then
          _ ← deallocuvm pgdir newsz oldsz; mret None
        else
          page_upd mem (fun _ => fill_page 0) ;;
          r ← mappages pgdir a PGSIZE (V2P mem) (Z.lor PTE_W PTE_U);
          if r <? 0 then
            _ ← deallocuvm pgdir newsz oldsz; kfree kend mem ;; mret None
          else allocuvm_loop fuel pgdir (u32 (a + PGSIZE)) newsz oldsz
  end.
Definition allocuvm (pgdir oldsz newsz : Z) : M vmst Z :=
  if KERNBASE <=? newsz then mret 0
  else if newsz <? oldsz then mret (s32 oldsz)
  else
    r ← allocuvm_loop (S (Z.to_nat (newsz / PGSIZE + 1))) pgdir (PGROUNDUP oldsz) newsz oldsz;
    mret (match r with Some _ => s32 newsz | None => 0 end).

Definition clearpteu (pgdir uva : Z) : M vmst unit :=
  p ← walkpgdir pgdir uva false;
  match p with
  | None => panic "clearpteu"
  | Some p => pte ← pte_at p; pte_set p (Z.land pte (Z.lnot PTE_U))
  end.

(** The loop of [copyuvm]; [None] after [goto bad]. *)
Fixpoint copyuvm_loop (fuel : nat) (pgdir d i sz : Z) : M vmst (option unit) :=
  match fuel with
  | O => nofuel
  | S fuel =>
      if sz <=? i then mret (Some tt)
      else
        p ← walkpgdir pgdir i false;
        match p with
        | None => panic "copyuvm: pte should exist"
        | Some p =>
            pte ← pte_at p;
            guard_ok (negb (has PTE_P pte)) (panic "copyuvm: page not present") ;;
            mem ← kalloc;
            if mem =? 0 then mret None
            else
              page ← page_at (P2V (PTE_ADDR pte));
              page_upd mem (fun _ => page) ;;
              r ← mappages d i PGSIZE (V2P mem) (PTE_FLAGS pte);
              if r <? 0 then kfree kend mem ;; mret None
              else copyuvm_loop fuel pgdir d (u32 (i + PGSIZE)) sz
        end
  end.
Definition copyuvm (pgdir sz : Z) : M vmst Z :=
  d ← setupkvm;
  if d =? 0 then mret 0
  else
    r ← copyuvm_loop (S (Z.to_nat (sz / PGSIZE + 1))) pgdir d 0 sz;
    match r with
    | Some _ => mret d
    | None => freevm d ;; mret 0
    end.

(** [uva2ka]: it reads through the pointer from [walkpgdir] without a test. *)
Definition uva2ka (pgdir uva : Z) : M vmst Z :=
  p ← walkpgdir pgdir uva false;
  match p with
  | None => fault
  | Some p =>
      pte ← pte_at p;
      mret (if negb (has PTE_P pte) then 0
            else if negb (has PTE_U pte) then 0
            else P2V (PTE_ADDR pte))
  end.

(** The loop of [copyout]; [buf] is what is left to copy. *)
Fixpoint copyout_loop (fuel : nat) (pgdir va : Z) (buf : list Z) : M vmst Z :=
  match fuel with
  | O => nofuel
  | S fuel =>
      match buf with
      | [] => mret 0
      | _ =>
          let va0 := PGROUNDDOWN va in
          pa0 ← uva2ka pgdir va0;
          if pa0 =? 0 then mret (-1)
          else
            let n := Z.min (PGSIZE - (va - va0)) (Z.of_nat (length buf)) in
            page_upd pa0 (splice (Z.to_nat (va - va0)) (take (Z.to_nat n) buf)) ;;
            copyout_loop fuel pgdir (u32 (va0 + PGSIZE)) (drop (Z.to_nat n) buf)
      end
  end.
Definition copyout (pgdir va : Z) (p : list Z) : M vmst Z :=
  copyout_loop (S (length p)) pgdir va p.
End Vm.
