(* ===== verification/VmSpec.v ===== *)
(** Address spaces: page tables against a map from pages to frames, and who owns
    which page of memory.

    A page of the address space is its number [v], the address divided by 4096; the
    pages below [524288] are the user's. *)

From S2P Require Import Prelude Bytes Kalloc Vm.

(** ** Addresses and entries *)

Lemma lor_add pa f : pa mod 4096 = 0 -> 0 <= f < 4096 -> Z.lor pa f = pa + f.
Proof.
  intros Ha Hf. symmetry. rewrite <- Z.lxor_lor; [apply Z.add_nocarry_lxor|]; apply Z.bits_inj'; intros n Hn;
    rewrite Z.land_spec, Z.bits_0; apply andb_false_iff;
    (destruct (Z.lt_ge_cases n 12) as [Hlt|Hge];
      [left; replace pa with ((pa / 4096) * 2 ^ 12) by (change (2 ^ 12) with 4096; elia); by apply Z.mul_pow2_bits_low
      |right; destruct (Z.eq_dec f 0) as [->|]; [apply Z.bits_0|]; apply Z.bits_above_log2; [lia|];
       apply Z.log2_lt_pow2; [lia|]; apply Z.lt_le_trans with (2 ^ 12); [change (2 ^ 12) with 4096; lia|by apply Z.pow_le_mono_r]]).
Qed.

Lemma land_lnot_4095 a : Z.land a (Z.lnot 4095) = a / 4096 * 4096.
Proof.
  change 4095 with (Z.ones 12). rewrite <- Z.ldiff_land, Z.ldiff_ones_r, Z.shiftl_mul_pow2, Z.shiftr_div_pow2 by lia. done.
Qed.

Lemma land_4095 a : Z.land a 4095 = a mod 4096.
Proof. change 4095 with (Z.ones 12). by rewrite Z.land_ones. Qed.

Lemma land_1023 a : Z.land a 1023 = a mod 1024.
Proof. change 1023 with (Z.ones 10). by rewrite Z.land_ones. Qed.

Lemma PDX_page v : 0 <= v < 1048576 -> PDX (v * 4096) = Z.to_nat (v / 1024).
Proof.
  intros Hv. unfold PDX. rewrite land_1023, Z.shiftr_div_pow2 by lia. change (2 ^ 22) with (4096 * 1024).
  rewrite <- Z.div_div, Z.div_mul by lia || lia. f_equal. elia.
Qed.

Lemma PTX_page v : 0 <= v -> PTX (v * 4096) = Z.to_nat (v mod 1024).
Proof.
  intros Hv. unfold PTX. rewrite land_1023, Z.shiftr_div_pow2 by lia. change (2 ^ 12) with 4096. by rewrite Z.div_mul by lia.
Qed.

(** The entry that [mappages] writes, and its parts. *)
Definition entry (pa perm : Z) : Z := Z.lor (Z.lor pa perm) PTE_P.
Definition aligned (pa : Z) : Prop := pa mod 4096 = 0 /\ 0 <= pa < 4294967296.

Lemma lor_perm perm : 0 <= perm < 4096 -> 0 <= Z.lor perm PTE_P < 4096.
Proof.
  intros Hp. split; [apply Z.lor_nonneg; unfold PTE_P; lia|]. destruct (Z.eq_dec (Z.lor perm PTE_P) 0); [lia|].
  apply Z.log2_lt_cancel. change (Z.log2 4096) with 12. rewrite Z.log2_lor by (unfold PTE_P; lia).
  apply Z.max_lub_lt; [|by vm_compute]. destruct (Z.eq_dec perm 0) as [->|]; [by vm_compute|].
  apply Z.log2_lt_pow2; [lia|]. change (2 ^ 12) with 4096. lia.
Qed.

Lemma entry_add pa perm : aligned pa -> 0 <= perm < 4096 -> entry pa perm = pa + Z.lor perm PTE_P.
Proof. intros [Ha _] Hp. unfold entry. rewrite <- Z.lor_assoc. by apply lor_add, lor_perm. Qed.

Lemma entry_range pa perm : aligned pa -> 0 <= perm < 4096 -> 0 <= entry pa perm < 4294967296.
Proof. intros Ha Hp. rewrite entry_add by done. pose proof (lor_perm perm Hp). destruct Ha. elia. Qed.

Lemma entry_addr pa perm : aligned pa -> 0 <= perm < 4096 -> PTE_ADDR (entry pa perm) = pa.
Proof.
  intros Ha Hp. rewrite entry_add by done. unfold PTE_ADDR. rewrite land_lnot_4095.
  pose proof (lor_perm perm Hp). destruct Ha. elia.
Qed.

Lemma entry_flags pa perm : aligned pa -> 0 <= perm < 4096 -> PTE_FLAGS (entry pa perm) = Z.lor perm PTE_P.
Proof.
  intros Ha Hp. rewrite entry_add by done. unfold PTE_FLAGS. rewrite land_4095.
  pose proof (lor_perm perm Hp). destruct Ha. elia.
Qed.

Lemma entry_present pa perm : has PTE_P (entry pa perm) = true.
Proof.
  unfold has, entry. apply negb_true_iff, Z.eqb_neq. intros Hz.
  assert (Z.testbit (Z.land (Z.lor (Z.lor pa perm) PTE_P) PTE_P) 0 = false) as Hb by (by rewrite Hz).
  rewrite Z.land_spec, Z.lor_spec in Hb. change (Z.testbit PTE_P 0) with true in Hb. by rewrite orb_true_r in Hb.
Qed.

(** The directory entry of a page table. *)
Definition table_pde (t : Z) : Z := Z.lor (Z.lor (Z.lor (V2P t) PTE_P) PTE_W) PTE_U.

Section Alloc.
Context (kend : Z).

Lemma allocatable_aligned p : allocatable kend p -> aligned (V2P p) /\ P2V (V2P p) = p.
Proof.
  intros Ha. rewrite (V2P_allocatable kend p Ha). destruct Ha as (Hm & _ & Hp). unfold aligned, P2V, KERNBASE, PHYSTOP in *.
  split; [split; elia|]. rewrite u32_small by lia. lia.
Qed.

Lemma table_pde_entry t : allocatable kend t -> table_pde t = entry (V2P t) 7.
Proof.
  intros Ha. unfold table_pde, entry. rewrite <- !Z.lor_assoc. f_equal.
Qed.

Lemma table_pde_walk t : allocatable kend t ->
  has PTE_P (table_pde t) = true /\ P2V (PTE_ADDR (table_pde t)) = t /\ 0 <= table_pde t < 4294967296.
Proof.
  intros Ha. destruct (allocatable_aligned t Ha) as [Hal Hp]. rewrite table_pde_entry by done.
  rewrite entry_addr by (done || lia). split_and!; [apply entry_present|done|..]; apply entry_range; done || lia.
Qed.

(** ** Who owns what

    [core s pgdir T E X l m]: the directory [pgdir] with the page tables [T], which
    have the entries [E]; further pages [X], whose contents, as those of any other
    page in use, are in [m]; and the free pages [l]. All of these are different. *)
Definition tabs (T : gmap nat Z) : list Z := (map_to_list T).*2.

Record core (s : vmst) (pgdir : Z) (T : gmap nat Z) (E : Z -> Z) (X l : list Z) (m : gmap Z (list Z)) : Prop := {
  co_kmem : kmem_ok kend s l;
  co_dir : exists pg, vm_mem s !! pgdir = Some pg /\
    forall i, (i < 1024)%nat -> word_at pg i = from_option table_pde 0 (T !! i);
  co_tab i t : T !! i = Some t -> (i < 1024)%nat /\ exists pg, vm_mem s !! t = Some pg /\
    forall j, (j < 1024)%nat -> word_at pg j = E (1024 * Z.of_nat i + Z.of_nat j);
  co_none v : 0 <= v -> T !! Z.to_nat (v / 1024) = None -> E v = 0;
  co_own : NoDup (pgdir :: tabs T ++ X ++ l);
  co_alloc p : p ∈ pgdir :: tabs T ++ X -> allocatable kend p;
  co_rest q : q ∉ pgdir :: tabs T -> q ∉ l -> vm_mem s !! q = m !! q;
  co_X q : q ∈ X -> is_Some (m !! q);
}.

Lemma elem_of_tabs T t : t ∈ tabs T <-> exists i, T !! i = Some t.
Proof.
  unfold tabs. rewrite list_elem_of_fmap. split.
  - intros ([i t'] & -> & Hi%elem_of_map_to_list). by exists i.
  - intros [i Hi]. exists (i, t). split; [done|]. by apply elem_of_map_to_list.
Qed.

Lemma tabs_insert T i t : T !! i = None -> tabs (<[i := t]> T) ≡ₚ t :: tabs T.
Proof. intros Hi. unfold tabs. by rewrite map_to_list_insert. Qed.

Lemma tabs_inj T i j t : NoDup (tabs T) -> T !! i = Some t -> T !! j = Some t -> i = j.
Proof.
  intros Hnd Hi Hj. destruct (decide (i = j)) as [|Hne]; [done|]. exfalso. unfold tabs in Hnd.
  rewrite <- (insert_delete_id T i t Hi) in Hnd. rewrite map_to_list_insert in Hnd by apply lookup_delete_eq.
  simpl in Hnd. apply NoDup_cons in Hnd as [Hnin _]. apply Hnin, (elem_of_tabs (delete i T)).
  exists j. by rewrite lookup_delete_ne.
Qed.

(** A page that is in use, but not by the page table. *)
Lemma core_write s pgdir T E X l m q pg :
  core s pgdir T E X l m -> q ∉ pgdir :: tabs T -> q ∉ l -> page_ok pg ->
  core (set_mem (<[q := pg]> (vm_mem s)) s) pgdir T E X l (<[q := pg]> m).
Proof.
  intros [Hk (dpg & Hd & Hdw) Ht Hn Ho Ha Hr HX] Hq Hl Hpg.
  apply not_elem_of_cons in Hq as [Hqd Hqt]. split; simpl; [by apply kmem_ok_write| | |done|done|done| |].
  - exists dpg. by rewrite lookup_insert_ne.
  - intros i t Hi. destruct (Ht i t Hi) as [? (tpg & Htp & ?)]. split; [done|]. exists tpg.
    rewrite lookup_insert_ne; [done|]. intros ->. apply Hqt, elem_of_tabs. by exists i.
  - intros r Hr1 Hr2. destruct (decide (r = q)) as [->|]; [by rewrite !lookup_insert_eq|].
    rewrite !lookup_insert_ne by done. by apply Hr.
  - intros r Hrx. destruct (decide (r = q)) as [->|]; [by rewrite lookup_insert_eq|]. rewrite lookup_insert_ne by done. by apply HX.
Qed.

Lemma core_fresh s pgdir T E X p l m :
  core s pgdir T E X (p :: l) m ->
  (p ∉ pgdir :: tabs T) /\ (p ∉ X) /\ (p ∉ l) /\ allocatable kend p /\ exists pg, vm_mem s !! p = Some pg /\ page_ok pg.
Proof.
  intros Hc. pose proof (co_own _ _ _ _ _ _ _ Hc) as Ho. pose proof (co_kmem _ _ _ _ _ _ _ Hc) as [Hfl Hnd Hpg].
  rewrite app_comm_cons, app_assoc, <- app_comm_cons in Ho. apply list.NoDup_app in Ho as (_ & Hd & Hl).
  assert (p ∉ pgdir :: tabs T ++ X) as Hp by (intros Hp; apply (Hd p Hp); by left).
  apply NoDup_cons in Hl as [Hpl _]. split_and!; [|set_solver|done| |].
  - rewrite not_elem_of_cons in *. rewrite not_elem_of_app in Hp. naive_solver.
  - eapply fl_allocatable; [done|by left].
  - inversion Hfl as [|p' pg l' Ha Hm Hf]; subst. exists pg. split; [done|]. by apply (Hpg _ _ Hm).
Qed.

(** Allocation: a page moves to [X], or there is none. *)
Lemma wp_core_kalloc s pgdir T E X l m (Q : Z -> vmst -> Prop) :
  core s pgdir T E X l m ->
  match l with
  | [] => Q 0 s
  | p :: l => forall pg q, let s' := set_freelist q s in vm_mem s' !! p = Some pg -> page_ok pg ->
      core s' pgdir T E (p :: X) l (<[p := pg]> m) -> allocatable kend p -> Q p s'
  end ->
  wp kalloc s Q.
Proof.
  intros Hc HQ. eapply wp_kalloc; [apply Hc|]. destruct l as [|p l]; [done|]. intros q Hk.
  destruct (core_fresh _ _ _ _ _ _ _ _ Hc) as (Hpt & HpX & Hpl & Hpa & pg & Hpg & Hok).
  apply (HQ pg q); [done|done| |done]. destruct Hc as [_ Hd Ht Hn Ho Ha Hr HX]. split; [done|done|done|done| | | |].
  - revert Ho. rewrite <- app_comm_cons, <- !Permutation_middle. done.
  - intros r. rewrite elem_of_cons, elem_of_app, elem_of_cons. intros [->|[Hin|[->|Hin]]]; [apply Ha; by left| |done|];
      apply Ha; rewrite elem_of_cons, elem_of_app; auto.
  - intros r Hr1 Hr2. destruct (decide (r = p)) as [->|]; [by rewrite lookup_insert_eq|].
    rewrite lookup_insert_ne by done. apply Hr; [done|]. apply not_elem_of_cons. done.
  - intros r [->|Hrx]%elem_of_cons; [by rewrite lookup_insert_eq|]. destruct (decide (r = p)) as [->|]; [by rewrite lookup_insert_eq|].
    rewrite lookup_insert_ne by done. by apply HX.
Qed.

(** The rest of memory may be described in any way that agrees with it. *)
Lemma core_rest s pgdir T E X l m m' :
  core s pgdir T E X l m -> (forall q, q ∉ pgdir :: tabs T -> q ∉ l -> m' !! q = m !! q) -> core s pgdir T E X l m'.
Proof.
  intros [Hk Hd Ht Hn Ho Ha Hr HX] Hm. split; [done|done|done|done|done|done| |].
  - intros q Hq1 Hq2. rewrite Hm by done. by apply Hr.
  - intros q Hq. rewrite Hm; [by apply HX| |].
    + intros Hin. rewrite app_comm_cons in Ho. apply list.NoDup_app in Ho as (_ & Hd' & _).
      apply (Hd' q Hin). apply elem_of_app. by left.
    + intros Hin. rewrite app_comm_cons, app_assoc in Ho. apply list.NoDup_app in Ho as (_ & Hd' & _).
      apply (Hd' q); [|done]. apply elem_of_app. by right.
Qed.

Lemma core_notin s pgdir T E X l m q :
  core s pgdir T E X l m -> q ∈ X -> (q ∉ pgdir :: tabs T) /\ (q ∉ l).
Proof.
  intros Hc Hq. pose proof (co_own _ _ _ _ _ _ _ Hc) as Ho. rewrite app_comm_cons in Ho.
  apply list.NoDup_app in Ho as (_ & Hd & Hxl). split.
  - intros Hin. apply (Hd q Hin), elem_of_app. by left.
  - apply list.NoDup_app in Hxl as (_ & Hd' & _). by apply Hd'.
Qed.

Lemma word_at_zero i : word_at (fill_page 0) i = 0.
Proof. apply get_le_replicate_0. Qed.

Lemma vpn_eq v i j : 0 <= v -> (j < 1024)%nat ->
  1024 * Z.of_nat i + Z.of_nat j = v <-> i = Z.to_nat (v / 1024) /\ j = Z.to_nat (v mod 1024).
Proof.
  intros Hv Hj. split.
  - intros <-. split; apply Nat2Z.inj; rewrite Z2Nat.id; elia.
  - intros [-> ->]. rewrite !Z2Nat.id by elia. elia.
Qed.

(** A zeroed page becomes the page table for slot [i] of the directory. *)
Lemma core_adopt s pgdir T E p X l m i dpg :
  core s pgdir T E (p :: X) l m -> m !! p = Some (fill_page 0) -> T !! i = None -> (i < 1024)%nat ->
  vm_mem s !! pgdir = Some dpg ->
  core (set_mem (<[pgdir := set_word dpg i (table_pde p)]> (vm_mem s)) s) pgdir (<[i := p]> T) E X l m.
Proof.
  intros Hc Hp Hi Hlt Hdpg. destruct (core_notin _ _ _ _ _ _ _ p Hc) as [Hpt Hpl]; [by left|].
  assert (allocatable kend p) as Hpa by (apply Hc; rewrite elem_of_cons, elem_of_app; right; right; by left).
  destruct Hc as [Hk (dpg' & Hd & Hdw) Ht Hn Ho Ha Hr HX]. assert (dpg' = dpg) as -> by congruence. clear Hd.
  apply not_elem_of_cons in Hpt as [Hpd Hpt].
  pose proof (km_pages _ _ _ Hk _ _ Hdpg) as Hdok.
  assert (pgdir ∉ l) as Hdl.
  { apply NoDup_cons in Ho as [Ho _]. rewrite !not_elem_of_app in Ho. naive_solver. }
  assert (forall j t, T !! j = Some t -> t <> pgdir) as Htd.
  { intros j t Hj ->. apply NoDup_cons in Ho as [Ho _]. apply Ho, elem_of_app. left. apply elem_of_tabs. by exists j. }
  split; simpl.
  - apply kmem_ok_write; [done|done|]. apply page_ok_set_word; [done|lia].
  - eexists. split; [apply lookup_insert_eq|]. intros j Hj. destruct Hdok as [Hlen _]. destruct (decide (j = i)) as [->|Hne].
    + rewrite lookup_insert_eq. simpl. apply word_at_set_small; [lia|]. by apply table_pde_walk.
    + rewrite word_at_set_other, lookup_insert_ne by (lia || done). by apply Hdw.
  - intros j t Hj. destruct (decide (j = i)) as [->|Hne].
    + rewrite lookup_insert_eq in Hj. injection Hj as <-. split; [done|]. exists (fill_page 0).
      rewrite lookup_insert_ne by done. rewrite Hr by (by rewrite ?not_elem_of_cons). split; [done|].
      intros k Hk'. rewrite word_at_zero. symmetry. apply Hn; [lia|].
      destruct (proj1 (vpn_eq (1024 * Z.of_nat i + Z.of_nat k) i k ltac:(lia) Hk') eq_refl) as [<- _]. done.
    + rewrite lookup_insert_ne in Hj by done. destruct (Ht j t Hj) as [? (pg & Hpg & ?)]. split; [done|]. exists pg.
      rewrite lookup_insert_ne by (symmetry; by eapply Htd). done.
  - intros v Hv Hvn. apply Hn; [done|]. destruct (decide (Z.to_nat (v / 1024) = i)) as [He|Hne].
    + rewrite He, lookup_insert_eq in Hvn. done.
    + by rewrite lookup_insert_ne in Hvn.
  - rewrite tabs_insert by done. rewrite <- app_comm_cons, <- Permutation_middle in Ho. done.
  - intros q. rewrite tabs_insert by done. intros Hq. apply Ha. set_solver.
  - intros q. rewrite tabs_insert by done. rewrite !not_elem_of_cons. intros (Hq1 & Hq2 & Hq3) Hq4.
    rewrite lookup_insert_ne by done. apply Hr; [|done]. by rewrite not_elem_of_cons.
  - intros q Hq. apply HX. by right.
Qed.

Definition upd (E : Z -> Z) (v w : Z) : Z -> Z := fun x => if x =? v then w else E x.

(** An entry of a page table. *)
Lemma core_entry s pgdir T E X l m v t :
  core s pgdir T E X l m -> 0 <= v -> T !! Z.to_nat (v / 1024) = Some t ->
  exists pg, vm_mem s !! t = Some pg /\ word_at pg (Z.to_nat (v mod 1024)) = E v.
Proof.
  intros Hc Hv Ht. destruct (co_tab _ _ _ _ _ _ _ Hc _ _ Ht) as [_ (pg & Hpg & Hw)]. exists pg. split; [done|].
  rewrite Hw by (apply Nat2Z.inj_lt; rewrite Z2Nat.id; elia). f_equal.
  rewrite !Z2Nat.id by elia. elia.
Qed.

Lemma core_set s pgdir T E X l m v t pg w :
  core s pgdir T E X l m -> 0 <= v -> T !! Z.to_nat (v / 1024) = Some t -> vm_mem s !! t = Some pg ->
  0 <= w < 4294967296 ->
  core (set_mem (<[t := set_word pg (Z.to_nat (v mod 1024)) w]> (vm_mem s)) s) pgdir T (upd E v w) X l m.
Proof.
  intros [Hk Hd Ht Hn Ho Ha Hr HX] Hv Hvt Hpg Hw.
  assert (Z.to_nat (v mod 1024) < 1024)%nat as Hj by (apply Nat2Z.inj_lt; rewrite Z2Nat.id; elia).
  assert (t ∈ tabs T) as Htt by (apply elem_of_tabs; by eexists).
  assert (pgdir <> t) as Hdt by (intros ->; apply NoDup_cons in Ho as [Ho _]; apply Ho, elem_of_app; by left).
  assert (t ∉ l) as Htl.
  { apply NoDup_cons in Ho as [_ Ho]. apply list.NoDup_app in Ho as (_ & Hdj & _). intros Hl. apply (Hdj t Htt), elem_of_app. by right. }
  assert (NoDup (tabs T)) as Hndt by (apply NoDup_cons in Ho as [_ Ho]; by apply list.NoDup_app in Ho as (? & _)).
  destruct (km_pages _ _ _ Hk _ _ Hpg) as [Hlen Hok].
  split; simpl.
  - apply kmem_ok_write; [done|done|]. apply page_ok_set_word; [done|lia].
  - destruct Hd as (dpg & Hd & ?). exists dpg. by rewrite lookup_insert_ne.
  - intros i t' Hi. destruct (Ht i t' Hi) as [Hi' (pg' & Hpg' & Hw')]. split; [done|].
    destruct (decide (t' = t)) as [->|Hne].
    + eexists. split; [apply lookup_insert_eq|]. assert (pg' = pg) as -> by congruence.
      assert (i = Z.to_nat (v / 1024)) as -> by (by apply (tabs_inj T _ _ t)).
      intros j Hj'. unfold upd. destruct (Z.eqb_spec (1024 * Z.of_nat (Z.to_nat (v / 1024)) + Z.of_nat j) v) as [He|He].
      * apply vpn_eq in He as [_ ->]; [|done|done]. apply word_at_set_small; [lia|done].
      * rewrite word_at_set_other; [by apply Hw'|lia|]. intros <-. apply He, vpn_eq; done.
    + exists pg'. rewrite lookup_insert_ne by done. split; [done|]. intros j Hj'. rewrite Hw' by done. unfold upd.
      destruct (Z.eqb_spec (1024 * Z.of_nat i + Z.of_nat j) v) as [He|He]; [|done].
      apply vpn_eq in He as [-> _]; [congruence|done|done].
  - intros x Hx Hxn. unfold upd. destruct (Z.eqb_spec x v) as [->|]; [congruence|by apply Hn].
  - done.
  - done.
  - intros q Hq1 Hq2. rewrite lookup_insert_ne; [by apply Hr|]. intros ->. apply not_elem_of_cons in Hq1 as [_ Hq1]. done.
  - done.
Qed.

Lemma core_ext s pgdir T E E' X l m :
  core s pgdir T E X l m -> (forall v, 0 <= v -> E' v = E v) -> core s pgdir T E' X l m.
Proof.
  intros [Hk Hd Ht Hn Ho Ha Hr HX] HE. split; [done|done| | |done|done|done|done].
  - intros i t Hi. destruct (Ht i t Hi) as [? (pg & ? & Hw)]. split; [done|]. exists pg. split; [done|].
    intros j Hj. rewrite HE by lia. by apply Hw.
  - intros v Hv Hvn. rewrite HE by done. by apply Hn.
Qed.

Lemma core_perm s pgdir T E X X' l m : core s pgdir T E X l m -> X ≡ₚ X' -> core s pgdir T E X' l m.
Proof.
  intros [Hk Hd Ht Hn Ho Ha Hr HX] HP. split; [done|done|done|done|by rewrite <- HP| |done|].
  - intros q Hq. apply Ha. by rewrite HP.
  - intros q Hq. apply HX. by rewrite HP.
Qed.

(** ** [walkpgdir] *)

Lemma wp_pte_at t j pg s (Q : Z -> vmst -> Prop) :
  vm_mem s !! t = Some pg -> Q (word_at pg j) s -> wp (pte_at (t, j)) s Q.
Proof. intros Hp HQ. eapply wp_bind, wp_page_at; [done|]. by apply wp_ret. Qed.

Lemma wp_pte_set t j w pg s (Q : unit -> vmst -> Prop) :
  vm_mem s !! t = Some pg -> Q tt (set_mem (<[t := set_word pg j w]> (vm_mem s)) s) -> wp (pte_set (t, j) w) s Q.
Proof. apply wp_page_upd. Qed.

Lemma core_pde s pgdir T E X l m v :
  core s pgdir T E X l m -> 0 <= v < 1048576 ->
  exists dpg, vm_mem s !! pgdir = Some dpg /\
    word_at dpg (PDX (v * 4096)) = from_option table_pde 0 (T !! Z.to_nat (v / 1024)).
Proof.
  intros Hc Hv. destruct (co_dir _ _ _ _ _ _ _ Hc) as (dpg & Hd & Hw). exists dpg. split; [done|].
  rewrite PDX_page by done. apply Hw. apply Nat2Z.inj_lt. rewrite Z2Nat.id; elia.
Qed.

Lemma wp_walk_some s pgdir T E X l m v t alloc (Q : option pte_ptr -> vmst -> Prop) :
  core s pgdir T E X l m -> 0 <= v < 1048576 -> T !! Z.to_nat (v / 1024) = Some t ->
  Q (Some (t, Z.to_nat (v mod 1024))) s -> wp (walkpgdir pgdir (v * 4096) alloc) s Q.
Proof.
  intros Hc Hv Ht HQ. destruct (core_pde _ _ _ _ _ _ _ v Hc Hv) as (dpg & Hd & Hw). rewrite Ht in Hw. simpl in Hw.
  assert (allocatable kend t) as Ha.
  { apply (co_alloc _ _ _ _ _ _ _ Hc). rewrite elem_of_cons, elem_of_app. right; left. apply elem_of_tabs. by eexists. }
  destruct (table_pde_walk t Ha) as (Hp & Hpt & _).
  eapply wp_bind, wp_pte_at; [done|]. rewrite Hw, Hp, Hpt. apply wp_ret. by rewrite PTX_page by lia.
Qed.

Lemma wp_walk_none s pgdir T E X l m v (Q : option pte_ptr -> vmst -> Prop) :
  core s pgdir T E X l m -> 0 <= v < 1048576 -> T !! Z.to_nat (v / 1024) = None ->
  Q None s -> wp (walkpgdir pgdir (v * 4096) false) s Q.
Proof.
  intros Hc Hv Ht HQ. destruct (core_pde _ _ _ _ _ _ _ v Hc Hv) as (dpg & Hd & Hw). rewrite Ht in Hw. simpl in Hw.
  eapply wp_bind, wp_pte_at; [done|]. rewrite Hw. by apply wp_ret.
Qed.

(** No table for the pages below that of page [v] is new. *)
Definition tabs_from (v : Z) (T T' : gmap nat Z) : Prop := forall i, (i < Z.to_nat (v / 1024))%nat -> T' !! i = T !! i.

Lemma wp_walk_alloc s pgdir T E X l m v (Q : option pte_ptr -> vmst -> Prop) :
  core s pgdir T E X l m -> 0 <= v < 1048576 ->
  (forall t T' l' s', core s' pgdir T' E X l' m -> T' !! Z.to_nat (v / 1024) = Some t ->
     tabs T' ++ l' ≡ₚ tabs T ++ l -> tabs_from v T T' -> Q (Some (t, Z.to_nat (v mod 1024))) s') ->
  (l = [] -> Q None s) ->
  wp (walkpgdir pgdir (v * 4096) true) s Q.
Proof.
  intros Hc Hv HQ HQn. destruct (T !! Z.to_nat (v / 1024)) as [t|] eqn:Ht.
  { eapply wp_walk_some; [done|done|done|]. by eapply HQ. }
  destruct (core_pde _ _ _ _ _ _ _ v Hc Hv) as (dpg & Hd & Hw). rewrite Ht in Hw. simpl in Hw.
  eapply wp_bind, wp_pte_at; [done|]. rewrite Hw. change (has PTE_P 0) with false. cbn iota.
  eapply wp_bind, wp_core_kalloc; [done|]. destruct l as [|p l]; [by apply wp_ret, HQn|].
  intros pg q s1 Hpg Hok Hc1 Ha. assert ((p =? 0) = false) as -> by (destruct Ha as (_ & _ & Ha); unfold KERNBASE in Ha; lia).
  destruct (core_notin _ _ _ _ _ _ _ p Hc1) as [Hp1 Hp2]; [by left|].
  eapply wp_bind, wp_page_upd; [done|].
  pose proof (core_write _ _ _ _ _ _ _ p (fill_page 0) Hc1 Hp1 Hp2 (page_ok_fill 0 ltac:(by split))) as Hc2.
  rewrite insert_insert_eq in Hc2. set (s2 := set_mem _ s1) in *.
  assert (vm_mem s2 !! pgdir = Some dpg) as Hd2.
  { simpl. apply not_elem_of_cons in Hp1 as [Hp1 _]. by rewrite lookup_insert_ne. }
  eapply wp_bind, wp_pte_set; [done|]. rewrite PDX_page, PTX_page by lia. apply wp_ret.
  eapply (HQ p (<[Z.to_nat (v / 1024) := p]> T) l); [|apply lookup_insert_eq|rewrite tabs_insert by done; by rewrite <- app_comm_cons, Permutation_middle|intros i Hi; by rewrite lookup_insert_ne by lia].
  pose proof (core_adopt _ _ _ _ _ _ _ _ (Z.to_nat (v / 1024)) dpg Hc2) as Hc3.
  eapply core_rest; [apply Hc3|].
  - apply lookup_insert_eq.
  - done.
  - apply Nat2Z.inj_lt. rewrite Z2Nat.id; elia.
  - done.
  - intros r. rewrite tabs_insert by done. rewrite !not_elem_of_cons. intros (_ & Hr & _) _. by rewrite lookup_insert_ne.
Qed.

(** ** [mappages] *)

(** [k] pages from [v] on, mapped to the memory from [pa] on. *)
Definition mapped (E : Z -> Z) (v k pa perm : Z) : Z -> Z :=
  fun x => if (v <=? x) && (x <? v + k) then entry (pa + 4096 * (x - v)) perm else E x.

Lemma wp_map_round s pgdir T E X l m v pa perm (K : M vmst Z) (Q : Z -> vmst -> Prop) :
  core s pgdir T E X l m -> 0 <= v < 1048576 -> has PTE_P (E v) = false -> aligned pa -> 0 <= perm < 4096 ->
  (l = [] -> Q (-1) s) ->
  (forall s' T' l', core s' pgdir T' (upd E v (entry pa perm)) X l' m -> tabs T' ++ l' ≡ₚ tabs T ++ l -> tabs_from v T T' -> wp K s' Q) ->
  wp (p ← walkpgdir pgdir (v * 4096) true;
      match p with
      | None => mret (-1)
      | Some p =>
          pte ← pte_at p;
          guard_ok (has PTE_P pte) (panic "remap") ;;
          pte_set p (Z.lor (Z.lor pa perm) PTE_P) ;; K
      end) s Q.
Proof.
  intros Hc Hv Hnp Hal Hperm HQn HQ. eapply wp_bind, wp_walk_alloc; [done|done| |intros ->; by apply wp_ret, HQn].
  intros t T' l' s' Hc' Ht HP Hfr. destruct (core_entry _ _ _ _ _ _ _ v t Hc') as (pg & Hpg & Hw); [lia|done|].
  eapply wp_bind, wp_pte_at; [done|]. rewrite Hw, Hnp. eapply wp_bind, wp_ret.
  eapply wp_bind, wp_pte_set; [done|]. eapply HQ; [|exact HP|exact Hfr].
  apply core_set; [done|lia|done|done|]. by apply entry_range.
Qed.

Lemma upd_mapped E v k pa perm x :
  0 <= k -> mapped (upd E v (entry pa perm)) (v + 1) k (pa + 4096) perm x = mapped E v (k + 1) pa perm x.
Proof.
  intros Hk. unfold mapped, upd.
  destruct (Z.leb_spec (v + 1) x), (Z.leb_spec v x), (Z.ltb_spec x (v + 1 + k)), (Z.ltb_spec x (v + (k + 1))), (Z.eqb_spec x v); simpl; try lia; try done;
    f_equal; lia.
Qed.

Lemma mapped_1 E v pa perm x : mapped E v 1 pa perm x = upd E v (entry pa perm) x.
Proof.
  unfold mapped, upd. destruct (Z.leb_spec v x), (Z.ltb_spec x (v + 1)), (Z.eqb_spec x v); simpl; try lia; try done. f_equal. lia.
Qed.

Lemma mapped_0 E v pa perm x : mapped E v 0 pa perm x = E x.
Proof. unfold mapped. destruct (Z.leb_spec v x), (Z.ltb_spec x (v + 0)); simpl; try lia; done. Qed.

Lemma wp_mappages_loop n fuel v pa perm s pgdir T E X l m (Q : Z -> vmst -> Prop) :
  core s pgdir T E X l m -> (n < fuel)%nat -> 0 <= v -> v + Z.of_nat n < 1048576 -> 0 <= perm < 4096 ->
  pa mod 4096 = 0 -> 0 <= pa -> pa + 4096 * Z.of_nat n < 4294967296 ->
  (forall x, v <= x <= v + Z.of_nat n -> has PTE_P (E x) = false) ->
  (forall r s' T' l' k, r = 0 /\ k = Z.of_nat n + 1 \/ r = -1 /\ l' = [] /\ 0 <= k <= Z.of_nat n ->
     core s' pgdir T' (mapped E v k pa perm) X l' m -> tabs T' ++ l' ≡ₚ tabs T ++ l -> tabs_from v T T' -> Q r s') ->
  wp (mappages_loop fuel pgdir (v * 4096) ((v + Z.of_nat n) * 4096) pa perm) s Q.
Proof.
  revert fuel v pa s T E l Q. induction n as [|n IH]; intros [|fuel] v pa s T E l Q Hc Hf Hv Hvn Hperm Hal Hpa Hpan Hnp HQ; try lia;
    cbn [mappages_loop]; (eapply wp_map_round; [done|lia|apply Hnp; lia|split; lia|done| |]).
  1, 3: intros ->; apply (HQ (-1) s T [] 0); [right; split_and!; [done|done|lia|lia]| |done|done]; eapply core_ext; [done|]; intros; apply mapped_0.
  - intros s' T' l' Hc' HP Hfr. rewrite Z.add_0_r, Z.eqb_refl. apply wp_ret. apply (HQ 0 s' T' l' 1); [left; lia| |done|done].
    eapply core_ext; [done|]. intros; apply mapped_1.
  - intros s' T' l' Hc' HP Hfr. assert ((v * 4096 =? (v + Z.of_nat (S n)) * 4096) = false) as -> by (apply Z.eqb_neq; lia).
    unfold PGSIZE. rewrite !u32_small by lia. replace (v * 4096 + 4096) with ((v + 1) * 4096) by lia.
    replace (v + Z.of_nat (S n)) with (v + 1 + Z.of_nat n) by lia.
    eapply IH; [exact Hc'|lia|lia|lia|done|elia|lia|lia| |].
    + intros x Hx. unfold upd. destruct (Z.eqb_spec x v); [lia|]. apply Hnp. lia.
    + intros r s2 T2 l2 k Hr Hc2 HP2 Hfr2. eapply (HQ r s2 T2 l2 (k + 1)); [destruct Hr as [[-> ->]|(-> & -> & Hk)]; [left; lia|right; split_and!; [done|done|lia|lia]]| |by etrans|].
      2:{ intros i Hi. rewrite (Hfr2 i), (Hfr i); [done|done|]. assert (v / 1024 <= (v + 1) / 1024) by elia. lia. }
      eapply core_ext; [exact Hc2|]. intros x _. symmetry. apply upd_mapped. lia.
Qed.

Lemma wp_mappages n v size pa perm s pgdir T E X l m (Q : Z -> vmst -> Prop) :
  core s pgdir T E X l m -> size = 4096 * (Z.of_nat n + 1) -> 0 <= v -> v + Z.of_nat n < 1048576 -> 0 <= perm < 4096 ->
  pa mod 4096 = 0 -> 0 <= pa -> pa + 4096 * Z.of_nat n < 4294967296 ->
  (forall x, v <= x <= v + Z.of_nat n -> has PTE_P (E x) = false) ->
  (forall r s' T' l' k, r = 0 /\ k = Z.of_nat n + 1 \/ r = -1 /\ l' = [] /\ 0 <= k <= Z.of_nat n ->
     core s' pgdir T' (mapped E v k pa perm) X l' m -> tabs T' ++ l' ≡ₚ tabs T ++ l -> tabs_from v T T' -> Q r s') ->
  wp (mappages pgdir (v * 4096) size pa perm) s Q.
Proof.
  intros Hc -> Hv Hvn Hperm Hal Hpa Hpan Hnp HQ. unfold mappages, PGROUNDDOWN, PGSIZE. change (4096 - 1) with 4095.
  rewrite !land_lnot_4095, Z.div_mul by lia. rewrite (u32_small (v * 4096 + 4096 * (Z.of_nat n + 1) - 1)) by lia.
  replace ((v * 4096 + 4096 * (Z.of_nat n + 1) - 1) / 4096) with (v + Z.of_nat n) by elia.
  rewrite u32_small by lia. replace (((v + Z.of_nat n) * 4096 - v * 4096) / 4096) with (Z.of_nat n) by elia.
  rewrite Nat2Z.id. eapply wp_mappages_loop; eauto; lia.
Qed.

(** ** The user's pages

    [U] maps the user's pages to the frames that hold them. *)
Record user (E : Z -> Z) (U : gmap Z Z) : Prop := {
  us_some v f : U !! v = Some f -> 0 <= v < 524288 /\ has PTE_P (E v) = true /\ PTE_ADDR (E v) = V2P f;
  us_none v : 0 <= v < 524288 -> U !! v = None -> has PTE_P (E v) = false;
}.

Definition frames (U : gmap Z Z) : list Z := (map_to_list U).*2.

Definition space s pgdir T E U X l m : Prop := core s pgdir T E (frames U ++ X) l m /\ user E U.

Lemma frames_insert U v f : U !! v = None -> frames (<[v := f]> U) ≡ₚ f :: frames U.
Proof. intros Hv. unfold frames. by rewrite map_to_list_insert. Qed.

Lemma frames_delete U v f : U !! v = Some f -> frames U ≡ₚ f :: frames (delete v U).
Proof. intros Hv. rewrite <- (insert_delete_id U v f Hv) at 1. apply frames_insert, lookup_delete_eq. Qed.

Lemma user_ext E E' U : user E U -> (forall v, 0 <= v < 524288 -> E' v = E v) -> user E' U.
Proof.
  intros [Hs Hn] He. split.
  - intros v f Hv. destruct (Hs v f Hv) as (? & ? & ?). by rewrite !He.
  - intros v Hr Hv. rewrite He by done. by apply Hn.
Qed.

Lemma user_insert E U v pa perm f :
  user E U -> 0 <= v < 524288 -> aligned pa -> 0 <= perm < 4096 -> V2P f = pa -> user (upd E v (entry pa perm)) (<[v := f]> U).
Proof.
  intros [Hs Hn] Hv Ha Hp Hf. split; intros x.
  - intros g. destruct (decide (x = v)) as [->|Hne].
    + rewrite lookup_insert_eq. intros [= <-]. unfold upd. rewrite Z.eqb_refl, entry_present, entry_addr by done. auto.
    + rewrite lookup_insert_ne by done. unfold upd. rewrite (proj2 (Z.eqb_neq x v)) by done. apply Hs.
  - intros Hx. destruct (decide (x = v)) as [->|Hne]; [by rewrite lookup_insert_eq|].
    rewrite lookup_insert_ne by done. unfold upd. rewrite (proj2 (Z.eqb_neq x v)) by done. by apply Hn.
Qed.

Lemma user_delete E U v : user E U -> user (upd E v 0) (delete v U).
Proof.
  intros [Hs Hn]. split; intros x.
  - intros g. destruct (decide (x = v)) as [->|Hne]; [by rewrite lookup_delete_eq|].
    rewrite lookup_delete_ne by done. unfold upd. rewrite (proj2 (Z.eqb_neq x v)) by done. apply Hs.
  - intros Hx. unfold upd. destruct (Z.eqb_spec x v) as [->|Hne]; [done|]. rewrite lookup_delete_ne by done. by apply Hn.
Qed.

Lemma wp_core_kfree s pgdir T E f X l m (Q : unit -> vmst -> Prop) :
  core s pgdir T E (f :: X) l m ->
  (forall s', core s' pgdir T E X (f :: l) m -> Q tt s') -> wp (kfree kend f) s Q.
Proof.
  intros Hc HQ. destruct (core_notin _ _ _ _ _ _ _ f Hc) as [Hft Hfl]; [by left|].
  assert (allocatable kend f) as Hfa by (apply Hc; rewrite elem_of_cons, elem_of_app; right; right; by left).
  assert (is_Some (vm_mem s !! f)) as Hfm.
  { rewrite (co_rest _ _ _ _ _ _ _ Hc) by done. apply Hc. by left. }
  eapply wp_kfree; [apply Hc|done|done|done|]. intros s' Hk'. apply HQ. clear HQ.
  destruct Hc as [Hk Hd Ht Hn Ho Ha Hr HX]. apply not_elem_of_cons in Hft as [Hfd Hft].
  split; [exact Hk'| | |done| | | |].
  - destruct Hd as (dpg & Hd & ?). exists dpg. simpl. by rewrite lookup_insert_ne.
  - intros i t Hi. destruct (Ht i t Hi) as [? (pg & ? & ?)]. split; [done|]. exists pg. simpl.
    rewrite lookup_insert_ne; [done|]. intros ->. apply Hft, elem_of_tabs. by exists i.
  - rewrite <- Permutation_middle. done.
  - intros q Hq. apply Ha. set_solver.
  - intros q Hq1 Hq2. apply not_elem_of_cons in Hq2 as [Hq2 Hq3]. simpl. rewrite lookup_insert_ne by done. by apply Hr.
  - intros q Hq. apply HX. by right.
Qed.

(** ** [deallocuvm] *)

Definition outside (v w : Z) (U : gmap Z Z) : gmap Z Z := filter (fun x => ~ (v <= x.1 < w)) U.

Lemma lookup_outside v w U x : outside v w U !! x = if decide (v <= x < w) then None else U !! x.
Proof.
  unfold outside. rewrite map_lookup_filter. destruct (U !! x) as [f|]; simpl; [|by case_decide].
  destruct (decide (v <= x < w)) as [Hx|Hx].
  - by rewrite option_guard_False by (simpl; tauto).
  - by rewrite option_guard_True.
Qed.

Lemma outside_skip v v' w U :
  v <= v' -> (forall x, v <= x < v' -> U !! x = None) -> outside v' w U = outside v w U.
Proof.
  intros Hv Hn. apply map_eq. intros x. rewrite !lookup_outside. destruct (decide (v' <= x < w)), (decide (v <= x < w)); try done; [lia|].
  apply Hn. lia.
Qed.

Lemma outside_delete v w U : v < w -> outside (v + 1) w (delete v U) = outside v w U.
Proof.
  intros Hvw. apply map_eq. intros x. rewrite !lookup_outside. destruct (decide (x = v)) as [->|Hne].
  - rewrite lookup_delete_eq. by rewrite decide_False, decide_True by lia.
  - rewrite lookup_delete_ne by done. destruct (decide (v + 1 <= x < w)), (decide (v <= x < w)); done || lia.
Qed.

Lemma outside_empty v w U : w <= v -> outside v w U = U.
Proof. intros Hvw. apply map_eq. intros x. by rewrite lookup_outside, decide_False by lia. Qed.

Lemma space_none s pgdir T E U X l m v :
  space s pgdir T E U X l m -> 0 <= v -> T !! Z.to_nat (v / 1024) = None -> U !! v = None.
Proof.
  intros [Hc Hu] Hv Ht. destruct (U !! v) as [f|] eqn:Hf; [|done]. destruct (us_some _ _ Hu v f Hf) as (_ & Hp & _).
  by rewrite (co_none _ _ _ _ _ _ _ Hc v Hv Ht) in Hp.
Qed.

(** Freeing the frame of page [v], in the order of the code. *)
Lemma wp_free_frame s pgdir T E U X l m v t f (Q : unit -> vmst -> Prop) :
  space s pgdir T E U X l m -> 0 <= v -> T !! Z.to_nat (v / 1024) = Some t -> U !! v = Some f ->
  (forall s', space s' pgdir T (upd E v 0) (delete v U) X (f :: l) m -> Q tt s') ->
  wp (guard_ok (PTE_ADDR (E v) =? 0) (panic "kfree") ;;
      kfree kend (P2V (PTE_ADDR (E v))) ;; pte_set (t, Z.to_nat (v mod 1024)) 0) s Q.
Proof.
  intros [Hc Hu] Hv Ht Hf HQ. destruct (us_some _ _ Hu v f Hf) as (Hv' & Hp & Ha). rewrite Ha.
  pose proof (core_perm _ _ _ _ _ (f :: frames (delete v U) ++ X) _ _ Hc) as Hc1.
  specialize (Hc1 ltac:(by rewrite (frames_delete U v f Hf))).
  assert (allocatable kend f) as Hfa by (apply Hc1; rewrite elem_of_cons, elem_of_app; right; right; by left).
  destruct (allocatable_aligned f Hfa) as [_ ->].
  rewrite (V2P_allocatable kend f Hfa). pose proof Hfa as (_ & _ & Hfr).
  rewrite (proj2 (Z.eqb_neq _ _)) by lia. eapply wp_bind, wp_ret. eapply wp_bind, wp_core_kfree; [exact Hc1|].
  intros s1 Hc2. destruct (core_entry _ _ _ _ _ _ _ v t Hc2 Hv Ht) as (pg & Hpg & _).
  eapply wp_pte_set; [done|]. apply HQ. split; [|by apply user_delete]. by apply core_set.
Qed.

Lemma next_table v : 0 <= v < 524288 ->
  u32 (u32 (PGADDR (Z.of_nat (PDX (v * 4096)) + 1) 0 0 - PGSIZE) + PGSIZE) = (v / 1024 + 1) * 1024 * 4096.
Proof.
  intros Hv. rewrite PDX_page by lia. rewrite Z2Nat.id by elia. unfold PGADDR, PGSIZE.
  rewrite Z.shiftl_0_l, !Z.lor_0_r, Z.shiftl_mul_pow2 by lia. change (2 ^ 22) with 4194304.
  assert (1 <= v / 1024 + 1 <= 512) as Hd by elia. set (d := v / 1024 + 1) in *. clearbody d.
  rewrite (u32_small (d * 4194304)) by lia. rewrite (u32_small (d * 4194304 - 4096)) by lia. rewrite u32_small by lia. lia.
Qed.

Lemma wp_dealloc_loop fuel v w oldsz s pgdir T E U X l m (Q : unit -> vmst -> Prop) :
  space s pgdir T E U X l m -> 0 <= v -> w <= 524288 -> (w - 1) * 4096 < oldsz <= w * 4096 -> (Z.to_nat (w - v) < fuel)%nat ->
  (forall s' E' l', space s' pgdir T E' (outside v w U) X l' m -> (forall x, 524288 <= x -> E' x = E x) ->
     frames (outside v w U) ++ l' ≡ₚ frames U ++ l -> Q tt s') ->
  wp (deallocuvm_loop kend fuel pgdir (v * 4096) oldsz) s Q.
Proof.
  revert v s E U l. induction fuel as [|fuel IH]; intros v s E U l Hs Hv Hw Hsz Hf HQ; [lia|]. cbn [deallocuvm_loop].
  destruct (Z.leb_spec oldsz (v * 4096)).
  { apply wp_ret. apply (HQ s E l); rewrite ?outside_empty by lia; done. }
  destruct (T !! Z.to_nat (v / 1024)) as [t|] eqn:Ht.
  - eapply wp_bind, wp_walk_some; [apply Hs|lia|done|].
    destruct (core_entry _ _ _ _ _ _ _ v t (proj1 Hs) Hv Ht) as (pg & Hpg & Hw').
    eapply wp_bind, wp_pte_at; [done|]. rewrite Hw'. unfold PGSIZE. rewrite u32_small by lia.
    replace (v * 4096 + 4096) with ((v + 1) * 4096) by lia. destruct (U !! v) as [f|] eqn:Huv.
    + destruct (us_some _ _ (proj2 Hs) v f Huv) as (_ & -> & _). cbn [guard_ok].
      eapply wp_bind, wp_free_frame; [done|done|done|done|]. intros s1 Hs1.
      eapply IH; [exact Hs1|lia|done|done|lia|]. rewrite outside_delete by lia. intros s' E' l' Hs' HE HP. apply (HQ s' E' l'); [done| |].
      * intros x Hx. rewrite HE by done. unfold upd. by rewrite (proj2 (Z.eqb_neq x v)) by lia.
      * rewrite HP, (frames_delete U v f Huv). by rewrite <- app_comm_cons, Permutation_middle.
    + rewrite (us_none _ _ (proj2 Hs) v) by (done || lia). eapply wp_bind, wp_ret.
      eapply IH; [exact Hs|lia|done|done|lia|]. rewrite (outside_skip v (v + 1)); [done|lia|].
      intros x Hx. by replace x with v by lia.
  - eapply wp_bind, wp_walk_none; [apply Hs|lia|done|]. rewrite next_table by lia.
    eapply IH; [exact Hs|elia|done|done|elia|]. rewrite (outside_skip v ((v / 1024 + 1) * 1024)); [done|elia|].
    intros x Hx. eapply space_none; [done|lia|]. by replace (x / 1024) with (v / 1024) by elia.
Qed.

Lemma PGROUNDUP_page sz : 0 <= sz <= 2147483648 -> PGROUNDUP sz = (sz + 4095) / 4096 * 4096.
Proof. intros. apply PGROUNDUP_spec. lia. Qed.

(** The first page at or above an address. *)
Definition page_up (sz : Z) : Z := (sz + 4095) / 4096.

Lemma wp_deallocuvm oldsz newsz s pgdir T E U X l m (Q : Z -> vmst -> Prop) :
  space s pgdir T E U X l m -> 0 <= newsz -> 0 <= oldsz <= KERNBASE ->
  (forall s' E' l', space s' pgdir T E' (outside (page_up newsz) (page_up oldsz) U) X l' m ->
     (forall x, 524288 <= x -> E' x = E x) ->
     frames (outside (page_up newsz) (page_up oldsz) U) ++ l' ≡ₚ frames U ++ l ->
     Q (s32 (Z.min oldsz newsz)) s') ->
  wp (deallocuvm kend pgdir oldsz newsz) s Q.
Proof.
  intros Hs Hn Ho HQ. unfold KERNBASE, deallocuvm in *. destruct (Z.leb_spec oldsz newsz).
  - apply wp_ret. rewrite <- (Z.min_l oldsz newsz) by lia.
    apply (HQ s E l); rewrite ?outside_empty by (unfold page_up; elia); done.
  - rewrite PGROUNDUP_page by lia. eapply wp_bind, (wp_dealloc_loop _ (page_up newsz) (page_up oldsz));
      [exact Hs|unfold page_up; elia|unfold page_up; elia|unfold page_up; elia|unfold page_up, PGSIZE; elia|].
    intros s' E' l' Hs' HE HP. apply wp_ret. rewrite <- (Z.min_r oldsz newsz) by lia. by apply (HQ s' E' l').
Qed.

(** ** [freevm] *)

(** The page tables of the slots below [i]. *)
Definition below_slot (i : nat) (T : gmap nat Z) : gmap nat Z := filter (fun x => (x.1 < i)%nat) T.

Lemma lookup_below_slot i T k : below_slot i T !! k = if decide (k < i)%nat then T !! k else None.
Proof.
  unfold below_slot. rewrite map_lookup_filter. destruct (T !! k) as [t|]; simpl; [|by case_decide].
  destruct (decide (k < i)%nat); [by rewrite option_guard_True|by rewrite option_guard_False].
Qed.

Lemma below_slot_S i T :
  below_slot (S i) T = match T !! i with Some t => <[i := t]> (below_slot i T) | None => below_slot i T end.
Proof.
  apply map_eq. intros k. rewrite lookup_below_slot. destruct (T !! i) as [t|] eqn:Ht.
  - destruct (decide (k = i)) as [->|]; [by rewrite lookup_insert_eq, decide_True by lia|].
    rewrite lookup_insert_ne, lookup_below_slot by done. destruct (decide (k < S i)%nat), (decide (k < i)%nat); done || lia.
  - rewrite lookup_below_slot. destruct (decide (k = i)) as [->|]; [rewrite decide_True, decide_False by lia; done|].
    destruct (decide (k < S i)%nat), (decide (k < i)%nat); done || lia.
Qed.

Lemma wp_free_tables s pgdir T E X l m (Q : unit -> vmst -> Prop) :
  core s pgdir T E X l m ->
  (forall s' l', kmem_ok kend s' l' -> l' ≡ₚ tabs T ++ l -> vm_mem s' !! pgdir = vm_mem s !! pgdir ->
     (forall q, q ∉ tabs T -> q ∉ l -> vm_mem s' !! q = vm_mem s !! q) -> Q tt s') ->
  wp (for_all (range 0 NPDENTRIES) (fun i =>
    pde ← pte_at (pgdir, Z.to_nat i);
    guard_ok (has PTE_P pde) (kfree kend (P2V (PTE_ADDR pde))))) s Q.
Proof.
  intros Hc HQ. destruct (co_dir _ _ _ _ _ _ _ Hc) as (dpg & Hd & Hdw).
  pose proof (co_own _ _ _ _ _ _ _ Hc) as Ho.
  assert (NoDup (pgdir :: tabs T ++ l)) as Ho'.
  { eapply (sublist_NoDup _ (pgdir :: tabs T ++ X ++ l)); [done|]. by apply sublist_skip, sublist_app, sublist_inserts_l. }
  apply NoDup_cons in Ho' as [Hdn Hnd]. apply not_elem_of_app in Hdn as [Hdt Hdl].
  apply (wp_for_range 1024 _ (fun i s1 => exists l1, kmem_ok kend s1 l1 /\ l1 ≡ₚ tabs (below_slot i T) ++ l /\
    vm_mem s1 !! pgdir = Some dpg /\ (forall q, q ∉ tabs (below_slot i T) -> q ∉ l -> vm_mem s1 !! q = vm_mem s !! q))).
  - exists l. assert (below_slot 0 T = ∅) as -> by (apply map_eq; intros k; by rewrite lookup_below_slot, lookup_empty).
    split_and!; [apply Hc|done|done|done].
  - intros k s1 Hk (l1 & Hk1 & Hp1 & Hd1 & Hr1). rewrite Nat2Z.id. eapply wp_bind, wp_pte_at; [done|].
    rewrite Hdw by done. rewrite below_slot_S. destruct (T !! k) as [t|] eqn:Ht; simpl; [|apply wp_ret; eauto].
    assert (t ∈ tabs T) as Htt by (apply elem_of_tabs; eauto).
    assert (allocatable kend t) as Hta by (apply (co_alloc _ _ _ _ _ _ _ Hc); rewrite elem_of_cons, elem_of_app; auto).
    assert (below_slot k T !! k = None) as Hbk by (rewrite lookup_below_slot, decide_False by lia; done).
    assert (t ∉ tabs (below_slot k T)) as Htb.
    { intros [j Hj]%elem_of_tabs. rewrite lookup_below_slot in Hj. case_decide as Hjk; [|done].
      apply list.NoDup_app in Hnd as (Hnd & _). pose proof (tabs_inj T j k t Hnd Hj Ht). lia. }
    assert (t ∉ l) as Htl by (apply list.NoDup_app in Hnd as (_ & Hnd & _); by apply Hnd).
    destruct (table_pde_walk t Hta) as (-> & -> & _). cbn [guard_ok].
    eapply wp_kfree; [exact Hk1|done|rewrite Hp1; by apply not_elem_of_app| |].
    { rewrite Hr1 by done. destruct (co_tab _ _ _ _ _ _ _ Hc k t Ht) as [_ (pg & -> & _)]. done. }
    intros s2 Hk2. exists (t :: l1). split; [exact Hk2|]. rewrite tabs_insert by done. split_and!.
    + by rewrite Hp1.
    + simpl. rewrite lookup_insert_ne; [done|]. by intros ->.
    + intros q Hq1 Hq2. rewrite tabs_insert in Hq1 by done. apply not_elem_of_cons in Hq1 as [Hq1 Hq3]. simpl. rewrite lookup_insert_ne by done. by apply Hr1.
  - intros s1 (l1 & Hk1 & Hp1 & Hd1 & Hr1).
    assert (below_slot 1024 T = T) as HT.
    { apply map_eq. intros k. rewrite lookup_below_slot. case_decide; [done|]. destruct (T !! k) as [t|] eqn:Ht; [|done].
      destruct (co_tab _ _ _ _ _ _ _ Hc k t Ht). lia. }
    rewrite HT in *. apply (HQ s1 l1); [done|done|congruence|done].
Qed.

Lemma outside_all U v w : (forall x f, U !! x = Some f -> v <= x < w) -> outside v w U = ∅.
Proof.
  intros Hd. apply map_eq. intros x. rewrite lookup_outside, lookup_empty. case_decide; [done|].
  destruct (U !! x) eqn:Hx; [|done]. by apply Hd in Hx.
Qed.

(** The pages of an address space all go back to the free list. *)
Lemma wp_freevm s pgdir T E U X l m (Q : unit -> vmst -> Prop) :
  space s pgdir T E U X l m ->
  (forall s' l', kmem_ok kend s' l' -> l' ≡ₚ pgdir :: tabs T ++ frames U ++ l ->
     (forall q, q ∉ l' -> vm_mem s' !! q = m !! q) -> Q tt s') ->
  wp (freevm kend pgdir) s Q.
Proof.
  intros Hs HQ. assert (allocatable kend pgdir) as Hda by (apply (co_alloc _ _ _ _ _ _ _ (proj1 Hs)); by left).
  unfold freevm. rewrite (proj2 (Z.eqb_neq pgdir 0)) by (destruct Hda as (_ & _ & Hd); unfold KERNBASE in Hd; lia).
  eapply wp_bind, wp_ret. eapply wp_bind, wp_deallocuvm; [exact Hs|lia|unfold KERNBASE; lia|].
  assert (outside (page_up 0) (page_up KERNBASE) U = ∅) as ->.
  { apply outside_all. intros x f Hx. destruct (us_some _ _ (proj2 Hs) x f Hx) as [Hr _].
    change (page_up 0) with 0. change (page_up KERNBASE) with 524288. lia. }
  intros s1 E1 l1 [Hc1 _] _ HP1. change (frames ∅) with (@nil Z) in *. simpl in Hc1, HP1.
  eapply wp_bind, wp_free_tables; [exact Hc1|]. intros s2 l2 Hk2 HP2 Hd2 Hr2.
  pose proof (co_own _ _ _ _ _ _ _ Hc1) as Ho. destruct (co_dir _ _ _ _ _ _ _ Hc1) as (dpg & Hd & _).
  assert (pgdir ∉ l2) as Hdn.
  { rewrite HP2. apply NoDup_cons in Ho as [Ho _]. rewrite !not_elem_of_app in *. naive_solver. }
  eapply wp_kfree; [exact Hk2|done|done|by rewrite Hd2, Hd|]. intros s3 Hk3. apply (HQ s3 (pgdir :: l2)); [exact Hk3| |].
  - by rewrite HP2, HP1.
  - intros q [Hq1 Hq2]%not_elem_of_cons. simpl. rewrite lookup_insert_ne by done. rewrite HP2 in Hq2.
    apply not_elem_of_app in Hq2 as [Hq2 Hq3]. rewrite Hr2 by done.
    apply (co_rest _ _ _ _ _ _ _ Hc1); [by apply not_elem_of_cons|done].
Qed.
End Alloc.
