(* ===== verification/ForkSpec.v ===== *)
(** Building address spaces: [setupkvm], [allocuvm] and [copyuvm].

    A child gets a copy of its parent's memory on pages of its own, and a failure
    gives every page back. *)

From S2P Require Import Prelude Bytes Kalloc Vm VmSpec.

(** A region of the kernel's map, from page [v0] on. *)
Fixpoint regions_ok (v0 : Z) (R : list (Z * Z * Z * Z)) : Prop :=
  match R with
  | [] => True
  | (virt, start, stop, perm) :: R =>
      exists v n, virt = v * 4096 /\ v0 <= v /\ u32 (stop - start) = 4096 * (Z.of_nat n + 1) /\
        v + Z.of_nat n < 1048576 /\ start mod 4096 = 0 /\ 0 <= start /\ start + 4096 * Z.of_nat n < 4294967296 /\
        0 <= perm < 4096 /\ regions_ok (v + Z.of_nat n + 1) R
  end.

(** The entries once the regions [R] are mapped. *)
Definition map_region (E : Z -> Z) (r : Z * Z * Z * Z) : Z -> Z :=
  let '(virt, start, stop, perm) := r in mapped E (virt / 4096) (u32 (stop - start) / 4096) start perm.

Lemma kmap_regions kdata :
  kdata mod 4096 = 0 -> KERNLINK < kdata < KERNBASE + PHYSTOP -> regions_ok 524288 (kmap kdata).
Proof.
  intros Hm Hr. unfold kmap, KERNLINK, KERNBASE, PHYSTOP, EXTMEM in *. unfold V2P, KERNBASE.
  rewrite !u32_small by lia. cbn [regions_ok].
  exists 524288, 255%nat. split_and!; try (unfold PTE_W; lia); try reflexivity.
  exists 524544, (Z.to_nat ((kdata - 2147483648 - 1048576) / 4096 - 1)).
  assert (1 <= (kdata - 2147483648 - 1048576) / 4096) by elia. rewrite Z2Nat.id by lia.
  split_and!; try reflexivity; try (rewrite u32_small; elia); try elia.
  exists (kdata / 4096), (Z.to_nat ((234881024 - (kdata - 2147483648)) / 4096 - 1)).
  assert (1 <= (234881024 - (kdata - 2147483648)) / 4096) by elia. rewrite Z2Nat.id by lia.
  split_and!; try (rewrite u32_small; elia); try (unfold PTE_W; elia).
  exists 1040384, (Z.to_nat 8191). rewrite Z2Nat.id by lia. unfold DEVSPACE, PTE_W. split_and!; try reflexivity; elia.
Qed.

Lemma foldl_below R v0 E x : regions_ok v0 R -> x < v0 -> foldl map_region E R x = E x.
Proof.
  revert v0 E. induction R as [|[[[virt start] stop] perm] R IH]; intros v0 E; [done|].
  intros (v & n & -> & Hv & Hsz & ? & ? & ? & ? & ? & HR) Hx. cbn [foldl]. rewrite (IH _ _ HR) by lia.
  unfold map_region, mapped. rewrite Z.div_mul by lia. by rewrite (proj2 (Z.leb_gt v x)) by lia.
Qed.

(** Every page of a region is mapped as the region says. *)
Lemma foldl_region R v0 E virt start stop perm x :
  regions_ok v0 R -> (virt, start, stop, perm) ∈ R -> virt / 4096 <= x < virt / 4096 + u32 (stop - start) / 4096 ->
  foldl map_region E R x = entry (start + 4096 * (x - virt / 4096)) perm.
Proof.
  revert v0 E. induction R as [|[[[virt' start'] stop'] perm'] R IH]; intros v0 E HR Hin Hx; [by apply not_elem_of_nil in Hin|].
  destruct HR as (v & n & -> & Hv & Hsz & ? & ? & ? & ? & ? & HR). cbn [foldl].
  apply elem_of_cons in Hin as [Heq|Hin]; [|by eapply IH].
  injection Heq as -> -> -> ->. rewrite Hsz, Z.div_mul in Hx by lia.
  rewrite (foldl_below _ _ _ _ HR) by elia. unfold map_region, mapped. rewrite Hsz, Z.div_mul by lia.
  rewrite (proj2 (Z.leb_le v x)), (proj2 (Z.ltb_lt x _)) by elia. done.
Qed.

Section Build.
Context (kend : Z).

(** Pages outside of [l] are as in [m]. *)
Definition rest (s : vmst) (l : list Z) (m : gmap Z (list Z)) : Prop := forall q, q ∉ l -> vm_mem s !! q = m !! q.

Lemma user_zero E : (forall x, 0 <= x < 524288 -> E x = 0) -> user E ∅.
Proof. intros HE. split; [done|]. intros v Hv _. by rewrite HE. Qed.

Lemma frames_empty : frames ∅ = [].
Proof. done. Qed.

(** A directory of the kernel alone has at most 512 tables. *)
Definition kernel_tabs (T : gmap nat Z) : Prop := forall i, (i < 512)%nat -> T !! i = None.

Lemma keys_length (T : gmap nat Z) lo hi : (forall i t, T !! i = Some t -> (lo <= i < hi)%nat) -> (length (tabs T) <= hi - lo)%nat.
Proof.
  intros HT. unfold tabs. rewrite length_fmap, <- (length_fmap fst), <- (length_seq (hi - lo) lo). apply submseteq_length, NoDup_submseteq; [apply NoDup_fst_map_to_list|].
  intros i Hi. apply list_elem_of_fmap in Hi as ([j t] & -> & Hj). apply elem_of_map_to_list in Hj. apply elem_of_seq. specialize (HT j t Hj). cbn. lia.
Qed.

Lemma kernel_tabs_length s pgdir T E X l m : core kend s pgdir T E X l m -> kernel_tabs T -> (length (tabs T) <= 512)%nat.
Proof.
  intros Hc HT. apply (keys_length T 512 1024). intros i t Hi. destruct (co_tab _ _ _ _ _ _ _ _ Hc i t Hi) as [Hlt _].
  split; [|done]. apply Nat.nlt_ge. intros Hlow. by rewrite (HT i Hlow) in Hi.
Qed.

Lemma wp_map_regions R v0 s pgdir T E l m (Q : option Z -> vmst -> Prop) :
  core kend s pgdir T E [] l m -> 524288 <= v0 -> regions_ok v0 R ->
  (forall x, v0 <= x -> has PTE_P (E x) = false) -> (forall x, 0 <= x < 524288 -> E x = 0) -> kernel_tabs T ->
  (forall s' T' l', core kend s' pgdir T' (foldl map_region E R) [] l' m -> (forall x, 0 <= x < 524288 -> foldl map_region E R x = 0) ->
     tabs T' ++ l' ≡ₚ tabs T ++ l -> (length (tabs T') <= 512)%nat -> Q None s') ->
  (forall s' l', kmem_ok kend s' l' -> l' ≡ₚ pgdir :: tabs T ++ l -> rest s' l' m -> (length (tabs T ++ l) <= 512)%nat -> Q (Some 0) s') ->
  wp (for_each R (fun '(virt, start, stop, perm) =>
        r ← mappages pgdir virt (u32 (stop - start)) start perm;
        if r <? 0 then freevm kend pgdir ;; mret (Some 0) else mret None)) s Q.
Proof.
  revert v0 s T E l. induction R as [|[[[virt start] stop] perm] R IH]; intros v0 s T E l Hc Hv0 HR Hnp Hz HT HQ HQ0; cbn [for_each].
  { apply wp_ret. apply (HQ s T l); [done|done|done|by eapply kernel_tabs_length]. }
  destruct HR as (v & n & -> & Hv & Hsz & Hvn & Hal & Hst & Hstn & Hperm & HR).
  eapply wp_bind, wp_bind, (wp_mappages kend n v _ start perm);
    [exact Hc|exact Hsz|lia|done|done|done|done|done|intros x Hx; apply Hnp; lia|].
  intros r s1 T1 l1 k Hr Hc1 HP1 Hfr1.
  assert (forall x, 0 <= x < 524288 -> mapped E v k start perm x = 0) as Hz1.
  { intros x Hx. unfold mapped. rewrite (proj2 (Z.leb_gt v x)) by lia. by apply Hz. }
  assert (kernel_tabs T1) as HT1.
  { intros i Hi. rewrite Hfr1; [by apply HT|]. assert (512 <= v / 1024) by elia. lia. }
  destruct Hr as [[-> ->]|(-> & -> & Hk)]; cbn [Z.ltb Z.compare].
  - assert (forall x, v + Z.of_nat n + 1 <= x -> has PTE_P (mapped E v (Z.of_nat n + 1) start perm x) = false) as Hnp1.
    { intros x Hx. unfold mapped. rewrite (proj2 (Z.ltb_ge x (v + (Z.of_nat n + 1)))) by lia. rewrite andb_false_r. apply Hnp. lia. }
    replace (mapped E v (Z.of_nat n + 1) start perm) with (map_region E (v * 4096, start, stop, perm)) in *
      by (unfold map_region; rewrite Hsz; f_equal; elia).
    apply wp_ret. eapply (IH (v + Z.of_nat n + 1)); [exact Hc1|lia|exact HR| |exact Hz1|exact HT1| |].
    + exact Hnp1.
    + intros s2 T2 l2 Hc2 HE2 HP2. apply (HQ s2 T2 l2); [exact Hc2|done|]. by etrans.
    + intros s2 l2 Hk2 HP2 Hr2 Hl2. apply (HQ0 s2 l2); [done|by rewrite HP2, HP1|done|]. by rewrite <- HP1.
  - eapply wp_bind, (wp_freevm kend s1 pgdir T1 _ ∅ []); [split; [exact Hc1|by apply user_zero]|].
    intros s2 l2 Hk2 HP2 Hr2. apply wp_ret, wp_ret. apply (HQ0 s2 l2); [done|by rewrite HP2, HP1|done|]. rewrite <- HP1, app_nil_r. by eapply kernel_tabs_length.
Qed.

(** A zeroed page is an empty directory. *)
Lemma core_new s p l m :
  kmem_ok kend s l -> allocatable kend p -> p ∉ l -> vm_mem s !! p = Some (fill_page 0) -> rest s (p :: l) m ->
  core kend s p ∅ (fun _ => 0) [] l m.
Proof.
  intros Hk Ha Hp Hpg Hr. split; [done| |done|done| | | |].
  - exists (fill_page 0). split; [done|]. intros i _. rewrite lookup_empty. apply word_at_zero.
  - simpl. apply NoDup_cons. split; [done|apply Hk].
  - intros q. simpl. by intros ->%list_elem_of_singleton.
  - intros q Hq Hl. apply Hr. apply not_elem_of_cons. split; [|done]. simpl in Hq. set_solver.
  - intros q Hq. by apply not_elem_of_nil in Hq.
Qed.

Lemma wp_setupkvm kdata s l m (Q : Z -> vmst -> Prop) :
  kdata mod 4096 = 0 -> KERNLINK < kdata < KERNBASE + PHYSTOP -> kmem_ok kend s l -> rest s l m ->
  (forall s' d T l', space kend s' d T (foldl map_region (fun _ => 0) (kmap kdata)) ∅ [] l' m -> d <> 0 -> d :: tabs T ++ l' ≡ₚ l ->
     (length (tabs T) <= 512)%nat -> Q d s') ->
  (forall s' l', kmem_ok kend s' l' -> l' ≡ₚ l -> rest s' l' m -> (length l <= 513)%nat -> Q 0 s') ->
  wp (setupkvm kend kdata) s Q.
Proof.
  intros Hkd Hkr Hk Hr HQ HQ0. eapply wp_bind, wp_kalloc; [exact Hk|]. destruct l as [|p l]; [apply wp_ret; eapply HQ0; (done || cbn; lia)|].
  intros q Hk1. pose proof (fl_allocatable kend _ _ _ p (km_list _ _ _ Hk) (list_elem_of_here _ _)) as Ha.
  assert (p <> 0) as Hp0 by (destruct Ha as (_ & _ & Ha); unfold KERNBASE in Ha; lia). rewrite (proj2 (Z.eqb_neq p 0)) by done.
  destruct (fl_page _ _ _ _ p (km_list _ _ _ Hk) (list_elem_of_here _ _)) as [pg Hpg].
  pose proof (km_nodup _ _ _ Hk) as [Hpl Hnd]%NoDup_cons.
  eapply wp_bind, wp_page_upd; [exact Hpg|].
  pose proof (kmem_ok_write kend _ _ p (fill_page 0) Hk1 Hpl (page_ok_fill 0 ltac:(by split))) as Hk2.
  set (s1 := set_mem _ _) in *. eapply wp_bind.
  assert (wp (guard_ok (DEVSPACE <? P2V PHYSTOP) (panic "PHYSTOP too high")) s1 (fun _ s' => s' = s1)) as Hg by (by apply wp_ret).
  eapply wp_mono; [exact Hg|]. intros [] s2 ->. eapply wp_bind, (wp_map_regions _ 524288 _ _ ∅ (fun _ => 0) l m);
    [|lia|by apply kmap_regions|done|done|done| |].
  - apply core_new; [done|done|done|apply lookup_insert_eq|]. intros r [Hr1 Hr2]%not_elem_of_cons. simpl.
    rewrite lookup_insert_ne by done. apply Hr. by apply not_elem_of_cons.
  - intros s2 T l2 Hc Hz HP HT. apply wp_ret. cbn [default]. eapply (HQ s2 p T l2); [split; [exact Hc|by apply user_zero]|done| |done].
    by rewrite HP.
  - intros s2 l2 Hk3 HP Hr3 Hl3. apply wp_ret. simpl. apply (HQ0 s2 l2); [done|by rewrite HP|done|]. change (tabs ∅ ++ l) with l in Hl3. cbn [length]. lia.
Qed.

(** ** One more page for the user *)

Lemma wp_space_kalloc s d T E U X l m (Q : Z -> vmst -> Prop) :
  space kend s d T E U X l m ->
  (l = [] -> Q 0 s) ->
  (forall p l' pg q, l = p :: l' -> let s' := set_freelist q s in vm_mem s' !! p = Some pg -> page_ok pg ->
     space kend s' d T E U (p :: X) l' (<[p := pg]> m) -> allocatable kend p -> p <> 0 -> Q p s') ->
  wp kalloc s Q.
Proof.
  intros [Hc Hu] HQ0 HQ. eapply wp_core_kalloc; [exact Hc|]. destruct l as [|p l]; [by apply HQ0|].
  intros pg q s' Hpg Hok Hc' Ha. apply (HQ p l pg q); [done|done|done| |done|].
  - split; [|done]. eapply core_perm; [exact Hc'|]. by rewrite Permutation_middle.
  - destruct Ha as (_ & _ & Ha). unfold KERNBASE in Ha. lia.
Qed.

Lemma space_write s d T E U X l m q pg :
  space kend s d T E U X l m -> q ∈ X -> page_ok pg ->
  space kend (set_mem (<[q := pg]> (vm_mem s)) s) d T E U X l (<[q := pg]> m).
Proof.
  intros [Hc Hu] Hq Hpg. destruct (core_notin _ _ _ _ _ _ _ _ q Hc) as [H1 H2]; [apply elem_of_app; by right|].
  split; [|done]. by apply core_write.
Qed.

(** The new frame [p] goes into the page table, unless there is no memory for one. *)
Lemma wp_map_frame s d T E U p X l m v perm (Q : Z -> vmst -> Prop) :
  space kend s d T E U (p :: X) l m -> 0 <= v < 524288 -> U !! v = None -> 0 <= perm < 4096 ->
  (forall s' T' l', space kend s' d T' (upd E v (entry (V2P p) perm)) (<[v := p]> U) X l' m ->
     tabs T' ++ l' ≡ₚ tabs T ++ l -> Q 0 s') ->
  (forall s' T', space kend s' d T' E U (p :: X) [] m -> tabs T' ≡ₚ tabs T ++ l -> Q (-1) s') ->
  wp (mappages d (v * 4096) PGSIZE (V2P p) perm) s Q.
Proof.
  intros [Hc Hu] Hv Huv Hperm HQ HQn.
  assert (allocatable kend p) as Ha by (apply (co_alloc _ _ _ _ _ _ _ _ Hc); rewrite elem_of_cons, !elem_of_app; right; right; right; by left).
  destruct (allocatable_aligned kend p Ha) as [Hal _].
  eapply (wp_mappages kend 0); [exact Hc|done|lia|lia|done|apply Hal|apply Hal|destruct Hal; lia| |].
  { intros x Hx. replace x with v by lia. by apply (us_none _ _ Hu). }
  intros r s' T' l' k Hr Hc' HP _. destruct Hr as [[-> ->]|(-> & -> & Hk)].
  - apply (HQ s' T' l'); [|done]. split; [|by apply user_insert].
    eapply core_perm; [eapply core_ext; [exact Hc'|]|].
    + intros x _. symmetry. apply mapped_1.
    + by rewrite frames_insert, <- app_comm_cons, Permutation_middle by done.
  - rewrite app_nil_r in HP. apply (HQn s' T'); [|done]. replace k with 0 in Hc' by lia. split; [|done].
    eapply core_ext; [exact Hc'|]. intros x _. symmetry. apply mapped_0.
Qed.

(** ** [allocuvm] *)

(** The pages of [U] and, from [v] up to [w], new ones full of zeros. *)
Definition grown (E E' : Z -> Z) (U U' : gmap Z Z) (m : gmap Z (list Z)) (v w : Z) : Prop :=
  (forall x, x < v \/ w <= x -> U' !! x = U !! x /\ E' x = E x) /\
  (forall x, v <= x < w -> exists f, U' !! x = Some f /\ m !! f = Some (fill_page 0) /\ E' x = entry (V2P f) (Z.lor PTE_W PTE_U)).

Lemma wp_space_kfree s d T E U p X l m (Q : unit -> vmst -> Prop) :
  space kend s d T E U (p :: X) l m ->
  (forall s', space kend s' d T E U X (p :: l) m -> Q tt s') -> wp (kfree kend p) s Q.
Proof.
  intros [Hc Hu] HQ. eapply wp_core_kfree; [eapply core_perm; [exact Hc|by rewrite <- Permutation_middle]|].
  intros s' Hc'. by apply HQ.
Qed.

Lemma space_nodup s d T E U X l m : space kend s d T E U X l m -> NoDup (tabs T ++ frames U ++ l).
Proof.
  intros [Hc _]. pose proof (co_own _ _ _ _ _ _ _ _ Hc) as Ho. apply NoDup_cons in Ho as [_ Ho].
  eapply sublist_NoDup; [exact Ho|]. apply sublist_app; [done|]. rewrite <- app_assoc. apply sublist_app; [done|]. by apply sublist_inserts_l.
Qed.

Lemma elem_of_frames U f : f ∈ frames U <-> exists x, U !! x = Some f.
Proof.
  unfold frames. rewrite list_elem_of_fmap. split.
  - intros ([x f'] & -> & Hx%elem_of_map_to_list). by exists x.
  - intros [x Hx]. exists (x, f). split; [done|]. by apply elem_of_map_to_list.
Qed.

(** When the frames are those of the beginning again, so is the rest of memory. *)
Lemma space_back s d T E U X l m m0 (L0 l0 : list Z) :
  space kend s d T E U X l m -> tabs T ++ frames U ++ l ≡ₚ L0 ++ frames U ++ l0 ->
  (forall q, q ∉ L0 ++ l0 -> m !! q = m0 !! q) -> space kend s d T E U X l m0.
Proof.
  intros Hs HP Hm. pose proof (space_nodup _ _ _ _ _ _ _ _ Hs) as Hnd. destruct Hs as [Hc Hu]. split; [|done].
  eapply core_rest; [exact Hc|]. intros q Hq1 Hq2. symmetry. apply Hm. intros Hq.
  assert (frames U ++ L0 ++ l0 ≡ₚ tabs T ++ frames U ++ l) as HP2 by (rewrite HP; apply Permutation_app_swap_app).
  assert (q ∈ tabs T ++ frames U ++ l) as Hin by (rewrite <- HP2; apply elem_of_app; by right).
  rewrite <- HP2 in Hnd. apply list.NoDup_app in Hnd as (_ & Hnd & _).
  rewrite !elem_of_app in Hin. destruct Hin as [Hin|[Hin|Hin]]; [|by apply (Hnd q)|done].
  apply Hq1. by right.
Qed.

(** A page from [kalloc] is filled with [pg] and mapped at page [v]. *)
Lemma wp_fill_map {A} s d T E U p X l m old pg v perm (K : Z -> M vmst A) (Q : A -> vmst -> Prop) :
  space kend s d T E U (p :: X) l m -> vm_mem s !! p = Some old -> page_ok pg ->
  0 <= v < 524288 -> U !! v = None -> 0 <= perm < 4096 ->
  (forall s' T' l', space kend s' d T' (upd E v (entry (V2P p) perm)) (<[v := p]> U) X l' (<[p := pg]> m) ->
     tabs T' ++ frames (<[v := p]> U) ++ l' ≡ₚ tabs T ++ frames U ++ p :: l -> wp (K 0) s' Q) ->
  (forall s' T', space kend s' d T' E U (p :: X) [] (<[p := pg]> m) ->
     tabs T' ++ frames U ++ [p] ≡ₚ tabs T ++ frames U ++ p :: l -> wp (K (-1)) s' Q) ->
  wp (page_upd p (fun _ => pg) ;; r ← mappages d (v * 4096) PGSIZE (V2P p) perm; K r) s Q.
Proof.
  intros Hs Hp Hpg Hv Hu Hperm HQ HQn. eapply wp_bind, wp_page_upd; [exact Hp|].
  assert (p ∈ p :: X) as HpX by (by left). pose proof (space_write _ _ _ _ _ _ _ _ p pg Hs HpX Hpg) as Hs1.
  eapply wp_bind, wp_map_frame; [exact Hs1|done|done|done| |].
  - intros s' T' l' Hs' HP. eapply HQ; [exact Hs'|]. rewrite frames_insert by done. simpl.
    trans (p :: frames U ++ (tabs T' ++ l')); [solve_Permutation|]. rewrite HP. solve_Permutation.
  - intros s' T' Hs' HP. eapply HQn; [exact Hs'|]. rewrite HP. solve_Permutation.
Qed.

Section AllocLoop.
Context (d v0 w newsz oldsz : Z) (T0 : gmap nat Z) (E0 : Z -> Z) (U0 : gmap Z Z) (X l0 : list Z) (m0 : gmap Z (list Z)).
Hypothesis Hnew : (w - 1) * 4096 < newsz <= w * 4096.
Hypothesis Hrange : 0 <= oldsz /\ 0 <= newsz < KERNBASE.
Hypothesis Hv0 : v0 = page_up oldsz.
Hypothesis Hfresh : forall x, v0 <= x -> U0 !! x = None.

Lemma grown_outside E U m v : v <= w -> grown E0 E U0 U m v0 v -> outside v0 w U = U0.
Proof.
  intros Hvw [Hout Hin]. apply map_eq. intros x. rewrite lookup_outside. case_decide as Hx.
  - symmetry. apply Hfresh. lia.
  - apply Hout. lia.
Qed.

Lemma page_up_new : page_up newsz = w.
Proof. unfold page_up. elia. Qed.

Lemma grown_fresh E U m v : v0 <= v -> grown E0 E U0 U m v0 v -> U !! v = None.
Proof. intros Hv [Hout _]. rewrite (proj1 (Hout v ltac:(lia))). by apply Hfresh. Qed.

Lemma grown_step E U m v p :
  v0 <= v -> p ∉ frames U -> grown E0 E U0 U m v0 v ->
  grown E0 (upd E v (entry (V2P p) (Z.lor PTE_W PTE_U))) U0 (<[v := p]> U) (<[p := fill_page 0]> m) v0 (v + 1).
Proof.
  intros Hv Hp [Hout Hin]. unfold upd. split; intros x Hx.
  - rewrite lookup_insert_ne by lia. rewrite (proj2 (Z.eqb_neq x v)) by lia. apply Hout. lia.
  - destruct (decide (x = v)) as [->|Hne].
    + exists p. by rewrite !lookup_insert_eq, Z.eqb_refl.
    + destruct (Hin x ltac:(lia)) as (f & Hf & Hm & HE). exists f. rewrite lookup_insert_ne by done.
      rewrite (proj2 (Z.eqb_neq x v)) by done. rewrite lookup_insert_ne; [done|]. intros ->. apply Hp, elem_of_frames. by eexists.
Qed.

Lemma grown_same E U m v p pg : p ∉ frames U -> grown E0 E U0 U m v0 v -> grown E0 E U0 U (<[p := pg]> m) v0 v.
Proof.
  intros Hp [Hout Hin]. split; [done|]. intros x Hx. destruct (Hin x Hx) as (f & Hf & Hm & HE). exists f.
  rewrite lookup_insert_ne; [done|]. intros ->. apply Hp, elem_of_frames. by eexists.
Qed.

(** A page of the free list is none of the pages [U0]. *)
Lemma grown_new E U m v T l p :
  grown E0 E U0 U m v0 v -> NoDup (tabs T ++ frames U ++ l) -> tabs T ++ frames U ++ l ≡ₚ tabs T0 ++ frames U0 ++ l0 ->
  p ∈ l -> p ∈ tabs T0 ++ l0.
Proof.
  intros [Hout _] Hnd HP Hp. assert (p ∈ tabs T0 ++ frames U0 ++ l0) as Hin by (rewrite <- HP, !elem_of_app; auto).
  rewrite !elem_of_app in *. destruct Hin as [?|[(x & Hx)%elem_of_frames|?]]; [by left| |by right].
  destruct (decide (v0 <= x)) as [Hv|Hv]; [by rewrite Hfresh in Hx|]. rewrite <- (proj1 (Hout x ltac:(lia))) in Hx.
  apply list.NoDup_app in Hnd as (_ & _ & Hnd). apply list.NoDup_app in Hnd as (_ & Hnd & _).
  destruct (Hnd p); [|done]. apply elem_of_frames. by exists x.
Qed.

(** The way back: the pages that were added are freed. *)
Lemma wp_alloc_undo {A} s T E U Y l m v (K : M vmst A) (Q : A -> vmst -> Prop) :
  space kend s d T E U Y l m -> v <= w -> grown E0 E U0 U m v0 v ->
  (forall s' E' l', space kend s' d T E' U0 Y l' m -> (forall x, 524288 <= x -> E' x = E x) ->
     frames U0 ++ l' ≡ₚ frames U ++ l -> wp K s' Q) ->
  wp (_ ← deallocuvm kend d newsz oldsz; K) s Q.
Proof.
  intros Hs Hvw Hg HQ. eapply wp_bind, wp_deallocuvm; [exact Hs|lia|unfold KERNBASE in *; lia|].
  rewrite page_up_new, <- Hv0, (grown_outside E U m v) by done. intros s' E' l' Hs' HE HP. by apply (HQ s' E' l').
Qed.

Lemma wp_allocuvm_loop fuel v s T E U l m (Q : option unit -> vmst -> Prop) :
  space kend s d T E U X l m -> grown E0 E U0 U m v0 v -> 0 <= v0 <= v -> v <= w -> (Z.to_nat (w - v) < fuel)%nat ->
  tabs T ++ frames U ++ l ≡ₚ tabs T0 ++ frames U0 ++ l0 -> (forall q, q ∉ tabs T0 ++ l0 -> m !! q = m0 !! q) ->
  (forall s' T' E' U' l' m', space kend s' d T' E' U' X l' m' -> grown E0 E' U0 U' m' v0 w ->
     tabs T' ++ frames U' ++ l' ≡ₚ tabs T0 ++ frames U0 ++ l0 -> (forall q, q ∉ tabs T0 ++ l0 -> m' !! q = m0 !! q) -> Q (Some tt) s') ->
  (forall s' T' E' l', space kend s' d T' E' U0 X l' m0 -> (forall x, 524288 <= x -> E' x = E0 x) ->
     tabs T' ++ frames U0 ++ l' ≡ₚ tabs T0 ++ frames U0 ++ l0 -> Q None s') ->
  wp (allocuvm_loop kend fuel d (v * 4096) newsz oldsz) s Q.
Proof.
  revert v s T E U l m. induction fuel as [|fuel IH]; intros v s T E U l m Hs Hg Hv Hvw Hf HP Hm HQ HQn; [lia|].
  assert (w <= 524288) as Hw by (unfold KERNBASE in *; lia).
  assert (forall x, 524288 <= x -> E x = E0 x) as HEk by (intros x Hx; apply Hg; lia).
  cbn [allocuvm_loop]. destruct (Z.leb_spec newsz (v * 4096)).
  { assert (v = w) as -> by lia. apply wp_ret. by eapply (HQ s T E U l m). }
  eapply wp_bind, wp_space_kalloc; [exact Hs| |].
  { intros ->. cbn [Z.eqb]. eapply wp_alloc_undo; [exact Hs|done|exact Hg|]. intros s' E' l' Hs' HE HP'. apply wp_ret.
    assert (tabs T ++ frames U0 ++ l' ≡ₚ tabs T0 ++ frames U0 ++ l0) as HP2 by (by rewrite HP', HP).
    apply (HQn s' T E' l'); [by eapply space_back|intros x Hx; rewrite HE; auto|done]. }
  intros p l' pg q -> s1 Hpg Hok Hs1 Ha Hp0. rewrite (proj2 (Z.eqb_neq p 0)) by done.
  pose proof (space_nodup _ _ _ _ _ _ _ _ Hs) as Hnd.
  assert (p ∈ tabs T0 ++ l0) as Hp by (eapply grown_new; [exact Hg|exact Hnd|exact HP|by left]).
  assert (p ∉ frames U) as HpU.
  { apply list.NoDup_app in Hnd as (_ & _ & Hnd). apply list.NoDup_app in Hnd as (_ & Hnd & _). intros HpU. apply (Hnd p HpU). by left. }
  eapply wp_fill_map; [exact Hs1|exact Hpg|apply page_ok_fill; by split|lia|eapply grown_fresh; [|exact Hg]; lia|done| |].
  { intros s' T' l2 Hs' HP'. cbn [Z.ltb Z.compare]. rewrite insert_insert_eq in Hs'.
    rewrite u32_small by (unfold PGSIZE; lia). replace (v * 4096 + PGSIZE) with ((v + 1) * 4096) by (unfold PGSIZE; lia).
    eapply IH; [exact Hs'|apply grown_step; [lia|done|done]|lia|lia|lia|by rewrite HP'| |done|done].
    intros q' Hq'. rewrite lookup_insert_ne by (by intros ->). by apply Hm. }
  intros s' T' Hs' HP'. cbn [Z.ltb Z.compare]. rewrite insert_insert_eq in Hs'.
  eapply wp_alloc_undo; [exact Hs'|done|by apply grown_same|]. intros s2 E' l2 Hs2 HE HP2.
  eapply wp_bind, wp_space_kfree; [exact Hs2|]. intros s3 Hs3. apply wp_ret.
  assert (tabs T' ++ frames U0 ++ p :: l2 ≡ₚ tabs T0 ++ frames U0 ++ l0) as HP3.
  { rewrite <- HP, <- HP'. rewrite <- Permutation_middle, HP2. solve_Permutation. }
  apply (HQn s3 T' E' (p :: l2)); [|intros x Hx; rewrite HE; auto|done].
  eapply space_back; [exact Hs3|exact HP3|].
  intros q' Hq'. rewrite lookup_insert_ne by (by intros ->). by apply Hm.
Qed.
End AllocLoop.

(** The space as [s] has it. *)
Lemma space_self s d T E U X l m : space kend s d T E U X l m -> space kend s d T E U X l (vm_mem s).
Proof. intros [Hc Hu]. split; [|done]. eapply core_rest; [exact Hc|]. apply Hc. Qed.

(** The contents of a user page. *)
Lemma space_frame s d T E U X l m v f : space kend s d T E U X l m -> U !! v = Some f -> vm_mem s !! f = m !! f.
Proof.
  intros [Hc _] Hf. destruct (core_notin _ _ _ _ _ _ _ _ f Hc) as [H1 H2]; [|by apply (co_rest _ _ _ _ _ _ _ _ Hc)].
  apply elem_of_app. left. apply elem_of_frames. by eexists.
Qed.

Lemma core_loose s d T E X l m q : core kend s d T E X l m -> q ∈ X -> is_Some (vm_mem s !! q).
Proof.
  intros Hc Hq. destruct (core_notin _ _ _ _ _ _ _ _ q Hc Hq) as [H1 H2].
  rewrite (co_rest _ _ _ _ _ _ _ _ Hc) by done. by apply (co_X _ _ _ _ _ _ _ _ Hc).
Qed.

(** An address space none of whose pages are written stays, while pages [Y] leave the free list. *)
Lemma space_keep s s' d T E U X Y l l' m :
  space kend s d T E U X l m -> kmem_ok kend s' l' -> Y ++ l' ≡ₚ l -> rest s' l (vm_mem s) ->
  (forall q, q ∈ Y -> is_Some (vm_mem s' !! q)) -> space kend s' d T E U (Y ++ X) l' (vm_mem s').
Proof.
  intros [Hc Hu] Hk HP Hr HY. split; [|done].
  assert (forall q, q ∈ frames U ++ X -> is_Some (vm_mem s !! q)) as HXm by (intros q; by apply (core_loose s d T E _ l m)).
  destruct Hc as [Hk0 Hd Ht Hn Ho Ha Hrest HX].
  assert (NoDup (l ++ d :: tabs T ++ frames U ++ X)) as Hnd.
  { rewrite (Permutation_app_comm l). eapply NoDup_Permutation_proper; [|exact Ho]. solve_Permutation. }
  assert (forall q, q ∈ d :: tabs T ++ frames U ++ X -> q ∉ l) as Hin.
  { intros q Hq Hl. apply list.NoDup_app in Hnd as (_ & Hd' & _). by apply (Hd' q). }
  split; [done| | |done| | |done|].
  - destruct Hd as (pg & Hpg & Hw). exists pg. split; [|done]. rewrite Hr by (apply Hin; by left). done.
  - intros i t Hi. destruct (Ht i t Hi) as [Hlt (pg & Hpg & Hw)]. split; [done|]. exists pg. split; [|done]. rewrite Hr; [done|].
    apply Hin. right. apply elem_of_app. left. apply elem_of_tabs. by exists i.
  - eapply NoDup_Permutation_proper; [|exact Hnd]. rewrite <- HP. solve_Permutation.
  - intros q. rewrite elem_of_cons, !elem_of_app. intros Hq.
    assert (q ∈ Y \/ q ∈ d :: tabs T ++ frames U ++ X) as [HqY|Hq'] by (rewrite elem_of_cons, !elem_of_app; tauto).
    + eapply fl_allocatable; [apply Hk0|]. rewrite <- HP, elem_of_app. by left.
    + apply Ha. done.
  - intros q. rewrite !elem_of_app. intros [Hq|[Hq|Hq]]; [|by apply HY|];
      (rewrite Hr by (apply Hin; rewrite elem_of_cons, !elem_of_app; auto); apply HXm; rewrite elem_of_app; auto).
Qed.

(** ** [copyuvm] *)

(** The first [v] pages of the space [E0], [U0] of memory [m0] have a copy in [E], [U] of memory [m], at
    frames of its own and with the same flags; the other entries are those of [K]. *)
Definition copied (m0 : gmap Z (list Z)) (E0 : Z -> Z) (U0 : gmap Z Z) (K E : Z -> Z) (U : gmap Z Z)
    (m : gmap Z (list Z)) (v : Z) : Prop :=
  (forall x, ~ 0 <= x < v -> U !! x = None /\ E x = K x) /\
  (forall x, 0 <= x < v -> exists f g pg, U0 !! x = Some f /\ m0 !! f = Some pg /\ U !! x = Some g /\ m !! g = Some pg /\
     E x = entry (V2P g) (PTE_FLAGS (E0 x))).

Lemma copied_step m0 E0 U0 K E U m v f p pg :
  copied m0 E0 U0 K E U m v -> 0 <= v -> p ∉ frames U -> U0 !! v = Some f -> m0 !! f = Some pg ->
  copied m0 E0 U0 K (upd E v (entry (V2P p) (PTE_FLAGS (E0 v)))) (<[v := p]> U) (<[p := pg]> m) (v + 1).
Proof.
  intros [Hout Hin] Hv Hp Hf Hpg. unfold upd. split; intros x Hx.
  - rewrite lookup_insert_ne by lia. rewrite (proj2 (Z.eqb_neq x v)) by lia. apply Hout. lia.
  - destruct (decide (x = v)) as [->|Hne].
    + exists f, p, pg. by rewrite !lookup_insert_eq, Z.eqb_refl.
    + destruct (Hin x ltac:(lia)) as (f' & g & pg' & H1 & H2 & H3 & H4 & H5). exists f', g, pg'.
      rewrite lookup_insert_ne by done. rewrite (proj2 (Z.eqb_neq x v)) by done. rewrite lookup_insert_ne; [done|].
      intros ->. apply Hp, elem_of_frames. by eexists.
Qed.

Lemma PTE_FLAGS_range pte : 0 <= PTE_FLAGS pte < 4096.
Proof. unfold PTE_FLAGS. rewrite land_4095. elia. Qed.

(** The entry of a user page. *)
Lemma wp_walk_user {A} s d T E U X l m v f (K : option pte_ptr -> M vmst A) (Q : A -> vmst -> Prop) :
  space kend s d T E U X l m -> U !! v = Some f ->
  (forall t j pg, vm_mem s !! t = Some pg -> word_at pg j = E v -> wp (K (Some (t, j))) s Q) ->
  wp (p ← walkpgdir d (v * 4096) false; K p) s Q.
Proof.
  intros [Hc Hu] Hv HQ. destruct (us_some _ _ Hu v f Hv) as (Hr & HP & _).
  destruct (T !! Z.to_nat (v / 1024)) as [t|] eqn:Ht.
  - eapply wp_bind, wp_walk_some; [exact Hc|lia|exact Ht|].
    destruct (core_entry _ _ _ _ _ _ _ _ v t Hc ltac:(lia) Ht) as (pg & Hpg & Hw). by eapply HQ.
  - by rewrite (co_none _ _ _ _ _ _ _ _ Hc v ltac:(lia) Ht) in HP.
Qed.

Section CopyLoop.
Context (s0 : vmst) (pgdir : Z) (T0 : gmap nat Z) (E0 : Z -> Z) (U0 : gmap Z Z) (X0 l0 : list Z) (m0 : gmap Z (list Z)).
Context (d : Z).
Hypothesis Hpar : space kend s0 pgdir T0 E0 U0 X0 l0 m0.

(** The child has taken its pages from the free list and nothing else has been written. *)
Definition apart (T : gmap nat Z) (U : gmap Z Z) (X l : list Z) (m : gmap Z (list Z)) : Prop :=
  d :: tabs T ++ frames U ++ X ++ l ≡ₚ l0 /\ forall q, q ∉ l0 -> m !! q = vm_mem s0 !! q.

Lemma apart_parent s T E U X l m :
  space kend s d T E U X l m -> apart T U X l m ->
  rest s l0 (vm_mem s0) /\ space kend s pgdir T0 E0 U0 ((d :: tabs T ++ frames U ++ X) ++ X0) l (vm_mem s).
Proof.
  intros [Hc Hu] [HP Hm].
  assert (rest s l0 (vm_mem s0)) as Hr.
  { intros q Hq. rewrite <- Hm by done. rewrite <- HP in Hq. apply Hc; intros Hin; apply Hq; rewrite !elem_of_cons, !elem_of_app in *; tauto. }
  split; [done|]. eapply space_keep; [exact Hpar|apply Hc|rewrite <- HP; solve_Permutation|exact Hr|].
  intros q. rewrite elem_of_cons, !elem_of_app. intros [->|[Hq|Hq]].
  - destruct (co_dir _ _ _ _ _ _ _ _ Hc) as (pg & Hpg & _). by exists pg.
  - apply elem_of_tabs in Hq as [i Hi]. destruct (co_tab _ _ _ _ _ _ _ _ Hc i q Hi) as [_ (pg & Hpg & _)]. by exists pg.
  - apply (core_loose _ _ _ _ _ _ _ q Hc). by rewrite elem_of_app.
Qed.

Lemma apart_new s T E U X l m p :
  space kend s d T E U X (p :: l) m -> apart T U X (p :: l) m -> p ∈ l0 /\ p ∉ frames U.
Proof.
  intros Hs [HP _]. split.
  - rewrite <- HP, elem_of_cons, !elem_of_app, elem_of_cons. tauto.
  - pose proof (space_nodup _ _ _ _ _ _ _ _ Hs) as Hnd. apply list.NoDup_app in Hnd as (_ & _ & Hnd).
    apply list.NoDup_app in Hnd as (_ & Hnd & _). intros Hp. apply (Hnd p Hp). by left.
Qed.

Context (sz : Z) (K : Z -> Z).
Hypothesis Hsz : 0 <= sz <= KERNBASE.
Hypothesis Hfull : forall v, 0 <= v < page_up sz -> is_Some (U0 !! v).

Lemma wp_copyuvm_loop fuel v s T E U l m (Q : option unit -> vmst -> Prop) :
  space kend s d T E U [] l m -> apart T U [] l m -> copied (vm_mem s0) E0 U0 K E U m v ->
  0 <= v -> (v - 1) * 4096 < sz -> (Z.to_nat (page_up sz - v) < fuel)%nat ->
  (forall s' T' E' U' l' m', space kend s' d T' E' U' [] l' m' -> apart T' U' [] l' m' ->
     copied (vm_mem s0) E0 U0 K E' U' m' (page_up sz) -> Q (Some tt) s') ->
  (forall s' T' E' U' l' m', space kend s' d T' E' U' [] l' m' -> apart T' U' [] l' m' -> Q None s') ->
  wp (copyuvm_loop kend fuel pgdir d (v * 4096) sz) s Q.
Proof.
  revert v s T E U l m. induction fuel as [|fuel IH]; intros v s T E U l m Hs Ha Hcp Hv Hvs Hf HQ HQn; [lia|].
  cbn [copyuvm_loop]. destruct (Z.leb_spec sz (v * 4096)) as [Hle|Hlt].
  { apply wp_ret. eapply HQ; [exact Hs|exact Ha|]. replace (page_up sz) with v by (unfold page_up; elia). done. }
  assert (v < page_up sz) as Hvp by (unfold page_up; elia).
  destruct (Hfull v ltac:(lia)) as [f Hf0]. destruct (us_some _ _ (proj2 Hpar) v f Hf0) as (Hr & HPv & Haddr).
  destruct (apart_parent _ _ _ _ _ _ _ Hs Ha) as [Hrest Hp1].
  eapply wp_walk_user; [exact Hp1|exact Hf0|]. intros t j tpg Ht Hw.
  eapply wp_bind, wp_pte_at; [exact Ht|]. rewrite Hw, HPv. eapply wp_bind, wp_ret. 
  assert (f ∈ frames U0 ++ (d :: tabs T ++ frames U ++ []) ++ X0) as Hfin by (apply elem_of_app; left; apply elem_of_frames; by exists v).
  destruct (core_loose _ _ _ _ _ _ _ f (proj1 Hp1) Hfin) as [pg Hpg].
  assert (vm_mem s0 !! f = Some pg) as Hpg0.
  { rewrite <- Hrest; [done|]. apply (core_notin _ _ _ _ _ _ _ _ f (proj1 Hpar)), elem_of_app. left. apply elem_of_frames. by exists v. }
  assert (allocatable kend f) as Hfa by (apply (co_alloc _ _ _ _ _ _ _ _ (proj1 Hp1)); rewrite elem_of_cons, elem_of_app; auto).
  eapply wp_bind, wp_space_kalloc; [exact Hs|intros ->; apply wp_ret; by eapply HQn|].
  intros p l' old q -> s1 Hold Hok Hs1 Hpa Hp0. rewrite (proj2 (Z.eqb_neq p 0)) by done.
  destruct (apart_new _ _ _ _ _ _ _ _ Hs Ha) as [Hpl0 HpU]. destruct Ha as [HP Hm].
  assert (forall q', q' ∉ l0 -> <[p := pg]> m !! q' = vm_mem s0 !! q') as Hm'.
  { intros q' Hq'. rewrite lookup_insert_ne by (by intros ->). by apply Hm. }
  rewrite Haddr, (proj2 (allocatable_aligned kend f Hfa)). eapply wp_bind, wp_page_at; [exact Hpg|].
  eapply wp_fill_map; [exact Hs1|exact Hold|eapply (km_pages _ _ _ (co_kmem _ _ _ _ _ _ _ _ (proj1 Hs))); exact Hpg|lia| |apply PTE_FLAGS_range| |].
  - apply Hcp. lia.
  - intros s' T' l2 Hs' HP'. cbn [Z.ltb Z.compare]. rewrite insert_insert_eq in Hs'.
    rewrite u32_small by (unfold PGSIZE, KERNBASE in *; lia). replace (v * 4096 + PGSIZE) with ((v + 1) * 4096) by (unfold PGSIZE; lia).
    eapply IH; [exact Hs'| |by eapply copied_step|lia|lia|lia|done|done]. split; [|done]. simpl in *. by rewrite HP'.
  - intros s' T' Hs' HP'. cbn [Z.ltb Z.compare]. rewrite insert_insert_eq in Hs'.
    eapply wp_bind, wp_space_kfree; [exact Hs'|]. intros s2 Hs2. apply wp_ret. eapply HQn; [exact Hs2|].
    split; [|done]. simpl in *. by rewrite HP'.
Qed.
End CopyLoop.
End Build.

(** After [copyuvm] the directory [d] holds a copy of the pages below [sz] of the space [T], [E], [U] at
    [pgdir], on pages of its own from the free list [l]; the parent's space is still what it was. *)
Definition child_of (kend kdata sz : Z) (s s' : vmst) (pgdir : Z) (T : gmap nat Z) (E : Z -> Z) (U : gmap Z Z)
    (X l : list Z) (d : Z) : Prop :=
  exists T' E' U' l', d :: tabs T' ++ frames U' ++ l' ≡ₚ l /\
    space kend s' d T' E' U' [] l' (vm_mem s') /\
    space kend s' pgdir T E U (d :: tabs T' ++ frames U' ++ X) l' (vm_mem s') /\
    (forall v, is_Some (U' !! v) <-> 0 <= v < page_up sz) /\
    (forall v, 0 <= v < page_up sz -> exists f g pg, U !! v = Some f /\ U' !! v = Some g /\
       vm_mem s !! f = Some pg /\ vm_mem s' !! f = Some pg /\ vm_mem s' !! g = Some pg /\
       PTE_FLAGS (E' v) = PTE_FLAGS (E v)) /\
    (forall virt start stop perm v, (virt, start, stop, perm) ∈ kmap kdata ->
       virt / 4096 <= v < virt / 4096 + u32 (stop - start) / 4096 ->
       E' v = entry (start + 4096 * (v - virt / 4096)) perm).

Lemma present_flags pte : has PTE_P pte = true -> Z.lor (PTE_FLAGS pte) PTE_P = PTE_FLAGS pte.
Proof.
  intros Hp. unfold has, PTE_FLAGS in *. apply negb_true_iff, Z.eqb_neq in Hp.
  assert (Z.testbit pte 0 = true) as Hb.
  { destruct (Z.testbit pte 0) eqn:Hb; [done|]. destruct Hp. apply Z.bits_inj'. intros n Hn. rewrite Z.land_spec, Z.bits_0.
    unfold PTE_P. destruct (decide (n = 0)) as [->|]; [by rewrite Hb|]. rewrite (Z.bits_above_log2 1 n), andb_false_r by (simpl; lia). done. }
  apply Z.bits_inj'. intros n Hn. rewrite Z.lor_spec, Z.land_spec. destruct (decide (n = 0)) as [->|]; [by rewrite Hb|].
  unfold PTE_P. rewrite (Z.bits_above_log2 1 n), orb_false_r by (simpl; lia). done.
Qed.

Lemma copied_child kend kdata sz s s' pgdir T E U X l m d T' E' U' l' m' :
  kdata mod 4096 = 0 -> KERNLINK < kdata < KERNBASE + PHYSTOP -> 0 <= sz <= KERNBASE ->
  space kend s pgdir T E U X l m -> space kend s' d T' E' U' [] l' m' -> apart s l d T' U' [] l' m' ->
  copied (vm_mem s) E U (foldl map_region (fun _ => 0) (kmap kdata)) E' U' m' (page_up sz) ->
  child_of kend kdata sz s s' pgdir T E U X l d.
Proof.
  intros Hkd Hkr Hsz Hs Hs' Ha [Hout Hin]. destruct (apart_parent kend s pgdir T E U X l m d Hs s' _ _ _ _ _ _ Hs' Ha) as [Hrest Hpar].
  assert (page_up sz <= 524288) as Hup by (unfold page_up, KERNBASE in *; elia).
  exists T', E', U', l'. destruct Ha as [HP Hm]. simpl in HP, Hpar. rewrite app_nil_r, <- app_assoc in Hpar.
  split_and!; [done|by eapply space_self|done| | |].
  - intros v. split.
    + intros [g Hg]. destruct (decide (0 <= v < page_up sz)); [done|]. by rewrite (proj1 (Hout v n)) in Hg.
    + intros Hv. destruct (Hin v Hv) as (f & g & pg & _ & _ & Hg & _). by exists g.
  - intros v Hv. destruct (Hin v Hv) as (f & g & pg & Hf & Hpg & Hg & Hmg & HE). exists f, g, pg.
    assert (f ∈ frames U) as HfU by (apply elem_of_frames; by eexists). assert (g ∈ frames U') as HgU by (apply elem_of_frames; by eexists).
    destruct (core_notin _ _ _ _ _ _ _ _ f (proj1 Hs)) as [_ Hfl]; [apply elem_of_app; by left|].
    destruct (core_notin _ _ _ _ _ _ _ _ g (proj1 Hs')) as [Hg1 Hg2]; [apply elem_of_app; by left|].
    assert (allocatable kend g) as Hga by (apply (co_alloc _ _ _ _ _ _ _ _ (proj1 Hs')); rewrite elem_of_cons, !elem_of_app; auto).
    split_and!; [done|done|done| | |].
    + by rewrite Hrest.
    + rewrite (co_rest _ _ _ _ _ _ _ _ (proj1 Hs')) by done. done.
    + rewrite HE, entry_flags by (apply PTE_FLAGS_range || by apply (allocatable_aligned kend)).
      apply present_flags. apply (us_some _ _ (proj2 Hs) v f Hf).
  - intros virt start stop perm v Hr Hv. assert (524288 <= v) as Hv2.
    { revert Hr Hv. unfold kmap. rewrite !elem_of_cons, elem_of_nil. unfold KERNLINK, KERNBASE, DEVSPACE, EXTMEM in *.
      intros [Hr|[Hr|[Hr|[Hr|[]]]]]; injection Hr as -> -> -> ->; elia. }
    rewrite (proj2 (Hout v ltac:(lia))). eapply foldl_region; [by apply kmap_regions|exact Hr|exact Hv].
Qed.

(** C12: [copyuvm] on a parent whose pages up to [sz] are mapped, whatever else the machine holds. It
    always returns. Nothing that was not on the free list changes. Either it returns 0 and the free list
    has all its pages again; or it returns a directory taken from the free list whose user pages are
    exactly those below [sz], each on a frame of its own from the free list with the contents and the
    flags of the parent's, whose kernel pages are those of [kmap], and the parent's address space is
    still what it was. *)
Theorem copyuvm_copies kend kdata s pgdir T E U X l m sz :
  kdata mod 4096 = 0 -> KERNLINK < kdata < KERNBASE + PHYSTOP ->
  space kend s pgdir T E U X l m -> 0 <= sz <= KERNBASE -> (forall v, 0 <= v < page_up sz -> is_Some (U !! v)) ->
  exists r s', copyuvm kend kdata pgdir sz s = Ok r s' /\ rest s' l (vm_mem s) /\
    ((r = 0 /\ exists l', l' ≡ₚ l /\ space kend s' pgdir T E U X l' (vm_mem s')) \/
     (r <> 0 /\ child_of kend kdata sz s s' pgdir T E U X l r)).
Proof.
  intros Hkd Hkr Hs Hsz Hfull. apply (wp_ok (copyuvm kend kdata pgdir sz)).
  assert (forall s' l', kmem_ok kend s' l' -> l' ≡ₚ l -> rest s' l' (vm_mem s) ->
    rest s' l (vm_mem s) /\ ((0 = 0 /\ exists l', l' ≡ₚ l /\ space kend s' pgdir T E U X l' (vm_mem s')) \/
      (0 <> 0 /\ child_of kend kdata sz s s' pgdir T E U X l 0))) as Hfail.
  { intros s' l' Hk HP Hr. assert (rest s' l (vm_mem s)) as Hr' by (intros q Hq; apply Hr; by rewrite HP). split; [done|]. left.
    split; [done|]. exists l'. split; [done|]. apply (space_keep kend s s' pgdir T E U X [] l l' m); [done|done|done|done|].
    intros q Hq. by apply not_elem_of_nil in Hq. }
  eapply wp_bind, (wp_setupkvm kend kdata s l (vm_mem s)); [done|done|apply Hs|done| |].
  2:{ intros s' l' Hk HP Hr _. apply wp_ret. by eapply Hfail. }
  intros s1 d T1 l1 Hs1 Hd HP1 _. rewrite (proj2 (Z.eqb_neq d 0)) by done. eapply wp_bind.
  eapply (wp_copyuvm_loop kend s pgdir T E U X l m d Hs sz _ Hsz Hfull _ 0);
    [exact Hs1|by split|split; [by intros x _|intros x Hx; lia]|lia|lia|unfold page_up, PGSIZE; elia| |].
  - intros s2 T2 E2 U2 l2 m2 Hs2 Ha Hc. apply wp_ret.
    split; [by apply (apart_parent kend s pgdir T E U X l m d Hs s2 _ _ _ _ _ _ Hs2 Ha)|].
    right. split; [done|]. by eapply copied_child.
  - intros s2 T2 E2 U2 l2 m2 Hs2 [HP Hm]. eapply wp_bind, wp_freevm; [exact Hs2|]. intros s3 l3 Hk3 HP3 Hr3.
    apply wp_ret. assert (l3 ≡ₚ l) as Hl3 by (by rewrite HP3, <- HP). eapply Hfail; [exact Hk3|done|].
    intros q Hq. rewrite Hr3 by done. apply Hm. by rewrite <- Hl3.
Qed.

(** C34: [allocuvm] on an address space that ends at [oldsz], whatever else the machine holds. It always
    returns. A size at or above [KERNBASE] gives 0 and a smaller size changes nothing. Otherwise
    either it returns the new size and the space has grown by zeroed, writable user pages up to there,
    on frames from the free list; or it returns 0 and the user's pages are those from before, with
    every page that is not now a page table back on the free list. The pages that were there keep their
    frames and contents. *)
Theorem allocuvm_grows kend s d T E U X l m oldsz newsz :
  space kend s d T E U X l m -> 0 <= oldsz -> 0 <= newsz -> (forall v, page_up oldsz <= v -> U !! v = None) ->
  exists r s', allocuvm kend d oldsz newsz s = Ok r s' /\
    if KERNBASE <=? newsz then r = 0 /\ s' = s
    else if newsz <? oldsz then r = s32 oldsz /\ s' = s
    else exists T' E' U' l', space kend s' d T' E' U' X l' (vm_mem s') /\
      tabs T' ++ frames U' ++ l' ≡ₚ tabs T ++ frames U ++ l /\
      (forall v f, U !! v = Some f -> U' !! v = Some f /\ vm_mem s' !! f = vm_mem s !! f) /\
      (forall v, 524288 <= v -> E' v = E v) /\
      (r = newsz /\ grown E E' U U' (vm_mem s') (page_up oldsz) (page_up newsz) \/ r = 0 /\ U' = U).
Proof.
  intros Hs Ho Hn Hfresh. apply (wp_ok (allocuvm kend d oldsz newsz)). unfold allocuvm.
  destruct (Z.leb_spec KERNBASE newsz) as [|Hk]; [by apply wp_ret|].
  destruct (Z.ltb_spec newsz oldsz) as [|Hno]; [by apply wp_ret|].
  rewrite PGROUNDUP_page by (unfold KERNBASE in *; lia).
  eapply wp_bind, (wp_allocuvm_loop kend d (page_up oldsz) (page_up newsz) newsz oldsz T E U X l m) with (v := page_up oldsz);
    [unfold page_up; elia|lia|done|done|exact Hs|split; [done|intros x Hx; lia]|unfold page_up; elia|unfold page_up; elia|
     unfold page_up, PGSIZE; elia|done|done| |].
  - intros s' T' E' U' l' m' Hs' Hg HP Hm. apply wp_ret. exists T', E', U', l'.
    assert (grown E E' U U' (vm_mem s') (page_up oldsz) (page_up newsz)) as Hg'.
    { destruct Hg as [Hout Hin]. split; [done|]. intros x Hx. destruct (Hin x Hx) as (f & Hf & Hmf & HE). exists f.
      by rewrite (space_frame _ _ _ _ _ _ _ _ _ x f Hs' Hf). }
    split_and!; [by eapply space_self|done| |intros v Hv; apply Hg; right; unfold page_up, KERNBASE in *; elia|].
    + intros v f Hf. assert (v < page_up oldsz) by (apply Z.nle_gt; intros Hv; by rewrite Hfresh in Hf).
      assert (U' !! v = Some f) as Hf' by (by rewrite (proj1 (proj1 Hg v ltac:(lia)))). split; [done|].
      rewrite (space_frame _ _ _ _ _ _ _ _ _ v f Hs Hf), (space_frame _ _ _ _ _ _ _ _ _ v f Hs' Hf'). apply Hm.
      pose proof (space_nodup _ _ _ _ _ _ _ _ _ Hs) as Hnd. rewrite Permutation_app_swap_app in Hnd.
      apply list.NoDup_app in Hnd as (_ & Hnd & _). apply Hnd, elem_of_frames. by exists v.
    + left. split; [|done]. apply s32_small. unfold KERNBASE in *; lia.
  - intros s' T' E' l' Hs' HE HP. apply wp_ret. exists T', E', U, l'. split_and!; [by eapply space_self|done| |done|by right].
    intros v f Hf. split; [done|]. by rewrite (space_frame _ _ _ _ _ _ _ _ _ v f Hs Hf), (space_frame _ _ _ _ _ _ _ _ _ v f Hs' Hf).
Qed.

(** ** A small machine: a directory, a table and a user page at the end of the kernel, one page free *)

Definition toy_end : Z := 2149580800.
Definition toy_mem : gmap Z (list Z) :=
  <[toy_end := fill_page 0]> (<[toy_end + 4096 := fill_page 0]> (<[toy_end + 8192 := fill_page 7]> {[toy_end + 12288 := fill_page 0]})).
Definition toy0 : vmst := Vmst toy_mem (toy_end + 12288) 1.
Definition toy1 : vmst := set_mem (<[toy_end := set_word (fill_page 0) 0 (table_pde (toy_end + 4096))]> (vm_mem toy0)) toy0.
Definition toy_pte : Z := entry (V2P (toy_end + 8192)) (Z.lor PTE_W PTE_U).
Definition toy : vmst := set_mem (<[toy_end + 4096 := set_word (fill_page 0) 0 toy_pte]> (vm_mem toy1)) toy1.

Lemma toy_allocatable i : 0 <= i < 4 -> allocatable toy_end (toy_end + 4096 * i).
Proof. intros Hi. unfold allocatable, toy_end, KERNBASE, PHYSTOP. split_and!; elia. Qed.

Lemma toy0_core : core toy_end toy0 toy_end ∅ (fun _ => 0) [toy_end + 4096; toy_end + 8192] [toy_end + 12288] toy_mem.
Proof.
  split.
  - split; [|by apply NoDup_singleton|].
    + eapply fl_cons; [apply (toy_allocatable 3); lia|reflexivity|]. rewrite word_at_zero. constructor.
    + unfold toy0, toy_mem. repeat (apply map_Forall_insert_2; [by apply page_ok_fill|]). apply map_Forall_empty.
  - exists (fill_page 0). split; [reflexivity|]. intros i _. rewrite lookup_empty. apply word_at_zero.
  - intros i t Ht. by rewrite lookup_empty in Ht.
  - done.
  - apply (bool_decide_unpack _). by vm_compute.
  - intros p Hp. change (p ∈ [toy_end; toy_end + 4096; toy_end + 8192]) in Hp. assert (p = toy_end + 4096 * 0 \/ p = toy_end + 4096 * 1 \/ p = toy_end + 4096 * 2) as [->|[->| ->]]
      by (rewrite !elem_of_cons, elem_of_nil in Hp; lia); apply toy_allocatable; lia.
  - done.
  - intros q Hq. rewrite !elem_of_cons, elem_of_nil in Hq. destruct Hq as [->|[->|[]]]; by eexists.
Qed.

Lemma toy_space : space toy_end toy toy_end {[0%nat := toy_end + 4096]} (upd (fun _ => 0) 0 toy_pte) {[0 := toy_end + 8192]} [] [toy_end + 12288] toy_mem.
Proof.
  assert (core toy_end toy1 toy_end (<[0%nat := toy_end + 4096]> ∅) (fun _ => 0) [toy_end + 8192] [toy_end + 12288] toy_mem) as H1.
  { apply (core_adopt toy_end toy0); [exact toy0_core|reflexivity|done|lia|reflexivity]. }
  destruct (allocatable_aligned toy_end _ (toy_allocatable 2 ltac:(lia))) as [Hal _]. change (4096 * 2) with 8192 in Hal.
  split; [|apply (user_insert (fun _ => 0) ∅); [by apply user_zero|lia|done|done|done]].
  apply (core_set toy_end toy1 toy_end _ (fun _ => 0) _ _ _ 0 (toy_end + 4096) (fill_page 0)); [exact H1|lia|reflexivity|reflexivity|].
  by apply entry_range.
Qed.

Lemma copyuvm_copies_witness :
  exists r s', copyuvm toy_end toy_end toy_end 4096 toy = Ok r s' /\ rest s' [toy_end + 12288] (vm_mem toy).
Proof.
  destruct (copyuvm_copies toy_end toy_end toy toy_end {[0%nat := toy_end + 4096]} (upd (fun _ => 0) 0 toy_pte)
    {[0 := toy_end + 8192]} [] [toy_end + 12288] toy_mem 4096) as (r & s' & He & Hr & _).
  - reflexivity.
  - unfold KERNLINK, KERNBASE, EXTMEM, PHYSTOP, toy_end. lia.
  - exact toy_space.
  - unfold KERNBASE. lia.
  - intros v Hv. change (page_up 4096) with 1 in Hv. replace v with 0 by lia. by eexists.
  - exists r, s'. split; [exact He|exact Hr].
Defined.

Lemma allocuvm_grows_witness : exists r s', allocuvm toy_end toy_end 4096 8192 toy = Ok r s' /\ (r = 8192 \/ r = 0).
Proof.
  destruct (allocuvm_grows toy_end toy toy_end {[0%nat := toy_end + 4096]} (upd (fun _ => 0) 0 toy_pte)
    {[0 := toy_end + 8192]} [] [toy_end + 12288] toy_mem 4096 8192) as (r & s' & He & Hr).
  - exact toy_space.
  - lia.
  - lia.
  - intros v Hv. change (page_up 4096) with 1 in Hv. rewrite lookup_singleton_ne by lia. reflexivity.
  - exists r, s'. split; [exact He|]. change (KERNBASE <=? 8192) with false in Hr. change (8192 <? 4096) with false in Hr.
    destruct Hr as (T' & E' & U' & l' & _ & _ & _ & _ & [[-> _]|[-> _]]); [left|right]; reflexivity.
Defined.
