(* ===== verification/Pipe.v ===== *)
(** Pipes (pipe.c): the ring buffer, and readers and writers that interleave.

    A call runs in one piece up to the point where it sleeps or returns; when it
    wakes up it goes on with the bytes that are left. [killed] is
    [myproc()->killed] at that moment. Allocation and closing of the files of a pipe
    are in File.v. *)

From S2P Require Import Prelude Bytes.

Definition PIPESIZE : Z := 512.

Record pipe := Pipe { p_data : list Z; nread : Z; nwrite : Z; readopen : Z; writeopen : Z }.

(** [pipealloc]: the new pipe, with whatever the page held before as its data. *)
Definition new_pipe (junk : list Z) : pipe := Pipe junk 0 0 1 1.

(** [p->data[p->nwrite++ % PIPESIZE] = c] and the other direction. *)
Definition put (c : Z) (p : pipe) : pipe :=
  Pipe (<[Z.to_nat (nwrite p mod PIPESIZE) := c]> (p_data p)) (nread p) (u32 (nwrite p + 1)) (readopen p) (writeopen p).
Definition get (p : pipe) : Z := rd (p_data p) (nread p mod PIPESIZE).
Definition advance (p : pipe) : pipe := Pipe (p_data p) (u32 (nread p + 1)) (nwrite p) (readopen p) (writeopen p).

Definition full (p : pipe) : bool := nwrite p =? u32 (nread p + PIPESIZE).
Definition empty (p : pipe) : bool := nread p =? nwrite p.

(** How a run ends: it returns a value, or sleeps with something left to do. *)
Inductive run (A B : Type) := Ret (a : A) | Sleep (b : B).
Arguments Ret {A B} a. Arguments Sleep {A B} b.

(** [pipewrite] of [bs], from the start or after a sleep. *)
Fixpoint pipewrite_run (killed : bool) (bs : list Z) (p : pipe) : run bool (list Z) * pipe :=
  match bs with
  | [] => (Ret true, p)
  | c :: bs' =>
      if full p then
        if (readopen p =? 0) || killed then (Ret false, p) else (Sleep bs, p)
      else pipewrite_run killed bs' (put c p)
  end.

(** [piperead] of up to [n] bytes. *)
Fixpoint piperead_copy (n : nat) (p : pipe) : list Z * pipe :=
  match n with
  | O => ([], p)
  | S n => if empty p then ([], p) else let (l, p') := piperead_copy n (advance p) in (get p :: l, p')
  end.
Definition piperead_run (killed : bool) (n : Z) (p : pipe) : run (option (list Z)) unit * pipe :=
  if empty p && negb (writeopen p =? 0) then
    if killed then (Ret None, p) else (Sleep tt, p)
  else let (l, p) := piperead_copy (Z.to_nat n) p in (Ret (Some l), p).

(** [pipeclose], up to the [kfree] of a pipe with both ends closed. *)
Definition pipeclose (p : pipe) (writable : bool) : pipe :=
  if writable then Pipe (p_data p) (nread p) (nwrite p) (readopen p) 0
  else Pipe (p_data p) (nread p) (nwrite p) 0 (writeopen p).

(** ** The bytes in the pipe *)

Definition count (p : pipe) : Z := u32 (nwrite p - nread p).
Definition pending (p : pipe) : list Z := (fun i => rd (p_data p) (u32 (nread p + i) mod 512)) <$> seqZ 0 (count p).

Record pipe_ok (p : pipe) : Prop := {
  po_len : length (p_data p) = 512%nat;
  po_nread : 0 <= nread p < 4294967296;
  po_nwrite : 0 <= nwrite p < 4294967296;
  po_count : count p <= 512;
}.

(** The counters wrap around at a multiple of the size, so indices do not jump. *)
Lemma wrap_index z : u32 z mod 512 = z mod 512.
Proof. unfold u32. elia. Qed.

Lemma full_count p : pipe_ok p -> full p = (count p =? 512).
Proof.
  intros [_ Hr Hw Hc]. unfold full, count, PIPESIZE, u32 in *.
  destruct (Z.eqb_spec (nwrite p) ((nread p + 512) mod 4294967296)), (Z.eqb_spec ((nwrite p - nread p) mod 4294967296) 512); elia.
Qed.

Lemma empty_count p : pipe_ok p -> empty p = (count p =? 0).
Proof.
  intros [_ Hr Hw Hc]. unfold empty, count, u32 in *.
  destruct (Z.eqb_spec (nread p) (nwrite p)), (Z.eqb_spec ((nwrite p - nread p) mod 4294967296) 0); elia.
Qed.

Lemma count_nonneg p : 0 <= count p.
Proof. unfold count, u32. elia. Qed.

Lemma length_pending p : length (pending p) = Z.to_nat (count p).
Proof. unfold pending. by rewrite length_fmap, length_seqZ. Qed.

Lemma put_ok p c : pipe_ok p -> full p = false -> pipe_ok (put c p) /\ pending (put c p) = pending p ++ [c].
Proof.
  intros Hok Hf. rewrite full_count in Hf by done. apply Z.eqb_neq in Hf. destruct Hok as [Hl Hr Hw Hc].
  assert (count (put c p) = count p + 1) as Hcnt.
  { pose proof (count_nonneg p). unfold count, put, u32 in *. simpl. elia. }
  split.
  { split; simpl; [by rewrite length_insert|done|apply u32_range|]. lia. }
  unfold pending. rewrite Hcnt, seqZ_app by (apply count_nonneg || lia). rewrite fmap_app. f_equal.
  - apply list_fmap_ext. intros i x Hx. apply lookup_seqZ in Hx as [-> Hi]. simpl.
    rewrite wrap_index. unfold rd. rewrite list_lookup_insert_ne; [done|].
    unfold count, u32, PIPESIZE in *. elia.
  - simpl. f_equal. rewrite wrap_index. unfold rd. replace ((nread p + (Z.of_nat 0 + (0 + count p))) mod 512) with (nwrite p mod PIPESIZE).
    + rewrite list_lookup_insert_eq; [done|]. rewrite Hl. unfold PIPESIZE. elia.
    + unfold count, u32, PIPESIZE. elia.
Qed.

Lemma advance_ok p : pipe_ok p -> empty p = false ->
  pipe_ok (advance p) /\ pending p = get p :: pending (advance p).
Proof.
  intros Hok He. rewrite empty_count in He by done. apply Z.eqb_neq in He. destruct Hok as [Hl Hr Hw Hc].
  pose proof (count_nonneg p) as Hcn.
  assert (count (advance p) = count p - 1) as Hcnt by (unfold count, advance, u32 in *; simpl; elia).
  split.
  { split; simpl; [done|apply u32_range|done|]. lia. }
  unfold pending at 1. rewrite seqZ_cons by lia. simpl. f_equal.
  - unfold get. by rewrite wrap_index, Z.add_0_r.
  - unfold pending. rewrite Hcnt. replace (Z.pred (count p)) with (count p - 1) by lia.
    assert (seqZ (Z.succ 0) (count p - 1) = Z.add 1 <$> seqZ 0 (count p - 1)) as -> by (by rewrite fmap_add_seqZ).
    rewrite <- list_fmap_compose. apply list_fmap_ext. intros i x Hx. simpl. rewrite !wrap_index. f_equal. unfold u32. elia.
Qed.

(** ** Runs *)

(** What a run of [pipewrite] stored, and why it stopped. *)
Lemma pipewrite_run_ok killed bs p :
  pipe_ok p ->
  let '(r, p') := pipewrite_run killed bs p in
  exists done rest, bs = done ++ rest /\ pipe_ok p' /\ pending p' = pending p ++ done /\
    nwrite p' = u32 (nwrite p + Z.of_nat (length done)) /\ readopen p' = readopen p /\ writeopen p' = writeopen p /\
    match r with
    | Ret true => rest = []
    | Ret false => rest <> [] /\ full p' = true /\ (readopen p = 0 \/ killed = true)
    | Sleep bs' => bs' = rest /\ rest <> [] /\ full p' = true /\ readopen p <> 0 /\ killed = false
    end.
Proof.
  revert p. induction bs as [|c bs IH]; intros p Hok; simpl.
  - exists [], []. rewrite !app_nil_r, Z.add_0_r, u32_small by apply Hok. split_and!; done.
  - destruct (full p) eqn:Hf.
    + destruct ((readopen p =? 0) || killed) eqn:Hro.
      * exists [], (c :: bs). rewrite app_nil_r, Z.add_0_r, u32_small by apply Hok. split_and!; try done.
        apply orb_true_iff in Hro as [Hro|Hro]; [left; by apply Z.eqb_eq|by right].
      * exists [], (c :: bs). rewrite app_nil_r, Z.add_0_r, u32_small by apply Hok.
        apply orb_false_iff in Hro as [Hro Hk]. apply Z.eqb_neq in Hro. split_and!; done.
    + destruct (put_ok p c Hok Hf) as [Hok' Hp]. specialize (IH (put c p) Hok').
      destruct (pipewrite_run killed bs (put c p)) as [r p'].
      destruct IH as (dn & rest & -> & Hok2 & Hp2 & Hn2 & Hr2). exists (c :: dn), rest.
      split; [done|]. split; [done|]. split; [rewrite Hp2, Hp, <- app_assoc; done|]. split; [|done].
      rewrite Hn2. unfold put. simpl length. cbn [nwrite]. unfold u32. elia.
Qed.

Lemma piperead_copy_ok n p :
  pipe_ok p -> let '(l, p') := piperead_copy n p in
  pipe_ok p' /\ l = take n (pending p) /\ pending p' = drop n (pending p).
Proof.
  revert p. induction n as [|n IH]; intros p Hok; simpl; [done|].
  destruct (empty p) eqn:He.
  - rewrite empty_count in He by done. apply Z.eqb_eq in He.
    assert (pending p = []) as -> by (apply nil_length_inv; rewrite length_pending; lia). done.
  - destruct (advance_ok p Hok He) as [Hok' Hp]. specialize (IH (advance p) Hok').
    destruct (piperead_copy n (advance p)) as [l p']. destruct IH as (Hok2 & -> & Hp2).
    rewrite Hp. simpl. done.
Qed.

Lemma empty_pending p : pipe_ok p -> empty p = true <-> pending p = [].
Proof.
  intros Hok. rewrite empty_count, Z.eqb_eq by done. rewrite <- length_zero_iff_nil, length_pending.
  pose proof (count_nonneg p). lia.
Qed.

Lemma full_pending p : pipe_ok p -> full p = true -> length (pending p) = 512%nat.
Proof. intros Hok. rewrite full_count, Z.eqb_eq, length_pending by done. lia. Qed.

(** ** Readers and writers

    A configuration has the pipe, all bytes stored so far and all bytes delivered. *)
Inductive pstep : pipe * list Z * list Z -> pipe * list Z * list Z -> Prop :=
  | ps_write p i o killed bs r p' : pipewrite_run killed bs p = (r, p') ->
      pstep (p, i, o) (p', i ++ take (Z.to_nat (u32 (nwrite p' - nwrite p))) bs, o)
  | ps_read p i o killed n l p' : piperead_run killed n p = (Ret (Some l), p') ->
      pstep (p, i, o) (p', i, o ++ l)
  | ps_close p i o w : pstep (p, i, o) (pipeclose p w, i, o).

Definition pinv (c : pipe * list Z * list Z) : Prop :=
  let '(p, i, o) := c in pipe_ok p /\ i = o ++ pending p.

Lemma pstep_inv c c' : pstep c c' -> pinv c -> pinv c'.
Proof.
  destruct 1 as [p i o killed bs r p' He|p i o killed n l p' He|p i o w]; intros [Hok Hi].
  - pose proof (pipewrite_run_ok killed bs p Hok) as Hw. rewrite He in Hw.
    destruct Hw as (dn & rest & -> & Hok' & Hp & Hn & _). split; [done|].
    assert (length dn <= 512)%nat as Hd.
    { pose proof (po_count _ Hok') as Hc. pose proof (length_pending p') as Hl. rewrite Hp, length_app in Hl. lia. }
    replace (Z.to_nat (u32 (nwrite p' - nwrite p))) with (length dn).
    + rewrite take_app_length, Hp, Hi. by rewrite app_assoc.
    + rewrite Hn. unfold u32. elia.
  - unfold piperead_run in He. destruct (empty p && negb (writeopen p =? 0)); [destruct killed; discriminate|].
    pose proof (piperead_copy_ok (Z.to_nat n) p Hok) as Hr. destruct (piperead_copy (Z.to_nat n) p) as [l' p2].
    injection He as -> ->. destruct Hr as (Hok' & -> & Hp). split; [done|]. rewrite Hp, <- app_assoc, take_drop. done.
  - split; [|destruct w; done]. destruct Hok. destruct w; by split.
Qed.

Lemma pinv_reach c c' : rtc pstep c c' -> pinv c -> pinv c'.
Proof. induction 1; eauto using pstep_inv. Qed.

(** * Properties *)

(** C35: A pipe is a bounded queue of bytes, under any interleaving of readers,
    writers and closes, also when its 32-bit counters wrap around. What was
    delivered and what is in the pipe is what was stored, in order; there are never
    more than 512 bytes in it. A read returns the oldest bytes there are, up to [n],
    and sleeps only if there are none and the write end is open; a write stores
    all its bytes, or sleeps with the rest on a full pipe, or fails on a full pipe
    that nobody reads. *)
Theorem pipe_fifo junk p i o :
  length junk = 512%nat -> rtc pstep (new_pipe junk, [], []) (p, i, o) ->
  i = o ++ pending p /\ (length (pending p) <= 512)%nat /\
  (forall killed n, match piperead_run killed n p with
     | (Ret (Some l), p') => l = take (Z.to_nat n) (pending p) /\ pending p' = drop (Z.to_nat n) (pending p) /\
         (pending p = [] -> writeopen p = 0)
     | (Ret None, p') => killed = true /\ pending p = [] /\ p' = p
     | (Sleep _, p') => pending p = [] /\ writeopen p <> 0 /\ p' = p
     end) /\
  (forall killed bs, match pipewrite_run killed bs p with
     | (Ret true, p') => pending p' = pending p ++ bs
     | (Ret false, p') => length (pending p') = 512%nat /\ (readopen p = 0 \/ killed = true)
     | (Sleep rest, p') => exists done, bs = done ++ rest /\ pending p' = pending p ++ done /\
         length (pending p') = 512%nat /\ rest <> [] /\ readopen p <> 0
     end).
Proof.
  intros Hj Hr. apply pinv_reach in Hr as [Hok Hi].
  2:{ split; [by split|]. done. }
  split; [done|]. split; [rewrite length_pending; pose proof (po_count _ Hok); lia|]. split.
  - intros killed n. unfold piperead_run. destruct (empty p && negb (writeopen p =? 0)) eqn:He.
    + apply andb_true_iff in He as [He Hwo]. apply empty_pending in He; [|done]. apply negb_true_iff, Z.eqb_neq in Hwo.
      by destruct killed.
    + pose proof (piperead_copy_ok (Z.to_nat n) p Hok) as Hc. destruct (piperead_copy (Z.to_nat n) p) as [l p'].
      destruct Hc as (_ & -> & ->). split_and!; [done|done|]. intros Hp. apply empty_pending in Hp; [|done].
      rewrite Hp in He. simpl in He. by apply negb_false_iff, Z.eqb_eq in He.
  - intros killed bs. pose proof (pipewrite_run_ok killed bs p Hok) as Hw.
    destruct (pipewrite_run killed bs p) as [[[|]|rest] p'];
      destruct Hw as (dn & rest' & -> & Hok' & Hp & _ & _ & _ & Hc).
    + by rewrite Hc, app_nil_r.
    + destruct Hc as (_ & Hf & Hc). split; [by apply full_pending|done].
    + destruct Hc as (-> & Hne & Hf & Hro & _). exists dn. split_and!; try done. by apply full_pending.
Qed.

Lemma pipe_fifo_witness :
  exists p, rtc pstep (new_pipe (replicate 512 0), [], []) (p, [104; 105; 33], [104; 105]) /\
    [104; 105; 33] = [104; 105] ++ pending p.
Proof.
  set (p1 := put 33 (put 105 (put 104 (new_pipe (replicate 512 0))))).
  assert (rtc pstep (new_pipe (replicate 512 0), [], []) (advance (advance p1), [104; 105; 33], [104; 105])) as Hr.
  { apply rtc_l with (p1, [104; 105; 33], []).
    - exact (ps_write (new_pipe (replicate 512 0)) [] [] false [104; 105; 33] (Ret true) p1 eq_refl).
    - apply rtc_once. exact (ps_read p1 [104; 105; 33] [] false 2 [104; 105] (advance (advance p1)) eq_refl). }
  exists (advance (advance p1)). split; [exact Hr|].
  exact (proj1 (pipe_fifo (replicate 512 0) _ _ _ eq_refl Hr)).
Defined.
