(* ===== verification/Grep.v ===== *)
(** grep.c: the matcher against the language of the patterns, and the lines of a text that
    match. Strings are their bytes up to the NUL. *)

From S2P Require Import Prelude.

Definition STAR : Z := 42.
Definition DOT : Z := 46.
Definition DOLLAR : Z := 36.
Definition CARET : Z := 94.
Definition NL : Z := 10.

(** [matchstar] calls [matchhere] on a shorter pattern only. *)
Fixpoint matchhere (re text : list Z) {struct re} : bool :=
  match re with
  | [] => true
  | c :: re' =>
      match re' with
      | s :: re2 =>
          if s =? STAR then
            (fix matchstar (text : list Z) : bool :=
               matchhere re2 text ||
               match text with
               | [] => false
               | t :: text' => ((t =? c) || (c =? DOT)) && matchstar text'
               end) text
          else
            match text with
            | [] => false
            | t :: text' => ((c =? DOT) || (c =? t)) && matchhere re' text'
            end
      | [] =>
          if c =? DOLLAR then match text with [] => true | _ => false end
          else
            match text with
            | [] => false
            | t :: text' => ((c =? DOT) || (c =? t)) && matchhere re' text'
            end
      end
  end.

Fixpoint matchstar (c : Z) (re text : list Z) : bool :=
  matchhere re text ||
  match text with
  | [] => false
  | t :: text' => ((t =? c) || (c =? DOT)) && matchstar c re text'
  end.

(** The [do] loop of [match]. *)
Fixpoint search (re text : list Z) : bool :=
  matchhere re text || match text with [] => false | _ :: text' => search re text' end.
Definition match_ (re text : list Z) : bool :=
  match re with
  | c :: re' => if c =? CARET then matchhere re' text else search re text
  | [] => search re text
  end.

(** The matching lines of a text [p], and what is left after the last newline; [cur] is
    the line read so far. *)
Fixpoint grep_lines (pattern : list Z) (p cur : list Z) : list Z * list Z :=
  match p with
  | [] => ([], cur)
  | c :: p' =>
      if c =? NL then
        let (out, rest) := grep_lines pattern p' [] in
        ((if match_ pattern cur then cur ++ [NL] else []) ++ out, rest)
      else grep_lines pattern p' (cur ++ [c])
  end.

(** ** The language of patterns *)

Inductive atom := Lit (c : Z) | Any.
Inductive item := One (a : atom) | Many (a : atom) | End_.

Definition atom_of (c : Z) : atom := if c =? DOT then Any else Lit c.

Fixpoint parse (re : list Z) : list item :=
  match re with
  | [] => []
  | c :: re' =>
      match re' with
      | s :: re2 => if s =? STAR then Many (atom_of c) :: parse re2 else One (atom_of c) :: parse re'
      | [] => [if c =? DOLLAR then End_ else One (atom_of c)]
      end
  end.

Definition accepts (a : atom) (t : Z) : Prop := match a with Lit c => t = c | Any => True end.

(** [matches p text]: some prefix of [text] is in the language of [p]. *)
Inductive matches : list item -> list Z -> Prop :=
  | m_nil text : matches [] text
  | m_one a p t text : accepts a t -> matches p text -> matches (One a :: p) (t :: text)
  | m_many a p pre text : Forall (accepts a) pre -> matches p text -> matches (Many a :: p) (pre ++ text)
  | m_end : matches [End_] [].

Lemma accepts_atom c t : accepts (atom_of c) t <-> (c =? DOT) || (c =? t) = true.
Proof.
  unfold atom_of. destruct (c =? DOT); simpl; [done|]. rewrite Z.eqb_eq. naive_solver.
Qed.

Lemma one_matches c p text :
  matches (One (atom_of c) :: p) text <->
  match text with [] => False | t :: text' => (c =? DOT) || (c =? t) = true /\ matches p text' end.
Proof.
  split.
  - inversion 1 as [|a p' t text' Ha Hm| |]; subst. by rewrite <- accepts_atom.
  - destruct text as [|t text]; [done|]. intros [Ha Hm]. constructor; [by apply accepts_atom|done].
Qed.

(** The loop of [matchstar] finds a run of the repeated atom. *)
Lemma matchstar_spec c re text :
  matchstar c re text = true <->
  exists pre suf, text = pre ++ suf /\ Forall (accepts (atom_of c)) pre /\ matchhere re suf = true.
Proof.
  induction text as [|t text IH]; simpl; rewrite orb_true_iff.
  - split.
    + intros [Hm|]; [|done]. by exists [], [].
    + intros (pre & suf & He & _ & Hm). symmetry in He. apply app_nil in He as [-> ->]. by left.
  - rewrite andb_true_iff, IH. split.
    + intros [Hm|[Ht (pre & suf & -> & Hp & Hm)]]; [by exists [], (t :: text)|].
      exists (t :: pre), suf. split; [done|]. split; [|done]. constructor; [|done]. apply accepts_atom.
      by rewrite orb_comm, (Z.eqb_sym c t).
    + intros (pre & suf & He & Hp & Hm). destruct pre as [|t' pre]; simpl in He; [subst; by left|].
      injection He as -> ->. apply Forall_cons in Hp as [Ha Hp]. right. split; [|by exists pre, suf].
      apply accepts_atom in Ha. by rewrite orb_comm, (Z.eqb_sym t' c).
Qed.

Lemma matchhere_star c re text : matchhere (c :: STAR :: re) text = matchstar c re text.
Proof.
  change (STAR =? STAR) with true. simpl. induction text as [|t text IH]; [done|]. simpl. by rewrite IH.
Qed.

Lemma matchhere_spec re text : matchhere re text = true <-> matches (parse re) text.
Proof.
  revert text. induction re as [re IH] using (induction_ltof1 _ length); unfold ltof in IH. intros text.
  destruct re as [|c re]; [split; [constructor|done]|]. destruct re as [|s re].
  - simpl. destruct (c =? DOLLAR).
    + destruct text; split; try done; [constructor|]. inversion 1.
    + rewrite one_matches. destruct text as [|t text]; [done|]. rewrite andb_true_r. split; [split; [done|constructor]|by intros []].
  - destruct (Z.eqb_spec s STAR) as [->|Hs].
    + rewrite matchhere_star, matchstar_spec. simpl parse. change (STAR =? STAR) with true. cbn iota. split.
      * intros (pre & suf & -> & Hp & Hm). constructor; [done|]. apply IH; [simpl; lia|done].
      * inversion 1; subst. do 2 eexists. split; [done|]. split; [done|]. apply IH; [simpl; lia|done].
    + assert (parse (c :: s :: re) = One (atom_of c) :: parse (s :: re)) as ->.
      { change (parse (c :: s :: re)) with (if s =? STAR then Many (atom_of c) :: parse re else One (atom_of c) :: parse (s :: re)).
        by rewrite (proj2 (Z.eqb_neq _ _) Hs). }
      assert (matchhere (c :: s :: re) text = match text with [] => false | t :: text' => ((c =? DOT) || (c =? t)) && matchhere (s :: re) text' end) as ->.
      { cbn [matchhere]. by rewrite (proj2 (Z.eqb_neq _ _) Hs). }
      rewrite one_matches. destruct text as [|t text]; [done|]. rewrite andb_true_iff, IH by (simpl; lia). done.
Qed.

Lemma search_spec re text :
  search re text = true <-> exists pre suf, text = pre ++ suf /\ matches (parse re) suf.
Proof.
  induction text as [|t text IH]; simpl; rewrite orb_true_iff, matchhere_spec.
  - split; [intros [Hm|]; [by exists [], []|done]|].
    intros (pre & suf & He & Hm). symmetry in He. apply app_nil in He as [-> ->]. by left.
  - rewrite IH. split.
    + intros [Hm|(pre & suf & -> & Hm)]; [by exists [], (t :: text)|by exists (t :: pre), suf].
    + intros (pre & suf & He & Hm). destruct pre as [|t' pre]; simpl in He; [subst; by left|].
      injection He as -> ->. right. by exists pre, suf.
Qed.

(** ** Lines *)

Lemma grep_lines_app pattern a b cur :
  grep_lines pattern (a ++ b) cur =
    let (o1, r1) := grep_lines pattern a cur in
    let (o2, r2) := grep_lines pattern b r1 in (o1 ++ o2, r2).
Proof.
  revert cur. induction a as [|c a IH]; intros cur; simpl.
  - by destruct (grep_lines pattern b cur).
  - destruct (c =? NL); [|apply IH]. rewrite IH. destruct (grep_lines pattern a []) as [o1 r1].
    destruct (grep_lines pattern b r1) as [o2 r2]. by rewrite app_assoc.
Qed.

Lemma grep_lines_none pattern p cur : NL ∉ p -> grep_lines pattern p cur = ([], cur ++ p).
Proof.
  revert cur. induction p as [|c p IH]; intros cur Hp; simpl; [by rewrite app_nil_r|].
  apply not_elem_of_cons in Hp as [Hc Hp]. rewrite (proj2 (Z.eqb_neq c NL)) by congruence.
  rewrite IH by done. by rewrite <- app_assoc.
Qed.

Definition printed (pattern l : list Z) : list Z := if match_ pattern l then l ++ [NL] else [].

Lemma grep_lines_spec pattern ls tail :
  Forall (fun l => NL ∉ l) ls -> NL ∉ tail ->
  grep_lines pattern (mjoin ((fun l => l ++ [NL]) <$> ls) ++ tail) [] = (mjoin (printed pattern <$> ls), tail).
Proof.
  intros Hls Ht. induction Hls as [|l ls Hl Hls IH]; [by apply grep_lines_none|].
  change (mjoin ((fun l => l ++ [NL]) <$> l :: ls)) with ((l ++ [NL]) ++ mjoin ((fun l => l ++ [NL]) <$> ls)).
  rewrite <- !app_assoc, grep_lines_app, grep_lines_none by done. cbn [app grep_lines].
  change (NL =? NL) with true. cbn iota. by rewrite IH.
Qed.

(** * Properties *)

(** C37: The matcher decides the language of the patterns: [match] answers yes exactly
    when some part of the text (its beginning, for a pattern that starts with a
    caret) is a string of the pattern read as a sequence of characters, dots,
    starred ones, and a dollar at its end. *)
Theorem match_decides re text :
  match_ re text = true <->
  match re with
  | 94 :: re' => matches (parse re') text
  | _ => exists pre suf, text = pre ++ suf /\ matches (parse re) suf
  end.
Proof.
  unfold match_. destruct re as [|c re]; [apply search_spec|]. destruct (Z.eqb_spec c CARET) as [->|Hc].
  - apply matchhere_spec.
  - rewrite search_spec. unfold CARET in Hc. repeat (case_match; try done).
Qed.
