(* ===== verification/Ext2fs.v ===== *)
(** The ext2 file system, first part of ext2fs.c: the super block and group
    descriptors, blocks, inodes, and the operations of [ext2fs_inode_ops] that call
    no other operation through [ip->iops]. The rest is in Vfs.v.

    The on-disk structures are kept as bytes with their fields at the offsets of
    ext2fs.h. A division by zero and an index outside of a buffer's 1024 bytes are
    faults. *)

From S2P Require Import Prelude Bytes Sleeplock Buf Ring Memide Bio Cache Log Inode Xv6fs.

Definition EXT2_BSIZE : Z := 1024.
Definition EXT2_NDIR_BLOCKS : nat := 12.
Definition EXT2_IND_BLOCK : nat := 12.
Definition EXT2_DIND_BLOCK : nat := 13.
Definition EXT2_TIND_BLOCK : nat := 14.
Definition EXT2_N_BLOCKS : nat := 15.
Definition EXT2_INDIRECT : Z := EXT2_BSIZE / 4.
Definition EXT2_DINDIRECT : Z := EXT2_BSIZE / 4 * EXT2_INDIRECT.
Definition EXT2_TINDIRECT : Z := EXT2_BSIZE / 4 * EXT2_DINDIRECT.
Definition EXT2_MAXFILE : Z := Z.of_nat EXT2_NDIR_BLOCKS + EXT2_INDIRECT + EXT2_DINDIRECT + EXT2_TINDIRECT.
Definition EXT2_NAME_LEN : nat := 255.
Definition S_IFMT : Z := 61440.
Definition S_IFREG : Z := 32768.
Definition S_IFDIR : Z := 16384.
Definition S_ISDIR (m : Z) : bool := Z.land m S_IFMT =? S_IFDIR.

(** Fields of [struct ext2_super_block]. *)
Definition s_blocks_count (sb : list Z) : Z := get_le 4 4 sb.
Definition s_blocks_per_group (sb : list Z) : Z := get_le 4 32 sb.
Definition s_inodes_per_group (sb : list Z) : Z := get_le 4 40 sb.
Definition s_inode_size (sb : list Z) : Z := get_le 2 88 sb.

(** Fields of [struct ext2_group_desc], 32 bytes. *)
Definition bg_block_bitmap (gd : list Z) : Z := get_le 4 0 gd.
Definition bg_inode_bitmap (gd : list Z) : Z := get_le 4 4 gd.
Definition bg_inode_table (gd : list Z) : Z := get_le 4 8 gd.

(** Fields of [struct ext2_inode], 128 bytes. *)
Definition SIZEOF_INODE : nat := 128.
Definition di_mode (di : list Z) : Z := get_le 2 0 di.
Definition di_size (di : list Z) : Z := get_le 4 4 di.
Definition di_links_count (di : list Z) : Z := get_le 2 26 di.
Definition di_block (di : list Z) : list Z := (fun k => get_le 4 (40 + 4 * k) di) <$> seq 0 EXT2_N_BLOCKS.

(** [ext2fs_free_block] finds the first byte with a clear bit, looking at the bits
    of a byte from the most significant one; [bound] is [s_blocks_per_group * 8]
    as the loop has it. The answer is the byte and the mask index. *)
Definition free_bit (c : Z) : option Z :=
  fst <$> (list_find (fun j => Z.land c (Z.shiftl 1 (7 - j)) = 0) (seqZ 0 8) ≫= fun x => Some (x.2, tt)).
Fixpoint free_scan (bytes : list Z) (i bound : Z) : option (option (Z * Z)) :=
  if bound <=? i then Some None
  else match bytes with
       | [] => None
       | c :: bytes =>
           match free_bit c with
           | Some j => Some (Some (i, j))
           | None => free_scan bytes (i + 1) bound
           end
       end.

Section Ext2fs.
Context {D : Type} `{DiskDriver D}.
Implicit Types s : fsst D.

(** Unsigned division, which traps on zero. *)
Definition udiv (a b : Z) : M (fsst D) Z := if b =? 0 then fault else mret (a / b).
Definition umod (a b : Z) : M (fsst D) Z := if b =? 0 then fault else mret (a mod b).

(** Signed division and remainder. *)
Definition sdiv (a b : Z) : M (fsst D) Z := if b =? 0 then fault else mret (Z.quot a b).
Definition smod (a b : Z) : M (fsst D) Z := if b =? 0 then fault else mret (Z.rem a b).

(** The two macros of ext2fs.h, assigned to an [int] wherever they are used. *)
Definition GET_GROUP_NO (inum : Z) : M (fsst D) Z :=
  sb ← gets fs_ext2_sb; r ← udiv (u32 (inum - 1)) (s_inodes_per_group sb); mret (s32 r).
Definition GET_INODE_INDEX (inum : Z) : M (fsst D) Z :=
  sb ← gets fs_ext2_sb; r ← umod (u32 (inum - 1)) (s_inodes_per_group sb); mret (s32 r).

(** [memmove(&x, data + off, n)] out of a buffer's 1024 bytes. *)
Definition fetch (data : list Z) (off : Z) (n : nat) : M (fsst D) (list Z) :=
  if (0 <=? off) && (off + Z.of_nat n <=? Z.of_nat (length data))
  then mret (slice (Z.to_nat off) n data) else fault.

Definition ext2fs_readsb (dev : Z) : M (fsst D) (list Z) :=
  bp ← dbuf (bread (u32 dev) 1);
  data ← dbuf (bdata bp);
  dbuf (brelse bp) ;;
  mret data.

Definition ext2fs_iinit (dev : Z) : M (fsst D) unit :=
  sb ← ext2fs_readsb dev;
  modify (set_ext2_sb sb).

Definition ext2fs_bzero (dev bno : Z) : M (fsst D) unit :=
  bp ← dbuf (bread (u32 dev) (u32 bno));
  dbuf (bset bp (fun _ => zero_block)) ;;
  dbuf (bwrite bp) ;;
  dbuf (brelse bp).

(** [ext2fs_free_block(bp->data)]: -1, or the number of the bit it has set. *)
Definition ext2fs_free_block (bp : nat) : M (fsst D) Z :=
  sb ← gets fs_ext2_sb;
  data ← dbuf (bdata bp);
  r ← deref (free_scan data 0 (u32 (s_blocks_per_group sb * 8)));
  match r with
  | Some (i, j) =>
      dbuf (bset bp (fun data => <[Z.to_nat i := u8 (Z.lor (rd data i) (Z.shiftl 1 (7 - j)))]> data)) ;;
      mret (i * 8 + j)
  | None => mret (-1)
  end.

(** The descriptor of group [gno], copied out of block 2. *)
Definition read_group_desc (dev gno : Z) : M (fsst D) (list Z) :=
  bp1 ← dbuf (bread dev 2);
  data ← dbuf (bdata bp1);
  gd ← fetch data (gno * 32) 32;
  dbuf (brelse bp1) ;;
  mret gd.

Definition ext2fs_balloc (dev inum : Z) : M (fsst D) Z :=
  gno ← GET_GROUP_NO inum;
  gd ← read_group_desc dev gno;
  bp2 ← dbuf (bread dev (bg_block_bitmap gd));
  fbit ← ext2fs_free_block bp2;
  if -1 <? fbit then
    let zbno := s32 (bg_block_bitmap gd + fbit) in
    dbuf (bwrite bp2) ;;
    ext2fs_bzero dev zbno ;;
    dbuf (brelse bp2) ;;
    mret (u32 zbno)
  else
    dbuf (brelse bp2) ;;
    panic "ext2_balloc: out of blocks
".

(** Clearing bit [index] of the bitmap in buffer [bp2]; a negative index or shift
    count, and an index past the buffer, are faults. *)
Definition clear_bitmap (bp2 : nat) (index : Z) (msg : string) : M (fsst D) unit :=
  data ← dbuf (bdata bp2);
  if (index <? 0) || (Z.of_nat (length data) <=? index / 8) then fault
  else
    let mask := Z.shiftl 1 (index mod 8) in
    guard_ok (Z.land (rd data (index / 8)) mask =? 0) (panic msg) ;;
    dbuf (bset bp2 (fun data =>
      <[Z.to_nat (index / 8) := u8 (Z.land (rd data (index / 8)) (Z.lnot mask))]> data)) ;;
    dbuf (bwrite bp2).

Definition ext2fs_bfree (dev b : Z) : M (fsst D) unit :=
  gno ← GET_GROUP_NO b;
  iindex ← GET_INODE_INDEX b;
  bp1 ← dbuf (bread (u32 dev) 2);
  data ← dbuf (bdata bp1);
  gd ← fetch data (gno * 32) 32;
  bp2 ← dbuf (bread (u32 dev) (bg_block_bitmap gd));
  clear_bitmap bp2 (s32 (iindex - bg_block_bitmap gd)) "ext2fs_bfree: block already free
" ;;
  dbuf (brelse bp2) ;;
  dbuf (brelse bp1).

Definition ext2fs_ialloc (dev type : Z) : M (fsst D) nat :=
  sb ← gets fs_ext2_sb;
  bgcount ← udiv (s_blocks_count sb) (s_blocks_per_group sb);
  r ← for_each (range 0 (s32 bgcount + 1)) (fun i =>
    gd ← read_group_desc dev i;
    bp2 ← dbuf (bread dev (bg_inode_bitmap gd));
    fbit ← ext2fs_free_block bp2;
    if fbit =? -1 then dbuf (brelse bp2) ;; mret None
    else
      let bno := u32 (bg_inode_table gd + fbit / 8) in
      let iindex := fbit mod 8 in
      bp3 ← dbuf (bread dev bno);
      let mode := if type =? T_DIR then S_IFDIR else if type =? T_FILE then S_IFREG else 0 in
      dbuf (bset bp3 (splice (Z.to_nat (iindex * 128)) (put_le 2 0 mode (replicate SIZEOF_INODE 0)))) ;;
      dbuf (bwrite bp3) ;;
      dbuf (bwrite bp2) ;;
      dbuf (brelse bp3) ;;
      dbuf (brelse bp2) ;;
      ip ← iget dev (u32 (i * s_inodes_per_group sb + fbit + 1));
      mret (Some ip));
  match r with
  | Some ip => mret ip
  | None => panic "ext2_ialloc: no inodes"
  end.

(** Where inode [inum] is on disk: its block and its offset there, as [iupdate]
    and [ilock] compute them. *)
Definition inode_place (dev inum : Z) : M (fsst D) (Z * Z) :=
  sb ← gets fs_ext2_sb;
  gno ← GET_GROUP_NO inum;
  ioff ← GET_INODE_INDEX inum;
  gd ← read_group_desc dev gno;
  per ← sdiv EXT2_BSIZE (s_inode_size sb);
  q ← sdiv ioff per;
  r ← smod ioff per;
  mret (u32 (bg_inode_table gd + q), r * s_inode_size sb).

Definition ext2fs_iupdate (ip : nat) : M (fsst D) unit :=
  x ← inode_at ip;
  pl ← inode_place (i_dev x) (i_inum x);
  bp1 ← dbuf (bread (i_dev x) pl.1);
  data ← dbuf (bdata bp1);
  din ← fetch data pl.2 SIZEOF_INODE;
  let din := if i_type x =? T_DIR then put_le 2 0 S_IFDIR din else din in
  let din := if i_type x =? T_FILE then put_le 2 0 S_IFREG din else din in
  let din := put_le 2 26 (i_nlink x) din in
  let din := put_le 4 4 (i_size x) din in
  let din := put_le 4 20 0 (put_le 4 112 0 (put_le 4 104 0 (put_le 4 32 0 (put_le 4 100 0 din)))) in
  let din := put_le 2 24 0 (put_le 4 16 0 (put_le 2 2 0 (put_le 4 8 0 din))) in
  k ← eptr ip;
  ad ← eaddrs_at k;
  let din := splice 40 (mjoin (le_enc 4 <$> a_blk ad)) din in
  dbuf (bset bp1 (splice (Z.to_nat pl.2) din)) ;;
  dbuf (bwrite bp1) ;;
  dbuf (brelse bp1).

Definition ext2fs_ilock (ip : nat) : M (fsst D) unit :=
  x ← inode_at ip;
  guard_ok (i_ref x <? 1) (panic "ext2fs_ilock") ;;
  inode_acquire ip ;;
  x ← inode_at ip;
  guard_ok (i_valid x =? 0) (
    pl ← inode_place (i_dev x) (i_inum x);
    bp1 ← dbuf (bread (i_dev x) pl.1);
    data ← dbuf (bdata bp1);
    din ← fetch data pl.2 SIZEOF_INODE;
    dbuf (brelse bp1) ;;
    let type := if S_ISDIR (di_mode din) || (di_mode din =? T_DIR) then T_DIR else T_FILE in
    inode_upd ip (fun y => with_iops (Some EXT2FS) (with_isize (di_size din)
      (with_nlink (s16 (di_links_count din)) (with_majmin 0 0 (with_type type y))))) ;;
    k ← eptr ip;
    eaddrs_upd k (with_blk (di_block din)) ;;
    inode_upd ip (with_valid 1) ;;
    guard_ok (type =? 0) (panic "ext2fs_ilock: no type")).

Definition ext2fs_iunlock (ip : nat) : M (fsst D) unit :=
  x ← inode_at ip;
  pid ← gets fs_pid;
  guard_ok (negb (holdingsleep pid (i_lock x)) || (i_ref x <? 1)) (panic "ext2fs_iunlock") ;;
  inode_release ip.

Definition ext2fs_ifree (ip : nat) : M (fsst D) unit :=
  x ← inode_at ip;
  gno ← GET_GROUP_NO (i_inum x);
  gd ← read_group_desc (i_dev x) gno;
  bp2 ← dbuf (bread (i_dev x) (bg_inode_bitmap gd));
  index ← GET_INODE_INDEX (i_inum x);
  clear_bitmap bp2 index "ext2fs_ifree: inode already free
" ;;
  dbuf (brelse bp2).

Definition ext2fs_stati (ip : nat) : M (fsst D) stat := xv6fs_stati ip.

(** [ext2fs_bmap]. The indirect blocks are changed in the cache only: no call of
    [bwrite] or [log_write] follows the assignment to [a[..]], [b[..]] or [c[..]]. *)
Definition alloc_addr (k : nat) (slot : nat) (dev inum : Z) : M (fsst D) Z :=
  ad ← eaddrs_at k;
  addr ← deref (a_blk ad !! slot);
  if addr =? 0 then
    addr ← ext2fs_balloc dev inum;
    eaddrs_upd k (fun ad => with_blk (<[slot := addr]> (a_blk ad)) ad) ;;
    mret addr
  else mret addr.

(** [if((addr = a[idx]) == 0) a[idx] = addr = ext2fs_balloc(..)] in buffer [bp]. *)
Definition alloc_word (bp : nat) (idx dev inum : Z) : M (fsst D) Z :=
  data ← dbuf (bdata bp);
  if Z.of_nat (length data) <? 4 * idx + 4 then fault
  else
    let addr := word_at data (Z.to_nat idx) in
    if addr =? 0 then
      addr ← ext2fs_balloc dev inum;
      dbuf (bset bp (fun data => set_word data (Z.to_nat idx) addr)) ;;
      mret addr
    else mret addr.

Definition ext2fs_bmap (ip : nat) (bn : Z) : M (fsst D) Z :=
  x ← inode_at ip;
  k ← eptr ip;
  let dev := i_dev x in let inum := i_inum x in
  if bn <? Z.of_nat EXT2_NDIR_BLOCKS then alloc_addr k (Z.to_nat bn) dev inum
  else
    let bn := bn - Z.of_nat EXT2_NDIR_BLOCKS in
    if bn <? EXT2_INDIRECT then
      addr ← alloc_addr k EXT2_IND_BLOCK dev inum;
      bp ← dbuf (bread dev addr);
      addr ← alloc_word bp bn dev inum;
      dbuf (brelse bp) ;;
      mret addr
    else
      let bn := bn - EXT2_INDIRECT in
      if bn <? EXT2_DINDIRECT then
        addr ← alloc_addr k EXT2_DIND_BLOCK dev inum;
        bp ← dbuf (bread dev addr);
        addr ← alloc_word bp (bn / EXT2_INDIRECT) dev inum;
        bp1 ← dbuf (bread dev addr);
        addr ← alloc_word bp1 (bn / EXT2_INDIRECT) dev inum;
        dbuf (brelse bp) ;;
        dbuf (brelse bp1) ;;
        mret addr
      else
        let bn := bn - EXT2_DINDIRECT in
        if bn <? EXT2_TINDIRECT then
          addr ← alloc_addr k EXT2_TIND_BLOCK dev inum;
          bp ← dbuf (bread dev addr);
          addr ← alloc_word bp (bn / EXT2_INDIRECT) dev inum;
          bp1 ← dbuf (bread dev addr);
          addr ← alloc_word bp1 (bn / EXT2_INDIRECT) dev inum;
          bp2 ← dbuf (bread dev addr);
          addr ← alloc_word bp2 (bn / EXT2_INDIRECT) dev inum;
          dbuf (brelse bp) ;;
          dbuf (brelse bp1) ;;
          dbuf (brelse bp2) ;;
          mret addr
        else panic "ext2_bmap: block number out of range
".

Context (devsw_read : Z -> option (nat -> Z -> M (fsst D) (Z * list Z))).

Fixpoint ext2fs_read_loop (fuel : nat) (ip : nat) (off left : Z) : M (fsst D) (list Z) :=
  match fuel with
  | O => nofuel
  | S fuel =>
      if left <=? 0 then mret []
      else
        x ← inode_at ip;
        addr ← ext2fs_bmap ip (off / EXT2_BSIZE);
        bp ← dbuf (bread (i_dev x) addr);
        let m := Z.min left (EXT2_BSIZE - off mod EXT2_BSIZE) in
        data ← dbuf (bdata bp);
        dbuf (brelse bp) ;;
        rest ← ext2fs_read_loop fuel ip (off + m) (left - m);
        mret (slice (Z.to_nat (off mod EXT2_BSIZE)) (Z.to_nat m) data ++ rest)
  end.

Definition ext2fs_readi (ip : nat) (off n : Z) : M (fsst D) (Z * list Z) :=
  x ← inode_at ip;
  if i_type x =? T_DEV then
    if (i_major x <? 0) || (NDEV <=? i_major x) then mret (-1, [])
    else match devsw_read (i_major x) with
         | None => mret (-1, [])
         | Some read => read ip (s32 n)
         end
  else if (i_size x <? off) || (u32 (off + n) <? off) then mret (-1, [])
  else
    let n := if i_size x <? off + n then i_size x - off else n in
    bytes ← ext2fs_read_loop (rounds n) ip off n;
    mret (s32 n, bytes).

Fixpoint ext2fs_write_loop (fuel : nat) (ip : nat) (src : list Z) (off left : Z) : M (fsst D) Z :=
  match fuel with
  | O => nofuel
  | S fuel =>
      if left <=? 0 then mret off
      else
        x ← inode_at ip;
        addr ← ext2fs_bmap ip (off / EXT2_BSIZE);
        bp ← dbuf (bread (i_dev x) addr);
        let m := Z.min left (EXT2_BSIZE - off mod EXT2_BSIZE) in
        dbuf (bset bp (splice (Z.to_nat (off mod EXT2_BSIZE)) (take (Z.to_nat m) src))) ;;
        dbuf (bwrite bp) ;;
        dbuf (brelse bp) ;;
        ext2fs_write_loop fuel ip (drop (Z.to_nat m) src) (off + m) (left - m)
  end.
End Ext2fs.
