(* ===== verification/Vfs.v ===== *)
(** The operations of fs.c and ext2fs.c that go through [ip->iops], and path names.

    The two tables of operations are one function per operation that dispatches on
    [ip->iops]. Directory entries, names and paths are lists of bytes; a path is a
    C string without its NUL. *)

From S2P Require Import Prelude Bytes CString Sleeplock Buf Ring Memide Bio Cache Log Inode Xv6fs Ext2fs.

Definition DIRSIZ : nat := 14.

(** [struct dirent]: a 16-bit inode number and a name of 14 bytes. *)
Definition SIZEOF_DIRENT : Z := 16.
Definition de_inum (de : list Z) : Z := get_le 2 0 de.
Definition de_name (de : list Z) : list Z := drop 2 de.
Definition dirent (inum : Z) (name : list Z) : list Z := le_enc 2 inum ++ name.

(** [struct ext2_dir_entry_2]: 263 bytes and one of padding. *)
Definition SIZEOF_EXT2_DE : Z := 264.
Definition e_inode (de : list Z) : Z := get_le 4 0 de.
Definition e_rec_len (de : list Z) : Z := get_le 2 4 de.
Definition e_name_len (de : list Z) : Z := get_le 1 6 de.
Definition e_name (de : list Z) : list Z := slice 8 EXT2_NAME_LEN de.

Definition NUL : Z := 0.
Definition slash : Z := 47.

(** ** Paths *)

(** The loops that step over slashes. *)
Fixpoint skip_slashes (path : list Z) : list Z :=
  match path with
  | c :: t => if c =? slash then skip_slashes t else path
  | [] => []
  end.

(** The loop that steps to the next slash or the end: the element and what follows. *)
Fixpoint span_elem (path : list Z) : list Z * list Z :=
  match path with
  | c :: t => if c =? slash then ([], path) else let (e, r) := span_elem t in (c :: e, r)
  | [] => ([], [])
  end.

(** [skipelem]: [None] is an overflow of the caller's buffer [name], [Some None]
    the null pointer; else what remains of the path, and [name] with the element. *)
Definition skipelem (path name : list Z) (dev : Z) : option (option (list Z * list Z)) :=
  let dirlen := if dev =? ROOTDEV then DIRSIZ else EXT2_NAME_LEN in
  match skip_slashes path with
  | [] => Some None
  | s =>
      let (e, rest) := span_elem s in
      let bytes := if (dirlen <=? length e)%nat then take dirlen e else e ++ [NUL] in
      if (length bytes <=? length name)%nat
      then Some (Some (skip_slashes rest, splice 0 bytes name))
      else None
  end.

Section Vfs.
Context {D : Type} `{DiskDriver D}.
Context (devsw_read : Z -> option (nat -> Z -> M (fsst D) (Z * list Z))).
Context (devsw_write : Z -> option (nat -> list Z -> Z -> M (fsst D) Z)).
Implicit Types s : fsst D.

(** ** Operations that call none *)

Definition ilock (ip : nat) : M (fsst D) unit :=
  o ← ops_of ip; match o with XV6FS => xv6fs_ilock ip | EXT2FS => ext2fs_ilock ip end.
Definition iunlock (ip : nat) : M (fsst D) unit :=
  o ← ops_of ip; match o with XV6FS => xv6fs_iunlock ip | EXT2FS => ext2fs_iunlock ip end.
Definition iupdate (ip : nat) : M (fsst D) unit :=
  o ← ops_of ip; match o with XV6FS => xv6fs_iupdate ip | EXT2FS => ext2fs_iupdate ip end.
Definition stati (ip : nat) : M (fsst D) stat :=
  o ← ops_of ip; match o with XV6FS => xv6fs_stati ip | EXT2FS => ext2fs_stati ip end.
Definition readi (ip : nat) (off n : Z) : M (fsst D) (Z * list Z) :=
  o ← ops_of ip;
  match o with XV6FS => xv6fs_readi devsw_read ip off n | EXT2FS => ext2fs_readi devsw_read ip off n end.

(** ** Truncation *)

(** [if(ad->addrs[slot]){ bfree(..); ad->addrs[slot] = 0; }]. *)
Definition xv6fs_drop_addr (ip k slot : nat) (dev : Z) : M (fsst D) unit :=
  ad ← xaddrs_at k;
  addr ← deref (a_blk ad !! slot);
  guard_ok (negb (addr =? 0)) (
    xv6fs_bfree dev addr ;;
    xaddrs_upd k (fun ad => with_blk (<[slot := 0]> (a_blk ad)) ad)).

Definition xv6fs_itrunc (ip : nat) : M (fsst D) unit :=
  x ← inode_at ip;
  k ← xptr ip;
  for_all (range 0 (Z.of_nat NDIRECT)) (fun i => xv6fs_drop_addr ip k (Z.to_nat i) (i_dev x)) ;;
  ad ← xaddrs_at k;
  ind ← deref (a_blk ad !! NDIRECT);
  guard_ok (negb (ind =? 0)) (
    bp ← dbuf (bread (i_dev x) ind);
    for_all (range 0 NINDIRECT) (fun j =>
      data ← dbuf (bdata bp);
      let a := word_at data (Z.to_nat j) in
      guard_ok (negb (a =? 0)) (xv6fs_bfree (i_dev x) a)) ;;
    dbuf (brelse bp) ;;
    xv6fs_drop_addr ip k NDIRECT (i_dev x)) ;;
  inode_upd ip (with_isize 0) ;;
  iupdate ip.

Definition ext2fs_drop_addr (k slot : nat) (dev : Z) : M (fsst D) unit :=
  ad ← eaddrs_at k;
  addr ← deref (a_blk ad !! slot);
  guard_ok (negb (addr =? 0)) (
    ext2fs_bfree dev addr ;;
    eaddrs_upd k (fun ad => with_blk (<[slot := 0]> (a_blk ad)) ad)).

(** The loop over the words of an indirect block in buffer [bp]: [free] what a
    word that is not zero points to, then clear it (in the cache only). *)
Definition free_words (bp : nat) (free : Z -> M (fsst D) unit) : M (fsst D) unit :=
  for_all (range 0 EXT2_INDIRECT) (fun i =>
    data ← dbuf (bdata bp);
    let a := word_at data (Z.to_nat i) in
    guard_ok (negb (a =? 0)) (
      free a ;;
      dbuf (bset bp (fun data => set_word data (Z.to_nat i) 0)))).

(** Freeing an indirect block: what its words point to, then the block itself. *)
Definition free_indirect (dev : Z) (free : Z -> M (fsst D) unit) (a : Z) : M (fsst D) unit :=
  bp ← dbuf (bread dev a);
  free_words bp free ;;
  dbuf (brelse bp) ;;
  ext2fs_bfree dev a.

(** [ad->addrs[slot]] as the root of such a tree. *)
Definition drop_tree (k slot : nat) (dev : Z) (free : Z -> M (fsst D) unit) : M (fsst D) unit :=
  ad ← eaddrs_at k;
  addr ← deref (a_blk ad !! slot);
  guard_ok (negb (addr =? 0)) (
    bp ← dbuf (bread dev addr);
    free_words bp free ;;
    dbuf (brelse bp) ;;
    ext2fs_drop_addr k slot dev).

Definition ext2fs_itrunc (ip : nat) : M (fsst D) unit :=
  x ← inode_at ip;
  k ← eptr ip;
  let dev := i_dev x in
  let free1 := ext2fs_bfree dev in
  let free2 := free_indirect dev free1 in
  let free3 := free_indirect dev free2 in
  for_all (range 0 (Z.of_nat EXT2_NDIR_BLOCKS)) (fun i => ext2fs_drop_addr k (Z.to_nat i) dev) ;;
  drop_tree k EXT2_IND_BLOCK dev free1 ;;
  drop_tree k EXT2_DIND_BLOCK dev free2 ;;
  drop_tree k EXT2_TIND_BLOCK dev free3 ;;
  inode_upd ip (with_isize 0) ;;
  iupdate ip.

(** ** Dropping a reference *)

(** The last lines of the two [iput]: [ad] is [ip->addrs] as read at the start. *)
Definition put_ref (ip : nat) (clear_busy : M (fsst D) unit) : M (fsst D) unit :=
  inode_upd ip (fun x => with_iref (i_ref x - 1) x) ;;
  x ← inode_at ip;
  guard_ok (i_ref x =? 0) (clear_busy ;; inode_upd ip (with_addrs None)).

Definition clear_slot (o : option addrs_ptr) : M (fsst D) unit :=
  match o with
  | Some (XAddrs k) => xaddrs_upd k (with_busy 0)
  | Some (EAddrs k) => eaddrs_upd k (with_busy 0)
  | None => fault
  end.

Definition iput_with (free : nat -> M (fsst D) unit) (ip : nat) : M (fsst D) unit :=
  inode_acquire ip ;;
  x ← inode_at ip;
  guard_ok (negb (i_valid x =? 0) && (i_nlink x =? 0)) (
    guard_ok (i_ref x =? 1) (
      free ip ;;
      inode_upd ip (with_type 0) ;;
      iupdate ip ;;
      inode_upd ip (fun y => with_addrs None (with_iops None (with_valid 0 y))))) ;;
  inode_release ip ;;
  put_ref ip (clear_slot (i_addrs x)).

Definition xv6fs_iput (ip : nat) : M (fsst D) unit := iput_with xv6fs_itrunc ip.
Definition ext2fs_iput (ip : nat) : M (fsst D) unit :=
  iput_with (fun ip => ext2fs_ifree ip ;; ext2fs_itrunc ip) ip.

Definition iput (ip : nat) : M (fsst D) unit :=
  o ← ops_of ip; match o with XV6FS => xv6fs_iput ip | EXT2FS => ext2fs_iput ip end.

Definition xv6fs_iunlockput (ip : nat) : M (fsst D) unit := iunlock ip ;; iput ip.
Definition ext2fs_iunlockput (ip : nat) : M (fsst D) unit := iunlock ip ;; iput ip.
Definition iunlockput (ip : nat) : M (fsst D) unit :=
  o ← ops_of ip; match o with XV6FS => xv6fs_iunlockput ip | EXT2FS => ext2fs_iunlockput ip end.

(** ** Writing *)

(** The checks and the end of the two [writei], around their copy loops. *)
Definition writei_with (limit : Z) (loop : nat -> nat -> list Z -> Z -> Z -> M (fsst D) Z)
    (ip : nat) (src : list Z) (off n : Z) : M (fsst D) Z :=
  x ← inode_at ip;
  if i_type x =? T_DEV then
    if (i_major x <? 0) || (NDEV <=? i_major x) then mret (-1)
    else match devsw_write (i_major x) with
         | None => mret (-1)
         | Some write => write ip src (s32 n)
         end
  else if (i_size x <? off) || (u32 (off + n) <? off) then mret (-1)
  else if u32 limit <? off + n then mret (-1)
  else if Z.of_nat (length src) <? n then fault
  else
    off ← loop (rounds n) ip src off n;
    x ← inode_at ip;
    guard_ok ((0 <? n) && (i_size x <? off)) (
      inode_upd ip (with_isize off) ;;
      iupdate ip) ;;
    mret (s32 n).

Definition xv6fs_writei : nat -> list Z -> Z -> Z -> M (fsst D) Z :=
  writei_with (MAXFILE * BSIZE) xv6fs_write_loop.
Definition ext2fs_writei : nat -> list Z -> Z -> Z -> M (fsst D) Z :=
  writei_with (EXT2_MAXFILE * EXT2_BSIZE) ext2fs_write_loop.
Definition writei (ip : nat) (src : list Z) (off n : Z) : M (fsst D) Z :=
  o ← ops_of ip; match o with XV6FS => xv6fs_writei ip src off n | EXT2FS => ext2fs_writei ip src off n end.

(** ** Directories *)

(** [namecmp(s, t) == 0]. *)
Definition namecmp (s t : list Z) : M (fsst D) Z := deref (strncmp s t DIRSIZ).

Definition xv6fs_dirlookup (dp : nat) (name : list Z) : M (fsst D) (option (nat * Z)) :=
  x ← inode_at dp;
  guard_ok (negb (i_type x =? T_DIR)) (panic "dirlookup not DIR") ;;
  for_each (range 0 ((i_size x + SIZEOF_DIRENT - 1) / SIZEOF_DIRENT)) (fun k =>
    let off := k * SIZEOF_DIRENT in
    r ← readi dp off SIZEOF_DIRENT;
    guard_ok (negb (r.1 =? SIZEOF_DIRENT)) (panic "dirlookup read") ;;
    let de := r.2 in
    if de_inum de =? 0 then mret None
    else
      c ← namecmp name (de_name de);
      if c =? 0 then
        ip ← iget (i_dev x) (de_inum de);
        mret (Some (ip, off))
      else mret None).

(** [ext2fs_dirlookup] steps by the record length it has read. *)
Fixpoint ext2fs_dirlookup_loop (fuel : nat) (dp : nat) (name : list Z) (off : Z)
    : M (fsst D) (option (nat * Z)) :=
  match fuel with
  | O => nofuel
  | S fuel =>
      x ← inode_at dp;
      if i_size x <=? off then mret None
      else
        r ← readi dp off SIZEOF_EXT2_DE;
        guard_ok (negb (r.1 =? SIZEOF_EXT2_DE)) (panic "ext2fs_dirlookup: read error") ;;
        let de := r.2 in
        let next := ext2fs_dirlookup_loop fuel dp name (u32 (off + e_rec_len de)) in
        if e_inode de =? 0 then next
        else
          fname ← deref (strncpy (e_name de) (Z.to_nat (e_name_len de)));
          c ← deref (strncmp name (fname ++ [NUL]) EXT2_NAME_LEN);
          if c =? 0 then
            ip ← iget (i_dev x) (e_inode de);
            mret (Some (ip, off))
          else next
  end.

(** Records are at least one byte long in a directory that this loop leaves. *)
Definition ext2fs_dirlookup (dp : nat) (name : list Z) : M (fsst D) (option (nat * Z)) :=
  x ← inode_at dp; ext2fs_dirlookup_loop (S (Z.to_nat (i_size x))) dp name 0.

Definition dirlookup (dp : nat) (name : list Z) : M (fsst D) (option (nat * Z)) :=
  o ← ops_of dp; match o with XV6FS => xv6fs_dirlookup dp name | EXT2FS => ext2fs_dirlookup dp name end.

Definition xv6fs_dirlink (dp : nat) (name : list Z) (inum : Z) : M (fsst D) Z :=
  r ← dirlookup dp name;
  match r with
  | Some (ip, _) => iput ip ;; mret (-1)
  | None =>
      x ← inode_at dp;
      let n := (i_size x + SIZEOF_DIRENT - 1) / SIZEOF_DIRENT in
      found ← for_each (range 0 n) (fun k =>
        r ← readi dp (k * SIZEOF_DIRENT) SIZEOF_DIRENT;
        guard_ok (negb (r.1 =? SIZEOF_DIRENT)) (panic "dirlink read") ;;
        mret (if de_inum r.2 =? 0 then Some (k * SIZEOF_DIRENT) else None));
      let off := default (Z.max 0 n * SIZEOF_DIRENT) found in
      nm ← deref (strncpy name DIRSIZ);
      w ← writei dp (dirent (u16 inum) nm) off SIZEOF_DIRENT;
      guard_ok (negb (w =? SIZEOF_DIRENT)) (panic "dirlink") ;;
      mret 0
  end.

(** [ext2fs_dirlink]. [junk] is the 264 bytes of the uninitialised [de], [beyond]
    the 760 bytes of the stack after it, which [writei] reads too. The loop gives
    the last entry read and the offset at which it stopped. *)
Definition ext2fs_dirlink (junk beyond : list Z) (dp : nat) (name : list Z) (inum : Z) : M (fsst D) Z :=
  r ← dirlookup dp name;
  match r with
  | Some (ip, _) => iput ip ;; mret (-1)
  | None =>
      x ← inode_at dp;
      let n := (i_size x + SIZEOF_EXT2_DE - 1) / SIZEOF_EXT2_DE in
      st ← (fix loop (ks : list Z) (de : list Z) : M (fsst D) (list Z * Z) :=
              match ks with
              | [] => mret (de, Z.max 0 n * SIZEOF_EXT2_DE)
              | k :: ks =>
                  r ← readi dp (k * SIZEOF_EXT2_DE) SIZEOF_EXT2_DE;
                  guard_ok (negb (r.1 =? SIZEOF_EXT2_DE)) (panic "ext2fs_dirlink read") ;;
                  if e_inode r.2 =? 0 then mret (r.2, k * SIZEOF_EXT2_DE) else loop ks r.2
              end) (range 0 n) junk;
      let '(de, off) := st in
      nm ← deref (strncpy name (Z.to_nat (e_name_len de)));
      len ← deref (strlen name);
      let de := splice 8 nm de in
      let de := put_le 1 6 len (put_le 2 4 EXT2_BSIZE (put_le 4 0 inum de)) in
      inode_upd dp (with_isize (u32 (off + EXT2_BSIZE))) ;;
      iupdate dp ;;
      _ ← writei dp (de ++ beyond) off EXT2_BSIZE;
      mret 0
  end.

Definition dirlink (junk beyond : list Z) (dp : nat) (name : list Z) (inum : Z) : M (fsst D) Z :=
  o ← ops_of dp;
  match o with
  | XV6FS => xv6fs_dirlink dp name inum
  | EXT2FS => ext2fs_dirlink junk beyond dp name inum
  end.

(** ** Looking up a path *)

(** [strncmp(path, "/mnt", 4) == 0]. *)
Definition mnt : list Z := [47; 109; 110; 116].

(** The loop of [namex]; [path] gets shorter at every round. The answer is the
    inode, or null, and the caller's buffer [name]. *)
Fixpoint namex_loop (fuel : nat) (ip : nat) (path : list Z) (nameiparent : bool) (name : list Z)
    : M (fsst D) (option nat * list Z) :=
  match fuel with
  | O => nofuel
  | S fuel =>
      x ← inode_at ip;
      e ← deref (skipelem path name (i_dev x));
      match e with
      | None =>
          if nameiparent then iput ip ;; mret (None, name) else mret (Some ip, name)
      | Some (path, name) =>
          ilock ip ;;
          x ← inode_at ip;
          if negb (i_type x =? T_DIR) then iunlockput ip ;; mret (None, name)
          else if nameiparent && bool_decide (path = []) then iunlock ip ;; mret (Some ip, name)
          else
            next ← dirlookup ip name;
            match next with
            | None => iunlockput ip ;; mret (None, name)
            | Some (next, _) => iunlockput ip ;; namex_loop fuel next path nameiparent name
            end
      end
  end.

(** [cwd] is [myproc()->cwd]. *)
Definition namex (cwd : nat) (path : list Z) (nameiparent : bool) (name : list Z)
    : M (fsst D) (option nat * list Z) :=
  c ← deref (strncmp (path ++ [NUL]) (mnt ++ [NUL]) 4);
  st ← (if c =? 0 then ip ← iget EXT2DEV EXT2INO; mret (ip, drop 4 path)
        else match path with
             | 47 :: _ => ip ← iget ROOTDEV ROOTINO; mret (ip, path)
             | _ => ip ← idup cwd; mret (ip, path)
             end);
  namex_loop (S (length path)) (st.1) (st.2) nameiparent name.

(** [namei] has a buffer of EXT2_NAME_LEN bytes on its stack, [junk] at first. *)
Definition namei (cwd : nat) (junk : list Z) (path : list Z) : M (fsst D) (option nat) :=
  r ← namex cwd path false junk; mret r.1.
Definition nameiparent (cwd : nat) (path name : list Z) : M (fsst D) (option nat * list Z) :=
  namex cwd path true name.
End Vfs.
