(* ===== verification/Kernel.v ===== *)
(** The state of the kernel above the file system and memory: processes, open
    files and pipes, with the globals of proc.c, file.c and trap.c.

    A [struct proc *] is an index into [ptable.proc], a [struct file *] one into
    [ftable.file]; a pipe is named by the address of its page. *)

From S2P Require Import Prelude Bytes Buf Log Inode Kalloc Vm Pipe.

Definition NPROC : nat := 64.
Definition NOFILE : nat := 16.
Definition NFILE : nat := 100.
Definition KSTACKSIZE : Z := 4096.
Definition MAXARG : Z := 32.

Inductive procstate := UNUSED | EMBRYO | SLEEPING | RUNNABLE | RUNNING | ZOMBIE.
#[export] Instance procstate_dec : EqDecision procstate.
Proof. solve_decision. Defined.

(** What a process may sleep on: the address of a process, of [ticks], of the
    counters of a pipe, of a buffer, of the log, of a sleep lock, of the console's
    input. *)
Inductive channel :=
  | ChProc (p : nat) | ChTicks | ChNread (p : Z) | ChNwrite (p : Z) | ChBuf (b : nat) | ChLog
  | ChInodeLock (ip : nat) | ChInput.
#[export] Instance channel_dec : EqDecision channel.
Proof. solve_decision. Defined.

(** [struct trapframe] without its padding. *)
Record trapframe := Trapframe {
  tf_edi : Z; tf_esi : Z; tf_ebp : Z; tf_oesp : Z; tf_ebx : Z; tf_edx : Z; tf_ecx : Z; tf_eax : Z;
  tf_gs : Z; tf_fs : Z; tf_es : Z; tf_ds : Z; tf_trapno : Z;
  tf_err : Z; tf_eip : Z; tf_cs : Z; tf_eflags : Z; tf_esp : Z; tf_ss : Z;
}.
Definition tf_zero : trapframe := Trapframe 0 0 0 0 0 0 0 0 0 0 0 0 0 0 0 0 0 0 0.
Definition with_eax v t := Trapframe (tf_edi t) (tf_esi t) (tf_ebp t) (tf_oesp t) (tf_ebx t) (tf_edx t) (tf_ecx t) v
  (tf_gs t) (tf_fs t) (tf_es t) (tf_ds t) (tf_trapno t) (tf_err t) (tf_eip t) (tf_cs t) (tf_eflags t) (tf_esp t) (tf_ss t).
Definition with_entry eip esp t := Trapframe (tf_edi t) (tf_esi t) (tf_ebp t) (tf_oesp t) (tf_ebx t) (tf_edx t) (tf_ecx t)
  (tf_eax t) (tf_gs t) (tf_fs t) (tf_es t) (tf_ds t) (tf_trapno t) (tf_err t) eip (tf_cs t) (tf_eflags t) esp (tf_ss t).

(** [struct proc]; the saved kernel context is on the stack, in Asm.v. *)
Record proc := Proc {
  p_sz : Z; p_pgdir : Z; p_kstack : Z; p_state : procstate; p_pid : Z; p_parent : option nat;
  p_tf : trapframe; p_chan : option channel; p_killed : Z; p_ofile : list (option nat); p_cwd : option nat;
  p_name : list Z;
}.
Definition proc_bss : proc := Proc 0 0 0 UNUSED 0 None tf_zero None 0 (replicate NOFILE None) None (replicate 16 0).

Definition with_sz v p := Proc v (p_pgdir p) (p_kstack p) (p_state p) (p_pid p) (p_parent p) (p_tf p) (p_chan p)
  (p_killed p) (p_ofile p) (p_cwd p) (p_name p).
Definition with_pgdir v p := Proc (p_sz p) v (p_kstack p) (p_state p) (p_pid p) (p_parent p) (p_tf p) (p_chan p)
  (p_killed p) (p_ofile p) (p_cwd p) (p_name p).
Definition with_kstack v p := Proc (p_sz p) (p_pgdir p) v (p_state p) (p_pid p) (p_parent p) (p_tf p) (p_chan p)
  (p_killed p) (p_ofile p) (p_cwd p) (p_name p).
Definition with_state v p := Proc (p_sz p) (p_pgdir p) (p_kstack p) v (p_pid p) (p_parent p) (p_tf p) (p_chan p)
  (p_killed p) (p_ofile p) (p_cwd p) (p_name p).
Definition with_pid v p := Proc (p_sz p) (p_pgdir p) (p_kstack p) (p_state p) v (p_parent p) (p_tf p) (p_chan p)
  (p_killed p) (p_ofile p) (p_cwd p) (p_name p).
Definition with_parent v p := Proc (p_sz p) (p_pgdir p) (p_kstack p) (p_state p) (p_pid p) v (p_tf p) (p_chan p)
  (p_killed p) (p_ofile p) (p_cwd p) (p_name p).
Definition with_tf v p := Proc (p_sz p) (p_pgdir p) (p_kstack p) (p_state p) (p_pid p) (p_parent p) v (p_chan p)
  (p_killed p) (p_ofile p) (p_cwd p) (p_name p).
Definition with_chan v p := Proc (p_sz p) (p_pgdir p) (p_kstack p) (p_state p) (p_pid p) (p_parent p) (p_tf p) v
  (p_killed p) (p_ofile p) (p_cwd p) (p_name p).
Definition with_killed v p := Proc (p_sz p) (p_pgdir p) (p_kstack p) (p_state p) (p_pid p) (p_parent p) (p_tf p) (p_chan p)
  v (p_ofile p) (p_cwd p) (p_name p).
Definition with_ofile v p := Proc (p_sz p) (p_pgdir p) (p_kstack p) (p_state p) (p_pid p) (p_parent p) (p_tf p) (p_chan p)
  (p_killed p) v (p_cwd p) (p_name p).
Definition with_cwd v p := Proc (p_sz p) (p_pgdir p) (p_kstack p) (p_state p) (p_pid p) (p_parent p) (p_tf p) (p_chan p)
  (p_killed p) (p_ofile p) v (p_name p).
Definition with_name v p := Proc (p_sz p) (p_pgdir p) (p_kstack p) (p_state p) (p_pid p) (p_parent p) (p_tf p) (p_chan p)
  (p_killed p) (p_ofile p) (p_cwd p) v.

(** [struct file]. *)
Inductive ftype := FD_NONE | FD_PIPE | FD_INODE.
#[export] Instance ftype_dec : EqDecision ftype.
Proof. solve_decision. Defined.
Record file := File {
  f_type : ftype; f_ref : Z; f_readable : Z; f_writable : Z; f_pipe : Z; f_ip : option nat; f_off : Z;
}.
Definition file_bss : file := File FD_NONE 0 0 0 0 None 0.
Definition with_fref v f := File (f_type f) v (f_readable f) (f_writable f) (f_pipe f) (f_ip f) (f_off f).
Definition with_ftype v f := File v (f_ref f) (f_readable f) (f_writable f) (f_pipe f) (f_ip f) (f_off f).
Definition with_off v f := File (f_type f) (f_ref f) (f_readable f) (f_writable f) (f_pipe f) (f_ip f) v.

(** The kernel: file system, memory, [ftable], the pipes, [ptable], the index of
    [myproc()], [nextpid], [initproc] and [ticks]. *)
Record kern (D : Type) := Kern {
  k_fs : fsst D; k_vm : vmst; k_files : list file; k_pipes : gmap Z pipe; k_procs : list proc;
  k_cur : nat; k_nextpid : Z; k_initproc : option nat; k_ticks : Z;
}.
Arguments Kern {D}. Arguments k_fs {D}. Arguments k_vm {D}. Arguments k_files {D}. Arguments k_pipes {D}.
Arguments k_procs {D}. Arguments k_cur {D}. Arguments k_nextpid {D}. Arguments k_initproc {D}. Arguments k_ticks {D}.

Section Kernel.
Context {D : Type}.
Implicit Types s : kern D.

Definition set_fs (v : fsst D) s : kern D := Kern v (k_vm s) (k_files s) (k_pipes s) (k_procs s) (k_cur s) (k_nextpid s) (k_initproc s) (k_ticks s).
Definition set_vm v s := Kern (k_fs s) v (k_files s) (k_pipes s) (k_procs s) (k_cur s) (k_nextpid s) (k_initproc s) (k_ticks s).
Definition set_files v s := Kern (k_fs s) (k_vm s) v (k_pipes s) (k_procs s) (k_cur s) (k_nextpid s) (k_initproc s) (k_ticks s).
Definition set_pipes v s := Kern (k_fs s) (k_vm s) (k_files s) v (k_procs s) (k_cur s) (k_nextpid s) (k_initproc s) (k_ticks s).
Definition set_procs v s := Kern (k_fs s) (k_vm s) (k_files s) (k_pipes s) v (k_cur s) (k_nextpid s) (k_initproc s) (k_ticks s).
Definition set_cur v s := Kern (k_fs s) (k_vm s) (k_files s) (k_pipes s) (k_procs s) v (k_nextpid s) (k_initproc s) (k_ticks s).
Definition set_nextpid v s := Kern (k_fs s) (k_vm s) (k_files s) (k_pipes s) (k_procs s) (k_cur s) v (k_initproc s) (k_ticks s).
Definition set_initproc v s := Kern (k_fs s) (k_vm s) (k_files s) (k_pipes s) (k_procs s) (k_cur s) (k_nextpid s) v (k_ticks s).
Definition set_ticks v s := Kern (k_fs s) (k_vm s) (k_files s) (k_pipes s) (k_procs s) (k_cur s) (k_nextpid s) (k_initproc s) v.

(** Calls into memory management. *)
Definition vm {A} (m : M vmst A) : M (kern D) A := zoom k_vm set_vm m.

Definition proc_at (i : nat) : M (kern D) proc := fun s => deref (k_procs s !! i) s.
Definition proc_upd (i : nat) (f : proc -> proc) : M (kern D) unit :=
  p ← proc_at i; modify (fun s => set_procs (<[i := f p]> (k_procs s)) s).
Definition myproc : M (kern D) proc := i ← gets k_cur; proc_at i.

(** Calls into the file system, whose sleep locks record [myproc()->pid]. *)
Definition with_me (pid : Z) (s : fsst D) : fsst D :=
  let l := fs_log s in let b := lg_bio l in set_log (set_bio (BState (bufs b) (disk b) pid) l) s.
Definition fs {A} (m : M (fsst D) A) : M (kern D) A :=
  p ← myproc; zoom k_fs set_fs (modify (with_me (p_pid p)) ;; m).

Definition my_upd (f : proc -> proc) : M (kern D) unit := i ← gets k_cur; proc_upd i f.

Definition file_at (i : nat) : M (kern D) file := fun s => deref (k_files s !! i) s.
Definition file_upd (i : nat) (f : file -> file) : M (kern D) unit :=
  x ← file_at i; modify (fun s => set_files (<[i := f x]> (k_files s)) s).
Definition pipe_at (p : Z) : M (kern D) pipe := fun s => deref (k_pipes s !! p) s.
Definition pipe_set (p : Z) (v : pipe) : M (kern D) unit := modify (fun s => set_pipes (<[p := v]> (k_pipes s)) s).
End Kernel.

(** ** User memory, as the processor translates addresses

    A kernel access to an address that is not mapped traps, and [trap] panics. *)
Definition translate (pgdir va : Z) : M vmst Z :=
  pde ← pte_at (pgdir, PDX va);
  if negb (has PTE_P pde) then panic "trap"
  else
    pte ← pte_at (P2V (PTE_ADDR pde), PTX va);
    if negb (has PTE_P pte) then panic "trap" else mret (P2V (PTE_ADDR pte)).
Definition uload1 (pgdir va : Z) : M vmst Z :=
  p ← translate pgdir va; l ← page_at p; mret (rd l (va mod PGSIZE)).
Definition ustore1 (pgdir va c : Z) : M vmst unit :=
  p ← translate pgdir va; page_upd p (<[Z.to_nat (va mod PGSIZE) := u8 c]>).
Fixpoint uload (pgdir va : Z) (n : nat) : M vmst (list Z) :=
  match n with
  | O => mret []
  | S n => c ← uload1 pgdir va; l ← uload pgdir (u32 (va + 1)) n; mret (c :: l)
  end.
Fixpoint ustore (pgdir va : Z) (l : list Z) : M vmst unit :=
  match l with
  | [] => mret tt
  | c :: l => ustore1 pgdir va c ;; ustore pgdir (u32 (va + 1)) l
  end.
