(* ===== verification/Sched.v ===== *)
(** The process table (proc.c): sleeping and waking up, kill, the scheduler, and
    the allocation of a process.

    Sections under [ptable.lock] are single steps. [sched] and [swtch] hand the
    processor to the scheduler: the process side ends in the state that [sched]
    finds, and goes on when the scheduler picks the process again. *)

From S2P Require Import Prelude Bytes Buf Log Inode Kalloc Vm Pipe Kernel.

(** [wakeup1(chan)] on the table. *)
Definition wakeup1 (chan : option channel) (ps : list proc) : list proc :=
  (fun p => if bool_decide (p_state p = SLEEPING) && bool_decide (p_chan p = chan)
            then with_state RUNNABLE p else p) <$> ps.

(** The first process that [scheduler] finds from position [i] of the table on. *)
Definition runnable (p : proc) : Prop := p_state p = RUNNABLE.
#[export] Instance runnable_dec p : Decision (runnable p).
Proof. unfold runnable. apply _. Defined.
Definition free_proc (p : proc) : Prop := p_state p = UNUSED.
#[export] Instance free_proc_dec p : Decision (free_proc p).
Proof. unfold free_proc. apply _. Defined.
Definition has_pid (pid : Z) (p : proc) : Prop := p_pid p = pid.
#[export] Instance has_pid_dec pid p : Decision (has_pid pid p).
Proof. unfold has_pid. apply _. Defined.

Definition first_runnable (i : nat) (ps : list proc) : option nat :=
  (fun x => (i + fst x)%nat) <$> list_find runnable (drop i ps).

(** The registers in the last 76 bytes of a kernel stack. *)
Definition tf_decode (l : list Z) : trapframe :=
  let w i := get_le 4 (4 * i) l in let h i := get_le 2 (4 * i) l in
  Trapframe (w 0%nat) (w 1%nat) (w 2%nat) (w 3%nat) (w 4%nat) (w 5%nat) (w 6%nat) (w 7%nat)
    (h 8%nat) (h 9%nat) (h 10%nat) (h 11%nat) (w 12%nat)
    (w 13%nat) (w 14%nat) (h 15%nat) (w 16%nat) (w 17%nat) (h 18%nat).

Section Sched.
Context {D : Type}.
Implicit Types s : kern D.

Definition wakeup (chan : channel) : M (kern D) unit :=
  modify (fun s => set_procs (wakeup1 (Some chan) (k_procs s)) s).

(** [kill]: the first process with this pid, whatever its state. *)
Definition kill (pid : Z) : M (kern D) Z :=
  ps ← gets k_procs;
  match list_find (has_pid pid) ps with
  | Some (i, p) =>
      proc_upd i (with_killed 1) ;;
      guard_ok (bool_decide (p_state p = SLEEPING)) (proc_upd i (with_state RUNNABLE)) ;;
      mret 0
  | None => mret (-1)
  end.

(** [sleep], up to [sched] and after it; and [yield] up to [sched]. *)
Definition sleep_enter (chan : channel) : M (kern D) unit :=
  my_upd (fun p => with_state SLEEPING (with_chan (Some chan) p)).
Definition sleep_leave : M (kern D) unit := my_upd (with_chan None).
Definition yield_enter : M (kern D) unit := my_upd (with_state RUNNABLE).

(** The body of the loop of [scheduler], up to [swtch]: the process picked from
    position [i] on, which now runs. [None] is the end of this pass. *)
Definition scheduler_pick (i : nat) : M (kern D) (option nat) :=
  ps ← gets k_procs;
  match first_runnable i ps with
  | None => mret None
  | Some j =>
      modify (set_cur j) ;;
      proc_upd j (with_state RUNNING) ;;
      mret (Some j)
  end.

(** [allocproc]. The new stack also gets a context that starts in [forkret]. *)
Definition allocproc : M (kern D) (option nat) :=
  ps ← gets k_procs;
  match list_find free_proc ps with
  | None => mret None
  | Some (i, _) =>
      proc_upd i (with_state EMBRYO) ;;
      pid ← gets k_nextpid;
      modify (set_nextpid (s32 (pid + 1))) ;;
      proc_upd i (with_pid pid) ;;
      kstack ← vm kalloc;
      proc_upd i (with_kstack kstack) ;;
      if kstack =? 0 then proc_upd i (with_state UNUSED) ;; mret None
      else
        page ← vm (page_at kstack);
        proc_upd i (with_tf (tf_decode (drop (Z.to_nat (KSTACKSIZE - 76)) page))) ;;
        mret (Some i)
  end.
End Sched.
