(* ===== verification/PipeSleep.v ===== *)
(** Sleeping and waking up around a pipe: processes inside [pipewrite], [piperead] and [pipeclose]
    (pipe.c) with [sleep], [wakeup] and [kill] (proc.c), interleaved at every
    acquire and release of [p->lock] and [ptable.lock].

    Between two such points the code works on data that the lock it holds protects, and runs in one piece. *)

From S2P Require Import Prelude Bytes Buf Log Inode Kalloc Vm Pipe Kernel Sched.

Inductive pcall := CWrite (bs : list Z) | CRead (n : Z).

(** Where a process is. In a call: about to acquire [p->lock]; holding it at the head of the loop; in [wakeup]
    before and after it has [ptable.lock], with the bytes that a writer goes to sleep with; in [sleep] about
    to acquire [ptable.lock], about to release [p->lock], about to go to sleep; switched out; running again
    with [ptable.lock]; about to release [p->lock] and return. *)
Inductive ppc :=
  | Out | Want (c : pcall) | Inside (c : pcall) | Wake (ch : channel) (rest : option (list Z)) | Waking (ch : channel) (rest : option (list Z))
  | ToSleep (c : pcall) | Handover (c : pcall) | Parking (c : pcall) | Parked (c : pcall) | Resumed (c : pcall) | Leaving.

(** The pipe, the processes that hold [p->lock] and [ptable.lock], the table, and where each process is. *)
Record psys := Psys { ps_pipe : pipe; ps_lk : option nat; ps_pt : option nat; ps_procs : list proc; ps_pc : list ppc }.

Definition set_pipe v s := Psys v (ps_lk s) (ps_pt s) (ps_procs s) (ps_pc s).
Definition set_lk v s := Psys (ps_pipe s) v (ps_pt s) (ps_procs s) (ps_pc s).
Definition set_pt v s := Psys (ps_pipe s) (ps_lk s) v (ps_procs s) (ps_pc s).
Definition set_pprocs v s := Psys (ps_pipe s) (ps_lk s) (ps_pt s) v (ps_pc s).
Definition set_pc i v s := Psys (ps_pipe s) (ps_lk s) (ps_pt s) (ps_procs s) (<[i := v]> (ps_pc s)).

Section PipeSleep.
Context (a : Z). (* the address of the pipe *)

Definition chan_of (c : pcall) : channel := match c with CWrite _ => ChNwrite a | CRead _ => ChNread a end.

(** What a process does inside the loop of its call. *)
Definition inside (i : nat) (killed : bool) (c : pcall) (s : psys) : psys :=
  match c with
  | CWrite bs =>
      let '(r, p) := pipewrite_run killed bs (ps_pipe s) in
      set_pc i (match r with Ret true => Wake (ChNread a) None | Ret false => Leaving | Sleep rest => Wake (ChNread a) (Some rest) end) (set_pipe p s)
  | CRead n =>
      let '(r, p) := piperead_run killed n (ps_pipe s) in
      set_pc i (match r with Ret (Some _) => Wake (ChNwrite a) None | Ret None => Leaving | Sleep _ => ToSleep c end) (set_pipe p s)
  end.

(** The next step of process [i]; [None] if it waits for a lock, is not runnable, or is in no call. *)
Definition pnext (i : nat) (s : psys) : option psys :=
  pc ← ps_pc s !! i;
  pr ← ps_procs s !! i;
  match pc with
  | Out => None
  | Want c => match ps_lk s with None => Some (set_pc i (Inside c) (set_lk (Some i) s)) | Some _ => None end
  | Inside c => Some (inside i (negb (p_killed pr =? 0)) c s)
  | Wake ch r => match ps_pt s with None => Some (set_pc i (Waking ch r) (set_pt (Some i) s)) | Some _ => None end
  | Waking ch r =>
      Some (set_pc i (match r with Some bs => ToSleep (CWrite bs) | None => Leaving end)
        (set_pt None (set_pprocs (wakeup1 (Some ch) (ps_procs s)) s)))
  | ToSleep c => match ps_pt s with None => Some (set_pc i (Handover c) (set_pt (Some i) s)) | Some _ => None end
  | Handover c => Some (set_pc i (Parking c) (set_lk None s))
  | Parking c =>                       (* sched() and the scheduler, which releases ptable.lock *)
      Some (set_pc i (Parked c) (set_pt None (set_pprocs (<[i := with_state SLEEPING (with_chan (Some (chan_of c)) pr)]> (ps_procs s)) s)))
  | Parked c =>                        (* the scheduler picks the process *)
      if bool_decide (p_state pr = RUNNABLE) then
        match ps_pt s with
        | None => Some (set_pc i (Resumed c) (set_pt (Some i) (set_pprocs (<[i := with_state RUNNING pr]> (ps_procs s)) s)))
        | Some _ => None
        end
      else None
  | Resumed c => Some (set_pc i (Want c) (set_pt None (set_pprocs (<[i := with_chan None pr]> (ps_procs s)) s)))
  | Leaving => Some (set_pc i Out (set_lk None s))
  end.

(** The call that a process is in. *)
Definition call_of (pc : ppc) : option pcall :=
  match pc with
  | Want c | Inside c | ToSleep c | Handover c | Parking c | Parked c | Resumed c => Some c
  | Wake _ (Some bs) | Waking _ (Some bs) => Some (CWrite bs)
  | _ => None
  end.
Definition reading (pc : ppc) : Prop := exists n, call_of pc = Some (CRead n).
Definition writing (pc : ppc) : Prop := exists bs, call_of pc = Some (CWrite bs).

(** Processes call [piperead] and [pipewrite] through an open end, and the end of the pipe is closed with the last
    file that refers to it, when no call through it is in progress; [pm_close] is [pipeclose] up to its wakeup.
    [kill] is one step under [ptable.lock]. *)
Inductive pmove (kills : bool) : psys -> psys -> Prop :=
  | pm_next i s s' : pnext i s = Some s' -> pmove kills s s'
  | pm_read i n s : ps_pc s !! i = Some Out -> readopen (ps_pipe s) <> 0 -> pmove kills s (set_pc i (Want (CRead n)) s)
  | pm_write i bs s : ps_pc s !! i = Some Out -> writeopen (ps_pipe s) <> 0 -> pmove kills s (set_pc i (Want (CWrite bs)) s)
  | pm_close i (w : bool) s : ps_pc s !! i = Some Out -> ps_lk s = None ->
      (forall j pc, ps_pc s !! j = Some pc -> ~ (if w then writing pc else reading pc)) ->
      pmove kills s (set_pc i (Wake (if w then ChNread a else ChNwrite a) None) (set_lk (Some i) (set_pipe (pipeclose (ps_pipe s) w) s)))
  | pm_kill i pr s : kills = true -> ps_pt s = None -> ps_procs s !! i = Some pr ->
      pmove kills s (set_pprocs (<[i := (if bool_decide (p_state pr = SLEEPING) then with_state RUNNABLE else id) (with_killed 1 pr)]> (ps_procs s)) s).

Definition running_proc : proc := with_state RUNNING proc_bss.
Definition pboot (junk : list Z) (n : nat) : psys := Psys (new_pipe junk) None None (replicate n running_proc) (replicate n Out).

(** ** Invariant *)

Definition holds_lk (pc : ppc) : bool :=
  match pc with Inside _ | Wake _ _ | Waking _ _ | ToSleep _ | Handover _ | Leaving => true | _ => false end.
Definition holds_pt (pc : ppc) : bool :=
  match pc with Waking _ _ | Handover _ | Parking _ | Resumed _ => true | _ => false end.

(** The call for which a process is asleep, or bound to go to sleep before it looks at the pipe again. *)
Definition asleep_for (pc : ppc) (pr : proc) : option pcall :=
  match pc with
  | ToSleep c | Handover c | Parking c => Some c
  | Wake _ (Some bs) | Waking _ (Some bs) => Some (CWrite bs)
  | Parked c => if bool_decide (p_state pr = SLEEPING) then Some c else None
  | _ => None
  end.
Definition waits (s : psys) (i : nat) (c : pcall) : Prop :=
  exists pc pr, ps_pc s !! i = Some pc /\ ps_procs s !! i = Some pr /\ asleep_for pc pr = Some c.

(** Somebody is on the way to wake up the channel. *)
Definition waking (ch : channel) (pc : ppc) : Prop := exists r, pc = Wake ch r \/ pc = Waking ch r.
Definition due (ch : channel) (s : psys) : Prop := exists j pc, ps_pc s !! j = Some pc /\ waking ch pc.

(** What a call waits for has not happened. *)
Definition blocked (c : pcall) (p : pipe) : Prop :=
  match c with
  | CRead _ => empty p = true /\ writeopen p <> 0
  | CWrite _ => full p = true /\ readopen p <> 0
  end.

Definition pc_ok (pc : ppc) : Prop :=
  match pc with
  | Wake ch (Some _) | Waking ch (Some _) => ch = ChNread a
  | _ => True
  end.
Definition proc_ok (pc : ppc) (pr : proc) : Prop :=
  p_killed pr = 0 /\
  match pc with
  | Parked c => p_state pr = SLEEPING /\ p_chan pr = Some (chan_of c) \/ p_state pr = RUNNABLE
  | _ => p_state pr = RUNNING
  end.

Definition held_by (holds : ppc -> bool) (o : option nat) (pcs : list ppc) : Prop :=
  (forall j pc, pcs !! j = Some pc -> o = Some j <-> holds pc = true) /\ (forall j, o = Some j -> (j < length pcs)%nat).

Record sinv (s : psys) : Prop := {
  si_lk : held_by holds_lk (ps_lk s) (ps_pc s);
  si_pt : held_by holds_pt (ps_pt s) (ps_pc s);
  si_len : length (ps_procs s) = length (ps_pc s);
  si_pc : Forall pc_ok (ps_pc s);
  si_proc i pc pr : ps_pc s !! i = Some pc -> ps_procs s !! i = Some pr -> proc_ok pc pr;
  si_pipe : pipe_ok (ps_pipe s);
  si_read0 : readopen (ps_pipe s) = 0 -> Forall (fun pc => ~ reading pc) (ps_pc s);
  si_write0 : writeopen (ps_pipe s) = 0 -> Forall (fun pc => ~ writing pc) (ps_pc s);
  si_wait i c : waits s i c -> blocked c (ps_pipe s) \/ due (chan_of c) s;
}.

(** A lock is taken, released or left alone. *)
Lemma held_upd holds o o' pcs i pc v :
  held_by holds o pcs -> pcs !! i = Some pc ->
  (o' = o /\ holds v = holds pc) \/ (o = None /\ o' = Some i /\ holds v = true) \/ (o = Some i /\ o' = None /\ holds v = false) ->
  held_by holds o' (<[i := v]> pcs).
Proof.
  intros [Hh Hlt] Hi Hcase. split; [|intros j Hj; rewrite length_insert; destruct Hcase as [[-> _]|[(_ & -> & _)|(_ & -> & _)]];
    [by apply Hlt|injection Hj as <-; by eapply lookup_lt_Some|done]].
  intros j w [(<- & <- & _)|[Hne Hw]]%list_lookup_insert_Some.
  - destruct Hcase as [[-> ->]|[(_ & -> & ->)|(_ & -> & ->)]]; [by apply Hh|done|done].
  - destruct Hcase as [[-> _]|[(-> & -> & _)|(-> & -> & _)]]; [by apply Hh| |].
    + rewrite <- (Hh j w Hw). split; [intros [= ?]; lia|done].
    + rewrite <- (Hh j w Hw). split; [done|intros [= ?]; lia].
Qed.

(** The holder of a lock is unique. *)
Lemma held_unique holds o pcs i pc j pc' :
  held_by holds o pcs -> pcs !! i = Some pc -> holds pc = true -> pcs !! j = Some pc' -> holds pc' = true -> i = j.
Proof. intros [Hh _] Hi Hp Hj Hp'. apply (Hh i pc Hi) in Hp. apply (Hh j pc' Hj) in Hp'. congruence. Qed.

Lemma due_keep ch s s' i pc v :
  ps_pc s !! i = Some pc -> ps_pc s' = <[i := v]> (ps_pc s) -> (waking ch pc -> waking ch v) -> due ch s -> due ch s'.
Proof.
  intros Hi Hs' Hk (j & pc' & Hj & Hw). unfold due. rewrite Hs'. destruct (decide (j = i)) as [->|Hne].
  - exists i, v. rewrite list_lookup_insert_eq by (by eapply lookup_lt_Some). split; [done|]. rewrite Hi in Hj. injection Hj as <-. by apply Hk.
  - exists j, pc'. by rewrite list_lookup_insert_ne.
Qed.

(** A step of process [i] that leaves the pipe alone and changes at most its own entry of the table. *)
Lemma sinv_move s i pc v lk' pt' pr pr' :
  let s' := Psys (ps_pipe s) lk' pt' (<[i := pr']> (ps_procs s)) (<[i := v]> (ps_pc s)) in
  sinv s -> ps_pc s !! i = Some pc -> ps_procs s !! i = Some pr ->
  (lk' = ps_lk s /\ holds_lk v = holds_lk pc) \/ (ps_lk s = None /\ lk' = Some i /\ holds_lk v = true) \/ (ps_lk s = Some i /\ lk' = None /\ holds_lk v = false) ->
  (pt' = ps_pt s /\ holds_pt v = holds_pt pc) \/ (ps_pt s = None /\ pt' = Some i /\ holds_pt v = true) \/ (ps_pt s = Some i /\ pt' = None /\ holds_pt v = false) ->
  pc_ok v -> proc_ok v pr' ->
  (readopen (ps_pipe s) = 0 -> ~ reading v) -> (writeopen (ps_pipe s) = 0 -> ~ writing v) ->
  (forall ch, waking ch pc -> waking ch v) -> (forall c, asleep_for v pr' = Some c -> asleep_for pc pr = Some c) ->
  sinv s'.
Proof.
  intros s' [Hlk Hpt Hlen Hpc Hproc Hpipe Hr0 Hw0 Hwait] Hi Hpr Clk Cpt Hv Hvp Hrv Hwv Hwk Has. split; cbn.
  - by eapply held_upd.
  - by eapply held_upd.
  - by rewrite !length_insert.
  - by apply Forall_insert.
  - intros j pc' q [(<- & <- & _)|[Hne Hj]]%list_lookup_insert_Some.
    + rewrite list_lookup_insert_eq by (by eapply lookup_lt_Some). by intros [= <-].
    + rewrite list_lookup_insert_ne by done. by apply Hproc.
  - done.
  - intros H0. apply Forall_insert; [by apply Hr0|by apply Hrv].
  - intros H0. apply Forall_insert; [by apply Hw0|by apply Hwv].
  - intros j c (pc' & q & Hj & Hq & Ha). cbn in *.
    assert (waits s j c) as Hw.
    { destruct (decide (j = i)) as [->|Hne].
      - rewrite list_lookup_insert_eq in Hj by (by eapply lookup_lt_Some). rewrite list_lookup_insert_eq in Hq by (by eapply lookup_lt_Some).
        simplify_eq. exists pc, pr. eauto.
      - rewrite list_lookup_insert_ne in Hj by done. rewrite list_lookup_insert_ne in Hq by done. by exists pc', q. }
    destruct (Hwait j c Hw) as [Hb|Hd]; [by left|]. right. eapply due_keep; [exact Hi|done|apply Hwk|exact Hd].
Qed.

(** Only the holder of [p->lock] can be on the way to a wakeup. *)
Lemma due_holder s i pc ch : held_by holds_lk (ps_lk s) (ps_pc s) -> ps_pc s !! i = Some pc -> holds_lk pc = true -> due ch s -> waking ch pc.
Proof.
  intros Hlk Hi Hh (j & pc' & Hj & Hw). assert (holds_lk pc' = true) as Hh' by (by destruct Hw as [r [-> | ->]]).
  pose proof (held_unique _ _ _ _ _ _ _ Hlk Hi Hh Hj Hh') as ->. congruence.
Qed.

(** A process that waits without [p->lock] and without [ptable.lock] is asleep on its channel. *)
Lemma waits_parked pc pr c : proc_ok pc pr -> asleep_for pc pr = Some c -> holds_lk pc = false -> holds_pt pc = false ->
  pc = Parked c /\ p_state pr = SLEEPING /\ p_chan pr = Some (chan_of c).
Proof.
  intros [_ Hp] Ha Hl Ht. destruct pc; try done. cbn in *. case_bool_decide as Hs; [|done]. injection Ha as ->.
  destruct Hp as [[_ Hc]|Hr]; [done|congruence].
Qed.

(** After the wakeup no other process waits for what the caller has made true. *)
Lemma wake_other s i ch r j c pc' q0 :
  held_by holds_lk (ps_lk s) (ps_pc s) -> held_by holds_pt (ps_pt s) (ps_pc s) -> ps_pc s !! i = Some (Waking ch r) ->
  (forall i c, waits s i c -> blocked c (ps_pipe s) \/ due (chan_of c) s) ->
  (forall i pc pr, ps_pc s !! i = Some pc -> ps_procs s !! i = Some pr -> proc_ok pc pr) ->
  j <> i -> ps_pc s !! j = Some pc' -> ps_procs s !! j = Some q0 ->
  asleep_for pc' (if bool_decide (p_state q0 = SLEEPING) && bool_decide (p_chan q0 = Some ch) then with_state RUNNABLE q0 else q0) = Some c ->
  blocked c (ps_pipe s).
Proof.
  intros Hlk Hpt Hi Hwait Hproc Hne Hj Hq0 Ha. destruct (Hwait j c) as [Hb|Hd]; [|done|].
  { exists pc', q0. split_and!; [done|done|]. destruct pc'; try done. cbn in *.
    destruct (bool_decide (p_state q0 = SLEEPING)) eqn:E1, (bool_decide (p_chan q0 = Some ch)) eqn:E2; cbn [andb] in Ha; rewrite ?E1 in Ha; done. }
  exfalso. apply (due_holder _ _ _ _ Hlk Hi eq_refl) in Hd as [r' [E|E]]; [done|]. injection E as Hch _.
  assert (holds_lk pc' = false) as Hl.
  { destruct (holds_lk pc') eqn:E; [|done]. by destruct Hne, (held_unique _ _ _ _ _ _ _ Hlk Hi eq_refl Hj E). }
  assert (holds_pt pc' = false) as Ht.
  { destruct (holds_pt pc') eqn:E; [|done]. by destruct Hne, (held_unique _ _ _ _ _ _ _ Hpt Hi eq_refl Hj E). }
  pose proof (Hproc j pc' q0 Hj Hq0) as Hok.
  destruct (bool_decide (p_state q0 = SLEEPING) && bool_decide (p_chan q0 = Some ch)) eqn:E.
  - destruct pc'; try done; cbn in *; by rewrite bool_decide_false in Ha.
  - destruct (waits_parked pc' q0 c Hok Ha Hl Ht) as (-> & Hs & Hc). rewrite !bool_decide_true in E by congruence. done.
Qed.

(** The step of the lock holder that wakes up the channel. *)
Lemma sinv_wake s i ch r :
  sinv s -> ps_pc s !! i = Some (Waking ch r) ->
  sinv (set_pc i (match r with Some bs => ToSleep (CWrite bs) | None => Leaving end) (set_pt None (set_pprocs (wakeup1 (Some ch) (ps_procs s)) s))).
Proof.
  intros Hs Hi. destruct Hs as [Hlk Hpt Hlen Hpc Hproc Hpipe Hr0 Hw0 Hwait]. pose proof (Forall_lookup_1 _ _ _ _ Hpc Hi) as Hok.
  set (v := match r with Some bs => ToSleep (CWrite bs) | None => Leaving end).
  assert (call_of v = call_of (Waking ch r)) as Hcall by (by destruct r).
  assert (ps_pt s = Some i) as Hpti by (by apply (proj1 Hpt i _ Hi)).
  split; cbn.
  - eapply held_upd; [done|exact Hi|]. left. split; [done|by destruct r].
  - eapply held_upd; [done|exact Hi|]. right. right. split_and!; [done|done|by destruct r].
  - unfold wakeup1. by rewrite length_fmap, length_insert.
  - apply Forall_insert; [done|]. by destruct r.
  - intros j pc' q Hj Hq. unfold wakeup1 in Hq. apply list_lookup_fmap_Some in Hq as (q0 & -> & Hq0).
    apply list_lookup_insert_Some in Hj as [(<- & <- & _)|[Hne Hj]].
    + destruct (Hproc i _ q0 Hi Hq0) as [Hk Hst]. cbn in Hst. rewrite bool_decide_false by (by rewrite Hst). cbn [andb]. split; [done|]. by destruct r.
    + destruct (Hproc j _ q0 Hj Hq0) as [Hk Hst].
      destruct (bool_decide (p_state q0 = SLEEPING)) eqn:E1, (bool_decide (p_chan q0 = Some ch)) eqn:E2; cbn [andb]; try (by split).
      apply bool_decide_eq_true in E1. split; [done|]. destruct pc'; try congruence. by right.
  - done.
  - intros H0. apply Forall_insert; [by apply Hr0|]. unfold reading. rewrite Hcall. apply (Forall_lookup_1 _ _ _ _ (Hr0 H0) Hi).
  - intros H0. apply Forall_insert; [by apply Hw0|]. unfold writing. rewrite Hcall. apply (Forall_lookup_1 _ _ _ _ (Hw0 H0) Hi).
  - intros j c (pc' & q & Hj & Hq & Ha). left. cbn in *. unfold wakeup1 in Hq. apply list_lookup_fmap_Some in Hq as (q0 & -> & Hq0).
    destruct (decide (j = i)) as [->|Hne].
    + rewrite list_lookup_insert_eq in Hj by (by eapply lookup_lt_Some). injection Hj as <-. destruct r as [bs|]; [|done]. injection Ha as <-.
      destruct (Hwait i (CWrite bs)) as [Hb|Hd]; [by exists (Waking ch (Some bs)), q0|done|].
      apply (due_holder _ _ _ _ Hlk Hi eq_refl) in Hd as [? [?|?]]; [done|]. by simplify_eq/=.
    + rewrite list_lookup_insert_ne in Hj by done. by eapply wake_other.
Qed.

(** ** Steps on the pipe *)

Lemma asleep_call pc pr c : asleep_for pc pr = Some c -> call_of pc = Some c.
Proof. destruct pc as [| | |? []|? []| | | | | |]; cbn; try done. by case_bool_decide. Qed.

(** The holder of [p->lock], at the head of a loop, works on the pipe. *)
Lemma sinv_pipe s i pc v p' lk' :
  sinv s -> ps_pc s !! i = Some pc -> (forall ch, ~ waking ch pc) -> (forall j pc', ps_pc s !! j = Some pc' -> holds_lk pc' = true -> j = i) ->
  (lk' = ps_lk s /\ holds_lk v = holds_lk pc) \/ (ps_lk s = None /\ lk' = Some i /\ holds_lk v = true) ->
  holds_pt v = holds_pt pc -> pc_ok v -> (forall pr, proc_ok pc pr -> proc_ok v pr) -> pipe_ok p' ->
  (forall j pc', ps_pc s !! j = Some pc' -> (readopen p' = 0 -> ~ reading (if decide (j = i) then v else pc')) /\
     (writeopen p' = 0 -> ~ writing (if decide (j = i) then v else pc'))) ->
  (forall j pc' c, ps_pc s !! j = Some pc' -> call_of pc' = Some c -> blocked c (ps_pipe s) -> blocked c p' \/ waking (chan_of c) v) ->
  (forall pr c, asleep_for v pr = Some c -> blocked c p') ->
  sinv (set_pc i v (set_lk lk' (set_pipe p' s))).
Proof.
  intros [Hlk Hpt Hlen Hpc Hproc Hpipe Hr0 Hw0 Hwait] Hi Hnw Hone Clk Cpt Hv Hvp Hp' Hopen Hoth Hown. split; cbn.
  - eapply held_upd; [done|exact Hi|]. naive_solver.
  - eapply held_upd; [done|exact Hi|]. by left.
  - by rewrite length_insert.
  - by apply Forall_insert.
  - intros j pc' q [(<- & <- & _)|[Hne Hj]]%list_lookup_insert_Some Hq; [|by apply (Hproc j)]. by apply Hvp, (Hproc i).
  - done.
  - intros H0. apply Forall_lookup_2. intros j pc' [(<- & <- & _)|[Hne Hj]]%list_lookup_insert_Some.
    + destruct (Hopen i pc Hi) as [Hr _]. rewrite decide_True in Hr by done. by apply Hr.
    + destruct (Hopen j pc' Hj) as [Hr _]. rewrite decide_False in Hr by done. by apply Hr.
  - intros H0. apply Forall_lookup_2. intros j pc' [(<- & <- & _)|[Hne Hj]]%list_lookup_insert_Some.
    + destruct (Hopen i pc Hi) as [_ Hw]. rewrite decide_True in Hw by done. by apply Hw.
    + destruct (Hopen j pc' Hj) as [_ Hw]. rewrite decide_False in Hw by done. by apply Hw.
  - intros j c (pc' & q & Hj & Hq & Ha). cbn in *. apply list_lookup_insert_Some in Hj as [(<- & <- & _)|[Hne Hj]]; [left; by eapply Hown|].
    destruct (Hwait j c) as [Hb|(m & pcm & Hm & Hw)]; [by exists pc', q| |].
    + destruct (Hoth j pc' c Hj (asleep_call _ _ _ Ha) Hb) as [?|Hw]; [by left|]. right. exists i, v.
      cbn. by rewrite list_lookup_insert_eq by (by eapply lookup_lt_Some).
    + exfalso. assert (m = i) as -> by (apply (Hone m pcm Hm); by destruct Hw as [r [-> | ->]]). simplify_eq. by eapply Hnw.
Qed.

Lemma pipewrite_full killed bs p : full p = true -> snd (pipewrite_run killed bs p) = p.
Proof. intros Hf. destruct bs; cbn; [done|]. rewrite Hf. by destruct ((readopen p =? 0) || killed). Qed.

Lemma piperead_copy_ends n p : readopen (snd (piperead_copy n p)) = readopen p /\ writeopen (snd (piperead_copy n p)) = writeopen p.
Proof.
  revert p. induction n as [|n IH]; intros p; cbn; [done|]. destruct (empty p); [done|]. specialize (IH (advance p)).
  by destruct (piperead_copy n (advance p)).
Qed.

Lemma set_lk_same s : set_lk (ps_lk s) s = s.
Proof. by destruct s. Qed.

Lemma inside_alone s i c : sinv s -> ps_pc s !! i = Some (Inside c) -> forall j pc, ps_pc s !! j = Some pc -> holds_lk pc = true -> j = i.
Proof. intros Hs Hi j pc Hj Hh. by eapply held_unique; [apply (si_lk _ Hs)|exact Hj|exact Hh|exact Hi|]. Qed.

Lemma sinv_write s i bs : sinv s -> ps_pc s !! i = Some (Inside (CWrite bs)) -> sinv (inside i false (CWrite bs) s).
Proof.
  intros Hs Hi. pose proof (pipewrite_run_ok false bs _ (si_pipe _ Hs)) as Hrun. pose proof (pipewrite_full false bs (ps_pipe s)) as Hfull.
  unfold inside. destruct (pipewrite_run false bs (ps_pipe s)) as [r p']. cbn [snd] in Hfull.
  destruct Hrun as (dn & rest & _ & Hok & _ & _ & Hro & Hwo & Hr). rewrite <- (set_lk_same (set_pipe p' s)).
  assert (Forall (fun pc => ~ reading pc) (ps_pc s) \/ r <> Ret false) as Hrf.
  { destruct r as [[|]|]; [by right| |by right]. left. apply (si_read0 _ Hs). by destruct Hr as (_ & _ & [?|?]). }
  eapply (sinv_pipe s i (Inside (CWrite bs)) _ p' (ps_lk s)); [exact Hs|exact Hi|by intros ch [? [?|?]]|by eapply inside_alone| | | | |exact Hok| | |].
  - left. split; [done|]. by destruct r as [[|]|].
  - by destruct r as [[|]|].
  - by destruct r as [[|]|].
  - intros pr [Hk Hst]. split; [done|]. by destruct r as [[|]|].
  - intros j pc Hj. rewrite Hro, Hwo. split; intros H0.
    + case_decide; [|apply (Forall_lookup_1 _ _ _ _ (si_read0 _ Hs H0) Hj)]. intros [n Hn]. by destruct r as [[|]|].
    + case_decide; [|apply (Forall_lookup_1 _ _ _ _ (si_write0 _ Hs H0) Hj)]. intros _.
      apply (Forall_lookup_1 _ _ _ _ (si_write0 _ Hs H0) Hi). by exists bs.
  - intros j pc c Hj Hc Hb. destruct c as [bs'|n]; cbn in *.
    + left. by rewrite (Hfull (proj1 Hb)).
    + destruct r as [[|]|rest']; [right; eexists; by left| |right; eexists; by left].
      destruct Hrf as [Hrf|]; [|done]. destruct (Forall_lookup_1 _ _ _ _ Hrf Hj). by exists n.
  - intros pr c Ha. destruct r as [[|]|rest']; [done|done|]. injection Ha as <-. cbn. rewrite Hro. by destruct Hr as (_ & _ & ? & ? & _).
Qed.

Lemma sinv_read s i n : sinv s -> ps_pc s !! i = Some (Inside (CRead n)) -> sinv (inside i false (CRead n) s).
Proof.
  intros Hs Hi. unfold inside, piperead_run. destruct (empty (ps_pipe s) && negb (writeopen (ps_pipe s) =? 0)) eqn:He.
  - apply andb_true_iff in He as [He Hw%negb_true_iff%Z.eqb_neq]. rewrite <- (set_lk_same (set_pipe (ps_pipe s) s)).
    eapply (sinv_pipe s i (Inside (CRead n))); [exact Hs|exact Hi|by intros ch [? [?|?]]|by eapply inside_alone|by left|done|done|done|apply (si_pipe _ Hs)| |by left|].
    + intros j pc Hj. split; intros H0.
      * case_decide; [|apply (Forall_lookup_1 _ _ _ _ (si_read0 _ Hs H0) Hj)]. intros _.
        apply (Forall_lookup_1 _ _ _ _ (si_read0 _ Hs H0) Hi). by exists n.
      * done.
    + intros pr c [= <-]. done.
  - pose proof (piperead_copy_ok (Z.to_nat n) _ (si_pipe _ Hs)) as Hc. pose proof (piperead_copy_ends (Z.to_nat n) (ps_pipe s)) as [Hro Hwo].
    destruct (piperead_copy (Z.to_nat n) (ps_pipe s)) as [l p']. destruct Hc as (Hok & _). cbn [snd] in *. rewrite <- (set_lk_same (set_pipe p' s)).
    eapply (sinv_pipe s i (Inside (CRead n))); [exact Hs|exact Hi|by intros ch [? [?|?]]|by eapply inside_alone|by left|done|done|done|exact Hok| | |done].
    + intros j pc Hj. rewrite Hro, Hwo. split; intros H0; (case_decide; [by intros [? ?]|]).
      * apply (Forall_lookup_1 _ _ _ _ (si_read0 _ Hs H0) Hj).
      * apply (Forall_lookup_1 _ _ _ _ (si_write0 _ Hs H0) Hj).
    + intros j pc c Hj Hc Hb. destruct c as [bs'|n']; cbn in *; [right; eexists; by left|].
      destruct Hb as [Hb1 Hb2]. apply Z.eqb_neq in Hb2. by rewrite Hb1, Hb2 in He.
Qed.

Lemma sinv_close s i (w : bool) :
  sinv s -> ps_pc s !! i = Some Out -> ps_lk s = None ->
  (forall j pc, ps_pc s !! j = Some pc -> ~ (if w then writing pc else reading pc)) ->
  sinv (set_pc i (Wake (if w then ChNread a else ChNwrite a) None) (set_lk (Some i) (set_pipe (pipeclose (ps_pipe s) w) s))).
Proof.
  intros Hs Hi Hlk Hno. eapply (sinv_pipe s i Out); [exact Hs|exact Hi|by intros ch [? [?|?]]| |by right|done|done|done| | | |done].
  - intros j pc Hj Hh. apply (proj1 (si_lk _ Hs) j pc Hj) in Hh. congruence.
  - destruct (si_pipe _ Hs). destruct w; by split.
  - intros j pc Hj. split; intros H0; (case_decide; [by intros [? ?]|]).
    + destruct w; [|by apply (Hno j)]. apply (Forall_lookup_1 _ _ _ _ (si_read0 _ Hs H0) Hj).
    + destruct w; [by apply (Hno j)|]. apply (Forall_lookup_1 _ _ _ _ (si_write0 _ Hs H0) Hj).
  - intros j pc c Hj Hc Hb. destruct c as [bs'|n'], w; cbn in *; try (by left); right; eexists; by left.
Qed.

(** ** Every reachable state *)

Ltac move_on :=
  try done; try (by left); try (by split); try (by intros ? [? [?|?]]);
  try (split; [done|]; by left); try (by cbn; rewrite ?bool_decide_true by done); try (by cbn; rewrite ?bool_decide_false by done).

Lemma pnext_ok i s s' : sinv s -> pnext i s = Some s' -> sinv s'.
Proof.
  intros Hs Hn. unfold pnext in Hn. apply bind_Some in Hn as (pc & Hi & Hn). apply bind_Some in Hn as (pr & Hpr & Hn).
  pose proof (si_proc _ Hs i pc pr Hi Hpr) as [Hk Hst]. pose proof (Forall_lookup_1 _ _ _ _ (si_pc _ Hs) Hi) as Hok.
  pose proof (fun H0 => Forall_lookup_1 _ _ _ _ (si_read0 _ Hs H0) Hi) as Hr0. pose proof (fun H0 => Forall_lookup_1 _ _ _ _ (si_write0 _ Hs H0) Hi) as Hw0.
  pose proof (fun v lk pt q => sinv_move s i pc v lk pt pr q Hs Hi Hpr) as Hmove. cbn zeta in Hmove.
  pose proof (fun v lk pt => Hmove v lk pt pr) as Hstay. rewrite list_insert_id in Hstay by done.
  pose proof (proj1 (si_lk _ Hs) i pc Hi) as Hlk. pose proof (proj1 (si_pt _ Hs) i pc Hi) as Hpt.
  destruct pc as [|c|c|ch r|ch r|c|c|c|c|c|]; try discriminate; cbn in Hst.
  - destruct (ps_lk s) eqn:El; [done|]. injection Hn as <-. apply Hstay; move_on. right; left; done.
  - injection Hn as <-. rewrite Hk. destruct c; [by apply sinv_write|by apply sinv_read].
  - destruct (ps_pt s) eqn:Ep; [done|]. injection Hn as <-. apply Hstay; move_on; [by right; left|]. intros ch' [r' [E|E]]; simplify_eq. exists r'. by right.
  - injection Hn as <-. by apply sinv_wake.
  - destruct (ps_pt s) eqn:Ep; [done|]. injection Hn as <-. apply Hstay; move_on. by right; left.
  - injection Hn as <-. apply Hstay; move_on. right; right. split_and!; [by apply Hlk|done|done].
  - injection Hn as <-. apply Hmove; move_on. right; right. split_and!; [by apply Hpt|done|done].
  - case_bool_decide as Hru; [|done]. destruct (ps_pt s) eqn:Ep; [done|]. injection Hn as <-. apply Hmove; move_on. by right; left.
  - injection Hn as <-. apply Hmove; move_on. right; right. split_and!; [by apply Hpt|done|done].
  - injection Hn as <-. apply Hstay; move_on. right; right. split_and!; [by apply Hlk|done|done].
Qed.

Lemma pmove_ok s s' : pmove false s s' -> sinv s -> sinv s'.
Proof.
  intros Hm Hs. destruct Hm as [i s s' Hn|i n s Hi Hro|i bs s Hi Hwo|i w s Hi Hlk Hno|]; [by eapply pnext_ok| | |by apply sinv_close|done].
  - destruct (lookup_lt_is_Some_2 (ps_procs s) i) as [pr Hpr]; [rewrite (si_len _ Hs); by eapply lookup_lt_Some|].
    pose proof (sinv_move s i Out (Want (CRead n)) (ps_lk s) (ps_pt s) pr pr Hs Hi Hpr) as Hmove. cbn zeta in Hmove. rewrite list_insert_id in Hmove by done.
    pose proof (si_proc _ Hs i Out pr Hi Hpr). apply Hmove; move_on. intros _ [? ?]. done.
  - destruct (lookup_lt_is_Some_2 (ps_procs s) i) as [pr Hpr]; [rewrite (si_len _ Hs); by eapply lookup_lt_Some|].
    pose proof (sinv_move s i Out (Want (CWrite bs)) (ps_lk s) (ps_pt s) pr pr Hs Hi Hpr) as Hmove. cbn zeta in Hmove. rewrite list_insert_id in Hmove by done.
    pose proof (si_proc _ Hs i Out pr Hi Hpr). apply Hmove; move_on. intros _ [? ?]. done.
Qed.

Lemma pboot_ok junk n : length junk = 512%nat -> sinv (pboot junk n).
Proof.
  intros Hj. assert (forall i pc, replicate n Out !! i = Some pc -> pc = Out) as Hout by (intros i pc Hi; by apply lookup_replicate in Hi as [-> _]).
  split; cbn; try done.
  - split; [|done]. intros j pc Hp. by rewrite (Hout j pc Hp).
  - split; [|done]. intros j pc Hp. by rewrite (Hout j pc Hp).
  - by rewrite !length_replicate.
  - by apply Forall_replicate.
  - intros i pc pr Hi Hpr. rewrite (Hout i pc Hi). apply lookup_replicate in Hpr as [-> _]. by split.
  - intros i c (pc & pr & Hi & _ & Ha). cbn in Hi. by rewrite (Hout i pc Hi) in Ha.
Qed.

Lemma reach_sinv junk n s : length junk = 512%nat -> rtc (pmove false) (pboot junk n) s -> sinv s.
Proof. intros Hj Hr. pose proof (pboot_ok junk n Hj) as H0. induction Hr; [done|]. apply IHHr. by eapply pmove_ok. Qed.

(** ** Nobody sleeps too long *)

(** A process that is asleep waits for something that has not happened, or is about to be woken up. *)
Lemma asleep_waits s i c pr : ps_pc s !! i = Some (Parked c) -> ps_procs s !! i = Some pr -> p_state pr = SLEEPING -> waits s i c.
Proof. intros Hi Hpr Hst. exists (Parked c), pr. split_and!; [done|done|]. cbn. by rewrite bool_decide_true. Qed.

Lemma pt_holder_steps s j : sinv s -> ps_pt s = Some j -> is_Some (pnext j s).
Proof.
  intros Hs Hj. pose proof (proj2 (si_pt _ Hs) j Hj) as Hlt. destruct (lookup_lt_is_Some_2 _ _ Hlt) as [pc Hpc].
  rewrite <- (si_len _ Hs) in Hlt. destruct (lookup_lt_is_Some_2 _ _ Hlt) as [pr Hpr].
  apply (proj1 (si_pt _ Hs) j pc Hpc) in Hj. unfold pnext. rewrite Hpc, Hpr. cbn. by destruct pc.
Qed.

(** If nobody can take a step, nobody holds a lock, and everybody is outside or asleep. *)
Lemma stuck_asleep s : sinv s -> (forall i, pnext i s = None) ->
  ps_lk s = None /\
  forall i pc, ps_pc s !! i = Some pc -> pc = Out \/ exists c, pc = Parked c /\ waits s i c.
Proof.
  intros Hs Hstuck. assert (ps_pt s = None) as Hpt.
  { destruct (ps_pt s) as [j|] eqn:Hj; [|done]. destruct (pt_holder_steps s j Hs Hj) as [s' He]. by rewrite Hstuck in He. }
  assert (forall i pc, ps_pc s !! i = Some pc -> exists pr, ps_procs s !! i = Some pr) as Hpr.
  { intros i pc Hi. apply lookup_lt_is_Some_2. rewrite (si_len _ Hs). by eapply lookup_lt_Some. }
  assert (ps_lk s = None) as Hlk.
  { destruct (ps_lk s) as [j|] eqn:Hj; [|done]. pose proof (proj2 (si_lk _ Hs) j Hj) as Hlt. destruct (lookup_lt_is_Some_2 _ _ Hlt) as [pc Hpc].
    destruct (Hpr j pc Hpc) as [pr Hq]. apply (proj1 (si_lk _ Hs) j pc Hpc) in Hj. specialize (Hstuck j). unfold pnext in Hstuck.
    rewrite Hpc, Hq, Hpt in Hstuck. by destruct pc. }
  split; [done|]. intros i pc Hi. destruct (Hpr i pc Hi) as [pr Hq]. specialize (Hstuck i). unfold pnext in Hstuck.
  rewrite Hi, Hq in Hstuck. cbn in Hstuck. rewrite Hlk, Hpt in Hstuck.
  destruct pc as [|c|c|ch r|ch r|c|c|c|c|c|]; try discriminate; [by left|]. right. exists c. split; [done|].
  destruct (si_proc _ Hs i _ pr Hi Hq) as [_ [[Hst _]|Hst]]; [by eapply asleep_waits|]. by rewrite bool_decide_true in Hstuck.
Qed.

Lemma blocked_apart p n bs : pipe_ok p -> blocked (CRead n) p -> blocked (CWrite bs) p -> False.
Proof.
  intros Hok [He _] [Hf _]. apply empty_pending in He; [|done]. apply full_pending in Hf; [|done]. by rewrite He in Hf.
Qed.


(** Steps of given processes, by computation. *)
Definition runs (is' : list nat) (s : psys) : option psys := foldl (fun o i => o ≫= pnext i) (Some s) is'.
Lemma runs_moves kills is' s s' : runs is' s = Some s' -> rtc (pmove kills) s s'.
Proof.
  unfold runs. revert s. induction is' as [|i is' IH]; intros s; cbn; [intros [= ->]; apply rtc_refl|]. destruct (pnext i s) as [s1|] eqn:Hn.
  - intros Hf. eapply rtc_l; [by eapply pm_next|by apply IH].
  - intros Hf. exfalso. clear -Hf. induction is'; cbn in Hf; [done|]. by apply IHis'.
Qed.
End PipeSleep.

(** Process 0 reads from the empty pipe and goes to sleep; process 1 is killed and then writes 513 bytes. *)
Definition sleepy : psys := set_pc 0 (Want (CRead 1)) (pboot (replicate 512 0) 2).
Definition parked : psys := default sleepy (runs 7 [0; 0; 0; 0; 0]%nat sleepy).
Definition killed1 : psys :=
  set_pprocs (<[1%nat := with_killed 1 running_proc]> (ps_procs parked)) parked.
Definition lost : psys := default killed1 (runs 7 [1; 1; 1]%nat (set_pc 1 (Want (CWrite (replicate 513 65))) killed1)).

Lemma sleepy_parked kills : rtc (pmove 7 kills) (pboot (replicate 512 0) 2) parked.
Proof.
  eapply rtc_l; [by apply (pm_read _ _ 0 1)|]. apply (runs_moves _ _ [0; 0; 0; 0; 0]%nat). unfold parked.
  destruct (runs 7 [0; 0; 0; 0; 0]%nat sleepy) eqn:E; [done|]. by vm_compute in E.
Qed.


(** A wake-up that is lost: a writer that has been killed fills the pipe and returns -1 without waking up the
    reader. The reader stays asleep in front of a full pipe whose write end is open, and no process can
    take a step any more. *)
Theorem pipe_killed_writer_loses_wakeup :
  rtc (pmove 7 true) (pboot (replicate 512 0) 2) lost /\
  ps_pc lost = [Parked (CRead 1); Out] /\ p_state <$> ps_procs lost !! 0%nat = Some SLEEPING /\
  length (pending (ps_pipe lost)) = 512%nat /\ writeopen (ps_pipe lost) <> 0 /\ forall i, pnext 7 i lost = None.
Proof.
  assert (ps_pc lost = [Parked (CRead 1); Out]) as Hpc by (by vm_compute). split; [|split; [done|]].
  - etransitivity; [apply sleepy_parked|]. apply rtc_l with killed1.
    { exact (pm_kill 7 true 1 running_proc parked eq_refl ltac:(by vm_compute) ltac:(by vm_compute)). }
    eapply rtc_l; [by apply (pm_write _ _ 1 (replicate 513 65)); vm_compute|].
    apply (runs_moves _ _ [1; 1; 1]%nat). unfold lost. destruct (runs 7 [1; 1; 1]%nat _) eqn:E; [done|]. by vm_compute in E.
  - split; [by vm_compute|]. split; [by vm_compute|]. split; [by vm_compute|].
    intros [|[|i]]; [by vm_compute|by vm_compute|]. unfold pnext. by rewrite Hpc.
Qed.
