(* ===== verification/File.v ===== *)
(** Open files (file.c) and the kernel's side of pipes (pipe.c).

    Reads return the bytes, which the caller copies to the user's buffer; writes
    take the bytes of the buffer. A call that has to wait sleeps. *)

From S2P Require Import Prelude Bytes CString Buf Log Inode Xv6fs Ext2fs Vfs Kalloc Vm Pipe Kernel Sched.

Definition unused_file (f : file) : Prop := f_ref f = 0.
#[export] Instance unused_file_dec f : Decision (unused_file f).
Proof. unfold unused_file. apply _. Defined.

Section File.
Context {D : Type} `{DiskDriver D}.
(** [end] of the kernel and the device switch. *)
Context (kend : Z).
Context (devsw_read : Z -> option (nat -> Z -> M (fsst D) (Z * list Z))).
Context (devsw_write : Z -> option (nat -> list Z -> Z -> M (fsst D) Z)).
Implicit Types s : kern D.

Definition filealloc : M (kern D) (option nat) :=
  fs ← gets k_files;
  match list_find unused_file fs with
  | Some (i, _) => file_upd i (with_fref 1) ;; mret (Some i)
  | None => mret None
  end.

Definition filedup (f : nat) : M (kern D) nat :=
  x ← file_at f;
  guard_ok (f_ref x <? 1) (panic "filedup") ;;
  file_upd f (with_fref (f_ref x + 1)) ;;
  mret f.

(** [pipeclose]: the end that closes, the wake-up of the other, the end of the pipe. *)
Definition close_pipe (p : Z) (writable : bool) : M (kern D) unit :=
  x ← pipe_at p;
  let x := pipeclose x writable in
  pipe_set p x ;;
  wakeup (if writable then ChNread p else ChNwrite p) ;;
  guard_ok ((readopen x =? 0) && (writeopen x =? 0)) (
    vm (kfree kend p) ;;
    modify (fun s => set_pipes (base.delete p (k_pipes s)) s)).

Definition fileclose (f : nat) : M (kern D) unit :=
  x ← file_at f;
  guard_ok (f_ref x <? 1) (panic "fileclose") ;;
  file_upd f (with_fref (f_ref x - 1)) ;;
  if 0 <? f_ref x - 1 then mret tt
  else
    file_upd f (fun y => with_ftype FD_NONE (with_fref 0 y)) ;;
    match f_type x with
    | FD_PIPE => close_pipe (f_pipe x) (negb (f_writable x =? 0))
    | FD_INODE =>
        fs (log begin_op) ;;
        ip ← deref (f_ip x);
        fs (iput ip) ;;
        fs (log end_op)
    | FD_NONE => mret tt
    end.

(** [filestat]: [None] is -1. *)
Definition filestat (f : nat) : M (kern D) (option stat) :=
  x ← file_at f;
  match f_type x with
  | FD_INODE =>
      ip ← deref (f_ip x);
      fs (ilock ip) ;;
      st ← fs (stati ip);
      fs (iunlock ip) ;;
      mret (Some st)
  | _ => mret None
  end.

(** [piperead] and [pipewrite] by the current process. *)
Definition piperead (p : Z) (n : Z) : M (kern D) (Z * list Z) :=
  me ← myproc;
  x ← pipe_at p;
  match piperead_run (negb (p_killed me =? 0)) n x with
  | (Ret None, _) => mret (-1, [])
  | (Ret (Some l), x) => pipe_set p x ;; wakeup (ChNwrite p) ;; mret (Z.of_nat (length l), l)
  | (Sleep _, _) => asleep
  end.
Definition pipewrite (p : Z) (addr : list Z) (n : Z) : M (kern D) Z :=
  me ← myproc;
  x ← pipe_at p;
  match pipewrite_run (negb (p_killed me =? 0)) (take (Z.to_nat n) addr) x with
  | (Ret true, x) => pipe_set p x ;; wakeup (ChNread p) ;; mret n
  | (Ret false, x) => pipe_set p x ;; mret (-1)
  | (Sleep _, _) => asleep
  end.

Definition fileread (f : nat) (n : Z) : M (kern D) (Z * list Z) :=
  x ← file_at f;
  if f_readable x =? 0 then mret (-1, [])
  else match f_type x with
  | FD_PIPE => piperead (f_pipe x) n
  | FD_INODE =>
      ip ← deref (f_ip x);
      fs (ilock ip) ;;
      r ← fs (readi devsw_read ip (f_off x) (u32 n));
      guard_ok (0 <? r.1) (file_upd f (with_off (u32 (f_off x + r.1)))) ;;
      fs (iunlock ip) ;;
      mret r
  | FD_NONE => panic "fileread"
  end.

(** The loop of [filewrite] from byte [i] of [addr] on. *)
Definition MAXWRITE : Z := (MAXOPBLOCKS - 1 - 1 - 2) / 2 * 512.
Fixpoint filewrite_loop (fuel f ip : nat) (addr : list Z) (i n : Z) : M (kern D) Z :=
  match fuel with
  | O => nofuel
  | S fuel =>
      if n <=? i then mret i
      else
        let n1 := if MAXWRITE <? n - i then MAXWRITE else n - i in
        fs (log begin_op) ;;
        fs (ilock ip) ;;
        x ← file_at f;
        r ← fs (writei devsw_write ip (drop (Z.to_nat i) addr) (f_off x) (u32 n1));
        guard_ok (0 <? r) (file_upd f (with_off (u32 (f_off x + r)))) ;;
        fs (iunlock ip) ;;
        fs (log end_op) ;;
        if r <? 0 then mret i
        else
          guard_ok (negb (r =? n1)) (panic "short filewrite") ;;
          filewrite_loop fuel f ip addr (i + r) n
  end.
Definition filewrite (f : nat) (addr : list Z) (n : Z) : M (kern D) Z :=
  x ← file_at f;
  if f_writable x =? 0 then mret (-1)
  else match f_type x with
  | FD_PIPE => pipewrite (f_pipe x) addr n
  | FD_INODE =>
      ip ← deref (f_ip x);
      i ← filewrite_loop (S (S (Z.to_nat (n / MAXWRITE)))) f ip addr 0 n;
      mret (if i =? n then n else -1)
  | FD_NONE => panic "filewrite"
  end.

(** [pipealloc]: the two files, or [None] for -1. The lock, 52 bytes, comes
    before the data in the page. *)
Definition pipe_end (p : Z) (readable writable : Z) (f : file) : file :=
  File FD_PIPE (f_ref f) readable writable p (f_ip f) (f_off f).
Definition pipealloc : M (kern D) (option (nat * nat)) :=
  f0 ← filealloc;
  match f0 with
  | None => mret None
  | Some f0 =>
      f1 ← filealloc;
      match f1 with
      | None => fileclose f0 ;; mret None
      | Some f1 =>
          p ← vm kalloc;
          if p =? 0 then fileclose f0 ;; fileclose f1 ;; mret None
          else
            page ← vm (page_at p);
            pipe_set p (new_pipe (slice 52 512 page)) ;;
            file_upd f0 (pipe_end p 1 0) ;;
            file_upd f1 (pipe_end p 0 1) ;;
            mret (Some (f0, f1))
      end
  end.
End File.
