(* ===== verification/Proc.v ===== *)
(** Processes (proc.c): the first one, fork, exit, wait and growing.

    [exit] ends where [sched] is entered, in a state without this process running.
    [wait] returns, or goes to sleep after a scan of the table. *)

From S2P Require Import Prelude Bytes CString Buf Log Inode Xv6fs Ext2fs Vfs Kalloc Vm Pipe Kernel Sched File.

Definition SEG_UCODE : Z := 3.
Definition SEG_UDATA : Z := 4.
Definition DPL_USER : Z := 3.
Definition FL_IF : Z := 512.

(** ["initcode"] and ["/"]. *)
Definition initcode_name : list Z := [105; 110; 105; 116; 99; 111; 100; 101].
Definition root_path : list Z := [47].

(** The trap frame of the first process. *)
Definition init_tf : trapframe :=
  let ds := Z.lor (Z.shiftl SEG_UDATA 3) DPL_USER in
  Trapframe 0 0 0 0 0 0 0 0 0 0 ds ds 0 0 0 (Z.lor (Z.shiftl SEG_UCODE 3) DPL_USER) FL_IF PGSIZE ds.

Definition is_child (parent : nat) (p : proc) : Prop := p_parent p = Some parent.
#[export] Instance is_child_dec parent p : Decision (is_child parent p).
Proof. unfold is_child. apply _. Defined.
Definition zombie_child (parent : nat) (p : proc) : Prop := is_child parent p /\ p_state p = ZOMBIE.
#[export] Instance zombie_child_dec parent p : Decision (zombie_child parent p).
Proof. unfold zombie_child. apply _. Defined.

(** The loop of [exit] that passes the children of [cur] to [init], from slot [i] on. *)
Fixpoint abandon (fuel i cur : nat) (init : option nat) (ps : list proc) : list proc :=
  match fuel with
  | O => ps
  | S fuel =>
      match ps !! i with
      | None => ps
      | Some p =>
          let ps :=
            if decide (is_child cur p) then
              let ps := <[i := with_parent init p]> ps in
              if decide (p_state p = ZOMBIE) then wakeup1 (ChProc <$> init) ps else ps
            else ps in
          abandon fuel (S i) cur init ps
      end
  end.

Section Proc.
Context {D : Type} `{DiskDriver D}.
Context (kend kdata : Z).
Implicit Types s : kern D.

(** [safestrcpy(p->name, name, sizeof(p->name))]. *)
Definition set_name (i : nat) (name : list Z) : M (kern D) unit :=
  l ← deref (safestrcpy (name ++ [NUL]) 16);
  proc_upd i (fun p => with_name (splice 0 l (p_name p)) p).

(** [initcode] is the binary linked into the kernel, [junk] the buffer of [namei].
    There is no current process yet. *)
Definition userinit (initcode junk : list Z) : M (kern D) unit :=
  p ← allocproc;
  modify (set_initproc p) ;;
  p ← deref p;
  pgdir ← vm (setupkvm kend kdata);
  proc_upd p (with_pgdir pgdir) ;;
  guard_ok (pgdir =? 0) (panic "userinit: out of memory?") ;;
  vm (inituvm pgdir initcode (Z.of_nat (length initcode))) ;;
  proc_upd p (with_sz PGSIZE) ;;
  proc_upd p (with_tf init_tf) ;;
  set_name p initcode_name ;;
  cwd ← zoom k_fs set_fs (namei (fun _ => None) 0 junk root_path);
  proc_upd p (with_cwd cwd) ;;
  proc_upd p (with_state RUNNABLE).

Definition growproc (n : Z) : M (kern D) Z :=
  p ← myproc;
  let sz := p_sz p in
  sz ← (if 0 <? n then r ← vm (allocuvm kend (p_pgdir p) sz (u32 (sz + n))); mret (u32 r)
        else if n <? 0 then r ← vm (deallocuvm kend (p_pgdir p) sz (u32 (sz + n))); mret (u32 r)
        else mret sz);
  if negb (n =? 0) && (sz =? 0) then mret (-1)
  else my_upd (with_sz sz) ;; mret 0.

Definition fork : M (kern D) Z :=
  cur ← gets k_cur;
  np ← allocproc;
  match np with
  | None => mret (-1)
  | Some np =>
      p ← proc_at cur;
      pgdir ← vm (copyuvm kend kdata (p_pgdir p) (p_sz p));
      proc_upd np (with_pgdir pgdir) ;;
      if pgdir =? 0 then
        q ← proc_at np;
        vm (kfree kend (p_kstack q)) ;;
        proc_upd np (with_kstack 0) ;;
        proc_upd np (with_state UNUSED) ;;
        mret (-1)
      else
        proc_upd np (with_sz (p_sz p)) ;;
        proc_upd np (with_parent (Some cur)) ;;
        proc_upd np (with_tf (with_eax 0 (p_tf p))) ;;
        for_all (seq 0 NOFILE) (fun i =>
          f ← deref (p_ofile p !! i);
          match f with
          | None => mret tt
          | Some f => f ← filedup f; proc_upd np (fun q => with_ofile (<[i := Some f]> (p_ofile q)) q)
          end) ;;
        cwd ← deref (p_cwd p);
        cwd ← fs (idup cwd);
        proc_upd np (with_cwd (Some cwd)) ;;
        set_name np (p_name p) ;;
        q ← proc_at np;
        proc_upd np (with_state RUNNABLE) ;;
        mret (p_pid q)
  end.

Definition exit : M (kern D) unit :=
  cur ← gets k_cur;
  init ← gets k_initproc;
  guard_ok (bool_decide (init = Some cur)) (panic "init exiting") ;;
  for_all (seq 0 NOFILE) (fun fd =>
    p ← proc_at cur;
    f ← deref (p_ofile p !! fd);
    match f with
    | None => mret tt
    | Some f => fileclose kend f ;; proc_upd cur (fun p => with_ofile (<[fd := None]> (p_ofile p)) p)
    end) ;;
  fs (log begin_op) ;;
  p ← proc_at cur;
  cwd ← deref (p_cwd p);
  fs (iput cwd) ;;
  fs (log end_op) ;;
  proc_upd cur (with_cwd None) ;;
  p ← proc_at cur;
  modify (fun s => set_procs (wakeup1 (ChProc <$> p_parent p) (k_procs s)) s) ;;
  modify (fun s => set_procs (abandon NPROC 0 cur init (k_procs s)) s) ;;
  proc_upd cur (with_state ZOMBIE).

(** One scan of [wait]: the pid of a zombie child that has been freed, -1, or
    [None] when it has to sleep on its own address. *)
Definition wait_scan : M (kern D) (option Z) :=
  cur ← gets k_cur;
  ps ← gets k_procs;
  match list_find (zombie_child cur) ps with
  | Some (i, p) =>
      vm (kfree kend (p_kstack p)) ;;
      proc_upd i (with_kstack 0) ;;
      vm (freevm kend (p_pgdir p)) ;;
      proc_upd i (with_pid 0) ;;
      proc_upd i (with_parent None) ;;
      proc_upd i (fun p => with_name (<[0%nat := 0]> (p_name p)) p) ;;
      proc_upd i (with_killed 0) ;;
      proc_upd i (with_state UNUSED) ;;
      mret (Some (p_pid p))
  | None =>
      p ← proc_at cur;
      mret (if bool_decide (list_find (is_child cur) ps = None) || negb (p_killed p =? 0)
            then Some (-1) else None)
  end.

(** [wait] until it returns or enters [sched]. *)
Definition wait : M (kern D) (option Z) :=
  r ← wait_scan;
  match r with
  | Some pid => mret (Some pid)
  | None => cur ← gets k_cur; sleep_enter (ChProc cur) ;; mret None
  end.

(** [forkret]: the first process to run reads the super blocks and recovers the log. *)
Definition forkret (first : bool) : M (kern D) bool :=
  guard_ok first (
    fs (xv6fs_iinit ROOTDEV) ;;
    fs (log (initlog ROOTDEV)) ;;
    fs (ext2fs_iinit EXT2DEV)) ;;
  mret false.
End Proc.
