(* ===== verification/Syscall.v ===== *)
(** System call arguments (syscall.c): values fetched from the user's stack and
    memory, checked against the size of the process.

    A fetch answers [None] for -1. A string is its bytes without the NUL. *)

From S2P Require Import Prelude Bytes Buf Log Inode Kalloc Vm Pipe Kernel.

(** The loop of [fetchstr] over the bytes up to [ep]. *)
Fixpoint fetchstr_loop (pgdir : Z) (s : Z) (n : nat) : M vmst (option (list Z)) :=
  match n with
  | O => mret None
  | S n =>
      c ← uload1 pgdir s;
      if c =? 0 then mret (Some [])
      else r ← fetchstr_loop pgdir (s + 1) n; mret (cons c <$> r)
  end.

Section Syscall.
Context {D : Type}.
Implicit Types s : kern D.

Definition fetchint (addr : Z) : M (kern D) (option Z) :=
  p ← myproc;
  if (p_sz p <=? addr) || (p_sz p <? u32 (addr + 4)) then mret None
  else l ← vm (uload (p_pgdir p) addr 4); mret (Some (s32 (le_dec l))).

Definition fetchstr (addr : Z) : M (kern D) (option (list Z)) :=
  p ← myproc;
  if p_sz p <=? addr then mret None
  else vm (fetchstr_loop (p_pgdir p) addr (Z.to_nat (p_sz p - addr))).

Definition argint (n : Z) : M (kern D) (option Z) :=
  p ← myproc; fetchint (u32 (tf_esp (p_tf p) + 4 + 4 * n)).

(** The answer is the user address. *)
Definition argptr (n size : Z) : M (kern D) (option Z) :=
  p ← myproc;
  i ← argint n;
  match i with
  | None => mret None
  | Some i =>
      if (size <? 0) || (p_sz p <=? u32 i) || (p_sz p <? u32 (u32 i + size)) then mret None
      else mret (Some (u32 i))
  end.

Definition argstr (n : Z) : M (kern D) (option (list Z)) :=
  i ← argint n;
  match i with
  | None => mret None
  | Some addr => fetchstr (u32 addr)
  end.

(** Bytes of the buffer of a system call, and the answer written to it. *)
Definition copy_in (addr n : Z) : M (kern D) (list Z) :=
  p ← myproc; vm (uload (p_pgdir p) addr (Z.to_nat n)).
Definition copy_out (addr : Z) (l : list Z) : M (kern D) unit :=
  p ← myproc; vm (ustore (p_pgdir p) addr l).
End Syscall.
