(* ===== verification/Exec.v ===== *)
(** Loading programs: [loaduvm] of vm.c and [exec] of exec.c.

    The path and the arguments are the strings in the user's memory, which stays in
    place until the new image is committed. *)

From S2P Require Import Prelude Bytes CString Buf Log Inode Xv6fs Ext2fs Vfs Kalloc Vm Pipe Kernel Sched File.

Definition ELF_MAGIC : Z := 1179403647.
Definition ELF_PROG_LOAD : Z := 1.

(** Fields of [struct elfhdr], 52 bytes, and [struct proghdr], 32 bytes. *)
Definition SIZEOF_ELFHDR : Z := 52.
Definition elf_magic (l : list Z) : Z := get_le 4 0 l.
Definition elf_entry (l : list Z) : Z := get_le 4 24 l.
Definition elf_phoff (l : list Z) : Z := get_le 4 28 l.
Definition elf_phnum (l : list Z) : Z := get_le 2 44 l.
Definition SIZEOF_PROGHDR : Z := 32.
Definition ph_type (l : list Z) : Z := get_le 4 0 l.
Definition ph_off (l : list Z) : Z := get_le 4 4 l.
Definition ph_vaddr (l : list Z) : Z := get_le 4 8 l.
Definition ph_filesz (l : list Z) : Z := get_le 4 16 l.
Definition ph_memsz (l : list Z) : Z := get_le 4 20 l.

(** What follows the last slash of the path. *)
Fixpoint basename (last path : list Z) : list Z :=
  match path with
  | [] => last
  | c :: path => basename (if c =? slash then path else last) path
  end.

Section Exec.
Context {D : Type} `{DiskDriver D}.
Context (kend kdata : Z).
Context (devsw_read : Z -> option (nat -> Z -> M (fsst D) (Z * list Z))).
(** The buffer on the stack of [namei]. *)
Context (junk : list Z).
Implicit Types s : kern D.

(** [loaduvm] from page [i] on. *)
Fixpoint loaduvm_loop (fuel : nat) (pgdir addr : Z) (ip : nat) (offset i sz : Z) : M (kern D) Z :=
  match fuel with
  | O => nofuel
  | S fuel =>
      if sz <=? i then mret 0
      else
        p ← vm (walkpgdir pgdir (u32 (addr + i)) false);
        match p with
        | None => panic "loaduvm: address should exist"
        | Some p =>
            pte ← vm (pte_at p);
            let pa := PTE_ADDR pte in
            let n := if sz - i <? PGSIZE then sz - i else PGSIZE in
            r ← fs (readi devsw_read ip (u32 (offset + i)) n);
            vm (page_upd (P2V pa) (splice 0 r.2)) ;;
            if negb (u32 r.1 =? n) then mret (-1)
            else loaduvm_loop fuel pgdir addr ip offset (i + PGSIZE) sz
        end
  end.
Definition loaduvm (pgdir addr : Z) (ip : nat) (offset sz : Z) : M (kern D) Z :=
  guard_ok (negb (addr mod PGSIZE =? 0)) (panic "loaduvm: addr must be page aligned") ;;
  loaduvm_loop (S (S (Z.to_nat (sz / PGSIZE)))) pgdir addr ip offset 0 sz.

(** The loop over the program headers: the size of the image, or [None] after
    [goto bad]. *)
Fixpoint load_segments (k : nat) (pgdir : Z) (ip : nat) (off sz : Z) : M (kern D) (option Z) :=
  match k with
  | O => mret (Some sz)
  | S k =>
      r ← fs (readi devsw_read ip (u32 off) SIZEOF_PROGHDR);
      if negb (r.1 =? SIZEOF_PROGHDR) then mret None
      else
        let ph := r.2 in
        let next := load_segments k pgdir ip (s32 (off + SIZEOF_PROGHDR)) in
        if negb (ph_type ph =? ELF_PROG_LOAD) then next sz
        else if ph_memsz ph <? ph_filesz ph then mret None
        else if u32 (ph_vaddr ph + ph_memsz ph) <? ph_vaddr ph then mret None
        else
          sz ← vm (allocuvm kend pgdir sz (u32 (ph_vaddr ph + ph_memsz ph)));
          if sz =? 0 then mret None
          else if negb (ph_vaddr ph mod PGSIZE =? 0) then mret None
          else
            r ← loaduvm pgdir (ph_vaddr ph) ip (ph_off ph) (ph_filesz ph);
            if r <? 0 then mret None else next (u32 sz)
  end.

(** Pushing the argument strings: the stack pointer and the pointers pushed. *)
Fixpoint push_args (pgdir sp : Z) (argc : Z) (argv : list (list Z)) : M (kern D) (option (Z * list Z)) :=
  match argv with
  | [] => mret (Some (sp, []))
  | arg :: argv =>
      if MAXARG <=? argc then mret None
      else
        let sp := Z.land (u32 (sp - (Z.of_nat (length arg) + 1))) (Z.lnot 3) in
        r ← vm (copyout pgdir sp (arg ++ [NUL]));
        if r <? 0 then mret None
        else
          r ← push_args pgdir sp (argc + 1) argv;
          mret ((fun x => (fst x, sp :: snd x)) <$> r)
  end.

(** The stack of the new program: arguments, and the words below them. *)
Definition build_stack (pgdir sz : Z) (argv : list (list Z)) : M (kern D) (option Z) :=
  r ← push_args pgdir sz 0 argv;
  match r with
  | None => mret None
  | Some (sp, ptrs) =>
      let argc := Z.of_nat (length argv) in
      let ustack := 4294967295 :: argc :: u32 (sp - (argc + 1) * 4) :: ptrs ++ [0] in
      let sp := u32 (sp - (3 + argc + 1) * 4) in
      r ← vm (copyout pgdir sp (mjoin (le_enc 4 <$> ustack)));
      mret (if r <? 0 then None else Some sp)
  end.

(** [bad:], with the page table and the inode that are to be given back. *)
Definition exec_bad (pgdir : Z) (ip : option nat) : M (kern D) Z :=
  guard_ok (negb (pgdir =? 0)) (vm (freevm kend pgdir)) ;;
  match ip with
  | Some ip => fs (iunlockput ip) ;; fs (log end_op)
  | None => mret tt
  end ;;
  mret (-1).

(** The last part of [exec]: nothing can fail any more. *)
Definition exec_commit (path elf : list Z) (pgdir sz sp : Z) : M (kern D) Z :=
  name ← deref (safestrcpy (basename path path ++ [NUL]) 16);
  my_upd (fun p => with_name (splice 0 name (p_name p)) p) ;;
  p ← myproc;
  my_upd (fun p => with_tf (with_entry (elf_entry elf) sp (p_tf p)) (with_sz sz (with_pgdir pgdir p))) ;;
  vm (freevm kend (p_pgdir p)) ;;
  mret 0.

Definition exec (path : list Z) (argv : list (list Z)) : M (kern D) Z :=
  p ← myproc;
  fs (log begin_op) ;;
  cwd ← deref (p_cwd p);
  ip ← fs (namei devsw_read cwd junk path);
  match ip with
  | None => fs (log end_op) ;; mret (-1)
  | Some ip =>
      fs (ilock ip) ;;
      r ← fs (readi devsw_read ip 0 SIZEOF_ELFHDR);
      let elf := r.2 in
      if negb (r.1 =? SIZEOF_ELFHDR) then exec_bad 0 (Some ip)
      else if negb (elf_magic elf =? ELF_MAGIC) then exec_bad 0 (Some ip)
      else
        pgdir ← vm (setupkvm kend kdata);
        if pgdir =? 0 then exec_bad 0 (Some ip)
        else
          sz ← load_segments (Z.to_nat (elf_phnum elf)) pgdir ip (s32 (elf_phoff elf)) 0;
          match sz with
          | None => exec_bad pgdir (Some ip)
          | Some sz =>
              fs (iunlockput ip) ;;
              fs (log end_op) ;;
              let sz := PGROUNDUP sz in
              sz ← vm (allocuvm kend pgdir sz (u32 (sz + 2 * PGSIZE)));
              if sz =? 0 then exec_bad pgdir None
              else
                let sz := u32 sz in
                vm (clearpteu pgdir (u32 (sz - 2 * PGSIZE))) ;;
                sp ← build_stack pgdir sz argv;
                match sp with
                | None => exec_bad pgdir None
                | Some sp => exec_commit path elf pgdir sz sp
                end
          end
  end.
End Exec.
