(* ===== verification/Sysfile.v ===== *)
(** The file-system calls (sysfile.c).

    A call answers the value it returns in [%eax]. The uninitialised buffers on the
    kernel stack are arbitrary bytes, fixed once for all calls. *)

From S2P Require Import Prelude Bytes CString Buf Log Inode Xv6fs Ext2fs Vfs Kalloc Vm Pipe Kernel Sched File Syscall Exec.

Definition O_WRONLY : Z := 1.
Definition O_RDWR : Z := 2.
Definition O_CREATE : Z := 512.
Definition O_RDONLY : Z := 0.

(** ["."] and [".."] with their NUL. *)
Definition dot : list Z := [46; 0].
Definition dotdot : list Z := [46; 46; 0].

Section Sysfile.
Context {D : Type} `{DiskDriver D}.
Context (kend kdata : Z).
Context (devsw_read : Z -> option (nat -> Z -> M (fsst D) (Z * list Z))).
Context (devsw_write : Z -> option (nat -> list Z -> Z -> M (fsst D) Z)).
(** [name] of [namei] (255 bytes), [name] of the calls (14 bytes), and [de] of
    [ext2fs_dirlink] with the stack after it. *)
Context (namei_junk name_junk de_junk beyond : list Z).
Implicit Types s : kern D.

Definition cwd : M (kern D) nat := p ← myproc; deref (p_cwd p).

(** [argfd]: the descriptor and the file. *)
Definition argfd (n : Z) : M (kern D) (option (nat * nat)) :=
  fd ← argint n;
  match fd with
  | None => mret None
  | Some fd =>
      if (fd <? 0) || (Z.of_nat NOFILE <=? fd) then mret None
      else
        p ← myproc;
        f ← deref (p_ofile p !! Z.to_nat fd);
        mret ((fun f => (Z.to_nat fd, f)) <$> f)
  end.

Definition fdalloc (f : nat) : M (kern D) Z :=
  p ← myproc;
  match list_find (fun o => o = None) (p_ofile p) with
  | Some (fd, _) => my_upd (fun p => with_ofile (<[fd := Some f]> (p_ofile p)) p) ;; mret (Z.of_nat fd)
  | None => mret (-1)
  end.

Definition sys_dup : M (kern D) Z :=
  a ← argfd 0;
  match a with
  | None => mret (-1)
  | Some (_, f) =>
      fd ← fdalloc f;
      if fd <? 0 then mret (-1) else _ ← filedup f; mret fd
  end.

(** The arguments of [read] and [write]: the file, the buffer and the count. *)
Definition rw_args : M (kern D) (option (nat * Z * Z)) :=
  a ← argfd 0;
  match a with
  | None => mret None
  | Some (_, f) =>
      n ← argint 2;
      match n with
      | None => mret None
      | Some n => p ← argptr 1 n; mret ((fun p => (f, p, n)) <$> p)
      end
  end.

Definition sys_read : M (kern D) Z :=
  a ← rw_args;
  match a with
  | None => mret (-1)
  | Some (f, p, n) => r ← fileread devsw_read f n; copy_out p r.2 ;; mret r.1
  end.

(** The pages of the buffer are below the size of the process, and mapped. *)
Definition sys_write : M (kern D) Z :=
  a ← rw_args;
  match a with
  | None => mret (-1)
  | Some (f, p, n) => l ← copy_in p n; filewrite devsw_write f l n
  end.

Definition sys_close : M (kern D) Z :=
  a ← argfd 0;
  match a with
  | None => mret (-1)
  | Some (fd, f) =>
      my_upd (fun p => with_ofile (<[fd := None]> (p_ofile p)) p) ;;
      fileclose kend f ;;
      mret 0
  end.

(** [struct stat] in memory: the fields at 0, 4, 8, 12 and 16. *)
Definition sys_fstat : M (kern D) Z :=
  a ← argfd 0;
  match a with
  | None => mret (-1)
  | Some (_, f) =>
      p ← argptr 1 20;
      match p with
      | None => mret (-1)
      | Some p =>
          st ← filestat f;
          match st with
          | None => mret (-1)
          | Some st =>
              copy_out p (le_enc 2 (st_type st)) ;;
              copy_out (u32 (p + 4)) (le_enc 4 (st_dev st)) ;;
              copy_out (u32 (p + 8)) (le_enc 4 (st_ino st)) ;;
              copy_out (u32 (p + 12)) (le_enc 2 (st_nlink st)) ;;
              copy_out (u32 (p + 16)) (le_enc 4 (st_size st)) ;;
              mret 0
          end
      end
  end.

(** [bad:] of [sys_link]. *)
Definition link_bad (ip : nat) : M (kern D) Z :=
  fs (ilock ip) ;;
  fs (inode_upd ip (fun x => with_nlink (s16 (i_nlink x - 1)) x)) ;;
  fs (iupdate ip) ;;
  fs (iunlockput ip) ;;
  fs (log end_op) ;;
  mret (-1).

Definition sys_link : M (kern D) Z :=
  old ← argstr 0;
  match old with
  | None => mret (-1)
  | Some old =>
  new ← argstr 1;
  match new with
  | None => mret (-1)
  | Some new =>
      fs (log begin_op) ;;
      c ← cwd;
      ip ← fs (namei devsw_read c namei_junk old);
      match ip with
      | None => fs (log end_op) ;; mret (-1)
      | Some ip =>
          fs (ilock ip) ;;
          x ← fs (inode_at ip);
          if i_type x =? T_DIR then fs (iunlockput ip) ;; fs (log end_op) ;; mret (-1)
          else
            fs (inode_upd ip (fun x => with_nlink (s16 (i_nlink x + 1)) x)) ;;
            fs (iupdate ip) ;;
            fs (iunlock ip) ;;
            r ← fs (nameiparent devsw_read c new name_junk);
            match r with
            | (None, _) => link_bad ip
            | (Some dp, name) =>
                fs (ilock dp) ;;
                x ← fs (inode_at ip);
                d ← fs (inode_at dp);
                l ← (if i_dev d =? i_dev x
                     then fs (dirlink devsw_read devsw_write de_junk beyond dp name (i_inum x))
                     else mret (-1));
                fs (iunlockput dp) ;;
                if l <? 0 then link_bad ip
                else fs (iput ip) ;; fs (log end_op) ;; mret 0
            end
      end
  end
  end.

Definition isdirempty (dp : nat) : M (kern D) bool :=
  x ← fs (inode_at dp);
  r ← for_each (range 2 ((i_size x + SIZEOF_DIRENT - 1) / SIZEOF_DIRENT)) (fun k =>
    r ← fs (readi devsw_read dp (k * SIZEOF_DIRENT) SIZEOF_DIRENT);
    guard_ok (negb (r.1 =? SIZEOF_DIRENT)) (panic "isdirempty: readi") ;;
    mret (if de_inum r.2 =? 0 then None else Some false));
  mret (default true r).

(** The part of [sys_unlink] after the checks. *)
Definition unlink_entry (dp ip : nat) (off : Z) : M (kern D) Z :=
  w ← fs (writei devsw_write dp (replicate 16 0) off SIZEOF_DIRENT);
  guard_ok (negb (w =? SIZEOF_DIRENT)) (panic "unlink: writei") ;;
  x ← fs (inode_at ip);
  guard_ok (i_type x =? T_DIR) (
    fs (inode_upd dp (fun d => with_nlink (s16 (i_nlink d - 1)) d)) ;;
    fs (iupdate dp)) ;;
  fs (iunlockput dp) ;;
  fs (inode_upd ip (fun x => with_nlink (s16 (i_nlink x - 1)) x)) ;;
  fs (iupdate ip) ;;
  fs (iunlockput ip) ;;
  fs (log end_op) ;;
  mret 0.

Definition unlink_bad (dp : nat) : M (kern D) Z :=
  fs (iunlockput dp) ;; fs (log end_op) ;; mret (-1).

Definition sys_unlink : M (kern D) Z :=
  path ← argstr 0;
  match path with
  | None => mret (-1)
  | Some path =>
      fs (log begin_op) ;;
      c ← cwd;
      r ← fs (nameiparent devsw_read c path name_junk);
      match r with
      | (None, _) => fs (log end_op) ;; mret (-1)
      | (Some dp, name) =>
          fs (ilock dp) ;;
          c1 ← fs (namecmp name dot);
          c2 ← (if c1 =? 0 then mret 0 else fs (namecmp name dotdot));
          if (c1 =? 0) || (c2 =? 0) then unlink_bad dp
          else
            r ← fs (dirlookup devsw_read dp name);
            match r with
            | None => unlink_bad dp
            | Some (ip, off) =>
                fs (ilock ip) ;;
                x ← fs (inode_at ip);
                guard_ok (i_nlink x <? 1) (panic "unlink: nlink < 1") ;;
                e ← (if i_type x =? T_DIR then isdirempty ip else mret true);
                if negb e then fs (iunlockput ip) ;; unlink_bad dp
                else unlink_entry dp ip off
            end
      end
  end.

(** [dp->iops->ialloc(dp->dev, type)]. *)
Definition ialloc (dp : nat) (type : Z) : M (fsst D) nat :=
  o ← ops_of dp;
  x ← inode_at dp;
  match o with XV6FS => xv6fs_ialloc (i_dev x) type | EXT2FS => ext2fs_ialloc (i_dev x) type end.

(** The end of [create]: the new inode gets its fields, its entries if it is a
    directory, and its name in [dp]. *)
Definition create_new (dp : nat) (name : list Z) (type major minor : Z) : M (kern D) nat :=
  ip ← fs (ialloc dp type);
  fs (ilock ip) ;;
  fs (inode_upd ip (fun x => with_nlink 1 (with_majmin major minor x))) ;;
  fs (iupdate ip) ;;
  x ← fs (inode_at ip);
  d ← fs (inode_at dp);
  guard_ok (type =? T_DIR) (
    fs (inode_upd dp (fun d => with_nlink (s16 (i_nlink d + 1)) d)) ;;
    fs (iupdate dp) ;;
    a ← fs (dirlink devsw_read devsw_write de_junk beyond ip dot (i_inum x));
    guard_ok (a <? 0) (panic "create dots") ;;
    b ← fs (dirlink devsw_read devsw_write de_junk beyond ip dotdot (i_inum d));
    guard_ok (b <? 0) (panic "create dots")) ;;
  l ← fs (dirlink devsw_read devsw_write de_junk beyond dp name (i_inum x));
  guard_ok (l <? 0) (panic "create: dirlink") ;;
  fs (iunlockput dp) ;;
  mret ip.

Definition create (path : list Z) (type major minor : Z) : M (kern D) (option nat) :=
  c ← cwd;
  r ← fs (nameiparent devsw_read c path name_junk);
  match r with
  | (None, _) => mret None
  | (Some dp, name) =>
      fs (ilock dp) ;;
      r ← fs (dirlookup devsw_read dp name);
      match r with
      | Some (ip, _) =>
          fs (iunlockput dp) ;;
          fs (ilock ip) ;;
          x ← fs (inode_at ip);
          if (type =? T_FILE) && (i_type x =? T_FILE) then mret (Some ip)
          else fs (iunlockput ip) ;; mret None
      | None => ip ← create_new dp name type major minor; mret (Some ip)
      end
  end.

(** The inode to open, locked, or [None] after [end_op]. *)
Definition open_inode (path : list Z) (omode : Z) : M (kern D) (option nat) :=
  if negb (Z.land omode O_CREATE =? 0) then
    ip ← create path T_FILE 0 0;
    match ip with
    | None => fs (log end_op) ;; mret None
    | Some ip => mret (Some ip)
    end
  else
    c ← cwd;
    ip ← fs (namei devsw_read c namei_junk path);
    match ip with
    | None => fs (log end_op) ;; mret None
    | Some ip =>
        fs (ilock ip) ;;
        x ← fs (inode_at ip);
        if (i_type x =? T_DIR) && negb (omode =? O_RDONLY)
        then fs (iunlockput ip) ;; fs (log end_op) ;; mret None
        else mret (Some ip)
    end.

Definition b2z (b : bool) : Z := if b then 1 else 0.
Definition opened (ip : nat) (omode : Z) (f : file) : file :=
  File FD_INODE (f_ref f) (b2z (Z.land omode O_WRONLY =? 0))
    (b2z (negb (Z.land omode O_WRONLY =? 0) || negb (Z.land omode O_RDWR =? 0))) (f_pipe f) (Some ip) 0.

Definition sys_open : M (kern D) Z :=
  path ← argstr 0;
  match path with
  | None => mret (-1)
  | Some path =>
  omode ← argint 1;
  match omode with
  | None => mret (-1)
  | Some omode =>
      fs (log begin_op) ;;
      ip ← open_inode path omode;
      match ip with
      | None => mret (-1)
      | Some ip =>
          f ← filealloc;
          fd ← match f with Some f => fdalloc f | None => mret (-1) end;
          match f with
          | Some f =>
              if fd <? 0 then
                fileclose kend f ;; fs (iunlockput ip) ;; fs (log end_op) ;; mret (-1)
              else
                fs (iunlock ip) ;;
                fs (log end_op) ;;
                file_upd f (opened ip omode) ;;
                mret fd
          | None => fs (iunlockput ip) ;; fs (log end_op) ;; mret (-1)
          end
      end
  end
  end.

Definition sys_mkdir : M (kern D) Z :=
  fs (log begin_op) ;;
  path ← argstr 0;
  ip ← match path with Some path => create path T_DIR 0 0 | None => mret None end;
  match ip with
  | None => fs (log end_op) ;; mret (-1)
  | Some ip => fs (iunlockput ip) ;; fs (log end_op) ;; mret 0
  end.

(** The arguments of [create] are [short]. *)
Definition mknod_inode : M (kern D) (option nat) :=
  path ← argstr 0;
  match path with
  | None => mret None
  | Some path =>
  major ← argint 1;
  match major with
  | None => mret None
  | Some major =>
  minor ← argint 2;
  match minor with
  | None => mret None
  | Some minor => create path T_DEV (s16 major) (s16 minor)
  end end end.
Definition sys_mknod : M (kern D) Z :=
  fs (log begin_op) ;;
  ip ← mknod_inode;
  match ip with
  | None => fs (log end_op) ;; mret (-1)
  | Some ip => fs (iunlockput ip) ;; fs (log end_op) ;; mret 0
  end.

Definition sys_chdir : M (kern D) Z :=
  fs (log begin_op) ;;
  path ← argstr 0;
  c ← cwd;
  ip ← match path with Some path => fs (namei devsw_read c namei_junk path) | None => mret None end;
  match ip with
  | None => fs (log end_op) ;; mret (-1)
  | Some ip =>
      fs (ilock ip) ;;
      x ← fs (inode_at ip);
      if negb (i_type x =? T_DIR) then fs (iunlockput ip) ;; fs (log end_op) ;; mret (-1)
      else
        fs (iunlock ip) ;;
        fs (iput c) ;;
        fs (log end_op) ;;
        my_upd (with_cwd (Some ip)) ;;
        mret 0
  end.

(** The loop of [sys_exec] over [argv]; [k] entries of the array are left. *)
Fixpoint fetch_argv (k : nat) (uargv i : Z) : M (kern D) (option (list (list Z))) :=
  match k with
  | O => mret None
  | S k =>
      uarg ← fetchint (u32 (uargv + 4 * i));
      match uarg with
      | None => mret None
      | Some uarg =>
          if uarg =? 0 then mret (Some [])
          else
            str ← fetchstr (u32 uarg);
            match str with
            | None => mret None
            | Some str => r ← fetch_argv k uargv (i + 1); mret (cons str <$> r)
            end
      end
  end.
Definition sys_exec : M (kern D) Z :=
  path ← argstr 0;
  match path with
  | None => mret (-1)
  | Some path =>
  uargv ← argint 1;
  match uargv with
  | None => mret (-1)
  | Some uargv =>
      argv ← fetch_argv (Z.to_nat MAXARG) (u32 uargv) 0;
      match argv with
      | None => mret (-1)
      | Some argv => exec kend kdata devsw_read namei_junk path argv
      end
  end
  end.

Definition sys_pipe : M (kern D) Z :=
  fd ← argptr 0 8;
  match fd with
  | None => mret (-1)
  | Some fd =>
      r ← pipealloc kend;
      match r with
      | None => mret (-1)
      | Some (rf, wf) =>
          fd0 ← fdalloc rf;
          fd1 ← (if fd0 <? 0 then mret (-1) else fdalloc wf);
          if (fd0 <? 0) || (fd1 <? 0) then
            guard_ok (0 <=? fd0) (my_upd (fun p => with_ofile (<[Z.to_nat fd0 := None]> (p_ofile p)) p)) ;;
            fileclose kend rf ;;
            fileclose kend wf ;;
            mret (-1)
          else
            copy_out fd (le_enc 4 fd0) ;;
            copy_out (u32 (fd + 4)) (le_enc 4 fd1) ;;
            mret 0
      end
  end.
End Sysfile.
