(* ===== verification/Trap.v ===== *)
(** Process calls (sysproc.c), the table of system calls (syscall.c) and traps
    (trap.c).

    Control does not always come back: [exit] ends in the scheduler, and a clock
    tick makes the process yield. [trap] is followed up to there. The handlers of
    the disk, the keyboard and the serial port are parameters here; they are
    modelled with their devices in Ide.v and Console.v. *)

From S2P Require Import Prelude Bytes CString Buf Log Inode Xv6fs Ext2fs Vfs Kalloc Vm Pipe Kernel Sched File Proc Syscall Exec Sysfile.

Definition T_SYSCALL : Z := 64.
Definition T_IRQ0 : Z := 32.
Definition IRQ_TIMER : Z := 0.
Definition IRQ_KBD : Z := 1.
Definition IRQ_COM1 : Z := 4.
Definition IRQ_IDE : Z := 14.
Definition IRQ_SPURIOUS : Z := 31.

(** How a call or a trap ends: with a value, or in [sched] for good or for a while. *)
Inductive ending (A : Type) := Returns (a : A) | Exits | Yields.
Arguments Returns {A} a. Arguments Exits {A}. Arguments Yields {A}.

Section Trap.
Context {D : Type} `{DiskDriver D}.
Context (kend kdata : Z).
Context (devsw_read : Z -> option (nat -> Z -> M (fsst D) (Z * list Z))).
Context (devsw_write : Z -> option (nat -> list Z -> Z -> M (fsst D) Z)).
Context (namei_junk name_junk de_junk beyond : list Z).
(** [ideintr(i)], [kbdintr()] and [uartintr()]. *)
Context (ideintr : Z -> M (kern D) unit) (kbdintr uartintr : M (kern D) unit).
Implicit Types s : kern D.

Definition sys_kill : M (kern D) Z :=
  pid ← argint 0;
  match pid with
  | None => mret (-1)
  | Some pid => kill pid
  end.

Definition sys_getpid : M (kern D) Z := p ← myproc; mret (p_pid p).

Definition sys_sbrk : M (kern D) Z :=
  n ← argint 0;
  match n with
  | None => mret (-1)
  | Some n =>
      p ← myproc;
      let addr := s32 (p_sz p) in
      r ← growproc kend n;
      mret (if r <? 0 then -1 else addr)
  end.

(** The test of the loop of [sys_sleep] when it started at [ticks0]: the value
    it returns, or [None] to sleep on [ticks]. The comparison is unsigned. *)
Definition sleep_check (ticks0 n : Z) : M (kern D) (option Z) :=
  ticks ← gets k_ticks;
  if u32 (ticks - ticks0) <? u32 n then
    p ← myproc; mret (if p_killed p =? 0 then None else Some (-1))
  else mret (Some 0).
Definition sys_sleep : M (kern D) Z :=
  n ← argint 0;
  match n with
  | None => mret (-1)
  | Some n =>
      ticks0 ← gets k_ticks;
      r ← sleep_check ticks0 n;
      match r with Some v => mret v | None => asleep end
  end.

Definition sys_uptime : M (kern D) Z := t ← gets k_ticks; mret (s32 t).

Definition sys_wait : M (kern D) Z :=
  r ← wait kend; match r with Some pid => mret pid | None => asleep end.

(** [syscalls[num]]. *)
Definition syscalls (num : Z) : option (M (kern D) (ending Z)) :=
  let r (m : M (kern D) Z) : option (M (kern D) (ending Z)) := Some (v ← m; mret (Returns v)) in
  match num with
  | 1 => r (fork kend kdata)
  | 2 => Some (exit kend ;; mret Exits)
  | 3 => r sys_wait
  | 4 => r (sys_pipe kend)
  | 5 => r (sys_read devsw_read)
  | 6 => r sys_kill
  | 7 => r (sys_exec kend kdata devsw_read namei_junk)
  | 8 => r sys_fstat
  | 9 => r (sys_chdir devsw_read namei_junk)
  | 10 => r sys_dup
  | 11 => r sys_getpid
  | 12 => r sys_sbrk
  | 13 => r sys_sleep
  | 14 => r sys_uptime
  | 15 => r (sys_open kend devsw_read devsw_write namei_junk name_junk de_junk beyond)
  | 16 => r (sys_write devsw_write)
  | 17 => r (sys_mknod devsw_read devsw_write name_junk de_junk beyond)
  | 18 => r (sys_unlink devsw_read devsw_write name_junk)
  | 19 => r (sys_link devsw_read devsw_write namei_junk name_junk de_junk beyond)
  | 20 => r (sys_mkdir devsw_read devsw_write name_junk de_junk beyond)
  | 21 => r (sys_close kend)
  | _ => None
  end.

Definition set_eax (v : Z) : M (kern D) unit := my_upd (fun p => with_tf (with_eax (u32 v) (p_tf p)) p).

Definition syscall : M (kern D) (ending unit) :=
  p ← myproc;
  match syscalls (s32 (tf_eax (p_tf p))) with
  | Some call =>
      r ← call;
      match r with
      | Returns v => set_eax v ;; mret (Returns tt)
      | Exits => mret Exits
      | Yields => mret Yields
      end
  | None => set_eax (-1) ;; mret (Returns tt)
  end.

(** [if(myproc()->killed) exit();], the second form for a trap from user space. *)
Definition exit_if (b : bool) : M (kern D) (ending unit) :=
  if b then exit kend ;; mret Exits else mret (Returns tt).
Definition exit_if_killed (tf : trapframe) : M (kern D) (ending unit) :=
  p ← myproc;
  exit_if (negb (p_killed p =? 0) && (Z.land (tf_cs tf) 3 =? DPL_USER)).

Definition trap_syscall (tf : trapframe) : M (kern D) (ending unit) :=
  p ← myproc;
  e ← exit_if (negb (p_killed p =? 0));
  match e with
  | Returns _ =>
      my_upd (with_tf tf) ;;
      e ← syscall;
      match e with
      | Returns _ => p ← myproc; exit_if (negb (p_killed p =? 0))
      | _ => mret e
      end
  | _ => mret e
  end.

(** The [switch] of [trap] on processor [cpu], with a current process. *)
Definition trap_switch (cpu : Z) (tf : trapframe) : M (kern D) unit :=
  let no := tf_trapno tf in
  if no =? T_IRQ0 + IRQ_TIMER then
    guard_ok (cpu =? 0) (
      modify (fun s => set_ticks (u32 (k_ticks s + 1)) s) ;;
      wakeup ChTicks)
  else if no =? T_IRQ0 + IRQ_IDE then ideintr 0
  else if no =? T_IRQ0 + IRQ_IDE + 1 then ideintr 1
  else if no =? T_IRQ0 + IRQ_KBD then kbdintr
  else if no =? T_IRQ0 + IRQ_COM1 then uartintr
  else if (no =? T_IRQ0 + 7) || (no =? T_IRQ0 + IRQ_SPURIOUS) then mret tt
  else if Z.land (tf_cs tf) 3 =? 0 then panic "trap"
  else my_upd (with_killed 1).

(** [trap] up to its end, the end of the process, or [sched] in [yield]. *)
Definition trap (cpu : Z) (tf : trapframe) : M (kern D) (ending unit) :=
  if tf_trapno tf =? T_SYSCALL then trap_syscall tf
  else
    trap_switch cpu tf ;;
    e ← exit_if_killed tf;
    match e with
    | Returns _ =>
        p ← myproc;
        if bool_decide (p_state p = RUNNING) && (tf_trapno tf =? T_IRQ0 + IRQ_TIMER)
        then yield_enter ;; mret Yields
        else exit_if_killed tf
    | _ => mret e
    end.

(** What is left of [trap] when the process runs again after [yield]. *)
Definition trap_resume (tf : trapframe) : M (kern D) (ending unit) := exit_if_killed tf.
End Trap.
