(* ===== verification/Seg.v ===== *)
(** Segments, gates and the task state (mmu.h, vm.c, trap.c, x86.h): the tables that the processor consults when it changes between user and kernel mode.

    The structures of mmu.h are bit fields; [pack] puts them into the words that the processor reads, the first field in the lowest bits. [gdt_at], [ts_at] and
    [idt_at] are the addresses the linker gives to the tables, [vectors] the entry points of vectors.S. *)

From S2P Require Import Prelude Spinlock Kalloc Kernel Trap.

(** ** Bit fields *)
Definition bits (w z : Z) : Z := z mod 2 ^ w.
Definition pack (fs : list (Z * Z)) : Z := foldr (fun (f : Z * Z) r => f.2 + 2 ^ f.1 * r) 0 fs.
Definition field (lo w z : Z) : Z := z / 2 ^ lo mod 2 ^ w.

Record segdesc := Segdesc {
  lim_15_0 : Z; base_15_0 : Z; base_23_16 : Z; sd_type : Z; sd_s : Z; sd_dpl : Z; sd_p : Z; lim_19_16 : Z; sd_avl : Z; sd_rsv1 : Z; sd_db : Z; sd_g : Z; base_31_24 : Z;
}.

(** An initialiser of the structure, whose fields take the low bits of their values. *)
Definition segdesc_init l0 b0 b16 t s dpl p l16 avl rsv db g b24 : segdesc :=
  Segdesc (bits 16 l0) (bits 16 b0) (bits 8 b16) (bits 4 t) (bits 1 s) (bits 2 dpl) (bits 1 p) (bits 4 l16) (bits 1 avl) (bits 1 rsv) (bits 1 db) (bits 1 g) (bits 8 b24).
Definition set_s s d : segdesc := Segdesc (lim_15_0 d) (base_15_0 d) (base_23_16 d) (sd_type d) (bits 1 s) (sd_dpl d) (sd_p d) (lim_19_16 d) (sd_avl d) (sd_rsv1 d) (sd_db d) (sd_g d) (base_31_24 d).

Definition SEG (type base lim dpl : Z) : segdesc :=
  segdesc_init (Z.land (Z.shiftr lim 12) 0xffff) (Z.land (u32 base) 0xffff) (Z.land (Z.shiftr (u32 base) 16) 0xff) type 1 dpl 1
    (Z.shiftr (u32 lim) 28) 0 0 1 1 (Z.shiftr (u32 base) 24).
Definition SEG16 (type base lim dpl : Z) : segdesc :=
  segdesc_init (Z.land lim 0xffff) (Z.land (u32 base) 0xffff) (Z.land (Z.shiftr (u32 base) 16) 0xff) type 1 dpl 1
    (Z.shiftr (u32 lim) 16) 0 0 1 0 (Z.shiftr (u32 base) 24).

Definition seg_word (d : segdesc) : Z :=
  pack [(16, lim_15_0 d); (16, base_15_0 d); (8, base_23_16 d); (4, sd_type d); (1, sd_s d); (2, sd_dpl d); (1, sd_p d); (4, lim_19_16 d); (1, sd_avl d); (1, sd_rsv1 d);
        (1, sd_db d); (1, sd_g d); (8, base_31_24 d)].

Record gatedesc := Gatedesc { off_15_0 : Z; gd_cs : Z; gd_args : Z; gd_rsv1 : Z; gd_type : Z; gd_s : Z; gd_dpl : Z; gd_p : Z; off_31_16 : Z }.

Definition STS_IG32 : Z := 0xE.
Definition STS_TG32 : Z := 0xF.

Definition SETGATE (istrap : bool) (sel off d : Z) : gatedesc :=
  Gatedesc (bits 16 (Z.land (u32 off) 0xffff)) (bits 16 sel) (bits 5 0) (bits 3 0) (bits 4 (if istrap then STS_TG32 else STS_IG32)) (bits 1 0) (bits 2 d) (bits 1 1)
    (bits 16 (Z.shiftr (u32 off) 16)).

Definition gate_word (g : gatedesc) : Z :=
  pack [(16, off_15_0 g); (16, gd_cs g); (5, gd_args g); (3, gd_rsv1 g); (4, gd_type g); (1, gd_s g); (2, gd_dpl g); (1, gd_p g); (16, off_31_16 g)].

(** The task state; the paddings are left out. *)
Record taskstate := Taskstate {
  ts_link : Z; ts_esp0 : Z; ts_ss0 : Z; ts_esp1 : Z; ts_ss1 : Z; ts_esp2 : Z; ts_ss2 : Z; ts_cr3 : Z; ts_eip : Z; ts_eflags : Z; ts_eax : Z; ts_ecx : Z; ts_edx : Z; ts_ebx : Z;
  ts_esp : Z; ts_ebp : Z; ts_esi : Z; ts_edi : Z; ts_es : Z; ts_cs : Z; ts_ss : Z; ts_ds : Z; ts_fs : Z; ts_gs : Z; ts_ldt : Z; ts_t : Z; ts_iomb : Z;
}.
Definition SIZEOF_TASKSTATE : Z := 104.

(** [ts.ss0], [ts.esp0] and [ts.iomb], the fields that the kernel writes. *)
Definition ts_kernel (ss0 esp0 iomb : Z) (t : taskstate) : taskstate :=
  Taskstate (ts_link t) esp0 ss0 (ts_esp1 t) (ts_ss1 t) (ts_esp2 t) (ts_ss2 t) (ts_cr3 t) (ts_eip t) (ts_eflags t) (ts_eax t) (ts_ecx t) (ts_edx t) (ts_ebx t)
    (ts_esp t) (ts_ebp t) (ts_esi t) (ts_edi t) (ts_es t) (ts_cs t) (ts_ss t) (ts_ds t) (ts_fs t) (ts_gs t) (ts_ldt t) (ts_t t) iomb.

Definition SEG_KCODE : nat := 1.
Definition SEG_KDATA : nat := 2.
Definition SEG_UCODE : nat := 3.
Definition SEG_UDATA : nat := 4.
Definition SEG_TSS : nat := 5.
Definition NSEGS : nat := 6.
Definition DPL_USER : Z := 3.
Definition STA_X : Z := 8.
Definition STA_W : Z := 2.
Definition STA_R : Z := 2.
Definition STS_T32A : Z := 9.
Definition selector (seg : nat) : Z := Z.shiftl (Z.of_nat seg) 3.

(** ** The processor

    [gdt] and [ts] of each [struct cpu], the table of gates, the registers of this processor that hold the places of the tables, and its flags. *)
Record mach := Mach {
  m_cpu : cpu; m_gdts : list (list segdesc); m_tss : list taskstate; m_idt : list gatedesc;
  m_gdtr : list Z; m_idtr : list Z; m_tr : Z; m_cr3 : Z; m_kpgdir : Z; m_tickslock : spinlock;
}.

Definition set_cpu c s := Mach c (m_gdts s) (m_tss s) (m_idt s) (m_gdtr s) (m_idtr s) (m_tr s) (m_cr3 s) (m_kpgdir s) (m_tickslock s).
Definition set_gdts v s := Mach (m_cpu s) v (m_tss s) (m_idt s) (m_gdtr s) (m_idtr s) (m_tr s) (m_cr3 s) (m_kpgdir s) (m_tickslock s).
Definition set_tss v s := Mach (m_cpu s) (m_gdts s) v (m_idt s) (m_gdtr s) (m_idtr s) (m_tr s) (m_cr3 s) (m_kpgdir s) (m_tickslock s).
Definition set_idt v s := Mach (m_cpu s) (m_gdts s) (m_tss s) v (m_gdtr s) (m_idtr s) (m_tr s) (m_cr3 s) (m_kpgdir s) (m_tickslock s).
Definition set_gdtr v s := Mach (m_cpu s) (m_gdts s) (m_tss s) (m_idt s) v (m_idtr s) (m_tr s) (m_cr3 s) (m_kpgdir s) (m_tickslock s).
Definition set_idtr v s := Mach (m_cpu s) (m_gdts s) (m_tss s) (m_idt s) (m_gdtr s) v (m_tr s) (m_cr3 s) (m_kpgdir s) (m_tickslock s).
Definition set_tr v s := Mach (m_cpu s) (m_gdts s) (m_tss s) (m_idt s) (m_gdtr s) (m_idtr s) v (m_cr3 s) (m_kpgdir s) (m_tickslock s).
Definition set_cr3 v s := Mach (m_cpu s) (m_gdts s) (m_tss s) (m_idt s) (m_gdtr s) (m_idtr s) (m_tr s) v (m_kpgdir s) (m_tickslock s).
Definition set_kpgdir v s := Mach (m_cpu s) (m_gdts s) (m_tss s) (m_idt s) (m_gdtr s) (m_idtr s) (m_tr s) (m_cr3 s) v (m_tickslock s).
Definition set_tickslock v s := Mach (m_cpu s) (m_gdts s) (m_tss s) (m_idt s) (m_gdtr s) (m_idtr s) (m_tr s) (m_cr3 s) (m_kpgdir s) v.

(** [pd] of [lgdt] and [lidt], three words of 16 bits. *)
Definition pseudo_desc (p size : Z) : list Z := [u16 (size - 1); u16 (u32 p); u16 (Z.shiftr (u32 p) 16)].
Definition lgdt (p size : Z) : M mach unit := modify (set_gdtr (pseudo_desc p size)).
Definition lidt (p size : Z) : M mach unit := modify (set_idtr (pseudo_desc p size)).
Definition ltr (sel : Z) : M mach unit := modify (set_tr (u16 sel)).
Definition lcr3 (val : Z) : M mach unit := modify (set_cr3 (u32 val)).

Definition gdt_set (i seg : nat) (f : segdesc -> segdesc) : M mach unit := fun s =>
  match m_gdts s !! i with
  | Some gdt => match gdt !! seg with Some d => Ok tt (set_gdts (<[i := <[seg := f d]> gdt]> (m_gdts s)) s) | None => Fault end
  | None => Fault
  end.
Definition ts_set (i : nat) (f : taskstate -> taskstate) : M mach unit := fun s =>
  match m_tss s !! i with Some t => Ok tt (set_tss (<[i := f t]> (m_tss s)) s) | None => Fault end.
Definition idt_set (n : Z) (g : gatedesc) : M mach unit := fun s =>
  if decide (0 <= n < Z.of_nat (length (m_idt s))) then Ok tt (set_idt (<[Z.to_nat n := g]> (m_idt s)) s) else Fault.

Section Seg.
Context (apicids : list Z) (hw : Z) (gdt_at ts_at : nat -> Z) (idt_at : Z) (vectors : list Z).

Definition this_cpu {A} (m : M cpu A) : M mach A := zoom m_cpu set_cpu m.
Definition cpuid : M mach nat := this_cpu (mycpu apicids hw).

Definition seginit : M mach unit :=
  c ← cpuid;
  gdt_set c SEG_KCODE (fun _ => SEG (Z.lor STA_X STA_R) 0 0xffffffff 0) ;;
  gdt_set c SEG_KDATA (fun _ => SEG STA_W 0 0xffffffff 0) ;;
  gdt_set c SEG_UCODE (fun _ => SEG (Z.lor STA_X STA_R) 0 0xffffffff DPL_USER) ;;
  gdt_set c SEG_UDATA (fun _ => SEG STA_W 0 0xffffffff DPL_USER) ;;
  lgdt (gdt_at c) (8 * Z.of_nat NSEGS).

Definition switchkvm : M mach unit := k ← gets m_kpgdir; lcr3 (V2P k).

Definition switchuvm (p : option proc) : M mach unit :=
  match p with
  | None => panic "switchuvm: no process"
  | Some p =>
      guard_ok (p_kstack p =? 0) (panic "switchuvm: no kstack") ;;
      guard_ok (p_pgdir p =? 0) (panic "switchuvm: no pgdir") ;;
      this_cpu (pushcli apicids hw) ;;
      c ← cpuid;
      gdt_set c SEG_TSS (fun _ => SEG16 STS_T32A (ts_at c) (SIZEOF_TASKSTATE - 1) 0) ;;
      gdt_set c SEG_TSS (set_s 0) ;;
      ts_set c (ts_kernel (selector SEG_KDATA) (u32 (p_kstack p + KSTACKSIZE)) 0xFFFF) ;;
      ltr (selector SEG_TSS) ;;
      lcr3 (V2P (p_pgdir p)) ;;
      this_cpu (popcli apicids hw)
  end.

Definition tvinit : M mach unit :=
  for_all (range 0 256) (fun i =>
    v ← deref (vectors !! Z.to_nat i);
    idt_set i (SETGATE false (selector SEG_KCODE) v 0)) ;;
  v ← deref (vectors !! Z.to_nat T_SYSCALL);
  idt_set T_SYSCALL (SETGATE true (selector SEG_KCODE) v DPL_USER) ;;
  modify (set_tickslock initlock).

Definition idtinit : M mach unit := lidt idt_at (8 * 256).
End Seg.

(** ** What the processor reads *)
Definition seg_base (w : Z) : Z := field 16 16 w + 65536 * field 32 8 w + 16777216 * field 56 8 w.
Definition seg_limit (w : Z) : Z := let l := field 0 16 w + 65536 * field 48 4 w in if field 55 1 w =? 1 then 4096 * l + 4095 else l.
Definition desc_type (w : Z) : Z := field 40 4 w.
Definition desc_s (w : Z) : Z := field 44 1 w.
Definition desc_dpl (w : Z) : Z := field 45 2 w.
Definition desc_p (w : Z) : Z := field 47 1 w.
Definition gate_offset (w : Z) : Z := field 0 16 w + 65536 * field 48 16 w.
Definition gate_sel (w : Z) : Z := field 16 16 w.

(** Base and limit of a table register. *)
Definition table (r : list Z) : option (Z * Z) := match r with [l; b0; b1] => Some (b0 + 65536 * b1, l) | _ => None end.

Lemma field_step w lo len v r : 0 <= w -> 0 <= lo -> 0 <= v < 2 ^ w -> field (w + lo) len (v + 2 ^ w * r) = field lo len r.
Proof.
  intros Hw Hlo Hv. pose proof (Z.pow_pos_nonneg 2 lo ltac:(lia) Hlo). unfold field. rewrite Z.pow_add_r, <- Z.div_div by lia. do 2 f_equal.
  rewrite Z.mul_comm, Z.div_add, Z.div_small by lia. done.
Qed.

Lemma field_first w v r : 0 <= w -> 0 <= v < 2 ^ w -> field 0 w (v + 2 ^ w * r) = v.
Proof.
  intros Hw Hv. unfold field. change (2 ^ 0) with 1. rewrite Z.div_1_r, Z.mul_comm, Z.mod_add by lia. by apply Z.mod_small.
Qed.

Definition fits (f : Z * Z) : Prop := 0 <= f.1 /\ 0 <= f.2 < 2 ^ f.1.
Definition width (fs : list (Z * Z)) : Z := foldr (fun (f : Z * Z) n => f.1 + n) 0 fs.

Lemma width_nonneg fs : Forall fits fs -> 0 <= width fs.
Proof. induction 1 as [|[u x] fs [Hu _] _ IH]; [done|]. cbn [width foldr fst] in *. fold (width fs). lia. Qed.

(** The field of a packed word. *)
Lemma field_pack fs w v fs' : Forall fits fs -> fits (w, v) -> field (width fs) w (pack (fs ++ (w, v) :: fs')) = v.
Proof.
  intros Hfs [Hw Hv]. induction Hfs as [|[u x] fs [Hu Hx] Hfs IH]; [by apply field_first|]. cbn [width foldr pack app fst snd] in *. fold (width fs) (pack (fs ++ (w, v) :: fs')).
  rewrite field_step; [done|done| |done]. by apply width_nonneg.
Qed.

Lemma bits_fits w z : 0 <= w -> fits (w, bits w z).
Proof. intros Hw. split; [done|]. cbn. apply Z.mod_pos_bound, Z.pow_pos_nonneg; lia. Qed.

Lemma field_nth fs i lo w v : Forall fits fs -> fs !! i = Some (w, v) -> width (take i fs) = lo -> field lo w (pack fs) = v.
Proof.
  intros Hfs Hi <-. rewrite <- (take_drop_middle fs i (w, v) Hi) at 2. apply field_pack; [by apply Forall_take|]. exact (Forall_lookup_1 _ _ _ _ Hfs Hi).
Qed.

(** Each field of a descriptor is where the processor looks for it. *)
Ltac nth_field i := apply (field_nth _ i); [repeat constructor; by apply bits_fits|reflexivity|reflexivity].

Lemma seg_fields l0 b0 b16 t s dpl p l16 avl rsv db g b24 :
  let w := seg_word (segdesc_init l0 b0 b16 t s dpl p l16 avl rsv db g b24) in
  seg_base w = bits 16 b0 + 65536 * bits 8 b16 + 16777216 * bits 8 b24 /\
  seg_limit w = (let l := bits 16 l0 + 65536 * bits 4 l16 in if bits 1 g =? 1 then 4096 * l + 4095 else l) /\
  desc_type w = bits 4 t /\ desc_s w = bits 1 s /\ desc_dpl w = bits 2 dpl /\ desc_p w = bits 1 p.
Proof.
  intros w. unfold seg_base, seg_limit, desc_type, desc_s, desc_dpl, desc_p.
  assert (field 16 16 w = bits 16 b0) as -> by nth_field 1%nat. assert (field 32 8 w = bits 8 b16) as -> by nth_field 2%nat.
  assert (field 56 8 w = bits 8 b24) as -> by nth_field 12%nat. assert (field 0 16 w = bits 16 l0) as -> by nth_field 0%nat.
  assert (field 48 4 w = bits 4 l16) as -> by nth_field 7%nat. assert (field 55 1 w = bits 1 g) as -> by nth_field 11%nat.
  split_and!; [done|done|nth_field 3%nat|nth_field 4%nat|nth_field 5%nat|nth_field 6%nat].
Qed.

Lemma set_s_init l0 b0 b16 t s dpl p l16 avl rsv db g b24 s' :
  set_s s' (segdesc_init l0 b0 b16 t s dpl p l16 avl rsv db g b24) = segdesc_init l0 b0 b16 t s' dpl p l16 avl rsv db g b24.
Proof. done. Qed.

(** A base of 32 bits put together again. *)
Lemma base_parts b : 0 <= b < 2 ^ 32 -> bits 16 (Z.land (u32 b) 0xffff) + 65536 * bits 8 (Z.land (Z.shiftr (u32 b) 16) 0xff) + 16777216 * bits 8 (Z.shiftr (u32 b) 24) = b.
Proof.
  intros Hb. rewrite u32_small by lia. change 0xffff with (Z.ones 16). change 0xff with (Z.ones 8). rewrite !Z.land_ones, !Z.shiftr_div_pow2 by lia. unfold bits.
  change (2 ^ 16) with 65536. change (2 ^ 8) with 256. change (2 ^ 24) with 16777216. elia.
Qed.

(** The processor's reading of a segment: where it is, and who may use it for what. *)
Definition segment (base limit type s dpl : Z) (d : segdesc) : Prop :=
  let w := seg_word d in seg_base w = base /\ seg_limit w = limit /\ desc_type w = type /\ desc_s w = s /\ desc_dpl w = dpl /\ desc_p w = 1.

Lemma seg_flat type dpl : 0 <= type < 16 -> 0 <= dpl < 4 -> segment 0 (2 ^ 32 - 1) type 1 dpl (SEG type 0 0xffffffff dpl).
Proof.
  intros Ht Hd. unfold segment. cbv zeta. unfold SEG. destruct (seg_fields (Z.land (Z.shiftr 0xffffffff 12) 0xffff) (Z.land (u32 0) 0xffff) (Z.land (Z.shiftr (u32 0) 16) 0xff) type 1 dpl 1
    (Z.shiftr (u32 0xffffffff) 28) 0 0 1 1 (Z.shiftr (u32 0) 24)) as (-> & -> & -> & -> & -> & ->).
  unfold bits at 7 9. rewrite !Z.mod_small by lia. by vm_compute.
Qed.

Lemma seg_tss base : 0 <= base < 2 ^ 32 -> segment base 103 9 0 0 (set_s 0 (SEG16 STS_T32A base (SIZEOF_TASKSTATE - 1) 0)).
Proof.
  intros Hb. unfold segment. cbv zeta. unfold SEG16. rewrite set_s_init.
  destruct (seg_fields (Z.land (SIZEOF_TASKSTATE - 1) 0xffff) (Z.land (u32 base) 0xffff) (Z.land (Z.shiftr (u32 base) 16) 0xff) STS_T32A 0 0 1
    (Z.shiftr (u32 (SIZEOF_TASKSTATE - 1)) 16) 0 0 1 0 (Z.shiftr (u32 base) 24)) as (-> & -> & -> & -> & -> & ->).
  split; [by apply base_parts|]. by vm_compute.
Qed.

(** The processor's reading of a gate. *)
Definition gate (istrap : bool) (sel off dpl : Z) (g : gatedesc) : Prop :=
  let w := gate_word g in
  gate_offset w = off /\ gate_sel w = sel /\ desc_type w = (if istrap then 15 else 14) /\ desc_s w = 0 /\ desc_dpl w = dpl /\ desc_p w = 1.

Lemma gate_set istrap sel off dpl : 0 <= sel < 65536 -> 0 <= off < 2 ^ 32 -> 0 <= dpl < 4 -> gate istrap sel off dpl (SETGATE istrap sel off dpl).
Proof.
  intros Hs Ho Hd. unfold gate. cbv zeta. unfold gate_offset, gate_sel, desc_type, desc_s, desc_dpl, desc_p. set (w := gate_word _).
  assert (field 0 16 w = bits 16 (Z.land (u32 off) 0xffff)) as -> by nth_field 0%nat. assert (field 48 16 w = bits 16 (Z.shiftr (u32 off) 16)) as -> by nth_field 8%nat.
  assert (field 16 16 w = bits 16 sel) as -> by nth_field 1%nat. assert (field 40 4 w = bits 4 (if istrap then STS_TG32 else STS_IG32)) as -> by nth_field 4%nat.
  assert (field 44 1 w = bits 1 0) as -> by nth_field 5%nat. assert (field 45 2 w = bits 2 dpl) as -> by nth_field 6%nat. assert (field 47 1 w = bits 1 1) as -> by nth_field 7%nat.
  split_and!; try done.
  - rewrite u32_small by lia. change 0xffff with (Z.ones 16). rewrite Z.land_ones, Z.shiftr_div_pow2 by lia. unfold bits. change (2 ^ 16) with 65536. elia.
  - unfold bits. by rewrite Z.mod_small.
  - by destruct istrap.
  - unfold bits. by rewrite Z.mod_small.
Qed.

Lemma table_pseudo p size : 0 <= p < 2 ^ 32 -> 0 < size <= 65536 -> table (pseudo_desc p size) = Some (p, size - 1).
Proof.
  intros Hp Hs. unfold table, pseudo_desc. rewrite u32_small, Z.shiftr_div_pow2 by lia. unfold u16. change (2 ^ 16) with 65536. rewrite (Z.mod_small (size - 1)) by lia. do 2 f_equal. elia.
Qed.

(** ** The tables after the start of the kernel and any number of switches *)
Section Spec.
Context (apicids : list Z) (hw : Z) (gdt_at ts_at : nat -> Z) (idt_at : Z) (vectors : list Z) (i : nat).
Context (Hcpu : list_find (eq hw) apicids = Some (i, hw)) (Hgdt_at : 0 <= gdt_at i < 2 ^ 32) (Hts_at : 0 <= ts_at i < 2 ^ 32) (Hidt_at : 0 <= idt_at < 2 ^ 32).
Context (Hvec : length vectors = 256%nat) (Hvec_ok : Forall (fun v => 0 <= v < 2 ^ 32) vectors).
Implicit Types s : mach.

Lemma wp_cpuid s Q : c_if (m_cpu s) = false -> Q i s -> wp (cpuid apicids hw) s Q.
Proof. intros Hif HQ. apply wp_zoom. unfold mycpu. apply wp_bind, wp_gets. rewrite Hif, Hcpu. apply wp_ret. by destruct s. Qed.

Lemma wp_gdt_set s seg f gdt d Q : m_gdts s !! i = Some gdt -> gdt !! seg = Some d -> Q tt (set_gdts (<[i := <[seg := f d]> gdt]> (m_gdts s)) s) -> wp (gdt_set i seg f) s Q.
Proof. intros Hg Hd HQ. unfold wp, gdt_set. by rewrite Hg, Hd. Qed.

(** The segments of the kernel and of the user. *)
Record segments (gdt : list segdesc) : Prop := {
  sg_len : length gdt = NSEGS;
  sg_kcode : exists d, gdt !! SEG_KCODE = Some d /\ segment 0 (2 ^ 32 - 1) 10 1 0 d;
  sg_kdata : exists d, gdt !! SEG_KDATA = Some d /\ segment 0 (2 ^ 32 - 1) 2 1 0 d;
  sg_ucode : exists d, gdt !! SEG_UCODE = Some d /\ segment 0 (2 ^ 32 - 1) 10 1 3 d;
  sg_udata : exists d, gdt !! SEG_UDATA = Some d /\ segment 0 (2 ^ 32 - 1) 2 1 3 d;
}.

Definition seg_ok s : Prop := table (m_gdtr s) = Some (gdt_at i, 47) /\ exists gdt, m_gdts s !! i = Some gdt /\ segments gdt.

(** The gates: software can use none but that of the system calls, and only there interrupts stay as they are. *)
Definition gates (idt : list gatedesc) : Prop :=
  length idt = 256%nat /\ forall n : nat, (n < 256)%nat -> exists g v, idt !! n = Some g /\ vectors !! n = Some v /\
    let sys := Z.of_nat n =? T_SYSCALL in gate sys (selector SEG_KCODE) v (if sys then 3 else 0) g.
Definition idt_ok s : Prop := table (m_idtr s) = Some (idt_at, 2047) /\ gates (m_idt s).

Lemma wp_seginit s gdt : c_if (m_cpu s) = false -> m_gdts s !! i = Some gdt -> length gdt = NSEGS ->
  wp (seginit apicids hw gdt_at) s (fun _ s' => seg_ok s' /\ exists gdt' r, s' = set_gdtr r (set_gdts (<[i := gdt']> (m_gdts s)) s)).
Proof.
  intros Hif Hg Hl. destruct gdt as [|d0 [|d1 [|d2 [|d3 [|d4 [|d5 [|? ?]]]]]]]; try done.
  assert (i < length (m_gdts s))%nat as Hi by (by eapply lookup_lt_Some). unfold seginit. apply wp_bind, wp_cpuid; [done|].
  assert (forall l, <[i := l]> (m_gdts s) !! i = Some l) as Hat by (intros l; by apply list_lookup_insert_eq).
  apply wp_bind. eapply wp_gdt_set; [exact Hg|done|]. apply wp_bind. eapply wp_gdt_set; [apply Hat|done|]. cbn [m_gdts set_gdts]. rewrite list_insert_insert_eq.
  apply wp_bind. eapply wp_gdt_set; [apply Hat|done|]. cbn [m_gdts set_gdts]. rewrite list_insert_insert_eq.
  apply wp_bind. eapply wp_gdt_set; [apply Hat|done|]. cbn [m_gdts set_gdts]. rewrite list_insert_insert_eq. apply wp_modify.
  split; [|by do 2 eexists]. split; [by apply table_pseudo|]. eexists. split; [apply Hat|].
  split; [done|..]; eexists; (split; [reflexivity|]); by apply seg_flat.
Qed.

Lemma wp_idt_set s n g Q : 0 <= n < Z.of_nat (length (m_idt s)) -> Q tt (set_idt (<[Z.to_nat n := g]> (m_idt s)) s) -> wp (idt_set n g) s Q.
Proof. intros Hn HQ. unfold wp, idt_set. by rewrite decide_True. Qed.

(** The gates below [k], as the loop sets them. *)
Definition gates_upto (k : nat) (idt : list gatedesc) : Prop :=
  length idt = 256%nat /\ forall n : nat, (n < k)%nat -> exists g v, idt !! n = Some g /\ vectors !! n = Some v /\ gate false (selector SEG_KCODE) v 0 g.

Lemma wp_tvinit s : length (m_idt s) = 256%nat ->
  wp (tvinit vectors) s (fun _ s' => gates (m_idt s') /\ s' = set_tickslock initlock (set_idt (m_idt s') s)).
Proof.
  intros Hl. unfold tvinit. assert (forall n, (n < 256)%nat -> exists v, vectors !! n = Some v /\ 0 <= v < 2 ^ 32) as Hv.
  { intros n Hn. destruct (lookup_lt_is_Some_2 vectors n) as [v Hv]; [lia|]. exists v. split; [done|]. exact (Forall_lookup_1 _ _ _ _ Hvec_ok Hv). }
  apply wp_bind. change 256 with (Z.of_nat 256). apply (wp_for_range _ _ (fun k s' => gates_upto k (m_idt s') /\ s' = set_idt (m_idt s') s)).
  - split; [|by destruct s]. split; [done|]. intros n Hn. lia.
  - intros k s' Hk [[Hl' Hg] He]. destruct (Hv k Hk) as (v & Hvk & Hr). rewrite Nat2Z.id. apply wp_bind. eapply wp_deref; [exact Hvk|].
    apply wp_idt_set; [lia|]. rewrite Nat2Z.id. split; [|by rewrite He]. cbn [m_idt set_idt]. split; [by rewrite length_insert|]. intros n Hn.
    destruct (decide (n = k)) as [->|Hne].
    + exists (SETGATE false (selector SEG_KCODE) v 0), v. rewrite list_lookup_insert_eq by lia. split; [done|]. split; [done|]. by apply gate_set.
    + rewrite list_lookup_insert_ne by done. apply Hg. lia.
  - intros s' [[Hl' Hg] He]. destruct (Hv 64%nat) as (v & Hvk & Hr); [lia|]. apply wp_bind. eapply wp_deref; [exact Hvk|].
    apply wp_bind, wp_idt_set; [unfold T_SYSCALL; lia|]. apply wp_modify. cbn [m_idt set_idt set_tickslock]. split; [|by rewrite He]. split; [by rewrite length_insert|].
    intros n Hn. change (Z.to_nat T_SYSCALL) with 64%nat. unfold T_SYSCALL. destruct (decide (n = 64)%nat) as [->|Hne].
    + exists (SETGATE true (selector SEG_KCODE) v DPL_USER), v. rewrite list_lookup_insert_eq by lia. split; [done|]. split; [done|]. by apply gate_set.
    + rewrite list_lookup_insert_ne by done. rewrite (proj2 (Z.eqb_neq _ _)) by lia. by apply Hg.
Qed.

(** The task state of the running process: the kernel stack that the processor changes to, and no ports for the user. *)
Definition task_ok (p : proc) s : Prop :=
  (exists gdt d, m_gdts s !! i = Some gdt /\ gdt !! SEG_TSS = Some d /\ segment (ts_at i) 103 9 0 0 d) /\ m_tr s = selector SEG_TSS /\
  (exists t, m_tss s !! i = Some t /\ ts_ss0 t = selector SEG_KDATA /\ ts_esp0 t = u32 (p_kstack p + KSTACKSIZE) /\ 103 < ts_iomb t) /\
  m_cr3 s = V2P (p_pgdir p).

(** What a switch leaves alone. *)
Definition others_keep s s' : Prop := forall j, j <> i -> m_gdts s' !! j = m_gdts s !! j /\ m_tss s' !! j = m_tss s !! j.

Lemma wp_push s Q : 0 <= c_ncli (m_cpu s) ->
  (let c := m_cpu s in Q tt (set_cpu (Cpu false (c_ncli c + 1) (if c_ncli c =? 0 then c_if c else c_intena c)) s)) -> wp (this_cpu (pushcli apicids hw)) s Q.
Proof.
  clear Hvec Hvec_ok Hgdt_at Hts_at Hidt_at. intros Hn HQ. apply wp_zoom. unfold pushcli, pushcli_with, mycpu. apply wp_bind, wp_gets, wp_bind, wp_modify, wp_bind, wp_bind, wp_gets. cbn [set_if c_if]. rewrite Hcpu.
  apply wp_ret, wp_bind, wp_gets. cbn [set_if c_ncli]. destruct (m_cpu s) as [f n e]. cbn in *. destruct (n =? 0); [apply wp_bind, wp_modify, wp_modify|apply wp_bind, wp_ret, wp_modify]; done.
Qed.

Lemma wp_pop s Q : c_if (m_cpu s) = false -> 0 < c_ncli (m_cpu s) ->
  (let c := m_cpu s in Q tt (set_cpu (Cpu ((c_ncli c =? 1) && c_intena c) (c_ncli c - 1) (c_intena c)) s)) -> wp (this_cpu (popcli apicids hw)) s Q.
Proof.
  clear Hvec Hvec_ok Hgdt_at Hts_at Hidt_at. intros Hif Hn HQ. apply wp_zoom. unfold popcli, mycpu. apply wp_bind, wp_gets. rewrite Hif. apply wp_bind, wp_ret, wp_bind, wp_bind, wp_gets. rewrite Hif, Hcpu.
  apply wp_ret, wp_bind, wp_modify, wp_bind, wp_gets. cbn [set_ncli c_ncli]. rewrite (proj2 (Z.ltb_ge _ 0)) by lia. apply wp_bind, wp_ret, wp_bind, wp_gets. cbn [set_ncli c_intena].
  destruct (m_cpu s) as [f n e]. cbn in *. subst f. replace (n - 1 =? 0) with (n =? 1) by (destruct (Z.eqb_spec n 1), (Z.eqb_spec (n - 1) 0); lia).
  destruct ((n =? 1) && e) eqn:E; [by apply wp_modify|by apply wp_ret].
Qed.

(** The state after a switch to [p], apart from the flags. *)
Definition switched p t gdt s : mach :=
  set_cr3 (V2P (p_pgdir p)) (set_tr (selector SEG_TSS) (set_tss (<[i := ts_kernel (selector SEG_KDATA) (u32 (p_kstack p + KSTACKSIZE)) 65535 t]> (m_tss s))
    (set_gdts (<[i := <[SEG_TSS := set_s 0 (SEG16 STS_T32A (ts_at i) (SIZEOF_TASKSTATE - 1) 0)]> gdt]> (m_gdts s)) s))).

Definition switch_ok p s s' : Prop :=
  seg_ok s' /\ task_ok p s' /\ m_idt s' = m_idt s /\ m_idtr s' = m_idtr s /\ length (m_tss s') = length (m_tss s) /\ others_keep s s'.

Lemma switched_ok p t gdt s c : table (m_gdtr s) = Some (gdt_at i, 47) -> m_gdts s !! i = Some gdt -> segments gdt -> (i < length (m_tss s))%nat ->
  switch_ok p s (set_cpu c (switched p t gdt s)).
Proof.
  clear Hvec Hvec_ok Hgdt_at Hidt_at. intros Htab Hg Hs Hi. assert (i < length (m_gdts s))%nat as Hig by (by eapply lookup_lt_Some). pose proof Hs as [Hlg H1 H2 H3 H4].
  unfold switched, switch_ok. set (gdt' := <[SEG_TSS := _]> gdt). split_and!; [| |done|done|by cbn; rewrite length_insert|].
  - split; [done|]. exists gdt'. split; [by apply list_lookup_insert_eq|]. unfold gdt'. split; rewrite ?length_insert, ?list_lookup_insert_ne by done; done.
  - split_and!; [|done| |done].
    + exists gdt'. eexists. split; [by apply list_lookup_insert_eq|]. split; [|by apply seg_tss]. apply list_lookup_insert_eq. rewrite Hlg. unfold SEG_TSS, NSEGS. lia.
    + eexists. split; [by apply list_lookup_insert_eq|]. done.
  - intros j Hj. cbn. by rewrite !list_lookup_insert_ne by done.
Qed.

(** Interrupts are off while a spin lock is held. *)
Definition cli_ok (c : cpu) : Prop := 0 <= c_ncli c /\ (c_ncli c <> 0 -> c_if c = false).

Lemma wp_switchuvm s p : seg_ok s -> (i < length (m_tss s))%nat -> cli_ok (m_cpu s) -> p_kstack p <> 0 -> p_pgdir p <> 0 ->
  wp (switchuvm apicids hw ts_at (Some p)) s (fun _ s' => switch_ok p s s' /\ c_if (m_cpu s') = c_if (m_cpu s) /\ c_ncli (m_cpu s') = c_ncli (m_cpu s) /\
    (c_ncli (m_cpu s) <> 0 -> c_intena (m_cpu s') = c_intena (m_cpu s))).
Proof.
  clear Hvec Hvec_ok Hgdt_at Hidt_at. intros [Htab (gdt & Hg & Hs)] Hi [Hn Hoff] Hk Hp. unfold switchuvm. rewrite (proj2 (Z.eqb_neq _ _) Hk), (proj2 (Z.eqb_neq _ _) Hp). cbn [guard_ok].
  apply wp_bind, wp_ret, wp_bind, wp_ret, wp_bind, wp_push; [done|]. apply wp_bind, wp_cpuid; [done|].
  destruct (lookup_lt_is_Some_2 gdt SEG_TSS) as [d Hd]; [rewrite (sg_len _ Hs); unfold SEG_TSS, NSEGS; lia|]. destruct (lookup_lt_is_Some_2 _ _ Hi) as [t Ht].
  apply wp_bind. eapply wp_gdt_set; [exact Hg|exact Hd|]. apply wp_bind. eapply wp_gdt_set.
  { apply list_lookup_insert_eq. by eapply lookup_lt_Some. }
  { apply list_lookup_insert_eq. by eapply lookup_lt_Some. }
  cbn [m_gdts set_gdts]. rewrite !list_insert_insert_eq. apply wp_bind. unfold wp at 1, ts_set. cbn [m_tss set_gdts set_cpu]. rewrite Ht.
  apply wp_bind, wp_modify, wp_bind, wp_modify, wp_pop; [done|cbn; lia|]. rewrite (u32_small (V2P _)) by (unfold V2P; apply u32_range).
  split; [by apply (switched_ok p t gdt s)|]. cbn. destruct (Z.eqb_spec (c_ncli (m_cpu s)) 0) as [E|E].
  - rewrite E. done.
  - rewrite (proj2 (Z.eqb_neq _ 1)) by lia. rewrite (Hoff E). split; [done|]. split; [lia|done].
Qed.

(** A switch to a process: interrupts are on or off before, and a spin lock is held, as in [scheduler], or not, as in [exec]. *)
Record switch := Switch { sw_on : bool; sw_held : bool; sw_proc : proc }.
Definition switch_to (w : switch) : M mach unit :=
  this_cpu (modify (set_if (sw_on w))) ;;
  guard_ok (sw_held w) (this_cpu (pushcli apicids hw)) ;;
  switchuvm apicids hw ts_at (Some (sw_proc w)) ;;
  guard_ok (sw_held w) (this_cpu (popcli apicids hw)).
Definition switches (ps : list switch) : M mach unit := for_all ps switch_to.

Record settled s : Prop := { se_seg : seg_ok s; se_idt : idt_ok s; se_ncli : c_ncli (m_cpu s) = 0; se_tss : (i < length (m_tss s))%nat }.

Lemma wp_switch_to w s : settled s -> p_kstack (sw_proc w) <> 0 -> p_pgdir (sw_proc w) <> 0 ->
  wp (switch_to w) s (fun _ s' => settled s' /\ others_keep s s' /\ task_ok (sw_proc w) s').
Proof.
  intros [Hseg [Hi0 Hg0] Hn Hi] Hk Hp. unfold switch_to. apply wp_bind, wp_zoom, wp_modify. set (s1 := set_cpu _ s). apply wp_bind.
  assert (forall s2 s3, m_gdts s2 = m_gdts s -> m_tss s2 = m_tss s -> m_idt s2 = m_idt s -> m_idtr s2 = m_idtr s -> switch_ok (sw_proc w) s2 s3 ->
    forall c, c_ncli c = 0 -> settled (set_cpu c s3) /\ others_keep s (set_cpu c s3) /\ task_ok (sw_proc w) (set_cpu c s3)) as Hdone.
  { intros s2 s3 E1 E2 E3 E4 (Hs3 & Ht3 & Hi3 & Hir3 & Hl3 & Ho3) c Hc. split; [split; [exact Hs3| |exact Hc|cbn; by rewrite Hl3, E2]|].
    - split; cbn; [by rewrite Hir3, E4|by rewrite Hi3, E3].
    - split; [|exact Ht3]. intros j Hj. destruct (Ho3 j Hj). cbn. by rewrite <- E1, <- E2. }
  destruct (sw_held w); cbn [guard_ok].
  - apply wp_push; [cbn; lia|]. cbn. rewrite Hn. cbn. apply wp_bind. eapply wp_mono; [apply wp_switchuvm; [exact Hseg|done|split; [done|done]|done|done]|].
    intros [] s3 (Hok & Hif & Hn3 & He). apply wp_pop; [by rewrite Hif|rewrite Hn3; cbn; lia|]. cbn. rewrite Hn3. by eapply Hdone.
  - apply wp_ret, wp_bind. eapply wp_mono; [apply wp_switchuvm; [exact Hseg|done|split; cbn; [lia|by rewrite Hn]|done|done]|].
    intros [] s3 (Hok & _ & Hn3 & _). apply wp_ret. replace s3 with (set_cpu (m_cpu s3) s3) by (by destruct s3). eapply (Hdone s1); [done..|by destruct s3|by rewrite Hn3].
Qed.

Lemma wp_switches ps : forall s, settled s -> Forall (fun w => p_kstack (sw_proc w) <> 0 /\ p_pgdir (sw_proc w) <> 0) ps ->
  wp (switches ps) s (fun _ s' => settled s' /\ others_keep s s' /\ (ps = [] -> s' = s) /\ forall w, last ps = Some w -> task_ok (sw_proc w) s').
Proof.
  induction ps as [|w ps IH]; intros s Hs Hps; [by apply wp_ret|]. apply Forall_cons in Hps as [[Hk Hp] Hps]. cbn [switches for_all].
  apply wp_bind. eapply wp_mono; [by apply wp_switch_to|]. intros [] s2 (Hs2 & Hoth & Htask). eapply wp_mono; [by apply IH|].
  intros [] s3 (Hs3 & Ho3 & Hnil & Hl3). split; [done|]. split.
  - intros j Hj. destruct (Hoth j Hj), (Ho3 j Hj). split; etransitivity; done.
  - split; [done|]. intros x Hx. destruct ps as [|q ps]; [|by apply Hl3]. injection Hx as <-. by rewrite Hnil by done.
Qed.
End Spec.

(** C18: The tables that the processor consults protect the kernel. On processor [i], after [seginit], [tvinit] and [idtinit] and any number of switches to processes,
    with interrupts on or off and a spin lock held or not: the words of the segment table, read as the processor reads them, are a code and a data segment for the
    kernel and for the user, over all addresses and of privilege 0 and 3, and the task state of this processor; every gate enters the kernel's code segment
    at the entry point of its vector, software may use the gate of the system calls and no other one, and every other gate turns interrupts off; the stack that a
    trap from user mode changes to is that of the last process switched to, whose page directory is loaded, and user code has no port.
    The tables of the other processors are left alone. *)
Theorem descriptors_protect apicids hw gdt_at ts_at idt_at vectors i s gdt ps :
  list_find (eq hw) apicids = Some (i, hw) -> 0 <= gdt_at i < 2 ^ 32 -> 0 <= ts_at i < 2 ^ 32 -> 0 <= idt_at < 2 ^ 32 ->
  length vectors = 256%nat -> Forall (fun v => 0 <= v < 2 ^ 32) vectors ->
  c_if (m_cpu s) = false -> c_ncli (m_cpu s) = 0 -> m_gdts s !! i = Some gdt -> length gdt = NSEGS -> (i < length (m_tss s))%nat -> length (m_idt s) = 256%nat ->
  Forall (fun w => p_kstack (sw_proc w) <> 0 /\ p_pgdir (sw_proc w) <> 0) ps ->
  exists s', (seginit apicids hw gdt_at ;; tvinit vectors ;; idtinit idt_at ;; switches apicids hw ts_at ps) s = Ok tt s' /\
    seg_ok gdt_at i s' /\ idt_ok idt_at vectors s' /\ others_keep i s s' /\ forall w, last ps = Some w -> task_ok ts_at i (sw_proc w) s'.
Proof.
  intros Hcpu Hg Ht Hd Hv Hvr Hif Hn Hgdt Hl Htss Hidt Hps.
  enough (wp (seginit apicids hw gdt_at ;; tvinit vectors ;; idtinit idt_at ;; switches apicids hw ts_at ps) s (fun _ s' => seg_ok gdt_at i s' /\ idt_ok idt_at vectors s' /\ others_keep i s s' /\
    forall w, last ps = Some w -> task_ok ts_at i (sw_proc w) s')) as Hw by (destruct (proj1 (wp_ok _ _ _) Hw) as ([] & s' & He & H'); by exists s').
  apply wp_bind. eapply wp_mono; [by eapply (wp_seginit _ _ _ i)|]. intros [] s1 (Hseg & gdt' & r & ->). apply wp_bind. eapply wp_mono; [by apply wp_tvinit|].
  intros [] s2 (Hga & ->). apply wp_bind, wp_modify. set (s3 := set_idtr _ _). eapply wp_mono; [eapply (wp_switches apicids hw gdt_at ts_at idt_at vectors i); try done|].
  - split; [exact Hseg| |done|done]. split; [by apply table_pseudo|done].
  - intros [] s' ([Hs' Hi' _ _] & Ho & _ & Hlast). split; [done|]. split; [done|]. split.
    + intros j Hj. destruct (Ho j Hj) as [-> ->]. cbn. by rewrite list_lookup_insert_ne.
    + exact Hlast.
Qed.

(** Two processors; the second one starts and runs two processes. *)
Definition ts_zero : taskstate := Taskstate 0 0 0 0 0 0 0 0 0 0 0 0 0 0 0 0 0 0 0 0 0 0 0 0 0 0 0.
Definition mach_bss : mach :=
  Mach (Cpu false 0 false) (replicate 2 (replicate NSEGS (segdesc_init 0 0 0 0 0 0 0 0 0 0 0 0 0))) (replicate 2 ts_zero) (replicate 256 (Gatedesc 0 0 0 0 0 0 0 0 0)) [] [] 0 0 0
    (Spinlock 0 None).
Definition switch_example : list switch :=
  [Switch true true (with_kstack 2155872256 (with_pgdir 2155876352 proc_bss)); Switch false false (with_kstack 2155880448 (with_pgdir 2155884544 proc_bss))].

Lemma descriptors_protect_witness :
  exists s', (seginit [0; 4] 4 (fun i => 2148597760 + 176 * Z.of_nat i) ;; tvinit (seqZ 2148532224 256) ;; idtinit 2148600000 ;;
      switches [0; 4] 4 (fun i => 2148597820 + 176 * Z.of_nat i) switch_example) mach_bss = Ok tt s' /\
    task_ok (fun i => 2148597820 + 176 * Z.of_nat i) 1 (with_kstack 2155880448 (with_pgdir 2155884544 proc_bss)) s'.
Proof.
  destruct (descriptors_protect [0; 4] 4 (fun i => 2148597760 + 176 * Z.of_nat i) (fun i => 2148597820 + 176 * Z.of_nat i) 2148600000 (seqZ 2148532224 256) 1 mach_bss
    (replicate NSEGS (segdesc_init 0 0 0 0 0 0 0 0 0 0 0 0 0)) switch_example) as (s' & He & _ & _ & _ & Ht);
    [reflexivity|lia|lia|lia|by rewrite length_seqZ|apply Forall_seqZ; lia|reflexivity..|cbn; lia|reflexivity|by repeat constructor|].
  exists s'. split; [exact He|]. exact (Ht (Switch false false _) eq_refl).
Defined.
