(* ===== verification/ProcSpec.v ===== *)
(** Properties of the process table: the process tree, process ids, and waiting
    for children, under every interleaving of the operations of proc.c. *)

From S2P Require Import Prelude Bytes CString Buf Memide Log Inode Xv6fs Ext2fs Vfs Kalloc Vm Pipe Kernel Sched File Proc.

(** ** What the calls below do to the process table *)

Section Frames.
Context {D : Type} `{DiskDriver D}.
Implicit Types s : kern D.

(** Nothing: the table, the current process and the globals of proc.c stay. *)
Record same_procs s s' : Prop := {
  sp_procs : k_procs s' = k_procs s;
  sp_cur : k_cur s' = k_cur s;
  sp_init : k_initproc s' = k_initproc s;
  sp_pid : k_nextpid s' = k_nextpid s;
}.
#[export] Instance same_procs_preorder : PreOrder same_procs.
Proof. split; [done|]. intros s1 s2 s3 [] []. split; congruence. Qed.

Lemma same_vm {A} (m : M vmst A) : respects same_procs (vm m).
Proof. by apply respects_zoom. Qed.
Lemma same_proc_at i : respects same_procs (proc_at i).
Proof. apply respects_read, _. Qed.
Lemma same_myproc : respects same_procs myproc.
Proof. apply respects_bind; [apply _|apply respects_gets, _|intros; apply same_proc_at]. Qed.
Lemma same_fs {A} (m : M (fsst D) A) : respects same_procs (fs m).
Proof. apply respects_bind; [apply _|apply same_myproc|]. intros p. by apply respects_zoom. Qed.
Lemma same_file_at i : respects same_procs (file_at i).
Proof. apply respects_read, _. Qed.
Lemma same_file_upd i f : respects same_procs (file_upd i f).
Proof. apply respects_bind; [apply _|apply same_file_at|]. intros x. by apply respects_modify. Qed.
Lemma same_pipe_at p : respects same_procs (pipe_at p).
Proof. apply respects_read, _. Qed.
Lemma same_pipe_set p v : respects same_procs (pipe_set p v).
Proof. by apply respects_modify. Qed.
End Frames.
#[export] Hint Resolve same_vm same_proc_at same_myproc same_fs same_file_at same_file_upd same_pipe_at same_pipe_set : frame.

(** At most wake-ups. *)
Definition wakes (p p' : proc) : Prop :=
  p_pid p' = p_pid p /\ p_parent p' = p_parent p /\ p_chan p' = p_chan p /\
  (p_state p' = p_state p \/ p_state p = SLEEPING /\ p_state p' = RUNNABLE).
#[export] Instance wakes_preorder : PreOrder wakes.
Proof.
  split; [by intros p; split_and!; auto|].
  intros p q r (? & ? & ? & Hq) (? & ? & ? & Hr). split_and!; [congruence..|].
  destruct Hq as [Hq|[]], Hr as [Hr|[]]; rewrite ?Hq in *; auto; naive_solver congruence.
Qed.

Lemma wakes_wakeup1 chan ps : Forall2 wakes ps (wakeup1 chan ps).
Proof.
  unfold wakeup1. apply Forall2_fmap_r. induction ps as [|p ps IH]; constructor; [|done].
  simpl. case_match eqn:Hb; [|done]. apply andb_true_iff in Hb as [Hb%bool_decide_eq_true _].
  split_and!; [done..|by right].
Qed.

Section Calm.
Context {D : Type} `{DiskDriver D}.
Implicit Types s : kern D.

Record calm s s' : Prop := {
  ca_procs : Forall2 wakes (k_procs s) (k_procs s');
  ca_cur : k_cur s' = k_cur s;
  ca_init : k_initproc s' = k_initproc s;
  ca_pid : k_nextpid s' = k_nextpid s;
}.
#[export] Instance calm_preorder : PreOrder calm.
Proof.
  split; [done|]. intros s1 s2 s3 [] []. split; [by etrans|congruence..].
Qed.
Lemma same_calm s s' : same_procs s s' -> calm s s'.
Proof. intros [Hp ???]. split; [by rewrite Hp|done..]. Qed.
Lemma calm_of_same {A} (m : M (kern D) A) : respects same_procs m -> respects calm m.
Proof. apply respects_mono, same_calm. Qed.

Lemma calm_wakeup1 chan : respects calm (modify (fun s => set_procs (wakeup1 chan (k_procs s)) s)).
Proof. apply respects_modify. intros s. split; [apply wakes_wakeup1|done..]. Qed.
Lemma calm_wakeup chan : respects calm (wakeup chan).
Proof. apply calm_wakeup1. Qed.
Lemma calm_proc_upd i f : (forall p, wakes p (f p)) -> respects calm (proc_upd i f).
Proof.
  intros Hf s [] s' (p & s1 & H1 & H2)%bind_inv. unfold proc_at, deref in H1.
  destruct (k_procs s !! i) as [q|] eqn:Hq; [|done]. injection H1 as -> ->. injection H2 as <-.
  split; [|done..]. simpl. rewrite <- (list_insert_id (k_procs s1) i p) at 1 by done.
  apply Forall2_insert; [done|apply Hf].
Qed.
End Calm.
#[export] Hint Resolve calm_wakeup1 calm_wakeup : frame.
#[export] Hint Extern 2 (respects calm (proc_upd _ _)) => (apply calm_proc_upd; intros; split_and!; [done..|by left]) : frame.
#[export] Hint Extern 2 (respects calm _) => (apply calm_of_same; solve [eauto with frame nocore typeclass_instances]) : frame.

Section Close.
Context {D : Type} `{DiskDriver D}.
Context (kend : Z).
Implicit Types s : kern D.

Lemma calm_close_pipe p w : respects calm (close_pipe (D:=D) kend p w).
Proof. unfold close_pipe. frame. apply respects_modify. by split. Qed.
Lemma calm_fileclose f : respects calm (fileclose (D:=D) kend f).
Proof. unfold fileclose. frame. apply calm_close_pipe. Qed.

(** *** Slot [np] only, and of its process neither the id nor the parent *)
Record slot np s s' : Prop := {
  sl_other j : j <> np -> k_procs s' !! j = k_procs s !! j;
  sl_self p : k_procs s !! np = Some p ->
    exists p', k_procs s' !! np = Some p' /\ p_pid p' = p_pid p /\ p_parent p' = p_parent p /\ p_state p' = p_state p /\
      p_killed p' = p_killed p;
  sl_cur : k_cur s' = k_cur s;
  sl_init : k_initproc s' = k_initproc s;
  sl_pid : k_nextpid s' = k_nextpid s;
}.
#[export] Instance slot_preorder np : PreOrder (slot np).
Proof.
  split; [intros s; split; eauto 10|]. intros s1 s2 s3 [O1 S1 ???] [O2 S2 ???]. split; [| |congruence..].
  - intros j Hj. by rewrite O2, O1.
  - intros p Hp. destruct (S1 p Hp) as (p' & Hp' & ? & ? & ? & ?). destruct (S2 p' Hp') as (p'' & Hp'' & ? & ? & ? & ?).
    exists p''. split_and!; [done|congruence..].
Qed.
Lemma slot_of_same np {A} (m : M (kern D) A) : respects same_procs m -> respects (slot np) m.
Proof. apply respects_mono. intros s s' [Hp ???]. split; [by rewrite Hp| |done..]. rewrite Hp. eauto 10. Qed.
Lemma slot_proc_upd np f :
  (forall p, p_pid (f p) = p_pid p /\ p_parent (f p) = p_parent p /\ p_state (f p) = p_state p /\ p_killed (f p) = p_killed p) ->
  respects (slot np) (proc_upd (D:=D) np f).
Proof.
  intros Hf s [] s' (p & s1 & H1 & H2)%bind_inv. unfold proc_at, deref in H1.
  destruct (k_procs s !! np) as [q|] eqn:Hq; [|done]. injection H1 as -> ->. injection H2 as <-.
  split; simpl; [| |done..].
  - intros j Hj. by rewrite list_lookup_insert_ne.
  - intros p' Hp'. assert (p' = p) as -> by congruence. exists (f p).
    rewrite list_lookup_insert_eq by (by eapply lookup_lt_Some). destruct (Hf p) as (? & ? & ? & ?). by split_and!.
Qed.
End Close.
#[export] Hint Extern 2 (respects (slot _) _) => (apply slot_of_same; solve [eauto with frame nocore typeclass_instances]) : frame.
#[export] Hint Extern 2 (respects (slot _) (proc_upd _ _)) => (apply slot_proc_upd; by intros) : frame.

Section Effects.
Context {D : Type} `{DiskDriver D}.
Context (kend kdata : Z).
Implicit Types s : kern D.

Lemma wlp_proc_at i s (Q : proc -> kern D -> Prop) :
  (forall p, k_procs s !! i = Some p -> Q p s) -> wlp (proc_at i) s Q.
Proof. intros HQ p s'. unfold proc_at, deref. destruct (k_procs s !! i); [|done]. intros [= <- <-]. by apply HQ. Qed.

Lemma wp_proc_upd i f s p (Q : unit -> kern D -> Prop) :
  k_procs s !! i = Some p -> Q tt (set_procs (<[i := f p]> (k_procs s)) s) -> wp (proc_upd i f) s Q.
Proof. intros Hp HQ. eapply wp_bind, wp_eq; [unfold proc_at; by rewrite Hp|]. by apply wp_modify. Qed.

Lemma wlp_proc_upd i f s (Q : unit -> kern D -> Prop) :
  (forall p, k_procs s !! i = Some p -> Q tt (set_procs (<[i := f p]> (k_procs s)) s)) -> wlp (proc_upd i f) s Q.
Proof. intros HQ. apply wlp_bind, wlp_proc_at. intros p Hp. by apply wlp_modify, HQ. Qed.

(** Slot [i] has changed, from [p] to [p']; and [n] process ids have been used. *)
Record changed s s' (i : nat) (p p' : proc) (n : Z) : Prop := {
  ch_old : k_procs s !! i = Some p;
  ch_new : k_procs s' !! i = Some p';
  ch_other j : j <> i -> k_procs s' !! j = k_procs s !! j;
  ch_cur : k_cur s' = k_cur s;
  ch_init : k_initproc s' = k_initproc s;
  ch_pid : k_nextpid s' = n;
}.

Lemma changed_slot s s1 s2 i p p1 n :
  changed s s1 i p p1 n -> slot i s1 s2 ->
  exists p2, changed s s2 i p p2 n /\ p_pid p2 = p_pid p1 /\ p_parent p2 = p_parent p1 /\ p_state p2 = p_state p1 /\
    p_killed p2 = p_killed p1.
Proof.
  intros [Ho Hn Hr ???] [Hr' Hs ???]. destruct (Hs p1 Hn) as (p2 & Hp2 & ? & ? & ? & ?).
  exists p2. split_and!; [|done..]. split; [done|done| |congruence..]. intros j Hj. by rewrite Hr', Hr.
Qed.

Lemma changed_upd s s1 i p p1 n f :
  changed s s1 i p p1 n -> changed s (set_procs (<[i := f p1]> (k_procs s1)) s1) i p (f p1) n.
Proof.
  intros [Ho Hn Hr ???]. split; simpl; [done| | |done..].
  - apply list_lookup_insert_eq. by eapply lookup_lt_Some.
  - intros j Hj. rewrite list_lookup_insert_ne by done. by apply Hr.
Qed.

(** A further update of a slot that is being set up. *)
Lemma wlp_changed_upd s s1 i p p1 n f (Q : unit -> kern D -> Prop) :
  changed s s1 i p p1 n -> (forall s2, changed s s2 i p (f p1) n -> Q tt s2) -> wlp (proc_upd i f) s1 Q.
Proof.
  intros Hc HQ. apply wlp_proc_upd. intros p2 Hp2. rewrite (ch_new _ _ _ _ _ _ Hc) in Hp2.
  injection Hp2 as <-. by apply HQ, changed_upd.
Qed.

Lemma wlp_changed {A} s s1 i p p1 n (m : M (kern D) A) (Q : A -> kern D -> Prop) :
  changed s s1 i p p1 n -> respects (slot i) m ->
  (forall a s2 p2, changed s s2 i p p2 n -> p_pid p2 = p_pid p1 -> p_parent p2 = p_parent p1 ->
     p_state p2 = p_state p1 -> p_killed p2 = p_killed p1 -> Q a s2) ->
  wlp m s1 Q.
Proof.
  intros Hc Hm HQ. eapply wlp_respects; [done|]. intros a s2 Hs.
  destruct (changed_slot _ _ _ _ _ _ _ Hc Hs) as (p2 & Hc2 & ? & ? & ? & ?). by eapply HQ.
Qed.

End Effects.

(** The next call, and the next assignment, on a slot that is being set up. *)
Ltac step_call :=
  lazymatch goal with
  | Hc : changed _ ?s1 _ _ _ _ |- wlp _ ?s1 _ =>
      eapply wlp_bind, (wlp_changed _ _ _ _ _ _ _ _ Hc); [solve [frame]|]; intros ? ? ? ? ? ? ? ?
  end.
Ltac step_upd :=
  lazymatch goal with
  | Hc : changed _ ?s1 _ _ _ _ |- wlp _ ?s1 _ => eapply wlp_bind, wlp_changed_upd; [exact Hc|]; intros ? ?
  end.
Ltac step_read :=
  lazymatch goal with
  | Hc : changed _ ?s1 _ _ _ _ |- wlp _ ?s1 _ =>
      apply wlp_bind, wlp_proc_at; let q := fresh "q" in let Hq := fresh "Hq" in
      intros q Hq; rewrite (ch_new _ _ _ _ _ _ Hc) in Hq; injection Hq as <-
  end.
Ltac set_up :=
  lazymatch goal with
  | Hc : changed _ ?s1 _ _ _ _ |- context [?s1] => eexists _, _, _; split; [exact Hc|]; simpl in *
  end.

Section Fork.
Context {D : Type} `{DiskDriver D}.
Context (kend kdata : Z).
Implicit Types s : kern D.

Definition next_id s : Z := s32 (k_nextpid s + 1).

Lemma wlp_allocproc s :
  wlp allocproc s (fun r s' =>
    match r with
    | None => same_procs s s' \/ exists i p p', changed s s' i p p' (next_id s) /\ p_state p = UNUSED /\
                p_state p' = UNUSED /\ p_parent p' = p_parent p
    | Some i => exists p p', changed s s' i p p' (next_id s) /\ p_state p = UNUSED /\
                p_state p' = EMBRYO /\ p_parent p' = p_parent p /\ p_pid p' = k_nextpid s /\
                list_find free_proc (k_procs s) = Some (i, p) /\ p_killed p' = p_killed p
    end).
Proof.
  apply wlp_bind, wlp_gets. destruct (list_find free_proc (k_procs s)) as [[i p]|] eqn:Hf; [|by apply wlp_ret; left].
  pose proof Hf as (Hi & Hp & _)%list_find_Some.
  apply wlp_bind, wlp_proc_upd. intros q Hq. assert (q = p) as -> by congruence.
  apply wlp_bind, wlp_gets. apply wlp_bind, wlp_modify.
  match goal with |- wlp _ ?s1 _ => assert (changed s s1 i p (with_state EMBRYO p) (next_id s)) as Hc end.
  { split; simpl; [done| | |done..].
    - apply list_lookup_insert_eq. by eapply lookup_lt_Some.
    - intros j Hj. by rewrite list_lookup_insert_ne. }
  simpl k_nextpid. step_upd. step_call. step_upd. case_match.
  - step_upd. apply wlp_ret. right. set_up. split_and!; congruence.
  - step_call. step_upd. apply wlp_ret. eexists.
    lazymatch goal with Hc : changed _ ?s1 _ _ _ _ |- context [?s1] => eexists; split; [exact Hc|]; simpl in * end.
    split_and!; congruence.
Qed.

Lemma slot_set_name i name : respects (slot i) (set_name (D:=D) i name).
Proof. unfold set_name. frame. Qed.
Lemma slot_filedup i f : respects (slot i) (filedup (D:=D) f).
Proof. unfold filedup. frame. Qed.

Hint Resolve slot_set_name slot_filedup : frame.

(** [fork] sets up one free slot, or gives it back. *)
Lemma wlp_fork s :
  wlp (fork kend kdata) s (fun r s' =>
    r = -1 /\ same_procs s s' \/ exists i p p', changed s s' i p p' (next_id s) /\ p_state p = UNUSED /\
      (r = -1 /\ p_state p' = UNUSED /\ p_parent p' = p_parent p \/
       p_state p' = RUNNABLE /\ p_parent p' = Some (k_cur s) /\ p_pid p' = k_nextpid s /\ r = k_nextpid s /\
       list_find free_proc (k_procs s) = Some (i, p) /\ p_killed p' = p_killed p)).
Proof.
  apply wlp_bind, wlp_gets. apply wlp_bind. eapply wlp_mono; [apply wlp_allocproc|].
  intros [i|] s1; cbn beta iota; [|intros [Hs|(i & p & p' & Hc & Hp & Hp' & Hpar)]; apply wlp_ret; [by left|];
    right; exists i, p, p'; auto 10].
  intros (p & p1 & Hc1 & Hp & Hst1 & Hpar1 & Hid1 & Hfst & Hkil1).
  step_call. step_call. step_upd. case_match.
  - step_call. step_call. step_upd. step_upd. apply wlp_ret. right. set_up. split; [done|]. left. split_and!; congruence.
  - step_upd. step_upd. step_upd. step_call. step_call. step_call. step_upd. step_call. step_read. step_upd.
    apply wlp_ret. right. set_up. split; [done|]. right. split_and!; congruence.
Qed.
End Fork.

(** ** Exit *)

(** A later table, and how each of its slots came about. *)
Definition evolves (E : nat -> proc -> proc -> Prop) (ps ps' : list proc) : Prop :=
  length ps' = length ps /\ forall j p p', ps !! j = Some p -> ps' !! j = Some p' -> E j p p'.

Lemma evolves_wakes ps ps' : Forall2 wakes ps ps' -> evolves (fun _ => wakes) ps ps'.
Proof. intros HF. split; [symmetry; by eapply Forall2_length|]. intros j p p' Hp Hp'. by eapply Forall2_lookup_lr. Qed.

Lemma evolves_trans E1 E2 E ps ps1 ps2 :
  evolves E1 ps ps1 -> evolves E2 ps1 ps2 ->
  (forall j p p1 p2, ps !! j = Some p -> ps1 !! j = Some p1 -> E1 j p p1 -> E2 j p1 p2 -> E j p p2) ->
  evolves E ps ps2.
Proof.
  intros [L1 H1] [L2 H2] HE. split; [congruence|]. intros j p p2 Hp Hp2.
  assert (is_Some (ps1 !! j)) as [p1 Hp1].
  { apply lookup_lt_is_Some. apply lookup_lt_Some in Hp. lia. }
  eapply HE; eauto.
Qed.

Lemma evolves_insert (E : nat -> proc -> proc -> Prop) ps i q q' :
  ps !! i = Some q -> E i q q' -> (forall j p, E j p p) -> evolves E ps (<[i := q']> ps).
Proof.
  intros Hq HE Hrefl. split; [by rewrite length_insert|]. intros j p p' Hp Hp'.
  destruct (decide (i = j)) as [->|Hne].
  - rewrite list_lookup_insert_eq in Hp' by (by eapply lookup_lt_Some). congruence.
  - rewrite list_lookup_insert_ne in Hp' by done. assert (p' = p) as -> by congruence. apply Hrefl.
Qed.

(** Sleepers on [chan] do not survive [wakeup1 chan]. *)
Lemma wakeup1_awake chan ps j p : wakeup1 chan ps !! j = Some p -> p_state p = SLEEPING -> p_chan p <> chan.
Proof.
  unfold wakeup1. rewrite list_lookup_fmap. intros Hp Hs Hc. destruct (ps !! j) as [q|]; [|done].
  injection Hp as Hp. case_match eqn:Hb; subst p; [done|].
  rewrite !bool_decide_true in Hb; done.
Qed.

(** What the loop over the children of [cur] does from slot [i] on. *)
Definition inherits (cur : nat) (init : option nat) (i : nat) (ps : list proc) (j : nat) (p p' : proc) : Prop :=
  p_pid p' = p_pid p /\ p_chan p' = p_chan p /\
  p_parent p' = (if decide (is_child cur p /\ (i <= j)%nat) then init else p_parent p) /\
  (p_state p' = p_state p \/ p_state p = SLEEPING /\ p_state p' = RUNNABLE) /\
  (p_state p' = SLEEPING -> p_chan p' = ChProc <$> init ->
   forall k q, (i <= k)%nat -> ps !! k = Some q -> ~ zombie_child cur q).

Definition abandon1 (i cur : nat) (init : option nat) (p : proc) (ps : list proc) : list proc :=
  if decide (is_child cur p) then
    let ps := <[i := with_parent init p]> ps in
    if decide (p_state p = ZOMBIE) then wakeup1 (ChProc <$> init) ps else ps
  else ps.

(** One round: slot [i] is passed on; others at most wake up. *)
Lemma abandon1_evolves i cur init p ps :
  ps !! i = Some p ->
  evolves (fun j q q' =>
    p_pid q' = p_pid q /\ p_chan q' = p_chan q /\
    p_parent q' = (if decide (is_child cur q /\ j = i) then init else p_parent q) /\
    (p_state q' = p_state q \/ p_state q = SLEEPING /\ p_state q' = RUNNABLE) /\
    (p_state q' = SLEEPING -> p_chan q' = ChProc <$> init -> ~ zombie_child cur p)) ps (abandon1 i cur init p ps).
Proof.
  intros Hp. unfold abandon1. destruct (decide (is_child cur p)) as [Hc|Hc].
  2: { split; [done|]. intros j q q' Hq Hq'. assert (q' = q) as -> by congruence.
       split_and!; [done|done| |by left|]; [|by intros _ _ [? _]].
       rewrite decide_False; [done|]. intros [? ->]. congruence. }
  assert (evolves (fun j q q' => p_pid q' = p_pid q /\ p_chan q' = p_chan q /\
    p_parent q' = (if decide (is_child cur q /\ j = i) then init else p_parent q) /\ p_state q' = p_state q)
    ps (<[i := with_parent init p]> ps)) as H1.
  { split; [by rewrite length_insert|]. intros j q q' Hq Hq'. destruct (decide (i = j)) as [->|Hne].
    - rewrite list_lookup_insert_eq in Hq' by (by eapply lookup_lt_Some). simplify_eq.
      by rewrite decide_True.
    - rewrite list_lookup_insert_ne in Hq' by done. simplify_eq. rewrite decide_False by naive_solver. done. }
  simpl. destruct (decide (p_state p = ZOMBIE)) as [Hz|Hz].
  - destruct (evolves_wakes _ _ (wakes_wakeup1 (ChProc <$> init) (<[i:=with_parent init p]> ps))) as [Hl Hw].
    split; [destruct H1; congruence|]. intros j q q' Hq Hq'.
    assert (is_Some (<[i:=with_parent init p]> ps !! j)) as [q1 Hq1].
    { apply lookup_lt_is_Some. rewrite length_insert. by eapply lookup_lt_Some. }
    destruct H1 as [_ H1]. destruct (H1 _ _ _ Hq Hq1) as (? & ? & ? & Hs1). destruct (Hw _ _ _ Hq1 Hq') as (? & ? & ? & Hs).
    split_and!; [congruence|congruence|congruence|destruct Hs; [left|right]; intuition congruence|].
    intros Hsl Hch. by destruct (wakeup1_awake _ _ _ _ Hq' Hsl).
  - destruct H1 as [Hl H1]. split; [done|]. intros j q q' Hq Hq'.
    destruct (H1 _ _ _ Hq Hq') as (? & ? & ? & ?). split_and!; [done|done|done|by left|]. by intros _ _ [_ ?].
Qed.

Lemma abandon_evolves fuel i cur init ps :
  (length ps <= i + fuel)%nat -> evolves (inherits cur init i ps) ps (abandon fuel i cur init ps).
Proof.
  revert i ps. induction fuel as [|fuel IH]; intros i ps Hlen.
  - split; [done|]. intros j p p' Hp Hp'. assert (p' = p) as -> by (simpl in Hp'; congruence).
    pose proof (lookup_lt_Some _ _ _ Hp). split_and!; [done|done| |by left|].
    + rewrite decide_False; [done|lia].
    + intros _ _ k q Hk Hq. apply lookup_lt_Some in Hq. lia.
  - simpl. destruct (ps !! i) as [p|] eqn:Hp.
    2: { apply lookup_ge_None in Hp. split; [done|]. intros j q q' Hq Hq'. assert (q' = q) as -> by congruence.
         pose proof (lookup_lt_Some _ _ _ Hq). split_and!; [done|done| |by left|].
         + rewrite decide_False; [done|lia].
         + intros _ _ k r Hk Hr. apply lookup_lt_Some in Hr. lia. }
    change (evolves (inherits cur init i ps) ps (abandon fuel (S i) cur init (abandon1 i cur init p ps))).
    pose proof (abandon1_evolves i cur init p ps Hp) as H1.
    eapply (evolves_trans _ _ _ _ _ _ H1); [apply IH; destruct H1; lia|].
    intros j q q1 q2 Hq Hq1 (Hid1 & Hch1 & Hpar1 & Hst1 & Hz1) (Hid2 & Hch2 & Hpar2 & Hst2 & Hz2).
    split_and!; [congruence|congruence| | |].
    + rewrite Hpar2. unfold is_child in *. repeat case_decide; try done; try (rewrite Hpar1 in *); intuition (try lia; try congruence).
    + destruct Hst1 as [Hst1|[]], Hst2 as [Hst2|[]]; naive_solver congruence.
    + intros Hsl Hch k r Hk Hr Hzc.
      destruct (decide (k = i)) as [->|Hne].
      * assert (r = p) as -> by congruence. apply Hz1; [|congruence|done].
        destruct Hst2 as [Hst2|[]]; congruence.
      * destruct (lookup_lt_is_Some_2 (abandon1 i cur init p ps) k) as [r1 Hr1].
        { destruct H1 as [-> _]. by eapply lookup_lt_Some. }
        destruct H1 as [_ H1]. destruct (H1 _ _ _ Hr Hr1) as (_ & _ & Hpar & Hst & _).
        apply (Hz2 Hsl Hch k r1); [lia|done|]. destruct Hzc as [Hc Hz]. split; [|destruct Hst as [Hst|[]]; congruence].
        unfold is_child in *. rewrite Hpar, decide_False by naive_solver. done.
Qed.
#[local] Opaque abandon.

Section Tree.
Context {D : Type} `{DiskDriver D}.
Context (kend kdata : Z).
Implicit Types s : kern D.

Definition alive (p : proc) : Prop := p_state p = SLEEPING \/ p_state p = RUNNABLE \/ p_state p = RUNNING.
Definition used (p : proc) : Prop := p_state p <> UNUSED.

(** The process tree. [init] lives and has no parent; a parent lives, and is not
    its own child; every process but [init] has one. Process ids are distinct. A
    process asleep in [wait] has no child to collect. *)
Record pinv s : Prop := {
  pi_init : exists i p, k_initproc s = Some i /\ k_procs s !! i = Some p /\ alive p /\ p_parent p = None;
  pi_parent i p j : k_procs s !! i = Some p -> p_parent p = Some j ->
    i <> j /\ exists q, k_procs s !! j = Some q /\ alive q;
  pi_orphan i p : k_procs s !! i = Some p -> used p -> p_parent p = None -> k_initproc s = Some i;
  pi_unused i p : k_procs s !! i = Some p -> p_state p = UNUSED -> p_parent p = None;
  pi_embryo i p : k_procs s !! i = Some p -> p_state p <> EMBRYO;
  pi_pids i p : k_procs s !! i = Some p -> used p -> 0 < p_pid p < k_nextpid s;
  pi_unique i j p q : k_procs s !! i = Some p -> k_procs s !! j = Some q -> used p -> used q ->
    p_pid p = p_pid q -> i = j;
  pi_wait i p j : k_procs s !! i = Some p -> p_state p = SLEEPING -> p_chan p = Some (ChProc j) ->
    i = j /\ forall k q, k_procs s !! k = Some q -> ~ zombie_child j q;
}.

(** What [exit] of the process in slot [cur], with parent [par], does to a slot. *)
Definition exits (cur : nat) (par init : option nat) (ps : list proc) (j : nat) (p p' : proc) : Prop :=
  p_pid p' = p_pid p /\ p_chan p' = p_chan p /\
  p_parent p' = (if decide (is_child cur p) then init else p_parent p) /\
  (if decide (j = cur) then p_state p' = ZOMBIE
   else p_state p' = p_state p \/ p_state p = SLEEPING /\ p_state p' = RUNNABLE) /\
  (p_state p' = SLEEPING -> p_chan p' <> ChProc <$> par /\
     (p_chan p' = ChProc <$> init -> forall k q, ps !! k = Some q -> ~ zombie_child cur q)).

(** The last part of [exit], from a table [ps1] in which some have woken up. *)
Lemma exit_table cur init ps ps1 p p8 :
  (length ps <= NPROC)%nat -> Forall2 wakes ps ps1 -> ps1 !! cur = Some p ->
  abandon NPROC 0 cur init (wakeup1 (ChProc <$> p_parent p) ps1) !! cur = Some p8 ->
  evolves (exits cur (p_parent p) init ps) ps
    (<[cur := with_state ZOMBIE p8]> (abandon NPROC 0 cur init (wakeup1 (ChProc <$> p_parent p) ps1))).
Proof.
  intros Hlen HF Hp Hp8. pose proof (wakes_wakeup1 (ChProc <$> p_parent p) ps1) as HF2.
  set (ps2 := wakeup1 (ChProc <$> p_parent p) ps1) in *.
  assert (evolves (inherits cur init 0 ps2) ps2 (abandon NPROC 0 cur init ps2)) as Ha.
  { apply abandon_evolves. apply Forall2_length in HF, HF2. unfold NPROC in *. lia. }
  set (ps3 := abandon NPROC 0 cur init ps2) in *. clearbody ps3.
  assert (evolves (fun _ => wakes) ps ps2) as H2 by (apply evolves_wakes; by etrans).
  assert (forall j q, ps2 !! j = Some q -> p_state q = SLEEPING -> p_chan q <> ChProc <$> p_parent p) as Haw by (intros; by eapply wakeup1_awake).
  clearbody ps2. split; [destruct H2, Ha; rewrite length_insert; congruence|].
  intros j q q' Hq Hq'. destruct (lookup_lt_is_Some_2 ps2 j) as [q2 Hq2].
  { destruct H2 as [-> _]. by eapply lookup_lt_Some. }
  destruct (lookup_lt_is_Some_2 ps3 j) as [q3 Hq3].
  { destruct Ha as [-> _]. by eapply lookup_lt_Some. }
  destruct H2 as [L2 H2]. destruct (H2 _ _ _ Hq Hq2) as (Ei & Ep & Ec & Es).
  destruct Ha as [_ Ha]. destruct (Ha _ _ _ Hq2 Hq3) as (Ei3 & Ec3 & Ep3 & Es3 & Ez3).
  assert (q' = if decide (j = cur) then with_state ZOMBIE q3 else q3) as ->.
  { destruct (decide (j = cur)) as [->|Hj]; [rewrite list_lookup_insert_eq in Hq' by (by eapply lookup_lt_Some)|
      rewrite list_lookup_insert_ne in Hq' by done]; congruence. }
  assert (p_parent q3 = if decide (is_child cur q) then init else p_parent q) as Epar.
  { rewrite Ep3, Ep. clear -Ep. unfold is_child in *. destruct (decide (p_parent q = Some cur)).
    - rewrite decide_True; [done|]. split; [congruence|lia].
    - rewrite decide_False; [done|]. intros [? _]. congruence. }
  assert (p_state q3 = p_state q \/ p_state q = SLEEPING /\ p_state q3 = RUNNABLE) as Est.
  { destruct Es as [Es|[]], Es3 as [Es3|[]]; intuition congruence. }
  clear Ep3. unfold exits. destruct (decide (j = cur)) as [->|Hj].
  { split_and!; [simpl; congruence..|done]. }
  split_and!; [congruence|congruence|done|done|]. intros Hsl. split.
  - rewrite Ec3. apply (Haw j); [done|]. destruct Es3 as [Es3|[]]; congruence.
  - intros Hch k r Hr [Hc Hz]. destruct (lookup_lt_is_Some_2 ps2 k) as [r2 Hr2].
    { rewrite L2. by eapply lookup_lt_Some. }
    destruct (H2 _ _ _ Hr Hr2) as (_ & Rp & _ & Rs). apply (Ez3 Hsl Hch k r2); [lia|done|].
    split; [unfold is_child in *; congruence|destruct Rs as [|[]]; congruence].
Qed.

Lemma wlp_exit s :
  (length (k_procs s) <= NPROC)%nat ->
  wlp (exit kend) s (fun _ s' => exists p, k_procs s !! k_cur s = Some p /\ k_initproc s <> Some (k_cur s) /\
    evolves (exits (k_cur s) (p_parent p) (k_initproc s) (k_procs s)) (k_procs s) (k_procs s') /\
    k_initproc s' = k_initproc s /\ k_nextpid s' = k_nextpid s).
Proof.
  intros Hlen. apply wlp_bind, wlp_gets, wlp_bind, wlp_gets, wlp_bind, wlp_guard; [intros; apply wlp_panic|].
  intros Hni%bool_decide_eq_false. apply wlp_bind.
  eapply (wlp_respects calm); [frame; apply calm_fileclose|]. intros [] s1 C1.
  apply wlp_bind. eapply (wlp_respects calm); [frame|]. intros [] s2 C2.
  apply wlp_bind. eapply (wlp_respects calm); [frame|]. intros p2 s3 C3.
  apply wlp_bind. eapply (wlp_respects calm); [frame|]. intros cwd s4 C4.
  apply wlp_bind. eapply (wlp_respects calm); [frame|]. intros [] s5 C5.
  apply wlp_bind. eapply (wlp_respects calm); [frame|]. intros [] s6 C6.
  apply wlp_bind. eapply (wlp_respects calm); [frame|]. intros [] s7 C7.
  assert (calm s s7) as C by (repeat (etrans; [|eassumption]); done). clear C1 C2 C3 C4 C5 C6 C7.
  apply wlp_bind, wlp_proc_at. intros p7 Hp7. apply wlp_bind, wlp_modify, wlp_bind, wlp_modify.
  apply wlp_proc_upd. intros p8 Hp8. destruct C as [HF Hcur Hin Hnx].
  destruct (evolves_wakes _ _ HF) as [HL HE]. destruct (lookup_lt_is_Some_2 (k_procs s) (k_cur s)) as [p Hp].
  { rewrite <- HL. exact (lookup_lt_Some _ _ _ Hp7). }
  destruct (HE _ _ _ Hp Hp7) as (_ & Hpar & _). exists p. split; [exact Hp|]. split; [exact Hni|].
  split; [|split; [exact Hin|exact Hnx]]. rewrite <- Hpar. exact (exit_table _ _ _ _ _ _ Hlen HF Hp7 Hp8).
Qed.

(** ** The invariant under each kind of change *)

Lemma changed_inv s s' i p p' n j q :
  changed s s' i p p' n -> k_procs s' !! j = Some q -> (j = i /\ q = p') \/ (j <> i /\ k_procs s !! j = Some q).
Proof.
  intros [_ Hn Ho _ _ _] Hq. destruct (decide (j = i)) as [->|Hne]; [left; split; congruence|right].
  split; [done|]. by rewrite <- Ho.
Qed.

(** A live process stays in its slot of the tree. *)
Lemma pinv_stays s s' i p p' :
  changed s s' i p p' (k_nextpid s) -> pinv s -> alive p -> alive p' ->
  p_pid p' = p_pid p -> p_parent p' = p_parent p ->
  (forall j, p_state p' = SLEEPING -> p_chan p' = Some (ChProc j) ->
     i = j /\ forall k q, k_procs s !! k = Some q -> ~ zombie_child j q) ->
  pinv s'.
Proof.
  intros Hc Hi Ha Ha' Hid Hpar Hw.
  assert (used p) as Hu by (unfold used, alive in *; naive_solver congruence).
  assert (forall j q, k_procs s !! j = Some q -> alive q -> exists q', k_procs s' !! j = Some q' /\ alive q') as Hal.
  { intros j q Hq Hq'. destruct (decide (j = i)) as [->|]; [by exists p'; split; [apply Hc|]|].
    exists q. split; [|done]. by rewrite (ch_other _ _ _ _ _ _ Hc). }
  assert (forall k q j, k_procs s' !! k = Some q -> zombie_child j q -> k_procs s !! k = Some q) as Hz.
  { intros k q j Hq [_ Hz]. destruct (changed_inv _ _ _ _ _ _ _ _ Hc Hq) as [[-> ->]|[_ ?]]; [|done].
    exfalso. unfold alive in Ha'. naive_solver congruence. }
  pose proof (ch_old _ _ _ _ _ _ Hc) as Hold.
  split.
  - destruct (pi_init _ Hi) as (k & q & Hk & Hq & Hqa & Hqp). rewrite (ch_init _ _ _ _ _ _ Hc).
    destruct (decide (k = i)) as [->|].
    + exists i, p'. split_and!; [done|apply Hc|done|congruence].
    + exists k, q. rewrite (ch_other _ _ _ _ _ _ Hc) by done. auto.
  - intros k q j Hq Hqj. destruct (changed_inv _ _ _ _ _ _ _ _ Hc Hq) as [[-> ->]|[_ Hq']].
    + destruct (pi_parent _ Hi i p j) as (? & r & ? & ?); [done|congruence|]. eauto.
    + destruct (pi_parent _ Hi k q j) as (? & r & ? & ?); [done..|]. eauto.
  - intros k q Hq Hqu Hqp. rewrite (ch_init _ _ _ _ _ _ Hc).
    destruct (changed_inv _ _ _ _ _ _ _ _ Hc Hq) as [[-> ->]|[_ Hq']]; [|by apply (pi_orphan _ Hi k q)].
    apply (pi_orphan _ Hi i p); [done|done|congruence].
  - intros k q Hq Hqs. destruct (changed_inv _ _ _ _ _ _ _ _ Hc Hq) as [[-> ->]|[_ Hq']]; [|by apply (pi_unused _ Hi k)].
    exfalso. unfold alive in Ha'. naive_solver congruence.
  - intros k q Hq. destruct (changed_inv _ _ _ _ _ _ _ _ Hc Hq) as [[-> ->]|[_ Hq']]; [|by apply (pi_embryo _ Hi k)].
    unfold alive in Ha'. naive_solver congruence.
  - intros k q Hq Hqu. rewrite (ch_pid _ _ _ _ _ _ Hc).
    destruct (changed_inv _ _ _ _ _ _ _ _ Hc Hq) as [[-> ->]|[_ Hq']]; [|by apply (pi_pids _ Hi k)].
    rewrite Hid. by apply (pi_pids _ Hi i).
  - intros k l q r Hq Hr Hqu Hru He.
    destruct (changed_inv _ _ _ _ _ _ _ _ Hc Hq) as [[-> ->]|[_ Hq']], (changed_inv _ _ _ _ _ _ _ _ Hc Hr) as [[-> ->]|[_ Hr']];
      [done|eapply (pi_unique _ Hi); eauto; congruence..].
  - intros k q j Hq Hqs Hqc. destruct (changed_inv _ _ _ _ _ _ _ _ Hc Hq) as [[-> ->]|[_ Hq']].
    + destruct (Hw j Hqs Hqc) as [-> Hnz]. split; [done|]. intros k q Hk Hkz. eapply (Hnz k); eauto.
    + destruct (pi_wait _ Hi k q j) as [-> Hnz]; [done..|]. split; [done|]. intros l r Hr Hrz. eapply (Hnz l); eauto.
Qed.

(** The slots of [s'], each the changed one or one of [s]. *)
Ltac look Hc :=
  repeat match goal with
  | Hq : k_procs ?s' !! _ = Some _, H : changed _ ?s' _ _ _ _ |- _ =>
      destruct (changed_inv _ _ _ _ _ _ _ _ H Hq) as [[? ?]|[? ?]]; clear Hq; [subst|]
  end.

(** A slot outside of the tree: free before, free or a new leaf afterwards; or a
    dead leaf that is taken away. *)
Lemma pinv_leaf s s' i p p' n :
  changed s s' i p p' n -> pinv s -> ~ alive p -> k_nextpid s <= n ->
  p_state p' = UNUSED /\ p_parent p' = None \/
  (p_state p' = RUNNABLE /\ p_pid p' = k_nextpid s /\ 0 < k_nextpid s < n /\
   exists j q, p_parent p' = Some j /\ k_procs s !! j = Some q /\ alive q) ->
  pinv s'.
Proof.
  intros Hc Hi Ha Hn Hp'.
  assert (forall j q, k_procs s !! j = Some q -> alive q -> j <> i /\ k_procs s' !! j = Some q) as Hal.
  { intros j q Hq Hqa. destruct (decide (j = i)) as [->|Hne]; [pose proof (ch_old _ _ _ _ _ _ Hc); naive_solver congruence|].
    split; [done|]. by rewrite (ch_other _ _ _ _ _ _ Hc). }
  split.
  - destruct (pi_init _ Hi) as (k & q & Hk & Hq & Hqa & Hqp). destruct (Hal k q Hq Hqa) as [_ Hq'].
    exists k, q. rewrite (ch_init _ _ _ _ _ _ Hc). auto.
  - intros k q j Hq Hqj. look Hc.
    + destruct Hp' as [[_ ?]|(_ & _ & _ & l & r & Hl & Hr & Hra)]; [congruence|]. assert (l = j) as -> by congruence.
      destruct (Hal j r Hr Hra) as [? ?]. eauto.
    + destruct (pi_parent _ Hi k q j) as (? & r & Hr & Hra); [done..|]. destruct (Hal j r Hr Hra) as [? ?]. eauto.
  - intros k q Hq Hqu Hqp. rewrite (ch_init _ _ _ _ _ _ Hc). look Hc; [|by apply (pi_orphan _ Hi k q)].
    exfalso. unfold used in *. naive_solver congruence.
  - intros k q Hq Hqs. look Hc; [|by apply (pi_unused _ Hi k)]. naive_solver congruence.
  - intros k q Hq. look Hc; [|by apply (pi_embryo _ Hi k)]. naive_solver congruence.
  - intros k q Hq Hqu. rewrite (ch_pid _ _ _ _ _ _ Hc). look Hc.
    + destruct Hp' as [[? _]|(_ & -> & ? & _)]; [done|lia].
    + destruct (pi_pids _ Hi k q); [done..|]. lia.
  - assert (forall k q, k_procs s !! k = Some q -> used q -> used p' -> p_pid q <> p_pid p') as Hfresh.
    { intros k q Hq Hqu Hu. destruct (pi_pids _ Hi k q Hq Hqu). destruct Hp' as [[? _]|(_ & -> & ? & _)]; [done|lia]. }
    intros k l q r Hq Hr Hqu Hru He. look Hc; [done| | |by eapply (pi_unique _ Hi)].
    + by destruct (Hfresh k q).
    + by destruct (Hfresh l r).
  - intros k q j Hq Hqs Hqc. look Hc; [naive_solver congruence|].
    destruct (pi_wait _ Hi k q j) as [-> Hnz]; [done..|]. split; [done|]. intros l r Hr Hrz. look Hc; [|by apply (Hnz l r)].
    destruct Hrz as [_ Hrz]. naive_solver congruence.
Qed.

Lemma pinv_calm s s' : calm s s' -> pinv s -> pinv s'.
Proof.
  intros [HF _ Hin Hpid] Hi. destruct (evolves_wakes _ _ HF) as [HL HE].
  assert (forall j q', k_procs s' !! j = Some q' -> exists q, k_procs s !! j = Some q /\ wakes q q') as Hb.
  { intros j q' Hq'. destruct (lookup_lt_is_Some_2 (k_procs s) j) as [q Hq]; [rewrite <- HL; by eapply lookup_lt_Some|]. eauto. }
  assert (forall j q, k_procs s !! j = Some q -> alive q -> exists q', k_procs s' !! j = Some q' /\ alive q' /\ wakes q q') as Hal.
  { intros j q Hq Hqa. destruct (lookup_lt_is_Some_2 (k_procs s') j) as [q' Hq']; [rewrite HL; by eapply lookup_lt_Some|].
    exists q'. split; [done|]. pose proof (HE _ _ _ Hq Hq') as Hw. split; [|done].
    destruct Hw as (_ & _ & _ & [Hs|[]]); unfold alive in *; [by rewrite Hs|auto]. }
  split; rewrite ?Hin, ?Hpid.
  - destruct (pi_init _ Hi) as (k & q & Hk & Hq & Hqa & Hqp). destruct (Hal k q Hq Hqa) as (q' & ? & ? & (_ & ? & _)).
    exists k, q'. split_and!; [done..|congruence].
  - intros k q' j Hq' Hj. destruct (Hb _ _ Hq') as (q & Hq & (_ & Hp & _)).
    destruct (pi_parent _ Hi k q j) as (? & r & Hr & Hra); [done|congruence|].
    destruct (Hal _ _ Hr Hra) as (r' & ? & ? & _). eauto.
  - intros k q' Hq' Hu Hp'. destruct (Hb _ _ Hq') as (q & Hq & (_ & Hp & _ & Hs)).
    apply (pi_orphan _ Hi k q); [done| |congruence]. unfold used in *. naive_solver congruence.
  - intros k q' Hq' Hu. destruct (Hb _ _ Hq') as (q & Hq & (_ & Hp & _ & Hs)). rewrite Hp.
    apply (pi_unused _ Hi k); [done|naive_solver congruence].
  - intros k q' Hq' Hu. destruct (Hb _ _ Hq') as (q & Hq & (_ & Hp & _ & Hs)).
    apply (pi_embryo _ Hi k q Hq). naive_solver congruence.
  - intros k q' Hq' Hu. destruct (Hb _ _ Hq') as (q & Hq & (-> & _ & _ & Hs)).
    apply (pi_pids _ Hi k); [done|]. unfold used in *. naive_solver congruence.
  - intros k l q' r' Hq' Hr' Hqu Hru He. destruct (Hb _ _ Hq') as (q & Hq & (Hqi & _ & _ & Hqs)), (Hb _ _ Hr') as (r & Hr & (Hri & _ & _ & Hrs)).
    apply (pi_unique _ Hi k l q r); [done|done| | |congruence]; unfold used in *; naive_solver congruence.
  - intros k q' j Hq' Hqs Hqc. destruct (Hb _ _ Hq') as (q & Hq & (_ & _ & Hc & Hs)).
    destruct (pi_wait _ Hi k q j) as [-> Hnz]; [done|naive_solver congruence|congruence|]. split; [done|].
    intros l r' Hr' [Hrc Hrz]. destruct (Hb _ _ Hr') as (r & Hr & (_ & Hrp & _ & Hrs)).
    apply (Hnz l r Hr). split; [unfold is_child in *; congruence|naive_solver congruence].
Qed.

Lemma pinv_exit s s' p :
  pinv s -> k_procs s !! k_cur s = Some p -> alive p -> k_initproc s <> Some (k_cur s) ->
  evolves (exits (k_cur s) (p_parent p) (k_initproc s) (k_procs s)) (k_procs s) (k_procs s') ->
  k_initproc s' = k_initproc s -> k_nextpid s' = k_nextpid s -> pinv s'.
Proof.
  intros Hi Hp Hpa Hni [HL HE] Hin Hpid. set (cur := k_cur s) in *.
  assert (forall j q', k_procs s' !! j = Some q' -> exists q, k_procs s !! j = Some q /\
    exits cur (p_parent p) (k_initproc s) (k_procs s) j q q') as Hb.
  { intros j q' Hq'. destruct (lookup_lt_is_Some_2 (k_procs s) j) as [q Hq]; [rewrite <- HL; by eapply lookup_lt_Some|]. eauto. }
  assert (forall j q, k_procs s !! j = Some q -> alive q -> j <> cur -> exists q', k_procs s' !! j = Some q' /\ alive q' /\
    p_parent q' = (if decide (is_child cur q) then k_initproc s else p_parent q)) as Hal.
  { intros j q Hq Hqa Hj. destruct (lookup_lt_is_Some_2 (k_procs s') j) as [q' Hq']; [rewrite HL; by eapply lookup_lt_Some|].
    exists q'. split; [done|]. destruct (HE _ _ _ Hq Hq') as (_ & _ & Hpar & Hs & _). split; [|done].
    rewrite decide_False in Hs by done. destruct Hs as [Hs|[]]; unfold alive in *; [by rewrite Hs|auto]. }
  assert (forall j q q', exits cur (p_parent p) (k_initproc s) (k_procs s) j q q' -> k_procs s !! j = Some q ->
    p_state q' <> UNUSED /\ p_state q <> UNUSED \/ p_state q' = UNUSED /\ p_state q = UNUSED) as Hus.
  { intros j q q' (_ & _ & _ & Hs & _) Hq. destruct (decide (j = cur)) as [->|].
    - left. split; [by rewrite Hs|]. assert (q = p) as -> by congruence. unfold alive in Hpa. naive_solver congruence.
    - destruct (decide (p_state q = UNUSED)); [right|left]; naive_solver congruence. }
  destruct (pi_init _ Hi) as (k0 & q0 & Hk0 & Hq0 & Hqa0 & Hqp0).
  assert (k0 <> cur) as Hk0c by congruence. destruct (Hal _ _ Hq0 Hqa0 Hk0c) as (q0' & Hq0' & Hqa0' & Hqp0').
  split; rewrite ?Hin, ?Hpid.
  - exists k0, q0'. split_and!; [done..|]. rewrite Hqp0', decide_False; [done|]. unfold is_child. congruence.
  - intros k q' j Hq' Hj. destruct (Hb _ _ Hq') as (q & Hq & (_ & _ & Hpar & _)). rewrite Hj in Hpar.
    destruct (decide (is_child cur q)) as [Hc|Hc].
    + assert (j = k0) as -> by congruence. split; [intros ->; unfold is_child in Hc; congruence|eauto].
    + destruct (pi_parent _ Hi k q j) as (? & r & Hr & Hra); [done|congruence|]. split; [done|].
      destruct (Hal _ _ Hr Hra) as (r' & ? & ? & _); [|eauto]. intros ->. apply Hc. unfold is_child. congruence.
  - intros k q' Hq' Hu Hp'. destruct (Hb _ _ Hq') as (q & Hq & Hx). pose proof (Hus _ _ _ Hx Hq) as Hu'.
    destruct Hx as (_ & _ & Hpar & _). rewrite Hp' in Hpar. destruct (decide (is_child cur q)); [congruence|].
    apply (pi_orphan _ Hi k q); [done| |done]. unfold used in *. naive_solver congruence.
  - intros k q' Hq' Hu. destruct (Hb _ _ Hq') as (q & Hq & Hx). pose proof (Hus _ _ _ Hx Hq) as Hu'.
    destruct Hx as (_ & _ & Hpar & _). rewrite Hpar, (pi_unused _ Hi k q); [|done|naive_solver congruence].
    rewrite decide_False; [done|]. intros Hc. unfold is_child in Hc.
    rewrite (pi_unused _ Hi k q) in Hc; [done|done|naive_solver congruence].
  - intros k q' Hq' Hu. destruct (Hb _ _ Hq') as (q & Hq & (_ & _ & _ & Hs & _)).
    apply (pi_embryo _ Hi k q Hq). destruct (decide (k = cur)); naive_solver congruence.
  - intros k q' Hq' Hu. destruct (Hb _ _ Hq') as (q & Hq & Hx). pose proof (Hus _ _ _ Hx Hq) as Hu'.
    destruct Hx as (-> & _). apply (pi_pids _ Hi k); [done|]. unfold used in *. naive_solver congruence.
  - intros k l q' r' Hq' Hr' Hqu Hru He. destruct (Hb _ _ Hq') as (q & Hq & Hx), (Hb _ _ Hr') as (r & Hr & Hy).
    pose proof (Hus _ _ _ Hx Hq) as Hu1. pose proof (Hus _ _ _ Hy Hr) as Hu2. destruct Hx as (Hx & _), Hy as (Hy & _).
    apply (pi_unique _ Hi k l q r); [done|done| | |congruence]; unfold used in *; naive_solver congruence.
  - intros k q' j Hq' Hqs Hqc. destruct (Hb _ _ Hq') as (q & Hq & (_ & Hch & _ & Hs & Haw)).
    destruct (Haw Hqs) as [Hnp Hnz]. clear Haw.
    assert (k <> cur) as Hkc by (intros ->; rewrite decide_True in Hs by done; congruence). rewrite decide_False in Hs by done.
    destruct (pi_wait _ Hi k q j) as [-> Hold]; [done|naive_solver congruence|congruence|]. split; [done|].
    intros l r' Hr' [Hrc Hrz]. destruct (Hb _ _ Hr') as (r & Hr & (_ & _ & Hrp & Hrs & _)). unfold is_child in *.
    destruct (decide (l = cur)) as [->|Hl].
    + assert (r = p) as -> by congruence. destruct (decide (p_parent p = Some cur)) as [Hself|Hns].
      * by destruct (pi_parent _ Hi cur p cur) as [? _].
      * apply Hnp. rewrite <- Hrp, Hrc. exact Hqc.
    + assert (p_state r = ZOMBIE) as Hz by naive_solver congruence. destruct (decide (p_parent r = Some cur)) as [Hrcur|Hrn].
      * apply (Hnz) with l r; [|done|done]. rewrite <- Hrp, Hrc. exact Hqc.
      * apply (Hold l r Hr). split; [unfold is_child; congruence|done].
Qed.

(** ** Wait *)

Lemma changed_refl s i p : k_procs s !! i = Some p -> changed s s i p p (k_nextpid s).
Proof. by split. Qed.

Lemma wlp_wait s :
  wlp (wait kend) s (fun r s' =>
    same_procs s s' \/
    (exists i p p', changed s s' i p p' (k_nextpid s) /\ p_state p = ZOMBIE /\ p_parent p = Some (k_cur s) /\
       r = Some (p_pid p) /\ p_state p' = UNUSED /\ p_parent p' = None) \/
    (exists p p', changed s s' (k_cur s) p p' (k_nextpid s) /\ r = None /\
       p' = with_state SLEEPING (with_chan (Some (ChProc (k_cur s))) p) /\
       forall k q, k_procs s !! k = Some q -> ~ zombie_child (k_cur s) q)).
Proof.
  apply wlp_bind. apply wlp_bind, wlp_gets, wlp_bind, wlp_gets.
  destruct (list_find (zombie_child (k_cur s)) (k_procs s)) as [[i p]|] eqn:Hf.
  - apply list_find_Some in Hf as (Hp & [Hc Hz] & _). pose proof (changed_refl s i p Hp) as Hc0.
    step_call. clear Hc0. step_upd. step_call. step_upd. step_upd. step_upd. step_upd. step_upd.
    apply wlp_ret, wlp_ret. right; left. set_up. split_and!; congruence.
  - apply list_find_None in Hf. apply wlp_bind, wlp_proc_at. intros p Hp. apply wlp_ret.
    destruct (bool_decide _ || _); [by apply wlp_ret; left|].
    apply wlp_bind, wlp_gets. apply wlp_bind. unfold sleep_enter, my_upd. apply wlp_bind, wlp_gets.
    eapply wlp_changed_upd; [by apply changed_refl|]. intros s2 Hc. apply wlp_ret. right; right.
    eexists _, _. split; [exact Hc|]. split_and!; [done|done|]. intros k q Hq.
    eapply Forall_lookup_1 in Hf; [|exact Hq]. done.
Qed.

(** ** Steps *)

Definition running s : Prop := exists p, k_procs s !! k_cur s = Some p /\ p_state p = RUNNING.

(** The processes and the scheduler, one section under [ptable.lock] at a time.
    [k_cur] is the process that makes the step; several may run, each on its own
    processor. Other kernel code leaves the tree alone ([calm]). *)
Inductive pstep : kern D -> kern D -> Prop :=
  | ps_fork s r s' : running s -> fork kend kdata s = Ok r s' -> pstep s s'
  | ps_exit s s' : running s -> exit kend s = Ok tt s' -> pstep s s'
  | ps_wait s r s' : running s -> wait kend s = Ok r s' -> pstep s s'
  | ps_kill s pid r s' : kill pid s = Ok r s' -> pstep s s'
  | ps_wakeup s chan s' : wakeup chan s = Ok tt s' -> pstep s s'
  | ps_sleep s chan s' : running s -> (forall j, chan <> ChProc j) -> sleep_enter chan s = Ok tt s' -> pstep s s'
  | ps_awake s s' : running s -> sleep_leave s = Ok tt s' -> pstep s s'
  | ps_yield s s' : running s -> yield_enter s = Ok tt s' -> pstep s s'
  | ps_pick s i r s' : scheduler_pick i s = Ok r s' -> pstep s s'
  | ps_processor s i : pstep s (set_cur i s)
  | ps_other s s' : calm s s' -> pstep s s'.

Lemma first_runnable_Some i ps j : first_runnable i ps = Some j -> exists p, ps !! j = Some p /\ p_state p = RUNNABLE.
Proof.
  unfold first_runnable. intros ([k p] & Hf & ->)%fmap_Some. simpl.
  apply list_find_Some in Hf as (Hk & Hr & _). exists p. by rewrite <- lookup_drop.
Qed.

Lemma calm_kill pid : respects calm (kill (D:=D) pid).
Proof.
  intros s r s' He. revert r s' He. apply wlp_bind, wlp_gets.
  destruct (list_find (has_pid pid) (k_procs s)) as [[i p]|] eqn:Hf; [|by apply wlp_ret].
  apply list_find_Some in Hf as (Hp & _ & _). apply wlp_bind. eapply (wlp_respects calm); [frame|].
  intros [] s1 C1. apply wlp_bind, wlp_guard.
  - intros Hs%bool_decide_eq_true. apply wlp_proc_upd. intros q Hq. apply wlp_ret. etrans; [exact C1|].
    destruct (evolves_wakes _ _ (ca_procs _ _ C1)) as [_ HE]. destruct (HE _ _ _ Hp Hq) as (_ & _ & _ & Hw).
    split; [|done..]. simpl. rewrite <- (list_insert_id (k_procs s1) i q) at 1 by done.
    apply Forall2_insert; [done|]. split_and!; [done..|]. simpl. destruct Hw as [Hw|[]]; [right; split; congruence|left; congruence].
  - intros _. by apply wlp_ret.
Qed.

(** A step of the running process that only changes its own state and channel. *)
Lemma pinv_own s s' f :
  pinv s -> running s -> my_upd f s = Ok tt s' ->
  (forall p, p_pid (f p) = p_pid p /\ p_parent (f p) = p_parent p /\ (alive p -> alive (f p)) /\
     (p_state (f p) = SLEEPING -> p_state p = RUNNING -> forall j, p_chan (f p) <> Some (ChProc j))) ->
  pinv s' /\ k_nextpid s' = k_nextpid s /\ length (k_procs s') = length (k_procs s).
Proof.
  intros Hi (p & Hp & Hr) He Hf. revert s' He. enough (wlp (my_upd f) s (fun _ s' =>
    pinv s' /\ k_nextpid s' = k_nextpid s /\ length (k_procs s') = length (k_procs s))) as Hw by (intros; by eapply Hw).
  apply wlp_bind, wlp_gets, wlp_proc_upd. intros q Hq. assert (q = p) as -> by congruence.
  split; [|split; [done|by simpl; rewrite length_insert]]. destruct (Hf p) as (? & ? & Ha & Hs).
  assert (alive p) by (unfold alive; auto).
  eapply pinv_stays; [apply changed_upd, changed_refl; exact Hp|exact Hi|auto..].
  intros j Hsl Hch. by destruct (Hs Hsl Hr j).
Qed.

Lemma same_pinv s s' : same_procs s s' -> pinv s -> pinv s'.
Proof. intros Hs. by apply pinv_calm, same_calm. Qed.

Lemma changed_length s s' i p p' n :
  changed s s' i p p' n -> length (k_procs s') = length (k_procs s).
Proof.
  intros [Ho Hn Hr _ _ _]. apply Nat.le_antisymm; apply Nat.nlt_ge; intros Hlt.
  - destruct (lookup_lt_is_Some_2 _ _ Hlt) as [q Hq]. destruct (decide (length (k_procs s) = i)) as [<-|Hne].
    + apply lookup_lt_Some in Ho. lia.
    + rewrite Hr in Hq by done. apply lookup_lt_Some in Hq. lia.
  - destruct (lookup_lt_is_Some_2 _ _ Hlt) as [q Hq]. destruct (decide (length (k_procs s') = i)) as [<-|Hne].
    + apply lookup_lt_Some in Hn. lia.
    + rewrite <- Hr in Hq by done. apply lookup_lt_Some in Hq. lia.
Qed.

(** The bookkeeping of a step: the invariant, the table and the next id. *)
Definition kept s s' : Prop :=
  pinv s' /\ length (k_procs s') = length (k_procs s) /\ k_nextpid s <= k_nextpid s' <= k_nextpid s + 1.

Lemma kept_same s s' : pinv s -> same_procs s s' -> kept s s'.
Proof. intros Hi Hs. split; [by eapply same_pinv|]. destruct Hs as [-> _ _ ->]. split; [done|lia]. Qed.

Lemma kept_calm s s' : pinv s -> calm s s' -> kept s s'.
Proof.
  intros Hi Hs. split; [by eapply pinv_calm|]. destruct Hs as [HF _ _ ->]. apply Forall2_length in HF. lia.
Qed.

Lemma kept_fork s r s' :
  pinv s -> running s -> 0 < k_nextpid s < 2147483647 -> fork kend kdata s = Ok r s' -> kept s s'.
Proof.
  intros Hi (me & Hme & Hrun) Hn He. assert (next_id s = k_nextpid s + 1) as Hnx by (apply s32_small; lia).
  destruct (wlp_fork kend kdata s r s' He) as [[_ Hs]|(i & p & p' & Hc & Hp & Hp')]; [by apply kept_same|].
  split; [|split; [by eapply changed_length|rewrite (ch_pid _ _ _ _ _ _ Hc); lia]].
  eapply pinv_leaf; [exact Hc|done|unfold alive; naive_solver congruence|lia|].
  destruct Hp' as [(_ & ? & Hpar)|(? & ? & ? & _)]; [left|right].
  - split; [done|]. rewrite Hpar. apply (pi_unused _ Hi i); [apply Hc|done].
  - split_and!; [done|done|lia|lia|]. exists (k_cur s), me. unfold alive. auto.
Qed.

Lemma kept_wait s r s' : pinv s -> running s -> wait kend s = Ok r s' -> kept s s'.
Proof.
  intros Hi (me & Hme & Hrun) He.
  destruct (wlp_wait s r s' He) as [Hs|[(i & p & p' & Hc & Hz & _ & _ & Hu & Hp')|(p & p' & Hc & _ & -> & Hnz)]];
    [by apply kept_same| |].
  - split; [|split; [by eapply changed_length|rewrite (ch_pid _ _ _ _ _ _ Hc); lia]].
    eapply pinv_leaf; [exact Hc|done|unfold alive; naive_solver congruence|lia|by left].
  - split; [|split; [by eapply changed_length|rewrite (ch_pid _ _ _ _ _ _ Hc); lia]].
    assert (p = me) as -> by (pose proof (ch_old _ _ _ _ _ _ Hc); congruence).
    eapply pinv_stays; [exact Hc|done|unfold alive; auto..|done|done|]. simpl. by intros j _ [= <-].
Qed.

Lemma kept_own s s' f :
  pinv s -> running s -> my_upd f s = Ok tt s' ->
  (forall p, p_pid (f p) = p_pid p /\ p_parent (f p) = p_parent p /\ (alive p -> alive (f p)) /\
     (p_state (f p) = SLEEPING -> p_state p = RUNNING -> forall j, p_chan (f p) <> Some (ChProc j))) ->
  kept s s'.
Proof. intros Hi Hr He Hf. destruct (pinv_own s s' f Hi Hr He Hf) as (? & Hn & ?). split; [done|]. lia. Qed.

Lemma kept_pick s i r s' : pinv s -> scheduler_pick i s = Ok r s' -> kept s s'.
Proof.
  intros Hi He. revert r s' He. apply wlp_bind, wlp_gets. destruct (first_runnable i (k_procs s)) as [j|] eqn:Hf.
  - destruct (first_runnable_Some _ _ _ Hf) as (p & Hp & Hr). apply wlp_bind, wlp_modify, wlp_bind.
    apply wlp_proc_upd. simpl. intros q Hq. assert (q = p) as -> by congruence. apply wlp_ret.
    split; [|simpl; rewrite length_insert; lia].
    assert (pinv (set_cur j s)) as Hi' by (by destruct Hi; split).
    eapply (pinv_stays _ _ _ _ _ (changed_upd _ _ _ _ _ _ _ (changed_refl (set_cur j s) j p Hp)) Hi'); unfold alive; auto. done.
  - apply wlp_ret. split; [done|lia].
Qed.

Lemma pstep_kept s s' :
  pstep s s' -> pinv s -> (length (k_procs s) <= NPROC)%nat -> 0 < k_nextpid s < 2147483647 -> kept s s'.
Proof.
  intros Hst Hi Hlen Hn. destruct Hst as [s r s' Hr He|s s' Hr He|s r s' Hr He|s pid r s' He|s chan s' He|s chan s' Hr Hc He|
    s s' Hr He|s s' Hr He|s i r s' He|s i|s s' Hs].
  - by eapply kept_fork.
  - destruct (wlp_exit s Hlen tt s' He) as (p & Hp & Hni & Hev & Hin & Hpid).
    destruct Hr as (me & Hme & Hrun). assert (me = p) as -> by congruence.
    split; [eapply pinv_exit; unfold alive; eauto|]. split; [apply Hev|lia].
  - by eapply kept_wait.
  - apply kept_calm; [done|]. by eapply calm_kill.
  - apply kept_calm; [done|]. by eapply calm_wakeup.
  - eapply kept_own; [done|done|exact He|]. intros p. simpl. split_and!; [done|done|unfold alive; auto|].
    intros _ _ j [= Hj]. by apply (Hc j).
  - eapply kept_own; [done|done|exact He|]. intros p. simpl. split_and!; [done..|]. by intros ? ? j.
  - eapply kept_own; [done|done|exact He|]. intros p. simpl. split_and!; [done|done|unfold alive; auto|done].
  - by eapply kept_pick.
  - split; [by destruct Hi; split|]. simpl. lia.
  - by apply kept_calm.
Qed.

(** The state that [userinit] leaves: one process, ready to run. *)
Record booted s : Prop := {
  bt_init : k_initproc s = Some 0%nat;
  bt_pid : k_nextpid s = 2;
  bt_len : length (k_procs s) = NPROC;
  bt_first : exists p, k_procs s !! 0%nat = Some p /\ p_state p = RUNNABLE /\ p_pid p = 1 /\ p_parent p = None;
  bt_rest i p : i <> 0%nat -> k_procs s !! i = Some p -> p_state p = UNUSED /\ p_parent p = None;
}.

Lemma booted_pinv s : booted s -> pinv s.
Proof.
  intros [Hin Hpid Hlen (p0 & Hp0 & Hs0 & Hid0 & Hpar0) Hrest].
  assert (forall i p, k_procs s !! i = Some p -> i = 0%nat /\ p = p0 \/ p_state p = UNUSED /\ p_parent p = None) as Hc.
  { intros i p Hp. destruct (decide (i = 0%nat)) as [->|]; [left; split; congruence|right; by eapply Hrest]. }
  split; rewrite ?Hin, ?Hpid.
  - exists 0%nat, p0. unfold alive. split_and!; auto.
  - intros i p j Hp Hj. destruct (Hc _ _ Hp) as [[-> ->]|[]]; congruence.
  - intros i p Hp Hu _. destruct (Hc _ _ Hp) as [[-> ->]|[]]; done.
  - intros i p Hp Hu. destruct (Hc _ _ Hp) as [[-> ->]|[]]; congruence.
  - intros i p Hp. destruct (Hc _ _ Hp) as [[-> ->]|[]]; congruence.
  - intros i p Hp Hu. destruct (Hc _ _ Hp) as [[-> ->]|[]]; [lia|done].
  - intros i j p q Hp Hq Hpu Hqu _. destruct (Hc _ _ Hp) as [[-> ->]|[]], (Hc _ _ Hq) as [[-> ->]|[]]; done.
  - intros i p j Hp Hs. destruct (Hc _ _ Hp) as [[-> ->]|[]]; congruence.
Qed.

Lemma psteps_pinv n s0 s :
  booted s0 -> nsteps pstep n s0 s -> Z.of_nat n < 2147483645 ->
  pinv s /\ length (k_procs s) = NPROC /\ 2 <= k_nextpid s <= 2 + Z.of_nat n.
Proof.
  intros Hb. revert s. induction n as [|n IH]; intros s Hst Hn.
  - inversion Hst; subst. split; [by apply booted_pinv|]. destruct Hb as [_ -> -> _ _]. lia.
  - apply nsteps_inv_r in Hst as (s1 & Hst & H1). destruct (IH s1 Hst) as (Hi & Hlen & Hpid); [lia|].
    destruct (pstep_kept s1 s H1 Hi) as (? & ? & ?); [lia..|]. split; [done|]. lia.
Qed.
End Tree.


(** [kill(0)] succeeds on a free slot of the table, whose stale [killed]
    survives until the slot is used: the next process that is forked is born
    killed, if the slot is the next one to be used. *)
Theorem kill_zero_dooms_next_fork {D} `{DiskDriver D} kend kdata (s : kern D) i p :
  list_find (has_pid 0) (k_procs s) = Some (i, p) -> list_find free_proc (k_procs s) = Some (i, p) ->
  exists s1, kill 0 s = Ok 0 s1 /\
    forall pid s2, fork kend kdata s1 = Ok pid s2 -> 0 < pid ->
    exists q, k_procs s2 !! i = Some q /\ p_pid q = pid /\ p_state q = RUNNABLE /\ p_killed q = 1.
Proof.
  intros Hf Hfree. pose proof Hf as (Hi & _ & _)%list_find_Some. pose proof Hfree as (_ & Hu & _)%list_find_Some.
  set (s1 := set_procs (<[i := with_killed 1 p]> (k_procs s)) s). exists s1.
  assert (k_procs s1 !! i = Some (with_killed 1 p)) as Hi1 by (apply list_lookup_insert_eq; by eapply lookup_lt_Some).
  split.
  - assert (wp (kill 0) s (fun r s' => r = 0 /\ s' = s1)) as Hw; [|apply wp_ok in Hw; naive_solver].
    apply wp_bind, wp_gets. rewrite Hf. eapply wp_bind, wp_proc_upd; [done|].
    rewrite bool_decide_false by (unfold free_proc in Hu; congruence). by apply wp_bind, wp_ret, wp_ret.
  - intros pid s2 He Hpos.
    assert (list_find free_proc (k_procs s1) = Some (i, with_killed 1 p)) as Hf1.
    { apply list_find_Some. split_and!; [done|done|]. intros j q Hq Hj. apply list_find_Some in Hfree as (_ & _ & Hn).
      apply (Hn j q); [|done]. simpl in Hq. by rewrite list_lookup_insert_ne in Hq by lia. }
    destruct (wlp_fork kend kdata s1 pid s2 He) as [[? _]|(k & q & q' & Hc & _ & [[? _]|(Hr & _ & Hid & -> & Hk & Hkil)])]; [lia|lia|].
    rewrite Hf1 in Hk. injection Hk as <- <-. exists q'. by split_and!; [apply Hc|..].
Qed.

(** The first process alone, and its first steps. *)
Definition first_proc : proc := with_state RUNNABLE (with_pid 1 proc_bss).
Definition kern0 : kern memdisk :=
  Kern (fs_bss (log_bss (disk_of []) 1)) (Vmst ∅ 0 1) (replicate NFILE file_bss) ∅
    (first_proc :: replicate 63 proc_bss) 0 2 (Some 0%nat) 0.
Definition kern1 : kern memdisk := set_procs (<[0%nat := with_state RUNNING first_proc]> (k_procs kern0)) kern0.
Definition kern2 : kern memdisk :=
  set_procs (<[0%nat := with_state SLEEPING (with_chan (Some ChTicks) (with_state RUNNING first_proc))]> (k_procs kern0)) kern0.

Lemma kern0_booted : booted kern0.
Proof.
  split; [done..| |].
  - exists first_proc. done.
  - intros [|i] p Hi Hp; [done|]. change (replicate 63 proc_bss !! i = Some p) in Hp. apply lookup_replicate_1 in Hp as [-> _]. done.
Qed.


Lemma kill_zero_dooms_next_fork_witness :
  exists s1, kill 0 kern1 = Ok 0 s1 /\
    forall pid s2, fork 0 0 s1 = Ok pid s2 -> 0 < pid ->
    exists q, k_procs s2 !! 1%nat = Some q /\ p_pid q = pid /\ p_state q = RUNNABLE /\ p_killed q = 1.
Proof. apply (kill_zero_dooms_next_fork 0 0 kern1 1 proc_bss); reflexivity. Defined.
