(* ===== verification/GrowSpec.v ===== *)
(** The size of a process, [growproc]: what [sbrk] does with a negative argument. *)

From S2P Require Import Prelude Bytes Memide Log Inode Kalloc Vm VmSpec ForkSpec Kernel Proc ProcSpec.

Section Grow.
Context {D : Type}.
Context (kend : Z).
Implicit Types s : kern D.

Lemma wp_myproc s p (Q : proc -> kern D -> Prop) : k_procs s !! k_cur s = Some p -> Q p s -> wp myproc s Q.
Proof. intros Hp HQ. unfold wp, myproc, proc_at, mbind, gets. cbn. by rewrite Hp. Qed.

Lemma wp_vm {A} (m : M vmst A) s (Q : A -> kern D -> Prop) :
  wp m (k_vm s) (fun a t => Q a (set_vm t s)) -> wp (vm m) s Q.
Proof. apply wp_zoom. Qed.

(** The three cases of [growproc] for a negative argument. *)
Definition shrunk (p : proc) (n : Z) (U U' : gmap Z Z) (r : Z) s s' : Prop :=
  if 0 <? p_sz p + n then
    r = 0 /\ U' = outside (page_up (p_sz p + n)) (page_up (p_sz p)) U /\
    k_procs s' = <[k_cur s := with_sz (p_sz p + n) p]> (k_procs s)
  else if p_sz p + n =? 0 then r = -1 /\ U' = ∅ /\ k_procs s' = k_procs s
  else r = 0 /\ U' = U /\ k_procs s' = k_procs s.

Lemma outside_end v w U : (forall x f, U !! x = Some f -> 0 <= x < v) -> outside v w U = U.
Proof.
  intros HU. apply map_eq. intros x. rewrite lookup_outside. destruct (decide (v <= x < w)); [|done].
  destruct (U !! x) as [f|] eqn:Hx; [|done]. specialize (HU x f Hx). lia.
Qed.

(** The pages [deallocuvm] leaves. *)
Lemma outside_shrunk p n U :
  0 < p_sz p <= KERNBASE -> -2147483648 <= n < 0 -> (forall x f, U !! x = Some f -> 0 <= x < page_up (p_sz p)) ->
  outside (page_up (u32 (p_sz p + n))) (page_up (p_sz p)) U =
  if 0 <? p_sz p + n then outside (page_up (p_sz p + n)) (page_up (p_sz p)) U else if p_sz p + n =? 0 then ∅ else U.
Proof.
  intros Hsz Hn HU. unfold KERNBASE in *. destruct (Z.ltb_spec 0 (p_sz p + n)); [by rewrite u32_small by lia|].
  destruct (Z.eqb_spec (p_sz p + n) 0) as [->|].
  - apply outside_all. intros x f Hx. change (page_up (u32 0)) with 0. by apply (HU x f).
  - assert (u32 (p_sz p + n) = p_sz p + n + 4294967296) as -> by (unfold u32; elia).
    apply outside_end. intros x f Hx. specialize (HU x f Hx). unfold page_up in *. elia.
Qed.

(** C39: [growproc] with a negative [n], on a process whose user pages are those below its size. It always
    returns. If the new size is positive, the pages from there on are freed and the size is set. If it
    is exactly 0, the pages are all freed and yet the result is -1 and the size is still the old one. If
    it would be negative, [sz + n] wraps around, nothing happens and the result is 0. The page table's
    kernel half, the other pages of memory and the other processes stay as they are, and the pages freed
    are on the free list. *)
Theorem growproc_shrinks n s p T E U X l m :
  k_procs s !! k_cur s = Some p -> space kend (k_vm s) (p_pgdir p) T E U X l m ->
  0 < p_sz p <= KERNBASE -> -2147483648 <= n < 0 -> (forall x f, U !! x = Some f -> 0 <= x < page_up (p_sz p)) ->
  exists r s', growproc kend n s = Ok r s' /\ exists E' U' l',
    space kend (k_vm s') (p_pgdir p) T E' U' X l' m /\ (forall x, 524288 <= x -> E' x = E x) /\
    frames U' ++ l' ≡ₚ frames U ++ l /\ shrunk p n U U' r s s'.
Proof.
  intros Hp Hs Hsz Hn HU. apply (wp_ok (growproc kend n)). eapply wp_bind, wp_myproc; [exact Hp|].
  rewrite (proj2 (Z.ltb_ge 0 n)), (proj2 (Z.ltb_lt n 0)), (proj2 (Z.eqb_neq n 0)) by lia. cbn [negb andb].
  pose proof (u32_range (p_sz p + n)) as Hr. eapply wp_bind, wp_bind, wp_vm, wp_deallocuvm; [exact Hs|lia|lia|].
  intros t E' l' Ht HE HP. apply wp_ret. rewrite (outside_shrunk p n U Hsz Hn HU) in Ht, HP.
  assert (u32 (s32 (Z.min (p_sz p) (u32 (p_sz p + n)))) =
    if 0 <? p_sz p + n then p_sz p + n else if p_sz p + n =? 0 then 0 else p_sz p) as ->.
  { unfold KERNBASE in *. assert (forall z, u32 (s32 z) = u32 z) as Hus by (intros z; unfold u32, s32; elia). rewrite Hus.
    destruct (Z.ltb_spec 0 (p_sz p + n)); [by rewrite (u32_small (p_sz p + n)), Z.min_r, u32_small by lia|].
    destruct (Z.eqb_spec (p_sz p + n) 0) as [->|]; [by rewrite (u32_small 0), Z.min_r by lia|].
    rewrite Z.min_l, u32_small by (unfold u32; elia). done. }
  unfold shrunk. destruct (Z.ltb_spec 0 (p_sz p + n)); [|destruct (Z.eqb_spec (p_sz p + n) 0)].
  - rewrite (proj2 (Z.eqb_neq _ 0)) by lia. eapply wp_bind, wp_bind, wp_gets, wp_proc_upd; [exact Hp|]. apply wp_ret. by eexists E', _, l'.
  - rewrite Z.eqb_refl. apply wp_ret. by eexists E', _, l'.
  - rewrite (proj2 (Z.eqb_neq _ 0)) by lia. eapply wp_bind, wp_bind, wp_gets, wp_proc_upd; [exact Hp|]. apply wp_ret. eexists E', _, l'.
    split_and!; [exact Ht|done|done|done|done|]. cbn. apply list_insert_id. rewrite Hp. by destruct p.
Qed.
End Grow.

Definition toy_proc : proc := with_sz 4096 (with_pgdir toy_end (with_state RUNNING (with_pid 1 proc_bss))).
Definition toy_kern : kern memdisk := set_vm toy (set_procs (toy_proc :: replicate 63 proc_bss) kern0).

Lemma growproc_shrinks_witness :
  exists s', growproc toy_end (-4096) toy_kern = Ok (-1) s' /\ k_procs s' = k_procs toy_kern.
Proof.
  destruct (growproc_shrinks toy_end (-4096) toy_kern toy_proc {[0%nat := toy_end + 4096]} (upd (fun _ => 0) 0 toy_pte)
    {[0 := toy_end + 8192]} [] [toy_end + 12288] toy_mem) as (r & s' & He & E' & U' & l' & _ & _ & _ & Hr & _ & Hk).
  - reflexivity.
  - exact toy_space.
  - unfold KERNBASE. simpl. lia.
  - lia.
  - intros x f Hx. apply lookup_singleton_Some in Hx as [<- _]. change (page_up (p_sz toy_proc)) with 1. lia.
  - exists s'. rewrite He, Hr. split; [reflexivity|exact Hk].
Defined.
