(* ===== verification/SchedSpec.v ===== *)
(** The scheduler is fair: round robin over the process table. *)

From S2P Require Import Prelude Bytes Buf Memide Log Inode Kalloc Vm Pipe Kernel Sched.

Section Fair.
Context {D : Type}.
Implicit Types s : kern D.

Definition ready (i : nat) s : Prop := exists p, k_procs s !! i = Some p /\ p_state p = RUNNABLE.

(** A run of [scheduler] on one processor, at position [pos] of its loop, during
    which process [i] is ready to run whenever the loop looks. The list is what it
    picks. While a process runs the table changes in any way ([sr_run]); at the
    end of a pass the loop starts over. *)
Inductive sched_run (i : nat) : nat -> kern D -> list nat -> Prop :=
  | sr_end pos s : sched_run i pos s []
  | sr_pick pos s j s' js : ready i s -> scheduler_pick pos s = Ok (Some j) s' ->
      sched_run i (S j) s' js -> sched_run i pos s (j :: js)
  | sr_pass pos s s' js : ready i s -> scheduler_pick pos s = Ok None s' ->
      sched_run i 0 s' js -> sched_run i pos s js
  | sr_run pos s s' js : length (k_procs s') = length (k_procs s) ->
      sched_run i pos s' js -> sched_run i pos s js.

Lemma first_runnable_le i pos s j :
  ready i s -> first_runnable pos (k_procs s) = Some j -> (pos <= j < length (k_procs s))%nat /\ ((pos <= i)%nat -> (j <= i)%nat).
Proof.
  intros (p & Hp & Hr). unfold first_runnable. intros ([k q] & Hf & ->)%fmap_Some. simpl.
  apply list_find_Some in Hf as (Hk & _ & Hlt). apply lookup_lt_Some in Hk. rewrite length_drop in Hk.
  split; [lia|]. intros Hpos. destruct (decide (pos + k <= i)%nat); [done|]. exfalso.
  apply (Hlt (i - pos)%nat p); [|lia|done]. rewrite lookup_drop. by replace (pos + (i - pos))%nat with i by lia.
Qed.

Lemma first_runnable_ready i pos s : ready i s -> (pos <= i)%nat -> first_runnable pos (k_procs s) <> None.
Proof.
  intros (p & Hp & Hr) Hpos Hn. unfold first_runnable in Hn. apply fmap_None, list_find_None in Hn.
  rewrite Forall_lookup in Hn. apply (Hn (i - pos)%nat p); [|done].
  rewrite lookup_drop. by replace (pos + (i - pos))%nat with i by lia.
Qed.

Lemma scheduler_pick_Some pos s j s' :
  scheduler_pick pos s = Ok (Some j) s' -> first_runnable pos (k_procs s) = Some j /\ length (k_procs s') = length (k_procs s).
Proof.
  unfold scheduler_pick. intros (ps & s1 & [= <- <-] & He)%bind_inv.
  destruct (first_runnable pos (k_procs s)) as [k|] eqn:Hf; [|done].
  apply bind_inv in He as ([] & s1 & [= <-] & He). apply bind_inv in He as ([] & s2 & He & [= <- <-]).
  split; [done|]. apply bind_inv in He as (p & s3 & Hp & [= <-]). unfold proc_at, deref in Hp.
  destruct (k_procs (set_cur k s) !! k); [|done]. injection Hp as -> <-. simpl. by rewrite length_insert.
Qed.

Lemma scheduler_pick_None pos s s' : scheduler_pick pos s = Ok None s' -> first_runnable pos (k_procs s) = None /\ s' = s.
Proof.
  unfold scheduler_pick. intros (ps & s1 & [= <- <-] & He)%bind_inv.
  destruct (first_runnable pos (k_procs s)) as [k|] eqn:Hf; [|by injection He].
  apply bind_inv in He as ([] & s1 & [= <-] & He). by apply bind_inv in He as ([] & s2 & _ & [=]).
Qed.

(** How many others the loop can still pick before it comes to [i]. *)
Definition ahead (i pos : nat) : nat := if decide (pos <= i)%nat then (i - pos)%nat else (NPROC - pos + i)%nat.

Lemma sched_run_bound i pos s js :
  sched_run i pos s js -> (i < NPROC)%nat -> length (k_procs s) = NPROC -> i ∉ js -> (length js <= ahead i pos)%nat.
Proof.
  intros Hrun Hi. induction Hrun as [pos s|pos s j s' js Hr He Hrun IH|pos s s' js Hr He Hrun IH|pos s s' js Hl Hrun IH];
    intros Hlen Hn; unfold NPROC in *.
  - simpl. lia.
  - apply scheduler_pick_Some in He as [Hf Hl]. destruct (first_runnable_le i _ _ _ Hr Hf) as [Hj Hle].
    apply not_elem_of_cons in Hn as [Hne Hn]. specialize (IH ltac:(lia) Hn). simpl.
    unfold ahead, NPROC in *. destruct (decide (pos <= i)%nat) as [Hp|Hp].
    + specialize (Hle Hp). rewrite decide_True in IH by lia. lia.
    + rewrite decide_False in IH by lia. lia.
  - apply scheduler_pick_None in He as [Hf ->]. specialize (IH Hlen Hn).
    unfold ahead, NPROC in *. rewrite decide_True in IH by lia. destruct (decide (pos <= i)%nat) as [Hp|Hp].
    + by destruct (first_runnable_ready i pos s).
    + lia.
  - apply IH; [lia|done].
Qed.
End Fair.

(** C27: The scheduler is fair. While process [i] is ready to run whenever the
    scheduler looks for work, and whatever the other processes do in between, a new
    pass of its loop finds work, and the loop picks [i] before it has made 64 other
    picks: a round of the whole table at most. *)
Theorem scheduler_fair {D} (s : kern D) i pos js :
  sched_run i pos s js -> (i < NPROC)%nat -> length (k_procs s) = NPROC ->
  (i ∈ js \/ (length js < NPROC)%nat) /\
  (ready i s -> exists j s', scheduler_pick 0 s = Ok (Some j) s').
Proof.
  intros Hrun Hi Hlen. split.
  - destruct (decide (i ∈ js)) as [|Hn]; [by left|right].
    pose proof (sched_run_bound i pos s js Hrun Hi Hlen Hn) as Hb.
    unfold ahead, NPROC in *. destruct (decide (pos <= i)%nat); lia.
  - intros Hr. pose proof (first_runnable_ready i 0 s Hr ltac:(lia)) as Hne.
    destruct (first_runnable 0 (k_procs s)) as [j|] eqn:Hf; [|done].
    destruct (first_runnable_le i _ _ _ Hr Hf) as [[_ Hj] _].
    destruct (lookup_lt_is_Some_2 _ _ Hj) as [p Hp].
    exists j. eexists. unfold scheduler_pick, gets, mbind, M_bind. rewrite Hf.
    unfold modify, proc_upd, proc_at, mbind, M_bind, deref. simpl. rewrite Hp. reflexivity.
Qed.

(** Three processes, all ready. *)
Definition sched0 : kern memdisk :=
  Kern (fs_bss (log_bss (disk_of []) 1)) (Vmst ∅ 0 1) (replicate NFILE file_bss) ∅
    (replicate 3 (with_state RUNNABLE proc_bss) ++ replicate 61 proc_bss) 0 2 (Some 0%nat) 0.

Lemma scheduler_fair_witness :
  exists js, sched_run 2 0 sched0 js /\ (2%nat ∈ js \/ (length js < NPROC)%nat).
Proof.
  assert (sched_run 2 0 sched0 [0%nat; 1%nat; 2%nat]) as Hrun.
  { do 3 (eapply sr_pick; [eexists; split; reflexivity|vm_compute; reflexivity|]). apply sr_end. }
  exists [0%nat; 1%nat; 2%nat]. split; [exact Hrun|]. apply (scheduler_fair sched0 2 0 _ Hrun); [unfold NPROC; lia|reflexivity].
Defined.
