(* ===== verification/ExecSpec.v ===== *)
(** [exec] replaces the image of the current process or leaves the process alone. *)

From S2P Require Import Prelude Bytes CString Buf Memide Bio Log Inode Xv6fs Ext2fs Vfs Example Kalloc Vm Pipe Kernel Sched File Proc Exec.

Section Exec.
Context {D : Type} `{DiskDriver D}.
Context (kend kdata : Z).
Context (devsw_read : Z -> option (nat -> Z -> M (fsst D) (Z * list Z))) (junk : list Z).
Implicit Types s : kern D.

(** Only the file system and memory have changed. *)
Record below s s' : Prop := {
  be_procs : k_procs s' = k_procs s;
  be_files : k_files s' = k_files s;
  be_pipes : k_pipes s' = k_pipes s;
  be_cur : k_cur s' = k_cur s;
}.
#[export] Instance below_preorder : PreOrder below.
Proof. split; [done|]. intros s1 s2 s3 [] []. split; congruence. Qed.

Lemma below_vm {A} (m : M vmst A) : respects below (vm m).
Proof. by apply respects_zoom. Qed.
Lemma below_myproc : respects below myproc.
Proof. apply respects_bind; [apply _|apply respects_gets, _|intros; apply respects_read, _]. Qed.
Lemma below_fs {A} (m : M (fsst D) A) : respects below (fs m).
Proof. apply respects_bind; [apply _|apply below_myproc|]. intros p. by apply respects_zoom. Qed.
Hint Resolve below_vm below_myproc below_fs : frame.

Lemma below_loaduvm_loop fuel pgdir addr ip offset i sz :
  respects below (loaduvm_loop (D:=D) devsw_read fuel pgdir addr ip offset i sz).
Proof. revert i. induction fuel as [|fuel IH]; intros i; simpl; frame. Qed.
Hint Resolve below_loaduvm_loop : frame.
Lemma below_load_segments k pgdir ip off sz : respects below (load_segments kend devsw_read k pgdir ip off sz).
Proof. revert off sz. induction k as [|k IH]; intros off sz; simpl; unfold loaduvm; frame. Qed.
Lemma below_push_args pgdir sp argc argv : respects below (push_args (D:=D) pgdir sp argc argv).
Proof. revert sp argc. induction argv as [|a argv IH]; intros sp argc; simpl; frame. Qed.
Hint Resolve below_load_segments below_push_args : frame.
Lemma below_build_stack pgdir sz argv : respects below (build_stack (D:=D) pgdir sz argv).
Proof. unfold build_stack. frame. Qed.
Lemma below_exec_bad pgdir ip : respects below (exec_bad (D:=D) kend pgdir ip).
Proof. unfold exec_bad. frame. Qed.

(** Sizes stay below the kernel. *)
Definition in_user (sz : Z) : Prop := 0 <= sz < KERNBASE.

Lemma allocuvm_range pgdir oldsz newsz (s : vmst) r (s' : vmst) :
  0 <= newsz -> (newsz < oldsz -> in_user oldsz) -> allocuvm kend pgdir oldsz newsz s = Ok r s' -> in_user r.
Proof.
  intros Hn Ho. unfold allocuvm, in_user, KERNBASE in *. revert r s'.
  destruct (Z.leb_spec 2147483648 newsz); [by apply wlp_ret|].
  destruct (Z.ltb_spec newsz oldsz); [specialize (Ho ltac:(done)); apply wlp_ret; rewrite s32_small; lia|].
  apply wlp_bind. intros [[]|] s1 _; apply wlp_ret; [rewrite s32_small; lia|lia].
Qed.

Lemma u32_in_user sz : in_user sz -> u32 sz = sz.
Proof. unfold in_user, KERNBASE. intros. apply u32_small. lia. Qed.

Lemma wlp_load_segments k pgdir ip off sz s :
  in_user sz -> wlp (load_segments kend devsw_read k pgdir ip off sz) s
    (fun r _ => forall sz', r = Some sz' -> in_user sz').
Proof.
  revert off sz s. induction k as [|k IH]; intros off sz s Hsz; [apply wlp_ret; congruence|]. cbn [load_segments].
  apply wlp_bind. intros r s1 _. case_match; [by apply wlp_ret|]. case_match; [by apply IH|].
  case_match; [by apply wlp_ret|]. case_match; [by apply wlp_ret|].
  apply wlp_bind. intros sz1 s2 He. case_match; [by apply wlp_ret|]. case_match; [by apply wlp_ret|].
  apply wlp_bind. intros x s3 _. case_match; [by apply wlp_ret|].
  unfold vm, zoom in He. destruct (allocuvm _ _ _ _ _) as [sz2 v| | | |] eqn:Ha; [|done..]. injection He as <- <-.
  apply allocuvm_range in Ha; [|apply u32_range|done]. rewrite u32_in_user by done. by apply IH.
Qed.

(** The new image in the slot of the process. *)
Definition new_image (p p' : proc) : Prop :=
  p_pid p' = p_pid p /\ p_parent p' = p_parent p /\ p_state p' = p_state p /\ p_chan p' = p_chan p /\
  p_killed p' = p_killed p /\ p_ofile p' = p_ofile p /\ p_cwd p' = p_cwd p /\ p_kstack p' = p_kstack p /\
  in_user (p_sz p').

Definition replaced s s' : Prop :=
  exists p p', k_procs s !! k_cur s = Some p /\ k_procs s' = <[k_cur s := p']> (k_procs s) /\ new_image p p' /\
    k_files s' = k_files s /\ k_pipes s' = k_pipes s /\ k_cur s' = k_cur s.

Lemma wlp_my_upd f s (Q : unit -> kern D -> Prop) :
  (forall p, k_procs s !! k_cur s = Some p -> Q tt (set_procs (<[k_cur s := f p]> (k_procs s)) s)) -> wlp (my_upd f) s Q.
Proof.
  intros HQ. apply wlp_bind, wlp_gets, wlp_bind. intros p s1 Hp. unfold proc_at, deref in Hp.
  destruct (k_procs s !! k_cur s) as [q|] eqn:Hq; [|done]. injection Hp as <- <-. by apply wlp_modify, HQ.
Qed.

Lemma wlp_exec_commit path elf pgdir sz sp s :
  in_user sz -> wlp (exec_commit kend path elf pgdir sz sp) s (fun r s' => r = 0 /\ replaced s s').
Proof.
  intros Hsz. apply wlp_bind, wlp_deref. intros name _. apply wlp_bind, wlp_my_upd. intros p Hp.
  set (s1 := set_procs _ s). apply wlp_bind. eapply (wlp_respects below); [frame|]. intros q s2 [Hps Hfs Hpi Hcu].
  apply wlp_bind, wlp_my_upd. intros p1 Hp1. apply wlp_bind.
  eapply (wlp_respects below); [frame|]. intros [] s3 [Hps3 Hfs3 Hpi3 Hcu3]. apply wlp_ret. split; [done|].
  rewrite Hcu in Hp1, Hps3. rewrite Hps in Hp1, Hps3. simpl in *.
  rewrite list_lookup_insert_eq in Hp1 by (by eapply lookup_lt_Some). injection Hp1 as <-.
  rewrite list_insert_insert_eq in Hps3. eexists p, _. split; [done|]. split; [exact Hps3|]. split; [by split_and!; try apply Hsz|].
  split_and!; congruence.
Qed.

Lemma below_replaced s s1 s' : below s s1 -> replaced s1 s' -> replaced s s'.
Proof.
  intros [Hp Hf Hpi Hc] (p & p' & Hl & He & Hn & Hf' & Hpi' & Hc'). rewrite Hp, Hc in *.
  exists p, p'. split_and!; congruence || apply Hn || done.
Qed.
End Exec.

#[export] Hint Resolve below_vm below_myproc below_fs below_loaduvm_loop below_load_segments below_build_stack : frame.

Lemma wlp_below {D A} (s0 s1 : kern D) (m : M (kern D) A) (Q : A -> kern D -> Prop) :
  below s0 s1 -> respects below m -> (forall a s2, below s0 s2 -> Q a s2) -> wlp m s1 Q.
Proof. intros H0 Hm HQ. eapply wlp_respects; [done|]. intros a s2 H2. apply HQ. by etrans. Qed.

(** The next part of [exec] below the table. *)
Ltac step_below a :=
  apply wlp_bind;
  lazymatch goal with
  | H0 : below ?s0 ?s1 |- wlp _ ?s1 _ => eapply (wlp_below s0 s1 _ _ H0); [solve [frame]|]; clear H0; intros a ? ?
  end.

Lemma wlp_exec_bad {D} `{DiskDriver D} kend pgdir ip (s0 s : kern D) :
  below s0 s -> wlp (exec_bad kend pgdir ip) s (fun r s' => r = -1 /\ below s0 s' \/ r = 0 /\ replaced s0 s').
Proof.
  intros Hb r s' He. left. split; [|etrans; [exact Hb|by eapply below_exec_bad]].
  revert He. unfold exec_bad. intros (? & ? & _ & (? & ? & _ & [= <- _])%bind_inv)%bind_inv. done.
Qed.

Lemma wlp_exec {D} `{DiskDriver D} kend kdata devsw_read junk path argv (s : kern D) :
  wlp (exec kend kdata devsw_read junk path argv) s (fun r s' => r = -1 /\ below s s' \/ r = 0 /\ replaced s s').
Proof.
  assert (below s s) as Hb by done. unfold exec. step_below p. step_below u. step_below c. step_below ip.
  destruct ip as [ip|]; [|step_below x; apply wlp_ret; by left].
  step_below x2. step_below r. case_match; [by apply wlp_exec_bad|]. case_match; [by apply wlp_exec_bad|].
  step_below pgdir. case_match; [by apply wlp_exec_bad|].
  apply wlp_bind. intros sz sl He. pose proof (below_load_segments _ _ _ _ _ _ _ _ _ _ He) as Hsl.
  pose proof (wlp_load_segments _ _ _ _ _ _ 0 _ ltac:(by unfold in_user, KERNBASE) _ _ He) as Hsz. clear He.
  assert (below s sl) as Hbl by (etrans; [eassumption|exact Hsl]). clear Hsl.
  destruct sz as [sz|]; [|by apply wlp_exec_bad]. specialize (Hsz sz eq_refl).
  step_below x3. step_below x4. apply wlp_bind. intros sz1 sa He.
  pose proof (below_vm _ _ _ _ He) as Hsa. assert (below s sa) as Hba by (etrans; [eassumption|exact Hsa]). clear Hsa.
  unfold vm, zoom in He. destruct (allocuvm _ _ _ _ _) as [sz2 v| | | |] eqn:Ha; [|done..]. injection He as <- _.
  assert (in_user sz2) as Hsz2.
  { eapply allocuvm_range; [apply u32_range| |exact Ha]. unfold in_user, KERNBASE in Hsz. rewrite PGROUNDUP_spec by lia.
    unfold PGSIZE. rewrite u32_small by elia. lia. }
  case_match; [by apply wlp_exec_bad|]. step_below x5. step_below sp. destruct sp as [sp|]; [|by apply wlp_exec_bad].
  rewrite u32_in_user by done. eapply wlp_mono; [by apply wlp_exec_commit|].
  intros r' s' [-> Hr]. right. split; [done|]. by eapply below_replaced.
Qed.


(** A kernel on the example image, with one process in the root directory. *)
Definition proc_img : proc := with_cwd (Some 0%nat) (with_state RUNNING (with_pid 1 proc_bss)).
Definition kern_off : kern memdisk :=
  Kern (fs_bss (log_bss img 1)) (Vmst ∅ 0 1) (replicate NFILE file_bss) ∅
    (proc_img :: replicate 63 proc_bss) 0 2 (Some 0%nat) 0.
Definition boot_disk1 : M (kern memdisk) unit :=
  fs (dbuf binit) ;; fs (xv6fs_iinit ROOTDEV) ;; fs (log (initlog ROOTDEV)).
Definition after {A} (m : M (kern memdisk) A) (s : kern memdisk) : kern memdisk :=
  match m s with Ok _ s' => s' | _ => s end.
Definition value_of {A} (m : M (kern memdisk) A) (s : kern memdisk) : option A :=
  match m s with Ok a _ => Some a | _ => None end.
Lemma value_after {A} (m : M (kern memdisk) A) s a : value_of m s = Some a -> m s = Ok a (after m s).
Proof. unfold value_of, after. destruct (m s); [|done..]. by intros [= ->]. Qed.

(** The file [/f] is not a program. *)
#[local] Notation exec_f := (exec (D:=memdisk) 0 0 (fun _ => None) (replicate 255 0) [47; 102] []).

(** The kernel that is built with the disk in memory (memide.c) does not
    survive its first process: [forkret] reads the super block of the ext2 device,
    and the driver panics on every device but the first. *)
Theorem memfs_kernel_panics :
  (fs (dbuf binit) ;; forkret true) kern_off = Panic "iderw: request not for disk 1".
Proof. vm_compute. reflexivity. Qed.
