(* ===== verification/ReadWrite.v ===== *)
(** [readi] and [writei] on files of the xv6 file system: a file is a list of
    bytes, and the two operations read and overwrite a part of it. *)

From S2P Require Import Prelude Bytes Sleeplock Buf Ring Memide Bio Cache Log Txn Inode Xv6fs Example Blocks CString Ext2fs Vfs InodeSpec FileSpec.

Section ReadWrite.
Context {D : Type} `{DiskDriver D} `{!DiskDriverLaws D}.
Context (V : Z -> Z -> Prop) (pid : Z) (sb : superblock) (Hla : layout V sb).
Context (devsw_read : Z -> option (nat -> Z -> M (fsst D) (Z * list Z))).
Context (devsw_write : Z -> option (nat -> list Z -> Z -> M (fsst D) Z)).
Implicit Types (s : fsst D) (v d : blocks) (L A : list Z).

Abbreviation ftxn := (ftxn V pid sb).
Abbreviation readi := (readi devsw_read).
Abbreviation writei := (writei devsw_write).

(** Cache entry [ip] holds the inode [x] of a file or directory with addresses
    [A] in table slot [k]. *)
Record xfile s v (ip : nat) (x : inode) (k : nat) A : Prop := {
  xf_own : iown s ip x k A;
  xf_ops : i_iops x = Some XV6FS;
  xf_type : i_type x <> T_DEV;
  xf_ok : file_ok sb v A;
  xf_bm : bm_ok sb v;
  xf_size : 0 <= i_size x <= maxblk * 1024;
  xf_cov : covered v A (i_size x);
  xf_inum : 0 <= i_inum x < sb_ninodes sb;
  xf_disk : s16_ok (i_type x) /\ s16_ok (i_major x) /\ s16_ok (i_minor x) /\ s16_ok (i_nlink x);
}.

Definition contents v (x : inode) A : list Z := fbytes v A 0 (i_size x).

(** Overwriting a list from position [off] on, growing it if need be. *)
Definition overwrite (off : nat) (bs c : list Z) : list Z := take off c ++ bs ++ drop (off + length bs) c.

Lemma length_contents v x A : length (contents v x A) = Z.to_nat (i_size x).
Proof. apply length_bytes_of. Qed.

Lemma lookup_fbytes v A off n i :
  (i < Z.to_nat n)%nat -> fbytes v A off n !! i = Some (fbyte v A (off + Z.of_nat i)).
Proof. apply lookup_bytes_of. Qed.

Lemma contents_slice v x A off n :
  0 <= off -> 0 <= n -> off + n <= i_size x ->
  slice (Z.to_nat off) (Z.to_nat n) (contents v x A) = fbytes v A off n.
Proof. apply slice_bytes_prefix. Qed.

(** ** Reading *)

Lemma wp_readi s v d h L ip x k A off n Q :
  ftxn s v d h [] L -> xfile s v ip x k A -> (length L < 22)%nat -> 0 <= off <= i_size x -> 0 <= n < 2 ^ 31 ->
  (forall s', ftxn s' v d h [] L -> xfile s' v ip x k A -> frame k s s' ->
     let m := Z.min n (i_size x - off) in
     Q (m, slice (Z.to_nat off) (Z.to_nat m) (contents v x A)) s') ->
  wp (readi ip off n) s Q.
Proof.
  intros Ht Hx HL Hoff Hn HQ. pose proof Hx as []. unfold maxblk in *.
  unfold Vfs.readi, ops_of. eapply wp_bind, wp_bind, wp_inode_at; [done|]. rewrite xf_ops0. apply wp_ret.
  unfold xv6fs_readi. eapply wp_bind, wp_inode_at; [done|].
  rewrite (proj2 (Z.eqb_neq _ _) xf_type0), (proj2 (Z.ltb_ge _ _)) by lia.
  rewrite u32_small, (proj2 (Z.ltb_ge (off + n) off)) by lia. simpl orb. cbn iota.
  set (m := Z.min n (i_size x - off)).
  assert ((if i_size x <? off + n then i_size x - off else n) = m) as ->.
  { unfold m. destruct (Z.ltb_spec (i_size x) (off + n)); lia. }
  assert (0 <= m /\ off + m <= i_size x /\ m <= n) as Hm by (unfold m; lia).
  eapply wp_bind, (wp_read_loop V pid sb Hla); [exact Ht|done|done|done| |lia|lia|unfold maxblk; lia|done|apply rounds_enough; lia|].
  { intros bn ? ?. apply xf_cov0; lia. }
  intros s' Ht' Hi' Hfr. apply wp_ret. rewrite s32_small by lia. rewrite <- (contents_slice v x A) by lia.
  apply HQ; [done| |done]. by split.
Qed.

(** ** Writing *)

Lemma lookup_overwrite off bs c i :
  (off <= length c)%nat ->
  overwrite off bs c !! i = if decide (off <= i < off + length bs)%nat then bs !! (i - off)%nat else c !! i.
Proof.
  intros Hoff. unfold overwrite. destruct (decide (i < off)%nat) as [Hlt|Hge].
  - rewrite lookup_app_l, lookup_take_lt by (rewrite ?length_take; lia). rewrite decide_False by lia. done.
  - rewrite lookup_app_r, length_take_le by (rewrite ?length_take; lia). case_decide as Hin.
    + by rewrite lookup_app_l by lia.
    + rewrite lookup_app_r, lookup_drop by lia. f_equal. lia.
Qed.

Lemma length_overwrite off bs c :
  (off <= length c)%nat -> length (overwrite off bs c) = Nat.max (length c) (off + length bs).
Proof. intros. unfold overwrite. rewrite !length_app, length_take, length_drop. lia. Qed.

Lemma contents_writes v A v' A' off src x :
  writes sb v A v' A' off src -> covered v A (i_size x) -> 0 <= off <= i_size x ->
  0 <= i_size x <= maxblk * 1024 -> off + Z.of_nat (length src) <= maxblk * 1024 ->
  let n := Z.max (i_size x) (off + Z.of_nat (length src)) in
  fbytes v' A' 0 n = overwrite (Z.to_nat off) src (contents v x A) /\ covered v' A' n.
Proof.
  intros Hw Hcov Hoff Hsz Hmax n. unfold maxblk in *. pose proof (length_contents v x A) as Hlc. split.
  - apply (list_eq_same_length _ _ (Z.to_nat n)).
    + rewrite length_overwrite, Hlc by lia. unfold n. lia.
    + apply length_bytes_of.
    + intros i a b Hi Ha Hb. rewrite lookup_fbytes in Ha by done. injection Ha as <-.
      rewrite lookup_overwrite in Hb by lia. case_decide as Hin.
      * rewrite (wr_bytes _ _ _ _ _ _ _ Hw) by lia. unfold rd.
        replace (Z.to_nat (0 + Z.of_nat i - off)) with (i - Z.to_nat off)%nat by lia. by rewrite Hb.
      * unfold contents in Hb. rewrite lookup_fbytes in Hb by (unfold n in *; lia). injection Hb as <-.
        apply (wr_keep _ _ _ _ _ _ _ Hw); [unfold maxblk, n in *; lia|lia|].
        apply Hcov; unfold n in *; elia.
  - intros bn Hbn Hlt. destruct (decide (bn * 1024 < i_size x)) as [Hold|Hnew].
    + rewrite (wr_old _ _ _ _ _ _ _ Hw); [by apply Hcov|unfold maxblk; lia|by apply Hcov].
    + pose proof (wr_cov _ _ _ _ _ _ _ Hw (bn * 1024)) as Hc.
      replace (bn * 1024 / 1024) with bn in Hc by elia. apply Hc. unfold n in Hlt. lia.
Qed.

(** What [writei] leaves of everything that is not the file. *)
Record others v A v' A' (inum : Z) : Prop := {
  ot_inodes : forall i, 0 <= i < sb_ninodes sb -> i <> inum -> inode_on sb v' i = inode_on sb v i;
  ot_blocks : forall c, data_block sb c -> in_use sb v c = true -> not_in v A c ->
    v' ROOTDEV c = v ROOTDEV c /\ in_use sb v' c = true /\ not_in v' A' c;
}.

Lemma writes_others v A v' A' off bs inum : writes sb v A v' A' off bs -> others v A v' A' inum.
Proof.
  intros Hw. split; [|apply Hw]. intros i Hi _. unfold inode_on.
  rewrite (wr_meta _ _ _ _ _ _ _ Hw); [done|]. by apply (inode_block_range V).
Qed.

Lemma addrs_u32 v A : file_ok sb v A -> Forall u32_ok A.
Proof.
  intros [Hlen Hok]. apply Forall_lookup. intros i a Ha. pose proof (lookup_lt_Some _ _ _ Ha) as Hi.
  destruct (decide (a = 0)) as [->|Hne]; [done|].
  assert (data_block sb a) as Hd.
  { destruct (decide (i = 12)%nat) as [->|Hi12].
    - assert (ind A = a) as <- by (unfold ind, NDIRECT; by rewrite Ha). by apply Hok.
    - assert (baddr v A (Z.of_nat i) = a) as <-.
      { unfold baddr. rewrite (proj2 (Z.ltb_lt _ _)) by lia. by rewrite Nat2Z.id, Ha. }
      apply Hok; [unfold maxblk; lia|done]. }
  pose proof (data_block_pos V sb Hla a Hd). destruct Hla. unfold u32_ok. lia.
Qed.

(** Views that agree on data blocks and bitmap give a file the same bytes. *)
Definition agree v v' : Prop :=
  (forall c, data_block sb c -> v' ROOTDEV c = v ROOTDEV c) /\
  (forall c, 0 <= c < sb_size sb -> in_use sb v' c = in_use sb v c).

Lemma agree_inode v inum di : 0 <= inum < sb_ninodes sb -> agree v (inode_written sb v inum di).
Proof.
  intros Hi. pose proof (inode_block_range V sb Hla inum Hi) as Hr. unfold inode_written. split.
  - intros c Hc. pose proof (data_block_pos V sb Hla c Hc). by rewrite apply_write_ne by (intros [=]; lia).
  - intros c Hc. apply in_use_write. intros [= He]. unfold bitmap_block, BPB, BSIZE in He. elia.
Qed.

Lemma agree_baddr v v' A n : agree v v' -> file_ok sb v A -> baddr v' A n = baddr v A n.
Proof.
  intros [Hd _] [_ Hok]. unfold baddr. destruct (n <? 12); [done|]. destruct (ind A =? 0) eqn:Hi; [done|].
  apply Z.eqb_neq in Hi. rewrite Hd; [done|]. by apply Hok.
Qed.

Lemma agree_file v v' A n :
  agree v v' -> file_ok sb v A -> bm_ok sb v -> covered v A n -> 0 <= n <= maxblk * 1024 ->
  file_ok sb v' A /\ bm_ok sb v' /\ covered v' A n /\ fbytes v' A 0 n = fbytes v A 0 n.
Proof.
  intros Hag Hf Hbm Hcov Hn. pose proof Hag as [Hd Hu]. pose proof Hf as [Hlen Hok]. split; [|split; [|split]].
  - split; [done|]. eapply addrs_ok_ext; [exact Hok|by intros; apply agree_baddr|].
    intros c Hc Huse. pose proof (data_block_pos V sb Hla c Hc). by rewrite Hu by lia.
  - intros c Hc. rewrite Hu by done. by apply Hbm.
  - intros bn ? ?. rewrite (agree_baddr v) by done. by apply Hcov.
  - unfold fbytes, bytes_of. apply list_fmap_ext. intros i o Ho. apply lookup_seqZ in Ho as [-> Ho].
    unfold maxblk in *. unfold fbyte. rewrite (agree_baddr v) by done. rewrite Hd; [done|].
    apply Hok; [unfold maxblk; elia|]. apply Hcov; elia.
Qed.

Lemma agree_others v A v1 A1 inum di :
  0 <= inum < sb_ninodes sb -> dinode_ok di -> block_ok (v1 ROOTDEV (inode_block sb inum)) -> file_ok sb v1 A1 ->
  others v A v1 A1 inum -> others v A (inode_written sb v1 inum di) A1 inum.
Proof.
  intros Hi Hdi Hb Hf [Ho1 Ho2]. pose proof (agree_inode v1 inum di Hi) as Hag. split.
  - intros i Hir Hne. by rewrite inode_on_other, Ho1.
  - intros c Hc Hu Hn. destruct (Ho2 c Hc Hu Hn) as (E1 & E2 & E3 & E4).
    pose proof (data_block_pos V sb Hla c Hc) as Hp. destruct Hag as [Hd Huse].
    rewrite Hd, Huse by (done || lia). split; [done|]. split; [done|]. split; [done|].
    intros n Hnr. rewrite (agree_baddr v1); [by apply E4|by split|done].
Qed.

(** The state after [writei]. *)
Definition writei_post s v d h L ip x k A src off (Q : Z -> fsst D -> Prop) : Prop :=
  forall s' v' A' L', let n := Z.of_nat (length src) in let x' := with_isize (Z.max (i_size x) (off + n)) x in
    ftxn s' v' d h [] L' -> xfile s' v' ip x' k A' -> frame k (set_ino ip x' s) s' ->
    contents v' x' A' = overwrite (Z.to_nat off) src (contents v x A) ->
    others v A v' A' (i_inum x) ->
    (inode_on sb v (i_inum x) = dinode_of x A -> inode_on sb v' (i_inum x) = dinode_of x' A') ->
    (Z.of_nat (length L') <= Z.of_nat (length L) + 6 * chunks off n + 1) -> Q n s'.

Lemma frame_set_ino k ip x s s' : frame k s s' -> frame k (set_ino ip x s) (set_ino ip x s').
Proof. intros (l & A & ->). by exists l, A. Qed.

Lemma frame_sb k s s' : frame k s s' -> fs_sb s' = fs_sb s.
Proof. by intros (l & A & ->). Qed.

Lemma set_ino_id s ip x k A : iown s ip x k A -> set_ino ip x s = s.
Proof.
  intros [Hx _ _ _]. unfold set_ino, set_inodes. destruct s. simpl in *. f_equal. by apply list_insert_id.
Qed.

Lemma with_isize_id x n : n = i_size x -> with_isize n x = x.
Proof. intros ->. by destruct x. Qed.

(** The checks at the start of [writei] pass. *)
Lemma writei_checks s v ip x k A (src : list Z) off Q :
  xfile s v ip x k A -> 0 <= off <= i_size x -> off + Z.of_nat (length src) <= maxblk * 1024 ->
  let n := Z.of_nat (length src) in
  wp (off ← xv6fs_write_loop (rounds n) ip src off n;
      x ← inode_at ip;
      guard_ok ((0 <? n) && (i_size x <? off)) (inode_upd ip (with_isize off) ;; iupdate ip) ;;
      mret (s32 n)) s Q ->
  wp (writei ip src off n) s Q.
Proof.
  intros [] Hoff Hmax n Hw. unfold maxblk in *.
  unfold Vfs.writei, ops_of. eapply wp_bind, wp_bind, wp_inode_at; [done|]. rewrite xf_ops0. apply wp_ret.
  unfold xv6fs_writei, writei_with. eapply wp_bind, wp_inode_at; [done|].
  rewrite (proj2 (Z.eqb_neq _ _) xf_type0), (proj2 (Z.ltb_ge (i_size x) off)) by lia.
  rewrite (u32_small (off + n)), (proj2 (Z.ltb_ge (off + n) off)) by lia.
  change (u32 (MAXFILE * BSIZE)) with 274432. rewrite (proj2 (Z.ltb_ge 274432 (off + n))) by lia.
  rewrite (proj2 (Z.ltb_ge (Z.of_nat (length src)) n)) by lia. exact Hw.
Qed.

Lemma wp_writei s v d h L ip x k A src off Q :
  ftxn s v d h [] L -> xfile s v ip x k A -> bytes_ok src -> 0 <= off <= i_size x ->
  let n := Z.of_nat (length src) in
  off + n <= maxblk * 1024 -> Z.of_nat (length L) + 6 * chunks off n <= 27 -> 2 * chunks off n <= Z.of_nat (nfree sb v) ->
  writei_post s v d h L ip x k A src off Q -> wp (writei ip src off n) s Q.
Proof.
  intros Ht Hx Hsrc Hoff n Hmax HL Hfree HQ. eapply writei_checks; [exact Hx|done|done|]. fold n.
  pose proof Hx as []. assert (maxblk = 268) as Hmb by done.
  eapply wp_bind, (wp_write_loop V pid sb Hla); [exact Ht|done|done|done|done|lia|lia|done|done|done|done|apply rounds_enough; lia|].
  intros s1 v1 A1 L1 Ht1 Hi1 Hfr Hw HL1. eapply wp_bind, wp_inode_at; [exact Hi1|].
  destruct (contents_writes v A v1 A1 off src x Hw) as [Hc Hcov]; [done|done|done|done|]. fold n in Hc, Hcov.
  pose proof (writes_others _ _ _ _ _ _ (i_inum x) Hw) as Hot.
  pose proof (set_ino_id _ _ _ _ _ xf_own0) as Hid.
  destruct ((0 <? n) && (i_size x <? off + n)) eqn:Hgrow.
  - apply andb_true_iff in Hgrow as [Hn0 Hgrow]. apply Z.ltb_lt in Hn0, Hgrow.
    rewrite (Z.max_r (i_size x)) in Hc, Hcov by lia. set (x' := with_isize (off + n) x).
    assert (iown (set_ino ip x' s1) ip x' k A1) as Hi2 by (apply (iown_set _ _ x); [done|apply Hi1|apply Hi1]).
    eapply wp_bind, wp_bind, wp_inode_upd; [exact Hi1|]. unfold Vfs.iupdate, ops_of.
    eapply wp_bind, wp_bind, wp_inode_at; [exact Hi2|]. change (i_iops x') with (i_iops x). rewrite xf_ops0. apply wp_ret.
    assert (file_ok sb v1 A1) as Hf1 by apply Hw.
    eapply (wp_iupdate V pid sb Hla); [split; [by apply Ht1|apply Ht1]|exact Hi2|apply Hf1|done| |lia|].
    { split; [apply not_elem_of_nil|left; simpl; unfold NBUF; lia]. }
    intros l Ht3. apply wp_ret. rewrite s32_small by lia. change (i_inum x') with (i_inum x) in Ht3.
    assert (block_ok (v1 ROOTDEV (inode_block sb (i_inum x)))) as Hbk.
    { eapply ftxn_block_ok; [exact Ht1|]. by apply (inode_block_home V sb Hla). }
    assert (dinode_ok (dinode_of x' A1)) as Hdi.
    { destruct xf_disk0 as (? & ? & ? & ?). split; try done; [unfold u32_ok; simpl; lia|apply Hf1|by eapply addrs_u32]. }
    destruct (agree_file v1 (inode_written sb v1 (i_inum x) (dinode_of x' A1)) A1 (off + n))
      as (Hf2 & Hbm2 & Hcov2 & Hb2); [by apply agree_inode|done|apply Hw|done|lia|].
    eapply HQ; [exact Ht3| | | | | |pose proof (log_add_length L1 (inode_block sb (i_inum x))); fold n; lia];
      fold n; rewrite ?(Z.max_r (i_size x)) by lia; fold x'.
    + split; try done; [by apply iown_log|simpl; lia].
    + apply frame_to, frame_set_ino. exact Hfr.
    + unfold contents at 1. simpl. by rewrite Hb2.
    + by apply agree_others.
    + intros _. by apply inode_on_written.
  - assert (off + n <= i_size x) as Hle.
    { apply andb_false_iff in Hgrow as [Hg|Hg]; apply Z.ltb_ge in Hg; lia. }
    rewrite (Z.max_l (i_size x)) in Hc, Hcov by lia. apply wp_bind, wp_ret, wp_ret. rewrite s32_small by lia.
    assert (A1 = A) as ->.
    { apply (wr_same _ _ _ _ _ _ _ Hw). intros o Ho. apply xf_cov0; elia. }
    eapply HQ; [exact Ht1| | | | | |fold n; lia]; fold n; rewrite ?(Z.max_l (i_size x)) by lia;
      rewrite ?(with_isize_id x (i_size x)) by done.
    + split; try done; apply Hw.
    + by rewrite Hid.
    + done.
    + done.
    + intros <-. unfold inode_on. rewrite (wr_meta _ _ _ _ _ _ _ Hw); [done|]. by apply (inode_block_range V).
Qed.
End ReadWrite.

(** ** The file of the image *)

Definition img_inode : inode := Inode 1 2 1 (Sleeplock 1 7) 1 (Some XV6FS) T_FILE 0 0 1 5 (Some (XAddrs 0)).
Definition img_addrs : list Z := 36 :: replicate 12 0.

Lemma img_nfree (v : blocks) : (forall b, 32 <= b < 64 \/ b = 1 -> v 1 b = img_map b) -> nfree img_sb v = 27%nat.
Proof.
  intros Hv. unfold nfree, free_list.
  rewrite (filter_agree _ (fun b => (b <? 37) = false)); [by vm_compute|].
  intros b Hb. apply elem_of_seqZ in Hb. simpl in Hb. by rewrite (img_in_use v b Hv) by lia.
Qed.

(** Files of one block. *)
Lemma one_baddr (v : blocks) b n : 0 <= n < maxblk -> baddr v (b :: replicate 12 0) n = if decide (n = 0) then b else 0.
Proof.
  intros Hn. unfold baddr. change (ind (b :: replicate 12 0) =? 0) with true. cbn iota. destruct (Z.ltb_spec n 12); [|by rewrite decide_False by lia].
  case_decide as Hn0; [by subst|]. destruct (Z.to_nat n) as [|j] eqn:Hj; [lia|].
  change ((b :: replicate 12 0) !! S j) with (replicate 12 0 !! j). rewrite lookup_replicate_2; [done|lia].
Qed.

Lemma one_block_ok (v : blocks) b : (forall b, 32 <= b < 64 \/ b = 1 -> v 1 b = img_map b) -> 35 <= b < 37 ->
  file_ok img_sb v (b :: replicate 12 0) /\ bm_ok img_sb v.
Proof.
  intros Hv Hb. split.
  - split; [done|]. split.
    + intros n Hn. rewrite one_baddr by done. case_decide; [|done]. intros _. split.
      * unfold data_block. change (datastart img_sb) with 35. cbn. lia.
      * rewrite (img_in_use v b Hv) by (cbn; lia). apply Z.ltb_lt. lia.
    + done.
    + intros n n' Hn Hn'. rewrite !one_baddr by done. repeat case_decide; lia.
    + intros n Hn. rewrite one_baddr by done. case_decide; [|done]. change (ind _) with 0. lia.
  - intros c Hc. rewrite (img_in_use v c Hv Hc). intros Hlt. apply Z.ltb_ge in Hlt. change (datastart img_sb) with 35. lia.
Qed.

Lemma img_xfile (s : fsst memdisk) (v : blocks) :
  (forall b, 32 <= b < 64 \/ b = 1 -> v 1 b = img_map b) -> iown s 0 img_inode 0 img_addrs ->
  xfile img_sb s v 0 img_inode 0 img_addrs /\ contents v img_inode img_addrs = [104; 101; 108; 108; 111].
Proof.
  intros Hv Hi. split; [split|].
  - done.
  - done.
  - done.
  - by apply one_block_ok.
  - by apply (one_block_ok v 36).
  - by vm_compute.
  - intros bn ? ?. simpl in *. by replace bn with 0 by lia.
  - simpl. lia.
  - unfold s16_ok. simpl. unfold T_FILE. lia.
  - unfold contents, fbytes, bytes_of. simpl. change (baddr v img_addrs (0 / 1024)) with 36.
    change (v ROOTDEV (baddr v img_addrs _)) with (v 1 36).
    rewrite Hv by lia. by vm_compute.
Qed.

(** * Properties *)


