(* ===== verification/PathSpec.v ===== *)
(** Path elements: [skipelem] of fs.c against the list of the elements of a path. *)

From S2P Require Import Prelude Bytes CString Buf Inode Ext2fs Vfs.

(** The strings between the slashes of a path, and those that are not empty. *)
Fixpoint fields (path : list Z) : list (list Z) :=
  match path with
  | [] => [[]]
  | c :: t =>
      if c =? slash then [] :: fields t
      else match fields t with
           | e :: es => (c :: e) :: es
           | [] => [[c]]
           end
  end.
Definition elems (path : list Z) : list (list Z) := filter (fun e => e <> []) (fields path).

Lemma fields_cons path : exists e es, fields path = e :: es.
Proof.
  destruct path as [|c t]; simpl; [eauto|]. destruct (c =? slash); [eauto|].
  destruct (fields t); eauto.
Qed.

Lemma elems_slash t : elems (slash :: t) = elems t.
Proof. done. Qed.

Lemma elems_skip_slashes path : elems (skip_slashes path) = elems path.
Proof.
  induction path as [|c t IH]; [done|]. simpl. destruct (Z.eqb_spec c slash) as [->|]; [|done].
  by rewrite elems_slash.
Qed.

(** What [skip_slashes] leaves does not start with a slash. *)
Definition no_slash (path : list Z) : Prop := forall t, path <> slash :: t.

Lemma skip_slashes_no_slash path : no_slash (skip_slashes path).
Proof.
  induction path as [|c t IH]; intros t'; [done|]. simpl.
  destruct (Z.eqb_spec c slash); [apply IH|congruence].
Qed.

Lemma no_slash_elems path : no_slash path -> elems path = [] -> path = [].
Proof.
  destruct path as [|c t]; [done|]. intros Hn. unfold elems. simpl.
  destruct (Z.eqb_spec c slash) as [->|]; [by destruct (Hn t)|].
  destruct (fields_cons t) as (e & es & ->). by rewrite filter_cons_True.
Qed.

Lemma length_skip_slashes path : (length (skip_slashes path) <= length path)%nat.
Proof. induction path as [|c t IH]; simpl; [done|]. destruct (c =? slash); simpl; lia. Qed.

Lemma span_elem_fields path e r :
  span_elem path = (e, r) -> exists es, fields path = e :: es /\ filter (fun e => e <> []) es = elems r.
Proof.
  revert e r. induction path as [|c t IH]; intros e r; simpl.
  - intros [= <- <-]. by exists [].
  - destruct (Z.eqb_spec c slash) as [->|]; [intros [= <- <-]; by exists (fields t)|].
    destruct (span_elem t) as [e' r'] eqn:Hs. intros [= <- <-].
    destruct (IH e' r' eq_refl) as (es & -> & Hes). by exists es.
Qed.

Lemma span_elem_length path e r :
  span_elem path = (e, r) -> (length e + length r = length path)%nat.
Proof.
  revert e r. induction path as [|c t IH]; intros e r; simpl; [by intros [= <- <-]|].
  destruct (c =? slash); [by intros [= <- <-]|].
  destruct (span_elem t) as [e' r'] eqn:Hs. intros [= <- <-]. simpl. by rewrite (IH e' r').
Qed.

(** The length [skipelem] allows an element on device [dev]. *)
Definition name_max (dev : Z) : nat := if dev =? ROOTDEV then DIRSIZ else EXT2_NAME_LEN.

(** The string in a name buffer of which [n] bytes count. *)
Definition name_str (n : nat) (name : list Z) : list Z := cstr (take n name).

Lemma cstr_id e : 0 ∉ e -> cstr e = e.
Proof.
  induction e as [|c e IH]; intros Hn; [done|]. apply not_elem_of_cons in Hn as [Hc Hn]. simpl.
  destruct (Z.eqb_spec c 0) as [->|]; [done|]. by rewrite IH.
Qed.

Lemma cstr_app_nul e l : 0 ∉ e -> cstr (e ++ NUL :: l) = e.
Proof.
  induction e as [|c e IH]; intros Hn; [done|]. apply not_elem_of_cons in Hn as [Hc Hn]. simpl.
  destruct (Z.eqb_spec c 0) as [->|]; [done|]. by rewrite IH.
Qed.

(** The bytes [skipelem] stores at [name] make [name] the element, cut at the
    length allowed. *)
Lemma name_written n e name :
  0 ∉ e ->
  (length (if (n <=? length e)%nat then take n e else e ++ [NUL]) <= length name)%nat ->
  name_str n (splice 0 (if (n <=? length e)%nat then take n e else e ++ [NUL]) name) = take n e.
Proof.
  intros Hnul. unfold name_str, splice. rewrite take_0. simpl.
  destruct (Nat.leb_spec n (length e)) as [Hle|Hlt]; intros Hlen.
  - rewrite take_app_le by (rewrite length_take; lia). rewrite take_take, Nat.min_id.
    apply cstr_id. intros Hin. apply Hnul. apply elem_of_take in Hin as (i & Hi & _).
    by eapply list_elem_of_lookup_2.
  - rewrite <- app_assoc. simpl. rewrite cstr_take, cstr_app_nul by done. done.
Qed.

(** [skipelem] takes the first element off a path. On a path without elements
    it answers null. Otherwise, when the caller's buffer has room for the longest
    name of the device (and a NUL after a shorter one), [name] gets the first
    element cut at that length, and the path returned has the remaining elements,
    does not begin with a slash, is shorter than the argument, and is empty exactly
    when the element was the last one. *)
Theorem skipelem_first path name dev :
  0 ∉ path -> (name_max dev <= length name)%nat ->
  match elems path with
  | [] => skipelem path name dev = Some None
  | e :: es =>
      exists rest name', skipelem path name dev = Some (Some (rest, name')) /\
        elems rest = es /\ no_slash rest /\ (length rest < length path)%nat /\
        (rest = [] <-> es = []) /\
        name_str (name_max dev) name' = take (name_max dev) e /\ length name' = length name
  end.
Proof.
  intros Hnul Hbuf. unfold skipelem. rewrite <- elems_skip_slashes.
  fold (name_max dev). pose proof (skip_slashes_no_slash path) as Hns.
  assert (0 ∉ skip_slashes path) as Hnul'.
  { clear -Hnul. induction path as [|c t IH]; [done|]. simpl. apply not_elem_of_cons in Hnul as [? ?].
    destruct (c =? slash); [auto|]. by apply not_elem_of_cons. }
  pose proof (length_skip_slashes path) as Hlen.
  destruct (skip_slashes path) as [|c s] eqn:Hs; [done|].
  destruct (span_elem (c :: s)) as [e r] eqn:Hsp.
  destruct (span_elem_fields _ _ _ Hsp) as (es & Hf & Hes). pose proof (span_elem_length _ _ _ Hsp) as Hl.
  assert (e <> []) as Hne.
  { intros ->. simpl in Hsp. destruct (Z.eqb_spec c slash) as [->|]; [by destruct (Hns s)|].
    by destruct (span_elem s). }
  unfold elems. rewrite Hf, filter_cons_True by done. rewrite Hes.
  assert (0 ∉ e) as Hnule.
  { intros Hin. apply Hnul'. clear -Hsp Hin. revert e r Hsp Hin. generalize (c :: s). intros l.
    induction l as [|d l IH]; intros e r Hsp Hin; simpl in Hsp; [injection Hsp as <- <-; done|].
    destruct (d =? slash); [injection Hsp as <- <-; by apply not_elem_of_nil in Hin|].
    destruct (span_elem l) as [e' r'] eqn:Hs. injection Hsp as <- <-.
    apply elem_of_cons in Hin as [->|Hin]; [apply list_elem_of_here|apply list_elem_of_further; by eapply IH]. }
  set (bytes := if (name_max dev <=? length e)%nat then take (name_max dev) e else e ++ [NUL]).
  assert (length bytes <= length name)%nat as Hb.
  { unfold bytes. destruct (Nat.leb_spec (name_max dev) (length e)); [rewrite length_take; lia|].
    rewrite length_app. simpl. lia. }
  rewrite (proj2 (Nat.leb_le _ _) Hb). exists (skip_slashes r), (splice 0 bytes name).
  split; [done|]. split; [apply elems_skip_slashes|]. split; [apply skip_slashes_no_slash|].
  split. { pose proof (length_skip_slashes r). simpl in *. destruct e; [done|]. simpl in *. lia. }
  split.
  { split; intros Heq; [by rewrite <- elems_skip_slashes, Heq|].
    apply no_slash_elems; [apply skip_slashes_no_slash|]. by rewrite elems_skip_slashes. }
  split; [by apply name_written|]. apply length_splice. simpl. lia.
Qed.

Lemma skipelem_first_witness :
  exists rest name', skipelem [47; 47; 47; 97; 47; 47; 98; 98] (replicate 14 0) ROOTDEV = Some (Some (rest, name')) /\
    elems rest = [[98; 98]] /\ name_str 14 name' = [97].
Proof.
  pose proof (skipelem_first [47; 47; 47; 97; 47; 47; 98; 98] (replicate 14 0) ROOTDEV
    ltac:(by apply (bool_decide_unpack _)) ltac:(apply Nat.leb_le; reflexivity)) as Hs.
  change (elems [47; 47; 47; 97; 47; 47; 98; 98]) with [[97]; [98; 98]] in Hs.
  destruct Hs as (rest & name' & H1 & H2 & _ & _ & _ & H3 & _). exists rest, name'. done.
Defined.

(** the buffers [char name[DIRSIZ]] that the callers of [nameiparent] in
    sysfile.c pass overflow on the ext2 device: there [skipelem] copies up to
    EXT2_NAME_LEN bytes, so that a first element of 14 bytes or more is stored past
    the end of the buffer. *)
Theorem skipelem_overflows path name dev e es :
  dev <> ROOTDEV -> length name = DIRSIZ -> elems path = e :: es -> (DIRSIZ <= length e)%nat ->
  skipelem path name dev = None.
Proof.
  intros Hdev Hname Hel Hlen. unfold skipelem. rewrite (proj2 (Z.eqb_neq _ _) Hdev).
  rewrite <- elems_skip_slashes in Hel. pose proof (skip_slashes_no_slash path) as Hns.
  destruct (skip_slashes path) as [|c s]; [done|].
  destruct (span_elem (c :: s)) as [e' r] eqn:Hsp.
  destruct (span_elem_fields _ _ _ Hsp) as (es' & Hf & Hes).
  assert (e' <> []) as Hne.
  { intros ->. simpl in Hsp. destruct (Z.eqb_spec c slash) as [->|]; [by destruct (Hns s)|].
    by destruct (span_elem s). }
  unfold elems in Hel. rewrite Hf, filter_cons_True in Hel by done. injection Hel as -> _.
  rewrite Hname. unfold DIRSIZ, EXT2_NAME_LEN in *.
  destruct (Nat.leb_spec 255 (length e)); rewrite (proj2 (Nat.leb_gt _ _)); try done.
  - rewrite length_take. lia.
  - rewrite length_app. simpl. lia.
Qed.

Lemma skipelem_overflows_witness : skipelem (replicate 20 97) (replicate 14 0) EXT2DEV = None.
Proof. apply (skipelem_overflows _ _ _ (replicate 20 97) []); [done|done|reflexivity|apply Nat.leb_le; reflexivity]. Defined.
