(* ===== verification/IcacheSpec.v ===== *)
(** The inode cache: [iget] gives every inode one entry and, on the root device,
    an address slot of its own; on the ext2 device inodes share a slot. *)

From S2P Require Import Prelude Bytes Sleeplock Buf Ring Memide Bio Cache Log Inode.

Definition live (x : inode) : Prop := 0 < i_ref x.
#[export] Instance live_dec x : Decision (live x).
Proof. unfold live. apply _. Defined.

Section Icache.
Context {D : Type} `{DiskDriver D}.
Implicit Types s : fsst D.

(** The invariant of the inode cache (the entries of the root device). *)
Record icache_ok s : Prop := {
  ic_len : length (fs_inode s) = NINODE;
  ic_xlen : length (fs_xaddrs s) = NINODE;
  ic_elen : length (fs_eaddrs s) = NINODE;
  ic_ref : forall i x, fs_inode s !! i = Some x -> 0 <= i_ref x;
  ic_uniq : forall i j x y, fs_inode s !! i = Some x -> fs_inode s !! j = Some y -> live x -> live y ->
    i_dev x = i_dev y -> i_inum x = i_inum y -> i = j;
  ic_root : forall i x, fs_inode s !! i = Some x -> live x -> i_dev x = ROOTDEV ->
    i_iops x = Some XV6FS /\ exists k, i_addrs x = Some (XAddrs k);
  ic_used : forall i x k, fs_inode s !! i = Some x -> live x -> i_addrs x = Some (XAddrs k) ->
    exists a, fs_xaddrs s !! k = Some a /\ a_busy a <> 0;
  ic_inj : forall i j x y k, fs_inode s !! i = Some x -> fs_inode s !! j = Some y -> live x -> live y ->
    i_addrs x = Some (XAddrs k) -> i_addrs y = Some (XAddrs k) -> i = j;
  ic_busy : forall k a, fs_xaddrs s !! k = Some a -> a_busy a <> 0 ->
    exists i x, fs_inode s !! i = Some x /\ live x /\ i_addrs x = Some (XAddrs k);
}.

(** When an entry is free, so is an address slot of the xv6 table. *)
Lemma free_slot s i x :
  icache_ok s -> fs_inode s !! i = Some x -> i_ref x = 0 ->
  exists k a, list_find idle_addrs (fs_xaddrs s) = Some (k, a).
Proof.
  intros Hok Hx Hr. destruct (list_find idle_addrs (fs_xaddrs s)) as [[k a]|] eqn:Hf; [eauto|].
  exfalso. apply list_find_None in Hf. rewrite Forall_lookup in Hf.
  set (slot := fun x => match i_addrs x with Some (XAddrs k) => k | _ => 0%nat end).
  set (I := slot <$> delete i (fs_inode s)).
  destruct (pigeonhole I NINODE) as (k & Hk & Hni).
  { unfold I. rewrite length_fmap. pose proof (length_delete (fs_inode s) i ltac:(by eexists)) as Hl.
    rewrite (ic_len _ Hok) in Hl. unfold NINODE in *. lia. }
  destruct (lookup_lt_is_Some_2 (fs_xaddrs s) k) as [a Ha]; [rewrite (ic_xlen _ Hok); done|].
  destruct (ic_busy _ Hok k a Ha (Hf _ _ Ha)) as (j & y & Hy & Hlive & Hya).
  apply Hni. apply list_elem_of_fmap. exists y. split; [unfold slot; by rewrite Hya|].
  assert (i <> j) as Hij by (intros <-; rewrite Hx in Hy; injection Hy as <-; unfold live in Hlive; lia).
  destruct (decide (j < i)%nat).
  - apply list_elem_of_lookup. exists j. by rewrite list_lookup_delete_lt.
  - apply list_elem_of_lookup. exists (j - 1)%nat. rewrite list_lookup_delete_ge by lia.
    by replace (S (j - 1))%nat with j by lia.
Qed.

Lemma find_cached s dev inum k x :
  icache_ok s -> fs_inode s !! k = Some x -> live x -> i_dev x = dev -> i_inum x = inum ->
  list_find (caches dev inum) (fs_inode s) = Some (k, x).
Proof.
  intros Hok Hx Hl Hd Hi. destruct (list_find (caches dev inum) (fs_inode s)) as [[j y]|] eqn:Hf.
  - apply list_find_Some in Hf as (Hy & (Hy1 & Hy2 & Hy3) & _).
    assert (k = j) as <- by (by eapply ic_uniq; try done; congruence). congruence.
  - apply list_find_None in Hf. rewrite Forall_lookup in Hf. by destruct (Hf k x Hx).
Qed.

Lemma inode_upd_run ip f s x :
  fs_inode s !! ip = Some x -> inode_upd ip f s = Ok tt (set_inodes (<[ip := f x]> (fs_inode s)) s).
Proof. intros Hx. unfold inode_upd. by rewrite Hx. Qed.

(** A new entry of the cache. *)
Definition fresh (dev inum : Z) (o : inode_ops) (p : addrs_ptr) (x : inode) : inode :=
  Inode dev inum 1 (i_lock x) 0 (Some o) (i_type x) (i_major x) (i_minor x) (i_nlink x) (i_size x) (Some p).

(** [iget] on its three branches. *)
Lemma iget_hit s dev inum k x :
  icache_ok s -> fs_inode s !! k = Some x -> live x -> i_dev x = dev -> i_inum x = inum ->
  iget dev inum s = Ok k (set_inodes (<[k := with_iref (i_ref x + 1) x]> (fs_inode s)) s).
Proof.
  intros Hok Hx Hl Hd Hi. unfold iget, mbind, M_bind, gets.
  rewrite (find_cached s dev inum k x) by done. by rewrite (inode_upd_run k _ s x).
Qed.

Lemma iget_root_miss s inum k x i a :
  icache_ok s -> list_find (caches ROOTDEV inum) (fs_inode s) = None ->
  list_find unused (fs_inode s) = Some (k, x) ->
  list_find idle_addrs (fs_xaddrs s) = Some (i, a) ->
  iget ROOTDEV inum s =
    Ok k (set_xaddrs (<[i := with_busy 1 a]> (fs_xaddrs s))
           (set_inodes (<[k := fresh ROOTDEV inum XV6FS (XAddrs i) x]> (fs_inode s)) s)).
Proof.
  intros Hok Hc Hk Hi. pose proof Hk as Hk'. apply list_find_Some in Hk' as (Hx & _).
  pose proof Hi as Hi'. apply list_find_Some in Hi' as (Ha & _).
  pose proof (lookup_lt_Some _ _ _ Hx) as Hklt. pose proof (lookup_lt_Some _ _ _ Ha) as Hilt.
  destruct (lookup_lt_is_Some_2 (fs_eaddrs s) i) as [e He].
  { rewrite (ic_elen _ Hok), <- (ic_xlen _ Hok). done. }
  unfold iget, mbind, M_bind, gets. rewrite Hc, Hk, Hi. simpl. unfold eaddrs_at at 1. rewrite He. simpl.
  rewrite (inode_upd_run k _ s x) by done.
  erewrite inode_upd_run by (simpl; by rewrite list_lookup_insert_eq).
  unfold xaddrs_upd, xaddrs_at, mbind, M_bind, modify. simpl. rewrite Ha. simpl.
  unfold set_xaddrs, set_inodes. simpl. by rewrite list_insert_insert_eq.
Qed.

Lemma iget_ext2_miss s dev inum k x i e a :
  icache_ok s -> dev <> ROOTDEV -> list_find (caches dev inum) (fs_inode s) = None ->
  list_find unused (fs_inode s) = Some (k, x) ->
  fst <$> list_find idle_addrs (fs_xaddrs s) = Some i ->
  fs_eaddrs s !! i = Some e -> a_busy e = 0 -> fs_eaddrs s !! 0%nat = Some a ->
  iget dev inum s =
    Ok k (set_eaddrs (<[0%nat := with_busy 1 a]> (fs_eaddrs s))
           (set_inodes (<[k := fresh dev inum EXT2FS (EAddrs 0) x]> (fs_inode s)) s)).
Proof.
  intros Hok Hdev Hc Hk Hi He Heb Ha. pose proof Hk as Hk'. apply list_find_Some in Hk' as (Hx & _).
  pose proof (lookup_lt_Some _ _ _ Hx) as Hklt.
  unfold iget, mbind, M_bind, gets. rewrite Hc, Hk, Hi. simpl. unfold eaddrs_at at 1. rewrite He. simpl.
  rewrite decide_True by done. rewrite (inode_upd_run k _ s x) by done.
  rewrite (proj2 (Z.eqb_neq _ _) Hdev).
  erewrite inode_upd_run by (simpl; by rewrite list_lookup_insert_eq).
  unfold eaddrs_upd, eaddrs_at, mbind, M_bind, modify. simpl. rewrite Ha. simpl.
  unfold set_eaddrs, set_inodes. simpl. by rewrite list_insert_insert_eq.
Qed.

Lemma lookup_insert_inode (l : list inode) k j y x :
  <[k := y]> l !! j = Some x -> (j = k /\ x = y) \/ (j <> k /\ l !! j = Some x).
Proof. apply lookup_insert_cases. Qed.

(** Changing one entry without its identity keeps the invariant. *)
Lemma icache_ok_update s k x y :
  icache_ok s -> fs_inode s !! k = Some x -> live x -> live y ->
  i_dev y = i_dev x -> i_inum y = i_inum x -> i_iops y = i_iops x -> i_addrs y = i_addrs x ->
  icache_ok (set_inodes (<[k := y]> (fs_inode s)) s).
Proof.
  intros [] Hx Hlx Hly Hd Hi Ho Ha. pose proof (lookup_lt_Some _ _ _ Hx) as Hk.
  split; simpl; try done.
  - by rewrite length_insert.
  - intros j z Hz. apply lookup_insert_inode in Hz as [[-> ->]|[_ Hz]]; [unfold live in Hly; lia|eauto].
  - intros i j z w Hz Hw Hlz Hlw.
    apply lookup_insert_inode in Hz as [[-> ->]|[? Hz]], Hw as [[-> ->]|[? Hw]]; try done; rewrite ?Hd, ?Hi; eauto.
  - intros j z Hz Hlz Hr. apply lookup_insert_inode in Hz as [[-> ->]|[_ Hz]]; [|eauto].
    rewrite Ho, Ha. rewrite Hd in Hr. eauto.
  - intros j z m Hz Hlz Hzm. apply lookup_insert_inode in Hz as [[-> ->]|[_ Hz]]; [|eauto].
    rewrite Ha in Hzm. eauto.
  - intros i j z w m Hz Hw Hlz Hlw.
    apply lookup_insert_inode in Hz as [[-> ->]|[? Hz]], Hw as [[-> ->]|[? Hw]]; try done; rewrite ?Ha; eauto.
  - intros m a Hm Hb. destruct (ic_busy0 m a Hm Hb) as (j & z & Hz & Hlz & Hza).
    destruct (decide (j = k)) as [->|Hne].
    + exists k, y. rewrite list_lookup_insert_eq by done. rewrite Ha. split_and!; try done. congruence.
    + exists j, z. by rewrite list_lookup_insert_ne.
Qed.

(** A new entry for an inode of the root device that is not cached. *)
Lemma icache_ok_fresh s inum k x i a :
  icache_ok s -> list_find (caches ROOTDEV inum) (fs_inode s) = None ->
  fs_inode s !! k = Some x -> i_ref x = 0 -> fs_xaddrs s !! i = Some a -> a_busy a = 0 ->
  icache_ok (set_xaddrs (<[i := with_busy 1 a]> (fs_xaddrs s))
    (set_inodes (<[k := fresh ROOTDEV inum XV6FS (XAddrs i) x]> (fs_inode s)) s)).
Proof.
  intros [] Hc Hx Hr Ha Hb. pose proof (lookup_lt_Some _ _ _ Hx) as Hk. pose proof (lookup_lt_Some _ _ _ Ha) as Hi.
  apply list_find_None in Hc. rewrite Forall_lookup in Hc.
  assert (forall j y, fs_inode s !! j = Some y -> live y -> i_addrs y <> Some (XAddrs i)) as Hfree.
  { intros j y Hy Hl He. destruct (ic_used0 j y i Hy Hl He) as (b & Hm & Hbm). congruence. }
  split; simpl; try done.
  - by rewrite length_insert.
  - by rewrite length_insert.
  - intros j z Hz. apply lookup_insert_inode in Hz as [[-> ->]|[_ Hz]]; [done|eauto].
  - intros p q z w Hz Hw Hlz Hlw Hd Hn.
    apply lookup_insert_inode in Hz as [[-> ->]|[? Hz]], Hw as [[-> ->]|[? Hw]]; try done.
    + by destruct (Hc q w Hw).
    + by destruct (Hc p z Hz).
    + eauto.
  - intros j z Hz Hlz Hroot. apply lookup_insert_inode in Hz as [[-> ->]|[_ Hz]]; simpl; eauto.
  - intros j z m Hz Hlz Hzm. apply lookup_insert_inode in Hz as [[-> ->]|[_ Hz]].
    + injection Hzm as <-. exists (with_busy 1 a). by rewrite list_lookup_insert_eq.
    + destruct (ic_used0 j z m Hz Hlz Hzm) as (b & Hb1 & Hb2). exists b. rewrite list_lookup_insert_ne; [done|].
      intros <-. congruence.
  - intros p q z w m Hz Hw Hlz Hlw Hzm Hwm.
    apply lookup_insert_inode in Hz as [[-> ->]|[? Hz]], Hw as [[-> ->]|[? Hw]]; try done.
    + injection Hzm as <-. by destruct (Hfree q w Hw Hlw).
    + injection Hwm as <-. by destruct (Hfree p z Hz Hlz).
    + eauto.
  - intros m b Hm Hbm. destruct (decide (i = m)) as [<-|Hne].
    + exists k, (fresh ROOTDEV inum XV6FS (XAddrs i) x). by rewrite list_lookup_insert_eq.
    + rewrite list_lookup_insert_ne in Hm by done. destruct (ic_busy0 m b Hm Hbm) as (j & z & Hz & Hlz & Hza).
      exists j, z. rewrite list_lookup_insert_ne; [done|]. intros <-. assert (z = x) as -> by congruence.
      unfold live in Hlz. lia.
Qed.

(** A new entry for an inode of the other device. *)
Lemma icache_ok_fresh_ext2 s dev inum k x m es :
  icache_ok s -> dev <> ROOTDEV -> list_find (caches dev inum) (fs_inode s) = None ->
  fs_inode s !! k = Some x -> i_ref x = 0 -> length es = NINODE ->
  icache_ok (set_eaddrs es (set_inodes (<[k := fresh dev inum EXT2FS (EAddrs m) x]> (fs_inode s)) s)).
Proof.
  intros [] Hdev Hc Hx Hr Hes. pose proof (lookup_lt_Some _ _ _ Hx) as Hk.
  apply list_find_None in Hc. rewrite Forall_lookup in Hc. split; simpl; try done.
  - by rewrite length_insert.
  - intros j z Hz. apply lookup_insert_inode in Hz as [[-> ->]|[_ Hz]]; [done|eauto].
  - intros p q z w Hz Hw Hlz Hlw Hd Hn.
    apply lookup_insert_inode in Hz as [[-> ->]|[? Hz]], Hw as [[-> ->]|[? Hw]]; try done.
    + by destruct (Hc q w Hw).
    + by destruct (Hc p z Hz).
    + eauto.
  - intros j z Hz Hlz Hroot. apply lookup_insert_inode in Hz as [[-> ->]|[_ Hz]]; [done|eauto].
  - intros j z n Hz Hlz Hzm. apply lookup_insert_inode in Hz as [[-> ->]|[_ Hz]]; [done|eauto].
  - intros p q z w n Hz Hw Hlz Hlw Hzm Hwm.
    apply lookup_insert_inode in Hz as [[-> ->]|[? Hz]], Hw as [[-> ->]|[? Hw]]; try done. eauto.
  - intros n b Hn Hbn. destruct (ic_busy0 n b Hn Hbn) as (j & z & Hz & Hlz & Hza).
    exists j, z. rewrite list_lookup_insert_ne; [done|]. intros <-. assert (z = x) as -> by congruence.
    unfold live in Hlz. lia.
Qed.

Lemma find_exists {A} (P : A -> Prop) `{!forall x, Decision (P x)} (l : list A) i x :
  l !! i = Some x -> P x -> exists j y, list_find P l = Some (j, y).
Proof.
  intros Hx HP. destruct (list_find P l) as [[j y]|] eqn:Hf; [eauto|]. exfalso.
  apply list_find_None in Hf. rewrite Forall_lookup in Hf. by apply (Hf i x).
Qed.

Lemma icache_ok_bss l : icache_ok (fs_bss l).
Proof.
  assert (forall i x, fs_inode (fs_bss l) !! i = Some x -> ~ live x) as Hdead.
  { intros i x Hx. apply lookup_replicate in Hx as [-> _]. unfold live. simpl. lia. }
  split; try done.
  - intros i x Hx. by apply lookup_replicate in Hx as [-> _].
  - intros i j x y Hx _ Hl. by apply Hdead in Hx.
  - intros i x Hx Hl. by apply Hdead in Hx.
  - intros i x k Hx Hl. by apply Hdead in Hx.
  - intros i j x y k Hx _ Hl. by apply Hdead in Hx.
  - intros k a Hk. by apply lookup_replicate in Hk as [-> _].
Qed.

(** The references to inode [inum] of [dev] that the cache counts. *)
Definition refs s (dev inum : Z) : Z :=
  match list_find (caches dev inum) (fs_inode s) with Some (_, x) => i_ref x | None => 0 end.
End Icache.

(** [iget] on the root device. If the inode is cached or some entry is free, it
    returns an entry for exactly that inode whose count is one more than the
    references there were, changes no other entry and nothing below the cache,
    and keeps the invariant: one entry per inode in use, and for every inode in use
    of the root device an address slot no other inode in use has. *)
Theorem iget_root {D} `{DiskDriver D} (s : fsst D) inum :
  icache_ok s ->
  (exists i x, fs_inode s !! i = Some x /\ (i_ref x = 0 \/ caches ROOTDEV inum x)) ->
  exists k y s', iget ROOTDEV inum s = Ok k s' /\ icache_ok s' /\
    fs_inode s' !! k = Some y /\ i_dev y = ROOTDEV /\ i_inum y = inum /\
    i_ref y = refs s ROOTDEV inum + 1 /\
    (forall j, j <> k -> fs_inode s' !! j = fs_inode s !! j) /\ fs_log s' = fs_log s.
Proof.
  intros Hok (i & x & Hx & Hor). unfold refs.
  destruct (list_find (caches ROOTDEV inum) (fs_inode s)) as [[k y]|] eqn:Hc.
  - apply list_find_Some in Hc as (Hy & (Hl & Hd & Hn) & _).
    exists k, (with_iref (i_ref y + 1) y), (set_inodes (<[k := with_iref (i_ref y + 1) y]> (fs_inode s)) s).
    split; [by eapply iget_hit|]. split; [|split_and!; try done].
    + eapply icache_ok_update; try done. unfold live. simpl. lia.
    + simpl. apply list_lookup_insert_eq. by eapply lookup_lt_Some.
    + intros j Hj. simpl. by rewrite list_lookup_insert_ne.
  - assert (exists k y, list_find unused (fs_inode s) = Some (k, y)) as (k & y & Hk).
    { destruct Hor as [Hr|Hr]; [by eapply find_exists|].
      apply list_find_None in Hc. rewrite Forall_lookup in Hc. by destruct (Hc i x). }
    pose proof Hk as Hk'. apply list_find_Some in Hk' as (Hy & Hyr & _).
    destruct (free_slot s k y Hok Hy Hyr) as (m & a & Hm).
    pose proof Hm as Hm'. apply list_find_Some in Hm' as (Ha & Hab & _).
    eexists k, (fresh ROOTDEV inum XV6FS (XAddrs m) y), _. split; [by eapply iget_root_miss|].
    split; [by eapply icache_ok_fresh|]. split_and!; simpl; try done.
    + apply list_lookup_insert_eq. by eapply lookup_lt_Some.
    + intros j Hj. by rewrite list_lookup_insert_ne.
Qed.

Lemma iget_root_witness :
  exists k (s : fsst memdisk), iget ROOTDEV 1 (fs_bss (log_bss (disk_of []) 1)) = Ok k s /\ icache_ok s.
Proof.
  destruct (iget_root (fs_bss (log_bss (disk_of []) 1)) 1) as (k & y & s & He & Hok & _).
  - apply icache_ok_bss.
  - exists 0%nat, inode_bss. split; [reflexivity|left; reflexivity].
  - exists k, s. split; [exact He|exact Hok].
Defined.

(** on the ext2 device, inodes in use share their block addresses. As long as
    the first idle slot [i] of [xv6fs_addrs] is one whose ext2 counterpart is idle
    too and not slot 0 (so whenever some inode of the root device is in use and at
    most [i] ext2 slots were ever taken), two [iget]s of different ext2 inodes
    return different entries whose [addrs] are both [&ext2fs_addrs[0]]: the loop
    over [j] tests [ext2fs_addrs[i]]. *)
Theorem iget_ext2_shares_addrs {D} `{DiskDriver D} (s : fsst D) dev a b i e :
  icache_ok s -> dev <> ROOTDEV -> a <> b ->
  list_find (caches dev a) (fs_inode s) = None -> list_find (caches dev b) (fs_inode s) = None ->
  (exists k1 k2 x1 x2, k1 <> k2 /\ fs_inode s !! k1 = Some x1 /\ fs_inode s !! k2 = Some x2 /\
     unused x1 /\ unused x2) ->
  fst <$> list_find idle_addrs (fs_xaddrs s) = Some i -> i <> 0%nat -> fs_eaddrs s !! i = Some e -> idle_addrs e ->
  exists p q x y s1 s2, iget dev a s = Ok p s1 /\ iget dev b s1 = Ok q s2 /\ p <> q /\
    fs_inode s2 !! p = Some x /\ fs_inode s2 !! q = Some y /\ live x /\ live y /\
    i_inum x = a /\ i_inum y = b /\ i_addrs x = Some (EAddrs 0) /\ i_addrs y = Some (EAddrs 0).
Proof.
  intros Hok Hdev Hab Hca Hcb (k1 & k2 & x1 & x2 & Hk12 & Hx1 & Hx2 & Hu1 & Hu2) Hi Hi0 He Hei.
  destruct (find_exists unused (fs_inode s) k1 x1 Hx1 Hu1) as (p & x & Hp).
  pose proof Hp as Hp'. apply list_find_Some in Hp' as (Hpx & Hpu & _).
  pose proof (lookup_lt_Some _ _ _ Hpx) as Hplt.
  destruct (lookup_lt_is_Some_2 (fs_eaddrs s) 0) as [a0 Ha0]; [rewrite (ic_elen _ Hok); unfold NINODE; lia|].
  set (y1 := fresh dev a EXT2FS (EAddrs 0) x).
  set (s1 := set_eaddrs (<[0%nat := with_busy 1 a0]> (fs_eaddrs s)) (set_inodes (<[p := y1]> (fs_inode s)) s)).
  assert (iget dev a s = Ok p s1) as H1 by (by eapply iget_ext2_miss).
  assert (icache_ok s1) as Hok1.
  { eapply icache_ok_fresh_ext2; try done. rewrite length_insert. apply Hok. }
  assert (list_find (caches dev b) (fs_inode s1) = None) as Hcb1.
  { apply list_find_None, Forall_lookup. intros j z Hz. apply lookup_insert_inode in Hz as [[-> ->]|[_ Hz]].
    - intros (_ & _ & Hn). simpl in Hn. done.
    - apply list_find_None in Hcb. rewrite Forall_lookup in Hcb. eauto. }
  assert (exists k x, fs_inode s1 !! k = Some x /\ unused x) as (k & z & Hz & Hzu).
  { destruct (decide (p = k1)) as [->|]; [exists k2, x2|exists k1, x1]; simpl; by rewrite list_lookup_insert_ne. }
  destruct (find_exists unused (fs_inode s1) k z Hz Hzu) as (q & y & Hq).
  pose proof Hq as Hq'. apply list_find_Some in Hq' as (Hqy & Hqu & _).
  assert (p <> q) as Hpq.
  { intros <-. simpl in Hqy. rewrite list_lookup_insert_eq in Hqy by done. by injection Hqy as <-. }
  exists p, q, y1, (fresh dev b EXT2FS (EAddrs 0) y). eexists s1, _. split; [exact H1|].
  split; [eapply (iget_ext2_miss s1 dev b q y i e); try done|].
  - simpl. by rewrite list_lookup_insert_ne.
  - simpl. apply list_lookup_insert_eq. rewrite (ic_elen _ Hok). unfold NINODE. lia.
  - split; [done|]. simpl. split_and!; try done.
    + rewrite list_lookup_insert_ne by done. by apply list_lookup_insert_eq.
    + apply list_lookup_insert_eq. simpl. rewrite length_insert. by apply lookup_lt_Some in Hqy; simpl in Hqy; rewrite length_insert in Hqy.
Qed.

(** One inode of the root device in use, as after the start of the first process. *)
Definition with_root_inode : fsst memdisk :=
  let s := fs_bss (log_bss (disk_of []) 1) in
  set_xaddrs (<[0%nat := Addrs 1 (replicate 13 0)]> (fs_xaddrs s))
    (set_inodes (<[0%nat := fresh ROOTDEV ROOTINO XV6FS (XAddrs 0) inode_bss]> (fs_inode s)) s).

Lemma iget_ext2_shares_addrs_witness :
  exists p q x y s1 s2, iget EXT2DEV 2 with_root_inode = Ok p s1 /\ iget EXT2DEV 12 s1 = Ok q s2 /\ p <> q /\
    fs_inode s2 !! p = Some x /\ fs_inode s2 !! q = Some y /\ live x /\ live y /\
    i_inum x = 2 /\ i_inum y = 12 /\ i_addrs x = Some (EAddrs 0) /\ i_addrs y = Some (EAddrs 0).
Proof.
  apply (iget_ext2_shares_addrs with_root_inode EXT2DEV 2 12 1 (Addrs 0 (replicate 15 0))); try reflexivity; try done.
  - apply (icache_ok_fresh (fs_bss (log_bss (disk_of []) 1)) 1 0 inode_bss 0 (Addrs 0 (replicate 13 0)));
      try reflexivity. apply icache_ok_bss.
  - exists 1%nat, 2%nat, inode_bss, inode_bss. by split_and!.
Defined.
