(* ===== verification/DirSpec.v ===== *)
(** Directories of the xv6 file system: [xv6fs_dirlookup] and [xv6fs_dirlink] of fs.c implement a finite map from names to inode
    numbers. *)

From S2P Require Import Prelude Bytes Sleeplock Buf Ring Memide Bio Cache Log Txn Inode Xv6fs Example Blocks CString Ext2fs Vfs InodeSpec FileSpec ReadWrite IcacheSpec.

(** ** Directories as maps *)

(** A name as [namecmp] sees it: the characters before the NUL, and at most 14 of them. *)
Definition nm (l : list Z) : list Z := take DIRSIZ (cstr l).

(** The entries of a directory: inode number and name. *)
Definition entry_of (de : list Z) : Z * list Z := (de_inum de, nm (de_name de)).
Definition dirent_at (c : list Z) (i : nat) : list Z := slice (16 * i) 16 c.
Definition dirents (c : list Z) : list (Z * list Z) := (fun i => entry_of (dirent_at c i)) <$> seq 0 (length c / 16).

(** The entry with inode number 0 is free; of two entries with one name the first one counts. *)
Definition dir_map (es : list (Z * list Z)) : gmap (list Z) Z :=
  foldr (fun (e : Z * list Z) m => if e.1 =? 0 then m else <[e.2 := e.1]> m) ∅ es.

Definition named (n : list Z) (e : Z * list Z) : Prop := e.1 <> 0 /\ e.2 = n.
#[export] Instance named_dec n e : Decision (named n e).
Proof. unfold named. apply _. Defined.
Definition vacant (e : Z * list Z) : Prop := e.1 = 0.
#[export] Instance vacant_dec e : Decision (vacant e).
Proof. unfold vacant. apply _. Defined.

Lemma dir_map_find es n : dir_map es !! n = (fun x : nat * (Z * list Z) => x.2.1) <$> list_find (named n) es.
Proof.
  induction es as [|[i m] es IH]; [done|]. cbn [dir_map foldr fst snd]. fold (dir_map es). cbn [list_find]. unfold named at 1. cbn [fst snd].
  destruct (Z.eqb_spec i 0) as [->|Hi].
  - rewrite decide_False by (by intros [? _]). rewrite IH. by destruct (list_find (named n) es) as [[? ?]|].
  - destruct (decide (m = n)) as [->|Hm]; [rewrite decide_True by done; by rewrite lookup_insert_eq|].
    rewrite decide_False by (by intros [_ ?]). rewrite lookup_insert_ne, IH by done. by destruct (list_find (named n) es) as [[? ?]|].
Qed.

(** A new entry goes to the first free place, or to the end. *)
Definition free_place (es : list (Z * list Z)) : nat := default (length es) (fst <$> list_find vacant es).
Definition add_entry (e : Z * list Z) (es : list (Z * list Z)) : list (Z * list Z) := take (free_place es) es ++ e :: drop (S (free_place es)) es.

Lemma dir_map_app a b : dir_map (a ++ b) = dir_map a ∪ dir_map b.
Proof.
  induction a as [|[i m] a IH]; [cbn; by rewrite (left_id_L ∅ (∪))|]. cbn [app dir_map foldr fst snd]. fold (dir_map a) (dir_map (a ++ b)). rewrite IH.
  destruct (i =? 0); [done|]. by rewrite insert_union_l.
Qed.

Lemma dir_map_add es i n : i <> 0 -> dir_map es !! n = None -> dir_map (add_entry (i, n) es) = <[n := i]> (dir_map es).
Proof.
  intros Hi Hn. unfold add_entry, free_place.
  assert (forall p q, dir_map p !! n = None -> dir_map (p ++ (i, n) :: q) = <[n := i]> (dir_map (p ++ q))) as Hmid.
  { intros p q Hp. rewrite !dir_map_app. cbn [dir_map foldr fst snd]. fold (dir_map q). rewrite (proj2 (Z.eqb_neq i 0) Hi).
    by rewrite <- insert_union_r. }
  destruct (list_find vacant es) as [[k e]|] eqn:Hf; cbn [default fmap option_fmap option_map fst].
  - apply list_find_Some in Hf as (Hk & Hv & _). pose proof (take_drop_middle es k e Hk) as He.
    assert (dir_map es = dir_map (take k es) ∪ dir_map (drop (S k) es)) as Hes.
    { rewrite <- He at 1. rewrite dir_map_app. cbn [dir_map foldr]. unfold vacant in Hv. by rewrite Hv. }
    rewrite Hes in Hn |- *. apply lookup_union_None in Hn as [Hn _]. by rewrite Hmid, dir_map_app.
  - rewrite take_ge, drop_ge by lia. rewrite Hmid by done. by rewrite app_nil_r.
Qed.

Lemma length_dirents c : length (dirents c) = (length c / 16)%nat.
Proof. unfold dirents. by rewrite length_fmap, length_seq. Qed.

Lemma lookup_dirents c i : (i < length c / 16)%nat -> dirents c !! i = Some (entry_of (dirent_at c i)).
Proof. intros Hi. unfold dirents. by rewrite list_lookup_fmap, lookup_seq_lt. Qed.

Lemma dirent_name_test name de : bytes_ok name -> readable name DIRSIZ -> bytes_ok de -> length de = 16%nat ->
  exists r, strncmp name (de_name de) DIRSIZ = Some r /\ (r = 0 <-> (entry_of de).2 = nm name).
Proof.
  intros Hn Hr Hd Hl. destruct (strncmp_spec DIRSIZ name (de_name de)) as (r & He & Hz); [done|by apply Forall_drop|done| |].
  - right. unfold de_name, DIRSIZ. rewrite length_drop. lia.
  - exists r. split; [done|]. rewrite Hz. by split; intros E; symmetry.
Qed.

(** ** A new entry in the bytes of a directory *)

Lemma cstr_nozero l : 0 ∉ cstr l.
Proof.
  induction l as [|c l IH]; [apply not_elem_of_nil|]. cbn [cstr]. destruct (Z.eqb_spec c 0); [apply not_elem_of_nil|].
  apply not_elem_of_cons. by split.
Qed.

Lemma cstr_padded p n : 0 ∉ p -> cstr (p ++ replicate n 0) = p.
Proof.
  induction p as [|c p IH]; intros Hp; [by destruct n|]. apply not_elem_of_cons in Hp as [Hc Hp]. cbn [app cstr].
  rewrite (proj2 (Z.eqb_neq c 0)) by congruence. by rewrite IH.
Qed.

Lemma nm_length l : (length (nm l) <= 14)%nat.
Proof. unfold nm, DIRSIZ. rewrite length_take. lia. Qed.

(** What [dirlink] stores. *)
Definition new_dirent (inum : Z) (name : list Z) : list Z := dirent (u16 inum) (nm name ++ replicate (14 - length (cstr name)) 0).

Lemma new_dirent_spec inum name : 0 <= inum < 65536 -> bytes_ok name ->
  length (new_dirent inum name) = 16%nat /\ bytes_ok (new_dirent inum name) /\ entry_of (new_dirent inum name) = (inum, nm name).
Proof.
  intros Hi Hn. unfold new_dirent, dirent. assert (length (nm name ++ replicate (14 - length (cstr name)) 0) = 14%nat) as Hl.
  { unfold nm, DIRSIZ. rewrite length_app, length_take, length_replicate. lia. }
  split_and!.
  - rewrite length_app, length_le_enc, Hl. done.
  - apply Forall_app. split; [apply le_enc_ok|]. apply Forall_app. split; [|by apply Forall_replicate].
    apply Forall_take. clear Hl. induction Hn as [|c l Hc Hl IH]; [done|]. cbn [cstr]. destruct (c =? 0); [done|]. by constructor.
  - unfold entry_of, de_inum, de_name, get_le, slice. rewrite drop_0, take_app_length', drop_app_length' by (by rewrite length_le_enc). f_equal.
    + unfold u16. rewrite Z.mod_small by lia. by rewrite le_dec_enc_small.
    + unfold nm at 1. rewrite cstr_padded; [apply take_ge, nm_length|]. unfold nm. intros Hin. apply (cstr_nozero name).
      rewrite <- (take_drop DIRSIZ (cstr name)). set_solver.
Qed.

Lemma lookup_add_entry e es i : (free_place es <= length es)%nat ->
  add_entry e es !! i = if decide (i = free_place es) then Some e else es !! i.
Proof.
  intros Hf. unfold add_entry. set (p := free_place es) in *. destruct (decide (i < p)%nat) as [Hlt|Hge].
  - rewrite lookup_app_l, lookup_take_lt, decide_False by (rewrite ?length_take; lia). done.
  - rewrite lookup_app_r by (rewrite length_take; lia). rewrite length_take, Nat.min_l by lia. case_decide as Hi.
    + by rewrite Hi, Nat.sub_diag.
    + destruct (i - p)%nat as [|j] eqn:Hj; [lia|]. change ((e :: drop (S p) es) !! S j) with (drop (S p) es !! j). rewrite lookup_drop. f_equal. lia.
Qed.

Lemma free_place_le es : (free_place es <= length es)%nat.
Proof.
  unfold free_place. destruct (list_find vacant es) as [[i e]|] eqn:Hf; cbn; [|done]. apply list_find_Some in Hf as (Hi & _).
  apply lookup_lt_Some in Hi. lia.
Qed.

Lemma dirents_overwrite c src e : (length c mod 16 = 0)%nat -> length src = 16%nat -> entry_of src = e ->
  dirents (overwrite (16 * free_place (dirents c)) src c) = add_entry e (dirents c).
Proof.
  intros Hm Hs He. pose proof (free_place_le (dirents c)) as Hp. set (p := free_place (dirents c)) in *. rewrite length_dirents in Hp.
  assert (length c = 16 * (length c / 16))%nat as Hc by (pose proof (Nat.div_mod_eq (length c) 16); lia).
  assert (length (overwrite (16 * p) src c) / 16 = Nat.max (length c / 16) (S p))%nat as Hlen.
  { rewrite length_overwrite by lia. rewrite Hs. rewrite Hc at 1. replace (Nat.max (16 * (length c / 16)) (16 * p + 16)) with (Nat.max (length c / 16) (S p) * 16)%nat by lia.
    by apply Nat.div_mul. }
  apply list_eq. intros i. rewrite lookup_add_entry by (by rewrite length_dirents). fold p.
  destruct (decide (i < Nat.max (length c / 16) (S p))%nat) as [Hi|Hi].
  - rewrite lookup_dirents by (by rewrite Hlen). case_decide as Hip.
    + subst i. rewrite <- He. do 2 f_equal. unfold dirent_at. apply list_eq. intros j. destruct (decide (j < 16)%nat) as [Hj|Hj].
      * rewrite lookup_slice, lookup_overwrite, decide_True by lia. f_equal. lia.
      * rewrite !lookup_ge_None_2; [done|lia|unfold slice; rewrite length_take; lia].
    + rewrite lookup_dirents by lia. do 2 f_equal. unfold dirent_at. apply list_eq. intros j. destruct (decide (j < 16)%nat) as [Hj|Hj].
      * rewrite !lookup_slice, lookup_overwrite, decide_False by lia. done.
      * rewrite !lookup_ge_None_2; [done|unfold slice; rewrite length_take; lia..].
  - rewrite decide_False by lia. rewrite !lookup_ge_None_2; [done|rewrite length_dirents; lia..].
Qed.

Section Dir.
Context {D : Type} `{DiskDriver D} `{!DiskDriverLaws D}.
Context (V : Z -> Z -> Prop) (pid : Z) (sb : superblock) (Hla : layout V sb).
Context (devsw_read : Z -> option (nat -> Z -> M (fsst D) (Z * list Z))).
Context (devsw_write : Z -> option (nat -> list Z -> Z -> M (fsst D) Z)).
Implicit Types (s : fsst D) (v d : blocks) (L A : list Z).

Abbreviation ftxn := (ftxn V pid sb).
Abbreviation xfile := (xfile sb).

Lemma contents_ok s v d h L ip x k A : ftxn s v d h [] L -> xfile s v ip x k A -> bytes_ok (contents v x A).
Proof.
  intros Ht Hx. apply Forall_lookup_2. intros i c Hc. pose proof (lookup_lt_Some _ _ _ Hc) as Hlt. rewrite length_contents in Hlt.
  unfold contents in Hc. rewrite lookup_fbytes in Hc by done. injection Hc as <-. unfold fbyte.
  destruct Hx. unfold maxblk in *. destruct xf_ok as [_ Hok].
  assert (data_block sb (baddr v A ((0 + Z.of_nat i) / 1024))) as Hd by (apply Hok; [unfold maxblk; elia|apply xf_cov; elia]).
  pose proof (data_home V sb Hla _ Hd) as (_ & HV & _).
  assert (block_ok (v ROOTDEV (baddr v A ((0 + Z.of_nat i) / 1024)))) as [_ Hb] by (by eapply ftxn_block_ok; [exact Ht|]). unfold rd. destruct (_ !! _) eqn:Hl; [exact (Forall_lookup_1 _ _ _ _ Hb Hl)|by split].
Qed.

(** A directory. *)
Record xdir s v (ip : nat) (x : inode) (k : nat) A : Prop := {
  xd_file : xfile s v ip x k A;
  xd_type : i_type x = T_DIR;
  xd_size : i_size x mod 16 = 0;
}.

Definition entries v x A : list (Z * list Z) := dirents (contents v x A).

(** Reading the [i]-th entry. *)
Lemma wp_read_entry s v d h L ip x k A (i : nat) Q :
  ftxn s v d h [] L -> xdir s v ip x k A -> (length L < 22)%nat -> (i < Z.to_nat (i_size x) / 16)%nat ->
  (forall s', ftxn s' v d h [] L -> xdir s' v ip x k A -> frame k s s' -> Q (16, dirent_at (contents v x A) i) s') ->
  wp (readi devsw_read ip (Z.of_nat i * SIZEOF_DIRENT) SIZEOF_DIRENT) s Q.
Proof.
  intros Ht [Hx Hty Hsz] HL Hi HQ. pose proof (xf_size _ _ _ _ _ _ _ Hx) as Hr. unfold SIZEOF_DIRENT.
  assert (16 * (Z.of_nat i + 1) <= i_size x) as Hle.
  { assert (16 * (i + 1) <= Z.to_nat (i_size x))%nat; [|lia]. pose proof (Nat.Div0.mul_div_le (Z.to_nat (i_size x)) 16). lia. }
  eapply (wp_readi V pid sb Hla); [exact Ht|exact Hx|done|lia|lia|].
  intros s' Ht' Hx' Hf m. assert (m = 16) as Hm by (unfold m; lia). rewrite Hm.
  replace (Z.to_nat (Z.of_nat i * 16)) with (16 * i)%nat by lia. apply HQ; [done|by split|done].
Qed.

Lemma entries_count v x A : i_size x mod 16 = 0 -> 0 <= i_size x -> (i_size x + SIZEOF_DIRENT - 1) / SIZEOF_DIRENT = Z.of_nat (length (entries v x A)).
Proof.
  intros Hm Hr. unfold entries. rewrite length_dirents, length_contents. unfold SIZEOF_DIRENT. rewrite Nat2Z.inj_div, Z2Nat.id by lia. elia.
Qed.

Lemma dirent_at_ok s v d h L ip x k A i : ftxn s v d h [] L -> xdir s v ip x k A -> (i < length (entries v x A))%nat ->
  let de := dirent_at (contents v x A) i in bytes_ok de /\ length de = 16%nat /\ entries v x A !! i = Some (entry_of de).
Proof.
  intros Ht [Hx _ _] Hi de. unfold entries in *. rewrite length_dirents in Hi. split_and!.
  - apply Forall_slice. by eapply contents_ok.
  - apply length_slice. pose proof (Nat.Div0.mul_div_le (length (contents v x A)) 16). lia.
  - by apply lookup_dirents.
Qed.

(** [dirlookup] finds the first entry with the name. *)
Definition dirlookup_post s v d h L ip x k A (name : list Z) (Q : option (nat * Z) -> fsst D -> Prop) : Prop :=
  forall s', ftxn s' v d h [] L -> xdir s' v ip x k A -> frame k s s' ->
    match list_find (named (nm name)) (entries v x A) with
    | None => Q None s'
    | Some (i, e) => wp (j ← iget ROOTDEV e.1; mret (Some (j, Z.of_nat i * SIZEOF_DIRENT))) s' Q
    end.

Lemma wp_dirlookup s v d h L ip x k A name Q :
  ftxn s v d h [] L -> xdir s v ip x k A -> (length L < 22)%nat -> bytes_ok name -> readable name DIRSIZ ->
  dirlookup_post s v d h L ip x k A name Q -> wp (dirlookup devsw_read ip name) s Q.
Proof.
  intros Ht Hd HL Hn Hr HQ. pose proof (xd_file _ _ _ _ _ _ Hd) as []. pose proof Hd as [_ Hty Hsz].
  unfold dirlookup, ops_of. eapply wp_bind, wp_bind, wp_inode_at; [done|]. rewrite xf_ops. apply wp_ret.
  unfold xv6fs_dirlookup. eapply wp_bind, wp_inode_at; [done|]. rewrite Hty. cbn [Z.eqb negb guard_ok].
  eapply wp_bind, wp_ret. rewrite (entries_count v x A) by (done || lia).
  apply (wp_for_each _ _ (fun i s' => ftxn s' v d h [] L /\ xdir s' v ip x k A /\ frame k s s' /\
    forall j e, (j < i)%nat -> entries v x A !! j = Some e -> ~ named (nm name) e)).
  - split_and!; [done|done|reflexivity|]. intros; lia.
  - intros i s1 Hi (Ht1 & Hd1 & Hf1 & Hno). destruct (dirent_at_ok s v d h L ip x k A i Ht Hd Hi) as (Hb & Hl & He).
    eapply wp_bind, wp_read_entry; [exact Ht1|exact Hd1|done| |].
    { unfold entries in Hi. by rewrite length_dirents, length_contents in Hi. }
    intros s2 Ht2 Hd2 Hf2. cbn [fst snd]. eapply wp_bind, wp_ret. set (de := dirent_at _ _) in *.
    assert (frame k s s2) as Hf by (by etrans).
    assert (~ named (nm name) (entry_of de) -> ftxn s2 v d h [] L /\ xdir s2 v ip x k A /\ frame k s s2 /\
      forall j e, (j < S i)%nat -> entries v x A !! j = Some e -> ~ named (nm name) e) as Hnext.
    { intros Hnn. split_and!; [done..|]. intros j e Hj Hje. destruct (decide (j = i)) as [->|]; [congruence|]. apply (Hno j); [lia|done]. }
    destruct (Z.eqb_spec (de_inum de) 0) as [H0|H0]; [apply wp_ret, Hnext; by intros [? _]|].
    destruct (dirent_name_test name de Hn Hr Hb Hl) as (r & Hs & Hz). unfold namecmp. eapply wp_bind, wp_deref; [exact Hs|].
    destruct (Z.eqb_spec r 0) as [Hr0|Hr0]; [|apply wp_ret, Hnext; intros [_ ?]; by apply Hr0, Hz].
    specialize (HQ s2 Ht2 Hd2 Hf). assert (list_find (named (nm name)) (entries v x A) = Some (i, entry_of de)) as Hfind.
    { apply list_find_Some. split_and!; [done|split; [done|by apply Hz]|]. intros j e Hje Hj. by apply (Hno j). }
    rewrite Hfind in HQ. cbn [entry_of fst] in HQ. rewrite (io_dev _ _ _ _ _ xf_own). unfold wp, mbind, M_bind in *. by destruct (iget ROOTDEV (de_inum de) s2).
  - intros s1 (Ht1 & Hd1 & Hf1 & Hno). specialize (HQ s1 Ht1 Hd1 Hf1). destruct (list_find _ _) as [[i e]|] eqn:Hf; [|done]. exfalso.
    apply list_find_Some in Hf as (Hie & Hnm & _). apply (Hno i e); [by eapply lookup_lt_Some|done|done].
Qed.

(** The search of [dirlink] for a free entry. *)
Lemma wp_find_free s v d h L ip x k A (Q : option Z -> fsst D -> Prop) :
  ftxn s v d h [] L -> xdir s v ip x k A -> (length L < 22)%nat ->
  (forall s', ftxn s' v d h [] L -> xdir s' v ip x k A -> frame k s s' ->
     Q ((fun i : nat * (Z * list Z) => Z.of_nat i.1 * SIZEOF_DIRENT) <$> list_find vacant (entries v x A)) s') ->
  wp (for_each (range 0 (Z.of_nat (length (entries v x A)))) (fun k =>
        r ← readi devsw_read ip (k * SIZEOF_DIRENT) SIZEOF_DIRENT;
        guard_ok (negb (r.1 =? SIZEOF_DIRENT)) (panic "dirlink read") ;;
        mret (if de_inum r.2 =? 0 then Some (k * SIZEOF_DIRENT) else None))) s Q.
Proof.
  intros Ht Hd HL HQ.
  apply (wp_for_each _ _ (fun i s' => ftxn s' v d h [] L /\ xdir s' v ip x k A /\ frame k s s' /\
    forall j e, (j < i)%nat -> entries v x A !! j = Some e -> ~ vacant e)).
  - split_and!; [done|done|reflexivity|]. intros; lia.
  - intros i s1 Hi (Ht1 & Hd1 & Hf1 & Hno). destruct (dirent_at_ok s v d h L ip x k A i Ht Hd Hi) as (Hb & Hl & He).
    eapply wp_bind, wp_read_entry; [exact Ht1|exact Hd1|done| |].
    { unfold entries in Hi. by rewrite length_dirents, length_contents in Hi. }
    intros s2 Ht2 Hd2 Hf2. cbn [fst snd]. eapply wp_bind, wp_ret. set (de := dirent_at _ _) in *.
    assert (frame k s s2) as Hf by (by etrans). apply wp_ret. destruct (Z.eqb_spec (de_inum de) 0) as [H0|H0].
    + specialize (HQ s2 Ht2 Hd2 Hf). assert (list_find vacant (entries v x A) = Some (i, entry_of de)) as Hfind; [|by rewrite Hfind in HQ].
      apply list_find_Some. split_and!; [done|done|]. intros j e Hje Hj. by apply (Hno j).
    + split_and!; [done..|]. intros j e Hj Hje. destruct (decide (j = i)) as [->|]; [|apply (Hno j); [lia|done]].
      intros Hv. assert (e = entry_of de) as -> by congruence. done.
  - intros s1 (Ht1 & Hd1 & Hf1 & Hno). specialize (HQ s1 Ht1 Hd1 Hf1). destruct (list_find _ _) as [[i e]|] eqn:Hf; [|done]. exfalso.
    apply list_find_Some in Hf as (Hie & Hnm & _). apply (Hno i e); [by eapply lookup_lt_Some|done|done].
Qed.

Lemma wp_dirlink junk beyond s v d h L ip x k A name inum Q :
  ftxn s v d h [] L -> xdir s v ip x k A -> bytes_ok name -> readable name DIRSIZ -> 0 <= inum < 65536 ->
  list_find (named (nm name)) (entries v x A) = None ->
  i_size x + 16 <= maxblk * 1024 -> (length L < 16)%nat -> (2 <= nfree sb v)%nat ->
  (forall s' v' A' L', let x' := with_isize (Z.max (i_size x) (16 * Z.of_nat (free_place (entries v x A)) + 16)) x in
     ftxn s' v' d h [] L' -> xdir s' v' ip x' k A' -> frame k (set_ino ip x' s) s' ->
     entries v' x' A' = add_entry (inum, nm name) (entries v x A) -> others sb v A v' A' (i_inum x) ->
     (inode_on sb v (i_inum x) = dinode_of x A -> inode_on sb v' (i_inum x) = dinode_of x' A') ->
     (length L' <= length L + 7)%nat -> Q 0 s') ->
  wp (dirlink devsw_read devsw_write junk beyond ip name inum) s Q.
Proof.
  intros Ht Hd Hn Hr Hi Hfresh Hmax HL Hfree HQ. pose proof (xd_file _ _ _ _ _ _ Hd) as Hx. pose proof Hx as []. pose proof Hd as [_ Hty Hsz].
  unfold dirlink, ops_of. eapply wp_bind, wp_bind, wp_inode_at; [done|]. rewrite xf_ops. apply wp_ret.
  unfold xv6fs_dirlink. eapply wp_bind, (wp_dirlookup s); [exact Ht|exact Hd|lia|done|done|].
  intros s1 Ht1 Hd1 Hf1. rewrite Hfresh. pose proof (xd_file _ _ _ _ _ _ Hd1) as Hx1.
  eapply wp_bind, wp_inode_at; [apply Hx1|]. cbv zeta. rewrite (entries_count v x A) by (done || lia).
  eapply wp_bind, wp_find_free; [exact Ht1|exact Hd1|lia|]. intros s2 Ht2 Hd2 Hf2.
  set (p := free_place (entries v x A)) in *.
  match goal with |- context [default ?a ?b] => assert (default a b = 16 * Z.of_nat p) as -> end.
  { unfold p, free_place. destruct (list_find vacant (entries v x A)) as [[i e]|]; unfold SIZEOF_DIRENT; simpl; lia. }
  eapply wp_bind, wp_deref; [by apply strncpy_spec|]. fold (nm name). change (DIRSIZ - length (cstr name))%nat with (14 - length (cstr name))%nat.
  fold (new_dirent inum name). destruct (new_dirent_spec inum name Hi Hn) as (Hsl & Hsb & Hse).
  pose proof (free_place_le (entries v x A)) as Hple. fold p in Hple. unfold entries in Hple at 1. rewrite length_dirents, length_contents in Hple.
  assert (16 * Z.of_nat p <= i_size x) as Hoff by (pose proof (Nat.Div0.mul_div_le (Z.to_nat (i_size x)) 16); lia).
  assert (chunks (16 * Z.of_nat p) 16 = 1) as Hch by (unfold chunks; cbn [Z.ltb Z.compare]; elia).
  replace SIZEOF_DIRENT with (Z.of_nat (length (new_dirent inum name))) at 1 by (by rewrite Hsl).
  eapply wp_bind, (wp_writei V pid sb Hla devsw_read devsw_write); [exact Ht2|apply Hd2|done|lia| | | |]; rewrite ?Hsl; change (Z.of_nat 16) with 16; [lia|lia|lia|].
  intros s3 v3 A3 L3 n x3 Ht3 Hx3 Hf3 Hc3 Ho3 Hd3 HL3. assert (n = 16) as Hn16 by (unfold n; by rewrite Hsl).
  subst x3. clearbody n. subst n.
  eapply wp_bind. change (negb (16 =? SIZEOF_DIRENT)) with false. apply wp_ret, wp_ret.
  assert (frame k s s2) as Hf by (by etrans). eapply HQ; [exact Ht3| | | |exact Ho3|exact Hd3|lia].
  - split; [exact Hx3|done|]. cbn. elia.
  - etrans; [|exact Hf3]. by apply frame_set_ino.
  - unfold entries. rewrite Hc3. replace (Z.to_nat (16 * Z.of_nat p)) with (16 * p)%nat by lia. apply dirents_overwrite; [|done|done].
    rewrite length_contents. apply Nat2Z.inj. rewrite Nat2Z.inj_mod, Z2Nat.id by lia. exact Hsz.
Qed.

(** ** The inode cache around these operations *)

Lemma frame_busy k s s' j : frame k s s' -> a_busy <$> fs_xaddrs s' !! j = a_busy <$> fs_xaddrs s !! j.
Proof.
  intros (l & A & ->). cbn. destruct (decide (j = k)) as [->|Hne]; [|by rewrite list_lookup_alter_ne].
  rewrite list_lookup_alter_eq. by destruct (fs_xaddrs s !! k).
Qed.

Lemma icache_ok_frame k s s' : frame k s s' -> icache_ok s -> icache_ok s'.
Proof.
  intros Hf []. pose proof (frame_inodes _ _ _ Hf) as Hi. pose proof (fun j => frame_busy k s s' j Hf) as Hb.
  assert (forall j a', fs_xaddrs s' !! j = Some a' -> exists a, fs_xaddrs s !! j = Some a /\ a_busy a = a_busy a') as Hback.
  { intros j a' Ha. specialize (Hb j). rewrite Ha in Hb. destruct (fs_xaddrs s !! j) as [a|]; [|done]. exists a. split; [done|]. by injection Hb. }
  assert (forall j a, fs_xaddrs s !! j = Some a -> exists a', fs_xaddrs s' !! j = Some a' /\ a_busy a' = a_busy a) as Hforth.
  { intros j a Ha. specialize (Hb j). rewrite Ha in Hb. destruct (fs_xaddrs s' !! j) as [a'|]; [|done]. exists a'. split; [done|]. by injection Hb. }
  split; rewrite ?Hi; try done.
  - destruct Hf as (l & A & ->). cbn. by rewrite length_alter.
  - destruct Hf as (l & A & ->). done.
  - intros i x m Hx Hl Ha. destruct (ic_used i x m Hx Hl Ha) as (a & Hm & Hn). destruct (Hforth m a Hm) as (a' & ? & E). exists a'. by rewrite E.
  - intros m a' Hm Hn. destruct (Hback m a' Hm) as (a & Ha & E). apply (ic_busy m a Ha). by rewrite E.
Qed.

Lemma dirlookup_map s v d h L ip x k A name :
  ftxn s v d h [] L -> xdir s v ip x k A -> (length L < 22)%nat -> bytes_ok name -> readable name DIRSIZ -> icache_ok s ->
  (exists i y, fs_inode s !! i = Some y /\ i_ref y = 0) ->
  match dir_map (entries v x A) !! nm name with
  | None => exists s', dirlookup devsw_read ip name s = Ok None s' /\ frame k s s'
  | Some inum => exists j off y s', dirlookup devsw_read ip name s = Ok (Some (j, off)) s' /\
      fs_inode s' !! j = Some y /\ i_dev y = ROOTDEV /\ i_inum y = inum /\ i_ref y = refs s ROOTDEV inum + 1
  end.
Proof.
  intros Ht Hd HL Hn Hr Hic (i0 & y0 & Hy0 & Hr0). rewrite dir_map_find.
  destruct (list_find (named (nm name)) (entries v x A)) as [[i e]|] eqn:Hf; cbn [fmap option_fmap option_map snd].
  - assert (wp (dirlookup devsw_read ip name) s (fun r s' => exists j off y, r = Some (j, off) /\
      fs_inode s' !! j = Some y /\ i_dev y = ROOTDEV /\ i_inum y = e.1 /\ i_ref y = refs s ROOTDEV e.1 + 1)) as Hw.
    { eapply wp_dirlookup; [exact Ht|exact Hd|done..|]. intros s1 Ht1 Hd1 Hf1. rewrite Hf. pose proof (frame_inodes _ _ _ Hf1) as Hi1.
      destruct (iget_root s1 e.1) as (j & y & s2 & Hg & _ & Hy & Hyd & Hyi & Hyr & _); [by eapply icache_ok_frame|rewrite Hi1; eauto|].
      eapply wp_bind, wp_eq; [exact Hg|]. apply wp_ret. exists j, (Z.of_nat i * SIZEOF_DIRENT), y. unfold refs in Hyr |- *. rewrite Hi1 in Hyr. done. }
    apply (proj1 (wp_ok _ _ _)) in Hw as (r & s' & He & j & off & y & -> & Hrest). by exists j, off, y, s'.
  - assert (wp (dirlookup devsw_read ip name) s (fun r s' => r = None /\ frame k s s')) as Hw.
    { eapply wp_dirlookup; [exact Ht|exact Hd|done..|]. intros s1 Ht1 Hd1 Hf1. by rewrite Hf. }
    apply (proj1 (wp_ok _ _ _)) in Hw as (r & s' & He & -> & Hfr). by exists s'.
Qed.
End Dir.

(** ** The root directory of the image *)

Definition root_inode : inode := Inode 1 1 1 (Sleeplock 1 7) 1 (Some XV6FS) T_DIR 0 0 1 48 (Some (XAddrs 0)).
Definition root_addrs : list Z := 35 :: replicate 12 0.

(** A cache with one inode in it. *)
Definition one_cached (l : logst memdisk) (x : inode) (A : list Z) : fsst memdisk :=
  set_xaddrs (<[0%nat := Addrs 1 A]> (fs_xaddrs (fs_bss l))) (set_ino 0 x (set_sb img_sb (fs_bss l))).

Lemma icache_ok_one l x A : live x -> i_iops x = Some XV6FS -> i_addrs x = Some (XAddrs 0) -> icache_ok (one_cached l x A).
Proof.
  intros Hlx Ho Hp. assert (forall i y, fs_inode (one_cached l x A) !! i = Some y -> live y -> i = 0%nat /\ y = x) as Hone.
  { intros i y Hy Hl. apply lookup_insert_inode in Hy as [[-> ->]|[_ Hy]]; [done|]. apply lookup_replicate in Hy as [-> _]. by unfold live in Hl. }
  split; try done.
  - intros i y Hy. apply lookup_insert_inode in Hy as [[-> ->]|[_ Hy]]; [unfold live in Hlx; lia|]. by apply lookup_replicate in Hy as [-> _].
  - intros i j y z Hy Hz Hly Hlz _ _. by destruct (Hone i y Hy Hly) as [-> _], (Hone j z Hz Hlz) as [-> _].
  - intros i y Hy Hl _. destruct (Hone i y Hy Hl) as [_ ->]. split; [done|]. by exists 0%nat.
  - intros i y k Hy Hl Hk. destruct (Hone i y Hy Hl) as [_ ->]. assert (k = 0%nat) as -> by congruence. by exists (Addrs 1 A).
  - intros i j y z k Hy Hz Hly Hlz _ _. by destruct (Hone i y Hy Hly) as [-> _], (Hone j z Hz Hlz) as [-> _].
  - intros k a Ha Hb. destruct k as [|k]; [by exists 0%nat, x|]. change (replicate 49 (Addrs 0 (replicate 13 0)) !! k = Some a) in Ha.
    apply lookup_replicate in Ha as [-> _]. done.
Qed.

Lemma img_root_entries (v : blocks) : (forall b, 32 <= b < 64 \/ b = 1 -> v 1 b = img_map b) ->
  dirents (fbytes v root_addrs 0 48) = [(1, [46]); (1, [46; 46]); (2, [102])].
Proof.
  intros Hv. unfold fbytes, bytes_of. rewrite (list_fmap_ext _ (fun o => rd img_dir o)); [by vm_compute|].
  intros i o Ho. apply lookup_seqZ in Ho as [-> Ho]. replace ((0 + Z.of_nat i) / 1024) with 0 by elia. rewrite Z.mod_small by lia.
  change (rd (v 1 35) (0 + Z.of_nat i) = rd img_dir (0 + Z.of_nat i)). by rewrite (Hv 35) by lia.
Qed.

Lemma img_root_dir : exists (s : fsst memdisk) (v : blocks) h,
  ftxn (dvalid img) 7 img_sb s v v h [] [] /\ xdir img_sb s v 0 root_inode 0 root_addrs /\ icache_ok s /\ (exists y, fs_inode s !! 1%nat = Some y /\ i_ref y = 0) /\
  (forall b, 32 <= b < 64 \/ b = 1 -> v 1 b = img_map b) /\
  entries v root_inode root_addrs = [(1, [46]); (1, [46; 46]); (2, [102])].
Proof.
  destruct img_begin as (l0 & l & v & h & _ & _ & Ht & Hv).
  exists (one_cached l root_inode root_addrs), v, h.
  destruct (one_block_ok v 35 Hv) as [Hok Hbm]; [lia|].
  split_and!; [by split| | |by exists inode_bss|exact Hv|].
  - split; [|done|done]. split; try done.
    + split; try done. by exists 1.
    + intros bn ? ?. cbn in *. by replace bn with 0 by lia.
  - by apply icache_ok_one.
  - by apply img_root_entries.
Qed.

(** C6: [dirlookup] and [dirlink] implement a finite map from names (as [namecmp] compares them, 14 characters at most) to inode numbers. If the map of a directory
    does not have the name, [dirlink] returns 0 and its map then has the name with the number and is otherwise as before, while no other inode and no block of
    another file changes; after that [dirlookup] returns, for any name, a reference to the inode that the map has for it, or nothing. The directory is the one of
    a transaction with room in the log and on the disk, and there is a free entry in the inode cache. *)
Theorem dirlink_dirlookup {D} `{DiskDriverLaws D} V pid sb devsw_read devsw_write junk beyond (s : fsst D) v d h L ip x k A name inum :
  layout V sb -> ftxn V pid sb s v d h [] L -> xdir sb s v ip x k A -> live x -> icache_ok s ->
  (exists i y, fs_inode s !! i = Some y /\ i_ref y = 0) ->
  bytes_ok name -> readable name DIRSIZ -> 0 < inum < 65536 -> dir_map (entries v x A) !! nm name = None ->
  i_size x + 16 <= MAXFILE * BSIZE -> (length L < 15)%nat -> (2 <= nfree sb v)%nat ->
  exists s1 v1 x1 A1 L1, dirlink devsw_read devsw_write junk beyond ip name inum s = Ok 0 s1 /\
    ftxn V pid sb s1 v1 d h [] L1 /\ xdir sb s1 v1 ip x1 k A1 /\ others sb v A v1 A1 (i_inum x) /\
    (inode_on sb v (i_inum x) = dinode_of x A -> inode_on sb v1 (i_inum x) = dinode_of x1 A1) /\
    dir_map (entries v1 x1 A1) = <[nm name := inum]> (dir_map (entries v x A)) /\
    forall name', bytes_ok name' -> readable name' DIRSIZ ->
      match dir_map (entries v1 x1 A1) !! nm name' with
      | None => exists s2, dirlookup devsw_read ip name' s1 = Ok None s2
      | Some inum' => exists j off y s2, dirlookup devsw_read ip name' s1 = Ok (Some (j, off)) s2 /\
          fs_inode s2 !! j = Some y /\ i_dev y = ROOTDEV /\ i_inum y = inum' /\ i_ref y = refs s1 ROOTDEV inum' + 1
      end.
Proof.
  intros Hla Ht Hd Hlive Hic (i0 & y0 & Hy0 & Hr0) Hn Hr Hi Hnone Hmax HL Hfree.
  assert (list_find (named (nm name)) (entries v x A) = None) as Hfind.
  { rewrite dir_map_find in Hnone. by destruct (list_find (named (nm name)) (entries v x A)). }
  set (x1 := with_isize (Z.max (i_size x) (16 * Z.of_nat (free_place (entries v x A)) + 16)) x).
  assert (wp (dirlink devsw_read devsw_write junk beyond ip name inum) s (fun r s1 => r = 0 /\ exists v1 A1 L1,
    ftxn V pid sb s1 v1 d h [] L1 /\ xdir sb s1 v1 ip x1 k A1 /\ others sb v A v1 A1 (i_inum x) /\
    (inode_on sb v (i_inum x) = dinode_of x A -> inode_on sb v1 (i_inum x) = dinode_of x1 A1) /\
    entries v1 x1 A1 = add_entry (inum, nm name) (entries v x A) /\ frame k (set_ino ip x1 s) s1 /\ (length L1 < 22)%nat)) as Hw.
  { eapply (wp_dirlink V pid sb Hla devsw_read devsw_write); [exact Ht|exact Hd|done|done|lia|done|exact Hmax|lia|done|].
    intros s1 v1 A1 L1 x' H1 H2 H3 H4 H5 H6 H7. split; [done|]. exists v1, A1, L1. split_and!; [exact H1|exact H2|exact H5|exact H6|exact H4|exact H3|lia]. }
  apply (proj1 (wp_ok _ _ _)) in Hw as (r & s1 & He & -> & v1 & A1 & L1 & H1 & H2 & H3 & H4 & H5 & H6 & H7).
  exists s1, v1, x1, A1, L1. split; [exact He|]. clear He. do 4 (split; [assumption|]).
  split; [rewrite H5; apply dir_map_add; [lia|done]|]. intros name' Hn' Hr'.
  pose proof (xf_own _ _ _ _ _ _ _ (xd_file _ _ _ _ _ _ _ Hd)) as [Hat _ _ _].
  assert (icache_ok s1) as Hic1.
  { eapply icache_ok_frame; [exact H6|]. by eapply icache_ok_update. }
  assert (exists i y, fs_inode s1 !! i = Some y /\ i_ref y = 0) as Hroom.
  { exists i0, y0. rewrite (frame_inodes _ _ _ H6). split; [|done]. cbn. rewrite list_lookup_insert_ne; [done|].
    intros <-. unfold live in Hlive. assert (x = y0) as -> by congruence. lia. }
  pose proof (dirlookup_map V pid sb Hla devsw_read devsw_write s1 v1 d h L1 ip x1 k A1 name' H1 H2 H7 Hn' Hr' Hic1 Hroom) as Hm.
  destruct (dir_map (entries v1 x1 A1) !! nm name'); [exact Hm|]. destruct Hm as (s2 & He2 & _). by exists s2.
Qed.

(** The entry [g] in the root directory of the image, next to [f]. *)
Lemma dirlink_dirlookup_witness :
  exists (s s1 s2 s3 : fsst memdisk) j off y, dirlink (fun _ => None) (fun _ => None) [] [] 0 [103; 0] 5 s = Ok 0 s1 /\
    dirlookup (fun _ => None) 0 [103; 0] s1 = Ok (Some (j, off)) s2 /\ fs_inode s2 !! j = Some y /\ i_inum y = 5 /\
    dirlookup (fun _ => None) 0 [104; 0] s1 = Ok None s3.
Proof.
  destruct img_root_dir as (s & v & h & Ht & Hd & Hic & (y0 & Hy0 & Hr0) & Hv & He).
  destruct (dirlink_dirlookup (dvalid img) 7 img_sb (fun _ => None) (fun _ => None) [] [] s v v h [] 0 root_inode 0 root_addrs [103; 0] 5)
    as (s1 & v1 & x1 & A1 & L1 & Hl & _ & _ & _ & _ & Hm & Hlook).
  - exact img_layout.
  - exact Ht.
  - exact Hd.
  - by vm_compute.
  - exact Hic.
  - by exists 1%nat, y0.
  - by apply bytes_okb_spec.
  - left. apply (bool_decide_unpack _). by vm_compute.
  - lia.
  - rewrite He. by vm_compute.
  - by vm_compute.
  - cbn. lia.
  - rewrite (img_nfree v Hv). lia.
  - rewrite He in Hm. pose proof (Hlook [103; 0] ltac:(by apply bytes_okb_spec) ltac:(left; apply (bool_decide_unpack _); by vm_compute)) as Hg.
    pose proof (Hlook [104; 0] ltac:(by apply bytes_okb_spec) ltac:(left; apply (bool_decide_unpack _); by vm_compute)) as Hh.
    rewrite Hm in Hg, Hh. change (nm [103; 0]) with [103] in *. rewrite lookup_insert_eq in Hg. rewrite lookup_insert_ne in Hh by done.
    change (dir_map _ !! nm [104; 0]) with (@None Z) in Hh. destruct Hg as (j & off & y & s2 & Hg & Hj & _ & Hy & _). destruct Hh as (s3 & Hh).
    exists s, s1, s2, s3, j, off, y. split_and!; [exact Hl|exact Hg|exact Hj|exact Hy|exact Hh].
Defined.
