(* ===== verification/NameSpec.v ===== *)
(** Path names on the root device: [namex] of fs.c walks the tree of directories that is on the disk, one lock at a time, and returns a
    reference to the inode that the path names. *)

From S2P Require Import Prelude Bytes Sleeplock Buf Ring Memide Bio Cache Log Txn Inode Xv6fs Example Blocks CString Ext2fs Vfs InodeSpec FileSpec ReadWrite PathSpec IcacheSpec DirSpec.

(** ** References *)
Section Refs.
Context {D : Type} `{DiskDriver D}.
Implicit Types s : fsst D.

(** Entries of the inode cache that are free. *)
Definition spare s : nat := length (filter unused (fs_inode s)).

Lemma filter_insert_count {A} (P : A -> Prop) `{!forall x, Decision (P x)} (l : list A) k x y : l !! k = Some x ->
  (length (filter P (<[k := y]> l)) + (if decide (P x) then 1 else 0) = length (filter P l) + (if decide (P y) then 1 else 0))%nat.
Proof.
  revert k. induction l as [|a l IH]; intros [|k] Hk; [done..| |].
  - injection Hk as ->. cbn [insert list_insert]. rewrite !filter_cons. repeat case_decide; cbn [length]; try done; lia.
  - specialize (IH k Hk). change (<[S k := y]> (a :: l)) with (a :: <[k := y]> l). rewrite !filter_cons. repeat case_decide; cbn [length] in *; try done; lia.
Qed.

Definition one_if (b : bool) : nat := if b then 1 else 0.

Lemma spare_insert s s' k x y : fs_inode s' = <[k := y]> (fs_inode s) -> fs_inode s !! k = Some x ->
  (spare s' + one_if (i_ref x =? 0)%Z = spare s + one_if (i_ref y =? 0)%Z)%nat.
Proof.
  intros He Hx. pose proof (filter_insert_count unused (fs_inode s) k x y Hx) as Hc. unfold spare. rewrite He. unfold unused in Hc.
  destruct (Z.eqb_spec (i_ref x) 0), (Z.eqb_spec (i_ref y) 0); repeat case_decide; try done; exact Hc.
Qed.

Lemma refs_live s k x : icache_ok s -> fs_inode s !! k = Some x -> live x -> refs s (i_dev x) (i_inum x) = i_ref x.
Proof. intros Hok Hx Hl. unfold refs. by rewrite (find_cached s _ _ k x). Qed.

Lemma refs_dead s dev i : (forall k x, fs_inode s !! k = Some x -> live x -> ~ (i_dev x = dev /\ i_inum x = i)) -> refs s dev i = 0.
Proof.
  intros Hn. unfold refs. destruct (list_find _ _) as [[k x]|] eqn:Hf; [|done]. exfalso. apply list_find_Some in Hf as (Hx & (Hl & Hd & Hi) & _).
  by apply (Hn k x).
Qed.

Lemma refs_cases s dev i : icache_ok s ->
  (exists k x, fs_inode s !! k = Some x /\ live x /\ i_dev x = dev /\ i_inum x = i /\ refs s dev i = i_ref x) \/
  ((forall k x, fs_inode s !! k = Some x -> live x -> ~ (i_dev x = dev /\ i_inum x = i)) /\ refs s dev i = 0).
Proof.
  intros Hok. unfold refs. destruct (list_find _ _) as [[k x]|] eqn:Hf.
  - apply list_find_Some in Hf as (Hx & (Hl & Hd & Hi) & _). left. by exists k, x.
  - right. split; [|done]. intros k x Hx Hl [Hd Hi]. apply list_find_None in Hf. rewrite Forall_lookup in Hf. by apply (Hf k x Hx).
Qed.

(** One entry changes its count. *)
Lemma refs_insert s s' k x y dev i :
  icache_ok s -> icache_ok s' -> fs_inode s' = <[k := y]> (fs_inode s) -> fs_inode s !! k = Some x ->
  (live x -> i_dev x = i_dev y /\ i_inum x = i_inum y) -> (~ live x -> live y -> refs s (i_dev y) (i_inum y) = 0) ->
  refs s' dev i = refs s dev i + (if decide (i_dev y = dev /\ i_inum y = i) then i_ref y - i_ref x else 0).
Proof.
  intros Hok Hok' He Hx Hsame Hnew. pose proof (ic_ref _ Hok k x Hx) as Hrx. pose proof (lookup_lt_Some _ _ _ Hx) as Hk.
  assert (fs_inode s' !! k = Some y) as Hy by (rewrite He; by apply list_lookup_insert_eq). pose proof (ic_ref _ Hok' k y Hy) as Hry.
  assert (forall j, j <> k -> fs_inode s' !! j = fs_inode s !! j) as Hother by (intros j Hj; rewrite He; by rewrite list_lookup_insert_ne).
  destruct (refs_cases s dev i Hok) as [(j & z & Hz & Hlz & Hd & Hi & Hr)|[Hno Hr]]; rewrite Hr.
  - destruct (decide (j = k)) as [->|Hjk].
    + assert (z = x) as -> by congruence. destruct (Hsame Hlz) as [E1 E2]. rewrite decide_True by (split; congruence).
      destruct (decide (live y)) as [Hly|Hly].
      * assert (refs s' dev i = i_ref y) as ->; [|lia]. replace dev with (i_dev y) by congruence. replace i with (i_inum y) by congruence. by apply (refs_live s' k).
      * rewrite refs_dead; [unfold live in *; lia|]. intros m w Hw Hlw [F1 F2]. destruct (decide (m = k)) as [->|Hm]; [by replace w with y in Hlw by congruence|].
        rewrite Hother in Hw by done. apply Hm. eapply (ic_uniq _ Hok m k w x); try done; congruence.
    + assert (~ (i_dev y = dev /\ i_inum y = i) \/ i_ref y = i_ref x) as Hor.
      { destruct (decide (i_dev y = dev /\ i_inum y = i)) as [[F1 F2]|]; [|by left]. right. destruct (decide (live x)) as [Hlx|Hlx].
        - destruct (Hsame Hlx). destruct Hjk. eapply (ic_uniq _ Hok j k z x); try done; congruence.
        - destruct (decide (live y)) as [Hly|Hly]; [|unfold live in *; lia]. specialize (Hnew Hlx Hly). rewrite F1, F2, Hr in Hnew. unfold live in Hlz. lia. }
      assert (refs s' dev i = i_ref z) as Hz' by (subst dev i; apply (refs_live s' j); [done|by rewrite Hother|done]).
      rewrite Hz'. case_decide; [destruct Hor; [done|lia]|lia].
  - case_decide as Hdec.
    + destruct Hdec as [F1 F2]. assert (~ live x) as Hlx by (intros Hlx; destruct (Hsame Hlx); apply (Hno k x); [done|done|split; congruence]).
      assert (i_ref x = 0) as Hx0 by (unfold live in Hlx; lia). destruct (decide (live y)) as [Hly|Hly].
      * subst dev i. rewrite (refs_live s' k y) by done. lia.
      * rewrite refs_dead; [unfold live in *; lia|]. intros m w Hw Hlw [G1 G2]. destruct (decide (m = k)) as [->|Hm]; [by replace w with y in Hlw by congruence|].
        rewrite Hother in Hw by done. by apply (Hno m w).
    + rewrite refs_dead; [lia|]. intros m w Hw Hlw [G1 G2]. destruct (decide (m = k)) as [->|Hm]; [assert (w = y) as -> by congruence; by apply Hdec|].
      rewrite Hother in Hw by done. by apply (Hno m w).
Qed.
End Refs.

(** ** What [skipelem] leaves *)
Lemma skip_slashes_sub path c : c ∈ skip_slashes path -> c ∈ path.
Proof. induction path as [|a t IH]; [done|]. cbn [skip_slashes]. destruct (a =? slash); [|done]. intros Hc. right. by apply IH. Qed.

Lemma span_elem_sub path e r c : span_elem path = (e, r) -> (c ∈ e \/ c ∈ r) -> c ∈ path.
Proof.
  revert e r. induction path as [|a t IH]; intros e r; cbn [span_elem].
  - intros [= <- <-] [?|?]; done.
  - destruct (a =? slash); [intros [= <- <-] [?|?]; [set_solver|done]|]. destruct (span_elem t) as [e' r']. intros [= <- <-] Hc.
    rewrite !elem_of_cons in *. destruct Hc as [[?|?]|?]; [by left|right; eapply IH; [done|by left]|right; eapply IH; [done|by right]].
Qed.

Lemma skipelem_sub path name dev rest name' : skipelem path name dev = Some (Some (rest, name')) ->
  (forall c, c ∈ rest -> c ∈ path) /\ (bytes_ok path -> bytes_ok name -> bytes_ok name').
Proof.
  unfold skipelem. intros Hs. pose proof (skip_slashes_sub path) as Hsub. destruct (skip_slashes path) as [|a t]; [done|]. set (p := a :: t) in *.
  destruct (span_elem p) as [e r] eqn:He. destruct (length _ <=? length name)%nat; [|done]. injection Hs as <- <-.
  assert (forall c, c ∈ e \/ c ∈ r -> c ∈ path) as Hin by (intros c Hc; by eapply Hsub, span_elem_sub). split.
  - intros c Hc. apply Hin. right. by apply skip_slashes_sub.
  - intros Hp Hn. assert (bytes_ok e) as Heb.
    { apply Forall_forall. intros c Hc. rewrite Forall_forall in Hp. apply Hp, Hin. by left. }
    apply Forall_splice; [|done]. destruct (_ <=? _)%nat; [by apply Forall_take|]. apply Forall_app. split; [done|]. constructor; [by split|done].
Qed.

Section Names.
Context {D : Type} `{DiskDriver D} `{!DiskDriverLaws D}.
Context (V : Z -> Z -> Prop) (pid : Z) (sb : superblock) (Hla : layout V sb).
Context (devsw_read : Z -> option (nat -> Z -> M (fsst D) (Z * list Z))).
Context (devsw_write : Z -> option (nat -> list Z -> Z -> M (fsst D) Z)).
Implicit Types (s : fsst D) (v d : blocks) (L A : list Z).

Abbreviation ftxn := (ftxn V pid sb).

(** ** The cache and the disk

    Entries that are valid have the inode that is on the disk; no lock is held, but for that of the entry [e]. *)
Record cache_ok s v (e : option nat) : Prop := {
  co_ic : icache_ok s;
  co_lock : forall j x, fs_inode s !! j = Some x -> Some j <> e -> sl_locked (i_lock x) = 0;
  co_data : forall j x k, fs_inode s !! j = Some x -> live x -> i_dev x = ROOTDEV -> i_valid x <> 0 -> i_addrs x = Some (XAddrs k) ->
    exists b A, fs_xaddrs s !! k = Some (Addrs b A) /\ dinode_of x A = inode_on sb v (i_inum x);
}.

Lemma cache_iown s v e j x : cache_ok s v e -> fs_inode s !! j = Some x -> live x -> i_dev x = ROOTDEV -> i_iops x = Some XV6FS /\ exists k A, iown s j x k A.
Proof.
  intros [Hic _ _] Hx Hl Hd. destruct (ic_root _ Hic j x Hx Hl Hd) as [Ho [k Hk]]. split; [done|].
  destruct (ic_used _ Hic j x k Hx Hl Hk) as ([b A] & Ha & _). exists k, A. split; try done. by exists b.
Qed.

(** An entry changes other fields than its identity; [A] are then the addresses in its slot. *)
Lemma cache_ok_change s s' v e e' j x y k A :
  cache_ok s v e -> iown s j x k (default [] (a_blk <$> fs_xaddrs s !! k)) -> live x ->
  i_ref y = i_ref x -> i_inum y = i_inum x -> i_iops y = Some XV6FS ->
  frame k (set_ino j y s) s' -> iown s' j y k A ->
  (i_valid y <> 0 -> dinode_of y A = inode_on sb v (i_inum y)) ->
  (Some j <> e' -> sl_locked (i_lock y) = 0) -> (forall m, m <> j -> Some m <> e' -> Some m <> e) -> cache_ok s' v e'.
Proof.
  intros Hc [Hx Hd Hp _] Hl Er Ei Eo Hf [Hy Hdy Hpy [b Hb]] Hdata Hlk Hlocks. pose proof Hc as [Hic Hco Hcd].
  destruct (ic_root _ Hic j x Hx Hl Hd) as [Ho _].
  assert (icache_ok s') as Hic'.
  { eapply icache_ok_frame; [exact Hf|]. eapply icache_ok_update; try done; [unfold live in *; lia|congruence..]. }
  pose proof (frame_inodes _ _ _ Hf) as Hi. cbn in Hi.
  split; [done| |].
  - intros m z Hz Hm. rewrite Hi in Hz. apply lookup_insert_inode in Hz as [[-> ->]|[Hne Hz]]; [by apply Hlk|]. apply (Hco m z Hz). by apply Hlocks.
  - intros m z k' Hz Hlz Hdz Hvz Hkz. rewrite Hi in Hz. apply lookup_insert_inode in Hz as [[-> ->]|[Hne Hz]].
    + assert (k' = k) as -> by congruence. exists b, A. split; [done|by apply Hdata].
    + destruct (Hcd m z k' Hz Hlz Hdz Hvz Hkz) as (b' & A' & Ha' & HA').
      assert (k' <> k) as Hkk by (intros ->; apply Hne; by eapply (ic_inj _ Hic m j)).
      exists b', A'. split; [|done]. destruct Hf as (l & A0 & ->). cbn. by rewrite list_lookup_alter_ne by congruence.
Qed.

(** Reading a file keeps the cache. *)
Lemma cache_ok_read s s' v e j x k A : cache_ok s v e -> live x -> iown s j x k A -> frame k s s' -> iown s' j x k A -> cache_ok s' v e.
Proof.
  intros Hc Hl Hi Hf Hi'. pose proof Hi as [Hx Hd Hp [b Hb]]. destruct (cache_iown s v e j x Hc Hx Hl Hd) as [Ho _].
  eapply (cache_ok_change s s' v e e j x x k A); try done.
  - rewrite Hb. exact Hi.
  - by rewrite (set_ino_id s j x k A Hi).
  - intros Hv. destruct (co_data _ _ _ Hc j x k Hx Hl Hd Hv Hp) as (b' & A' & Hb' & HA). congruence.
  - intros Hj. by apply (co_lock _ _ _ Hc j x).
Qed.

(** ** [iget] *)
Lemma wp_iget s v e i Q :
  cache_ok s v e -> (0 < spare s)%nat \/ 0 < refs s ROOTDEV i ->
  (forall j y s', cache_ok s' v e -> fs_inode s' !! j = Some y -> live y -> i_dev y = ROOTDEV -> i_inum y = i ->
     (forall dev i', refs s' dev i' = refs s dev i' + (if decide (ROOTDEV = dev /\ i = i') then 1 else 0)) ->
     (spare s' + one_if (i_ref y =? 1)%Z = spare s)%nat ->
     (forall m, m <> j -> fs_inode s' !! m = fs_inode s !! m) ->
     (forall x, fs_inode s !! j = Some x -> live x -> y = with_iref (i_ref x + 1) x) ->
     fs_log s' = fs_log s -> fs_sb s' = fs_sb s -> Q j s') ->
  wp (iget ROOTDEV i) s Q.
Proof.
  intros Hc Hroom HQ. pose proof Hc as [Hic Hlk Hdata]. destruct (refs_cases s ROOTDEV i Hic) as [(k & x & Hx & Hl & Hd & Hi & Hr)|[Hno Hr]].
  - eapply wp_eq; [by apply iget_hit|]. set (y := with_iref (i_ref x + 1) x). set (s' := set_inodes _ s).
    assert (icache_ok s') as Hic' by (eapply icache_ok_update; try done; unfold live in *; cbn; lia).
    apply (HQ k y); try done.
    + split; [done| |].
      * intros m z Hz Hm. apply lookup_insert_inode in Hz as [[-> ->]|[_ Hz]]; [by apply (Hlk k x)|by apply (Hlk m z)].
      * intros m z k' Hz Hlz Hdz Hvz Hkz. apply lookup_insert_inode in Hz as [[-> ->]|[_ Hz]]; [by apply (Hdata k x k')|by apply (Hdata m z k')].
    + apply list_lookup_insert_eq. by eapply lookup_lt_Some.
    + unfold live in *. cbn. lia.
    + intros dev i'. rewrite (refs_insert s s' k x y) by (done || (intros Hn; done)). cbn. rewrite Hd, Hi. case_decide; lia.
    + pose proof (spare_insert s s' k x y eq_refl Hx) as Hs. unfold live in Hl. cbn in Hs |- *.
      rewrite !(proj2 (Z.eqb_neq _ _)) in Hs by lia. rewrite (proj2 (Z.eqb_neq _ _)) by lia. cbn in *. lia.
    + intros m Hm. cbn. by rewrite list_lookup_insert_ne.
    + intros x' Hx' _. by assert (x' = x) as -> by congruence.
  - assert (list_find (caches ROOTDEV i) (fs_inode s) = None) as Hfind.
    { apply list_find_None, Forall_lookup. intros k x Hx (Hl & Hd & Hi). by apply (Hno k x). }
    assert (exists k x, list_find unused (fs_inode s) = Some (k, x)) as (k & x & Hk).
    { destruct Hroom as [Hs|Hs]; [|lia]. unfold spare in Hs. destruct (filter unused (fs_inode s)) as [|z l] eqn:Hfl; [cbn in Hs; lia|].
      assert (z ∈ filter unused (fs_inode s)) as [Hzu [m Hm]%list_elem_of_lookup]%list_elem_of_filter by (rewrite Hfl; by left). by eapply find_exists. }
    pose proof Hk as (Hx & Hu & _)%list_find_Some. destruct (free_slot s k x Hic Hx Hu) as (m & a & Hm). pose proof Hm as (Ha & Hab & _)%list_find_Some.
    eapply wp_eq; [by apply (iget_root_miss s i k x m a)|]. set (y := fresh ROOTDEV i XV6FS (XAddrs m) x). set (s' := set_xaddrs _ _).
    assert (icache_ok s') as Hic' by (by apply icache_ok_fresh).
    assert (forall n z, fs_inode s !! n = Some z -> live z -> i_addrs z <> Some (XAddrs m)) as Hslot.
    { intros n z Hz Hl Hp. destruct (ic_used _ Hic n z m Hz Hl Hp) as (b & Hb & Hbb). unfold idle_addrs in Hab. congruence. }
    apply (HQ k y); try done.
    + split; [done| |].
      * intros n z Hz Hn. apply lookup_insert_inode in Hz as [[-> ->]|[_ Hz]]; [by apply (Hlk k x)|by apply (Hlk n z)].
      * intros n z k' Hz Hlz Hdz Hvz Hkz. apply lookup_insert_inode in Hz as [[-> ->]|[_ Hz]]; [done|].
        destruct (Hdata n z k' Hz Hlz Hdz Hvz Hkz) as (b & A & Hb & HA). exists b, A. split; [|done]. cbn. rewrite list_lookup_insert_ne; [done|].
        intros <-. by apply (Hslot n z).
    + cbn. apply list_lookup_insert_eq. by eapply lookup_lt_Some.
    + intros dev i'. rewrite (refs_insert s s' k x y); [|done|done|done|done|unfold unused, live in *; lia|intros _ _; exact Hr].
      cbn. unfold unused in Hu. rewrite Hu. case_decide; lia.
    + pose proof (spare_insert s s' k x y eq_refl Hx) as Hs. unfold unused in Hu. rewrite Hu in Hs. cbn in Hs |- *. lia.
    + intros n Hn. cbn. by rewrite list_lookup_insert_ne.
    + intros x' Hx' Hl. unfold unused, live in *. assert (x' = x) as -> by congruence. lia.
Qed.

(** ** Locking an inode *)
Definition same_refs s s' : Prop := (forall dev i, refs s' dev i = refs s dev i) /\ spare s' = spare s.

Lemma same_refs_set s s' j x y k : icache_ok s -> icache_ok s' -> fs_inode s !! j = Some x -> frame k (set_ino j y s) s' ->
  live x -> i_ref y = i_ref x -> i_dev y = i_dev x -> i_inum y = i_inum x -> same_refs s s'.
Proof.
  intros Hic Hic' Hx Hf Hl Er Ed Ei. pose proof (frame_inodes _ _ _ Hf) as Hi. cbn in Hi. split.
  - intros dev i. rewrite (refs_insert s s' j x y) by done. case_decide; lia.
  - pose proof (spare_insert s s' j x y Hi Hx) as Hs. rewrite Er in Hs. lia.
Qed.

(** An inode that is in use; a directory can be read. *)
Record good_inode v (i : Z) : Prop := {
  gi_range : 0 <= i < sb_ninodes sb;
  gi_type : d_type (inode_on sb v i) <> 0;
  gi_nlink : d_nlink (inode_on sb v i) <> 0;
  gi_dir : d_type (inode_on sb v i) = T_DIR -> let di := inode_on sb v i in
    dinode_ok di /\ file_ok sb v (d_addrs di) /\ 0 <= d_size di <= maxblk * 1024 /\ covered v (d_addrs di) (d_size di) /\ d_size di mod 16 = 0;
}.

(** What is known of the inode in entry [j] while it is locked. *)
Record locked s v (j : nat) (y : inode) (k : nat) A : Prop := {
  lk_own : iown s j y k A;
  lk_ops : i_iops y = Some XV6FS;
  lk_live : live y;
  lk_lock : i_lock y = Sleeplock 1 pid;
  lk_valid : i_valid y <> 0;
  lk_disk : dinode_of y A = inode_on sb v (i_inum y);
}.

Lemma wp_lock s v d h L j y Q :
  ftxn s v d h [] L -> cache_ok s v None -> fs_inode s !! j = Some y -> live y -> i_dev y = ROOTDEV -> good_inode v (i_inum y) -> (length L < 22)%nat ->
  (forall s' y' k A, ftxn s' v d h [] L -> cache_ok s' v (Some j) -> locked s' v j y' k A -> i_inum y' = i_inum y -> i_ref y' = i_ref y -> same_refs s s' -> Q tt s') ->
  wp (ilock j) s Q.
Proof.
  intros Ht Hc Hy Hl Hd Hg HL HQ. destruct (cache_iown _ _ _ _ _ Hc Hy Hl Hd) as (Ho & k & A & Hi). pose proof Hi as [_ _ Hp [b Hb]].
  assert (iown s j y k (default [] (a_blk <$> fs_xaddrs s !! k))) as Hi0 by (rewrite Hb; exact Hi).
  assert (sl_locked (i_lock y) = 0) as Hu by (by apply (co_lock _ _ _ Hc j y)).
  unfold ilock, ops_of. eapply wp_bind, wp_bind, wp_inode_at; [exact Hi|]. rewrite Ho. apply wp_ret.
  assert (forall s' y' A', frame k (set_ino j y' s) s' -> iown s' j y' k A' -> i_ref y' = i_ref y -> i_inum y' = i_inum y -> i_iops y' = Some XV6FS ->
    i_lock y' = Sleeplock 1 pid -> i_valid y' <> 0 -> dinode_of y' A' = inode_on sb v (i_inum y') -> ftxn s' v d h [] L -> Q tt s') as Hfin.
  { intros s' y' A' Hf Hi' Er Ei Eo El Ev HA Ht'.
    assert (cache_ok s' v (Some j)) as Hc' by (eapply (cache_ok_change s s' v None (Some j) j y y' k A'); try done).
    eapply (HQ s' y' k A'); try done; [split; try done; unfold live in *; lia|].
    eapply same_refs_set; [apply Hc|apply Hc'|exact Hy|exact Hf|done|done| |done]. destruct Hi' as [_ -> _ _]. done. }
  destruct (decide (i_valid y = 0)) as [Hv|Hv].
  - eapply (wp_ilock_load V pid sb Hla); [exact Ht|exact Hi|done|done|done|apply Hg| |apply Hg|].
    { split; [apply not_elem_of_nil|left; cbn; unfold NBUF; lia]. }
    intros l di s' Ht' Hi'. eapply (Hfin s' (loaded pid y di) (d_addrs di)); try done. by exists l, (d_addrs di).
  - eapply (wp_ilock_valid V pid sb); [exact Ht|exact Hi|done|done|done|]. intros y' Hi'.
    destruct (co_data _ _ _ Hc j y k Hy Hl Hd Hv Hp) as (b' & A' & Hb' & HA'). assert (A' = A) as -> by congruence.
    by eapply (Hfin _ y' A).
Qed.

(** Unlocking. *)
Lemma wp_unlock s v d h L j y k A Q :
  ftxn s v d h [] L -> cache_ok s v (Some j) -> locked s v j y k A ->
  (forall s', let y' := with_ilock (Sleeplock 0 0) y in
     ftxn s' v d h [] L -> cache_ok s' v None -> fs_inode s' !! j = Some y' -> (forall m, m <> j -> fs_inode s' !! m = fs_inode s !! m) -> same_refs s s' -> Q tt s') ->
  wp (iunlock j) s Q.
Proof.
  intros Ht Hc [Hi Ho Hl Hlk Hv HA] HQ. pose proof Hi as [Hy Hd Hp [b Hb]]. unfold iunlock, ops_of.
  eapply wp_bind, wp_bind, wp_inode_at; [exact Hi|]. rewrite Ho. apply wp_ret. eapply (wp_iunlock V pid sb); [exact Ht|exact Hi|done|done|]. intros y' Hi'.
  assert (cache_ok (set_ino j y' s) v None) as Hc'.
  { eapply (cache_ok_change s _ v (Some j) None j y y' k A); try done; [by rewrite Hb|]. intros m Hm _ [= E]. done. }
  apply HQ; [done|done|apply Hi'|intros m Hm; cbn; by rewrite list_lookup_insert_ne|]. apply (same_refs_set s _ j y y' k); [apply Hc|apply Hc'|exact Hy|reflexivity|done..].
Qed.

(** ** Dropping a reference *)

(** The last reference goes: the entry and its slot are free again. *)
Lemma icache_ok_drop s j y z k b A :
  icache_ok s -> fs_inode s !! j = Some y -> live y -> i_addrs y = Some (XAddrs k) -> fs_xaddrs s !! k = Some (Addrs b A) -> i_ref z = 0 ->
  icache_ok (set_xaddrs (<[k := Addrs 0 A]> (fs_xaddrs s)) (set_ino j z s)).
Proof.
  intros [] Hy Hl Hp Hk Hz. pose proof (lookup_lt_Some _ _ _ Hk) as Hklt.
  assert (forall m w, <[j := z]> (fs_inode s) !! m = Some w -> live w -> m <> j /\ fs_inode s !! m = Some w) as Hback.
  { intros m w Hw Hlw. apply lookup_insert_inode in Hw as [[-> ->]|[Hne Hw]]; [unfold live in Hlw; lia|done]. }
  split; cbn; try done.
  - by rewrite length_insert.
  - by rewrite length_insert.
  - intros m w Hw. apply lookup_insert_inode in Hw as [[-> ->]|[_ Hw]]; [lia|eauto].
  - intros m n w u Hw Hu Hlw Hlu. destruct (Hback m w Hw Hlw), (Hback n u Hu Hlu). eauto.
  - intros m w Hw Hlw. destruct (Hback m w Hw Hlw). eauto.
  - intros m w k' Hw Hlw Hkw. destruct (Hback m w Hw Hlw) as [Hne Hw']. destruct (ic_used m w k' Hw' Hlw Hkw) as (a & Ha & Hab).
    exists a. split; [|done]. rewrite list_lookup_insert_ne; [done|]. intros <-. apply Hne. by eapply (ic_inj m j).
  - intros m n w u k' Hw Hu Hlw Hlu. destruct (Hback m w Hw Hlw), (Hback n u Hu Hlu). eauto.
  - intros k' a Ha Hab. destruct (decide (k' = k)) as [->|Hne].
    + rewrite list_lookup_insert_eq in Ha by done. by injection Ha as <-.
    + rewrite list_lookup_insert_ne in Ha by done. destruct (ic_busy k' a Ha Hab) as (m & w & Hw & Hlw & Hkw). exists m, w.
      split; [|done]. rewrite list_lookup_insert_ne; [done|]. intros <-. assert (w = y) as -> by congruence. congruence.
Qed.

(** A reference less, with others left. *)
Lemma cache_ok_unref s v j y : cache_ok s v None -> fs_inode s !! j = Some y -> live y -> i_dev y = ROOTDEV -> 1 < i_ref y ->
  let z := with_iref (i_ref y - 1) (with_ilock (Sleeplock 0 0) y) in cache_ok (set_ino j z s) v None.
Proof.
  intros [Hic Hlk Hdata] Hy Hl Hd Hr z. split.
  - eapply icache_ok_update; try done. unfold live, z. cbn. lia.
  - intros m w Hw _. apply lookup_insert_inode in Hw as [[-> ->]|[_ Hw]]; [done|by apply (Hlk m w)].
  - intros m w k Hw Hlw Hdw Hvw Hkw. apply lookup_insert_inode in Hw as [[-> ->]|[_ Hw]]; [by apply (Hdata j y k)|by apply (Hdata m w k)].
Qed.

Lemma cache_ok_drop s v j y z k b A : cache_ok s v None -> fs_inode s !! j = Some y -> live y -> i_addrs y = Some (XAddrs k) ->
  fs_xaddrs s !! k = Some (Addrs b A) -> i_ref z = 0 -> sl_locked (i_lock z) = 0 ->
  cache_ok (set_xaddrs (<[k := Addrs 0 A]> (fs_xaddrs s)) (set_ino j z s)) v None.
Proof.
  intros [Hic Hlk Hdata] Hy Hl Hp Hk Hz Hlz. split.
  - by eapply icache_ok_drop.
  - intros m w Hw _. apply lookup_insert_inode in Hw as [[-> ->]|[_ Hw]]; [done|by apply (Hlk m w)].
  - intros m w k' Hw Hlw Hdw Hvw Hkw. apply lookup_insert_inode in Hw as [[-> ->]|[Hne Hw]]; [unfold live in Hlw; lia|].
    destruct (Hdata m w k' Hw Hlw Hdw Hvw Hkw) as (b' & A' & Hb & HA). exists b', A'. split; [|done]. cbn. rewrite list_lookup_insert_ne; [done|].
    intros <-. apply Hne. by eapply (ic_inj _ Hic m j).
Qed.

Lemma wp_put s v d h L j y Q :
  ftxn s v d h [] L -> cache_ok s v None -> fs_inode s !! j = Some y -> live y -> i_dev y = ROOTDEV -> (i_valid y <> 0 -> i_nlink y <> 0) ->
  (forall s', ftxn s' v d h [] L -> cache_ok s' v None ->
     (forall dev i, refs s' dev i = refs s dev i - (if decide (ROOTDEV = dev /\ i_inum y = i) then 1 else 0)) ->
     (spare s' = spare s + one_if (i_ref y =? 1)%Z)%nat -> (forall m, m <> j -> fs_inode s' !! m = fs_inode s !! m) ->
     (1 < i_ref y -> fs_inode s' !! j = Some (with_iref (i_ref y - 1) (with_ilock (Sleeplock 0 0) y))) -> Q tt s') ->
  wp (iput j) s Q.
Proof.
  intros Ht Hc Hy Hl Hd Hn HQ. destruct (cache_iown _ _ _ _ _ Hc Hy Hl Hd) as (Ho & k & A & Hi). pose proof Hi as [_ _ Hp [b Hb]].
  unfold iput, ops_of. eapply wp_bind, wp_bind, wp_inode_at; [exact Hi|]. rewrite Ho. apply wp_ret. unfold xv6fs_iput, iput_with.
  eapply wp_bind, (wp_inode_acquire V pid sb); [exact Ht|exact Hi|by apply (co_lock _ _ _ Hc j y)|]. intros y1 Hi1.
  eapply wp_bind, wp_inode_at; [exact Hi1|]. replace (negb (i_valid y1 =? 0) && (i_nlink y1 =? 0)) with false.
  2: { symmetry. change (i_valid y1) with (i_valid y). change (i_nlink y1) with (i_nlink y). destruct (Z.eqb_spec (i_valid y) 0); [done|]. cbn. apply Z.eqb_neq. auto. }
  eapply wp_bind, wp_ret. eapply wp_bind, wp_inode_upd; [exact Hi1|]. cbn beta. rewrite set_ino_twice. set (y2 := with_ilock _ y1).
  assert (iown (set_ino j y2 s) j y2 k A) as Hi2 by (by eapply iown_set).
  unfold put_ref. eapply wp_bind, wp_inode_upd; [exact Hi2|]. cbn beta. rewrite set_ino_twice. set (z := with_iref _ y2).
  assert (iown (set_ino j z s) j z k A) as Hi3 by (by eapply iown_set).
  eapply wp_bind, wp_inode_at; [exact Hi3|]. change (i_ref z) with (i_ref y - 1). change (i_addrs y1) with (i_addrs y).
  assert (forall s' z', icache_ok s' -> fs_inode s' = <[j := z']> (fs_inode s) -> i_ref z' = i_ref y - 1 -> i_dev z' = i_dev y -> i_inum z' = i_inum y ->
    (forall dev i, refs s' dev i = refs s dev i - (if decide (ROOTDEV = dev /\ i_inum y = i) then 1 else 0)) /\ (spare s' = spare s + one_if (i_ref y =? 1)%Z)%nat) as Hcount.
  { intros s' z' Hic' He Er Ed Ei. split.
    - intros dev i. rewrite (refs_insert s s' j y z') by (done || apply Hc || (intros; done)). rewrite Ed, Ei, Hd, Er. case_decide; lia.
    - pose proof (spare_insert s s' j y z' He Hy) as Hs. rewrite Er in Hs. unfold live in Hl. rewrite (proj2 (Z.eqb_neq (i_ref y) 0)) in Hs by lia. cbn in Hs.
      replace (i_ref y =? 1) with (i_ref y - 1 =? 0); [lia|]. destruct (Z.eqb_spec (i_ref y - 1) 0), (Z.eqb_spec (i_ref y) 1); lia. }
  destruct (Z.eqb_spec (i_ref y - 1) 0) as [H0|H0].
  - rewrite Hp. cbn [guard_ok clear_slot]. unfold xaddrs_upd. eapply wp_bind, wp_bind, wp_eq; [unfold xaddrs_at; cbn [set_ino set_inodes fs_xaddrs]; rewrite Hb; reflexivity|].
    apply wp_modify. set (z' := with_addrs None z).
    eapply wp_eq; [eapply inode_upd_run; cbn; apply list_lookup_insert_eq; by eapply lookup_lt_Some|]. fold z'.
    match goal with |- Q tt ?st => assert (st = set_xaddrs (<[k := Addrs 0 A]> (fs_xaddrs s)) (set_ino j z' s)) as -> end.
    { unfold set_ino, set_xaddrs, set_inodes. cbn. by rewrite list_insert_insert_eq. }
    assert (cache_ok (set_xaddrs (<[k := Addrs 0 A]> (fs_xaddrs s)) (set_ino j z' s)) v None) as Hc' by (by eapply cache_ok_drop).
    destruct (Hcount _ z' (co_ic _ _ _ Hc') eq_refl) as [Hr Hs]; [done..|]. apply HQ; try done; [|lia].
    intros m Hm. cbn. by rewrite list_lookup_insert_ne.
  - assert (cache_ok (set_ino j z s) v None) as Hc' by (unfold live in Hl; apply (cache_ok_unref s v j y); try done; lia).
    destruct (Hcount _ z (co_ic _ _ _ Hc') eq_refl) as [Hr Hs]; [done..|]. apply wp_ret, HQ; try done.
    + intros m Hm. cbn. by rewrite list_lookup_insert_ne.
    + intros _. apply Hi3.
Qed.

(** ** The tree on the disk *)
Definition dir_on v (i : Z) : gmap (list Z) Z := let di := inode_on sb v i in dir_map (dirents (fbytes v (d_addrs di) 0 (d_size di))).

(** The inodes [P] are in use, and closed under the entries of directories. *)
Record tree v (P : Z -> Prop) : Prop := {
  tr_good : forall i, P i -> good_inode v i;
  tr_closed : forall i n j, P i -> d_type (inode_on sb v i) = T_DIR -> dir_on v i !! n = Some j -> P j;
  tr_bm : bm_ok sb v;
}.

(** Where the elements of a path lead from inode [i]; with [parent], the directory of the last one. *)
Fixpoint walk v (parent : bool) (i : Z) (es : list (list Z)) : option Z :=
  match es with
  | [] => if parent then None else Some i
  | e :: es =>
      if d_type (inode_on sb v i) =? T_DIR then
        if parent && bool_decide (es = []) then Some i
        else j ← dir_on v i !! take DIRSIZ e; walk v parent j es
      else None
  end.

Lemma locked_dir s v P j y k A : tree v P -> P (i_inum y) -> locked s v j y k A -> i_type y = T_DIR ->
  xdir sb s v j y k A /\ dir_map (entries v y A) = dir_on v (i_inum y).
Proof.
  intros [Hg _ Hbm] HP [Hi Ho Hl _ _ HA] Hty. specialize (Hg _ HP). destruct Hg as [Hr Hn0 Hl0 Hd].
  assert (d_type (inode_on sb v (i_inum y)) = T_DIR) as Hty' by (by rewrite <- HA). specialize (Hd Hty'). rewrite <- HA in Hd. destruct Hd as (Hok & Hf & Hs & Hcov & Hm).
  split.
  - split; [|done|exact Hm]. split; try done; [rewrite Hty; done|]. destruct Hok. done.
  - unfold dir_on. by rewrite <- HA.
Qed.

(** One reference to inode [t] of the root device. *)
Definition hit (t dev i : Z) : Z := if decide (ROOTDEV = dev /\ t = i) then 1 else 0.

Lemma wp_unlockput s v d h L j y k A Q :
  ftxn s v d h [] L -> cache_ok s v (Some j) -> locked s v j y k A -> i_nlink y <> 0 ->
  (forall s', ftxn s' v d h [] L -> cache_ok s' v None -> (forall dev i, refs s' dev i = refs s dev i - hit (i_inum y) dev i) ->
     (spare s' = spare s + one_if (i_ref y =? 1)%Z)%nat -> (forall m, m <> j -> fs_inode s' !! m = fs_inode s !! m) ->
     (1 < i_ref y -> fs_inode s' !! j = Some (with_iref (i_ref y - 1) (with_ilock (Sleeplock 0 0) y))) -> Q tt s') ->
  wp (iunlockput j) s Q.
Proof.
  intros Ht Hc Hk Hn HQ. pose proof Hk as [Hi Ho Hl _ _ _]. unfold iunlockput, ops_of. eapply wp_bind, wp_bind, wp_inode_at; [exact Hi|]. rewrite Ho. apply wp_ret.
  unfold xv6fs_iunlockput. eapply wp_bind, wp_unlock; [exact Ht|exact Hc|exact Hk|]. intros s1 y1 Ht1 Hc1 Hy1 Hm1 [Hr1 Hs1].
  eapply (wp_put s1 v d h L j y1); [exact Ht1|exact Hc1|exact Hy1|exact Hl|apply Hi|done|]. intros s2 Ht2 Hc2 Hr2 Hs2 Hm2 Hj2.
  apply HQ; [done|done| | | |].
  - intros dev i. rewrite Hr2, Hr1. done.
  - rewrite Hs2, Hs1. done.
  - intros m Hm. by rewrite Hm2, Hm1.
  - intros Hlt. exact (Hj2 Hlt).
Qed.

(** One step down: from a locked directory to the inode of an entry. *)
Lemma wp_descend {R} s v d h L P j y k A name (K : option nat -> M (fsst D) R) Q :
  ftxn s v d h [] L -> cache_ok s v (Some j) -> locked s v j y k A -> tree v P -> P (i_inum y) -> i_type y = T_DIR -> i_nlink y <> 0 ->
  bytes_ok name -> readable name DIRSIZ -> (2 <= spare s + one_if (i_ref y =? 1)%Z)%nat -> (length L < 22)%nat ->
  (dir_on v (i_inum y) !! nm name = None -> forall s', ftxn s' v d h [] L -> cache_ok s' v None ->
     (forall dev i, refs s' dev i = refs s dev i - hit (i_inum y) dev i) -> wp (K None) s' Q) ->
  (forall t m w s', dir_on v (i_inum y) !! nm name = Some t -> ftxn s' v d h [] L -> cache_ok s' v None -> fs_inode s' !! m = Some w -> live w -> i_dev w = ROOTDEV ->
     i_inum w = t -> (forall dev i, refs s' dev i = refs s dev i - hit (i_inum y) dev i + hit t dev i) -> (2 <= spare s' + one_if (i_ref w =? 1)%Z)%nat -> wp (K (Some m)) s' Q) ->
  wp (next ← dirlookup devsw_read j name; match next with None => iunlockput j ;; K None | Some (m, _) => iunlockput j ;; K (Some m) end) s Q.
Proof.
  intros Ht Hc Hk Htree HP Hty Hn Hnb Hnr Hsp HL HN HS. destruct (locked_dir _ _ _ _ _ _ _ Htree HP Hk Hty) as [Hdir Hmap]. pose proof Hk as [Hi Ho Hl Hlk Hv HA].
  eapply wp_bind, (wp_dirlookup V pid sb Hla devsw_read devsw_write); [exact Ht|exact Hdir|done..|]. intros s1 Ht1 Hd1 Hf1.
  pose proof (xf_own _ _ _ _ _ _ _ (xd_file _ _ _ _ _ _ _ Hd1)) as Hi1. pose proof (cache_ok_read _ _ _ _ _ _ _ _ Hc Hl Hi Hf1 Hi1) as Hc1.
  assert (fs_inode s1 = fs_inode s) as Hin1 by (by eapply frame_inodes). assert (forall dev i, refs s1 dev i = refs s dev i) as Hr1 by (intros; unfold refs; by rewrite Hin1).
  assert (spare s1 = spare s) as Hs1 by (unfold spare; by rewrite Hin1).
  rewrite <- Hmap, dir_map_find in HN, HS. destruct (list_find _ _) as [[n e]|] eqn:Hfind; cbn [fmap option_fmap option_map snd] in HN, HS.
  2: { eapply wp_bind, wp_unlockput; [exact Ht1|exact Hc1|by split|done|]. intros s2 Ht2 Hc2 Hr2 _ _ _. apply HN; [done|done|done|]. intros dev i. by rewrite Hr2, Hr1. }
  eapply wp_bind, wp_iget; [exact Hc1|left; destruct (i_ref y =? 1); cbn in Hsp; lia|].
  intros m w s2 Hc2 Hw Hlw Hdw Hiw Hr2 Hs2 Hm2 Hj2 Hlog Hsb. apply wp_ret.
  assert (ftxn s2 v d h [] L) as Ht2 by (destruct Ht1 as [E1 E2]; split; [by rewrite Hsb|by rewrite Hlog]).
  pose proof Hi1 as [Hy1 Hd1' Hp1 _]. set (yj := if decide (m = j) then with_iref (i_ref y + 1) y else y).
  assert (fs_inode s2 !! j = Some yj) as Hyj by (unfold yj; case_decide as Hmj; [subst m; by rewrite Hw, (Hj2 y Hy1 Hl)|by rewrite Hm2]).
  assert (exists r, yj = with_iref r y /\ i_ref y <= r) as (r & Eyj & Hrr).
  { unfold yj. case_decide; [exists (i_ref y + 1); split; [done|lia]|exists (i_ref y); split; [by destruct y|lia]]. }
  assert (locked s2 v j yj k A) as Hkj.
  { rewrite Eyj in Hyj |- *. destruct (co_data _ _ _ Hc2 j _ k Hyj) as (b & A' & Hb & HA'); [unfold live in *; cbn; lia|done..|].
    assert (A' = A) as -> by (change (i_inum (with_iref r y)) with (i_inum y) in HA'; rewrite <- HA in HA'; by injection HA').
    split; try done; [|unfold live in *; cbn; lia]. split; try done. by exists b. }
  assert (i_inum yj = i_inum y /\ i_nlink yj = i_nlink y) as [Ei En] by (by rewrite Eyj).
  eapply wp_bind, wp_unlockput; [exact Ht2|exact Hc2|exact Hkj|by rewrite En|]. intros s3 Ht3 Hc3 Hr3 Hs3 Hm3 Hj3.
  assert (exists w', fs_inode s3 !! m = Some w' /\ live w' /\ i_dev w' = ROOTDEV /\ i_inum w' = e.1 /\
    i_ref w' = (if decide (m = j) then i_ref y else i_ref w)) as (w' & Hw' & Hlw' & Hdw' & Hiw' & Erw').
  { destruct (decide (m = j)) as [Hmj|Hmj].
    - unfold yj in Hj3. subst m. eexists. split; [apply Hj3; unfold live in Hl; cbn; lia|].
      assert (w = yj) as -> by congruence. rewrite Ei in Hiw. unfold live in *. cbn. split_and!; [lia|exact Hd1'|done|lia].
    - exists w. by rewrite Hm3. }
  apply (HS (e.1) m w' s3); try done.
  - intros dev i. rewrite Hr3, Hr2, Hr1, Ei. unfold hit. lia.
  - rewrite Hs3, Erw'. unfold yj in *. destruct (decide (m = j)) as [Hmj|Hmj]; cbn [with_iref i_ref] in *.
    + assert (w = with_iref (i_ref y + 1) y) as Ew by (subst m; congruence). rewrite Ew in Hs2. cbn in Hs2. unfold live in Hl.
      rewrite (proj2 (Z.eqb_neq (i_ref y + 1) 1)) in * by lia. cbn [one_if] in *. lia.
    + lia.
Qed.

(** ** [namex] *)
Definition namex_result v (parent : bool) (start : Z) (es : list (list Z)) s (r : option nat) (name' : list Z) s' : Prop :=
  match walk v parent start es with
  | Some t => exists m w, r = Some m /\ fs_inode s' !! m = Some w /\ live w /\ i_dev w = ROOTDEV /\ i_inum w = t /\
      (forall dev i, refs s' dev i = refs s dev i - hit start dev i + hit t dev i) /\
      (parent = true -> exists e, last es = Some e /\ nm name' = take DIRSIZ e)
  | None => r = None /\ forall dev i, refs s' dev i = refs s dev i - hit start dev i
  end.

Lemma wp_namex_loop v d h L P (parent : bool) fuel : tree v P -> (length L < 22)%nat -> forall s j y path name Q,
  ftxn s v d h [] L -> cache_ok s v None -> fs_inode s !! j = Some y -> live y -> i_dev y = ROOTDEV -> P (i_inum y) ->
  (length path < fuel)%nat -> 0 ∉ path -> bytes_ok path -> bytes_ok name -> (DIRSIZ <= length name)%nat -> (2 <= spare s + one_if (i_ref y =? 1)%Z)%nat ->
  (forall r name' s', ftxn s' v d h [] L -> cache_ok s' v None -> namex_result v parent (i_inum y) (elems path) s r name' s' -> Q (r, name') s') ->
  wp (namex_loop devsw_read fuel j path parent name) s Q.
Proof.
  intros Htree HL. induction fuel as [|fuel IH]; intros s j y path name Q Ht Hc Hy Hl Hd HP Hlen H0 Hpb Hnb Hnl Hsp HQ; [lia|].
  destruct (cache_iown _ _ _ _ _ Hc Hy Hl Hd) as (Ho & k0 & A0 & Hi0). pose proof (tr_good _ _ Htree _ HP) as Hg.
  cbn [namex_loop]. eapply wp_bind, wp_inode_at; [exact Hi0|].
  assert ((name_max (i_dev y) <= length name)%nat) as Hmax by (rewrite Hd; exact Hnl).
  pose proof (skipelem_first path name (i_dev y) H0 Hmax) as Hskip. unfold namex_result in HQ. destruct (elems path) as [|e es] eqn:Hel.
  - eapply wp_bind, wp_deref; [exact Hskip|]. cbn [walk] in HQ. destruct parent.
    + eapply wp_bind, wp_put; [exact Ht|exact Hc|exact Hy|done|done| |].
      { intros Hv. destruct Hi0 as [_ _ Hp _]. destruct (co_data _ _ _ Hc j y k0 Hy Hl Hd Hv Hp) as (b & A & _ & HA). pose proof (gi_nlink _ _ Hg) as Hn. by rewrite <- HA in Hn. }
      intros s1 Ht1 Hc1 Hr1 _ _ _. apply wp_ret, HQ; [done|done|]. split; [done|]. exact Hr1.
    + apply wp_ret, HQ; [done|done|]. exists j, y. split_and!; try done. intros dev i. lia.
  - destruct Hskip as (rest & name' & Hse & Hes & _ & Hrl & Hrest & Hnm & Hnl').
    destruct (skipelem_sub _ _ _ _ _ Hse) as [Hsub Hnb'].
    assert (nm name' = take DIRSIZ e) as Hnm' by (rewrite Hd in Hnm; unfold name_str in Hnm; rewrite cstr_take in Hnm; exact Hnm).
    eapply wp_bind, wp_deref; [exact Hse|]. eapply wp_bind, wp_lock; [exact Ht|exact Hc|exact Hy|done|done|done|done|].
    intros s1 y1 k A Ht1 Hc1 Hk1 Ei Er [Hr1 Hs1]. pose proof Hk1 as [Hi1 _ Hl1 _ _ HA1].
    eapply wp_bind, wp_inode_at; [exact Hi1|].
    assert (i_type y1 = d_type (inode_on sb v (i_inum y)) /\ i_nlink y1 <> 0) as [Ety Hn1].
    { rewrite Ei in HA1. rewrite <- HA1. split; [done|]. pose proof (gi_nlink _ _ Hg) as Hn. by rewrite <- HA1 in Hn. }
    cbn [walk] in HQ. rewrite Ety. destruct (Z.eqb_spec (d_type (inode_on sb v (i_inum y))) T_DIR) as [Hty|Hty]; cbn [negb].
    2: { eapply wp_bind, wp_unlockput; [exact Ht1|exact Hc1|exact Hk1|done|]. intros s2 Ht2 Hc2 Hr2 _ _ _. apply wp_ret, HQ; [done|done|]. split; [done|].
         intros dev i. rewrite Hr2, Hr1, Ei. done. }
    assert (bool_decide (rest = []) = bool_decide (es = [])) as -> by (by apply bool_decide_ext).
    destruct (parent && bool_decide (es = [])) eqn:Hlast.
    + apply andb_true_iff in Hlast as [-> Hes0%bool_decide_eq_true]. eapply wp_bind, wp_unlock; [exact Ht1|exact Hc1|exact Hk1|].
      intros s2 y2 Ht2 Hc2 Hy2 _ [Hr2 Hs2]. apply wp_ret, HQ; [done|done|]. exists j, y2. split_and!; try done.
      * apply Hi1.
      * intros dev i. rewrite Hr2, Hr1. lia.
      * intros _. exists e. rewrite Hes0. done.
    + apply (wp_descend s1 v d h L P j y1 k A name' (fun o => match o with None => mret (None, name') | Some m => namex_loop devsw_read fuel m rest parent name' end));
        try done; [by rewrite Ei|congruence|by apply Hnb'|right; lia|rewrite Er, Hs1; exact Hsp| |].
      * rewrite Ei, Hnm'. intros Hnone s2 Ht2 Hc2 Hr2. apply wp_ret, HQ; [done|done|]. rewrite Hnone. split; [done|]. intros dev i. rewrite Hr2, Hr1. done.
      * rewrite Ei, Hnm'. intros t m w s2 Hsome Ht2 Hc2 Hw Hlw Hdw Hiw Hr2 Hs2.
        eapply (IH s2 m w rest name'); try done; [rewrite Hiw; by eapply tr_closed|lia|by intros Hin; apply H0, Hsub| |by apply Hnb'|lia|].
        { apply Forall_forall. intros c Hc0. rewrite Forall_forall in Hpb. by apply Hpb, Hsub. }
        intros r name2 s3 Ht3 Hc3 Hres. apply HQ; [done|done|]. rewrite Hsome. cbn [mbind option_bind]. unfold namex_result in Hres. rewrite Hes, Hiw in Hres.
        destruct (walk v parent t es) as [t'|].
        -- destruct Hres as (m' & w' & E1 & E2 & E3 & E4 & E5 & E6 & E7). exists m', w'. split_and!; try done.
           ++ intros dev i. rewrite E6, Hr2, Hr1. lia.
           ++ intros Hpar. destruct (E7 Hpar) as (e' & Hle & Hne). exists e'. split; [|done]. by destruct es.
        -- destruct Hres as [-> E6]. split; [done|]. intros dev i. rewrite E6, Hr2, Hr1. lia.
Qed.

(** What [namex] promises: a reference to the inode that the path names, and no other change in the references. *)
Definition resolved v (parent : bool) (start : Z) (es : list (list Z)) s s' (r : option nat * list Z) : Prop :=
  match walk v parent start es with
  | Some t => exists m w, r.1 = Some m /\ fs_inode s' !! m = Some w /\ live w /\ i_dev w = ROOTDEV /\ i_inum w = t /\
      (forall dev i, refs s' dev i = refs s dev i + hit t dev i) /\ (parent = true -> exists e, last es = Some e /\ nm r.2 = take DIRSIZ e)
  | None => r.1 = None /\ forall dev i, refs s' dev i = refs s dev i
  end.

(** The reference to the inode where the path starts. *)
Definition entered s v (start : Z) (j : nat) s1 : Prop := exists y, cache_ok s1 v None /\ fs_inode s1 !! j = Some y /\ live y /\ i_dev y = ROOTDEV /\ i_inum y = start /\
  (forall dev i, refs s1 dev i = refs s dev i + hit start dev i) /\ (spare s1 + one_if (i_ref y =? 1)%Z = spare s)%nat /\ fs_log s1 = fs_log s /\ fs_sb s1 = fs_sb s.

Lemma wp_enter s v i : cache_ok s v None -> (0 < spare s)%nat -> wp (iget ROOTDEV i) s (entered s v i).
Proof. intros Hc Hs. eapply wp_iget; [exact Hc|by left|]. intros j y s1 C1 C2 C3 C4 C5 C6 C7 _ _ C8 C9. by exists y. Qed.

Lemma wp_from s v d h L P start j s1 path parent name :
  ftxn s v d h [] L -> tree v P -> (length L < 22)%nat -> (2 <= spare s)%nat -> entered s v start j s1 -> P start ->
  0 ∉ path -> bytes_ok path -> bytes_ok name -> (DIRSIZ <= length name)%nat ->
  wp (namex_loop devsw_read (S (length path)) j path parent name) s1
    (fun r s' => ftxn s' v d h [] L /\ cache_ok s' v None /\ resolved v parent start (elems path) s s' r).
Proof.
  intros [Ht1 Ht2] Htree HL Hsp (y & Hc1 & Hy & Hl & Hd & Hi & Hr1 & Hs1 & Hlog & Hsb) HP Hnul Hpb Hnb Hnl.
  eapply (wp_namex_loop v d h L P parent); try done; [split; congruence|by rewrite Hi|lia|lia|].
  intros r name' s' Ht' Hc' Hres. split; [done|]. split; [done|]. unfold namex_result in Hres. unfold resolved. rewrite Hi in Hres. cbn [fst snd].
  destruct (walk v parent start (elems path)) as [t|].
  - destruct Hres as (m & w & E1 & E2 & E3 & E4 & E5 & E6 & E7). exists m, w. split_and!; try done. intros dev i. rewrite E6, Hr1. lia.
  - destruct Hres as [-> E6]. split; [done|]. intros dev i. rewrite E6, Hr1. lia.
Qed.

(** [idup] of an entry is [iget] of its inode. *)
Lemma idup_iget s j x : icache_ok s -> fs_inode s !! j = Some x -> live x -> idup j s = iget (i_dev x) (i_inum x) s.
Proof.
  intros Hic Hx Hl. rewrite (iget_hit s (i_dev x) (i_inum x) j x) by done. unfold idup, mbind, M_bind. by rewrite (inode_upd_run j _ s x).
Qed.

(** Where a path starts. *)
Definition starts s (cwd : nat) (path : list Z) (start : Z) : Prop :=
  if bool_decide (head path = Some slash) then start = ROOTINO else exists c, fs_inode s !! cwd = Some c /\ live c /\ i_dev c = ROOTDEV /\ i_inum c = start.

Lemma match_slash {T : Type} (path : list Z) (a b : T) : match path with 47 :: _ => a | _ => b end = if bool_decide (head path = Some slash) then a else b.
Proof.
  destruct path as [|q t]; [done|]. destruct (decide (q = slash)) as [->|Hq]; [done|]. rewrite bool_decide_false by (cbn; congruence).
  unfold slash in Hq. destruct q as [|q|q]; [done| |done]. do 6 (destruct q as [q|q|]; try done).
Qed.

Lemma wp_namex s v d h L P cwd start path parent name :
  ftxn s v d h [] L -> cache_ok s v None -> tree v P -> (length L < 22)%nat -> (2 <= spare s)%nat ->
  0 ∉ path -> bytes_ok path -> take 4 path <> mnt -> bytes_ok name -> (DIRSIZ <= length name)%nat -> P start -> starts s cwd path start ->
  wp (namex devsw_read cwd path parent name) s (fun r s' => ftxn s' v d h [] L /\ cache_ok s' v None /\ resolved v parent start (elems path) s s' r).
Proof.
  intros Ht Hc Htree HL Hsp Hnul Hpb Hmnt Hnb Hnl HP Hst.
  unfold namex. destruct (strncmp_spec 4 (path ++ [NUL]) (mnt ++ [NUL])) as (z & Hz & Hz0).
  { apply Forall_app. split; [done|]. by constructor. }
  { by apply bytes_okb_spec. }
  { left. apply elem_of_app. right. by left. }
  { left. by apply (bool_decide_unpack _). }
  eapply wp_bind, wp_deref; [exact Hz|]. rewrite cstr_app_nul in Hz0 by done. change (take 4 (cstr (mnt ++ [NUL]))) with mnt in Hz0.
  rewrite (proj2 (Z.eqb_neq z 0)) by (intros E; by apply Hmnt, Hz0).
  assert (wp (ip ← iget ROOTDEV start; mret (ip, path)) s (fun st s1 => st.2 = path /\ entered s v start st.1 s1)) as Hget.
  { eapply wp_bind, wp_mono; [eapply wp_enter; [exact Hc|lia]|]. intros j s1 He. by apply wp_ret. }
  apply wp_bind. eapply wp_mono with (P := fun st s1 => st.2 = path /\ entered s v start st.1 s1).
  - rewrite match_slash. unfold starts in Hst. case_bool_decide; [by subst|]. destruct Hst as (c & Hcwd & Hlc & Hdc & <-). rewrite <- Hdc in Hget.
    unfold wp, mbind, M_bind in *. by rewrite (idup_iget s cwd c (co_ic _ _ _ Hc) Hcwd Hlc).
  - intros st s1 [-> He]. by eapply wp_from.
Qed.
End Names.


(** ** The tree of the image *)

Definition img_inums (i : Z) : Prop := i = 1 \/ i = 2.

Lemma img_inode_on (v : blocks) : (forall b, 32 <= b < 64 \/ b = 1 -> v 1 b = img_map b) -> inode_on img_sb v 1 = img_root /\ inode_on img_sb v 2 = img_file.
Proof.
  intros Hv. unfold inode_on. change (inode_block img_sb 1) with 32. change (inode_block img_sb 2) with 32. unfold ROOTDEV. rewrite (Hv 32) by lia. by vm_compute.
Qed.

Lemma img_tree (v : blocks) : (forall b, 32 <= b < 64 \/ b = 1 -> v 1 b = img_map b) -> tree img_sb v img_inums.
Proof.
  intros Hv. destruct (img_inode_on v Hv) as [H1 H2]. destruct (one_block_ok v 35 Hv) as [Hok Hbm]; [lia|]. split; [| |done].
  - intros i [-> | ->]; split; rewrite ?H1, ?H2; try done. intros _. cbn. split_and!; try done.
    + split; try (unfold s16_ok, u32_ok; cbn; lia); [done|]. apply (bool_decide_unpack _). by vm_compute.
    + intros bn ? ?. by replace bn with 0 by lia.
  - intros i n j [-> | ->] Hty; [|by rewrite H2 in Hty]. unfold dir_on. rewrite H1. cbn [d_addrs d_size img_root]. fold root_addrs. rewrite (img_root_entries v Hv), dir_map_find.
    destruct (list_find _ _) as [[m e]|] eqn:Hf; [|done]. intros [= <-]. apply list_find_Some in Hf as (He & _). unfold img_inums.
    destruct m as [|[|[|m]]]; [injection He as <-; by left|injection He as <-; by left|injection He as <-; by right|done].
Qed.

