(* ===== verification/Umalloc.v ===== *)
(** The user allocator, umalloc.c: Kernighan and Ritchie's circular free list.

    The headers of the blocks are two maps from addresses, one per field; reading a
    word that was never written is a fault. Sizes are in units of eight bytes, as
    in the source. [growproc] is what the kernel does for [sbrk]: the new end of the
    process, or nothing. *)

From S2P Require Import Prelude Bytes Kalloc.

(** The words of [union header], [freep], and the end of the process. *)
Record heap := Heap { h_ptr : gmap Z Z; h_size : gmap Z Z; h_freep : Z; h_brk : Z }.
Definition set_h_ptr v (s : heap) := Heap v (h_size s) (h_freep s) (h_brk s).
Definition set_h_size v (s : heap) := Heap (h_ptr s) v (h_freep s) (h_brk s).
Definition set_h_freep v (s : heap) := Heap (h_ptr s) (h_size s) v (h_brk s).
Definition set_h_brk v (s : heap) := Heap (h_ptr s) (h_size s) (h_freep s) v.

Definition ptr_at (p : Z) : M heap Z := fun s => deref (h_ptr s !! p) s.
Definition size_at (p : Z) : M heap Z := fun s => deref (h_size s !! p) s.
Definition ptr_set (p v : Z) : M heap unit := modify (fun s => set_h_ptr (<[p := v]> (h_ptr s)) s).
Definition size_set (p v : Z) : M heap unit := modify (fun s => set_h_size (<[p := v]> (h_size s)) s).

Section Umalloc.
(** The address of the static header [base], and [growproc]. *)
Context (base : Z) (growproc : Z -> Z -> option Z).

(** The [for] loop of [free]. *)
Fixpoint free_find (fuel : nat) (bp p : Z) : M heap Z :=
  match fuel with
  | O => nofuel
  | S fuel =>
      n ← ptr_at p;
      if (p <? bp) && (bp <? n) then mret p
      else if (n <=? p) && ((p <? bp) || (bp <? n)) then mret p
      else free_find fuel bp n
  end.

(** As many rounds as there are headers are enough. *)
Definition free (ap : Z) : M heap unit :=
  let bp := u32 (ap - 8) in
  p ← gets h_freep;
  fuel ← gets (fun s => S (size (h_ptr s)));
  p ← free_find fuel bp p;
  n ← ptr_at p;
  sz ← size_at bp;
  (if u32 (bp + 8 * sz) =? n then
     nsz ← size_at n;
     size_set bp (u32 (sz + nsz)) ;;
     nn ← ptr_at n;
     ptr_set bp nn
   else ptr_set bp n) ;;
  psz ← size_at p;
  (if u32 (p + 8 * psz) =? bp then
     sz ← size_at bp;
     size_set p (u32 (psz + sz)) ;;
     n ← ptr_at bp;
     ptr_set p n
   else ptr_set p bp) ;;
  modify (set_h_freep p).

(** The system call: the old end, or -1. *)
Definition sbrk (n : Z) : M heap Z := fun s =>
  match growproc (h_brk s) n with
  | Some b => Ok (h_brk s) (set_h_brk b s)
  | None => Ok (-1) s
  end.

Definition morecore (nu : Z) : M heap Z :=
  let nu := if nu <? 4096 then 4096 else nu in
  p ← sbrk (s32 (nu * 8));
  if p =? -1 then mret 0
  else
    size_set p nu ;;
    free (u32 (p + 8)) ;;
    gets h_freep.

Fixpoint malloc_loop (fuel : nat) (nunits prevp p : Z) : M heap Z :=
  match fuel with
  | O => nofuel
  | S fuel =>
      sz ← size_at p;
      if nunits <=? sz then
        p ← (if sz =? nunits then n ← ptr_at p; ptr_set prevp n ;; mret p
             else
               size_set p (sz - nunits) ;;
               let q := u32 (p + 8 * (sz - nunits)) in
               size_set q nunits ;;
               mret q);
        modify (set_h_freep prevp) ;;
        mret (u32 (p + 8))
      else
        f ← gets h_freep;
        if p =? f then
          p ← morecore nunits;
          if p =? 0 then mret 0
          else n ← ptr_at p; malloc_loop fuel nunits p n
        else n ← ptr_at p; malloc_loop fuel nunits p n
  end.

Definition units_of (nbytes : Z) : Z := u32 (u32 (nbytes + 8 - 1) / 8 + 1).

(** Once around the list before [morecore] and once after it. *)
Definition malloc (nbytes : Z) : M heap Z :=
  let nunits := units_of nbytes in
  f ← gets h_freep;
  prevp ← (if f =? 0 then
             ptr_set base base ;; modify (set_h_freep base) ;; size_set base 0 ;; mret base
           else mret f);
  p ← ptr_at prevp;
  fuel ← gets (fun s => (2 * size (h_ptr s) + 4)%nat);
  malloc_loop fuel nunits prevp p.

(** ** The free list *)

(** [n] follows [x] in the ring of the addresses [F]: it is the next one up, or [x] is the highest and [n] is [base]. *)
Definition gap (F : gset Z) (x n : Z) : Prop :=
  (x < n /\ forall y, y ∈ F -> y <= x \/ n <= y) \/ (n = base /\ forall y, y ∈ F -> y <= x).

Definition links (ptr : gmap Z Z) (F : gset Z) : Prop :=
  forall x, x ∈ F -> exists n, ptr !! x = Some n /\ n ∈ F /\ gap F x n.

(** The elements from [x] on up to [t], the way around. *)
Definition ahead (F : gset Z) (t x : Z) : gset Z :=
  filter (fun y => (x <= t /\ x < y <= t) \/ (t < x /\ (x < y \/ y <= t))) F.

Lemma elem_of_ahead F t x y : y ∈ ahead F t x <-> ((x <= t /\ x < y <= t) \/ (t < x /\ (x < y \/ y <= t))) /\ y ∈ F.
Proof. unfold ahead. by rewrite elem_of_filter. Qed.

Lemma ahead_next F t x n :
  (forall y, y ∈ F -> base <= y) -> t ∈ F -> n ∈ F -> x <> t -> gap F x n -> (size (ahead F t n) < size (ahead F t x))%nat.
Proof.
  intros Hb Ht Hn Hxt Hg. apply subset_size. split.
  - intros y. rewrite !elem_of_ahead. pose proof (Hb t Ht). intros [Hy HyF]. split; [|done]. pose proof (Hb y HyF).
    destruct Hg as [[Hx Hg]|[-> Hg]]; specialize (Hg t Ht) as Hgt; specialize (Hg y HyF); lia.
  - intros Hs. assert (n ∈ ahead F t x) as Hin.
    { rewrite elem_of_ahead. split; [|done]. pose proof (Hb t Ht). destruct Hg as [[Hx Hg]|[-> Hg]]; specialize (Hg t Ht); lia. }
    apply Hs in Hin. rewrite elem_of_ahead in Hin. destruct Hin as [Hin _]. lia.
Qed.

(** Where the block [b] belongs: after [x]. *)
Definition before (F : gset Z) (x b : Z) : Prop := x < b /\ forall y, y ∈ F -> y <= x \/ b < y.

Lemma before_exists F b : base ∈ F -> base < b -> b ∉ F -> exists x, x ∈ F /\ before F x b.
Proof.
  intros Hb Hlt HbF. destruct (minimal_exists_elem_of_L (flip Z.le) (filter (fun y => y < b) F)) as (x & Hx & Hmin).
  - intros He. assert (base ∈ filter (fun y => y < b) F) as Hin by (by apply elem_of_filter). rewrite He in Hin. set_solver.
  - apply elem_of_filter in Hx as [Hxb HxF]. exists x. split; [done|]. split; [done|]. intros y Hy.
    destruct (decide (y < b)) as [Hyb|Hyb].
    + left. destruct (decide (y <= x)); [done|]. assert (y <= x); [|lia]. apply Hmin; [by apply elem_of_filter|unfold flip; lia].
    + right. assert (y <> b) by (intros ->; done). lia.
Qed.

(** The loop of [free] stops there and nowhere else. *)
Lemma stop_before F x n b :
  (forall y, y ∈ F -> base <= y) -> x ∈ F -> n ∈ F -> base < b -> b ∉ F -> gap F x n ->
  before F x b <-> ((x <? b) && (b <? n) || (n <=? x) && ((x <? b) || (b <? n))) = true.
Proof.
  intros Hb Hx Hn Hlt HbF Hg. assert (n <> b) by (intros ->; done). assert (x <> b) by (intros ->; done).
  rewrite orb_true_iff, !andb_true_iff, orb_true_iff, !Z.ltb_lt, Z.leb_le. unfold before. split.
  - intros [Hxb Hy]. specialize (Hy n Hn). pose proof (Hb x Hx). destruct Hg as [[Hg _]|[-> _]]; lia.
  - intros Hs. pose proof (Hb x Hx). split; [destruct Hg as [[Hg _]|[-> _]]; lia|]. intros y Hy.
    assert (y <> b) by (intros ->; done). destruct Hg as [[Hgx Hg]|[-> Hg]]; specialize (Hg y Hy); lia.
Qed.

Lemma gap_insert F x n b :
  before F x b -> gap F x n -> n ∈ F -> base < b -> gap ({[b]} ∪ F) x b /\ gap ({[b]} ∪ F) b n.
Proof.
  intros [Hxb Hy] Hg Hn Hb. split; [left; split; [done|]|].
  - intros y. rewrite elem_of_union, elem_of_singleton. intros [->|HyF]; [lia|]. specialize (Hy y HyF). lia.
  - pose proof (Hy n Hn). destruct Hg as [[Hg Hg2]|[-> Hg2]]; [left|right]; (split; [lia|]);
      intros y; rewrite elem_of_union, elem_of_singleton; (intros [->|HyF]; [lia|]); specialize (Hy y HyF); specialize (Hg2 y HyF); lia.
Qed.

Lemma gap_insert_other F x b y m :
  before F x b -> y ∈ F -> m ∈ F -> y <> x -> gap F y m -> base < b -> x ∈ F -> gap ({[b]} ∪ F) y m.
Proof.
  intros [Hxb Hbe] Hy Hm Hne Hg Hb Hx. pose proof (Hbe y Hy). pose proof (Hbe m Hm).
  destruct Hg as [[Hg Hg2]|[-> Hg2]]; [left|right]; (split; [lia|]); pose proof (Hg2 x Hx);
    intros z; rewrite elem_of_union, elem_of_singleton; (intros [->|HzF]; [lia|by apply Hg2]).
Qed.

Lemma gap_remove F x b n : gap F x b -> gap F b n -> b <> base -> n <> b -> gap (F ∖ {[b]}) x n.
Proof.
  intros [[Hxb Hg]|[-> _]] Hgb Hb Hn; [|done]. destruct Hgb as [[Hbn Hg2]|[-> Hg2]]; [left|right]; (split; [lia|]);
    intros y; rewrite elem_of_difference, elem_of_singleton; intros [HyF Hyb]; specialize (Hg y HyF); specialize (Hg2 y HyF); lia.
Qed.

Lemma gap_remove_other F b y m : gap F y m -> m <> b -> gap (F ∖ {[b]}) y m.
Proof.
  intros [[Hg Hg2]|[-> Hg2]] Hm; [left|right]; (split; [done|]); intros z; rewrite elem_of_difference; intros [HzF _]; by apply Hg2.
Qed.

(** A header other than [base] is next to one only. *)
Lemma gap_inj F x y b : gap F x b -> gap F y b -> x ∈ F -> y ∈ F -> b <> base -> x = y.
Proof.
  intros [[Hx Hg]|[-> _]] [[Hy Hg2]|[Hb _]] HxF HyF Hb'; try done.
  specialize (Hg y HyF). specialize (Hg2 x HxF). lia.
Qed.

(** ** Blocks *)

(** The sizes of all blocks: no two overlap. *)
Definition packed (B : gmap Z Z) : Prop := forall x s y t, B !! x = Some s -> B !! y = Some t -> x < y -> x + 8 * s <= y.

Definition units (B : gmap Z Z) : Z := map_fold (fun _ s n => s + n) 0 B.

Lemma units_insert B x s : B !! x = None -> units (<[x := s]> B) = s + units B.
Proof. intros Hx. unfold units. rewrite map_fold_insert_L; [done|intros; lia|done]. Qed.

Lemma units_delete B x s : B !! x = Some s -> units B = s + units (delete x B).
Proof. intros Hx. rewrite <- (insert_delete_id B x s Hx) at 1. rewrite units_insert; [done|]. apply lookup_delete_eq. Qed.

Lemma units_set B x s t : B !! x = Some s -> units (<[x := t]> B) = units B - s + t.
Proof.
  intros Hx. rewrite (units_delete B x s Hx), <- insert_delete_eq, units_insert by apply lookup_delete_eq. lia.
Qed.

Lemma packed_merge B x s y t :
  packed B -> B !! x = Some s -> B !! y = Some t -> x + 8 * s = y -> 0 < s -> 0 <= t -> packed (delete y (<[x := s + t]> B)).
Proof.
  intros Hp Hx Hy Hxy Hs Ht a u b v Ha Hb Hab. rewrite lookup_delete_Some, lookup_insert_Some in Ha, Hb.
  destruct Ha as [Hay [[<- <-]|[Hax Ha]]], Hb as [Hby [[<- <-]|[Hbx Hb]]]; [lia| | |by eapply (Hp a u b v)].
  - pose proof (Hp _ _ _ _ Hx Hb Hab). destruct (decide (y < b)); [pose proof (Hp _ _ _ _ Hy Hb ltac:(lia)); lia|]. assert (b = y) by lia. done.
  - by eapply (Hp a u x s).
Qed.

Lemma packed_split B x s n : packed B -> B !! x = Some s -> 0 < n < s -> packed (<[x + 8 * (s - n) := n]> (<[x := s - n]> B)).
Proof.
  intros Hp Hx Hn a u b v Ha Hb Hab. rewrite !lookup_insert_Some in Ha, Hb.
  destruct Ha as [[<- <-]|[Hay [[<- <-]|[Hax Ha]]]], Hb as [[<- <-]|[Hby [[<- <-]|[Hbx Hb]]]]; try lia.
  - pose proof (Hp _ _ _ _ Hx Hb ltac:(lia)). lia.
  - pose proof (Hp _ _ _ _ Hx Hb ltac:(lia)). lia.
  - destruct (decide (a < x)); [pose proof (Hp _ _ _ _ Ha Hx ltac:(lia)); lia|]. pose proof (Hp _ _ _ _ Hx Ha ltac:(lia)). lia.
  - by eapply (Hp a u x s).
  - by eapply (Hp a u b v).
Qed.

(** [B] are the sizes of all blocks, [F] the free ones with [base], in a process whose heap starts at [lo]:
    the headers hold the sizes, the free ones are linked by address, and the blocks fill the heap. *)
Record inv (lo : Z) (s : heap) (B : gmap Z Z) (F : gset Z) : Prop := {
  i_base : 0 < base < lo /\ base ∈ F /\ B !! base = Some 0;
  i_freep : h_freep s ∈ F;
  i_links : links (h_ptr s) F;
  i_size x z : B !! x = Some z -> h_size s !! x = Some z;
  i_sub x : x ∈ F -> is_Some (B !! x);
  i_packed : packed B;
  i_range x z : B !! x = Some z -> x <> base -> lo <= x /\ 0 < z /\ x + 8 * z <= h_brk s;
  i_brk : lo <= h_brk s < KERNBASE;
  i_units : 8 * units B = h_brk s - lo;
}.

(** The blocks in use. *)
Definition used (B : gmap Z Z) (F : gset Z) (x z : Z) : Prop := B !! x = Some z /\ x ∉ F.

Lemma inv_low lo s B F : inv lo s B F -> forall y, y ∈ F -> base <= y.
Proof.
  intros Hi y Hy. destruct (i_sub _ _ _ _ Hi y Hy) as [z Hz]. destruct (decide (y = base)) as [->|Hne]; [done|].
  destruct (i_range _ _ _ _ Hi y z Hz Hne). destruct (i_base _ _ _ _ Hi). lia.
Qed.

(** Addresses and sizes do not wrap around. *)
Lemma inv_bounds lo s B F x z : inv lo s B F -> B !! x = Some z -> 0 < x /\ 0 <= z /\ x + 8 * z <= h_brk s /\ h_brk s < 2147483648.
Proof.
  intros Hi Hx. destruct (i_base _ _ _ _ Hi) as (Hb & _ & HB). pose proof (i_brk _ _ _ _ Hi) as Hk. unfold KERNBASE in Hk.
  destruct (decide (x = base)) as [->|Hne]; [assert (z = 0) as -> by congruence; lia|].
  destruct (i_range _ _ _ _ Hi x z Hx Hne). lia.
Qed.

Lemma inv_insert lo s B F p n b z :
  inv lo s B F -> p ∈ F -> h_ptr s !! p = Some n -> before F p b -> B !! b = Some z -> b ∉ F ->
  inv lo (set_h_freep p (set_h_ptr (<[p := b]> (<[b := n]> (h_ptr s))) s)) B ({[b]} ∪ F).
Proof.
  intros Hi Hp Hpn Hbe Hb HbF. pose proof (i_base _ _ _ _ Hi) as (Hbase & HbaseF & HbaseB).
  assert (b <> base) as Hbb by (by intros ->). destruct (i_range _ _ _ _ Hi b z Hb Hbb) as (Hlo & _).
  destruct (i_links _ _ _ _ Hi p Hp) as (n' & Hpn' & Hn & Hg). assert (n' = n) as -> by congruence.
  destruct (gap_insert F p n b Hbe Hg Hn ltac:(lia)) as [Hg1 Hg2]. assert (p <> b) as Hpb by (by intros ->).
  destruct Hi as [_ Hf Hl Hs Hsub Hpk Hr Hbrk Hu]. split; cbn; [set_solver|set_solver| |done| |done|done|done|done].
  - intros x Hx. destruct (decide (x = p)) as [->|Hxp].
    + exists b. rewrite lookup_insert_eq. split_and!; [done|set_solver|done].
    + rewrite lookup_insert_ne by done. destruct (decide (x = b)) as [->|Hxb].
      * exists n. rewrite lookup_insert_eq. split_and!; [done|set_solver|done].
      * rewrite lookup_insert_ne by done. assert (x ∈ F) as HxF by set_solver. destruct (Hl x HxF) as (m & Hm & HmF & Hgm).
        exists m. split_and!; [done|set_solver|]. eapply gap_insert_other; [exact Hbe|done|done|done|done|lia|done].
  - intros x Hx. apply elem_of_union in Hx as [->%elem_of_singleton|Hx]; [by eexists|by apply Hsub].
Qed.

Lemma inv_merge lo s B F x y n sx sy :
  inv lo s B F -> x ∈ F -> h_ptr s !! x = Some y -> y <> base -> h_ptr s !! y = Some n -> h_freep s <> y ->
  B !! x = Some sx -> B !! y = Some sy -> x + 8 * sx = y ->
  inv lo (set_h_ptr (<[x := n]> (h_ptr s)) (set_h_size (<[x := sx + sy]> (h_size s)) s)) (delete y (<[x := sx + sy]> B)) (F ∖ {[y]}).
Proof.
  intros Hi Hx Hxy Hyb Hyn Hfy HBx HBy Hadj. pose proof (i_base _ _ _ _ Hi) as (Hbase & HbaseF & HbaseB).
  assert (x <> base) as Hxb by (intros ->; rewrite HbaseB in HBx; injection HBx as <-; apply Hyb; lia).
  destruct (i_range _ _ _ _ Hi x sx HBx Hxb) as (Hlx & Hsx & _). destruct (i_range _ _ _ _ Hi y sy HBy Hyb) as (_ & Hsy & Hye).
  destruct (i_links _ _ _ _ Hi x Hx) as (y' & Hxy' & Hy & Hg). assert (y' = y) as -> by congruence.
  destruct (i_links _ _ _ _ Hi y Hy) as (n' & Hyn' & Hn & Hgy). assert (n' = n) as -> by congruence.
  assert (n <> y) as Hny by (intros ->; destruct Hgy as [[Hgy _]|[-> _]]; [lia|done]).
  destruct Hi as [_ Hf Hl Hs Hsub Hpk Hr Hbrk Hu]. split; cbn.
  - split_and!; [lia|lia|set_solver|]. rewrite lookup_delete_ne, lookup_insert_ne by done. done.
  - set_solver.
  - intros v [Hv Hvy]%elem_of_difference. rewrite elem_of_singleton in Hvy. destruct (decide (v = x)) as [->|Hvx].
    + exists n. rewrite lookup_insert_eq. split_and!; [done|set_solver|by eapply gap_remove].
    + rewrite lookup_insert_ne by done. destruct (Hl v Hv) as (m & Hm & HmF & Hgm). exists m.
      assert (m <> y) as Hmy by (intros ->; apply Hvx; by eapply gap_inj).
      split_and!; [done|set_solver|by apply gap_remove_other].
  - intros v z Hv. rewrite lookup_delete_Some, lookup_insert_Some in Hv. destruct Hv as [_ [[<- <-]|[Hne Hv]]].
    + apply lookup_insert_eq.
    + rewrite lookup_insert_ne by done. by apply Hs.
  - intros v [Hv Hvy]%elem_of_difference. rewrite elem_of_singleton in Hvy. rewrite lookup_delete_ne by done.
    destruct (decide (v = x)) as [->|Hvx]; [rewrite lookup_insert_eq; by eexists|]. rewrite lookup_insert_ne by done. by apply Hsub.
  - apply (packed_merge B x sx y sy); [done|done|done|done|lia|lia].
  - intros v z Hv Hvb. rewrite lookup_delete_Some, lookup_insert_Some in Hv. destruct Hv as [_ [[<- <-]|[Hne Hv]]]; [lia|by apply Hr].
  - done.
  - assert (<[x := sx + sy]> B !! y = Some sy) as HBy' by (rewrite lookup_insert_ne by lia; done).
    pose proof (units_delete _ y sy HBy') as Hd. rewrite (units_set B x sx) in Hd by done. lia.
Qed.

Lemma used_merge B F x y z v w : x ∈ F -> y ∈ F -> used (delete y (<[x := z]> B)) (F ∖ {[y]}) v w <-> used B F v w.
Proof.
  intros Hx Hy. unfold used. rewrite lookup_delete_Some, lookup_insert_Some, elem_of_difference, elem_of_singleton. split.
  - intros [[Hyv Hv] HvF]. assert (v ∉ F) by (intros HF; apply HvF; auto). destruct Hv as [[<- _]|[_ Hv]]; done.
  - intros [Hv HvF]. assert (y <> v) by (by intros ->). assert (x <> v) by (by intros ->). tauto.
Qed.

Lemma wp_ptr_at q v s (Q : Z -> heap -> Prop) : h_ptr s !! q = Some v -> Q v s -> wp (ptr_at q) s Q.
Proof. intros Hq HQ. unfold wp, ptr_at. by rewrite Hq. Qed.
Lemma wp_size_at q v s (Q : Z -> heap -> Prop) : h_size s !! q = Some v -> Q v s -> wp (size_at q) s Q.
Proof. intros Hq HQ. unfold wp, size_at. by rewrite Hq. Qed.

Lemma wp_free_find lo fuel s B F b t p (Q : Z -> heap -> Prop) :
  inv lo s B F -> b ∉ F -> base < b -> p ∈ F -> t ∈ F -> before F t b -> (size (ahead F t p) < fuel)%nat ->
  Q t s -> wp (free_find fuel b p) s Q.
Proof.
  intros Hi Hb Hlt Hp Ht Hbe Hf HQ. pose proof (inv_low _ _ _ _ Hi) as Hlow. revert p Hp Hf.
  induction fuel as [|fuel IH]; intros p Hp Hf; [lia|]. cbn [free_find].
  destruct (i_links _ _ _ _ Hi p Hp) as (n & Hpn & Hn & Hg). eapply wp_bind, wp_ptr_at; [exact Hpn|].
  pose proof (stop_before F p n b Hlow Hp Hn Hlt Hb Hg) as Hs.
  destruct (decide (p = t)) as [->|Hpt].
  - pose proof (proj1 Hs Hbe) as Hc. destruct ((t <? b) && (b <? n)); [by apply wp_ret|]. cbn [orb] in Hc. rewrite Hc. by apply wp_ret.
  - assert (~ before F p b) as Hnb.
    { intros [Hpb Hy]. destruct Hbe as [Htb Hy']. specialize (Hy t Ht). specialize (Hy' p Hp). lia. }
    rewrite Hs in Hnb. destruct ((p <? b) && (b <? n)); [done|]. cbn [orb] in Hnb.
    destruct ((n <=? p) && ((p <? b) || (b <? n))); [done|]. apply IH; [done|].
    pose proof (ahead_next F t p n Hlow Ht Hn Hpt Hg). lia.
Qed.

Lemma ahead_size F t p (m : gmap Z Z) : links m F -> (size (ahead F t p) <= size m)%nat.
Proof.
  intros Hl. rewrite <- (size_dom m). apply subseteq_size. intros x [_ Hx]%elem_of_ahead. destruct (Hl x Hx) as (n & Hn & _).
  apply elem_of_dom. by eexists.
Qed.

(** The state [free] leaves: [b] is free, perhaps as part of a larger block. *)
Record freed lo s' s B F b z B' F' : Prop := {
  fd_inv : inv lo s' B' F';
  fd_used x w : used B' F' x w <-> used B F x w /\ x <> b;
  fd_big : exists t w, t ∈ F' /\ B' !! t = Some w /\ z <= w;
  fd_size : (size (h_ptr s') <= S (size (h_ptr s)))%nat;
  fd_brk : h_brk s' = h_brk s;
}.

Lemma size_two (m : gmap Z Z) p n b c : is_Some (m !! p) -> (size (<[p := n]> (<[b := c]> m)) <= S (size m))%nat.
Proof.
  intros Hp. rewrite <- !size_dom, dom_insert_L, dom_insert_L. assert (p ∈ dom m) by (by apply elem_of_dom).
  replace ({[p]} ∪ ({[b]} ∪ dom m)) with ({[b]} ∪ dom m) by set_solver. destruct (decide (b ∈ dom m)) as [Hb|Hb].
  - replace ({[b]} ∪ dom m) with (dom m) by set_solver. lia.
  - rewrite size_union by set_solver. rewrite size_singleton. lia.
Qed.

(** The first [if] of [free]: join [b] with the block above it. The invariant is that of the state in which
    [p] already points to [b]. *)
Lemma wp_free_up lo s B F p n b z (Q : unit -> heap -> Prop) :
  inv lo s B F -> p ∈ F -> h_ptr s !! p = Some n -> before F p b -> B !! b = Some z -> b ∉ F ->
  (forall s1 B1 F1 z1 n1, inv lo (set_h_freep p (set_h_ptr (<[p := b]> (h_ptr s1)) s1)) B1 F1 ->
     b ∈ F1 -> p ∈ F1 -> B1 !! b = Some z1 -> B1 !! p = B !! p -> z <= z1 -> h_ptr s1 = <[b := n1]> (h_ptr s) ->
     (forall x w, used B1 F1 x w <-> used B F x w /\ x <> b) -> h_brk s1 = h_brk s -> Q tt s1) ->
  wp (if u32 (b + 8 * z) =? n then
        nsz ← size_at n; size_set b (u32 (z + nsz)) ;; nn ← ptr_at n; ptr_set b nn
      else ptr_set b n) s Q.
Proof.
  intros Hi Hp Hpn Hbe Hb HbF HQ. pose proof (i_base _ _ _ _ Hi) as (Hbase & HbaseF & HbaseB).
  assert (b <> base) as Hbb by (by intros ->). destruct (i_range _ _ _ _ Hi b z Hb Hbb) as (Hlo & Hz & Hend).
  pose proof (i_brk _ _ _ _ Hi) as Hbrk. unfold KERNBASE in Hbrk. rewrite (u32_small (b + 8 * z)) by lia.
  pose proof (inv_insert _ _ _ _ _ _ _ _ Hi Hp Hpn Hbe Hb HbF) as Hi1. assert (p <> b) as Hpb by (by intros ->).
  assert (forall x w, used B ({[b]} ∪ F) x w <-> used B F x w /\ x <> b) as Hu.
  { intros x w. unfold used. rewrite elem_of_union, elem_of_singleton. tauto. }
  destruct (Z.eqb_spec (b + 8 * z) n) as [Hn|Hn].
  2:{ apply wp_modify. eapply (HQ _ B ({[b]} ∪ F) z n); [exact Hi1|set_solver|set_solver|done|done|lia|done|done|done]. }
  destruct (i_links _ _ _ _ Hi p Hp) as (n' & Hpn' & HnF & _). assert (n' = n) as -> by congruence.
  destruct (i_links _ _ _ _ Hi n HnF) as (nn & Hnn & _ & _). destruct (i_sub _ _ _ _ Hi n HnF) as [sn Hsn].
  assert (n <> base) as Hnb by lia. destruct (i_range _ _ _ _ Hi n sn Hsn Hnb) as (_ & Hsn0 & Hnend).
  assert (n <> p) as Hnp by (destruct Hbe; lia). assert (n <> b) as Hnb' by lia.
  eapply wp_bind, wp_size_at; [by apply (i_size _ _ _ _ Hi)|]. eapply wp_bind, wp_modify, wp_bind, wp_ptr_at; [exact Hnn|]. apply wp_modify.
  rewrite u32_small by lia.
  assert (b ∈ {[b]} ∪ F) as HbF1 by set_solver.
  eapply inv_merge in Hi1 as Hi2; [|exact HbF1| |exact Hnb| |cbn; congruence|exact Hb|exact Hsn|exact Hn].
  2:{ cbn. rewrite lookup_insert_ne, lookup_insert_eq by done. done. }
  2:{ cbn. rewrite !lookup_insert_ne by done. exact Hnn. }
  eapply (HQ _ (delete n (<[b := z + sn]> B)) (({[b]} ∪ F) ∖ {[n]}) (z + sn) nn);
    [|set_solver|set_solver| | |lia|done| |done].
  - cbn in *. rewrite (insert_insert_ne _ b p), insert_insert_eq in Hi2 by done. exact Hi2.
  - rewrite lookup_delete_ne, lookup_insert_eq by done. done.
  - by rewrite lookup_delete_ne, lookup_insert_ne by done.
  - intros x w. rewrite used_merge by set_solver. apply Hu.
Qed.

Lemma wp_free lo s B F b z (Q : unit -> heap -> Prop) :
  inv lo s B F -> B !! b = Some z -> b ∉ F ->
  (forall s' B' F', freed lo s' s B F b z B' F' -> Q tt s') -> wp (free (b + 8)) s Q.
Proof.
  intros Hi Hb HbF HQ. pose proof (i_base _ _ _ _ Hi) as (Hbase & HbaseF & HbaseB).
  assert (b <> base) as Hbb by (by intros ->). destruct (i_range _ _ _ _ Hi b z Hb Hbb) as (Hlo & Hz & Hend).
  pose proof (i_brk _ _ _ _ Hi) as Hbrk. unfold KERNBASE in Hbrk.
  destruct (before_exists F b HbaseF ltac:(lia) HbF) as (p & Hp & Hbe). assert (p <> b) as Hpb by (by intros ->).
  unfold free. rewrite u32_small by lia. replace (b + 8 - 8) with b by lia.
  eapply wp_bind, wp_gets, wp_bind, wp_gets, wp_bind, wp_free_find;
    [exact Hi|exact HbF|lia|apply Hi|exact Hp|exact Hbe|pose proof (ahead_size F p (h_freep s) _ (i_links _ _ _ _ Hi)); lia|].
  destruct (i_links _ _ _ _ Hi p Hp) as (n & Hpn & _ & _). destruct (i_sub _ _ _ _ Hi p Hp) as [zp Hzp].
  eapply wp_bind, wp_ptr_at; [exact Hpn|]. eapply wp_bind, wp_size_at; [by apply (i_size _ _ _ _ Hi)|].
  eapply wp_bind, wp_free_up; [exact Hi|exact Hp|exact Hpn|exact Hbe|exact Hb|exact HbF|].
  intros s1 B1 F1 z1 n1 Hi1 HbF1 HpF1 Hz1 Hzp1 Hzz Hptr Hu Hbrk1. rewrite Hzp in Hzp1.
  assert (is_Some (h_ptr s !! p)) as Hps by (by eexists).
  eapply wp_bind, wp_size_at; [by apply (i_size _ _ _ _ Hi1)|].
  destruct (inv_bounds _ _ _ _ p zp Hi Hzp) as (Hp0 & Hzp0 & Hpe & _). rewrite (u32_small (p + 8 * zp)) by lia.
  destruct (Z.eqb_spec (p + 8 * zp) b) as [Hadj|Hadj].
  2:{ eapply wp_bind, wp_modify, wp_modify, (HQ _ B1 F1). split; [exact Hi1|exact Hu|by exists b, z1| |done].
      cbn. rewrite Hptr. by apply size_two. }
  destruct (i_range _ _ _ _ Hi1 b z1 Hz1 Hbb) as (_ & Hz1p & Hz1e). cbn in Hz1e.
  eapply wp_bind, wp_bind, wp_size_at; [by apply (i_size _ _ _ _ Hi1)|]. eapply wp_bind, wp_modify.
  eapply wp_bind, wp_ptr_at; [cbn; rewrite Hptr; apply lookup_insert_eq|]. apply wp_modify, wp_modify.
  rewrite u32_small by (destruct Hbe; lia).
  eapply inv_merge in Hi1 as Hi2; [|exact HpF1|cbn; apply lookup_insert_eq|exact Hbb| |done|exact Hzp1|exact Hz1|exact Hadj].
  2:{ cbn. rewrite lookup_insert_ne by done. rewrite Hptr. apply lookup_insert_eq. }
  apply (HQ _ (delete b (<[p := zp + z1]> B1)) (F1 ∖ {[b]})). split.
  - cbn in *. rewrite insert_insert_eq in Hi2. exact Hi2.
  - intros x w. rewrite used_merge by done. apply Hu.
  - exists p, (zp + z1). split_and!; [set_solver| |]; [rewrite lookup_delete_ne, lookup_insert_eq by done; done|lia].
  - cbn. rewrite Hptr. by apply size_two.
  - done.
Qed.

(** ** [malloc] *)

(** The state [malloc] leaves: the block at [r] of [n] units is in use, and was not before. *)
Record took lo s' B F n r B' F' : Prop := {
  tk_inv : inv lo s' B' F';
  tk_used x w : used B' F' x w <-> used B F x w \/ (x = r /\ w = n);
  tk_fresh w : ~ used B F r w;
}.

Lemma inv_take lo s B F prev p n z :
  inv lo s B F -> prev ∈ F -> h_ptr s !! prev = Some p -> B !! p = Some z -> 0 < z -> h_ptr s !! p = Some n ->
  took lo (set_h_freep prev (set_h_ptr (<[prev := n]> (h_ptr s)) s)) B F z p B (F ∖ {[p]}).
Proof.
  intros Hi Hprev Hpp Hp Hz Hn. pose proof (i_base _ _ _ _ Hi) as (Hbase & HbaseF & HbaseB).
  assert (p <> base) as Hpb by (intros ->; rewrite HbaseB in Hp; injection Hp as <-; lia).
  destruct (i_links _ _ _ _ Hi prev Hprev) as (p' & Hpp' & HpF & Hg). assert (p' = p) as -> by congruence.
  destruct (i_links _ _ _ _ Hi p HpF) as (n' & Hn' & HnF & Hgp). assert (n' = n) as -> by congruence.
  assert (prev <> p) as Hne by (intros ->; destruct Hg as [[Hg _]|[-> _]]; [lia|done]).
  assert (n <> p) as Hnp by (intros ->; destruct Hgp as [[Hgp _]|[-> _]]; [lia|done]).
  split.
  - destruct Hi as [_ Hf Hl Hs Hsub Hpk Hr Hbrk Hu]. split; cbn; [set_solver|set_solver| |done| |done|done|done|done].
    + intros x [Hx Hxp]%elem_of_difference. rewrite elem_of_singleton in Hxp. destruct (decide (x = prev)) as [->|Hxv].
      * exists n. rewrite lookup_insert_eq. split_and!; [done|set_solver|by eapply gap_remove].
      * rewrite lookup_insert_ne by done. destruct (Hl x Hx) as (m & Hm & HmF & Hgm). exists m.
        assert (m <> p) as Hmp by (intros ->; apply Hxv; by eapply gap_inj). split_and!; [done|set_solver|by apply gap_remove_other].
    + intros x Hx. apply Hsub. set_solver.
  - intros x w. unfold used. rewrite elem_of_difference, elem_of_singleton. destruct (decide (x = p)) as [->|Hxp].
    + rewrite Hp. split; [intros [[= <-] _]; by right|]. intros [[_ []]|[_ ->]]; [done|]. split; [done|tauto].
    + tauto.
  - intros w [_ Hw]. done.
Qed.

Lemma inv_cut lo s B F prev p n z :
  inv lo s B F -> prev ∈ F -> p ∈ F -> B !! p = Some z -> 0 < n < z ->
  let q := p + 8 * (z - n) in
  took lo (set_h_freep prev (set_h_size (<[q := n]> (<[p := z - n]> (h_size s))) s)) B F n q (<[q := n]> (<[p := z - n]> B)) F.
Proof.
  intros Hi Hprev HpF Hp Hn q. pose proof (i_base _ _ _ _ Hi) as (Hbase & HbaseF & HbaseB).
  assert (p <> base) as Hpb by (intros ->; rewrite HbaseB in Hp; injection Hp as <-; lia).
  destruct (i_range _ _ _ _ Hi p z Hp Hpb) as (Hlo & _ & Hend).
  assert (B !! q = None) as HBq.
  { destruct (B !! q) as [w|] eqn:Hq; [|done]. pose proof (i_packed _ _ _ _ Hi _ _ _ _ Hp Hq ltac:(unfold q; lia)). unfold q in *; lia. }
  assert (q ∉ F) as HqF by (intros HqF; destruct (i_sub _ _ _ _ Hi q HqF); congruence). assert (p <> q) as Hpq by (unfold q; lia).
  split.
  - destruct Hi as [_ Hf Hl Hs Hsub Hpk Hr Hbrk Hu]. split; cbn; [|done|done| | | | |done|].
    + split_and!; [lia|lia|done|]. rewrite !lookup_insert_ne by (congruence || done). done.
    + intros x w. rewrite !lookup_insert_Some. intros [[<- <-]|[Hxq [[<- <-]|[Hxp Hx]]]];
        [left; done|right; split; [done|left; done]|right; split; [done|right; split; [done|by apply Hs]]].
    + intros x Hx. rewrite lookup_insert_ne by (by intros ->). destruct (decide (x = p)) as [->|Hne]; [rewrite lookup_insert_eq; by eexists|].
      rewrite lookup_insert_ne by done. by apply Hsub.
    + by apply packed_split.
    + intros x w Hx Hxb. rewrite !lookup_insert_Some in Hx. destruct Hx as [[<- <-]|[_ [[<- <-]|[_ Hx]]]]; [unfold q; lia|lia|by apply Hr].
    + rewrite units_insert by (by rewrite lookup_insert_ne). rewrite (units_set B p z) by done. lia.
  - intros x w. unfold used. rewrite !lookup_insert_Some. split.
    + intros [[[<- <-]|[Hxq [[<- <-]|[Hxp Hx]]]] HxF]; [by right|done|by left].
    + intros [[Hx HxF]|[-> ->]]; [|by split; [left|]]. split; [|done]. right. split; [congruence|]. right. split; [by intros ->|done].
  - intros w [Hw _]. congruence.
Qed.

(** The body of the loop when the block fits. *)
Lemma wp_fits {A} lo s B F prev p n z (K : Z -> M heap A) (Q : A -> heap -> Prop) :
  inv lo s B F -> prev ∈ F -> p ∈ F -> h_ptr s !! prev = Some p -> B !! p = Some z -> 0 < n <= z ->
  (forall s' r B' F', took lo s' B F n r B' F' -> 0 < r /\ r + 8 * n < 2147483648 -> wp (K r) s' Q) ->
  wp (p ← (if z =? n then m ← ptr_at p; ptr_set prev m ;; mret p
           else size_set p (z - n) ;; let q := u32 (p + 8 * (z - n)) in size_set q n ;; mret q);
      modify (set_h_freep prev) ;; K p) s Q.
Proof.
  intros Hi Hprev HpF Hpp Hp Hn HQ. destruct (inv_bounds _ _ _ _ p z Hi Hp) as (Hp0 & Hz0 & Hpe & Hk).
  destruct (i_links _ _ _ _ Hi p HpF) as (m & Hm & _ & _). destruct (Z.eqb_spec z n) as [->|Hne].
  - eapply wp_bind, wp_bind, wp_ptr_at; [exact Hm|]. eapply wp_bind, wp_modify, wp_ret, wp_bind, wp_modify.
    eapply HQ; [eapply (inv_take lo s B F prev p m n); done || lia|lia].
  - eapply wp_bind, wp_bind, wp_modify. rewrite u32_small by lia. eapply wp_bind, wp_modify, wp_ret, wp_bind, wp_modify.
    eapply HQ; [eapply (inv_cut lo s B F prev p n z); done || lia|lia].
Qed.

(** The way from [p] to [t] is part of the way from [f] to [t]. *)
Lemma ahead_mono F t f p : p ∈ ahead F t f -> ahead F t p ⊆ ahead F t f.
Proof. intros [Hp _]%elem_of_ahead y. rewrite !elem_of_ahead. intros [Hy HyF]. split; [lia|done]. Qed.

Lemma ahead_self F t f : f ∉ ahead F t f.
Proof. rewrite elem_of_ahead. lia. Qed.

Lemma next_ahead F t p n : t ∈ F -> n ∈ F -> (forall y, y ∈ F -> base <= y) -> p <> t -> gap F p n -> n ∈ ahead F t p.
Proof.
  intros Ht Hn Hlow Hpt Hg. apply elem_of_ahead. split; [|done]. pose proof (Hlow t Ht).
  destruct Hg as [[Hg Hg2]|[-> Hg2]]; specialize (Hg2 t Ht); lia.
Qed.

(** With a block [t] that is large enough on the list, the loop finds one. *)
Lemma wp_malloc_found lo fuel s B F n t zt prev p (Q : Z -> heap -> Prop) :
  inv lo s B F -> t ∈ F -> B !! t = Some zt -> 0 < n <= zt -> prev ∈ F -> p ∈ F -> h_ptr s !! prev = Some p ->
  t = h_freep s \/ p ∈ ahead F t (h_freep s) -> (size (ahead F t p) < fuel)%nat ->
  (forall s' r B' F', took lo s' B F n r B' F' -> 0 < r /\ r + 8 * n < 2147483648 -> Q (r + 8) s') ->
  wp (malloc_loop fuel n prev p) s Q.
Proof.
  intros Hi Ht Hzt Hn. pose proof (inv_low _ _ _ _ Hi) as Hlow. revert prev p.
  induction fuel as [|fuel IH]; intros prev p Hprev Hp Hpp Hway Hf HQ; [lia|]. cbn [malloc_loop].
  destruct (i_sub _ _ _ _ Hi p Hp) as [z Hz]. eapply wp_bind, wp_size_at; [by apply (i_size _ _ _ _ Hi)|].
  destruct (Z.leb_spec n z) as [Hnz|Hnz].
  { eapply wp_fits; [exact Hi|done|done|done|exact Hz|lia|]. intros s' r B' F' Htk Hr. apply wp_ret. rewrite u32_small by lia. by eapply HQ. }
  assert (p <> t) as Hpt by (intros ->; rewrite Hzt in Hz; injection Hz as <-; lia).
  assert (p <> h_freep s) as Hpf by (intros ->; destruct Hway as [?|Hway]; [by apply Hpt|by apply (ahead_self F t (h_freep s))]).
  eapply wp_bind, wp_gets. rewrite (proj2 (Z.eqb_neq p _)) by done.
  destruct (i_links _ _ _ _ Hi p Hp) as (m & Hm & HmF & Hg). eapply wp_bind, wp_ptr_at; [exact Hm|].
  apply IH; [done|done|done| |pose proof (ahead_next F t p m Hlow Ht HmF Hpt Hg); lia|done].
  destruct Hway as [?|Hway]; [by left|]. right. apply (ahead_mono F t _ p Hway). by apply next_ahead.
Qed.

(** Growing the heap puts a block at its end. *)
Lemma inv_extend lo s B F nu :
  inv lo s B F -> 0 < nu -> h_brk s + 8 * nu < KERNBASE ->
  let s' := set_h_size (<[h_brk s := nu]> (h_size s)) (set_h_brk (h_brk s + 8 * nu) s) in
  inv lo s' (<[h_brk s := nu]> B) F /\ B !! h_brk s = None /\ h_brk s ∉ F.
Proof.
  intros Hi Hnu Hk s'. assert (B !! h_brk s = None) as HB.
  { destruct (B !! h_brk s) as [z|] eqn:Hz; [|done]. pose proof (i_base _ _ _ _ Hi) as (Hbase & _ & HbaseB).
    pose proof (i_brk _ _ _ _ Hi). destruct (decide (h_brk s = base)) as [Heq|Hne]; [lia|]. destruct (i_range _ _ _ _ Hi _ z Hz Hne); lia. }
  assert (h_brk s ∉ F) as HF by (intros HF; destruct (i_sub _ _ _ _ Hi _ HF); congruence). split; [|done].
  pose proof (fun x z => inv_bounds lo s B F x z Hi) as Hb.
  destruct Hi as [(Hbase & HbaseF & HbaseB) Hf Hl Hs Hsub Hpk Hr Hbrk Hu]. split; cbn; [|done|done| | | | |lia|].
  - split_and!; [lia|lia|done|]. rewrite lookup_insert_ne by congruence. done.
  - intros x z. rewrite !lookup_insert_Some. intros [[<- <-]|[Hne Hx]]; [by left|right; split; [done|by apply Hs]].
  - intros x Hx. rewrite lookup_insert_ne by (by intros <-). by apply Hsub.
  - intros x z y w Hx Hy Hxy. rewrite lookup_insert_Some in Hx, Hy.
    destruct Hx as [[<- <-]|[Hxb Hx]], Hy as [[<- <-]|[Hyb Hy]]; [lia| |pose proof (Hb x z Hx); lia|by eapply Hpk].
    pose proof (Hb y w Hy). lia.
  - intros x z Hx Hxb. rewrite lookup_insert_Some in Hx. destruct Hx as [[<- <-]|[_ Hx]]; [lia|]. destruct (Hr x z Hx Hxb); lia.
  - rewrite units_insert by done. lia.
Qed.

(** What the kernel promises: a process that grows ends where it should, below the kernel. *)
Hypothesis growproc_ok : forall b n b', growproc b n = Some b' -> 0 < n -> b' = b + n /\ b' < KERNBASE.

(** How much [morecore] asks for. *)
Definition core_units (n : Z) : Z := if n <? 4096 then 4096 else n.

Lemma wp_morecore lo s B F n (Q : Z -> heap -> Prop) :
  inv lo s B F -> 0 < n -> 8 * n < 2147483648 ->
  (growproc (h_brk s) (8 * core_units n) = None -> Q 0 s) ->
  (forall s' s1 B' F', freed lo s' s1 (<[h_brk s := core_units n]> B) F (h_brk s) (core_units n) B' F' ->
     h_ptr s1 = h_ptr s -> B !! h_brk s = None -> h_freep s' <> 0 -> Q (h_freep s') s') ->
  wp (morecore n) s Q.
Proof.
  intros Hi Hn Hn8 HQ0 HQ. unfold morecore. fold (core_units n). assert (0 < core_units n /\ 8 * core_units n < 2147483648) as [Hc0 Hc8].
  { unfold core_units. destruct (Z.ltb_spec n 4096); lia. }
  rewrite s32_small by lia. pose proof (i_brk _ _ _ _ Hi) as Hk. pose proof (i_base _ _ _ _ Hi) as (Hbase & _ & _).
  eapply wp_bind. unfold wp at 1, sbrk. rewrite (Z.mul_comm _ 8). destruct (growproc (h_brk s) (8 * core_units n)) as [b|] eqn:Hg.
  2:{ rewrite Z.eqb_refl. by apply wp_ret, HQ0. }
  destruct (growproc_ok _ _ _ Hg ltac:(lia)) as [-> Hb]. rewrite (proj2 (Z.eqb_neq (h_brk s) (-1))) by lia.
  destruct (inv_extend lo s B F (core_units n) Hi Hc0 Hb) as (Hi1 & HB & HF).
  eapply wp_bind, wp_modify. rewrite u32_small by (unfold KERNBASE in *; lia).
  eapply wp_bind, wp_free; [exact Hi1|apply lookup_insert_eq|done|]. intros s' B' F' Hfd. apply wp_gets.
  eapply HQ; [exact Hfd|done|done|]. pose proof (fd_inv _ _ _ _ _ _ _ _ _ Hfd) as Hi2.
  pose proof (inv_low _ _ _ _ Hi2 _ (i_freep _ _ _ _ Hi2)). lia.
Qed.

Lemma wp_malloc_loop lo fuel s B F n prev p (Q : Z -> heap -> Prop) :
  inv lo s B F -> 0 < n -> 8 * n < 2147483648 -> prev ∈ F -> p ∈ F -> h_ptr s !! prev = Some p ->
  (size (ahead F (h_freep s) p) + size (h_ptr s) + 2 < fuel)%nat ->
  (forall s' r B' F', took lo s' B F n r B' F' -> 0 < r /\ r + 8 * n < 2147483648 -> Q (r + 8) s') ->
  (growproc (h_brk s) (8 * core_units n) = None -> Q 0 s) ->
  wp (malloc_loop fuel n prev p) s Q.
Proof.
  intros Hi Hn Hn8. pose proof (inv_low _ _ _ _ Hi) as Hlow. revert prev p.
  induction fuel as [|fuel IH]; intros prev p Hprev Hp Hpp Hf HQ HQ0; [lia|]. cbn [malloc_loop].
  destruct (i_sub _ _ _ _ Hi p Hp) as [z Hz]. eapply wp_bind, wp_size_at; [by apply (i_size _ _ _ _ Hi)|].
  destruct (Z.leb_spec n z) as [Hnz|Hnz].
  { eapply wp_fits; [exact Hi|done|done|done|exact Hz|lia|]. intros s' r B' F' Htk Hr. apply wp_ret. rewrite u32_small by lia. by eapply HQ. }
  eapply wp_bind, wp_gets. destruct (Z.eqb_spec p (h_freep s)) as [Hpf|Hpf].
  2:{ destruct (i_links _ _ _ _ Hi p Hp) as (m & Hm & HmF & Hg). eapply wp_bind, wp_ptr_at; [exact Hm|].
      apply IH; [done|done|done| |done|done]. pose proof (ahead_next F _ p m Hlow (i_freep _ _ _ _ Hi) HmF Hpf Hg). lia. }
  eapply wp_bind, wp_morecore; [exact Hi|done|done|intros Hg; cbn; by apply wp_ret, HQ0|].
  intros s' s1 B' F' Hfd Hptr HB Hf0. rewrite (proj2 (Z.eqb_neq _ 0)) by done.
  destruct Hfd as [Hi' Hu (t & w & HtF & Ht & Hw) Hsz _]. rewrite Hptr in Hsz.
  pose proof (i_freep _ _ _ _ Hi') as HfF. destruct (i_links _ _ _ _ Hi' _ HfF) as (m & Hm & HmF & Hg). eapply wp_bind, wp_ptr_at; [exact Hm|].
  eapply (wp_malloc_found lo fuel s' B' F' n t w); [exact Hi'|done|exact Ht| |done|done|done| | |].
  - unfold core_units in Hw. destruct (Z.ltb_spec n 4096); lia.
  - destruct (decide (t = h_freep s')) as [|Hne]; [by left|]. right. apply next_ahead; [done|done|by eapply inv_low|done|done].
  - pose proof (ahead_size F' t m _ (i_links _ _ _ _ Hi')). lia.
  - intros s2 r B2 F2 [Hi2 Hu2 Hfr] Hr. eapply HQ; [|done].
    assert (forall x v, used B' F' x v <-> used B F x v) as Hu'.
    { intros x v. rewrite Hu. unfold used. destruct (decide (x = h_brk s)) as [->|Hne].
      - rewrite HB. split; [by intros [_ []]|by intros [[=] _]].
      - rewrite lookup_insert_ne by done. tauto. }
    split; [exact Hi2|intros x v; by rewrite Hu2, Hu'|intros v; by rewrite <- Hu'].
Qed.

(** [freep] is null before the first call. *)
Definition fresh lo (s : heap) : Prop := 0 < base < lo /\ h_freep s = 0 /\ h_ptr s = ∅ /\ h_size s = ∅ /\ h_brk s = lo /\ lo < KERNBASE.

Lemma inv_fresh lo s :
  fresh lo s -> inv lo (set_h_size (<[base := 0]> (h_size s)) (set_h_freep base (set_h_ptr (<[base := base]> (h_ptr s)) s))) {[base := 0]} {[base]}.
Proof.
  intros (Hb & Hf & Hp & Hs & Hbrk & Hk). rewrite Hp, Hs. split; cbn.
  - split_and!; [lia|lia|set_solver|apply lookup_singleton_eq].
  - set_solver.
  - intros x ->%elem_of_singleton. exists base. rewrite lookup_insert_eq. split_and!; [done|set_solver|]. right. split; [done|]. intros y ->%elem_of_singleton. lia.
  - intros x z [<- <-]%lookup_singleton_Some. apply lookup_insert_eq.
  - intros x ->%elem_of_singleton. rewrite lookup_singleton_eq. by eexists.
  - intros x z y w [<- <-]%lookup_singleton_Some [<- <-]%lookup_singleton_Some. lia.
  - intros x z [<- _]%lookup_singleton_Some. done.
  - lia.
  - unfold units. rewrite map_fold_singleton. lia.
Qed.

(** ** Clients *)

(** Sizes for which the arithmetic of [malloc] does not overflow. *)
Definition small (n : Z) : Prop := 0 <= n <= 2147483632.

(** A program that frees only what it holds; the map gives the sizes it asked for. *)
Inductive cstep : heap * gmap Z Z -> heap * gmap Z Z -> Prop :=
  | cs_malloc n p s s' A : small n -> malloc n s = Ok p s' -> p <> 0 -> cstep (s, A) (s', <[p := n]> A)
  | cs_fails n s s' A : small n -> malloc n s = Ok 0 s' -> cstep (s, A) (s', A)
  | cs_free p n s s' A : A !! p = Some n -> free p s = Ok tt s' -> cstep (s, A) (s', delete p A).

Definition agrees (A B : gmap Z Z) (F : gset Z) : Prop :=
  map_Forall (fun _ => small) A /\ forall x z, used B F x z <-> exists n, A !! (x + 8) = Some n /\ z = units_of n.

Definition cinv lo (s : heap) (A : gmap Z Z) : Prop :=
  (fresh lo s /\ A = ∅) \/ exists B F, inv lo s B F /\ agrees A B F.

Lemma units_small n : small n -> units_of n = (n + 7) / 8 + 1 /\ 0 < units_of n /\ n + 8 <= 8 * units_of n < 2147483648.
Proof.
  intros Hn. unfold small in Hn. unfold units_of. rewrite (u32_small (n + 8 - 1)) by lia. rewrite u32_small by elia.
  replace (n + 8 - 1) with (n + 7) by lia. elia.
Qed.

Lemma agrees_took lo s' A B F n r B' F' :
  agrees A B F -> took lo s' B F (units_of n) r B' F' -> small n -> A !! (r + 8) = None /\ agrees (<[r + 8 := n]> A) B' F'.
Proof.
  intros [Hs Ha] [_ Hu Hfr] Hn. assert (A !! (r + 8) = None) as HA.
  { destruct (A !! (r + 8)) as [m|] eqn:Hm; [|done]. destruct (Hfr (units_of m)). apply Ha. by exists m. }
  split; [done|]. split; [by apply map_Forall_insert_2|]. intros x z. rewrite Hu, Ha. split.
  - intros [(m & Hm & ->)|[-> ->]]; [|exists n; by rewrite lookup_insert_eq].
    exists m. rewrite lookup_insert_ne; [done|]. intros Hx. rewrite Hx in HA. congruence.
  - intros (m & Hm & ->). rewrite lookup_insert_Some in Hm. destruct Hm as [[Hx <-]|[_ Hm]]; [right; split; [lia|done]|left; by exists m].
Qed.

Lemma agrees_freed lo s' s A B F b z B' F' :
  agrees A B F -> freed lo s' s B F b z B' F' -> agrees (delete (b + 8) A) B' F'.
Proof.
  intros [Hs Ha] [_ Hu _ _ _]. split; [by apply map_Forall_delete|]. intros x w. rewrite Hu, Ha. split.
  - intros [(n & Hn & ->) Hne]. exists n. rewrite lookup_delete_ne by lia. done.
  - intros (n & Hn & ->). rewrite lookup_delete_Some in Hn. destruct Hn as [Hne Hn]. split; [by exists n|]. intros ->. done.
Qed.

Lemma wp_malloc lo s A n :
  cinv lo s A -> small n ->
  wp (malloc n) s (fun p s' => (p = 0 /\ cinv lo s' A /\ growproc (h_brk s) (8 * core_units (units_of n)) = None) \/
    (p <> 0 /\ A !! p = None /\ cinv lo s' (<[p := n]> A))).
Proof.
  intros Hc Hn. destruct (units_small n Hn) as (_ & Hn0 & Hn8).
  assert (forall s1 B F, inv lo s1 B F -> agrees A B F -> h_brk s1 = h_brk s -> 
    wp (p ← ptr_at (h_freep s1); fuel ← gets (fun s => (2 * size (h_ptr s) + 4)%nat); malloc_loop fuel (units_of n) (h_freep s1) p) s1
      (fun p s' => (p = 0 /\ cinv lo s' A /\ growproc (h_brk s) (8 * core_units (units_of n)) = None) \/
        (p <> 0 /\ A !! p = None /\ cinv lo s' (<[p := n]> A)))) as Hloop.
  { intros s1 B F Hi Ha Hbrk. pose proof (i_freep _ _ _ _ Hi) as Hf. destruct (i_links _ _ _ _ Hi _ Hf) as (p & Hp & HpF & _).
    eapply wp_bind, wp_ptr_at; [exact Hp|]. eapply wp_bind, wp_gets, wp_malloc_loop; [exact Hi|done|lia|done|done|done| | |].
    - pose proof (ahead_size F (h_freep s1) p _ (i_links _ _ _ _ Hi)). lia.
    - intros s' r B' F' Htk Hr. right. destruct (agrees_took _ _ _ _ _ _ _ _ _ Ha Htk Hn) as [HA Ha']. split_and!; [lia|done|].
      right. exists B', F'. split; [apply Htk|done].
    - intros Hg. left. split_and!; [done|right; by exists B, F|by rewrite <- Hbrk]. }
  eapply wp_bind, wp_gets. destruct Hc as [[Hfr ->]|(B & F & Hi & Ha)].
  - pose proof Hfr as (Hb & Hf & _). rewrite Hf. cbn [Z.eqb]. eapply wp_bind, wp_bind, wp_modify, wp_bind, wp_modify, wp_bind, wp_modify, wp_ret.
    apply (Hloop (set_h_size (<[base := 0]> (h_size s)) (set_h_freep base (set_h_ptr (<[base := base]> (h_ptr s)) s))) {[base := 0]} {[base]});
      [by apply inv_fresh| |done]. split; [apply map_Forall_empty|]. intros x z. unfold used. split.
    + intros [[<- _]%lookup_singleton_Some Hx]. set_solver.
    + by intros (m & Hm & _).
  - pose proof (inv_low _ _ _ _ Hi _ (i_freep _ _ _ _ Hi)) as Hlow. pose proof (i_base _ _ _ _ Hi) as (Hb & _ & _).
    rewrite (proj2 (Z.eqb_neq (h_freep s) 0)) by lia. eapply wp_bind, wp_ret. by eapply Hloop.
Qed.

Lemma wp_client_free lo s A p n : cinv lo s A -> A !! p = Some n -> wp (free p) s (fun _ s' => cinv lo s' (delete p A)).
Proof.
  intros [[_ ->]|(B & F & Hi & Ha)] Hp; [done|]. assert (used B F (p - 8) (units_of n)) as [Hb HbF].
  { apply Ha. exists n. replace (p - 8 + 8) with p by lia. done. }
  replace p with (p - 8 + 8) by lia. eapply wp_free; [exact Hi|exact Hb|done|]. intros s' B' F' Hfd. right. exists B', F'.
  split; [apply Hfd|by eapply agrees_freed].
Qed.

Lemma used_block lo s A B F p n :
  inv lo s B F -> agrees A B F -> A !! p = Some n ->
  B !! (p - 8) = Some (units_of n) /\ lo <= p - 8 /\ p - 8 + 8 * units_of n <= h_brk s /\ n + 8 <= 8 * units_of n.
Proof.
  intros Hi [Hs Ha] Hp. assert (used B F (p - 8) (units_of n)) as [HB HF] by (apply Ha; exists n; by replace (p - 8 + 8) with p by lia).
  assert (p - 8 <> base) as Hne by (intros He; apply HF; rewrite He; apply (i_base _ _ _ _ Hi)).
  destruct (i_range _ _ _ _ Hi _ _ HB Hne). destruct (units_small n (Hs p n Hp)). split; [done|lia].
Qed.

Lemma cinv_reached lo c c' : rtc cstep c c' -> cinv lo c.1 c.2 -> cinv lo c'.1 c'.2.
Proof.
  induction 1 as [|c c1 c2 Hst _ IH]; [done|]. intros Hc. apply IH. clear IH. destruct Hst as [n p s s' A Hn He Hp|n s s' A Hn He|p n s s' A Hp He]; cbn in *.
  - destruct (wp_Ok _ _ _ _ _ He (wp_malloc lo s A n Hc Hn)) as [[? _]|(_ & _ & Hi)]; done.
  - destruct (wp_Ok _ _ _ _ _ He (wp_malloc lo s A n Hc Hn)) as [(_ & Hi & _)|[? _]]; done.
  - exact (wp_Ok _ _ _ _ _ He (wp_client_free lo s A p n Hc Hp)).
Qed.
End Umalloc.


Definition plenty (b n : Z) : option Z := if b + n <? KERNBASE then Some (b + n) else None.
Definition heap0 : heap := Heap ∅ ∅ 0 8192.


(** The number of units wraps around for the seven largest sizes: [malloc] treats them as a
    request for no bytes at all, and a caller that asked for four gigabytes gets a pointer to an empty block. *)
Theorem malloc_huge_wraps base growproc n s :
  4294967289 <= n <= 4294967295 -> malloc base growproc n s = malloc base growproc 0 s.
Proof.
  intros Hn. unfold malloc. assert (units_of n = units_of 0) as ->; [|done].
  unfold units_of. f_equal. f_equal. unfold u32. elia.
Qed.

Lemma malloc_huge_wraps_witness :
  malloc 4096 plenty 4294967295 heap0 = malloc 4096 plenty 0 heap0 /\ exists s', malloc 4096 plenty 0 heap0 = Ok 40960 s'.
Proof. split; [apply (malloc_huge_wraps 4096 plenty 4294967295 heap0); lia|]. eexists. vm_compute. reflexivity. Defined.
