(* ===== verification/Ulib.v ===== *)
(** The user library, ulib.c. As in the kernel's string routines, a pointer is what
    is in memory from there on, and [None] is an access outside of it. *)

From S2P Require Import Prelude Bytes CString.

(** The bytes stored, with the NUL. *)
Fixpoint strcpy (t : list Z) : option (list Z) :=
  match t with
  | [] => None
  | c :: t => if c =? 0 then Some [0] else cons c <$> strcpy t
  end.

Fixpoint strcmp (p q : list Z) : option Z :=
  match p, q with
  | a :: p, b :: q => if negb (a =? 0) && (a =? b) then strcmp p q else Some (a - b)
  | _, _ => None
  end.

Fixpoint strlen (s : list Z) : option Z :=
  match s with
  | [] => None
  | c :: s => if c =? 0 then Some 0 else Z.succ <$> strlen s
  end.

Definition memset (mem : list Z) (d : nat) (c : Z) (n : nat) : option (list Z) := stosb d c n mem.

(** The offset of the character, [Some None] for a null pointer. *)
Fixpoint strchr (s : list Z) (c : Z) : option (option nat) :=
  match s with
  | [] => None
  | a :: s =>
      if a =? 0 then Some None
      else if a =? c then Some (Some 0%nat)
      else option_map S <$> strchr s c
  end.

(** [atoi]; [int] arithmetic wraps around. *)
Definition digit (c : Z) : bool := (48 <=? c) && (c <=? 57).
Fixpoint atoi_loop (n : Z) (s : list Z) : option Z :=
  match s with
  | [] => None
  | c :: s => if digit c then atoi_loop (s32 (n * 10 + c - 48)) s else Some n
  end.
Definition atoi (s : list Z) : option Z := atoi_loop 0 s.

(** This one always copies upwards. *)
Definition memmove (mem : list Z) (d s : nat) (n : Z) : option (list Z) := copy_forward (Z.to_nat n) d s mem.

(** [gets]: [input] is what the reads of one byte from descriptor 0 return, the end of the list an end of file.
    The bytes stored in the buffer and the rest of the input. *)
Fixpoint gets_loop (fuel : nat) (input : list Z) : list Z * list Z :=
  match fuel, input with
  | S fuel, c :: input =>
      if (c =? 10) || (c =? 13) then ([c], input)
      else let '(l, rest) := gets_loop fuel input in (c :: l, rest)
  | _, _ => ([], input)
  end.
Definition gets (max : Z) (input : list Z) : list Z * list Z :=
  let '(l, rest) := gets_loop (Z.to_nat (max - 1)) input in (l ++ [0], rest).

(** ** Specification *)

(** The value of a number in decimal. *)
Definition decimal (l : list Z) : Z := foldl (fun n c => n * 10 + (c - 48)) 0 l.

Lemma atoi_loop_value l : forall n rest,
  Forall (fun c => digit c = true) l -> 0 <= n -> foldl (fun n c => n * 10 + (c - 48)) n l < 2147483648 ->
  (forall c r, rest = c :: r -> digit c = false) -> rest <> [] ->
  atoi_loop n (l ++ rest) = Some (foldl (fun n c => n * 10 + (c - 48)) n l).
Proof.
  induction l as [|c l IH]; intros n rest Hl Hn Hv Hr Hne; simpl.
  - destruct rest as [|c r]; [done|]. simpl. by rewrite (Hr c r eq_refl).
  - apply Forall_cons in Hl as [Hc Hl]. rewrite Hc. unfold digit in Hc. apply andb_true_iff in Hc as [H1%Z.leb_le H2%Z.leb_le].
    assert (forall l m, 0 <= m -> Forall (fun c => digit c = true) l -> m <= foldl (fun n c => n * 10 + (c - 48)) m l) as Hmono.
    { clear. induction l as [|c l IH]; intros m Hm Hl; [done|]. apply Forall_cons in Hl as [Hc Hl]. unfold digit in Hc.
      apply andb_true_iff in Hc as [H1%Z.leb_le H2%Z.leb_le]. simpl. specialize (IH (m * 10 + (c - 48)) ltac:(lia) Hl). lia. }
    pose proof (Hmono l (n * 10 + (c - 48)) ltac:(lia) Hl) as Hm. simpl in Hv.
    replace (n * 10 + c - 48) with (n * 10 + (c - 48)) by lia. rewrite s32_small by lia. by apply IH; [|lia|..].
Qed.

(** A string of digits for a number below 2^31 is read as that number. *)
Lemma atoi_decimal l rest :
  Forall (fun c => digit c = true) l -> decimal l < 2147483648 ->
  (forall c r, rest = c :: r -> digit c = false) -> rest <> [] -> atoi (l ++ rest) = Some (decimal l).
Proof. intros. by apply atoi_loop_value. Qed.

(** What [gets] takes from the input, and that it fits in the buffer. *)
Lemma gets_loop_split fuel input l rest :
  gets_loop fuel input = (l, rest) -> input = l ++ rest /\ (length l <= fuel)%nat /\
    (forall i c, l !! i = Some c -> (S i < length l)%nat -> c <> 10 /\ c <> 13).
Proof.
  revert input l rest. induction fuel as [|fuel IH]; intros [|c input] l rest; simpl; [intros [= <- <-]; (split_and!; [done|simpl; lia|done])..|].
  destruct ((c =? 10) || (c =? 13)) eqn:Hc.
  - intros [= <- <-]. split_and!; [done|simpl; lia|]. intros i d Hi Hlt. simpl in Hlt. lia.
  - destruct (gets_loop fuel input) as [l' r'] eqn:He. intros [= <- <-]. destruct (IH _ _ _ He) as (-> & Hlen & Hnl).
    apply orb_false_iff in Hc as [H1%Z.eqb_neq H2%Z.eqb_neq]. split_and!; [done|simpl; lia|].
    intros [|i] d Hi Hlt; simpl in *; [by injection Hi as <-|]. apply (Hnl i d Hi). lia.
Qed.
