(* ===== verification/Printf.v ===== *)
(** Formatted output, printf.c. Every [putc] writes one byte; the model gives the bytes
    in order. [stack] are the words after the format on the stack, [str] the string at
    an address. *)

From S2P Require Import Prelude Bytes Ulib.

(** [digits] of [printint]. *)
Definition digits : list Z := [48; 49; 50; 51; 52; 53; 54; 55; 56; 57; 65; 66; 67; 68; 69; 70].

(** The [do] loop: the characters stored in [buf], which has room for sixteen. [None] is a store past its end
    or a digit outside of the table. *)
Fixpoint printint_loop (fuel : nat) (x base : Z) (buf : list Z) : option (list Z) :=
  match fuel with
  | O => None
  | S fuel =>
      if (16 <=? length buf)%nat then None
      else
        d ← digits !! Z.to_nat (x mod base);
        let buf := buf ++ [d] in
        if x / base =? 0 then Some buf else printint_loop fuel (x / base) base buf
  end.

(** A 32-bit word has at most 32 digits. *)
Definition printint (xx base : Z) (sgn : bool) : option (list Z) :=
  let neg := sgn && (xx <? 0) in
  let x := u32 (if neg then - xx else xx) in
  buf ← printint_loop 33 x base [];
  if neg then (if (16 <=? length buf)%nat then None else Some (reverse (buf ++ [45]))) else Some (reverse buf).

Section Printf.
Context (str : Z -> list Z) (stack : nat -> Z).

(** The bytes of ["(null)"]. *)
Definition null_string : list Z := [40; 110; 117; 108; 108; 41].

(** [state] is whether a percent sign was read; [ap] the index of the next argument. *)
Fixpoint printf_loop (fmt : list Z) (state : bool) (ap : nat) : option (list Z) :=
  match fmt with
  | [] => Some []
  | c :: fmt =>
      if negb state then
        if c =? 37 then printf_loop fmt true ap else cons c <$> printf_loop fmt false ap
      else if c =? 100 then
        out ← printint (s32 (stack ap)) 10 true; app out <$> printf_loop fmt false (S ap)
      else if (c =? 120) || (c =? 112) then
        out ← printint (s32 (stack ap)) 16 false; app out <$> printf_loop fmt false (S ap)
      else if c =? 115 then
        let s := stack ap in
        app (if s =? 0 then null_string else str s) <$> printf_loop fmt false (S ap)
      else if c =? 99 then cons (u8 (stack ap)) <$> printf_loop fmt false (S ap)
      else if c =? 37 then cons c <$> printf_loop fmt false ap
      else app [37; c] <$> printf_loop fmt false ap
  end.
Definition printf (fmt : list Z) : option (list Z) := printf_loop fmt false 0.
End Printf.

(** ** Specification *)

(** The value of a character as a digit. *)
Definition digit_value (c : Z) : Z := if c <=? 57 then c - 48 else c - 55.
Definition value (base : Z) (l : list Z) : Z := foldl (fun n c => n * base + digit_value c) 0 l.

Lemma digits_value i c : digits !! i = Some c -> digit_value c = Z.of_nat i /\ (i < 16)%nat.
Proof. intros Hi. do 16 (destruct i as [|i]; [simpl in Hi; injection Hi as <-; split; [done|lia]|]). done. Qed.

(** A digit in base [base], as it is printed. *)
Definition is_digit (base c : Z) : Prop := exists i, digits !! i = Some c /\ Z.of_nat i < base.

Lemma value_snoc base l c : value base (l ++ [c]) = value base l * base + digit_value c.
Proof. unfold value. by rewrite foldl_app. Qed.

(** The least significant digit comes first in the buffer. *)
Record printed (base x : Z) (k : nat) (ds : list Z) : Prop := {
  pr_value : value base (reverse ds) = x;
  pr_length : (1 <= length ds <= k)%nat;
  pr_digits : Forall (is_digit base) ds;
  pr_canon : last ds = Some 48 -> ds = [48];
}.

Lemma printint_loop_spec base fuel : 2 <= base <= 16 -> forall k x buf,
  (1 <= k <= fuel)%nat -> 0 <= x < base ^ Z.of_nat k -> (length buf + k <= 16)%nat ->
  exists ds, printint_loop fuel x base buf = Some (buf ++ ds) /\ printed base x k ds /\ (x <> 0 -> last ds <> Some 48).
Proof.
  intros Hb. induction fuel as [|fuel IH]; intros k x buf Hk Hx Hl; [lia|]. cbn [printint_loop].
  rewrite (proj2 (Nat.leb_gt _ _)) by lia. pose proof (Z.mod_pos_bound x base ltac:(lia)) as Hm.
  destruct (lookup_lt_is_Some_2 digits (Z.to_nat (x mod base))) as [d Hd]; [simpl; lia|]. rewrite Hd. cbn [mbind option_bind].
  destruct (digits_value _ _ Hd) as [Hv _]. rewrite Z2Nat.id in Hv by lia.
  assert (is_digit base d) as Hdig by (exists (Z.to_nat (x mod base)); rewrite Z2Nat.id by lia; split; [done|lia]).
  pose proof (Z.div_mod x base ltac:(lia)) as Hdm. destruct (Z.eqb_spec (x / base) 0) as [H0|H0].
  - exists [d]. assert (value base (reverse [d]) = x) as Hval by (unfold value; simpl; rewrite Hv; lia). split; [done|]. split.
    + split; [done|simpl; lia|by constructor|]. by intros [= ->].
    + intros Hx0 [= ->]. apply Hx0. unfold digit_value in Hv. simpl in Hv. lia.
  - destruct k as [|[|k]]; [lia| |].
    { rewrite Z.pow_1_r in Hx. rewrite (Z.div_small x base) in H0 by lia. done. }
    assert (0 <= x / base < base ^ Z.of_nat (S k)) as Hx'.
    { split; [apply Z.div_pos; lia|]. apply Z.div_lt_upper_bound; [lia|]. rewrite <- Z.pow_succ_r by lia. rewrite <- Nat2Z.inj_succ. lia. }
    destruct (IH (S k) (x / base) (buf ++ [d])) as (ds & He & [Hval Hlen Hds Hcan] & Hlast); [lia|done|rewrite length_app; simpl; lia|].
    exists (d :: ds). rewrite He, <- app_assoc. split; [done|]. destruct ds as [|e ds]; [simpl in Hlen; lia|]. split.
    + split; [|simpl in *; lia|by constructor|].
      * rewrite reverse_cons, value_snoc, Hval, Hv. lia.
      * intros Hl48. rewrite last_cons_cons in Hl48. by destruct Hlast.
    + intros _ Hl48. rewrite last_cons_cons in Hl48. by destruct Hlast.
Qed.

(** The printed form of [x]: the digits without leading zeros. *)
Definition numeral (base x : Z) (ds : list Z) : Prop :=
  value base ds = x /\ Forall (is_digit base) ds /\ ds <> [] /\ (head ds = Some 48 -> ds = [48]).

Lemma printed_numeral base x k ds : printed base x k ds -> numeral base x (reverse ds).
Proof.
  intros [Hv Hl Hd Hc]. split_and!; [done|by apply Forall_reverse| |].
  - intros Hn. apply (f_equal length) in Hn. rewrite length_reverse in Hn. simpl in Hn. lia.
  - rewrite head_reverse. intros Hh. by rewrite (Hc Hh).
Qed.

(** Ten digits are enough for a word. *)
Lemma printint_word base x :
  base = 10 \/ base = 16 -> 0 <= x < 4294967296 -> exists ds, printint_loop 33 x base [] = Some ds /\ printed base x 10 ds.
Proof.
  intros Hb Hx. destruct (printint_loop_spec base 33 ltac:(lia) 10 x []) as (ds & He & Hp & _); [lia| |simpl; lia|by exists ds].
  destruct Hb as [-> | ->]; [change (10 ^ Z.of_nat 10) with 10000000000|change (16 ^ Z.of_nat 10) with 1099511627776]; lia.
Qed.

(** [printint] in base 10 or 16 prints, for every 32-bit argument, the digits of the number without
    leading zeros, after a minus sign if it is to be signed and is negative, the most negative number
    included. The buffer of sixteen characters is large enough. *)
Theorem printint_prints xx base sgn :
  base = 10 \/ base = 16 -> -2147483648 <= xx < 2147483648 ->
  exists ds, numeral base (if sgn && (xx <? 0) then - xx else u32 xx) ds /\
    printint xx base sgn = Some ((if sgn && (xx <? 0) then [45] else []) ++ ds).
Proof.
  intros Hb Hx. unfold printint. set (neg := sgn && (xx <? 0)).
  assert (u32 (if neg then - xx else xx) = (if neg then - xx else u32 xx)) as ->.
  { destruct neg eqn:Hn; [|done]. unfold neg in Hn. apply andb_true_iff in Hn as [_ Hn%Z.ltb_lt]. apply u32_small. lia. }
  set (x := if neg then - xx else u32 xx). assert (0 <= x < 4294967296) as Hx'.
  { unfold x. destruct neg eqn:Hn; [|apply u32_range]. unfold neg in Hn. apply andb_true_iff in Hn as [_ Hn%Z.ltb_lt]. lia. }
  destruct (printint_word base x Hb Hx') as (ds & He & Hp). rewrite He.
  exists (reverse ds). split; [by eapply printed_numeral|]. cbn [mbind option_bind app]. destruct neg; [|done].
  destruct Hp as [_ Hl _ _]. rewrite (proj2 (Nat.leb_gt _ _)) by lia. by rewrite reverse_app.
Qed.

Lemma printint_prints_witness : exists ds, numeral 10 2147483648 ds /\ printint (-2147483648) 10 true = Some (45 :: ds).
Proof. apply (printint_prints (-2147483648) 10 true); [left; reflexivity|lia]. Defined.

Lemma is_digit_10 c : is_digit 10 c -> digit c = true /\ digit_value c = c - 48.
Proof.
  intros (i & Hi & Hlt). destruct (digits_value i c Hi) as [Hv _]. unfold digit_value in *.
  do 10 (destruct i as [|i]; [simpl in Hi; injection Hi as <-; done|]). lia.
Qed.

Lemma value_decimal l : Forall (is_digit 10) l -> value 10 l = decimal l.
Proof.
  unfold value, decimal. generalize 0. induction l as [|c l IH]; intros n Hl; [done|]. apply Forall_cons in Hl as [Hc Hl]. simpl.
  destruct (is_digit_10 c Hc) as [_ ->]. by apply IH.
Qed.

(** What [printint] prints for a number that is not negative, [atoi] reads back, whatever follows that is not a digit. *)
Theorem printint_atoi xx c rest :
  0 <= xx < 2147483648 -> digit c = false ->
  exists out, printint xx 10 true = Some out /\ atoi (out ++ c :: rest) = Some xx.
Proof.
  intros Hx Hc. destruct (printint_word 10 xx ltac:(by left) ltac:(lia)) as (ds & He & Hp).
  destruct (printed_numeral _ _ _ _ Hp) as (Hv & Hd & _). exists (reverse ds). split.
  { unfold printint. rewrite (proj2 (Z.ltb_ge xx 0)) by lia. cbn [andb]. by rewrite u32_small, He by lia. }
  rewrite (value_decimal _ Hd) in Hv. rewrite <- Hv. apply atoi_decimal; [|lia| |done].
  - eapply Forall_impl; [exact Hd|]. intros d Hdd. by apply is_digit_10.
  - by intros d r [= <- _].
Qed.

Lemma printint_atoi_witness : exists out, printint 1234567890 10 true = Some out /\ atoi (out ++ [0]) = Some 1234567890.
Proof. apply (printint_atoi 1234567890 0 []); [lia|reflexivity]. Defined.
