(* ===== verification/Sh.v ===== *)
(** The shell's parser, sh.c, and what [runcmd] is given: the tree and the line with
    its words ended by NULs.

    A pointer into the line is a position with the rest of the line; at the end of
    the line the character is NUL. [panic] is an outcome. The nodes of the tree are
    values; their words are the positions of their two ends, as in the source.
    [malloc] is taken to succeed, as the source does. *)

From S2P Require Import Prelude.

(** [char *s] between the start and [es]. *)
Record cur := Cur { c_pos : nat; c_left : list Z }.
Definition here (s : cur) : Z := default 0 (head (c_left s)).
Definition next (s : cur) : cur := Cur (S (c_pos s)) (tail (c_left s)).

Definition whitespace (c : Z) : bool := bool_decide (c ∈ [32; 9; 13; 10; 11]).
Definition symbols (c : Z) : bool := bool_decide (c ∈ [60; 124; 62; 38; 59; 40; 41]).

(** [while(s < es && f( *s)) s++]. *)
Fixpoint skip (f : Z -> bool) (n : nat) (l : list Z) : cur :=
  match l with
  | [] => Cur n []
  | c :: l' => if f c then skip f (S n) l' else Cur n l
  end.
Definition skip_while (f : Z -> bool) (s : cur) : cur := skip f (c_pos s) (c_left s).
Definition wordchar (c : Z) : bool := negb (whitespace c) && negb (symbols c).

(** Kinds of tokens: 0 at the end, 97 for a word, 43 for [>>], otherwise the symbol. *)
Record tok := Tok { t_kind : Z; t_q : nat; t_eq : nat }.

Definition gettoken : M cur tok := fun s0 =>
  let s := skip_while whitespace s0 in
  let q := c_pos s in
  let '(ret, s) :=
    match c_left s with
    | [] => (0, s)
    | c :: _ =>
        if bool_decide (c ∈ [124; 40; 41; 59; 38; 60]) then (c, next s)
        else if c =? 62 then
          let s := next s in
          if here s =? 62 then (43, next s) else (62, s)
        else (97, skip_while wordchar s)
    end in
  Ok (Tok ret q (c_pos s)) (skip_while whitespace s).

Definition peek (toks : list Z) : M cur bool := fun s =>
  let s := skip_while whitespace s in
  Ok (match c_left s with [] => false | c :: _ => bool_decide (c ∈ toks) end) s.

(** Parsed commands: words are the positions of their two ends. *)
Inductive cmd :=
  | EXEC (argv : list (nat * nat))
  | REDIR (c : cmd) (file efile : nat) (mode fd : Z)
  | PIPE (left right : cmd)
  | LIST (left right : cmd)
  | BACK (c : cmd).

Definition O_RDONLY : Z := 0.
Definition O_WRONLY : Z := 1.
Definition O_CREATE : Z := 512.
Definition MAXARGS : nat := 10.

(** A redirection read by [parseredirs], and the command it makes. *)
Record redir := Redir { r_file : nat; r_efile : nat; r_mode : Z; r_fd : Z }.
Definition redircmd (c : cmd) (r : redir) : cmd := REDIR c (r_file r) (r_efile r) (r_mode r) (r_fd r).
Definition redirect (k : Z) (w : tok) : redir :=
  if k =? 60 then Redir (t_q w) (t_eq w) O_RDONLY 0
  else Redir (t_q w) (t_eq w) (Z.lor O_WRONLY O_CREATE) 1.

(** [parseredirs]: the redirections found so far, in order. The source wraps the command each time; as the
    arguments of an [execcmd] are filled in through a pointer afterwards, the model wraps it at the end. *)
Fixpoint parseredirs (fuel : nat) (rs : list redir) : M cur (list redir) :=
  match fuel with
  | O => nofuel
  | S fuel =>
      b ← peek [60; 62];
      if (b : bool) then
        t ← gettoken;
        w ← gettoken;
        if negb (t_kind w =? 97) then panic "missing file for redirection"
        else parseredirs fuel (rs ++ [redirect (t_kind t) w])
      else mret rs
  end.

(** The [while] loop of [parseexec]. *)
Fixpoint parseargs (fuel : nat) (argv : list (nat * nat)) (rs : list redir) : M cur (list (nat * nat) * list redir) :=
  match fuel with
  | O => nofuel
  | S fuel' =>
      b ← peek [124; 41; 38; 59];
      if (b : bool) then mret (argv, rs)
      else
        t ← gettoken;
        if t_kind t =? 0 then mret (argv, rs)
        else if negb (t_kind t =? 97) then panic "syntax"
        else
          let argv := argv ++ [(t_q t, t_eq t)] in
          if (MAXARGS <=? length argv)%nat then panic "too many args"
          else rs ← parseredirs fuel rs; parseargs fuel' argv rs
  end.

(** The [while] loop of [parseline]. *)
Fixpoint parseback (fuel : nat) (c : cmd) : M cur cmd :=
  match fuel with
  | O => nofuel
  | S fuel =>
      b ← peek [38];
      if (b : bool) then _ ← gettoken; parseback fuel (BACK c) else mret c
  end.

(** The rounds a loop can make over what is left of the line. *)
Definition rounds : M cur nat := gets (fun s => S (length (c_left s))).

Fixpoint parseline (fuel : nat) : M cur cmd :=
  match fuel with
  | O => nofuel
  | S fuel =>
      c ← parsepipe fuel;
      n ← rounds;
      c ← parseback n c;
      b ← peek [59];
      if (b : bool) then _ ← gettoken; r ← parseline fuel; mret (LIST c r) else mret c
  end
with parsepipe (fuel : nat) : M cur cmd :=
  match fuel with
  | O => nofuel
  | S fuel =>
      c ← parseexec fuel;
      b ← peek [124];
      if (b : bool) then _ ← gettoken; r ← parsepipe fuel; mret (PIPE c r) else mret c
  end
with parseexec (fuel : nat) : M cur cmd :=
  match fuel with
  | O => nofuel
  | S fuel =>
      b ← peek [40];
      if (b : bool) then parseblock fuel
      else
        n ← rounds;
        rs ← parseredirs n [];
        x ← parseargs n [] rs;
        mret (foldl redircmd (EXEC (fst x)) (snd x))
  end
with parseblock (fuel : nat) : M cur cmd :=
  match fuel with
  | O => nofuel
  | S fuel =>
      b ← peek [40];
      guard_ok (negb b) (panic "parseblock") ;;
      _ ← gettoken;
      c ← parseline fuel;
      b ← peek [41];
      guard_ok (negb b) (panic "syntax - missing )") ;;
      _ ← gettoken;
      n ← rounds;
      rs ← parseredirs n [];
      mret (foldl redircmd c rs)
  end.

(** [nulterminate] on the line. *)
Fixpoint nulterminate (c : cmd) (line : list Z) : list Z :=
  match c with
  | EXEC argv => foldl (fun line a => <[snd a := 0]> line) line argv
  | REDIR c _ efile _ _ => <[efile := 0]> (nulterminate c line)
  | PIPE l r | LIST l r => nulterminate r (nulterminate l line)
  | BACK c => nulterminate c line
  end.

(** [parsecmd] on the line [s], which the buffer ends with a NUL: the tree and the buffer. A parenthesis or an
    operator is read between any two calls of the same function, and there are four of them. *)
Definition parsecmd (s : list Z) : outcome cur (cmd * list Z) :=
  (c ← parseline (4 * length s + 4);
   _ ← peek [];
   e ← gets c_left;
   match e with
   | [] => mret (c, nulterminate c (s ++ [0]))
   | _ => panic "syntax"
   end) (Cur 0 s).
