(* ===== verification/ShSpec.v ===== *)
(** The shell's parser against its grammar. *)

From S2P Require Import Prelude Bytes CString Sh.

(** ** Tokens *)

(** The tokens of a line. *)
Fixpoint lex_loop (fuel : nat) (s : cur) : list tok :=
  match fuel with
  | O => []
  | S fuel =>
      match gettoken s with
      | Ok t s => if t_kind t =? 0 then [] else t :: lex_loop fuel s
      | _ => []
      end
  end.
Definition lex (l : list Z) : list tok := lex_loop (S (length l)) (Cur 0 l).

Inductive lexes : cur -> list tok -> Prop :=
  | lexes_nil s t s' : gettoken s = Ok t s' -> t_kind t = 0 -> lexes s []
  | lexes_cons s t s' ts : gettoken s = Ok t s' -> t_kind t <> 0 -> lexes s' ts -> lexes s (t :: ts).

Lemma skip_skip f n l : skip_while f (skip f n l) = skip f n l.
Proof.
  revert n. induction l as [|c l IH]; intros n; [done|]. simpl. destruct (f c) eqn:Hc; [apply IH|].
  unfold skip_while. simpl. by rewrite Hc.
Qed.

Lemma skip_idem f s : skip_while f (skip_while f s) = skip_while f s.
Proof. apply skip_skip. Qed.

Lemma gettoken_skip s : gettoken (skip_while whitespace s) = gettoken s.
Proof. unfold gettoken. by rewrite skip_idem. Qed.

Lemma lexes_skip s ts : lexes (skip_while whitespace s) ts <-> lexes s ts.
Proof. split; (inversion 1; subst; [eapply lexes_nil|eapply lexes_cons]); eauto; by rewrite ?gettoken_skip in *. Qed.

Lemma skip_length f n l : (length (c_left (skip f n l)) <= length l)%nat.
Proof. revert n. induction l as [|c l IH]; intros n; simpl; [lia|]. destruct (f c); [specialize (IH (S n)); lia|simpl; lia]. Qed.

Lemma skip_while_length f s : (length (c_left (skip_while f s)) <= length (c_left s))%nat.
Proof. apply skip_length. Qed.

(** A word starts with a character that is neither a blank nor a symbol. *)
Lemma skip_head f n l c l' : c_left (skip f n l) = c :: l' -> f c = false.
Proof. revert n. induction l as [|d l IH]; intros n; simpl; [done|]. destruct (f d) eqn:Hd; [apply IH|]. by intros [= <- _]. Qed.

(** What a token is, by the character it starts with. *)
Definition token_of (c k : Z) : Prop := if symbols c then k = c \/ (c = 62 /\ k = 43) else k = 97.

Lemma symbol_of c : bool_decide (c ∈ [124; 40; 41; 59; 38; 60]) = true \/ c = 62 <-> symbols c = true.
Proof. unfold symbols. rewrite !bool_decide_eq_true. set_solver. Qed.

Lemma gettoken_inv s t s' :
  gettoken s = Ok t s' ->
  match c_left (skip_while whitespace s) with
  | [] => t_kind t = 0
  | c :: _ => token_of c (t_kind t) /\ t_kind t <> 0 /\ (length (c_left s') < length (c_left s))%nat
  end.
Proof.
  unfold gettoken. pose proof (skip_while_length whitespace s) as Hl. set (s1 := skip_while whitespace s) in *.
  destruct (c_left s1) as [|c l] eqn:Hs1; [by intros [= <- <-]|]. cbn [length] in Hl. unfold token_of.
  assert (forall s2, length (c_left s2) <= length l -> length (c_left (skip_while whitespace s2)) < length (c_left s))%nat as Hless.
  { intros s2 H2. pose proof (skip_while_length whitespace s2). lia. }
  assert (c_left (next s1) = l) as Hn by (unfold next; simpl; by rewrite Hs1).
  destruct (bool_decide _) eqn:Hb.
  { intros [= <- <-]. assert (symbols c = true) as Hsym by (apply symbol_of; by left). rewrite Hsym. cbn [t_kind].
    split_and!; [by left| |apply Hless; rewrite Hn; lia]. intros ->. done. }
  destruct (Z.eqb_spec c 62) as [->|Hne].
  { change (symbols 62) with true. cbv iota. destruct (here (next s1) =? 62); intros [= <- <-]; cbn [t_kind]; (split_and!; [auto|done|]); apply Hless; rewrite <- Hn.
    - unfold next at 1. cbn [c_left]. destruct (c_left (next s1)); simpl; lia.
    - lia. }
  assert (symbols c = false) as Hsym.
  { destruct (symbols c) eqn:Hsym; [|done]. apply symbol_of in Hsym as [H|H]; congruence. }
  rewrite Hsym. intros [= <- <-]. cbn [t_kind]. split_and!; [done|done|]. apply Hless. unfold skip_while. rewrite Hs1. simpl.
  assert (whitespace c = false) as Hw by (eapply skip_head; exact Hs1). unfold wordchar at 1. rewrite Hw, Hsym. simpl. apply skip_length.
Qed.

Lemma gettoken_ok s : exists t s', gettoken s = Ok t s'.
Proof. unfold gettoken. by destruct (match c_left (skip_while whitespace s) with [] => _ | _ => _ end) as [ret s1]; eexists _, _. Qed.

Lemma lex_loop_lexes fuel s : (length (c_left s) < fuel)%nat -> lexes s (lex_loop fuel s).
Proof.
  revert s. induction fuel as [|fuel IH]; intros s Hf; [lia|]. cbn [lex_loop].
  destruct (gettoken_ok s) as (t & s' & Ht). rewrite Ht. pose proof (gettoken_inv s t s' Ht) as Hi.
  destruct (c_left (skip_while whitespace s)).
  - rewrite Hi. by eapply lexes_nil.
  - destruct Hi as (_ & Hk & Hl). rewrite (proj2 (Z.eqb_neq _ 0) Hk). eapply lexes_cons; [done|done|]. apply IH. lia.
Qed.

Lemma lexes_functional s ts ts' : lexes s ts -> lexes s ts' -> ts = ts'.
Proof.
  intros H. revert ts'. induction H as [s t s' Ht Hk|s t s' ts Ht Hk H IH]; intros ts'; inversion 1; subst; try congruence.
  f_equal; [congruence|]. apply IH. congruence.
Qed.

Lemma lexes_length s ts : lexes s ts -> (length ts <= length (c_left s))%nat.
Proof.
  induction 1 as [|s t s' ts Ht Hk H IH]; [simpl; lia|]. pose proof (gettoken_inv s t s' Ht) as Hi.
  destruct (c_left (skip_while whitespace s)); [done|]. destruct Hi as (_ & _ & Hl). simpl. lia.
Qed.

(** Whether the next token starts with one of these characters. *)
Definition starts (toks : list Z) (ts : list tok) : bool :=
  match ts with
  | [] => false
  | t :: _ => bool_decide ((if t_kind t =? 43 then 62 else t_kind t) ∈ toks)
  end.

Lemma peek_starts s ts toks :
  lexes s ts -> Forall (fun c => symbols c = true) toks -> peek toks s = Ok (starts toks ts) (skip_while whitespace s).
Proof.
  intros Hl Hsym. unfold peek. f_equal. rewrite Forall_forall in Hsym.
  destruct (gettoken_ok s) as (t & s' & Ht). pose proof (gettoken_inv s t s' Ht) as Hi.
  destruct (c_left (skip_while whitespace s)) as [|c l]; inversion Hl; subst; try (assert (t0 = t) as -> by congruence); try done.
  - destruct Hi as (_ & ? & _). congruence.
  - destruct Hi as (Htok & _). simpl. apply bool_decide_ext. unfold token_of in Htok.
    destruct (symbols c) eqn:Hc.
    + destruct Htok as [->|[-> ->]]; [|done]. destruct (Z.eqb_spec c 43) as [->|]; [done|done].
    + rewrite Htok. simpl. split; intros Hin; [by rewrite (Hsym c Hin) in Hc|]. by specialize (Hsym 97 Hin).
Qed.

(** ** The grammar *)

(** A line is a pipeline, ampersands, and perhaps a semicolon with another line; a pipeline is one or more
    commands with bars in between; a command is a line in parentheses with redirections after it, or
    redirections and less than ten words. *)
Inductive g_redirs : list tok -> list redir -> Prop :=
  | gr_nil : g_redirs [] []
  | gr_cons t w ts rs :
      t_kind t ∈ [60; 62; 43] -> t_kind w = 97 -> g_redirs ts rs -> g_redirs (t :: w :: ts) (redirect (t_kind t) w :: rs).

Inductive g_args : list tok -> list (nat * nat) -> list redir -> Prop :=
  | ga_nil : g_args [] [] []
  | ga_cons w ts rs ts' argv rs' :
      t_kind w = 97 -> g_redirs ts rs -> g_args ts' argv rs' -> g_args (w :: ts ++ ts') ((t_q w, t_eq w) :: argv) (rs ++ rs').

Definition backs (n : nat) (c : cmd) : cmd := Nat.iter n BACK c.

Inductive g_line : list tok -> cmd -> Prop :=
  | gl_end ts c bs : g_pipe ts c -> Forall (fun t => t_kind t = 38) bs -> g_line (ts ++ bs) (backs (length bs) c)
  | gl_seq ts c bs t ts' c' :
      g_pipe ts c -> Forall (fun t => t_kind t = 38) bs -> t_kind t = 59 -> g_line ts' c' ->
      g_line (ts ++ bs ++ t :: ts') (LIST (backs (length bs) c) c')
with g_pipe : list tok -> cmd -> Prop :=
  | gp_end ts c : g_exec ts c -> g_pipe ts c
  | gp_bar ts c t ts' c' : g_exec ts c -> t_kind t = 124 -> g_pipe ts' c' -> g_pipe (ts ++ t :: ts') (PIPE c c')
with g_exec : list tok -> cmd -> Prop :=
  | ge_block t ts c t' ts' rs :
      t_kind t = 40 -> g_line ts c -> t_kind t' = 41 -> g_redirs ts' rs -> g_exec (t :: ts ++ t' :: ts') (foldl redircmd c rs)
  | ge_words ts rs ts' argv rs' :
      g_redirs ts rs -> g_args ts' argv rs' -> (length argv < MAXARGS)%nat ->
      g_exec (ts ++ ts') (foldl redircmd (EXEC argv) (rs ++ rs')).

Scheme g_line_mut := Induction for g_line Sort Prop
  with g_pipe_mut := Induction for g_pipe Sort Prop
  with g_exec_mut := Induction for g_exec Sort Prop.
Combined Scheme g_mut from g_line_mut, g_pipe_mut, g_exec_mut.

(** ** Steps of the parser, on tokens *)

Lemma gettoken_end s : lexes s [] -> exists t s', gettoken s = Ok t s' /\ t_kind t = 0 /\ lexes s' [].
Proof.
  inversion 1 as [? t s' Ht Hk|]; subst. exists t, s'. split_and!; [done|done|]. pose proof (gettoken_inv s t s' Ht) as Hi.
  destruct (c_left (skip_while whitespace s)) as [|c l] eqn:Hs; [|destruct Hi as (_ & ? & _); done].
  unfold gettoken in Ht. rewrite Hs in Ht. injection Ht as <- <-. by apply lexes_skip, lexes_skip.
Qed.

Lemma wp_gettoken s t ts (Q : tok -> cur -> Prop) : lexes s (t :: ts) -> (forall s', lexes s' ts -> Q t s') -> wp gettoken s Q.
Proof. inversion 1; subst. intros HQ. unfold wp. replace (gettoken s) with (Ok t s') by congruence. by apply HQ. Qed.

Lemma wp_gettoken_end s (Q : tok -> cur -> Prop) :
  lexes s [] -> (forall t s', t_kind t = 0 -> lexes s' [] -> Q t s') -> wp gettoken s Q.
Proof. intros Hl HQ. destruct (gettoken_end s Hl) as (t & s' & Ht & Hk & Hl'). unfold wp. rewrite Ht. by apply HQ. Qed.

Lemma wp_peek toks s ts (Q : bool -> cur -> Prop) :
  Forall (fun c => symbols c = true) toks -> lexes s ts -> (forall s', lexes s' ts -> Q (starts toks ts) s') -> wp (peek toks) s Q.
Proof. intros Hsym Hl HQ. unfold wp. rewrite (peek_starts s ts toks Hl Hsym). apply HQ. by apply lexes_skip. Qed.

Lemma wp_rounds s ts (Q : nat -> cur -> Prop) : lexes s ts -> (forall n, (length ts < n)%nat -> Q n s) -> wp rounds s Q.
Proof. intros Hl HQ. apply wp_gets, HQ. pose proof (lexes_length s ts Hl). lia. Qed.

(** The characters asked for are symbols. *)
Ltac syms := repeat (constructor; [reflexivity|]); constructor.

Definition ends (toks : list Z) (ts : list tok) : Prop := ts = [] \/ starts toks ts = true.

Lemma ends_head toks ts : ends toks ts -> match ts with [] => True | t :: _ => (if t_kind t =? 43 then 62 else t_kind t) ∈ toks end.
Proof. intros [->|Hs]; [done|]. destruct ts as [|t ts]; [done|]. by apply bool_decide_eq_true in Hs. Qed.

(** What cannot come next. *)
Lemma ends_not toks toks' ts : ends toks ts -> (forall c, c ∈ toks -> c ∉ toks') -> starts toks' ts = false.
Proof.
  intros He Hd. apply ends_head in He. destruct ts as [|t ts]; [done|]. simpl. apply bool_decide_eq_false. by apply Hd.
Qed.

Lemma ends_mono toks toks' ts : ends toks ts -> (forall c, c ∈ toks -> c ∈ toks') -> ends toks' ts.
Proof.
  intros He Hd. apply ends_head in He. destruct ts as [|t ts]; [by left|]. right. simpl. apply bool_decide_eq_true. by apply Hd.
Qed.

(** Closed membership in lists of characters. *)
Ltac chars := intros ?; rewrite !elem_of_cons, ?elem_of_nil; intros; naive_solver lia.

(** ** The parser accepts what the grammar derives *)

Lemma wp_parseredirs ts rs : g_redirs ts rs -> forall fuel rs0 s rest (Q : list redir -> cur -> Prop),
  lexes s (ts ++ rest) -> starts [60; 62] rest = false -> (length ts < fuel)%nat ->
  (forall s', lexes s' rest -> Q (rs0 ++ rs) s') -> wp (parseredirs fuel rs0) s Q.
Proof.
  induction 1 as [|t w ts rs Ht Hw Hg IH]; intros [|fuel] rs0 s rest Q Hl Hr Hf HQ; cbn [length] in Hf; try lia; cbn [parseredirs].
  - eapply wp_bind, wp_peek; [syms|exact Hl|]. intros s' Hl'. simpl app. rewrite Hr. apply wp_ret. rewrite app_nil_r in HQ. by apply HQ.
  - eapply wp_bind, wp_peek; [syms|exact Hl|]. intros s1 Hl1. assert (starts [60; 62] ((t :: w :: ts) ++ rest) = true) as ->.
    { simpl. apply bool_decide_eq_true. rewrite !elem_of_cons, elem_of_nil in Ht. destruct Ht as [->|[->|[->|[]]]]; simpl; set_solver. }
    eapply wp_bind, wp_gettoken; [exact Hl1|]. intros s2 Hl2. eapply wp_bind, wp_gettoken; [exact Hl2|]. intros s3 Hl3.
    rewrite Hw. cbn [Z.eqb negb]. change (97 =? 97) with true. cbn [negb].
    eapply IH; [exact Hl3|exact Hr|lia|]. intros s' Hl'. rewrite <- app_assoc. by apply HQ.
Qed.

Lemma wp_parseargs ts argv rs : g_args ts argv rs -> forall fuel argv0 rs0 s rest (Q : list (nat * nat) * list redir -> cur -> Prop),
  lexes s (ts ++ rest) -> ends [124; 41; 38; 59] rest -> (length ts < fuel)%nat -> (length argv0 + length argv < MAXARGS)%nat ->
  (forall s', lexes s' rest -> Q (argv0 ++ argv, rs0 ++ rs) s') -> wp (parseargs fuel argv0 rs0) s Q.
Proof.
  induction 1 as [|w ts rs ts' argv rs' Hw Hr Hg IH]; intros [|fuel] argv0 rs0 s rest Q Hl He Hf Ha HQ;
    cbn [length] in Hf, Ha; try lia; cbn [parseargs]; cbn [app] in Hl.
  - eapply wp_bind, wp_peek; [syms|exact Hl|]. intros s1 Hl1. simpl app in *. rewrite !app_nil_r in HQ. destruct He as [->|He].
    + cbn [starts]. eapply wp_bind, wp_gettoken_end; [exact Hl1|]. intros t s2 -> Hl2. apply wp_ret. by apply HQ.
    + rewrite He. apply wp_ret. by apply HQ.
  - eapply wp_bind, wp_peek; [syms|exact Hl|]. intros s1 Hl1. cbn [starts app]. rewrite Hw. change (97 =? 43) with false. cbv iota.
    rewrite bool_decide_eq_false_2 by set_solver. eapply wp_bind, wp_gettoken; [exact Hl1|]. intros s2 Hl2.
    rewrite Hw. change (97 =? 0) with false. change (negb (97 =? 97)) with false. cbv iota. rewrite length_app. cbn [length].
    rewrite (proj2 (Nat.leb_gt _ _)) by lia. rewrite <- (app_assoc ts ts' rest) in Hl2. rewrite length_app in Hf.
    eapply wp_bind, (wp_parseredirs ts rs Hr); [exact Hl2| |lia|].
    { destruct Hg as [|w' ts2 rs2 ts3 argv' rs3 Hw' _ _]; [eapply ends_not; [exact He|chars]|]. simpl. rewrite Hw'. reflexivity. }
    intros s3 Hl3. eapply IH; [exact Hl3|exact He|lia|rewrite length_app; simpl; lia|]. intros s4 Hl4. rewrite <- !app_assoc. by apply HQ.
Qed.

Lemma wp_parseback bs : Forall (fun t => t_kind t = 38) bs -> forall fuel c s rest (Q : cmd -> cur -> Prop),
  lexes s (bs ++ rest) -> starts [38] rest = false -> (length bs < fuel)%nat ->
  (forall s', lexes s' rest -> Q (backs (length bs) c) s') -> wp (parseback fuel c) s Q.
Proof.
  induction 1 as [|t bs Ht Hb IH]; intros [|fuel] c s rest Q Hl Hr Hf HQ; cbn [length] in Hf; try lia; cbn [parseback].
  - eapply wp_bind, wp_peek; [syms|exact Hl|]. intros s1 Hl1. simpl app in *. rewrite Hr. apply wp_ret. by apply HQ.
  - eapply wp_bind, wp_peek; [syms|exact Hl|]. intros s1 Hl1. cbn [starts app]. rewrite Ht. change (38 =? 43) with false. cbv iota.
    rewrite bool_decide_eq_true_2 by set_solver. eapply wp_bind, wp_gettoken; [exact Hl1|]. intros s2 Hl2.
    eapply IH; [exact Hl2|exact Hr|lia|]. intros s3 Hl3. specialize (HQ s3 Hl3). cbn [length] in HQ. unfold backs in *.
    by rewrite Nat.iter_succ_r in HQ.
Qed.

(** A command that is not in parentheses does not start with one. *)
Lemma words_start ts rs ts' argv rs' rest :
  g_redirs ts rs -> g_args ts' argv rs' -> ends [124; 41; 38; 59] rest -> starts [40] ((ts ++ ts') ++ rest) = false.
Proof.
  intros Hr Ha He. destruct Hr as [|t w ts rs Ht Hw Hr].
  - destruct Ha as [|w ts2 rs2 ts3 argv' rs3 Hw _ _]; [eapply ends_not; [exact He|chars]|]. simpl. by rewrite Hw.
  - simpl. apply bool_decide_eq_false. rewrite !elem_of_cons, elem_of_nil in Ht. destruct Ht as [->|[->|[->|[]]]]; simpl; set_solver.
Qed.

Definition line_ok ts c : Prop := forall fuel s rest (Q : cmd -> cur -> Prop),
  lexes s (ts ++ rest) -> ends [41] rest -> (4 * length ts + 4 <= fuel)%nat -> (forall s', lexes s' rest -> Q c s') -> wp (parseline fuel) s Q.
Definition pipe_ok ts c : Prop := forall fuel s rest (Q : cmd -> cur -> Prop),
  lexes s (ts ++ rest) -> ends [41; 38; 59] rest -> (4 * length ts + 3 <= fuel)%nat -> (forall s', lexes s' rest -> Q c s') -> wp (parsepipe fuel) s Q.
Definition exec_ok ts c : Prop := forall fuel s rest (Q : cmd -> cur -> Prop),
  lexes s (ts ++ rest) -> ends [124; 41; 38; 59] rest -> (4 * length ts + 2 <= fuel)%nat -> (forall s', lexes s' rest -> Q c s') -> wp (parseexec fuel) s Q.

(** The token that ends a list is the one of this kind. *)
Lemma starts_kind toks t ts k : t_kind t = k -> starts toks (t :: ts) = bool_decide ((if k =? 43 then 62 else k) ∈ toks).
Proof. by intros <-. Qed.

Lemma ends_kind toks t ts k : t_kind t = k -> k <> 43 -> k ∈ toks -> ends toks (t :: ts).
Proof. intros Hk Hne Hin. right. rewrite (starts_kind _ _ _ k Hk), (proj2 (Z.eqb_neq k 43) Hne). by apply bool_decide_eq_true. Qed.

(** Ampersands and what can follow them. *)
Lemma ends_backs bs rest : Forall (fun t => t_kind t = 38) bs -> ends [41; 59] rest -> ends [41; 38; 59] (bs ++ rest).
Proof.
  intros Hb He. destruct Hb as [|t bs Ht Hb]; [eapply ends_mono; [exact He|chars]|]. eapply ends_kind; [exact Ht|done|set_solver].
Qed.

Lemma line_end ts c bs : pipe_ok ts c -> Forall (fun t => t_kind t = 38) bs -> line_ok (ts ++ bs) (backs (length bs) c).
Proof.
  intros IH Hb [|fuel] s rest Q Hl He Hf HQ; [lia|]. cbn [parseline]. rewrite length_app in Hf. rewrite <- app_assoc in Hl.
  eapply wp_bind, IH; [exact Hl|apply ends_backs; [done|eapply ends_mono; [exact He|chars]]|lia|]. intros s1 Hl1.
  eapply wp_bind, wp_rounds; [exact Hl1|]. intros n Hn. rewrite length_app in Hn.
  eapply wp_bind, (wp_parseback bs Hb); [exact Hl1|eapply ends_not; [exact He|chars]|lia|]. intros s2 Hl2.
  eapply wp_bind, wp_peek; [syms|exact Hl2|]. intros s3 Hl3. rewrite (ends_not _ [59] _ He) by chars. apply wp_ret. by apply HQ.
Qed.

Lemma line_seq ts c bs t ts' c' :
  pipe_ok ts c -> Forall (fun t => t_kind t = 38) bs -> t_kind t = 59 -> line_ok ts' c' ->
  line_ok (ts ++ bs ++ t :: ts') (LIST (backs (length bs) c) c').
Proof.
  intros IH Hb Ht IH' [|fuel] s rest Q Hl He Hf HQ; [lia|]. cbn [parseline]. rewrite !length_app in Hf.
  cbn [length] in Hf. rewrite <- !app_assoc in Hl. cbn [app] in Hl.
  eapply wp_bind, IH; [exact Hl|apply ends_backs; [done|eapply ends_kind; [exact Ht|done|set_solver]]|lia|]. intros s1 Hl1.
  eapply wp_bind, wp_rounds; [exact Hl1|]. intros n Hn. rewrite length_app in Hn.
  eapply wp_bind, (wp_parseback bs Hb); [exact Hl1|by rewrite (starts_kind _ _ _ _ Ht)|lia|]. intros s2 Hl2.
  eapply wp_bind, wp_peek; [syms|exact Hl2|]. intros s3 Hl3. rewrite (starts_kind _ _ _ _ Ht), bool_decide_eq_true_2 by set_solver.
  eapply wp_bind, wp_gettoken; [exact Hl3|]. intros s4 Hl4. eapply wp_bind, IH'; [exact Hl4|exact He|lia|]. intros s5 Hl5. apply wp_ret. by apply HQ.
Qed.

Lemma pipe_end ts c : exec_ok ts c -> pipe_ok ts c.
Proof.
  intros IH [|fuel] s rest Q Hl He Hf HQ; [lia|]. cbn [parsepipe].
  eapply wp_bind, IH; [exact Hl|eapply ends_mono; [exact He|chars]|lia|]. intros s1 Hl1.
  eapply wp_bind, wp_peek; [syms|exact Hl1|]. intros s2 Hl2. rewrite (ends_not _ [124] _ He) by chars. apply wp_ret. by apply HQ.
Qed.

Lemma pipe_bar ts c t ts' c' : exec_ok ts c -> t_kind t = 124 -> pipe_ok ts' c' -> pipe_ok (ts ++ t :: ts') (PIPE c c').
Proof.
  intros IH Ht IH' [|fuel] s rest Q Hl He Hf HQ; [lia|]. cbn [parsepipe]. rewrite length_app in Hf. cbn [length] in Hf.
  rewrite <- app_assoc in Hl. cbn [app] in Hl. eapply wp_bind, IH; [exact Hl|eapply ends_kind; [exact Ht|done|set_solver]|lia|]. intros s1 Hl1.
  eapply wp_bind, wp_peek; [syms|exact Hl1|]. intros s2 Hl2. rewrite (starts_kind _ _ _ _ Ht), bool_decide_eq_true_2 by set_solver.
  eapply wp_bind, wp_gettoken; [exact Hl2|]. intros s3 Hl3. eapply wp_bind, IH'; [exact Hl3|exact He|lia|]. intros s4 Hl4. apply wp_ret. by apply HQ.
Qed.

Lemma exec_block t ts c t' ts' rs :
  t_kind t = 40 -> line_ok ts c -> t_kind t' = 41 -> g_redirs ts' rs -> exec_ok (t :: ts ++ t' :: ts') (foldl redircmd c rs).
Proof.
  intros Ht IH Ht' Hr [|[|fuel]] s rest Q Hl He Hf HQ; [cbn [length] in Hf; lia..|]. cbn [parseexec parseblock].
  cbn [app length] in *. rewrite length_app in Hf. cbn [length] in Hf. rewrite <- app_assoc in Hl. cbn [app] in Hl.
  eapply wp_bind, wp_peek; [syms|exact Hl|]. intros s1 Hl1. rewrite (starts_kind _ _ _ _ Ht), bool_decide_eq_true_2 by set_solver.
  eapply wp_bind, wp_peek; [syms|exact Hl1|]. intros s2 Hl2. rewrite (starts_kind _ _ _ _ Ht), bool_decide_eq_true_2 by set_solver.
  eapply wp_bind, wp_ret, wp_bind, wp_gettoken; [exact Hl2|]. intros s3 Hl3.
  eapply wp_bind, IH; [exact Hl3|eapply ends_kind; [exact Ht'|done|set_solver]|lia|]. intros s4 Hl4.
  eapply wp_bind, wp_peek; [syms|exact Hl4|]. intros s5 Hl5. rewrite (starts_kind _ _ _ _ Ht'), bool_decide_eq_true_2 by set_solver.
  eapply wp_bind, wp_ret, wp_bind, wp_gettoken; [exact Hl5|]. intros s6 Hl6. eapply wp_bind, wp_rounds; [exact Hl6|].
  intros n Hn. rewrite length_app in Hn. eapply wp_bind, (wp_parseredirs ts' rs Hr); [exact Hl6|eapply ends_not; [exact He|chars]|lia|].
  intros s7 Hl7. apply wp_ret. by apply HQ.
Qed.

Lemma exec_words ts rs ts' argv rs' :
  g_redirs ts rs -> g_args ts' argv rs' -> (length argv < MAXARGS)%nat -> exec_ok (ts ++ ts') (foldl redircmd (EXEC argv) (rs ++ rs')).
Proof.
  intros Hr Ha Hn [|fuel] s rest Q Hl He Hf HQ; [lia|]. cbn [parseexec]. eapply wp_bind, wp_peek; [syms|exact Hl|].
  intros s1 Hl1. rewrite (words_start ts rs ts' argv rs' rest Hr Ha He). eapply wp_bind, wp_rounds; [exact Hl1|]. intros n Hn'.
  rewrite !length_app in Hn'. rewrite <- app_assoc in Hl1. eapply wp_bind, (wp_parseredirs ts rs Hr); [exact Hl1| |lia|].
  { destruct Ha as [|w ts2 rs2 ts3 argv' rs3 Hw _ _]; [eapply ends_not; [exact He|chars]|]. simpl. by rewrite Hw. }
  intros s2 Hl2. eapply wp_bind, (wp_parseargs ts' argv rs' Ha); [exact Hl2|exact He|lia|done|]. intros s3 Hl3. apply wp_ret. by apply HQ.
Qed.

Lemma parse_complete :
  (forall ts c, g_line ts c -> line_ok ts c) /\ (forall ts c, g_pipe ts c -> pipe_ok ts c) /\ (forall ts c, g_exec ts c -> exec_ok ts c).
Proof.
  apply (g_mut (fun ts c _ => line_ok ts c) (fun ts c _ => pipe_ok ts c) (fun ts c _ => exec_ok ts c)); intros;
    eauto using line_end, line_seq, pipe_end, pipe_bar, exec_block, exec_words.
Qed.

(** ** What the parser accepts, the grammar derives *)

(** The parser returns with [Q], or it panics. *)
Definition tot {A} (m : M cur A) (s : cur) (Q : A -> cur -> Prop) : Prop :=
  match m s with Ok a s' => Q a s' | Panic _ => True | _ => False end.

Lemma tot_bind {A B} (m : M cur A) (k : A -> M cur B) s Q : tot m s (fun a s' => tot (k a) s' Q) -> tot (x ← m; k x) s Q.
Proof. unfold tot, mbind, M_bind. by destruct (m s). Qed.
Lemma tot_wp {A} (m : M cur A) s Q : wp m s Q -> tot m s Q.
Proof. unfold tot, wp. by destruct (m s). Qed.
Lemma tot_ret {A} (a : A) s (Q : A -> cur -> Prop) : Q a s -> tot (mret a) s Q.
Proof. done. Qed.
Lemma tot_panic {A} msg s (Q : A -> cur -> Prop) : tot (panic msg) s Q.
Proof. done. Qed.
Lemma tot_mono {A} (m : M cur A) s (Q Q' : A -> cur -> Prop) : tot m s Q -> (forall a s', Q a s' -> Q' a s') -> tot m s Q'.
Proof. unfold tot. destruct (m s); auto. Qed.

Lemma tot_peek toks s ts (Q : bool -> cur -> Prop) :
  Forall (fun c => symbols c = true) toks -> lexes s ts -> (forall s', lexes s' ts -> Q (starts toks ts) s') -> tot (peek toks) s Q.
Proof. intros. by eapply tot_wp, wp_peek. Qed.

Lemma tot_gettoken s ts (Q : tok -> cur -> Prop) :
  lexes s ts ->
  (forall t s' ts', ts = t :: ts' /\ t_kind t <> 0 \/ ts = [] /\ ts' = [] /\ t_kind t = 0 -> lexes s' ts' -> Q t s') -> tot gettoken s Q.
Proof.
  intros Hl HQ. apply tot_wp. destruct ts as [|t ts].
  - eapply wp_gettoken_end; [exact Hl|]. intros t s' Hk Hl'. apply (HQ t s' []); [by right|done].
  - assert (t_kind t <> 0) as Hk by (by inversion Hl). eapply wp_gettoken; [exact Hl|]. intros s' Hl'. apply (HQ t s' ts); [by left|done].
Qed.

Lemma tot_rounds s ts (Q : nat -> cur -> Prop) : lexes s ts -> (forall n, (length ts < n)%nat -> Q n s) -> tot rounds s Q.
Proof. intros. by eapply tot_wp, wp_rounds. Qed.

(** After a successful [peek], the token it saw. *)
Lemma tot_peeked toks s ts (Q : tok -> cur -> Prop) :
  lexes s ts -> starts toks ts = true ->
  (forall t s' ts', ts = t :: ts' -> (if t_kind t =? 43 then 62 else t_kind t) ∈ toks -> lexes s' ts' -> Q t s') -> tot gettoken s Q.
Proof.
  intros Hl Hs HQ. eapply tot_gettoken; [exact Hl|]. intros t s' ts' [[-> _]|[-> _]] Hl'; [|done].
  by apply (HQ t s' ts'); [|apply bool_decide_eq_true in Hs|].
Qed.

Lemma kind_one t k : k <> 62 -> (if t_kind t =? 43 then 62 else t_kind t) ∈ [k] -> t_kind t = k.
Proof. intros Hk. rewrite list_elem_of_singleton. destruct (t_kind t =? 43); [by intros <-|done]. Qed.

Lemma kind_redir t : (if t_kind t =? 43 then 62 else t_kind t) ∈ [60; 62] -> t_kind t ∈ [60; 62; 43].
Proof. destruct (Z.eqb_spec (t_kind t) 43) as [->|_]; set_solver. Qed.

Lemma tot_parseredirs fuel : forall rs0 s ts (Q : list redir -> cur -> Prop),
  lexes s ts -> (length ts < fuel)%nat ->
  (forall ts1 ts2 rs s', ts = ts1 ++ ts2 -> g_redirs ts1 rs -> lexes s' ts2 -> Q (rs0 ++ rs) s') -> tot (parseredirs fuel rs0) s Q.
Proof.
  induction fuel as [|fuel IH]; intros rs0 s ts Q Hl Hf HQ; [lia|]. cbn [parseredirs].
  eapply tot_bind, tot_peek; [syms|exact Hl|]. intros s1 Hl1. destruct (starts [60; 62] ts) eqn:Hs.
  - eapply tot_bind, tot_peeked; [exact Hl1|exact Hs|]. intros t s2 ts2 -> Ht%kind_redir Hl2.
    eapply tot_bind, tot_gettoken; [exact Hl2|]. intros w s3 ts3 Hw Hl3. destruct (Z.eqb_spec (t_kind w) 97) as [Hw97|]; [|done].
    destruct Hw as [[-> _]|(_ & _ & ?)]; [|congruence]. cbn [negb length] in *. eapply IH; [exact Hl3|lia|].
    intros ts1 ts4 rs s4 -> Hg Hl4. rewrite <- app_assoc. apply (HQ (t :: w :: ts1) ts4); [done|by constructor|done].
  - apply tot_ret. rewrite <- (app_nil_r rs0). apply (HQ [] ts []); [done|constructor|done].
Qed.

Lemma tot_parseargs fuel : forall argv0 rs0 s ts (Q : list (nat * nat) * list redir -> cur -> Prop),
  lexes s ts -> (length ts < fuel)%nat -> (length argv0 < MAXARGS)%nat ->
  (forall ts1 ts2 argv rs s', ts = ts1 ++ ts2 -> g_args ts1 argv rs -> (length argv0 + length argv < MAXARGS)%nat -> lexes s' ts2 ->
     Q (argv0 ++ argv, rs0 ++ rs) s') -> tot (parseargs fuel argv0 rs0) s Q.
Proof.
  induction fuel as [|fuel IH]; intros argv0 rs0 s ts Q Hl Hf Ha HQ; [lia|]. cbn [parseargs].
  assert (forall s', lexes s' ts -> Q (argv0, rs0) s') as Hstop.
  { intros s' Hl'. rewrite <- (app_nil_r argv0), <- (app_nil_r rs0). apply (HQ [] ts [] []); [done|constructor|simpl; lia|done]. }
  eapply tot_bind, tot_peek; [syms|exact Hl|]. intros s1 Hl1. destruct (starts _ ts) eqn:Hs; [by apply tot_ret, Hstop|].
  eapply tot_bind, tot_gettoken; [exact Hl1|]. intros t s2 ts2 Ht Hl2.
  destruct Ht as [[-> Hk]|(-> & -> & Hk)]; [|rewrite Hk; by apply tot_ret, Hstop]. rewrite (proj2 (Z.eqb_neq _ 0) Hk).
  destruct (Z.eqb_spec (t_kind t) 97) as [H97|]; [|done]. cbn [negb length] in *. rewrite length_app. cbn [length].
  destruct (MAXARGS <=? length argv0 + 1)%nat eqn:Hmax; [done|]. apply Nat.leb_gt in Hmax.
  eapply tot_bind, tot_parseredirs; [exact Hl2|lia|]. intros ts1 ts3 rs s3 -> Hr Hl3. rewrite length_app in Hf.
  eapply IH; [exact Hl3|lia|rewrite length_app; simpl; lia|]. intros ts4 ts5 argv rs' s4 -> Hg Hn Hl4. rewrite length_app in Hn. cbn [length] in Hn.
  rewrite <- !app_assoc. apply (HQ (t :: ts1 ++ ts4) ts5); [simpl; by rewrite <- app_assoc|by constructor|simpl; lia|done].
Qed.

Lemma tot_parseback fuel : forall c s ts (Q : cmd -> cur -> Prop),
  lexes s ts -> (length ts < fuel)%nat ->
  (forall bs ts' s', ts = bs ++ ts' -> Forall (fun t => t_kind t = 38) bs -> lexes s' ts' -> Q (backs (length bs) c) s') ->
  tot (parseback fuel c) s Q.
Proof.
  induction fuel as [|fuel IH]; intros c s ts Q Hl Hf HQ; [lia|]. cbn [parseback].
  eapply tot_bind, tot_peek; [syms|exact Hl|]. intros s1 Hl1. destruct (starts [38] ts) eqn:Hs; [|apply tot_ret; by apply (HQ [] ts)].
  eapply tot_bind, tot_peeked; [exact Hl1|exact Hs|]. intros t s2 ts2 -> Ht%kind_one Hl2; [|done]. cbn [length] in Hf.
  eapply IH; [exact Hl2|lia|]. intros bs ts' s3 -> Hb Hl3. specialize (HQ (t :: bs) ts' s3 eq_refl ltac:(by constructor) Hl3).
  unfold backs in *. cbn [length] in HQ. by rewrite Nat.iter_succ_r in HQ.
Qed.

(** A parser that takes a prefix of the tokens in the language [G]. *)
Definition takes (G : list tok -> cmd -> Prop) (m : M cur cmd) (s : cur) (ts : list tok) : Prop :=
  tot m s (fun c s' => exists ts1 ts2, ts = ts1 ++ ts2 /\ G ts1 c /\ lexes s' ts2).

Lemma tot_takes G m s ts (Q : cmd -> cur -> Prop) :
  takes G m s ts -> (forall ts1 ts2 c s', ts = ts1 ++ ts2 -> G ts1 c -> lexes s' ts2 -> Q c s') -> tot m s Q.
Proof. intros Ht HQ. eapply tot_mono; [exact Ht|]. intros c s' (ts1 & ts2 & -> & Hg & Hl). by eapply HQ. Qed.

Definition takes_line n := forall s ts, lexes s ts -> (4 * length ts + 4 <= n)%nat -> takes g_line (parseline n) s ts.
Definition takes_pipe n := forall s ts, lexes s ts -> (4 * length ts + 3 <= n)%nat -> takes g_pipe (parsepipe n) s ts.
Definition takes_exec n := forall s ts, lexes s ts -> (4 * length ts + 2 <= n)%nat -> takes g_exec (parseexec n) s ts.
Definition takes_block n :=
  forall s ts, lexes s ts -> starts [40] ts = true -> (4 * length ts + 1 <= n)%nat -> takes g_exec (parseblock n) s ts.

Lemma takes_line_S n : takes_pipe n -> takes_line n -> takes_line (S n).
Proof.
  intros Hp Hline s ts Hl Hn. unfold takes. cbn [parseline].
  eapply tot_bind, tot_takes; [apply Hp; [exact Hl|lia]|]. intros ts1 ts2 c s1 -> Hg Hl1. rewrite length_app in Hn.
  eapply tot_bind, tot_rounds; [exact Hl1|]. intros m Hm.
  eapply tot_bind, tot_parseback; [exact Hl1|lia|]. intros bs ts3 s2 -> Hb Hl2. rewrite length_app in Hn.
  eapply tot_bind, tot_peek; [syms|exact Hl2|]. intros s3 Hl3. destruct (starts [59] ts3) eqn:Hs.
  - eapply tot_bind, tot_peeked; [exact Hl3|exact Hs|]. intros t s4 ts4 -> Ht%kind_one Hl4; [|done]. cbn [length] in Hn.
    eapply tot_bind, tot_takes; [apply Hline; [exact Hl4|lia]|]. intros ts5 ts6 c' s5 -> Hg' Hl5. apply tot_ret.
    exists (ts1 ++ bs ++ t :: ts5), ts6. rewrite <- !app_assoc. split_and!; [done|by constructor|done].
  - apply tot_ret. exists (ts1 ++ bs), ts3. rewrite <- app_assoc. split_and!; [done|by constructor|done].
Qed.

Lemma takes_pipe_S n : takes_exec n -> takes_pipe n -> takes_pipe (S n).
Proof.
  intros He Hp s ts Hl Hn. unfold takes. cbn [parsepipe].
  eapply tot_bind, tot_takes; [apply He; [exact Hl|lia]|]. intros ts1 ts2 c s1 -> Hg Hl1. rewrite length_app in Hn.
  eapply tot_bind, tot_peek; [syms|exact Hl1|]. intros s2 Hl2. destruct (starts [124] ts2) eqn:Hs.
  - eapply tot_bind, tot_peeked; [exact Hl2|exact Hs|]. intros t s3 ts3 -> Ht%kind_one Hl3; [|done]. cbn [length] in Hn.
    eapply tot_bind, tot_takes; [apply Hp; [exact Hl3|lia]|]. intros ts4 ts5 c' s4 -> Hg' Hl4. apply tot_ret.
    exists (ts1 ++ t :: ts4), ts5. rewrite <- app_assoc. split_and!; [done|by constructor|done].
  - apply tot_ret. exists ts1, ts2. split_and!; [done|by constructor|done].
Qed.

Lemma takes_exec_S n : takes_block n -> takes_exec (S n).
Proof.
  intros Hb s ts Hl Hn. unfold takes. cbn [parseexec]. eapply tot_bind, tot_peek; [syms|exact Hl|]. intros s1 Hl1.
  destruct (starts [40] ts) eqn:Hs; [apply Hb; [exact Hl1|exact Hs|lia]|].
  eapply tot_bind, tot_rounds; [exact Hl1|]. intros m Hm. eapply tot_bind, tot_parseredirs; [exact Hl1|lia|].
  intros ts1 ts2 rs s2 -> Hr Hl2. rewrite length_app in Hm. eapply tot_bind, tot_parseargs; [exact Hl2|lia|simpl; unfold MAXARGS; lia|].
  intros ts3 ts4 argv rs' s3 -> Hg Hlen Hl3. apply tot_ret. exists (ts1 ++ ts3), ts4. rewrite <- app_assoc. cbn [fst snd app].
  split_and!; [done|by constructor|done].
Qed.

Lemma takes_block_S n : takes_line n -> takes_block (S n).
Proof.
  intros Hline s ts Hl Hs Hn. unfold takes. cbn [parseblock]. eapply tot_bind, tot_peek; [syms|exact Hl|]. intros s1 Hl1. rewrite Hs.
  eapply tot_bind, tot_ret, tot_bind, tot_peeked; [exact Hl1|exact Hs|]. intros t s2 ts2 -> Ht%kind_one Hl2; [|done]. cbn [length] in Hn.
  eapply tot_bind, tot_takes; [apply Hline; [exact Hl2|lia]|]. intros ts3 ts4 c s3 -> Hg Hl3.
  eapply tot_bind, tot_peek; [syms|exact Hl3|]. intros s4 Hl4. destruct (starts [41] ts4) eqn:Hs'; [|done].
  eapply tot_bind, tot_ret, tot_bind, tot_peeked; [exact Hl4|exact Hs'|]. intros t' s5 ts5 -> Ht'%kind_one Hl5; [|done].
  eapply tot_bind, tot_rounds; [exact Hl5|]. intros m Hm. eapply tot_bind, tot_parseredirs; [exact Hl5|lia|].
  intros ts6 ts7 rs s6 -> Hr Hl6. apply tot_ret. exists (t :: ts3 ++ t' :: ts6), ts7. simpl. rewrite <- app_assoc.
  split_and!; [done|by constructor|done].
Qed.

Lemma takes_all n : takes_line n /\ takes_pipe n /\ takes_exec n /\ takes_block n.
Proof.
  induction n as [|n (Hl & Hp & He & Hb)]; [split_and!; intros s ts; lia|].
  auto using takes_line_S, takes_pipe_S, takes_exec_S, takes_block_S.
Qed.

Lemma lex_lexes l : lexes (Cur 0 l) (lex l).
Proof. apply lex_loop_lexes. simpl. lia. Qed.

(** The last [peek] of [parsecmd] leaves nothing but blanks when there are no tokens. *)
Lemma peek_left s ts : lexes s ts -> exists s', peek [] s = Ok false s' /\ (c_left s' = [] <-> ts = []).
Proof.
  intros Hl. eexists. rewrite (peek_starts s ts [] Hl ltac:(constructor)). assert (starts [] ts = false) as ->.
  { by destruct ts. }
  split; [done|]. destruct (gettoken_ok s) as (t & s' & Ht). pose proof (gettoken_inv s t s' Ht) as Hi.
  destruct (c_left (skip_while whitespace s)); inversion Hl; subst; split; try done; [congruence|].
  destruct Hi as (_ & ? & _). congruence.
Qed.

(** A tree that is returned is derived. *)
Lemma parsecmd_tree s c buf s' : parsecmd s = Ok (c, buf) s' -> g_line (lex s) c /\ buf = nulterminate c (s ++ [0]).
Proof.
  pose proof (lexes_length _ _ (lex_lexes s)) as Hlen. cbn [c_left] in Hlen.
  pose proof (proj1 (takes_all (4 * length s + 4)) (Cur 0 s) (lex s) (lex_lexes s) ltac:(lia)) as Ht. unfold takes, tot in Ht.
  unfold parsecmd, mbind, M_bind. destruct (parseline (4 * length s + 4) (Cur 0 s)) as [c1 s1|msg| | |]; [|done..].
  destruct Ht as (ts1 & ts2 & Hts & Hg & Hl). destruct (peek_left _ _ Hl) as (s2 & Hp & Hs2). rewrite Hp. unfold gets.
  destruct (c_left s2) as [|x l]; [|done]. intros [= <- <- _]. rewrite (proj1 Hs2 eq_refl), app_nil_r in Hts. by rewrite Hts.
Qed.

(** C20: For every line, [parsecmd] ends, and it decides the shell's grammar: a line whose tokens the grammar
    derives gives the tree of the derivation and the buffer with NULs at the ends of the words; for any
    other line it panics. In particular no line has two trees. *)
Theorem parsecmd_decides_grammar s :
  (exists c s', g_line (lex s) c /\ parsecmd s = Ok (c, nulterminate c (s ++ [0])) s' /\ forall c', g_line (lex s) c' -> c' = c) \/
  ((forall c, ~ g_line (lex s) c) /\ exists msg, parsecmd s = Panic msg).
Proof.
  pose proof (lexes_length _ _ (lex_lexes s)) as Hlen. cbn [c_left] in Hlen.
  assert (forall c, g_line (lex s) c -> exists s', parsecmd s = Ok (c, nulterminate c (s ++ [0])) s') as Hcomp.
  { intros c Hg. assert (wp (parseline (4 * length s + 4)) (Cur 0 s) (fun c' s' => c' = c /\ lexes s' [])) as (c' & s1 & He & -> & Hl)%wp_ok.
    { apply (proj1 parse_complete _ _ Hg _ _ []); [rewrite app_nil_r; apply lex_lexes|by left|lia|done]. }
    destruct (peek_left _ _ Hl) as (s2 & Hp & Hs2). exists s2. unfold parsecmd, mbind, M_bind. rewrite He, Hp. unfold gets.
    by rewrite (proj2 Hs2 eq_refl). }
  pose proof (proj1 (takes_all (4 * length s + 4)) (Cur 0 s) (lex s) (lex_lexes s) ltac:(lia)) as Ht. unfold takes, tot in Ht.
  destruct (parseline (4 * length s + 4) (Cur 0 s)) as [c s1|msg| | |] eqn:He; [|right|done..].
  - destruct Ht as (ts1 & ts2 & Hts & Hg & Hl). destruct (peek_left _ _ Hl) as (s2 & Hp & Hs2).
    destruct ts2 as [|t ts2].
    + rewrite app_nil_r in Hts. rewrite <- Hts in Hg. left. destruct (Hcomp c Hg) as (s' & Hc). exists c, s'. split_and!; [done|done|].
      intros c' Hg'. destruct (Hcomp c' Hg') as (s'' & Hc'). congruence.
    + right. assert (parsecmd s = Panic "syntax") as Hpanic.
      { unfold parsecmd, mbind, M_bind. rewrite He, Hp. unfold gets. destruct (c_left s2); [|done]. discriminate (proj1 Hs2 eq_refl). }
      split; [|by exists "syntax"%string]. intros c' Hg'. destruct (Hcomp c' Hg') as (s'' & Hc'). congruence.
  - assert (parsecmd s = Panic msg) as Hpanic by (unfold parsecmd, mbind, M_bind; by rewrite He).
    split; [|by exists msg]. intros c' Hg'. destruct (Hcomp c' Hg') as (s'' & Hc'). congruence.
Qed.

(** ** The words of a command *)

Fixpoint words (c : cmd) : list (nat * nat) :=
  match c with
  | EXEC argv => argv
  | REDIR c file efile _ _ => words c ++ [(file, efile)]
  | PIPE l r | LIST l r => words l ++ words r
  | BACK c => words c
  end.

(** A cursor in the line [s]. *)
Definition inside (s : list Z) (k : cur) : Prop := (c_pos k <= length s)%nat /\ c_left k = drop (c_pos k) s.

Lemma inside_skip f s n l : (n <= length s)%nat -> l = drop n s ->
  let k := skip f n l in
  inside s k /\ (n <= c_pos k)%nat /\ (forall i c, (n <= i < c_pos k)%nat -> s !! i = Some c -> f c = true) /\
  (forall c, s !! c_pos k = Some c -> f c = false).
Proof.
  revert n. induction l as [|c l IH]; intros n Hn Hl; cbn [skip].
  - split_and!; cbn; [by split|lia|lia|]. intros c Hc. apply (f_equal length) in Hl. rewrite length_drop in Hl.
    apply lookup_lt_Some in Hc. simpl in Hl. lia.
  - assert (s !! n = Some c) as Hc by (rewrite <- (Nat.add_0_r n), <- lookup_drop, <- Hl; done).
    assert (l = drop (S n) s) as Hl' by (rewrite <- Nat.add_1_r, <- drop_drop, <- Hl; done).
    pose proof (lookup_lt_Some _ _ _ Hc) as Hlt. destruct (f c) eqn:Hf.
    + destruct (IH (S n) Hlt Hl') as (Hi & Hle & Hall & Hend). split_and!; [done|lia| |done].
      intros i d Hid Hd. destruct (decide (i = n)) as [->|]; [congruence|]. apply (Hall i d); [lia|done].
    + split_and!; cbn; [by split|lia|lia|]. intros d Hd. congruence.
Qed.

Lemma inside_next s k c l : inside s k -> c_left k = c :: l -> inside s (next k).
Proof.
  intros [Hp Hl] Hc. rewrite Hl in Hc. assert (s !! c_pos k = Some c) as Hs by (rewrite <- (Nat.add_0_r (c_pos k)), <- lookup_drop, Hc; done).
  pose proof (lookup_lt_Some _ _ _ Hs). split; [simpl; lia|]. simpl. rewrite Hl, Hc. simpl. by rewrite <- Nat.add_1_r, <- drop_drop, Hc.
Qed.

(** A token that is a word has its characters between its ends, and none at its end. *)
Definition word_at (s : list Z) (q e : nat) : Prop :=
  (q <= e <= length s)%nat /\ (forall i c, (q <= i < e)%nat -> s !! i = Some c -> wordchar c = true) /\
  (forall c, s !! e = Some c -> wordchar c = false).

Lemma gettoken_inside s k t k' :
  inside s k -> gettoken k = Ok t k' -> inside s k' /\ (t_kind t = 97 -> word_at s (t_q t) (t_eq t)).
Proof.
  intros [Hp Hl]. unfold gettoken. destruct (inside_skip whitespace s (c_pos k) (c_left k) Hp Hl) as (Hi1 & _ & _ & _).
  change (skip whitespace (c_pos k) (c_left k)) with (skip_while whitespace k) in Hi1. set (k1 := skip_while whitespace k) in *.
  assert (forall k2, inside s k2 -> inside s (skip_while whitespace k2)) as Hws.
  { intros k2 [Hp2 Hl2]. apply (inside_skip whitespace s (c_pos k2) (c_left k2) Hp2 Hl2). }
  destruct (c_left k1) as [|c l] eqn:Hk1; [intros [= <- <-]; split; [by apply Hws|done]|].
  pose proof (inside_next s k1 c l Hi1 Hk1) as Hn. destruct (bool_decide _) eqn:Hb.
  { intros [= <- <-]. split; [by apply Hws|]. cbn [t_kind]. intros ->. done. }
  destruct (c =? 62).
  { unfold here. destruct (c_left (next k1)) as [|d l2] eqn:Hd; cbn [head default].
    - intros [= <- <-]. split; [by apply Hws|done].
    - destruct (id d =? 62); intros [= <- <-]; (split; [|done]); apply Hws; [by apply (inside_next s (next k1) d l2)|done]. }
  intros [= <- <-]. destruct Hi1 as [Hp1 Hl1]. destruct (inside_skip wordchar s (c_pos k1) (c_left k1) Hp1 Hl1) as (Hi2 & Hle & Hall & Hend).
  split; [by apply Hws|]. intros _. cbn [t_q t_eq]. split; [split; [done|apply Hi2]|done].
Qed.

Lemma lexes_words s k ts : lexes k ts -> inside s k -> Forall (fun t => t_kind t = 97 -> word_at s (t_q t) (t_eq t)) ts.
Proof.
  induction 1 as [|k t k' ts Ht Hk H IH]; intros Hi; [constructor|]. destruct (gettoken_inside s k t k' Hi Ht) as [Hi' Hw].
  constructor; [done|by apply IH].
Qed.

(** Every word of the tree is a token. *)
Definition worded (ts : list tok) (c : cmd) : Prop :=
  forall q e, (q, e) ∈ words c -> exists t, t ∈ ts /\ t_kind t = 97 /\ t_q t = q /\ t_eq t = e.

Definition redir_words (rs : list redir) : list (nat * nat) := (fun r => (r_file r, r_efile r)) <$> rs.

Lemma words_redirs c rs : words (foldl redircmd c rs) = words c ++ redir_words rs.
Proof.
  revert c. induction rs as [|r rs IH]; intros c; simpl; [by rewrite app_nil_r|]. rewrite IH. simpl. by rewrite <- app_assoc.
Qed.

Lemma words_backs n c : words (backs n c) = words c.
Proof. induction n as [|n IH]; [done|]. exact IH. Qed.

Lemma g_redirs_worded ts rs : g_redirs ts rs -> forall q e, (q, e) ∈ redir_words rs -> exists t, t ∈ ts /\ t_kind t = 97 /\ t_q t = q /\ t_eq t = e.
Proof.
  induction 1 as [|t w ts rs Ht Hw Hg IH]; intros q e; simpl; [by intros ?%not_elem_of_nil|]. rewrite elem_of_cons. intros [[= -> ->]|Hin].
  - exists w. unfold redirect. destruct (t_kind t =? 60); simpl; (split_and!; [set_solver|done|done|done]).
  - destruct (IH q e Hin) as (x & Hx & ?). exists x. split; [set_solver|done].
Qed.

Lemma g_args_worded ts argv rs : g_args ts argv rs ->
  forall q e, (q, e) ∈ argv ++ redir_words rs -> exists t, t ∈ ts /\ t_kind t = 97 /\ t_q t = q /\ t_eq t = e.
Proof.
  induction 1 as [|w ts rs ts' argv rs' Hw Hr Hg IH]; intros q e; simpl; [by intros ?%not_elem_of_nil|].
  unfold redir_words. rewrite fmap_app. fold (redir_words rs) (redir_words rs'). rewrite elem_of_cons, !elem_of_app.
  intros [[= -> ->]|[Hin|[Hin|Hin]]]; [exists w; split_and!; [set_solver|done|done|done]| | |].
  - destruct (IH q e ltac:(set_solver)) as (x & Hx & ?). exists x. split; [set_solver|done].
  - destruct (g_redirs_worded ts rs Hr q e Hin) as (x & Hx & ?). exists x. split; [set_solver|done].
  - destruct (IH q e ltac:(set_solver)) as (x & Hx & ?). exists x. split; [set_solver|done].
Qed.

Lemma worded_mono ts ts' c : worded ts c -> (forall t, t ∈ ts -> t ∈ ts') -> worded ts' c.
Proof. intros Hw Hs q e Hin. destruct (Hw q e Hin) as (t & Ht & ?). exists t. auto. Qed.

Lemma worded_two ts c c' c'' : worded ts c -> worded ts c' -> words c'' = words c ++ words c' -> worded ts c''.
Proof. intros H1 H2 Hw q e. rewrite Hw, elem_of_app. intros [Hin|Hin]; [by apply H1|by apply H2]. Qed.

Lemma g_worded :
  (forall ts c, g_line ts c -> worded ts c) /\ (forall ts c, g_pipe ts c -> worded ts c) /\ (forall ts c, g_exec ts c -> worded ts c).
Proof.
  apply (g_mut (fun ts c _ => worded ts c) (fun ts c _ => worded ts c) (fun ts c _ => worded ts c)).
  - intros ts c bs _ IH _ q e. rewrite words_backs. apply (worded_mono _ _ _ IH). set_solver.
  - intros ts c bs t ts' c' _ IH _ _ _ IH'. eapply (worded_two _ c c'); [eapply worded_mono; [exact IH|set_solver]|eapply worded_mono; [exact IH'|set_solver]|].
    simpl. by rewrite words_backs.
  - done.
  - intros ts c t ts' c' _ IH _ _ IH'. eapply (worded_two _ c c'); [eapply worded_mono; [exact IH|set_solver]|eapply worded_mono; [exact IH'|set_solver]|done].
  - intros t ts c t' ts' rs _ _ IH _ Hr q e. rewrite words_redirs, elem_of_app. intros [Hin|Hin].
    + apply (worded_mono _ _ _ IH); [set_solver|done].
    + destruct (g_redirs_worded _ _ Hr q e Hin) as (x & Hx & ?). exists x. split; [set_solver|done].
  - intros ts rs ts' argv rs' Hr Ha _ q e. rewrite words_redirs. unfold redir_words. rewrite fmap_app. fold (redir_words rs) (redir_words rs').
    rewrite !elem_of_app. intros Hin. assert ((q, e) ∈ redir_words rs \/ (q, e) ∈ argv ++ redir_words rs') as [H1|H1] by (rewrite elem_of_app; simpl in Hin; tauto).
    + destruct (g_redirs_worded _ _ Hr q e H1) as (x & Hx & ?). exists x. split; [set_solver|done].
    + destruct (g_args_worded _ _ _ Ha q e H1) as (x & Hx & ?). exists x. split; [set_solver|done].
Qed.

(** [nulterminate] writes at the ends of the words and nowhere else. *)
Definition nuls (es : list nat) (l : list Z) : list Z := foldl (fun l e => <[e := 0]> l) l es.

Lemma nulterminate_nuls c l : nulterminate c l = nuls (words c).*2 l.
Proof.
  unfold nuls. revert l. induction c as [argv|c IH f e m d|c1 IH1 c2 IH2|c1 IH1 c2 IH2|c IH]; intros l; simpl; try done.
  - revert l. induction argv as [|a argv IH]; intros l; [done|]. apply IH.
  - by rewrite IH, fmap_app, foldl_app.
  - by rewrite IH1, IH2, fmap_app, foldl_app.
  - by rewrite IH1, IH2, fmap_app, foldl_app.
Qed.

Lemma nuls_out es l i : i ∉ es -> nuls es l !! i = l !! i.
Proof.
  revert l. induction es as [|e es IH]; intros l Hi; [done|]. apply not_elem_of_cons in Hi as [Hne Hi]. simpl.
  change (nuls es (<[e := 0]> l) !! i = l !! i). rewrite IH by done. by rewrite list_lookup_insert_ne.
Qed.

Lemma nuls_in es l i : i ∈ es -> (i < length l)%nat -> nuls es l !! i = Some 0.
Proof.
  revert l. induction es as [|e es IH]; intros l Hi Hl; [by apply not_elem_of_nil in Hi|]. simpl. change (nuls es (<[e := 0]> l) !! i = Some 0).
  destruct (decide (i ∈ es)) as [Hin|Hin]; [apply IH; [done|by rewrite length_insert]|]. apply elem_of_cons in Hi as [->|]; [|done].
  rewrite nuls_out by done. by apply list_lookup_insert_eq.
Qed.

(** The string between two positions. *)
Lemma cstr_between (l : list Z) q e : (q <= e)%nat -> l !! e = Some 0 -> (forall i, (q <= i < e)%nat -> exists c, l !! i = Some c /\ c <> 0) ->
  cstr (drop q l) = take (e - q) (drop q l).
Proof.
  intros Hqe He. revert q Hqe. assert (forall n q, n = (e - q)%nat -> (q <= e)%nat -> (forall i, (q <= i < e)%nat -> exists c, l !! i = Some c /\ c <> 0) ->
    cstr (drop q l) = take n (drop q l)) as H; [|intros q Hq; by apply H].
  induction n as [|n IH]; intros q Hn Hq Hall.
  - assert (q = e) as -> by lia. rewrite (drop_S l 0 e He). done.
  - destruct (Hall q ltac:(lia)) as (c & Hc & Hc0). rewrite (drop_S l c q Hc). simpl. rewrite (proj2 (Z.eqb_neq c 0) Hc0). f_equal.
    apply IH; [lia|lia|]. intros i Hi. apply Hall. lia.
Qed.

(** When [parsecmd] accepts a line without NULs, every argument and every file name that [runcmd] finds in
    the buffer is the whole word of the line between the positions recorded for it: the NULs written
    over the ends of words fall on blanks, symbols or the end of the line, never into another word. *)
Theorem parsecmd_words s c buf s' q e :
  Forall (fun c => c <> 0) s -> parsecmd s = Ok (c, buf) s' -> (q, e) ∈ words c ->
  cstr (drop q buf) = take (e - q) (drop q s) /\ word_at s q e.
Proof.
  intros Hs Hp Hw. destruct (parsecmd_tree s c buf s' Hp) as [Hg ->]. rewrite nulterminate_nuls.
  assert (forall q e, (q, e) ∈ words c -> word_at s q e) as Hword.
  { intros q' e' Hin. destruct (proj1 g_worded _ _ Hg q' e' Hin) as (t & Ht & Hk & <- & <-).
    assert (inside s (Cur 0 s)) as Hi by (split; [simpl; lia|done]).
    pose proof (lexes_words s _ _ (lex_lexes s) Hi) as Hall. rewrite Forall_forall in Hall. by apply Hall. }
  split; [|by apply Hword]. destruct (Hword q e Hw) as ((Hqe & Hel) & Hchars & Hend).
  assert (forall i, (q <= i < e)%nat -> nuls (words c).*2 (s ++ [0]) !! i = s !! i) as Hkeep.
  { intros i Hi. rewrite nuls_out; [apply lookup_app_l; lia|]. intros ((q' & e') & -> & Hin)%list_elem_of_fmap.
    destruct (Hword q' e' Hin) as (_ & _ & Hend'). destruct (lookup_lt_is_Some_2 s e') as [d Hd]; [simpl in *; lia|].
    simpl in Hi. specialize (Hend' d Hd). rewrite (Hchars e' d Hi Hd) in Hend'. done. }
  rewrite (cstr_between _ q e Hqe).
  - apply list_eq. intros i. destruct (decide (i < e - q)%nat) as [Hi|Hi].
    + rewrite !lookup_take_lt by lia. rewrite !lookup_drop. apply Hkeep. lia.
    + by rewrite !lookup_take_ge by lia.
  - apply nuls_in; [apply list_elem_of_fmap; by exists (q, e)|rewrite length_app; simpl; lia].
  - intros i Hi. rewrite Hkeep by done. destruct (lookup_lt_is_Some_2 s i) as [d Hd]; [lia|]. exists d. split; [done|].
    by apply (Forall_lookup_1 _ _ _ _ Hs Hd).
Qed.

(** The line [ls | wc > x]. *)
Definition sample : list Z := [108; 115; 32; 124; 32; 119; 99; 32; 62; 32; 120].

Lemma parsecmd_words_witness :
  exists c buf s', parsecmd sample = Ok (c, buf) s' /\ c = PIPE (EXEC [(0%nat, 2%nat)]) (REDIR (EXEC [(5%nat, 7%nat)]) 10 11 513 1) /\
    cstr (drop 5 buf) = [119; 99].
Proof.
  destruct (parsecmd sample) as [[c buf] s'| | | |] eqn:He; try (vm_compute in He; discriminate).
  exists c, buf, s'. assert (c = PIPE (EXEC [(0%nat, 2%nat)]) (REDIR (EXEC [(5%nat, 7%nat)]) 10 11 513 1)) as Hc by (vm_compute in He; congruence).
  split; [reflexivity|]. split; [exact Hc|]. destruct (parsecmd_words sample c buf s' 5 7) as [Hw _].
  - repeat (constructor; [discriminate|]). constructor.
  - exact He.
  - rewrite Hc. simpl. right. left.
  - exact Hw.
Defined.
