(* ===== verification/Ext2Spec.v ===== *)
(** Files and directories of the ext2 file system: what [readi], [writei] and
    [dirlookup] of ext2fs.c do on a file whose blocks are direct or behind the
    single indirect block, and where the double indirect blocks and the bitmaps
    go wrong. *)

From S2P Require Import Prelude Bytes Sleeplock Buf Ring Memide Bio Cache Log Inode Xv6fs Example Ext2fs CString Vfs FileSpec ReadWrite.

Section Ext2.
Context {D : Type} `{DiskDriver D}.
Implicit Types s : fsst D.

(** Behind the double indirect block [ext2fs_bmap] uses the same index at both levels, so that 256
    consecutive blocks of a file are one block of the disk: for two block numbers in the same run it
    does the same thing in every state. *)
Theorem ext2_bmap_aliases ip bn bn' s :
  268 <= bn < 65804 -> 268 <= bn' < 65804 -> (bn - 268) / 256 = (bn' - 268) / 256 ->
  ext2fs_bmap ip bn s = ext2fs_bmap ip bn' s.
Proof.
  intros Hb Hb' Heq. unfold ext2fs_bmap. change (Z.of_nat EXT2_NDIR_BLOCKS) with 12. change EXT2_INDIRECT with 256. change EXT2_DINDIRECT with 65536.
  rewrite !(proj2 (Z.ltb_ge _ 12)), !(proj2 (Z.ltb_ge _ 256)), !(proj2 (Z.ltb_lt _ 65536)) by lia.
  replace (bn - 12 - 256) with (bn - 268) by lia. replace (bn' - 12 - 256) with (bn' - 268) by lia. by rewrite Heq.
Qed.
End Ext2.


(** ** Blocks of the device, through the buffer cache *)

Lemma room_nil dev b : room [] ∅ dev b.
Proof. split; [apply not_elem_of_nil|]. left. unfold NBUF. rewrite size_empty. simpl. lia. Qed.

Section EFile.
Context {D : Type} `{DiskDriver D} `{!DiskDriverLaws D}.
Context (V : Z -> Z -> Prop) (pid dev : Z).
Implicit Types (s : fsst D) (v d : blocks) (A : list Z) (hs : list handle) (P : gset (Z * Z)).

(** The state with another buffer cache; the cache of [s] has the blocks [v] over the disk [d]. *)
Definition at_bio (t : bstate D) s : fsst D := set_log (set_bio t (fs_log s)) s.
Definition erep s v d h hs P : Prop := rep V pid (lg_bio (fs_log s)) v d h hs P.

Lemma at_bio_twice t t' s : at_bio t' (at_bio t s) = at_bio t' s.
Proof. done. Qed.
Lemma at_bio_id s : at_bio (lg_bio (fs_log s)) s = s.
Proof. by destruct s as [[] ? ? ? ? ?]. Qed.

Lemma wp_dbuf {X} (m : M (bstate D) X) s (Q : X -> fsst D -> Prop) :
  wp m (lg_bio (fs_log s)) (fun a t => Q a (at_bio t s)) -> wp (dbuf m) s Q.
Proof. intros Hw. apply wp_zoom, wp_zoom. exact Hw. Qed.

Lemma wpe_bread s v d h hs P b (Q : nat -> fsst D -> Prop) :
  erep s v d h hs P -> V dev b -> room hs P dev b ->
  (forall i t, erep (at_bio t s) v d h ((i, (dev, b)) :: hs) P -> Q i (at_bio t s)) -> wp (dbuf (bread dev b)) s Q.
Proof. intros Hr HV Hroom HQ. eapply wp_dbuf, wpc_bread; [exact Hr|done|done|]. intros i t Ht. by apply HQ. Qed.

Lemma wpe_bdata s v d h hs P i b (Q : list Z -> fsst D -> Prop) :
  erep s v d h hs P -> (i, (dev, b)) ∈ hs -> Q (v dev b) s -> wp (dbuf (bdata i)) s Q.
Proof. intros Hr Hi HQ. eapply wp_dbuf, wpc_bdata; [exact Hr|exact Hi|]. by rewrite at_bio_id. Qed.

Lemma wpe_brelse s v d h hs hs' P i b (Q : unit -> fsst D -> Prop) :
  erep s v d h hs P -> hs ≡ₚ (i, (dev, b)) :: hs' -> (dev, b) ∈ P \/ v dev b = d dev b ->
  (forall t, erep (at_bio t s) v d h hs' P -> Q tt (at_bio t s)) -> wp (dbuf (brelse i)) s Q.
Proof. intros Hr Hp Hc HQ. eapply wp_dbuf, wpc_brelse; [exact Hr|exact Hp|exact Hc|]. intros t Ht. by apply HQ. Qed.

(** A block is read and given back: what follows sees its bytes and the same blocks. *)
Lemma wpe_read {X} s v d h b (K : list Z -> M (fsst D) X) (Q : X -> fsst D -> Prop) :
  erep s v d h [] ∅ -> V dev b ->
  (forall t, erep (at_bio t s) v d h [] ∅ -> block_ok (v dev b) -> wp (K (v dev b)) (at_bio t s) Q) ->
  wp (bp ← dbuf (bread dev b); data ← dbuf (bdata bp); dbuf (brelse bp) ;; K data) s Q.
Proof.
  intros Hr HV HQ. assert (room [] ∅ dev b) as Hroom by apply room_nil.
  assert (v dev b = d dev b) as Hc by (eapply rep_clean; [exact Hr|done|set_solver|apply not_elem_of_nil]).
  eapply wp_bind, wpe_bread; [exact Hr|done|done|]. intros i t Ht. eapply wp_bind, wpe_bdata; [exact Ht|held|].
  eapply wp_bind, wpe_brelse; [exact Ht|take_out|by right|]. intros t' Ht'. rewrite at_bio_twice in *. apply HQ; [done|].
  by eapply rep_block_ok.
Qed.

(** ** Files *)

(** Cache entry [ip] holds the inode [x] with the addresses [A] in slot [k] of [ext2fs_addrs]. *)
Record eown s (ip : nat) (x : inode) (k : nat) A : Prop := {
  eo_at : fs_inode s !! ip = Some x;
  eo_dev : i_dev x = dev;
  eo_ptr : i_addrs x = Some (EAddrs k);
  eo_addrs : exists busy, fs_eaddrs s !! k = Some (Addrs busy A);
}.

Lemma eown_bio s t ip x k A : eown s ip x k A -> eown (at_bio t s) ip x k A.
Proof. by intros []. Qed.

Lemma wpe_inode_at s ip x k A (Q : inode -> fsst D -> Prop) : eown s ip x k A -> Q x s -> wp (inode_at ip) s Q.
Proof. intros [Hx _ _ _] HQ. unfold inode_at, wp. by rewrite Hx. Qed.

Lemma eo_inode s ip x k A : eown s ip x k A -> inode_at ip s = Ok x s.
Proof. intros [Hx _ _ _]. unfold inode_at. by rewrite Hx. Qed.

Lemma wp_eptr s ip x k A (Q : nat -> fsst D -> Prop) : eown s ip x k A -> Q k s -> wp (eptr ip) s Q.
Proof. intros Hi HQ. eapply wp_bind, wpe_inode_at; [exact Hi|]. by rewrite (eo_ptr _ _ _ _ _ Hi). Qed.

(** The single indirect block, and the disk block of block [bn] of the file. *)
Definition eind A : Z := default 0 (A !! EXT2_IND_BLOCK).
Definition eaddr v A (bn : Z) : Z :=
  if bn <? 12 then default 0 (A !! Z.to_nat bn) else word_at (v dev (eind A)) (Z.to_nat (bn - 12)).

(** The first [n] bytes of the file have blocks, all different. *)
Record emapped v A (n : Z) : Prop := {
  em_len : length A = EXT2_N_BLOCKS;
  em_size : 0 <= n <= 268 * 1024;
  em_addr bn : 0 <= bn -> bn * 1024 < n -> eaddr v A bn <> 0 /\ V dev (eaddr v A bn) /\ eaddr v A bn <> eind A;
  em_ind : 12 * 1024 < n -> eind A <> 0 /\ V dev (eind A);
  em_inj bn bn' : 0 <= bn -> bn * 1024 < n -> 0 <= bn' -> bn' * 1024 < n -> eaddr v A bn = eaddr v A bn' -> bn = bn';
}.

Lemma wp_eaddrs_at s ip x k A (Q : addrs -> fsst D -> Prop) :
  eown s ip x k A -> (forall busy, Q (Addrs busy A) s) -> wp (eaddrs_at k) s Q.
Proof. intros [_ _ _ [busy Ha]] HQ. unfold eaddrs_at, wp. rewrite Ha. apply HQ. Qed.

Lemma wp_alloc_addr s ip x k A slot addr dev' inum (Q : Z -> fsst D -> Prop) :
  eown s ip x k A -> A !! slot = Some addr -> addr <> 0 -> Q addr s -> wp (alloc_addr k slot dev' inum) s Q.
Proof.
  intros Hi Hs Hne HQ. eapply wp_bind, wp_eaddrs_at; [exact Hi|]. intros busy. eapply wp_bind, wp_deref; [exact Hs|].
  rewrite (proj2 (Z.eqb_neq addr 0)) by done. by apply wp_ret.
Qed.

(** A block that is there is found, and nothing is allocated. *)
Lemma wp_ext2_bmap s v d h ip x k A n bn (Q : Z -> fsst D -> Prop) :
  erep s v d h [] ∅ -> eown s ip x k A -> emapped v A n -> 0 <= bn -> bn * 1024 < n ->
  (forall t, erep (at_bio t s) v d h [] ∅ -> Q (eaddr v A bn) (at_bio t s)) -> wp (ext2fs_bmap ip bn) s Q.
Proof.
  intros Hr Hi Hm Hbn Hlt HQ. pose proof (em_size _ _ _ Hm) as Hsz. destruct (em_addr _ _ _ Hm bn Hbn Hlt) as (Hne & HV & _).
  unfold ext2fs_bmap. eapply wp_bind, wpe_inode_at; [exact Hi|]. eapply wp_bind, wp_eptr; [exact Hi|]. cbn zeta.
  rewrite (eo_dev _ _ _ _ _ Hi). change (Z.of_nat EXT2_NDIR_BLOCKS) with 12. change EXT2_INDIRECT with 256. unfold eaddr in *.
  destruct (Z.ltb_spec bn 12) as [H12|H12].
  - destruct (lookup_lt_is_Some_2 A (Z.to_nat bn)) as [a Ha]; [rewrite (em_len _ _ _ Hm); unfold EXT2_N_BLOCKS; lia|].
    rewrite Ha in *. cbn [default id] in *. eapply wp_alloc_addr; [exact Hi|exact Ha|done|]. rewrite <- (at_bio_id s). apply HQ. by rewrite at_bio_id.
  - rewrite (proj2 (Z.ltb_lt (bn - 12) 256)) by lia. destruct (em_ind _ _ _ Hm ltac:(lia)) as [Hi0 HVi].
    destruct (lookup_lt_is_Some_2 A EXT2_IND_BLOCK) as [a Ha]; [rewrite (em_len _ _ _ Hm); unfold EXT2_N_BLOCKS, EXT2_IND_BLOCK; lia|].
    unfold eind in *. rewrite Ha in *. cbn [default id] in *. eapply wp_bind, wp_alloc_addr; [exact Hi|exact Ha|done|].
    assert (room [] ∅ dev a) as Hroom by apply room_nil.
    assert (v dev a = d dev a) as Hc by (eapply rep_clean; [exact Hr|done|set_solver|apply not_elem_of_nil]).
    eapply wp_bind, wpe_bread; [exact Hr|done|done|]. intros i t Ht. destruct (rep_block_ok _ _ _ _ _ _ _ _ _ _ Hr HVi) as [Hlen _].
    eapply wp_bind. unfold alloc_word. eapply wp_bind, wpe_bdata; [exact Ht|held|].
    rewrite Hlen, (proj2 (Z.ltb_ge _ _)), (proj2 (Z.eqb_neq _ 0) Hne) by lia. apply wp_ret.
    eapply wp_bind, wpe_brelse; [exact Ht|take_out|by right|]. intros t' Ht'. apply wp_ret. rewrite at_bio_twice in *. by apply HQ.
Qed.

(** The bytes of the file. *)
Definition eblock v A (bn : Z) : list Z := v dev (eaddr v A bn).

Lemma wp_ext2_read_loop d h ip x k A v n fuel off left s (Q : list Z -> fsst D -> Prop) :
  erep s v d h [] ∅ -> eown s ip x k A -> emapped v A n -> 0 <= off -> 0 <= left -> off + left <= n -> needs fuel off left ->
  (forall t, erep (at_bio t s) v d h [] ∅ -> Q (bytes_of (eblock v A) off left) (at_bio t s)) ->
  wp (ext2fs_read_loop fuel ip off left) s Q.
Proof.
  intros Hr Hi Hm. revert s off left Hr Hi Q. induction fuel as [|fuel IH]; intros s off left Hr Hi Q Hoff Hleft Hn Hfuel HQ.
  { exfalso. destruct Hfuel. lia. }
  cbn [ext2fs_read_loop]. destruct (Z.leb_spec left 0) as [Hz|Hz].
  { replace left with 0 in * by lia. apply wp_ret. rewrite <- (at_bio_id s). apply HQ. by rewrite at_bio_id. }
  change EXT2_BSIZE with 1024. set (m := Z.min left (1024 - off mod 1024)).
  destruct (needs_next fuel off left m Hfuel Hz eq_refl Hoff) as (Hfuel' & Hm1 & Hml). clearbody m.
  assert (0 <= off / 1024 /\ off / 1024 * 1024 <= off) as [Hbn Hbo] by elia.
  destruct (em_addr _ _ _ Hm (off / 1024) Hbn ltac:(lia)) as (_ & HV & _).
  eapply wp_bind, wpe_inode_at; [exact Hi|]. eapply wp_bind, wp_ext2_bmap; [exact Hr|exact Hi|exact Hm|done|lia|]. intros t1 Hr1.
  rewrite (eo_dev _ _ _ _ _ Hi). eapply wpe_read; [exact Hr1|done|]. intros t2 Hr2 [Hlen _]. rewrite at_bio_twice in *.
  eapply wp_bind, IH; [exact Hr2|by apply eown_bio|lia|lia|lia|done|]. intros t3 Hr3. apply wp_ret. rewrite at_bio_twice in *.
  fold (eblock v A (off / 1024)). rewrite (slice_bytes_of (eblock v A)) by (done || lia). rewrite bytes_of_app by lia.
  replace (m + (left - m)) with left by lia. by apply HQ.
Qed.

Section Devices.
Context (devsw_read : Z -> option (nat -> Z -> M (fsst D) (Z * list Z))).

(** An ext2 file or directory with all of its blocks. *)
Record efile s v (ip : nat) (x : inode) (k : nat) A : Prop := {
  ef_own : eown s ip x k A;
  ef_ops : i_iops x = Some EXT2FS;
  ef_type : i_type x <> T_DEV;
  ef_map : emapped v A (i_size x);
}.

Lemma efile_bio s t v ip x k A : efile s v ip x k A -> efile (at_bio t s) v ip x k A.
Proof. intros []. split; [by apply eown_bio|done..]. Qed.

Definition econtents v (x : inode) A : list Z := bytes_of (eblock v A) 0 (i_size x).

Lemma wp_ext2_readi s v d h ip x k A off n (Q : Z * list Z -> fsst D -> Prop) :
  erep s v d h [] ∅ -> efile s v ip x k A -> 0 <= off <= i_size x -> 0 <= n < 2 ^ 31 ->
  (forall t, erep (at_bio t s) v d h [] ∅ ->
     let m := Z.min n (i_size x - off) in Q (m, slice (Z.to_nat off) (Z.to_nat m) (econtents v x A)) (at_bio t s)) ->
  wp (readi devsw_read ip off n) s Q.
Proof.
  intros Hr Hx Hoff Hn HQ. destruct Hx as [Hi Hops Hty Hm]. pose proof (em_size _ _ _ Hm) as Hsz.
  unfold Vfs.readi, ops_of. eapply wp_bind, wp_bind, wpe_inode_at; [exact Hi|]. rewrite Hops. apply wp_ret.
  unfold ext2fs_readi. eapply wp_bind, wpe_inode_at; [exact Hi|].
  rewrite (proj2 (Z.eqb_neq _ _) Hty), (proj2 (Z.ltb_ge _ _)) by lia.
  rewrite u32_small, (proj2 (Z.ltb_ge (off + n) off)) by lia. cbn [orb].
  set (m := Z.min n (i_size x - off)).
  assert ((if i_size x <? off + n then i_size x - off else n) = m) as ->.
  { unfold m. destruct (Z.ltb_spec (i_size x) (off + n)); lia. }
  assert (0 <= m /\ off + m <= i_size x /\ m <= n) as (Hm0 & Hm1 & Hm2) by (unfold m; lia).
  eapply wp_bind, wp_ext2_read_loop; [exact Hr|exact Hi|exact Hm|lia|lia|lia|apply rounds_enough; lia|].
  intros t Ht. apply wp_ret. rewrite s32_small by lia. unfold econtents in HQ. specialize (HQ t Ht). cbn zeta in HQ. fold m in HQ.
  rewrite slice_bytes_prefix in HQ by lia. exact HQ.
Qed.

(** ** Writing *)

Lemma wpe_bset s v d h hs P i b f (Q : unit -> fsst D -> Prop) :
  erep s v d h hs P -> (i, (dev, b)) ∈ hs -> block_ok (f (v dev b)) ->
  (forall t, erep (at_bio t s) (apply_write v (dev, b, f (v dev b))) d h hs P -> Q tt (at_bio t s)) -> wp (dbuf (bset i f)) s Q.
Proof. intros Hr Hi Hok HQ. eapply wp_dbuf, wpc_bset; [exact Hr|exact Hi|exact Hok|]. intros t Ht. by apply HQ. Qed.

Lemma wpe_bwrite s v d h hs P i b (Q : unit -> fsst D -> Prop) :
  erep s v d h hs P -> (i, (dev, b)) ∈ hs ->
  (forall t, erep (at_bio t s) v (apply_write d (dev, b, v dev b)) (h ++ [(dev, b, v dev b)]) hs (P ∖ {[(dev, b)]}) -> Q tt (at_bio t s)) ->
  wp (dbuf (bwrite i)) s Q.
Proof. intros Hr Hi HQ. eapply wp_dbuf, wpc_bwrite; [exact Hr|exact Hi|]. intros t Ht. by apply HQ. Qed.

Definition ebyte v A (o : Z) : Z := rd (eblock v A (o / 1024)) (o mod 1024).

(** [v'] is [v] with the bytes [src] at [off] of a file of [n] bytes, and nothing else changed. *)
Record ewrites v A (n : Z) v' (off : Z) (src : list Z) : Prop := {
  ew_bytes o : off <= o < off + Z.of_nat (length src) -> ebyte v' A o = rd src (o - off);
  ew_keep o : 0 <= o < n -> ~ (off <= o < off + Z.of_nat (length src)) -> ebyte v' A o = ebyte v A o;
  ew_else dev' b : (forall bn, 0 <= bn -> bn * 1024 < n -> (dev', b) <> (dev, eaddr v A bn)) -> v' dev' b = v dev' b;
}.

(** The indirect block is not a block of the file, so the addresses stay. *)
Lemma ewrites_eaddr v A n v' off src bn : emapped v A n -> ewrites v A n v' off src -> eaddr v' A bn = eaddr v A bn.
Proof.
  intros Hm Hw. unfold eaddr. rewrite (ew_else _ _ _ _ _ _ Hw); [done|]. intros k Hk Hkn [= He].
  by apply (em_addr _ _ _ Hm k Hk Hkn).
Qed.

Lemma ewrites_mapped v A n v' off src : emapped v A n -> ewrites v A n v' off src -> emapped v' A n.
Proof.
  intros Hm Hw. pose proof (fun bn => ewrites_eaddr v A n v' off src bn Hm Hw) as He. destruct Hm as [? ? Ha ? Hinj].
  split; [done|done|intros bn; rewrite He; apply Ha|done|intros bn bn'; rewrite !He; apply Hinj].
Qed.

Lemma ewrites_nil v A n off : ewrites v A n v off [].
Proof. split; [simpl; lia|done|done]. Qed.

Lemma ewrites_app v A n v1 v2 off src1 src2 :
  emapped v A n -> ewrites v A n v1 off src1 -> ewrites v1 A n v2 (off + Z.of_nat (length src1)) src2 -> 0 <= off ->
  off + Z.of_nat (length src1) <= n -> ewrites v A n v2 off (src1 ++ src2).
Proof.
  intros Hm H1 H2 Hoff Hn. pose proof (fun bn => ewrites_eaddr v A n v1 off src1 bn Hm H1) as He. split.
  - intros o. rewrite length_app. intros Ho. destruct (decide (o < off + Z.of_nat (length src1))) as [Hl|Hl].
    + rewrite (ew_keep _ _ _ _ _ _ H2), (ew_bytes _ _ _ _ _ _ H1) by lia. by rewrite rd_app_l by lia.
    + rewrite (ew_bytes _ _ _ _ _ _ H2), rd_app_r by lia. f_equal. lia.
  - intros o Ho. rewrite length_app. intros Hno. rewrite (ew_keep _ _ _ _ _ _ H2), (ew_keep _ _ _ _ _ _ H1) by lia. done.
  - intros dev' b Hb. rewrite (ew_else _ _ _ _ _ _ H2), (ew_else _ _ _ _ _ _ H1); [done|done|]. intros bn. rewrite He. apply Hb.
Qed.

(** One block of the file is written. *)
Lemma ewrites_block v A n off src :
  emapped v A n -> (forall bn, 0 <= bn -> bn * 1024 < n -> length (eblock v A bn) = 1024%nat) -> 0 <= off -> off < n ->
  off + Z.of_nat (length src) <= n -> off mod 1024 + Z.of_nat (length src) <= 1024 ->
  ewrites v A n (apply_write v (dev, eaddr v A (off / 1024), splice (Z.to_nat (off mod 1024)) src (eblock v A (off / 1024)))) off src.
Proof.
  intros Hm Hlen Hoff Hon Hn Hle. set (v' := apply_write _ _). assert (0 <= off / 1024 /\ off / 1024 * 1024 < n) as [Hb0 Hbn] by elia.
  assert (forall bn, eaddr v' A bn = eaddr v A bn) as He.
  { intros bn. unfold eaddr, v'. rewrite apply_write_ne; [done|]. intros [= Hi]. by apply (em_addr _ _ _ Hm (off / 1024) Hb0 Hbn). }
  assert (forall o, 0 <= o < n -> ebyte v' A o =
      if decide (off <= o < off + Z.of_nat (length src)) then rd src (o - off) else ebyte v A o) as Hbyte.
  { intros o Ho. unfold ebyte, eblock. rewrite He. destruct (decide (o / 1024 = off / 1024)) as [Hq|Hq].
    - unfold v', apply_write. rewrite Hq, decide_True by done. cbn [snd]. unfold rd. fold (eblock v A (off / 1024)).
      rewrite lookup_splice by (rewrite Hlen by done; elia). destruct (decide (off <= o < _)) as [Hin|Hin].
      + rewrite decide_True by elia. do 2 f_equal. elia.
      + rewrite decide_False by elia. done.
    - rewrite decide_False by elia. unfold v'. rewrite apply_write_ne; [done|]. intros [= Ha]. apply Hq.
      apply (em_inj _ _ _ Hm); [elia|elia|done|done|done]. }
  split.
  - intros o Ho. rewrite Hbyte by lia. by rewrite decide_True.
  - intros o Ho Hno. rewrite Hbyte by lia. by rewrite decide_False.
  - intros dev' b Hb. apply apply_write_ne. intros Heq. by apply (Hb (off / 1024)).
Qed.

Lemma wp_ext2_write_loop ip x k A n fuel : forall off left src s v d h (Q : Z -> fsst D -> Prop),
  erep s v d h [] ∅ -> eown s ip x k A -> emapped v A n -> bytes_ok src ->
  0 <= off -> left = Z.of_nat (length src) -> off + left <= n -> needs fuel off left ->
  (forall t v' d' h', erep (at_bio t s) v' d' h' [] ∅ -> ewrites v A n v' off src -> Q (off + left) (at_bio t s)) ->
  wp (ext2fs_write_loop fuel ip src off left) s Q.
Proof.
  induction fuel as [|fuel IH]; intros off left src s v d h Q Hr Hi Hm Hsrc Hoff Hleft Hn Hfuel HQ.
  { exfalso. destruct Hfuel. lia. }
  cbn [ext2fs_write_loop]. destruct (Z.leb_spec left 0) as [Hz|Hz].
  { destruct src; [|simpl in Hleft; lia]. subst left. apply wp_ret. rewrite <- (at_bio_id s). replace off with (off + Z.of_nat (length (@nil Z))) at 1 by (simpl; lia).
    eapply HQ; [rewrite at_bio_id; exact Hr|apply ewrites_nil]. }
  change EXT2_BSIZE with 1024. set (m := Z.min left (1024 - off mod 1024)).
  destruct (needs_next fuel off left m Hfuel Hz eq_refl Hoff) as (Hfuel' & Hm1 & Hml). clearbody m.
  assert (0 <= off / 1024 /\ off / 1024 * 1024 <= off) as [Hbn Hbo] by elia.
  set (src1 := take (Z.to_nat m) src). assert (Z.of_nat (length src1) = m) as Hl1 by (unfold src1; rewrite length_take; lia).
  destruct (em_addr _ _ _ Hm (off / 1024) Hbn ltac:(lia)) as (_ & HV & _).
  assert (forall bn, 0 <= bn -> bn * 1024 < n -> block_ok (eblock v A bn)) as Hok.
  { intros bn ? ?. eapply rep_block_ok; [exact Hr|]. by apply (em_addr _ _ _ Hm bn). }
  pose proof (Hok (off / 1024) Hbn ltac:(lia)) as [Hblen Hbb].
  assert (room [] ∅ dev (eaddr v A (off / 1024))) as Hroom by apply room_nil.
  eapply wp_bind, wpe_inode_at; [exact Hi|]. eapply wp_bind, wp_ext2_bmap; [exact Hr|exact Hi|exact Hm|done|lia|]. intros t1 Hr1.
  rewrite (eo_dev _ _ _ _ _ Hi). eapply wp_bind, wpe_bread; [exact Hr1|done|done|]. intros i t2 Hr2.
  eapply wp_bind, wpe_bset; [exact Hr2|held| |].
  { split; [rewrite length_splice; [done|fold (eblock v A (off / 1024)); rewrite Hblen; elia]|]. apply Forall_splice; [by apply Forall_take|done]. }
  intros t3 Hr3. eapply wp_bind, wpe_bwrite; [exact Hr3|held|]. intros t4 Hr4.
  eapply wp_bind, wpe_brelse; [exact Hr4|take_out|right; unfold apply_write; by rewrite !decide_True|]. intros t5 Hr5.
  rewrite !at_bio_twice in *. replace (∅ ∖ {[(dev, eaddr v A (off / 1024))]}) with (∅ : gset (Z * Z)) in Hr5 by set_solver. fold (eblock v A (off / 1024)) in Hr5. fold src1 in Hr5.
  pose proof (ewrites_block v A n off src1 Hm (fun bn H0 H1 => proj1 (Hok bn H0 H1)) Hoff ltac:(lia) ltac:(lia) ltac:(lia)) as Hw1.
  eapply IH; [exact Hr5|by apply eown_bio|by eapply ewrites_mapped|by apply Forall_drop|lia|rewrite length_drop; lia|lia|done|].
  intros t v' d' h' Hr' Hw2. rewrite at_bio_twice in *. replace (off + m + (left - m)) with (off + left) by lia. eapply HQ; [exact Hr'|].
  rewrite <- (take_drop (Z.to_nat m) src). fold src1. replace (off + m) with (off + Z.of_nat (length src1)) in Hw2 by lia.
  eapply ewrites_app; [exact Hm|exact Hw1|exact Hw2|lia|lia].
Qed.

Section Write.
Context (devsw_write : Z -> option (nat -> list Z -> Z -> M (fsst D) Z)).

Lemma econtents_writes v x A v' off src :
  emapped v A (i_size x) -> ewrites v A (i_size x) v' off src -> 0 <= off -> off + Z.of_nat (length src) <= i_size x ->
  econtents v' x A = overwrite (Z.to_nat off) src (econtents v x A).
Proof.
  intros Hm Hw Hoff Hn. pose proof (em_size _ _ _ Hm) as Hsz. unfold econtents. apply (list_eq_same_length _ _ (Z.to_nat (i_size x))).
  - rewrite length_overwrite, length_bytes_of by (rewrite length_bytes_of; lia). lia.
  - apply length_bytes_of.
  - intros i a b Hi Ha Hb. rewrite lookup_bytes_of in Ha by done. injection Ha as <-. fold (ebyte v' A (0 + Z.of_nat i)).
    rewrite lookup_overwrite in Hb by (rewrite length_bytes_of; lia). case_decide as Hin.
    + rewrite (ew_bytes _ _ _ _ _ _ Hw) by lia. unfold rd. replace (Z.to_nat (0 + Z.of_nat i - off)) with (i - Z.to_nat off)%nat by lia. by rewrite Hb.
    + rewrite lookup_bytes_of in Hb by done. injection Hb as <-. apply (ew_keep _ _ _ _ _ _ Hw); lia.
Qed.

Lemma wp_ext2_writei s v d h ip x k A src off (Q : Z -> fsst D -> Prop) :
  erep s v d h [] ∅ -> efile s v ip x k A -> bytes_ok src -> 0 <= off -> off + Z.of_nat (length src) <= i_size x ->
  (forall t v' d' h', erep (at_bio t s) v' d' h' [] ∅ -> efile (at_bio t s) v' ip x k A ->
     econtents v' x A = overwrite (Z.to_nat off) src (econtents v x A) -> ewrites v A (i_size x) v' off src ->
     Q (Z.of_nat (length src)) (at_bio t s)) ->
  wp (writei devsw_write ip src off (Z.of_nat (length src))) s Q.
Proof.
  intros Hr Hx Hsrc Hoff Hn HQ. pose proof Hx as [Hi Hops Hty Hm]. pose proof (em_size _ _ _ Hm) as Hsz. set (n := Z.of_nat (length src)) in *.
  unfold Vfs.writei, ops_of. eapply wp_bind, wp_bind, wpe_inode_at; [exact Hi|]. rewrite Hops. apply wp_ret.
  unfold ext2fs_writei, writei_with. eapply wp_bind, wpe_inode_at; [exact Hi|].
  rewrite (proj2 (Z.eqb_neq _ _) Hty), (proj2 (Z.ltb_ge (i_size x) off)) by lia.
  rewrite (u32_small (off + n)), (proj2 (Z.ltb_ge (off + n) off)) by lia. cbn [orb].
  change (u32 (EXT2_MAXFILE * EXT2_BSIZE)) with 67383296. rewrite (proj2 (Z.ltb_ge 67383296 (off + n))) by lia.
  rewrite (proj2 (Z.ltb_ge (Z.of_nat (length src)) n)) by lia.
  eapply wp_bind, wp_ext2_write_loop; [exact Hr|exact Hi|exact Hm|done|lia|done|lia|apply rounds_enough; lia|].
  intros t v' d' h' Hr' Hw. eapply wp_bind, wpe_inode_at; [by apply eown_bio|].
  rewrite (proj2 (Z.ltb_ge (i_size x) (off + n))), andb_false_r by lia. apply wp_bind, wp_ret, wp_ret. rewrite s32_small by lia.
  eapply HQ; [exact Hr'| |by eapply econtents_writes|done].
  split; [by apply eown_bio|done|done|by eapply ewrites_mapped].
Qed.


End Write.

(** ** Directories *)

(** The record at an offset of a directory with the bytes [c], its name, and the test of [ext2fs_dirlookup]. *)
Definition entry_at (c : list Z) (off : Z) : list Z := slice (Z.to_nat off) 264 c.
Definition ename (de : list Z) : list Z := take (Z.to_nat (e_name_len de)) (cstr (e_name de)).
Definition matches (name : list Z) (de : list Z) : Prop := e_inode de <> 0 /\ ename de = take EXT2_NAME_LEN (cstr name).
#[local] Instance matches_dec name de : Decision (matches name de).
Proof. unfold matches. apply _. Defined.

Lemma rd_ok l i : bytes_ok l -> byte_ok (rd l i).
Proof.
  intros Hl. unfold rd. destruct (l !! Z.to_nat i) as [c|] eqn:Hc; [exact (Forall_lookup_1 _ _ _ _ Hl Hc)|]. by split.
Qed.

Lemma econtents_ok s v d h ip x k A : erep s v d h [] ∅ -> efile s v ip x k A -> bytes_ok (econtents v x A).
Proof.
  intros Hr Hx. apply Forall_lookup_2. intros i c Hc. pose proof (lookup_lt_Some _ _ _ Hc) as Hlt. unfold econtents in *.
  rewrite length_bytes_of in Hlt. rewrite lookup_bytes_of in Hc by done. injection Hc as <-. apply rd_ok.
  destruct (em_addr _ _ _ (ef_map _ _ _ _ _ _ Hx) ((0 + Z.of_nat i) / 1024)) as (_ & HV & _); [elia|elia|].
  apply (rep_block_ok _ _ _ _ _ _ _ _ _ _ Hr HV).
Qed.

Lemma cstr_idem l : cstr (cstr l) = cstr l.
Proof. induction l as [|c l IH]; [done|]. simpl. destruct (Z.eqb_spec c 0) as [|Hc]; [done|]. simpl. rewrite (proj2 (Z.eqb_neq c 0) Hc). by rewrite IH. Qed.

Lemma cstr_app_end l r : cstr l = l -> cstr (l ++ 0 :: r) = l.
Proof.
  induction l as [|c l IH]; [done|]. simpl. destruct (Z.eqb_spec c 0); [done|]. intros [= Hl]. by rewrite IH.
Qed.

Lemma name_test name de :
  bytes_ok name -> terminated name -> bytes_ok de -> length de = 264%nat ->
  exists fname r, strncpy (e_name de) (Z.to_nat (e_name_len de)) = Some fname /\
    strncmp name (fname ++ [NUL]) EXT2_NAME_LEN = Some r /\ (r = 0 <-> ename de = take EXT2_NAME_LEN (cstr name)).
Proof.
  intros Hn Ht Hde Hlen. assert (0 <= e_name_len de < 256) as Hnl by (apply (get_le_range 1); [done|rewrite Hlen; lia]).
  assert (bytes_ok (e_name de)) as Hen by (apply Forall_take, Forall_drop; done).
  assert (length (e_name de) = EXT2_NAME_LEN) as Hel by (apply length_slice; rewrite Hlen; unfold EXT2_NAME_LEN; lia).
  set (k := (Z.to_nat (e_name_len de) - length (cstr (e_name de)))%nat). set (fname := ename de ++ replicate k 0).
  assert (fname ++ [NUL] = ename de ++ 0 :: replicate k 0) as Heq.
  { unfold fname. rewrite <- app_assoc. f_equal. change [NUL] with (replicate 1 0). by rewrite <- replicate_add, Nat.add_1_r. }
  assert (cstr (ename de) = ename de) as Hc by (unfold ename; by rewrite cstr_take, cstr_idem).
  assert (bytes_ok (fname ++ [NUL])) as Hfn.
  { rewrite Heq. apply Forall_app. split; [|apply Forall_cons; split; [by split|by apply Forall_replicate]].
    apply Forall_take. clear -Hen. induction Hen as [|c l Hcl Hl IH]; [constructor|]. simpl. destruct (c =? 0); by constructor. }
  destruct (strncmp_spec EXT2_NAME_LEN name (fname ++ [NUL]) Hn Hfn) as (r & Hr & Hz); [by left|left; apply elem_of_app; right; by left|].
  exists fname, r. split; [apply strncpy_spec; right; rewrite Hel; unfold EXT2_NAME_LEN; lia|]. split; [done|].
  rewrite Hz, Heq, cstr_app_end by done. rewrite (take_ge (ename de)); [split; by intros ->|].
  unfold ename. rewrite length_take. unfold EXT2_NAME_LEN. lia.
Qed.

(** One round of the loop. *)
Lemma dirlookup_round s v d h ip x k A name off :
  erep s v d h [] ∅ -> efile s v ip x k A -> bytes_ok name -> terminated name ->
  0 <= off -> off + 264 <= i_size x ->
  let de := entry_at (econtents v x A) off in
  exists t, erep (at_bio t s) v d h [] ∅ /\ forall fuel,
    ext2fs_dirlookup_loop devsw_read (S fuel) ip name off s =
      (if decide (matches name de) then j ← iget dev (e_inode de); mret (Some (j, off))
       else ext2fs_dirlookup_loop devsw_read fuel ip name (off + e_rec_len de)) (at_bio t s).
Proof.
  intros Hr Hx Hn Ht Hoff Hend de. pose proof (ef_own _ _ _ _ _ _ Hx) as Hi. pose proof (em_size _ _ _ (ef_map _ _ _ _ _ _ Hx)) as Hsz.
  assert (bytes_ok de) as Hde by (apply Forall_take, Forall_drop; by eapply econtents_ok).
  assert (length de = 264%nat) as Hlen by (apply length_slice; unfold econtents; rewrite length_bytes_of; lia).
  assert (0 <= e_rec_len de < 65536) as Hrl by (apply (get_le_range 2); [done|rewrite Hlen; lia]).
  assert (wp (readi devsw_read ip off SIZEOF_EXT2_DE) s (fun r s' => r = (264, de) /\ exists t, s' = at_bio t s /\ erep s' v d h [] ∅)) as Hw.
  { eapply wp_ext2_readi; [exact Hr|exact Hx|lia|unfold SIZEOF_EXT2_DE; lia|]. intros t Ht'. cbn zeta. unfold SIZEOF_EXT2_DE.
    rewrite Z.min_l by lia. split; [done|]. by exists t. }
  apply wp_ok in Hw as (r & s' & He & -> & t & -> & Hr'). exists t. split; [done|]. intros fuel.
  cbn [ext2fs_dirlookup_loop]. rewrite (bind_ok _ _ _ _ _ (eo_inode _ _ _ _ _ Hi)), (proj2 (Z.leb_gt (i_size x) off)) by lia.
  rewrite (bind_ok _ _ _ _ _ He). cbn [fst snd]. change (264 =? SIZEOF_EXT2_DE) with true. cbn [negb].
  rewrite (bind_ok (guard_ok false _) _ _ tt (at_bio t s)) by done. cbn zeta. rewrite u32_small by lia.
  destruct (Z.eqb_spec (e_inode de) 0) as [H0|H0].
  { rewrite decide_False; [done|]. by intros [? _]. }
  destruct (name_test name de Hn Ht Hde Hlen) as (fname & r & Hf & Hc & Hz). rewrite Hf. rewrite (bind_ok (deref (Some fname)) _ _ fname (at_bio t s)) by done.
  rewrite Hc. rewrite (bind_ok (deref (Some r)) _ _ r (at_bio t s)) by done. rewrite (eo_dev _ _ _ _ _ Hi).
  destruct (Z.eqb_spec r 0) as [Hr0|Hr0].
  - rewrite decide_True; [done|]. split; [done|by apply Hz].
  - rewrite decide_False; [done|]. intros [_ Hm]. by apply Hr0, Hz.
Qed.

(** [n] records that do not match lead from [off] to [off']. *)
Inductive passes (name c : list Z) : Z -> nat -> Z -> Prop :=
  | pa_here off : passes name c off 0 off
  | pa_next off n off' :
      off + 264 <= Z.of_nat (length c) -> ~ matches name (entry_at c off) -> 0 < e_rec_len (entry_at c off) ->
      passes name c (off + e_rec_len (entry_at c off)) n off' -> passes name c off (S n) off'.

Lemma passes_grow name c off n off' : passes name c off n off' -> off + Z.of_nat n <= off'.
Proof. induction 1; lia. Qed.

Lemma length_econtents v x A : length (econtents v x A) = Z.to_nat (i_size x).
Proof. apply length_bytes_of. Qed.

Lemma dirlookup_passes s v d h ip x k A name off n off' :
  erep s v d h [] ∅ -> efile s v ip x k A -> bytes_ok name -> terminated name -> 0 <= off ->
  passes name (econtents v x A) off n off' ->
  exists t, erep (at_bio t s) v d h [] ∅ /\ forall fuel,
    ext2fs_dirlookup_loop devsw_read (n + fuel) ip name off s = ext2fs_dirlookup_loop devsw_read fuel ip name off' (at_bio t s).
Proof.
  intros Hr Hx Hn Ht. revert off s Hr Hx. induction n as [|n IH]; intros off s Hr Hx Hoff Hp; inversion Hp as [|? ? ? Hend Hno Hpos Hrest]; subst.
  { exists (lg_bio (fs_log s)). rewrite at_bio_id. done. }
  rewrite length_econtents in Hend. pose proof (em_size _ _ _ (ef_map _ _ _ _ _ _ Hx)) as Hsz.
  destruct (dirlookup_round s v d h ip x k A name off Hr Hx Hn Ht Hoff ltac:(lia)) as (t1 & Hr1 & He1).
  destruct (IH (off + e_rec_len (entry_at (econtents v x A) off)) (at_bio t1 s) Hr1) as (t2 & Hr2 & He2); [by apply efile_bio|lia|done|].
  exists t2. rewrite at_bio_twice in *. split; [done|]. intros fuel. cbn [Nat.add]. rewrite He1, decide_False by done. by rewrite He2.
Qed.

(** A directory that ends in the middle of a record of 264 bytes. *)
Lemma dirlookup_short s v d h ip x k A name off fuel :
  erep s v d h [] ∅ -> efile s v ip x k A -> 0 <= off < i_size x -> i_size x < off + 264 ->
  ext2fs_dirlookup_loop devsw_read (S fuel) ip name off s = Panic "ext2fs_dirlookup: read error".
Proof.
  intros Hr Hx Hoff Hend. pose proof (ef_own _ _ _ _ _ _ Hx) as Hi. pose proof (em_size _ _ _ (ef_map _ _ _ _ _ _ Hx)) as Hsz.
  assert (wp (readi devsw_read ip off SIZEOF_EXT2_DE) s (fun r s' => fst r = i_size x - off)) as Hw.
  { eapply wp_ext2_readi; [exact Hr|exact Hx|lia|unfold SIZEOF_EXT2_DE; lia|]. intros t Ht'. cbn. unfold SIZEOF_EXT2_DE. lia. }
  apply wp_ok in Hw as (r & s' & He & Hrl). cbn [ext2fs_dirlookup_loop].
  rewrite (bind_ok _ _ _ _ _ (eo_inode _ _ _ _ _ Hi)), (proj2 (Z.leb_gt (i_size x) off)) by lia.
  rewrite (bind_ok _ _ _ _ _ He), Hrl, (proj2 (Z.eqb_neq (i_size x - off) SIZEOF_EXT2_DE)) by (unfold SIZEOF_EXT2_DE; lia). done.
Qed.

(** A record of length 0 that does not match is read again and again. *)
Lemma dirlookup_stuck v d h ip x k A name off fuel : forall s,
  erep s v d h [] ∅ -> efile s v ip x k A -> bytes_ok name -> terminated name -> 0 <= off -> off + 264 <= i_size x ->
  ~ matches name (entry_at (econtents v x A) off) -> e_rec_len (entry_at (econtents v x A) off) = 0 ->
  ext2fs_dirlookup_loop devsw_read fuel ip name off s = NoFuel.
Proof.
  induction fuel as [|fuel IH]; intros s Hr Hx Hn Ht Hoff Hend Hno H0; [done|].
  destruct (dirlookup_round s v d h ip x k A name off Hr Hx Hn Ht Hoff Hend) as (t & Hr1 & He).
  rewrite He, decide_False, H0, Z.add_0_r by done. by apply IH; [|apply efile_bio|..].
Qed.

Lemma dirlookup_past s ip x k A name off fuel :
  eown s ip x k A -> i_size x <= off -> ext2fs_dirlookup_loop devsw_read (S fuel) ip name off s = Ok None s.
Proof.
  intros Hi Hoff. cbn [ext2fs_dirlookup_loop]. rewrite (bind_ok _ _ _ _ _ (eo_inode _ _ _ _ _ Hi)). by rewrite (proj2 (Z.leb_le _ _) Hoff).
Qed.

(** Every record read starts 264 bytes before the end, and each starts after the one before. *)
Lemma passes_count name c off n off' : passes name c off n off' -> (0 < n)%nat -> off + Z.of_nat n + 263 <= Z.of_nat (length c).
Proof. induction 1 as [|off n off' Hend Hno Hpos Hrest IH]; [lia|]. intros _. destruct n; [lia|]. specialize (IH ltac:(lia)). lia. Qed.

Lemma dirlookup_reach s v d h ip x k A name n off' :
  erep s v d h [] ∅ -> efile s v ip x k A -> bytes_ok name -> terminated name ->
  passes name (econtents v x A) 0 n off' ->
  exists t fuel, erep (at_bio t s) v d h [] ∅ /\ ext2fs_dirlookup devsw_read ip name s = ext2fs_dirlookup_loop devsw_read (S fuel) ip name off' (at_bio t s).
Proof.
  intros Hr Hx Hn Ht Hp. destruct (dirlookup_passes s v d h ip x k A name 0 n off' Hr Hx Hn Ht ltac:(lia) Hp) as (t & Hr' & He).
  pose proof (em_size _ _ _ (ef_map _ _ _ _ _ _ Hx)) as Hsz. pose proof (passes_count _ _ _ _ _ Hp) as Hc. rewrite length_econtents in Hc.
  exists t, (Z.to_nat (i_size x) - n)%nat. split; [done|]. unfold ext2fs_dirlookup.
  rewrite (bind_ok _ _ _ _ _ (eo_inode _ _ _ _ _ (ef_own _ _ _ _ _ _ Hx))), <- He. f_equal. lia.
Qed.


(** Where [ext2fs_dirlookup] does not come back: a name that is not in the directory before a record that starts
    within the last 263 bytes is a panic (the last record of every ext2 directory may start there), and a record of
    length 0, which is what [sys_unlink] leaves, is read again for ever. *)
Theorem ext2_dirlookup_traps s v d h ip x k A name n off' :
  erep s v d h [] ∅ -> efile s v ip x k A -> bytes_ok name -> terminated name ->
  let c := econtents v x A in
  passes name c 0 n off' ->
  (off' < i_size x < off' + 264 -> ext2fs_dirlookup devsw_read ip name s = Panic "ext2fs_dirlookup: read error") /\
  (off' + 264 <= i_size x -> ~ matches name (entry_at c off') -> e_rec_len (entry_at c off') = 0 ->
     forall fuel, ext2fs_dirlookup_loop devsw_read (n + fuel) ip name 0 s = NoFuel).
Proof.
  intros Hr Hx Hn Ht c Hp. pose proof (passes_grow _ _ _ _ _ Hp) as Hg. split.
  - intros Hend. destruct (dirlookup_reach _ _ _ _ _ _ _ _ _ _ _ Hr Hx Hn Ht Hp) as (t & fuel & Hr' & He). rewrite He.
    eapply dirlookup_short; [exact Hr'|by apply efile_bio|lia|lia].
  - intros Hend Hno H0 fuel. destruct (dirlookup_passes s v d h ip x k A name 0 n off' Hr Hx Hn Ht ltac:(lia) Hp) as (t & Hr' & He).
    rewrite He. eapply dirlookup_stuck; [exact Hr'|by apply efile_bio|done|done|lia|done|done|done].
Qed.

End Devices.

(** ** Bitmaps *)

Lemma free_bit_spec c j : free_bit c = Some j -> 0 <= j < 8 /\ Z.testbit c (7 - j) = false.
Proof.
  unfold free_bit. destruct (list_find _ _) as [[i j']|] eqn:Hf; [|done]. simpl. intros [= ->].
  apply list_find_Some in Hf as (Hl & Hz & _). apply lookup_seqZ in Hl as [-> Hi]. split; [lia|].
  assert (0 <= 7 - (0 + Z.of_nat i)) as Hp by lia. set (k := 7 - _) in *. apply (f_equal (fun z => Z.testbit z k)) in Hz.
  rewrite Z.land_spec, Z.bits_0, Z.shiftl_spec, Z.sub_diag in Hz by done. by rewrite andb_true_r in Hz.
Qed.

Lemma free_scan_spec bytes : forall i bound k j,
  free_scan bytes i bound = Some (Some (k, j)) ->
  i <= k < i + Z.of_nat (length bytes) /\ free_bit (rd bytes (k - i)) = Some j.
Proof.
  induction bytes as [|c bytes IH]; intros i bound k j; simpl; destruct (bound <=? i); [done..|].
  destruct (free_bit c) as [j'|] eqn:Hc.
  - intros [= <- <-]. split; [lia|]. by rewrite Z.sub_diag.
  - intros Hs. apply IH in Hs as [Hk Hb]. split; [lia|]. rewrite <- Hb. unfold rd. replace (Z.to_nat (k - i)) with (S (Z.to_nat (k - (i + 1)))) by lia. done.
Qed.

(** The number that [ext2fs_free_block] answers does not name the bit that it sets: bits are searched from the
    high end of a byte and freed from the low end. Freeing the number just allocated panics with the message that
    it is already free whenever the mirrored bit was clear before. *)
Theorem ext2_bitmap_mirrored s v d h hs P bp b i j msg :
  erep s v d h hs P -> (bp, (dev, b)) ∈ hs ->
  free_scan (v dev b) 0 (u32 (s_blocks_per_group (fs_ext2_sb s) * 8)) = Some (Some (i, j)) ->
  bit (v dev b) (8 * i + j) = false ->
  (n ← ext2fs_free_block bp; clear_bitmap bp n msg) s = Panic msg.
Proof.
  intros Hr Hbp Hs Hbit. pose proof (free_scan_spec _ _ _ _ _ Hs) as [Hi Hf]. rewrite Z.sub_0_r in Hf.
  apply free_bit_spec in Hf as [Hj _]. destruct (rep_block_ok _ _ _ _ _ _ _ _ _ _ Hr (rep_held_valid _ _ _ _ _ _ _ _ _ _ _ Hr Hbp)) as [Hlen Hok].
  set (f := fun data => <[Z.to_nat i := u8 (Z.lor (rd data i) (Z.shiftl 1 (7 - j)))]> data).
  assert (wp (ext2fs_free_block bp) s (fun n s' => n = i * 8 + j /\ erep s' (apply_write v (dev, b, f (v dev b))) d h hs P)) as Hw.
  { apply wp_bind, wp_gets. eapply wp_bind, wpe_bdata; [exact Hr|exact Hbp|]. eapply wp_bind, wp_deref; [exact Hs|].
    eapply wp_bind, wpe_bset; [exact Hr|exact Hbp|split; [by rewrite length_insert|apply Forall_insert; [done|apply u8_range]]|].
    intros t Ht. by apply wp_ret. }
  apply wp_ok in Hw as (n & s' & He & -> & Hr'). rewrite (bind_ok _ _ _ _ _ He).
  assert (dbuf (bdata bp) s' = Ok (f (v dev b)) s') as Hd.
  { assert (wp (dbuf (bdata bp)) s' (fun r s'' => r = f (v dev b) /\ s'' = s')) as Hw.
    { eapply wpe_bdata; [exact Hr'|exact Hbp|]. unfold apply_write. by rewrite decide_True. }
    by apply wp_ok in Hw as (? & ? & Heq & -> & ->). }
  unfold clear_bitmap. rewrite (bind_ok _ _ _ _ _ Hd). rewrite (length_insert (v dev b) (Z.to_nat i) _ : length (f (v dev b)) = _), Hlen.
  replace ((i * 8 + j) / 8) with i by elia. rewrite (proj2 (Z.ltb_ge _ 0)), (proj2 (Z.leb_gt (Z.of_nat 1024) i)) by lia. cbn [orb].
  change (Z.shiftl 1 ((i * 8 + j) mod 8)) with (bmask (i * 8 + j)). rewrite land_bmask. replace ((i * 8 + j) mod 8) with j by elia.
  unfold bit in Hbit. replace ((8 * i + j) / 8) with i in Hbit by elia. replace ((8 * i + j) mod 8) with j in Hbit by elia.
  assert (Z.testbit (rd (f (v dev b)) i) j = false) as ->; [|done].
  unfold rd at 1, f. rewrite list_lookup_insert_eq by lia. cbn [default id]. rewrite testbit_u8, Z.lor_spec, Hbit, Z.shiftl_spec by lia.
  destruct (decide (j - (7 - j) < 0)); [by apply Z.testbit_neg_r|]. apply Z.bits_above_log2; [done|]. change (Z.log2 1) with 0. lia.
Qed.
End EFile.

(** ** A directory on a small disk *)

Definition dirent2 (inum rec_len : Z) (name : list Z) : list Z :=
  le_enc 4 inum ++ le_enc 2 rec_len ++ [Z.of_nat (length name); 2] ++ name ++ replicate (4 - length name) 0.

(** Two records and the file [f], whose record goes to the end of the block; the same after [f] has been unlinked. *)
Definition dir_f : list Z := pad_block (dirent2 2 12 [46] ++ dirent2 2 12 [46; 46] ++ dirent2 12 1000 [102]).
Definition dir_gone : list Z := pad_block (dirent2 2 12 [46] ++ dirent2 2 12 [46; 46]).

Definition dir_inode : inode := Inode 1 2 1 (Sleeplock 1 7) 1 (Some EXT2FS) T_DIR 0 0 2 1024 (Some (EAddrs 0)).
Definition dir_addrs : list Z := 1 :: replicate 14 0.
Definition dir_disk (blk : list Z) : memdisk := disk_of [zero_block; blk].
Definition dir_state (blk : list Z) : fsst memdisk :=
  let s := fs_bss (set_bio (boot (dir_disk blk) 7) (log_bss (dir_disk blk) 7)) in
  set_eaddrs [Addrs 1 dir_addrs] (set_inodes (dir_inode :: replicate 49 inode_bss) s).

Section Dir.
Context (blk : list Z) (Hblk : block_ok blk).

Lemma dir_blocks_ok : Forall block_ok [zero_block; blk].
Proof. apply Forall_cons. split; [apply zero_block_ok|]. by apply Forall_singleton. Qed.

Lemma dir_rep :
  erep (dvalid (dir_disk blk)) 7 (dir_state blk) (dblock (dir_disk blk)) (dblock (dir_disk blk)) [] [] ∅.
Proof. exact (boot_rep (dir_disk blk) 7 (disk_of_wf _ dir_blocks_ok ltac:(done))). Qed.

Lemma dir_block1 : dblock (dir_disk blk) 1 1 = blk.
Proof. exact (md_load_disk_of [zero_block; blk] 1 blk dir_blocks_ok eq_refl). Qed.

Lemma dir_file : efile (dvalid (dir_disk blk)) 1 (dir_state blk) (dblock (dir_disk blk)) 0 dir_inode 0 dir_addrs.
Proof.
  assert (forall bn, 0 <= bn -> bn * 1024 < 1024 -> bn = 0) as H0 by lia. split; [|done|done|].
  - split; [done|done|done|by exists 1].
  - split; [done|by vm_compute| |simpl; lia|].
    + intros bn Hb Hlt. apply H0 in Hlt as ->; [|done]. by vm_compute.
    + intros bn bn' Hb Hlt Hb' Hlt' _. simpl in *. lia.
Qed.

Lemma dir_contents : econtents 1 (dblock (dir_disk blk)) dir_inode dir_addrs = blk.
Proof.
  assert (eblock 1 (dblock (dir_disk blk)) dir_addrs 0 = blk) as He by apply dir_block1. destruct Hblk as [Hl _].
  unfold econtents. change (i_size dir_inode) with 1024. rewrite <- (slice_bytes_of _ 0 1024); change (0 / 1024) with 0; rewrite ?He; [|done|done|done].
  unfold slice. change (0 mod 1024) with 0. rewrite drop_0. apply take_ge. rewrite Hl. lia.
Qed.
End Dir.

Lemma dir_f_ok : block_ok dir_f.
Proof. apply block_okb_spec. by vm_compute. Qed.
Lemma dir_gone_ok : block_ok dir_gone.
Proof. apply block_okb_spec. by vm_compute. Qed.

(** Steps over records of a given block, by computation. *)
Lemma passes_step name c off n off' :
  (off + 264 <=? Z.of_nat (length c)) && negb (bool_decide (matches name (entry_at c off))) && (0 <? e_rec_len (entry_at c off)) = true ->
  passes name c (off + e_rec_len (entry_at c off)) n off' -> passes name c off (S n) off'.
Proof.
  rewrite !andb_true_iff, negb_true_iff, bool_decide_eq_false, Z.leb_le, Z.ltb_lt. intros [[? ?] ?] ?. by apply pa_next.
Qed.


Lemma ext2_dirlookup_traps_witness :
  ext2fs_dirlookup_loop (fun _ => None) (2 + 1000) 0 [103; 0] 0 (dir_state dir_gone) = NoFuel.
Proof.
  destruct (ext2_dirlookup_traps (dvalid (dir_disk dir_gone)) 7 1 (fun _ => None) _ _ _ _ 0 dir_inode 0 dir_addrs [103; 0] 2 24
    (dir_rep _ dir_gone_ok) (dir_file _)) as [_ Hstuck].
  - by apply bytes_okb_spec.
  - right. left.
  - rewrite (dir_contents _ dir_gone_ok). apply passes_step; [by vm_compute|]. change (0 + _) with 12. apply passes_step; [by vm_compute|]. apply pa_here.
  - rewrite (dir_contents _ dir_gone_ok) in Hstuck. apply Hstuck; [done|by apply (bool_decide_unpack _); vm_compute|by vm_compute].
Defined.


Lemma ext2_bmap_aliases_witness :
  ext2fs_bmap 0 268 (dir_state dir_f) = ext2fs_bmap 0 523 (dir_state dir_f).
Proof. apply ext2_bmap_aliases; by vm_compute. Defined.

(** The block bitmap is block 1, all free, with groups of 8192 blocks. *)
Lemma ext2_bitmap_mirrored_witness :
  exists (s : fsst memdisk) bp, (n ← ext2fs_free_block bp; clear_bitmap bp n "already free") s = Panic "already free".
Proof.
  set (s0 := set_ext2_sb (replicate 32 0 ++ [0; 32; 0; 0]) (dir_state zero_block)).
  assert (wp (dbuf (bread 1 1)) s0 (fun bp s => fs_ext2_sb s = fs_ext2_sb s0 /\
    erep (dvalid (dir_disk zero_block)) 7 s (dblock (dir_disk zero_block)) (dblock (dir_disk zero_block)) [] [(bp, (1, 1))] ∅)) as Hw.
  { eapply wpe_bread; [exact (dir_rep _ zero_block_ok)|by vm_compute|apply room_nil|]. by intros i t Ht. }
  apply wp_ok in Hw as (bp & s & _ & Hsb & Hr). exists s, bp.
  apply (ext2_bitmap_mirrored (dvalid (dir_disk zero_block)) 7 1 s _ _ _ _ _ bp 1 0 0 _ Hr); rewrite ?(dir_block1 _ zero_block_ok).
  - left.
  - rewrite Hsb. by vm_compute.
  - by vm_compute.
Defined.
