(* ===== verification/Console.v ===== *)
(** The console (console.c): formatted output of the kernel, the CGA screen, the line
    discipline of the input buffer, and the reads and writes of the console device.

    The screen is the memory of the adapter, and the two cursor registers of its controller
    hold the halves of a 16-bit position. What goes to the serial port is the list of the characters given to
    [uartputc]. [cons.lock] is held around every operation, so each runs in one piece up
    to a sleep. *)

From S2P Require Import Prelude Bytes Printf Pipe.

Definition BACKSPACE : Z := 256.
Definition INPUT_BUF : Z := 128.
Definition CTRL (x : Z) : Z := x - 64.

(** ** Output *)

Record screen := Screen { s_crt : list Z; s_pos : Z; s_uart : list Z }.

(** The adapter has 32 KB, or 16384 words. *)
Definition crt_set (pos v : Z) : M screen unit := fun s =>
  if (0 <=? pos) && (pos <? Z.of_nat (length (s_crt s)))
  then Ok tt (Screen (<[Z.to_nat pos := v]> (s_crt s)) (s_pos s) (s_uart s)) else Fault.
Definition crt_upd (f : list Z -> list Z) : M screen unit := modify (fun s => Screen (f (s_crt s)) (s_pos s) (s_uart s)).

(** One line up: 23 rows of 80 words are moved. *)
Definition scroll (crt : list Z) : list Z := slice 80 1840 crt ++ drop 1840 crt.

Definition cgaputc (c : Z) : M screen unit :=
  pos ← gets s_pos;
  pos ← (if c =? 10 then mret (pos + (80 - pos mod 80))
         else if c =? BACKSPACE then mret (if 0 <? pos then pos - 1 else pos)
         else crt_set pos (Z.lor (Z.land c 255) 1792) ;; mret (pos + 1));
  guard_ok ((pos <? 0) || (2000 <? pos)) (panic "pos under/overflow") ;;
  pos ← (if 24 <=? pos / 80 then
           crt_upd scroll ;;
           let pos := pos - 80 in
           if 1920 <? pos then fault
           else crt_upd (splice (Z.to_nat pos) (replicate (Z.to_nat (1920 - pos)) 0)) ;; mret pos
         else mret pos);
  modify (fun s => Screen (s_crt s) (u16 pos) (s_uart s)) ;;
  crt_set pos (Z.lor 32 1792).

Definition uartputc (c : Z) : M screen unit := modify (fun s => Screen (s_crt s) (s_pos s) (s_uart s ++ [u8 c])).

Definition consputc (c : Z) : M screen unit :=
  (if c =? BACKSPACE then uartputc 8 ;; uartputc 32 ;; uartputc 8 else uartputc c) ;;
  cgaputc c.

(** [printint] of console.c, the characters in the order of output; [None] is a store outside of [buf]. *)
Definition cdigits : list Z := [48; 49; 50; 51; 52; 53; 54; 55; 56; 57; 97; 98; 99; 100; 101; 102].
Fixpoint cprintint_loop (fuel : nat) (x base : Z) (buf : list Z) : option (list Z) :=
  match fuel with
  | O => None
  | S fuel =>
      if (16 <=? length buf)%nat then None
      else
        d ← cdigits !! Z.to_nat (x mod base);
        let buf := buf ++ [d] in
        if x / base =? 0 then Some buf else cprintint_loop fuel (x / base) base buf
  end.
Definition cprintint (xx base : Z) (sign : bool) : option (list Z) :=
  let neg := sign && (xx <? 0) in
  let x := u32 (if neg then - xx else xx) in
  buf ← cprintint_loop 33 x base [];
  if neg then (if (16 <=? length buf)%nat then None else Some (reverse (buf ++ [45]))) else Some (reverse buf).

(** [cprintf]: the characters it gives to [consputc]. *)
Section Cprintf.
Context (str : Z -> list Z) (argp : nat -> Z).
Fixpoint cprintf_chars (fmt : list Z) (k : nat) : option (list Z) :=
  match fmt with
  | [] => Some []
  | c :: fmt =>
      if negb (c =? 37) then cons c <$> cprintf_chars fmt k
      else match fmt with
           | [] => Some []
           | c :: fmt =>
               if c =? 100 then out ← cprintint (s32 (argp k)) 10 true; app out <$> cprintf_chars fmt (S k)
               else if (c =? 120) || (c =? 112) then out ← cprintint (s32 (argp k)) 16 false; app out <$> cprintf_chars fmt (S k)
               else if c =? 115 then app (if argp k =? 0 then null_string else str (argp k)) <$> cprintf_chars fmt (S k)
               else if c =? 37 then cons 37 <$> cprintf_chars fmt k
               else app [37; c] <$> cprintf_chars fmt k
           end
  end.
Definition cprintf (fmt : list Z) : M screen unit := l ← deref (cprintf_chars fmt 0); for_all l consputc.
End Cprintf.

(** ** Input *)

Record input := Input { i_buf : list Z; i_r : Z; i_w : Z; i_e : Z }.

(** [input.buf[k % INPUT_BUF]]. *)
Definition at_ring (buf : list Z) (k : Z) : Z := rd buf (u32 k mod INPUT_BUF).

(** The characters that the loop of control-U takes back. *)
Fixpoint kill_line (fuel : nat) (i : input) : input :=
  match fuel with
  | O => i
  | S fuel =>
      if negb (i_e i =? i_w i) && negb (at_ring (i_buf i) (i_e i - 1) =? 10)
      then kill_line fuel (Input (i_buf i) (i_r i) (i_w i) (u32 (i_e i - 1))) else i
  end.

(** One round of [consoleintr] with the character [c]: the new buffer, what is given to [consputc], and whether
    readers are woken up. The loop of control-U ends after [e - w] rounds. *)
Definition edit (c : Z) (i : input) : input * list Z * bool :=
  if c =? CTRL 80 then (i, [], false)
  else if c =? CTRL 85 then
    let i' := kill_line (Z.to_nat (u32 (i_e i - i_w i))) i in (i', replicate (Z.to_nat (u32 (i_e i - i_e i'))) BACKSPACE, false)
  else if (c =? CTRL 72) || (c =? 127) then
    if negb (i_e i =? i_w i) then (Input (i_buf i) (i_r i) (i_w i) (u32 (i_e i - 1)), [BACKSPACE], false) else (i, [], false)
  else if negb (c =? 0) && (u32 (i_e i - i_r i) <? INPUT_BUF) then
    let c := if c =? 13 then 10 else c in
    let buf := <[Z.to_nat (i_e i mod INPUT_BUF) := u8 c]> (i_buf i) in
    let e := u32 (i_e i + 1) in
    if (c =? 10) || (c =? CTRL 68) || (e =? u32 (i_r i + INPUT_BUF))
    then (Input buf (i_r i) e e, [c], true) else (Input buf (i_r i) (i_w i) e, [c], false)
  else (i, [], false).

(** [consoleintr], on the characters that [getc] returns before the first negative value; and whether it ends
    with a process listing. *)
Definition intr_step (s : input * list Z * bool) (c : Z) : input * list Z * bool :=
  let '(i, out, w) := s in let '(i', out', w') := edit c i in (i', out ++ out', w || w').
Definition consoleintr (cs : list Z) (i : input) : input * list Z * bool := foldl intr_step (i, [], false) cs.
Definition doprocdump (cs : list Z) : bool := bool_decide (CTRL 80 ∈ cs).

(** The loop of [consoleread] with [n] bytes to go; [got] are the bytes stored so far. It returns the bytes or -1, or
    goes to sleep with the bytes it has. *)
Fixpoint consoleread_run (killed : bool) (n : nat) (got : list Z) (i : input) : run (option (list Z)) (nat * list Z) * input :=
  match n with
  | O => (Ret (Some got), i)
  | S n' =>
      if i_r i =? i_w i then
        if killed then (Ret None, i) else (Sleep (n, got), i)
      else
        let c := at_ring (i_buf i) (i_r i) in
        let i' := Input (i_buf i) (u32 (i_r i + 1)) (i_w i) (i_e i) in
        if c =? CTRL 68 then (Ret (Some got), match got with [] => i' | _ => i end)
        else if c =? 10 then (Ret (Some (got ++ [c])), i')
        else consoleread_run killed n' (got ++ [c]) i'
  end.
Definition consoleread (killed : bool) (n : Z) (i : input) := consoleread_run killed (Z.to_nat n) [] i.

Definition consolewrite (buf : list Z) : M screen Z := for_all (u8 <$> buf) consputc ;; mret (Z.of_nat (length buf)).

(** ** What the line discipline promises

    The lines that wait to be read and the line that is being typed. *)
Definition lines : Type := list Z * list Z.

Definition key (c : Z) (s : lines) : lines :=
  let '(q, ed) := s in
  if c =? CTRL 80 then s
  else if c =? CTRL 85 then (q, [])
  else if (c =? CTRL 72) || (c =? 127) then (q, take (length ed - 1) ed)
  else if negb (c =? 0) && (length q + length ed <? 128)%nat then
    let c := if c =? 13 then 10 else c in
    if (c =? 10) || (c =? CTRL 68) || (length q + length ed =? 127)%nat then (q ++ ed ++ [c], []) else (q, ed ++ [c])
  else s.

(** Reading stops after a newline, at an end of file, or with the bytes asked for. *)
Fixpoint read_line (killed : bool) (n : nat) (got q : list Z) : run (option (list Z)) (nat * list Z) * list Z :=
  match n, q with
  | O, _ => (Ret (Some got), q)
  | S _, [] => (if killed then Ret None else Sleep (n, got), q)
  | S n', c :: q' =>
      if c =? CTRL 68 then (Ret (Some got), match got with [] => q' | _ => q end)
      else if c =? 10 then (Ret (Some (got ++ [c])), q')
      else read_line killed n' (got ++ [c]) q'
  end.

(** The bytes of the ring from a counter on. *)
Definition ring (buf : list Z) (from n : Z) : list Z := (fun k => rd buf ((from + k) mod 128)) <$> seqZ 0 n.
Definition queued (i : input) : list Z := ring (i_buf i) (i_r i) (u32 (i_w i - i_r i)).
Definition editing (i : input) : list Z := ring (i_buf i) (i_w i) (u32 (i_e i - i_w i)).

Record input_ok (i : input) : Prop := {
  io_len : length (i_buf i) = 128%nat;
  io_r : 0 <= i_r i < 4294967296; io_w : 0 <= i_w i < 4294967296; io_e : 0 <= i_e i < 4294967296;
  io_le : u32 (i_w i - i_r i) + u32 (i_e i - i_w i) = u32 (i_e i - i_r i);
  io_max : u32 (i_e i - i_r i) <= 128;
  io_edit : Forall (fun c => c <> 10) (editing i);
}.

Lemma at_ring_eq buf k : at_ring buf k = rd buf (k mod 128).
Proof. unfold at_ring, INPUT_BUF, u32. f_equal. elia. Qed.

Lemma length_ring buf from n : length (ring buf from n) = Z.to_nat n.
Proof. unfold ring. by rewrite length_fmap, length_seqZ. Qed.

Lemma ring_u32 buf from n : ring buf (u32 from) n = ring buf from n.
Proof. unfold ring. apply list_fmap_ext. intros i x _. f_equal. unfold u32. elia. Qed.

Lemma ring_app buf from m n : 0 <= m -> 0 <= n -> ring buf from (m + n) = ring buf from m ++ ring buf (from + m) n.
Proof.
  intros. unfold ring. rewrite seqZ_app, fmap_app by done. f_equal. rewrite Z.add_0_l.
  replace (seqZ m n) with (Z.add m <$> seqZ 0 n) by (by rewrite fmap_add_seqZ, Z.add_0_r). rewrite <- list_fmap_compose.
  apply list_fmap_ext. intros i x _. cbn. do 2 f_equal. lia.
Qed.

Lemma ring_1 buf from : ring buf from 1 = [rd buf (from mod 128)].
Proof. unfold ring. change (seqZ 0 1) with [0]. rewrite list_fmap_singleton. by rewrite Z.add_0_r. Qed.

(** Storing behind the bytes of the ring leaves them alone. *)
Lemma ring_put buf from n k c :
  length buf = 128%nat -> 0 <= n <= 128 -> (forall j, 0 <= j < n -> (from + j) mod 128 <> k mod 128) ->
  ring (<[Z.to_nat (k mod 128) := c]> buf) from n = ring buf from n.
Proof.
  intros Hl Hn Hk. unfold ring. apply list_fmap_ext. intros i x Hx. apply lookup_seqZ in Hx as [-> Hi].
  unfold rd. rewrite list_lookup_insert_ne; [done|]. specialize (Hk (0 + Z.of_nat i) ltac:(lia)). elia.
Qed.

Lemma rd_put buf k c : length buf = 128%nat -> rd (<[Z.to_nat (k mod 128) := c]> buf) (k mod 128) = c.
Proof. intros Hl. unfold rd. rewrite list_lookup_insert_eq; [done|]. rewrite Hl. elia. Qed.

(** Typing: the character goes behind the edited line. *)
Lemma typed_ok i c :
  input_ok i -> u32 (i_e i - i_r i) < 128 ->
  let buf := <[Z.to_nat (i_e i mod 128) := c]> (i_buf i) in
  length buf = 128%nat /\ ring buf (i_r i) (u32 (i_w i - i_r i)) = queued i /\
  ring buf (i_w i) (u32 (i_e i - i_w i)) = editing i /\ ring buf (i_e i) 1 = [c].
Proof.
  intros [Hl Hr Hw He Hle Hmax _] Hlt buf. unfold queued, editing, buf. split_and!.
  - by rewrite length_insert.
  - apply ring_put; [done|unfold u32 in *; elia|]. intros j Hj. unfold u32 in *. elia.
  - apply ring_put; [done|unfold u32 in *; elia|]. intros j Hj. unfold u32 in *. elia.
  - rewrite ring_1. by rewrite rd_put.
Qed.

Lemma length_queued i : length (queued i) = Z.to_nat (u32 (i_w i - i_r i)).
Proof. apply length_ring. Qed.
Lemma length_editing i : length (editing i) = Z.to_nat (u32 (i_e i - i_w i)).
Proof. apply length_ring. Qed.

(** Taking back one character. *)
Lemma shorter_ok i :
  input_ok i -> i_e i <> i_w i ->
  let i' := Input (i_buf i) (i_r i) (i_w i) (u32 (i_e i - 1)) in
  input_ok i' /\ queued i' = queued i /\ editing i' = take (length (editing i) - 1) (editing i) /\
  u32 (i_e i' - i_w i') = u32 (i_e i - i_w i) - 1 /\ at_ring (i_buf i) (i_e i - 1) <> 10.
Proof.
  intros [Hl Hr Hw He Hle Hmax Hed] Hne i'. set (n := u32 (i_e i - i_w i)) in *.
  assert (u32 (i_e i' - i_w i') = n - 1) as Hn by (unfold n, i', u32 in *; cbn; elia).
  assert (1 <= n) as Hn1 by (unfold n, u32 in *; elia).
  assert (editing i = ring (i_buf i) (i_w i) (n - 1) ++ [at_ring (i_buf i) (i_e i - 1)]) as Hsplit.
  { unfold editing. fold n. replace n with (n - 1 + 1) at 1 by lia. rewrite ring_app, ring_1, at_ring_eq by lia. do 3 f_equal.
    unfold n, u32 in *. elia. }
  assert (editing i' = ring (i_buf i) (i_w i) (n - 1)) as Hed' by (unfold editing; rewrite Hn; done).
  assert (editing i' = take (length (editing i) - 1) (editing i)) as Hpre.
  { rewrite Hsplit, length_app, Nat.add_sub, take_app_length. exact Hed'. }
  split_and!; [|done|done|done|].
  - split; cbn; try done; [apply u32_range| | |rewrite Hpre; by apply Forall_take].
    + unfold i', n, u32 in *; cbn in *. elia.
    + unfold i', n, u32 in *; cbn in *. elia.
  - rewrite Hsplit in Hed. apply Forall_app in Hed as [_ Hed]. rewrite Forall_singleton in Hed. exact Hed.
Qed.

Lemma kill_line_ok fuel : forall i, input_ok i -> Z.to_nat (u32 (i_e i - i_w i)) = fuel ->
  kill_line fuel i = Input (i_buf i) (i_r i) (i_w i) (i_w i).
Proof.
  induction fuel as [|fuel IH]; intros i Hok Hf; cbn [kill_line].
  - assert (i_e i = i_w i) as He by (destruct Hok; unfold u32 in *; elia). destruct i; cbn in *. by subst.
  - assert (i_e i <> i_w i) as Hne by (intros He; rewrite He, Z.sub_diag in Hf; done).
    destruct (shorter_ok i Hok Hne) as (Hok' & _ & _ & Hn & Hc).
    rewrite (proj2 (Z.eqb_neq _ _) Hne), (proj2 (Z.eqb_neq _ _) Hc). cbn [negb andb]. etransitivity; [apply (IH _ Hok'); rewrite Hn; lia|done].
Qed.

Lemma cleared_ok i : input_ok i -> let i' := Input (i_buf i) (i_r i) (i_w i) (i_w i) in input_ok i' /\ queued i' = queued i /\ editing i' = [].
Proof.
  intros [Hl Hr Hw He Hle Hmax Hed] i'. assert (editing i' = []) as E by (unfold editing, i'; cbn; by rewrite Z.sub_diag).
  split_and!; [|done|done]. split; try done; [cbn; rewrite Z.sub_diag; unfold u32 in *; elia|cbn; unfold u32 in *; elia|by rewrite E].
Qed.

(** Every character does to the lines what [key] says, and readers are woken up exactly when a line is complete. *)
Lemma edit_ok c i : input_ok i -> 0 <= c < 256 ->
  let '(i', _, w) := edit c i in
  input_ok i' /\ (queued i', editing i') = key c (queued i, editing i) /\ (w = false -> queued i' = queued i).
Proof.
  intros Hok Hc. unfold edit, key. destruct (c =? CTRL 80); [done|]. destruct (c =? CTRL 85).
  { rewrite kill_line_ok by done. destruct (cleared_ok i Hok) as (? & -> & ->). done. }
  destruct ((c =? CTRL 72) || (c =? 127)).
  { destruct (Z.eqb_spec (i_e i) (i_w i)) as [He|He]; cbn [negb].
    - split_and!; [done| |done]. assert (editing i = []) as -> by (unfold editing; by rewrite He, Z.sub_diag). done.
    - destruct (shorter_ok i Hok He) as (? & Hq & Hed & _). split_and!; [done| |done]. by rewrite Hq, Hed. }
  pose proof (length_queued i) as Hlq. pose proof (length_editing i) as Hle. pose proof Hok as [_ Hr Hw He Hsum Hmax Hed].
  destruct (negb (c =? 0)); cbn [andb]; [|done].
  assert (((length (queued i) + length (editing i))%nat <? 128)%nat = (u32 (i_e i - i_r i) <? INPUT_BUF)) as ->.
  { unfold INPUT_BUF. destruct (Nat.ltb_spec (length (queued i) + length (editing i)) 128), (Z.ltb_spec (u32 (i_e i - i_r i)) 128); unfold u32 in *; elia || done. }
  destruct (Z.ltb_spec (u32 (i_e i - i_r i)) INPUT_BUF) as [Hlt|]; [|done]. unfold INPUT_BUF in *.
  set (c' := if c =? 13 then 10 else c). assert (0 <= c' < 256) as Hc' by (unfold c'; destruct (c =? 13); lia). rewrite (u8_small c') by done.
  destruct (typed_ok i c' Hok Hlt) as (Hbl & Hbq & Hbe & Hb1). set (buf := <[_ := c']> (i_buf i)) in *.
  assert (((length (queued i) + length (editing i))%nat =? 127)%nat = (u32 (i_e i + 1) =? u32 (i_r i + 128))) as ->.
  { destruct (Nat.eqb_spec (length (queued i) + length (editing i)) 127), (Z.eqb_spec (u32 (i_e i + 1)) (u32 (i_r i + 128))); unfold u32 in *; elia || done. }
  assert (u32 (u32 (i_e i + 1) - i_w i) = u32 (i_e i - i_w i) + 1) as He1 by (unfold u32 in *; elia).
  assert (u32 (u32 (i_e i + 1) - i_r i) = u32 (i_w i - i_r i) + (u32 (i_e i - i_w i) + 1)) as He2 by (unfold u32 in *; elia).
  assert (ring buf (i_w i) (u32 (i_e i - i_w i) + 1) = editing i ++ [c']) as Hed'.
  { rewrite ring_app by (unfold u32; elia). rewrite Hbe, <- Hb1. f_equal. rewrite <- (ring_u32 _ (i_e i)), <- (ring_u32 _ (i_w i + _)). f_equal. unfold u32. elia. }
  destruct ((c' =? 10) || (c' =? CTRL 68) || (u32 (i_e i + 1) =? u32 (i_r i + 128))) eqn:Hend.
  - set (i' := Input buf (i_r i) (u32 (i_e i + 1)) (u32 (i_e i + 1))).
    assert (editing i' = []) as E1 by (unfold editing, i'; cbn; by rewrite Z.sub_diag).
    assert (queued i' = queued i ++ editing i ++ [c']) as E2.
    { unfold queued at 1, i'; cbn. rewrite He2, ring_app by (unfold u32; elia). rewrite Hbq. f_equal. rewrite <- Hed', <- (ring_u32 _ (i_w i)), <- (ring_u32 _ (i_r i + _)).
      f_equal. unfold u32. elia. }
    split_and!; [|by rewrite E1, E2|done]. split; try done; try apply u32_range; cbn; rewrite ?Z.sub_diag; unfold u32 in *; elia || by rewrite E1.
  - set (i' := Input buf (i_r i) (i_w i) (u32 (i_e i + 1))).
    assert (editing i' = editing i ++ [c']) as E1 by (unfold editing at 1, i'; cbn; by rewrite He1).
    split_and!; [|by rewrite E1; unfold queued at 1, i'; cbn; rewrite Hbq|done].
    split; try done; try apply u32_range; cbn; [lia|lia|]. rewrite E1. apply Forall_app. split; [done|]. apply Forall_singleton.
    apply orb_false_iff in Hend as [Hend _]. apply orb_false_iff in Hend as [Hend _]. by apply Z.eqb_neq in Hend.
Qed.

(** The next byte of the queue. *)
Lemma front_ok i :
  input_ok i -> i_r i <> i_w i ->
  let i' := Input (i_buf i) (u32 (i_r i + 1)) (i_w i) (i_e i) in
  input_ok i' /\ queued i = at_ring (i_buf i) (i_r i) :: queued i' /\ editing i' = editing i.
Proof.
  intros [Hl Hr Hw He Hle Hmax Hed] Hne i'.
  assert (u32 (i_w i - u32 (i_r i + 1)) = u32 (i_w i - i_r i) - 1) as H1 by (unfold u32 in *; elia).
  assert (u32 (i_e i - u32 (i_r i + 1)) = u32 (i_e i - i_r i) - 1) as H2 by (unfold u32 in *; elia).
  assert (1 <= u32 (i_w i - i_r i)) as Hn by (unfold u32 in *; elia).
  split_and!; [|unfold queued, i'; cbn|done].
  - split; try done; try apply u32_range; unfold i'; cbn; lia.
  - rewrite H1, ring_u32, at_ring_eq. replace (u32 (i_w i - i_r i)) with (1 + (u32 (i_w i - i_r i) - 1)) at 1 by lia.
    by rewrite ring_app, ring_1 by lia.
Qed.

Lemma queue_nil i : input_ok i -> i_r i = i_w i <-> queued i = [].
Proof.
  intros [Hl Hr Hw He Hle Hmax Hed]. rewrite <- length_zero_iff_nil, length_queued. unfold u32 in *. split; intros; elia.
Qed.

Lemma read_ok killed n : forall got i, input_ok i ->
  let '(r, i') := consoleread_run killed n got i in
  input_ok i' /\ read_line killed n got (queued i) = (r, queued i') /\ editing i' = editing i.
Proof.
  induction n as [|n IH]; intros got i Hok; cbn [consoleread_run read_line]; [done|].
  destruct (Z.eqb_spec (i_r i) (i_w i)) as [He|He].
  - apply queue_nil in He; [|done]. rewrite He. by destruct killed; rewrite He.
  - destruct (front_ok i Hok He) as (Hok' & Hq & Hed). rewrite Hq. set (c := at_ring _ _) in *. set (i' := Input _ _ _ _) in *.
    destruct (c =? CTRL 68).
    { destruct got; [done|]. by rewrite Hq. }
    destruct (c =? 10); [done|]. specialize (IH (got ++ [c]) i' Hok'). destruct (consoleread_run killed n (got ++ [c]) i') as [r i2].
    by rewrite <- Hed.
Qed.

(** ** Sessions: characters that arrive and reads, a read that was asleep being continued with what it has *)
Inductive event := Keys (cs : list Z) | Read (killed : bool) (n : nat) (got : list Z).

Definition results : Type := list (run (option (list Z)) (nat * list Z)).

Definition session_step (s : results * input) (ev : event) : results * input :=
  match ev with
  | Keys cs => (s.1, (consoleintr cs s.2).1.1)
  | Read killed n got => let '(r, i) := consoleread_run killed n got s.2 in (s.1 ++ [r], i)
  end.
Definition session (evs : list event) (i : input) : results * input := foldl session_step ([], i) evs.

Definition promised_step (s : results * lines) (ev : event) : results * lines :=
  match ev with
  | Keys cs => (s.1, foldl (flip key) s.2 cs)
  | Read killed n got => let '(r, q) := read_line killed n got s.2.1 in (s.1 ++ [r], (q, s.2.2))
  end.
Definition promised (evs : list event) (s : lines) : results * lines := foldl promised_step ([], s) evs.

Definition input_bss : input := Input (replicate 128 0) 0 0 0.

Lemma input_bss_ok : input_ok input_bss.
Proof. split; by vm_compute. Qed.

Lemma consoleintr_ok cs : forall i out w, input_ok i -> Forall (fun c => 0 <= c < 256) cs ->
  let i' := (foldl intr_step (i, out, w) cs).1.1 in
  input_ok i' /\ (queued i', editing i') = foldl (flip key) (queued i, editing i) cs.
Proof.
  induction cs as [|c cs IH]; intros i out w Hok Hcs; cbn [foldl]; [done|]. apply Forall_cons in Hcs as [Hc Hcs].
  cbn [intr_step flip]. pose proof (edit_ok c i Hok Hc) as He. destruct (edit c i) as [[i1 out1] w1]. destruct He as (Hok1 & Hk & _). rewrite <- Hk. by apply IH.
Qed.

Lemma session_ok evs : forall rs i, input_ok i -> Forall (fun ev => match ev with Keys cs => Forall (fun c => 0 <= c < 256) cs | _ => True end) evs ->
  let '(rs', i') := foldl session_step (rs, i) evs in
  input_ok i' /\ foldl promised_step (rs, (queued i, editing i)) evs = (rs', (queued i', editing i')).
Proof.
  induction evs as [|[cs|killed n got] evs IH]; intros rs i Hok Hevs; cbn [foldl]; [done|..]; apply Forall_cons in Hevs as [Hev Hevs].
  - destruct (consoleintr_ok cs i [] false Hok Hev) as [Hok' Hk]. cbn [session_step promised_step fst snd]. rewrite <- Hk. by apply IH.
  - cbn [session_step promised_step fst snd]. pose proof (read_ok killed n got i Hok) as Hr. destruct (consoleread_run killed n got i) as [r i1]. destruct Hr as (Hok1 & Hq & Hed).
    rewrite Hq, <- Hed. by apply IH.
Qed.

(** C22: The input buffer of the console is a line editor: for every sequence of characters and reads, the reads return, and
    sleep, exactly as they would on the queue of complete lines that the editor keeps, with erasing and killing
    inside the current line only, the end of file in its place, and never more than 128 characters; the
    counters may wrap around. *)
Theorem console_line_discipline evs :
  Forall (fun ev => match ev with Keys cs => Forall (fun c => 0 <= c < 256) cs | _ => True end) evs ->
  let '(rs, i) := session evs input_bss in
  promised evs ([], []) = (rs, (queued i, editing i)) /\ (length (queued i) + length (editing i) <= 128)%nat.
Proof.
  intros Hevs. assert (let '(rs, i) := session evs input_bss in input_ok i /\ promised evs ([], []) = (rs, (queued i, editing i))) as Hs
    by exact (session_ok evs [] input_bss input_bss_ok Hevs).
  destruct (session evs input_bss) as [rs i].
  destruct Hs as [Hok Hs]. split; [exact Hs|]. rewrite length_queued, length_editing. destruct Hok. unfold u32 in *. elia.
Qed.

(** [hellp], an erased [p], an [o] and a newline; then a read of a hundred bytes. *)
Lemma console_line_discipline_witness :
  (promised [Keys [104; 101; 108; 108; 112; 8; 111; 13]; Read false 100 []] ([], [])).1 = [Ret (Some [104; 101; 108; 108; 111; 10])].
Proof.
  pose proof (console_line_discipline [Keys [104; 101; 108; 108; 112; 8; 111; 13]; Read false 100 []]) as Hs.
  assert (fst (session [Keys [104; 101; 108; 108; 112; 8; 111; 13]; Read false 100 []] input_bss) = [Ret (Some [104; 101; 108; 108; 111; 10])]) as Hr by (by vm_compute).
  destruct (session _ input_bss) as [rs i]. cbn in Hr. rewrite <- Hr. destruct Hs as [Hs _].
  { repeat (constructor; [try done; repeat (constructor; [lia|]); constructor|]). constructor. }
  by rewrite Hs.
Defined.

(** ** The screen as a terminal

    The text in front of the cursor, 24 rows of 80 columns; the adapter shows the character 0 as a blank. *)
Definition shown (w : Z) : Z := let c := Z.land w 255 in if c =? 0 then 32 else c.
Definition text (s : screen) : list Z := shown <$> take (Z.to_nat (s_pos s)) (s_crt s).

Definition term (T : list Z) (c : Z) : list Z :=
  let T := if c =? 10 then T ++ replicate (80 - length T mod 80) 32
           else if c =? BACKSPACE then take (length T - 1) T
           else T ++ [shown c] in
  if (1920 <=? length T)%nat then drop 80 T else T.

(** What is behind the cursor is blank. *)
Record screen_ok (s : screen) : Prop := {
  so_len : Z.of_nat (length (s_crt s)) = 16384;
  so_pos : 0 <= s_pos s < 1920;
  so_blank k w : s_pos s <= k < 1920 -> s_crt s !! Z.to_nat k = Some w -> shown w = 32;
}.

Lemma length_text s : screen_ok s -> length (text s) = Z.to_nat (s_pos s).
Proof. intros [Hl Hp _]. unfold text. rewrite length_fmap, length_take. lia. Qed.

Lemma wp_crt_set pos v s (Q : unit -> screen -> Prop) :
  0 <= pos < Z.of_nat (length (s_crt s)) -> Q tt (Screen (<[Z.to_nat pos := v]> (s_crt s)) (s_pos s) (s_uart s)) -> wp (crt_set pos v) s Q.
Proof. intros Hp HQ. unfold wp, crt_set. by rewrite (proj2 (Z.leb_le _ _)), (proj2 (Z.ltb_lt _ _)) by lia. Qed.

(** The cells from a position on are blank. *)
Definition blank_from (pos : Z) (crt : list Z) : Prop := forall k w, pos <= k < 1920 -> crt !! Z.to_nat k = Some w -> shown w = 32.

Lemma blank_set pos crt v :
  0 <= pos < Z.of_nat (length crt) -> blank_from (pos + 1) crt -> shown v = 32 -> blank_from pos (<[Z.to_nat pos := v]> crt).
Proof.
  intros Hp Hb Hv k w Hk Hw. apply list_lookup_insert_Some in Hw as [(_ & <- & _)|[Hne Hw]]; [done|]. apply (Hb k); [lia|done].
Qed.

(** Blank cells in front of the cursor read as blanks. *)
Lemma blank_run pos n crt :
  0 <= pos -> 0 <= n -> pos + n <= 1920 -> 1920 <= Z.of_nat (length crt) -> blank_from pos crt ->
  shown <$> take (Z.to_nat (pos + n)) crt = (shown <$> take (Z.to_nat pos) crt) ++ replicate (Z.to_nat n) 32.
Proof.
  intros Hp Hn Hle Hl Hb. apply (list_eq_same_length _ _ (Z.to_nat (pos + n))).
  - rewrite length_app, length_fmap, length_take, length_replicate. lia.
  - rewrite length_fmap, length_take. lia.
  - intros i x y Hi Hx Hy. apply list_lookup_fmap_Some in Hx as (w & -> & Hw). rewrite lookup_take_lt in Hw by done.
    destruct (decide (i < Z.to_nat pos)%nat) as [Hlt|Hge].
    + rewrite lookup_app_l in Hy by (rewrite length_fmap, length_take; lia). rewrite list_lookup_fmap, lookup_take_lt, Hw in Hy by done. by injection Hy.
    + rewrite lookup_app_r in Hy by (rewrite length_fmap, length_take; lia). apply lookup_replicate in Hy as [-> _].
      apply (Hb (Z.of_nat i)); [lia|by rewrite Nat2Z.id].
Qed.

(** The second half of [cgaputc], with the cursor moved to [pos]: scrolling, and a blank under the cursor. *)
Lemma wp_settle pos s (Q : unit -> screen -> Prop) :
  Z.of_nat (length (s_crt s)) = 16384 -> 0 <= pos <= 1920 -> blank_from (pos + 1) (s_crt s) ->
  let T := shown <$> take (Z.to_nat pos) (s_crt s) in
  (forall s', screen_ok s' -> text s' = (if (1920 <=? length T)%nat then drop 80 T else T) -> s_uart s' = s_uart s -> Q tt s') ->
  wp (guard_ok ((pos <? 0) || (2000 <? pos)) (panic "pos under/overflow") ;;
      pos ← (if 24 <=? pos / 80 then
               crt_upd scroll ;;
               let pos := pos - 80 in
               if 1920 <? pos then fault
               else crt_upd (splice (Z.to_nat pos) (replicate (Z.to_nat (1920 - pos)) 0)) ;; mret pos
             else mret pos);
      modify (fun s => Screen (s_crt s) (u16 pos) (s_uart s)) ;;
      crt_set pos (Z.lor 32 1792)) s Q.
Proof.
  intros Hl Hp Hb T HQ. assert (length T = Z.to_nat pos) as HT by (unfold T; rewrite length_fmap, length_take; lia).
  rewrite (proj2 (Z.ltb_ge pos 0)), (proj2 (Z.ltb_ge 2000 pos)) by lia. apply wp_bind, wp_ret. rewrite HT in HQ.
  destruct (Z.leb_spec 24 (pos / 80)) as [Hsc|Hsc].
  - assert (pos = 1920) as -> by elia. change (1920 <=? Z.to_nat 1920)%nat with true in HQ. cbn [Z.sub Z.add Z.opp Z.pos_sub] in *.
    set (crt := splice 1840 (replicate 80 0) (scroll (s_crt s))).
    assert (length (scroll (s_crt s)) = length (s_crt s)) as Hls by (unfold scroll; rewrite length_app, length_slice, length_drop by lia; lia).
    assert (length crt = length (s_crt s)) as Hlc by (unfold crt; rewrite length_splice; rewrite ?length_replicate; lia).
    change (1920 - 80) with 1840. cbn zeta. change (1920 <? 1840) with false. cbn iota.
    apply wp_bind, wp_bind, wp_modify, wp_bind, wp_modify, wp_ret, wp_bind, wp_modify. cbn [s_crt s_uart].
    change (splice (Z.to_nat 1840) (replicate (Z.to_nat (1920 - 1840)) 0) (scroll (s_crt s))) with crt.
    apply wp_crt_set; [cbn [s_crt]; lia|]. cbn [s_crt s_pos s_uart]. change (u16 1840) with 1840. apply HQ; [| |done].
    + split; cbn [s_crt s_pos]; [rewrite length_insert; lia|lia|]. apply blank_set; [lia| |done]. intros k w Hk Hw. unfold crt in Hw.
      rewrite lookup_splice_in in Hw by (rewrite length_replicate; lia). by apply lookup_replicate in Hw as [-> _].
    + unfold text. cbn [s_crt s_pos]. rewrite take_insert_ge by lia. unfold T. rewrite <- fmap_drop. f_equal.
      change (Z.to_nat 1920) with (80 + 1840)%nat. rewrite <- take_drop_commute. unfold crt, splice.
      rewrite take_app_length' by (rewrite length_take; lia). unfold scroll, slice. rewrite take_app_length'; [done|]. rewrite length_take, length_drop. lia.
  - rewrite (proj2 (Nat.leb_gt 1920 (Z.to_nat pos))) in HQ by elia. apply wp_bind, wp_ret, wp_bind, wp_modify, wp_crt_set; [cbn [s_crt]; elia|]. cbn [s_crt s_pos s_uart].
    assert (u16 pos = pos) as -> by (unfold u16; apply Z.mod_small; elia). apply HQ; [| |done].
    + split; cbn [s_crt s_pos]; [by rewrite length_insert|elia|]. apply blank_set; [lia|done|done].
    + unfold text. cbn [s_crt s_pos]. by rewrite take_insert_ge by lia.
Qed.

Lemma shown_char c : shown (Z.lor (Z.land c 255) 1792) = shown c.
Proof.
  unfold shown. assert (Z.land (Z.lor (Z.land c 255) 1792) 255 = Z.land c 255) as ->; [|done].
  rewrite Z.land_lor_distr_l, <- Z.land_assoc. change (Z.land 255 255) with 255. change (Z.land 1792 255) with 0. apply Z.lor_0_r.
Qed.

(** One character on the screen, and on the terminal. *)
Lemma wp_cgaputc c s (Q : unit -> screen -> Prop) :
  screen_ok s -> (forall s', screen_ok s' -> text s' = term (text s) c -> s_uart s' = s_uart s -> Q tt s') -> wp (cgaputc c) s Q.
Proof.
  intros Hs HQ. pose proof (length_text s Hs) as HT. destruct Hs as [Hl Hp Hb]. unfold cgaputc. apply wp_bind, wp_gets. unfold term in HQ. rewrite HT in HQ.
  destruct (c =? 10); [|destruct (c =? BACKSPACE)].
  - apply wp_bind, wp_ret. eapply wp_settle; [done|elia|intros k w Hk; apply Hb; elia|]. rewrite blank_run by (done || elia).
    replace (Z.to_nat (80 - s_pos s mod 80)) with (80 - Z.to_nat (s_pos s) mod 80)%nat; [exact HQ|].
    rewrite Z2Nat.inj_sub, Z2Nat.inj_mod by elia. done.
  - apply wp_bind, wp_ret. eapply wp_settle; [done|destruct (Z.ltb_spec 0 (s_pos s)); lia| |].
    + intros k w Hk. apply Hb. destruct (Z.ltb_spec 0 (s_pos s)); lia.
    + unfold text in HQ. rewrite <- fmap_take, take_take in HQ.
      replace (Z.to_nat (if 0 <? s_pos s then s_pos s - 1 else s_pos s)) with ((Z.to_nat (s_pos s) - 1) `min` Z.to_nat (s_pos s))%nat; [exact HQ|].
      destruct (Z.ltb_spec 0 (s_pos s)); lia.
  - apply wp_bind, wp_bind, wp_crt_set; [lia|]. apply wp_ret. eapply wp_settle; cbn [s_crt s_uart s_pos]; [by rewrite length_insert|lia| |].
    + intros k w Hk. rewrite list_lookup_insert_ne by lia. apply Hb. lia.
    + rewrite Z2Nat.inj_add, Nat.add_1_r by lia.
      rewrite (take_S_r _ _ (Z.lor (Z.land c 255) 1792)) by (apply list_lookup_insert_eq; lia). rewrite take_insert_ge by lia.
      rewrite fmap_app, list_fmap_singleton, shown_char. exact HQ.
Qed.

(** What goes over the serial line. *)
Definition serial (c : Z) : list Z := if c =? BACKSPACE then [8; 32; 8] else [u8 c].

Lemma wp_consputc c s (Q : unit -> screen -> Prop) :
  screen_ok s -> (forall s', screen_ok s' -> text s' = term (text s) c -> s_uart s' = s_uart s ++ serial c -> Q tt s') -> wp (consputc c) s Q.
Proof.
  intros Hs HQ. unfold consputc, serial in *. apply wp_bind.
  destruct (c =? BACKSPACE); [do 2 apply wp_bind, wp_modify|]; apply wp_modify; eapply wp_cgaputc; try (by destruct Hs); intros s' Hs' Ht Hu;
    (apply HQ; [done|exact Ht|]); rewrite Hu; cbn; by rewrite <- ?app_assoc.
Qed.

Lemma wp_consputcs cs : forall s (Q : unit -> screen -> Prop),
  screen_ok s -> (forall s', screen_ok s' -> text s' = foldl term (text s) cs -> s_uart s' = s_uart s ++ mjoin (serial <$> cs) -> Q tt s') ->
  wp (for_all cs consputc) s Q.
Proof.
  induction cs as [|c cs IH]; intros s Q Hs HQ; cbn [for_all].
  - apply wp_ret, HQ; [done|done|]. cbn. by rewrite app_nil_r.
  - eapply wp_bind, wp_consputc; [exact Hs|]. intros s1 Hs1 Ht1 Hu1. apply IH; [done|]. intros s2 Hs2 Ht2 Hu2. apply HQ; [done|by rewrite Ht2, Ht1|].
    rewrite Hu2, Hu1. cbn. by rewrite app_assoc.
Qed.

Lemma serial_bytes buf : mjoin (serial <$> (u8 <$> buf)) = u8 <$> buf.
Proof.
  induction buf as [|b buf IH]; [done|]. cbn. unfold serial at 1. destruct (Z.eqb_spec (u8 b) BACKSPACE) as [He|_]; [unfold u8, BACKSPACE in He; elia|].
  cbn. f_equal; [unfold u8; elia|exact IH].
Qed.

(** C23: The screen is a terminal of 24 rows: whatever is written to the console, [cgaputc] neither panics nor leaves the memory of
    the adapter, the text in front of the cursor is the text of a terminal that wraps at 80 columns, erases backwards
    and scrolls off its first row, and the same characters go to the serial line. *)
Theorem console_terminal s buf :
  screen_ok s ->
  exists s', consolewrite buf s = Ok (Z.of_nat (length buf)) s' /\ screen_ok s' /\
    text s' = foldl term (text s) (u8 <$> buf) /\ s_uart s' = s_uart s ++ (u8 <$> buf).
Proof.
  intros Hs. assert (wp (consolewrite buf) s (fun r s' => r = Z.of_nat (length buf) /\ screen_ok s' /\
    text s' = foldl term (text s) (u8 <$> buf) /\ s_uart s' = s_uart s ++ (u8 <$> buf))) as Hw.
  { eapply wp_bind, wp_consputcs; [exact Hs|]. intros s' Hs' Ht Hu. apply wp_ret. by rewrite serial_bytes in Hu. }
  apply wp_ok in Hw as (r & s' & He & -> & ?). by exists s'.
Qed.

Definition screen_bss : screen := Screen (replicate (Z.to_nat 16384) 1824) 1918 [].

Lemma screen_bss_ok : screen_ok screen_bss.
Proof.
  split; cbn [screen_bss s_crt s_pos]; [rewrite length_replicate; lia|lia|]. intros k w _ Hw. by apply lookup_replicate in Hw as [-> _].
Qed.

(** The end of the last row: two characters and a third one after scrolling. *)
Lemma console_terminal_witness :
  exists s', consolewrite [104; 105; 33] screen_bss = Ok 3 s' /\ text s' = foldl term (text screen_bss) [104; 105; 33].
Proof.
  destruct (console_terminal screen_bss [104; 105; 33] screen_bss_ok) as (s' & He & _ & Ht & _). exists s'. split; [exact He|exact Ht].
Defined.
