(* ===== verification/Port.v ===== *)
(** Devices (x86.h): the instructions that read and write a port of a device, and accesses to its registers in memory.

    A device is a state with the answers it gives; each driver is written against the interface, and each device that
    a theorem is about is an instance. *)

From S2P Require Import Prelude Bytes.

Class Ports (D : Type) := {
  port_in : Z -> D -> Z * D;
  port_out : Z -> Z -> D -> D;
}.

Definition inb {D} `{Ports D} (port : Z) : M D Z := fun d => let '(v, d') := port_in port d in Ok (u8 v) d'.
Definition outb {D} `{Ports D} (port data : Z) : M D unit := modify (port_out port (u8 data)).

(** Registers in memory, by their address; a read of one may change the device. *)
Class Mmio (D : Type) := {
  mmio_rd : Z -> D -> Z * D;
  mmio_wr : Z -> Z -> D -> D;
}.

Definition mmio_read {D} `{Mmio D} (a : Z) : M D Z := fun d => let '(v, d') := mmio_rd a d in Ok (u32 v) d'.
Definition mmio_write {D} `{Mmio D} (a v : Z) : M D unit := modify (mmio_wr a (u32 v)).
