(* ===== verification/Kbd.v ===== *)
(** The keyboard (kbd.c, kbd.h): the tables of scan codes, [kbdgetc] and [kbdintr]; and that what is typed is what a
    program reads from the console. *)

From S2P Require Import Prelude Bytes Pipe Console Port.

Definition KBSTATP : Z := 0x64.
Definition KBS_DIB : Z := 0x01.
Definition KBDATAP : Z := 0x60.
Definition SHIFT : Z := 1.
Definition CTL : Z := 2.
Definition ALT : Z := 4.
Definition CAPSLOCK : Z := 8.
Definition NUMLOCK : Z := 16.
Definition SCROLLLOCK : Z := 32.
Definition E0ESC : Z := 64.

(** ** Tables: the first elements in order, then elements by index *)
Definition table (l : list Z) (sparse : list (Z * Z)) : list Z :=
  foldl (fun t x => <[Z.to_nat x.1 := x.2]> t) (l ++ replicate (256 - length l) 0) sparse.

Definition chars (s : string) : list Z := (fun a => Z.of_nat (Ascii.nat_of_ascii a)) <$> String.list_ascii_of_string s.

Definition shiftcode : list Z := table [] [(0x1D, CTL); (0x2A, SHIFT); (0x36, SHIFT); (0x38, ALT); (0x9D, CTL); (0xB8, ALT)].
Definition togglecode : list Z := table [] [(0x3A, CAPSLOCK); (0x45, NUMLOCK); (0x46, SCROLLLOCK)].

(** KEY_UP and the other special keys, KP_Enter being [enter] and KP_Div being [div]. *)
Definition special (enter div : Z) : list (Z * Z) :=
  [(0x9C, enter); (0xB5, div); (0xC8, 0xE2); (0xD0, 0xE3); (0xC9, 0xE6); (0xD1, 0xE7); (0xCB, 0xE4); (0xCD, 0xE5);
   (0x97, 0xE0); (0xCF, 0xE1); (0xD2, 0xE8); (0xD3, 0xE9)].

Definition keypad : list Z :=
  [0; 32; 0; 0; 0; 0; 0; 0] ++ [0; 0; 0; 0; 0; 0; 0; 55] ++ chars "89-456+1" ++ chars "230." ++ [0; 0; 0; 0].

Definition normalmap : list Z := table (
  [0; 0x1B] ++ chars "123456" ++
  chars "7890-=" ++ [8; 9] ++
  chars "qwertyui" ++
  chars "op[]" ++ [10; 0] ++ chars "as" ++
  chars "dfghjkl;" ++
  [39] ++ chars "`" ++ [0] ++ chars "\zxcv" ++
  chars "bnm,./" ++ [0] ++ chars "*" ++
  keypad) (special 10 47).

Definition shiftmap : list Z := table (
  [0; 0x1B] ++ chars "!@#$%^" ++
  chars "&*()_+" ++ [8; 9] ++
  chars "QWERTYUI" ++
  chars "OP{}" ++ [10; 0] ++ chars "AS" ++
  chars "DFGHJKL:" ++
  [34] ++ chars "~" ++ [0] ++ chars "|ZXCV" ++
  chars "BNM<>?" ++ [0] ++ chars "*" ++
  keypad) (special 10 47).

(** [C(x)] of the characters of a string, that is [x - '@']; [C('/')] is 0xEF as a [uchar]. *)
Definition ctl (s : string) : list Z := (fun c => u8 (c - 64)) <$> chars s.
Definition ctlmap : list Z := table (
  replicate 16 0 ++
  ctl "QWERTYUI" ++
  ctl "OP" ++ [0; 0; 13; 0] ++ ctl "AS" ++
  ctl "DFGHJKL" ++ [0] ++
  [0; 0; 0] ++ ctl "\ZXCV" ++
  ctl "BNM" ++ [0; 0] ++ ctl "/" ++ [0; 0]) (special 13 (u8 (47 - 64))).

Definition charcode (k : Z) : list Z := if k =? 0 then normalmap else if k =? 1 then shiftmap else ctlmap.

(** ** Decoding

    [kbd_code data shift] is the result and the new value of the static variable [shift]. *)
Definition has (x bit : Z) : bool := negb (Z.land x bit =? 0).

Definition swap_case (c : Z) : Z :=
  if (97 <=? c) && (c <=? 122) then c + (65 - 97) else if (65 <=? c) && (c <=? 90) then c + (97 - 65) else c.

Definition kbd_code (data shift : Z) : Z * Z :=
  if data =? 0xE0 then (0, Z.lor shift E0ESC)
  else if has data 0x80 then
    let data := if has shift E0ESC then data else Z.land data 0x7F in
    (0, Z.ldiff shift (Z.lor (rd shiftcode data) E0ESC))
  else
    let '(data, shift) := if has shift E0ESC then (Z.lor data 0x80, Z.ldiff shift E0ESC) else (data, shift) in
    let shift := Z.lxor (Z.lor shift (rd shiftcode data)) (rd togglecode data) in
    let c := rd (charcode (Z.land shift (Z.lor CTL SHIFT))) data in
    (if has shift CAPSLOCK then swap_case c else c, shift).

Record kbd (D : Type) := Kbd { k_shift : Z; k_dev : D }.
Arguments Kbd {D}.
Arguments k_shift {D}.
Arguments k_dev {D}.

Section Driver.
Context {D : Type} `{Ports D}.

Definition kdev {A} : M D A -> M (kbd D) A := zoom k_dev (fun d s => Kbd (k_shift s) d).

Definition kbdgetc : M (kbd D) Z :=
  st ← kdev (inb KBSTATP);
  if Z.land st KBS_DIB =? 0 then mret (-1)
  else
    data ← kdev (inb KBDATAP);
    shift ← gets k_shift;
    let '(c, shift) := kbd_code data shift in
    modify (fun s => Kbd shift (k_dev s)) ;;
    mret c.

End Driver.

(** The calls of [getc] in [consoleintr], up to the first negative result. *)
Fixpoint getc_loop {S} (fuel : nat) (getc : M S Z) : M S (list Z) :=
  match fuel with
  | O => nofuel
  | S fuel => c ← getc; if c <? 0 then mret [] else cs ← getc_loop fuel getc; mret (c :: cs)
  end.

(** [kbdintr]: the rounds of [consoleintr] do not touch the keyboard, so its characters can be fetched first. *)
Definition kbdintr {D} `{Ports D} (fuel : nat) (i : input) : M (kbd D) (input * list Z * bool) :=
  cs ← getc_loop fuel kbdgetc; mret (consoleintr cs i).

(** ** The keyboard controller: the scan codes that wait in its buffer *)
#[global] Instance i8042 : Ports (list Z) := {
  port_in p q := if p =? KBSTATP then (if q is [] then 0 else KBS_DIB, q)
                 else if p =? KBDATAP then (default 0 (head q), tail q) else (0xFF, q);
  port_out _ _ q := q;
}.

Fixpoint decode (scan : list Z) (shift : Z) : list Z * Z :=
  match scan with
  | [] => ([], shift)
  | d :: scan => let '(c, shift) := kbd_code d shift in let '(cs, shift) := decode scan shift in (c :: cs, shift)
  end.

Lemma decode_app s1 : forall s2 shift, decode (s1 ++ s2) shift =
  let '(c1, shift1) := decode s1 shift in let '(c2, shift2) := decode s2 shift1 in (c1 ++ c2, shift2).
Proof.
  induction s1 as [|d s1 IH]; intros s2 shift; cbn [decode app].
  - by destruct (decode s2 shift).
  - destruct (kbd_code d shift) as [c shift']. rewrite IH. destruct (decode s1 shift') as [c1 shift1]. by destruct (decode s2 shift1).
Qed.

Lemma table_bytes l sp : forallb (fun c => (0 <=? c) && (c <? 256)) (table l sp) = true -> forall i, 0 <= rd (table l sp) i < 256.
Proof.
  intros Ht i. unfold rd. destruct (table l sp !! Z.to_nat i) as [c|] eqn:Hc; cbn [default]; [|lia].
  rewrite forallb_forall in Ht. apply list_elem_of_lookup_2, list_elem_of_In, Ht in Hc. apply andb_true_iff in Hc as [?%Z.leb_le ?%Z.ltb_lt]. done.
Qed.

Lemma kbd_code_byte data shift : 0 <= (kbd_code data shift).1 < 256.
Proof.
  unfold kbd_code. destruct (data =? 224); [cbn; lia|]. destruct (has data 128); [cbn; lia|].
  destruct (if has shift E0ESC then _ else _) as [d sh]. cbn [fst].
  set (k := Z.land _ _). assert (0 <= rd (charcode k) d < 256) as Hc.
  { unfold charcode. destruct (k =? 0); [|destruct (k =? 1)]; by apply table_bytes. }
  set (c := rd _ d) in *. unfold swap_case. repeat case_match; lia.
Qed.

Lemma getc_loop_decode q : forall shift fuel, Forall (fun d => 0 <= d < 256) q -> (length q < fuel)%nat ->
  getc_loop fuel kbdgetc (Kbd shift q) = Ok (decode q shift).1 (Kbd (decode q shift).2 []).
Proof.
  induction q as [|d q IH]; intros shift [|fuel] Hq Hf; try (cbn in Hf; lia); [done|]. apply Forall_cons in Hq as [Hd Hq].
  cbn [getc_loop decode]. pose proof (kbd_code_byte d shift) as Hc.
  assert (kbdgetc (Kbd shift (d :: q)) = Ok (kbd_code d shift).1 (Kbd (kbd_code d shift).2 q)) as He.
  { unfold kbdgetc. rewrite (bind_ok _ _ _ 1 (Kbd shift (d :: q))) by done.
    change (Z.land 1 KBS_DIB =? 0) with false. cbv iota. rewrite (bind_ok _ _ _ d (Kbd shift q)); [rewrite (bind_ok _ _ _ shift (Kbd shift q)) by done; by destruct (kbd_code d shift)|].
    transitivity (@Ok (kbd (list Z)) _ (u8 d) (Kbd shift q)); [done|by rewrite u8_small]. }
  rewrite (bind_ok _ _ _ _ _ He). destruct (kbd_code d shift) as [c shift']. cbn [fst snd] in *. rewrite (proj2 (Z.ltb_ge c 0)) by lia.
  rewrite (bind_ok _ _ _ _ _ (IH shift' fuel Hq ltac:(cbn in Hf; lia))). by destruct (decode q shift').
Qed.

(** ** Typing *)

(** A key that gives [c], among the keys without an escape code. *)
Definition find_key (t : list Z) (c : Z) : option Z := (fun x => Z.of_nat x.1) <$> list_find (fun x => x = c) (take 0x58 t).

(** Pressing and releasing a key, with the shift key held if the character needs it. *)
Definition stroke (shift c : Z) : list Z :=
  let c := if has shift CAPSLOCK then swap_case c else c in
  match find_key normalmap c with
  | Some d => [d; d + 128]
  | None => match find_key shiftmap c with Some d => [0x2A; d; d + 128; 0xAA] | None => [] end
  end.

Definition typed (shift : Z) (s : list Z) : list Z := mjoin (stroke shift <$> s).

(** The printable characters and the newline. *)
Definition typable (c : Z) : Prop := c = 10 \/ 32 <= c < 127.

(** Neither shift nor control is held and no escape code has been seen; the locks are arbitrary. *)
Definition idle (shift : Z) : Prop := 0 <= shift < 64 /\ Z.land shift (Z.lor CTL SHIFT) = 0.

Definition stroke_good (shift c : Z) : bool :=
  let '(cs, shift') := decode (stroke shift c) shift in
  bool_decide (filter (fun c => c <> 0) cs = [c]) && (shift' =? shift) &&
  forallb (fun d => (0 <=? d) && (d <? 256)) (stroke shift c).

Lemma strokes_good : forallb (fun shift => negb (Z.land shift 3 =? 0) || forallb (stroke_good shift) (10 :: seqZ 32 95)) (seqZ 0 64) = true.
Proof. by vm_compute. Qed.

Lemma stroke_ok shift c : idle shift -> typable c -> stroke_good shift c = true.
Proof.
  intros [Hs Hi] Hc. pose proof strokes_good as Hg. rewrite forallb_forall in Hg.
  specialize (Hg shift). rewrite orb_true_iff, forallb_forall in Hg. destruct Hg as [Hg|Hg].
  - apply list_elem_of_In, elem_of_seqZ. lia.
  - change 3 with (Z.lor CTL SHIFT) in Hg. by rewrite Hi in Hg.
  - apply Hg. apply list_elem_of_In, elem_of_cons. destruct Hc as [->|Hc]; [by left|right]. apply elem_of_seqZ. lia.
Qed.

Lemma decode_typed shift s : idle shift -> Forall typable s ->
  filter (fun c => c <> 0) (decode (typed shift s) shift).1 = s /\ (decode (typed shift s) shift).2 = shift /\
  Forall (fun d => 0 <= d < 256) (typed shift s).
Proof.
  intros Hi. induction 1 as [|c s Hc Hs IH]; [done|]. unfold typed in *. cbn [fmap list_fmap mjoin list_join]. rewrite decode_app.
  pose proof (stroke_ok shift c Hi Hc) as Hg. unfold stroke_good in Hg. destruct (decode (stroke shift c) shift) as [c1 shift1].
  rewrite !andb_true_iff in Hg. destruct Hg as [[Hc1%bool_decide_eq_true Hsh%Z.eqb_eq] Hb]. subst shift1.
  destruct IH as (IH1 & IH2 & IH3). destruct (decode (mjoin _) shift) as [c2 shift2]. cbn [fst snd] in *. rewrite filter_app, Hc1, IH1.
  split; [done|]. split; [done|]. apply Forall_app. split; [|done]. apply Forall_forall. intros d Hd.
  rewrite forallb_forall in Hb. apply list_elem_of_In, Hb in Hd. apply andb_true_iff in Hd as [?%Z.leb_le ?%Z.ltb_lt]. done.
Qed.

Lemma keys_nonzero cs : forall s, foldl (flip key) s cs = foldl (flip key) s (filter (fun c => c <> 0) cs).
Proof.
  induction cs as [|c cs IH]; intros s; [done|]. rewrite filter_cons. cbn [foldl]. destruct (decide (c <> 0)) as [|Hc]; [by rewrite IH|].
  assert (c = 0) as -> by lia. rewrite IH. by destruct s.
Qed.

Lemma keys_line ed line : Forall (fun c => 32 <= c < 127) line -> (length ed + length line < 128)%nat ->
  foldl (flip key) ([], ed) line = ([], ed ++ line).
Proof.
  intros Hl. revert ed. induction Hl as [|c line Hc Hl IH]; intros ed Hlen; cbn [foldl length] in *; [by rewrite app_nil_r|].
  assert (flip key ([], ed) c = ([], ed ++ [c])) as ->.
  { cbn [flip key]. unfold CTRL. repeat (rewrite (proj2 (Z.eqb_neq c _)) by lia). cbn [orb negb andb length Nat.add].
    rewrite (proj2 (Nat.ltb_lt _ _)), (proj2 (Nat.eqb_neq _ _)) by lia. done. }
  rewrite IH by (rewrite length_app; cbn; lia). by rewrite <- app_assoc.
Qed.

Lemma key_enter ed : (length ed < 128)%nat -> flip key ([], ed) 10 = (ed ++ [10], []).
Proof. intros Hl. cbn [flip key]. unfold CTRL. cbn -[Nat.ltb Nat.eqb]. by rewrite (proj2 (Nat.ltb_lt _ _)) by lia. Qed.

Lemma decode_bytes scan : forall shift cs shift', decode scan shift = (cs, shift') -> Forall (fun c => 0 <= c < 256) cs.
Proof.
  induction scan as [|d scan IH]; intros shift cs shift'; cbn [decode]; [by intros [= <- _]|].
  pose proof (kbd_code_byte d shift) as Hc. destruct (kbd_code d shift) as [c sh]. destruct (decode scan sh) as [cs' sh'] eqn:Hd.
  intros [= <- <-]. constructor; [exact Hc|by eapply IH].
Qed.

Lemma read_whole line : forall n got, Forall (fun c => 32 <= c < 127) line -> (length line < n)%nat ->
  read_line false n got (line ++ [10]) = (Ret (Some (got ++ line ++ [10])), []).
Proof.
  induction line as [|c line IH]; intros [|n] got Hl Hn; try (cbn in Hn; lia); cbn [app read_line]; [done|].
  apply Forall_cons in Hl as [Hc Hl]. unfold CTRL. repeat (rewrite (proj2 (Z.eqb_neq c _)) by lia).
  rewrite IH by (done || cbn in Hn; lia). by rewrite <- app_assoc.
Qed.

(** C24: What is typed is what is read. On a console with no line waiting, the scan codes of any line of fewer than 128 printable
    characters and the return key, whatever lock keys are on, go through the keyboard interrupt and the input
    buffer, and a read that asks for more bytes than the line has returns the line with its newline; the keyboard and the buffer are
    then as before. *)
Theorem keyboard_to_read line shift i n :
  idle shift -> input_ok i -> queued i = [] -> editing i = [] ->
  Forall (fun c => 32 <= c < 127) line -> (length line < 128)%nat -> Z.of_nat (length line) < n ->
  let q := typed shift (line ++ [10]) in
  exists i1 out w i2,
    kbdintr (S (length q)) i (Kbd shift q) = Ok (i1, out, w) (Kbd shift []) /\
    consoleread false n i1 = (Ret (Some (line ++ [10])), i2) /\
    input_ok i2 /\ queued i2 = [] /\ editing i2 = [].
Proof.
  intros Hi Hok Hq Hed Hl Hlen Hn. cbn zeta.
  destruct (decode_typed shift (line ++ [10]) Hi) as (Hc & Hsh & Hb).
  { apply Forall_app. split; [|by repeat constructor]. eapply Forall_impl; [exact Hl|]. intros c Hr. by right. }
  unfold kbdintr. rewrite (bind_ok _ _ _ _ _ (getc_loop_decode _ shift _ Hb (Nat.lt_succ_diag_r _))).
  destruct (decode (typed shift (line ++ [10])) shift) as [cs shift'] eqn:Hd. cbn [fst snd] in *. subst shift'.
  assert (Forall (fun c => 0 <= c < 256) cs) as Hcs by (eapply decode_bytes, Hd).
  destruct (consoleintr_ok cs i [] false Hok Hcs) as [Hok1 Hk]. fold (consoleintr cs i) in Hok1, Hk.
  destruct (consoleintr cs i) as [[i1 out] w] eqn:Hi1. cbn [fst] in *.
  rewrite keys_nonzero, Hc, Hq, Hed, foldl_app, keys_line in Hk by (done || cbn; lia). cbn [app foldl] in Hk.
  rewrite key_enter in Hk by lia. injection Hk as Hq1 Hed1.
  pose proof (read_ok false (Z.to_nat n) [] i1 Hok1) as Hr. rewrite Hq1, read_whole in Hr by (done || lia). fold (consoleread false n i1) in Hr.
  destruct (consoleread false n i1) as [r i2] eqn:He. destruct Hr as (Hok2 & [= <- Hq2] & Hed2).
  exists i1, out, w, i2. rewrite Hed2. done.
Qed.

(** [Hi!] with caps lock on. *)
Lemma keyboard_to_read_witness : exists i1 out w i2,
  kbdintr 13 input_bss (Kbd CAPSLOCK (typed CAPSLOCK [72; 105; 33; 10])) = Ok (i1, out, w) (Kbd CAPSLOCK []) /\
  consoleread false 10 i1 = (Ret (Some [72; 105; 33; 10]), i2).
Proof.
  destruct (keyboard_to_read [72; 105; 33] CAPSLOCK input_bss 10) as (i1 & out & w & i2 & Hk & Hr & _);
    [by vm_compute|exact input_bss_ok|done|done|repeat constructor; lia|cbn; lia|cbn; lia|].
  exists i1, out, w, i2. split; [exact Hk|exact Hr].
Defined.
