(* ===== verification/Apic.v ===== *)
(** Interrupt controllers and clock (lapic.c, ioapic.c, picirq.c): the routing of interrupts by the I/O APIC, the local
    APIC of a processor, and the date that the real-time clock keeps.

    The drivers run on a device with ports and registers in memory. [plat] has the static variables of these files:
    the address [lapic] and the id [ioapicid] found by mp.c, and the warm reset vector at 0x467; [p_out] are the messages
    given to [cprintf]. *)

From S2P Require Import Prelude Bytes Port Trap.

Definition IRQ_ERROR : Z := 19.

Record plat (D : Type) := Plat { p_lapic : Z; p_ioapicid : Z; p_wrv : Z * Z; p_out : list string; p_dev : D }.
Arguments Plat {D}.
Arguments p_lapic {D}.
Arguments p_ioapicid {D}.
Arguments p_wrv {D}.
Arguments p_out {D}.
Arguments p_dev {D}.

Definition pdev {D A} : M D A -> M (plat D) A :=
  zoom p_dev (fun d s => Plat (p_lapic s) (p_ioapicid s) (p_wrv s) (p_out s) d).
Definition say {D} (msg : string) : M (plat D) unit :=
  modify (fun s => Plat (p_lapic s) (p_ioapicid s) (p_wrv s) (p_out s ++ [msg]) (p_dev s)).

(** ** The I/O APIC *)
Definition IOAPIC : Z := 0xFEC00000.
Definition REG_ID : Z := 0x00.
Definition REG_VER : Z := 0x01.
Definition REG_TABLE : Z := 0x10.
Definition INT_DISABLED : Z := 0x00010000.

Section Ioapic.
Context {D : Type} `{Mmio D}.

Definition ioapicread (reg : Z) : M D Z := mmio_write IOAPIC reg ;; mmio_read (IOAPIC + 16).
Definition ioapicwrite (reg data : Z) : M D unit := mmio_write IOAPIC reg ;; mmio_write (IOAPIC + 16) data.

Definition ioapicinit : M (plat D) unit :=
  ver ← pdev (ioapicread REG_VER);
  let maxintr := Z.land (Z.shiftr ver 16) 0xFF in
  idr ← pdev (ioapicread REG_ID);
  let id := Z.shiftr idr 24 in
  ioapicid ← gets p_ioapicid;
  guard_ok (negb (id =? ioapicid)) (say "ioapicinit: id isn't equal to ioapicid; not a MP") ;;
  for_all (range 0 (maxintr + 1)) (fun i =>
    pdev (ioapicwrite (REG_TABLE + 2 * i) (Z.lor INT_DISABLED (T_IRQ0 + i))) ;;
    pdev (ioapicwrite (REG_TABLE + 2 * i + 1) 0)).

Definition ioapicenable (irq cpunum : Z) : M (plat D) unit :=
  pdev (ioapicwrite (REG_TABLE + 2 * irq) (T_IRQ0 + irq)) ;;
  pdev (ioapicwrite (REG_TABLE + 2 * irq + 1) (Z.shiftl cpunum 24)).
End Ioapic.

(** ** The 8259A controllers *)
Definition IO_PIC1 : Z := 0x20.
Definition IO_PIC2 : Z := 0xA0.
Definition picinit {D} `{Ports D} : M (plat D) unit := pdev (outb (IO_PIC1 + 1) 0xFF) ;; pdev (outb (IO_PIC2 + 1) 0xFF).

(** ** The local APIC, by the indices of its registers *)
Definition ID : Z := 0x0020 / 4.
Definition VER : Z := 0x0030 / 4.
Definition TPR : Z := 0x0080 / 4.
Definition EOI : Z := 0x00B0 / 4.
Definition SVR : Z := 0x00F0 / 4.
Definition ENABLE : Z := 0x00000100.
Definition ESR : Z := 0x0280 / 4.
Definition ICRLO : Z := 0x0300 / 4.
Definition INIT : Z := 0x00000500.
Definition STARTUP : Z := 0x00000600.
Definition DELIVS : Z := 0x00001000.
Definition ASSERT : Z := 0x00004000.
Definition LEVEL : Z := 0x00008000.
Definition BCAST : Z := 0x00080000.
Definition ICRHI : Z := 0x0310 / 4.
Definition TIMER : Z := 0x0320 / 4.
Definition X1 : Z := 0x0000000B.
Definition PERIODIC : Z := 0x00020000.
Definition PCINT : Z := 0x0340 / 4.
Definition LINT0 : Z := 0x0350 / 4.
Definition LINT1 : Z := 0x0360 / 4.
Definition ERROR : Z := 0x0370 / 4.
Definition MASKED : Z := 0x00010000.
Definition TICR : Z := 0x0380 / 4.
Definition TDCR : Z := 0x03E0 / 4.

Section Lapic.
Context {D : Type} `{Mmio D} `{Ports D}.

Definition lapicr (index : Z) : M (plat D) Z := base ← gets p_lapic; pdev (mmio_read (base + 4 * index)).
Definition lapicw (index value : Z) : M (plat D) unit :=
  base ← gets p_lapic;
  pdev (mmio_write (base + 4 * index) value) ;;
  _ ← lapicr ID; mret tt.

(** [while(lapic[ICRLO] & DELIVS)]. *)
Fixpoint wait_delivery (fuel : nat) : M (plat D) unit :=
  match fuel with
  | O => nofuel
  | S fuel => v ← lapicr ICRLO; if Z.land v DELIVS =? 0 then mret tt else wait_delivery fuel
  end.

Definition lapicinit (fuel : nat) : M (plat D) unit :=
  base ← gets p_lapic;
  if base =? 0 then mret tt
  else
    lapicw SVR (Z.lor ENABLE (T_IRQ0 + IRQ_SPURIOUS)) ;;
    lapicw TDCR X1 ;;
    lapicw TIMER (Z.lor PERIODIC (T_IRQ0 + IRQ_TIMER)) ;;
    lapicw TICR 10000000 ;;
    lapicw LINT0 MASKED ;;
    lapicw LINT1 MASKED ;;
    ver ← lapicr VER;
    guard_ok (4 <=? Z.land (Z.shiftr ver 16) 0xFF) (lapicw PCINT MASKED) ;;
    lapicw ERROR (T_IRQ0 + IRQ_ERROR) ;;
    lapicw ESR 0 ;;
    lapicw ESR 0 ;;
    lapicw EOI 0 ;;
    lapicw ICRHI 0 ;;
    lapicw ICRLO (Z.lor (Z.lor BCAST INIT) LEVEL) ;;
    wait_delivery fuel ;;
    lapicw TPR 0.

Definition lapicid : M (plat D) Z :=
  base ← gets p_lapic;
  if base =? 0 then mret 0 else v ← lapicr ID; mret (Z.shiftr v 24).

Definition lapiceoi : M (plat D) unit :=
  base ← gets p_lapic; guard_ok (negb (base =? 0)) (lapicw EOI 0).

Definition CMOS_PORT : Z := 0x70.
Definition CMOS_RETURN : Z := 0x71.

Definition lapicstartap (apicid addr : Z) : M (plat D) unit :=
  pdev (outb CMOS_PORT 0xF) ;;
  pdev (outb (CMOS_PORT + 1) 0x0A) ;;
  modify (fun s => Plat (p_lapic s) (p_ioapicid s) (0, u16 (Z.shiftr addr 4)) (p_out s) (p_dev s)) ;;
  lapicw ICRHI (Z.shiftl apicid 24) ;;
  lapicw ICRLO (Z.lor (Z.lor INIT LEVEL) ASSERT) ;;
  lapicw ICRLO (Z.lor INIT LEVEL) ;;
  for_all (range 0 2) (fun _ =>
    lapicw ICRHI (Z.shiftl apicid 24) ;;
    lapicw ICRLO (Z.lor STARTUP (Z.shiftr addr 12))).
End Lapic.

(** ** The real-time clock *)
Record rtcdate := Date { second : Z; minute : Z; hour : Z; day : Z; month : Z; year : Z }.
#[global] Instance rtcdate_eq_dec : EqDecision rtcdate.
Proof. solve_decision. Defined.

Definition CMOS_STATA : Z := 0x0a.
Definition CMOS_STATB : Z := 0x0b.
Definition CMOS_UIP : Z := Z.shiftl 1 7.
Definition SECS : Z := 0x00.
Definition MINS : Z := 0x02.
Definition HOURS : Z := 0x04.
Definition DAY : Z := 0x07.
Definition MONTH : Z := 0x08.
Definition YEAR : Z := 0x09.

Definition conv (x : Z) : Z := Z.shiftr x 4 * 10 + Z.land x 0xf.
Definition convert (t : rtcdate) : rtcdate :=
  Date (conv (second t)) (conv (minute t)) (conv (hour t)) (conv (day t)) (conv (month t)) (conv (year t)).

Section Cmos.
Context {D : Type} `{Ports D}.

Definition cmos_read (reg : Z) : M D Z := outb CMOS_PORT reg ;; inb CMOS_RETURN.

Definition fill_rtcdate : M D rtcdate :=
  s ← cmos_read SECS;
  m ← cmos_read MINS;
  h ← cmos_read HOURS;
  d ← cmos_read DAY;
  mo ← cmos_read MONTH;
  y ← cmos_read YEAR;
  mret (Date s m h d mo y).

(** The loop that ends when two readings agree. *)
Fixpoint read_twice (fuel : nat) : M D rtcdate :=
  match fuel with
  | O => nofuel
  | S fuel =>
      t1 ← fill_rtcdate;
      sa ← cmos_read CMOS_STATA;
      if negb (Z.land sa CMOS_UIP =? 0) then read_twice fuel
      else
        t2 ← fill_rtcdate;
        if bool_decide (t1 = t2) then mret t1 else read_twice fuel
  end.

Definition cmostime (fuel : nat) : M D rtcdate :=
  sb ← cmos_read CMOS_STATB;
  let bcd := Z.land sb (Z.shiftl 1 2) =? 0 in
  t1 ← read_twice fuel;
  let t1 := if bcd then convert t1 else t1 in
  mret (Date (second t1) (minute t1) (hour t1) (day t1) (month t1) (year t1 + 2000)).
End Cmos.

(** ** A clock that ticks while it is read

    [clock n] is the date at the [n]-th read of a register, [uip n] whether an update is in progress then, and the registers are
    in binary coded decimal or in binary. *)
Section Rtc.
Context (clock : nat -> rtcdate) (uip : nat -> bool) (bcd : bool).

Record rtc := Rtc { r_sel : Z; r_reads : nat }.

Definition code (x : Z) : Z := if bcd then 16 * (x / 10) + x mod 10 else x.
Definition rtc_reg (n : nat) (sel : Z) : Z :=
  if sel =? SECS then code (second (clock n)) else if sel =? MINS then code (minute (clock n)) else if sel =? HOURS then code (hour (clock n))
  else if sel =? DAY then code (day (clock n)) else if sel =? MONTH then code (month (clock n)) else if sel =? YEAR then code (year (clock n))
  else if sel =? CMOS_STATA then (if uip n then 0xA6 else 0x26) else if sel =? CMOS_STATB then (if bcd then 0x02 else 0x06) else 0.

#[local] Instance mc146818 : Ports rtc := {
  port_in p d := if p =? CMOS_RETURN then (rtc_reg (r_reads d) (r_sel d), Rtc (r_sel d) (S (r_reads d))) else (0xFF, d);
  port_out p v d := if p =? CMOS_PORT then Rtc v (r_reads d) else d;
}.

Definition two_digits (x : Z) : Prop := 0 <= x < 100.
Definition date_ok (t : rtcdate) : Prop :=
  two_digits (second t) /\ two_digits (minute t) /\ two_digits (hour t) /\ two_digits (day t) /\ two_digits (month t) /\ two_digits (year t).
Definition full (t : rtcdate) : rtcdate := Date (second t) (minute t) (hour t) (day t) (month t) (year t + 2000).

(** At most one tick in thirteen reads, and twenty-six reads from the [N]-th on without a tick or an update. *)
Context (N : nat) (Hdate : forall n, date_ok (clock n)).
Context (Hslow : forall n, exists j, forall i, (i <= 12)%nat -> clock (n + i) = if (i <? j)%nat then clock n else clock (n + 12)).
Context (Hquiet : forall n, (N <= n <= N + 26)%nat -> clock n = clock N /\ uip n = false).

Lemma code_byte x : two_digits x -> u8 (code x) = code x.
Proof. unfold two_digits, code. intros Hx. apply u8_small. destruct bcd; elia. Qed.

Lemma conv_code x : two_digits x -> (if bcd then conv (code x) else code x) = x.
Proof.
  unfold two_digits, code, conv. destruct bcd; [|done]. intros Hx. rewrite Z.shiftr_div_pow2 by lia. change 15 with (Z.ones 4). rewrite Z.land_ones by lia.
  change (2 ^ 4) with 16. elia.
Qed.

Definition reading (n : nat) : rtcdate :=
  Date (code (second (clock n))) (code (minute (clock (S n)))) (code (hour (clock (2 + n)))) (code (day (clock (3 + n))))
    (code (month (clock (4 + n)))) (code (year (clock (5 + n)))).

Lemma fill_reads sel n : fill_rtcdate (Rtc sel n) = Ok (reading n) (Rtc YEAR (6 + n)).
Proof.
  transitivity (@Ok rtc _ (Date (u8 (code (second (clock n)))) (u8 (code (minute (clock (S n))))) (u8 (code (hour (clock (2 + n)))))
    (u8 (code (day (clock (3 + n))))) (u8 (code (month (clock (4 + n))))) (u8 (code (year (clock (5 + n)))))) (Rtc YEAR (6 + n))); [done|].
  rewrite !code_byte by apply Hdate. done.
Qed.

Definition coded (t : rtcdate) : rtcdate :=
  Date (code (second t)) (code (minute t)) (code (hour t)) (code (day t)) (code (month t)) (code (year t)).

Lemma reading_at n t : (forall i, (i <= 5)%nat -> clock (i + n) = t) -> reading n = coded t.
Proof.
  intros Hc. unfold reading. change (S n) with (1 + n)%nat. rewrite !(Hc _) by lia. by rewrite (Hc 0%nat ltac:(lia) : clock n = t).
Qed.

(** Two readings that agree are a date of the clock. *)
Lemma agree n : reading n = reading (7 + n) -> exists m, (n <= m <= n + 12)%nat /\ reading n = coded (clock m).
Proof.
  intros Hr. destruct (Hslow n) as [j Hj]. destruct (decide (6 <= j)%nat) as [Hge|Hlt].
  - exists n. split; [lia|]. apply reading_at. intros i Hi. rewrite Nat.add_comm, Hj by lia. by rewrite (proj2 (Nat.ltb_lt _ j)) by lia.
  - exists (n + 12)%nat. split; [lia|]. rewrite Hr. apply reading_at. intros i Hi. replace (i + (7 + n))%nat with (n + (i + 7))%nat by lia.
    rewrite Hj by lia. by rewrite (proj2 (Nat.ltb_ge _ j)) by lia.
Qed.

Lemma stat_read sel n : cmos_read CMOS_STATA (Rtc sel n) = Ok (if uip n then 0xA6 else 0x26) (Rtc CMOS_STATA (S n)).
Proof. transitivity (@Ok rtc _ (u8 (if uip n then 0xA6 else 0x26)) (Rtc CMOS_STATA (S n))); [done|by destruct (uip n)]. Qed.

Lemma read_twice_ok fuel : forall sel n, (n <= N + 12)%nat -> (N - n < fuel)%nat ->
  exists m s', read_twice fuel (Rtc sel n) = Ok (coded (clock m)) s' /\ (m <= N + 26)%nat.
Proof.
  induction fuel as [|fuel IH]; intros sel n Hn Hf; [lia|]. cbn [read_twice].
  rewrite (bind_ok _ _ _ _ _ (fill_reads sel n)), (bind_ok _ _ _ _ _ (stat_read YEAR (6 + n))).
  destruct (uip (6 + n)) eqn:Hu.
  - destruct (decide (N <= n)%nat); [|apply IH; lia]. destruct (Hquiet (6 + n)) as [_ Hq]; [lia|congruence].
  - change (negb (Z.land 38 CMOS_UIP =? 0)) with false. cbv iota.
    rewrite (bind_ok _ _ _ _ _ (fill_reads CMOS_STATA (S (6 + n)))). change (S (6 + n)) with (7 + n)%nat.
    case_bool_decide as Ht.
    + destruct (agree n Ht) as (m & Hm & He). exists m, (Rtc YEAR (6 + (7 + n))). rewrite He. split; [done|lia].
    + destruct (decide (N <= n)%nat); [|apply IH; lia]. destruct Ht.
      by rewrite (reading_at n (clock N)), (reading_at (7 + n) (clock N)) by (intros i Hi; apply Hquiet; lia).
Qed.

(** C30: The date that [cmostime] returns is one that the clock had during the call, even if the clock ticks while its registers are
    read one after the other, in either of its number formats, with the years of this century; and the call returns as soon as the clock is
    quiet for twenty-six reads. *)
Theorem cmostime_not_torn : exists m s', cmostime (S (S N)) (Rtc 0 0) = Ok (full (clock m)) s' /\ (m <= N + 26)%nat.
Proof.
  destruct (read_twice_ok (S (S N)) CMOS_STATB 1) as (m & s' & He & Hm); [lia|lia|]. exists m, s'. split; [|done].
  unfold cmostime. rewrite (bind_ok _ _ _ (if bcd then 2 else 6) (Rtc CMOS_STATB 1)) by (transitivity (@Ok rtc _ (u8 (if bcd then 2 else 6)) (Rtc CMOS_STATB 1)); [done|by destruct bcd]).
  rewrite (bind_ok _ _ _ _ _ He). destruct (Hdate m) as (? & ? & ? & ? & ? & ?).
  transitivity (@Ok rtc _ (full (if bcd then convert (coded (clock m)) else coded (clock m))) s'); [by destruct bcd|].
  do 2 f_equal. destruct (clock m) as [se mi ho da mo ye]. cbn [second minute hour day month year] in *.
  pose proof (conv_code se). pose proof (conv_code mi). pose proof (conv_code ho). pose proof (conv_code da). pose proof (conv_code mo). pose proof (conv_code ye).
  unfold convert, coded. destruct bcd; cbn [second minute hour day month year]; f_equal; auto.
Qed.
End Rtc.

(** The end of a year in the middle of the first reading. *)
Definition new_year (n : nat) : rtcdate := if (n <? 5)%nat then Date 59 59 23 31 12 25 else Date 0 0 0 1 1 26.
Lemma cmostime_not_torn_witness :
  (let _ := mc146818 new_year (fun n => (n <? 9)%nat) true in
   exists m s', cmostime 11 (Rtc 0 0) = Ok (full (new_year m)) s' /\ (m <= 35)%nat).
Proof.
  apply (cmostime_not_torn new_year (fun n => (n <? 9)%nat) true 9).
  - intros n. unfold new_year. destruct (n <? 5)%nat; repeat split; cbn; lia.
  - intros n. exists (5 - n)%nat. intros i Hi. unfold new_year.
    destruct (Nat.ltb_spec (n + i) 5), (Nat.ltb_spec i (5 - n)), (Nat.ltb_spec n 5), (Nat.ltb_spec (n + 12) 5); try lia; done.
  - intros n Hn. unfold new_year. by rewrite !(proj2 (Nat.ltb_ge _ _)) by lia.
Defined.

(** ** An I/O APIC: the register that is selected, and the registers *)
Record i82093 := Ioapic { io_sel : Z; io_regs : gmap Z Z }.

#[global] Instance i82093_mmio : Mmio i82093 := {
  mmio_rd a d := (if a =? IOAPIC then io_sel d else if a =? IOAPIC + 16 then default 0 (io_regs d !! io_sel d) else 0, d);
  mmio_wr a v d := if a =? IOAPIC then Ioapic (u8 v) (io_regs d)
                   else if a =? IOAPIC + 16 then Ioapic (io_sel d) (<[io_sel d := v]> (io_regs d)) else d;
}.

(** The entry of a pin in the redirection table. *)
Definition redirection (d : i82093) (i : Z) : option Z * option Z := (io_regs d !! (REG_TABLE + 2 * i), io_regs d !! (REG_TABLE + 2 * i + 1)).

(** The processor that gets a pin after a sequence of [ioapicenable]. *)
Definition routed (es : list (Z * Z)) (i : Z) : option Z := foldl (fun r e => if e.1 =? i then Some e.2 else r) None es.

Definition entry_of (r : option Z) (i : Z) : option Z * option Z :=
  match r with Some cpu => (Some (T_IRQ0 + i), Some (u32 (Z.shiftl cpu 24))) | None => (Some (Z.lor INT_DISABLED (T_IRQ0 + i)), Some 0) end.

Lemma wp_ioapicwrite reg data (s : plat i82093) (Q : unit -> plat i82093 -> Prop) :
  0 <= reg < 256 ->
  Q tt (Plat (p_lapic s) (p_ioapicid s) (p_wrv s) (p_out s) (Ioapic reg (<[reg := u32 data]> (io_regs (p_dev s))))) ->
  wp (pdev (ioapicwrite reg data)) s Q.
Proof.
  intros Hr HQ. unfold wp. replace (pdev (ioapicwrite reg data) s) with
    (@Ok (plat i82093) _ tt (Plat (p_lapic s) (p_ioapicid s) (p_wrv s) (p_out s) (Ioapic (u8 (u32 reg)) (<[u8 (u32 reg) := u32 data]> (io_regs (p_dev s)))))) by done.
  rewrite u32_small, u8_small by lia. exact HQ.
Qed.

Lemma wp_ioapicread reg (s : plat i82093) (Q : Z -> plat i82093 -> Prop) :
  0 <= reg < 256 ->
  (forall s', io_regs (p_dev s') = io_regs (p_dev s) -> Q (u32 (default 0 (io_regs (p_dev s) !! reg))) s') ->
  wp (pdev (ioapicread reg)) s Q.
Proof.
  intros Hr HQ. unfold wp. replace (pdev (ioapicread reg) s) with
    (@Ok (plat i82093) _ (u32 (default 0 (io_regs (p_dev s) !! u8 (u32 reg))))
      (Plat (p_lapic s) (p_ioapicid s) (p_wrv s) (p_out s) (Ioapic (u8 (u32 reg)) (io_regs (p_dev s))))) by done.
  rewrite (u32_small reg), (u8_small reg) by lia. by apply HQ.
Qed.

(** Writing the two halves of an entry. *)
Lemma wp_entry i lo hi (s : plat i82093) (Q : unit -> plat i82093 -> Prop) :
  0 <= i <= 119 ->
  (forall s', redirection (p_dev s') i = (Some (u32 lo), Some (u32 hi)) ->
     (forall k, k <> i -> redirection (p_dev s') k = redirection (p_dev s) k) -> Q tt s') ->
  wp (pdev (ioapicwrite (REG_TABLE + 2 * i) lo) ;; pdev (ioapicwrite (REG_TABLE + 2 * i + 1) hi)) s Q.
Proof.
  intros Hi HQ. unfold REG_TABLE in *. apply wp_bind, wp_ioapicwrite; [lia|]. apply wp_ioapicwrite; [lia|]. apply HQ; cbn [p_dev]; unfold redirection, REG_TABLE; cbn [io_regs].
  - by rewrite lookup_insert_ne, !lookup_insert_eq by lia.
  - intros k Hk. by rewrite !lookup_insert_ne by lia.
Qed.

Lemma disabled_u32 i : 0 <= i <= 119 -> u32 (Z.lor INT_DISABLED (T_IRQ0 + i)) = Z.lor INT_DISABLED (T_IRQ0 + i) /\ u32 (T_IRQ0 + i) = T_IRQ0 + i.
Proof.
  intros Hi. unfold T_IRQ0, INT_DISABLED. rewrite !u32_small; [done|lia|]. split; [apply Z.lor_nonneg; lia|].
  assert (Z.log2 (Z.lor 65536 (32 + i)) < 32) as Hl.
  { rewrite Z.log2_lor by lia. apply Z.max_lub_lt; [done|]. apply Z.log2_lt_pow2; lia. }
  destruct (Z.eq_dec (Z.lor 65536 (32 + i)) 0) as [->|]; [lia|]. apply Z.log2_lt_pow2 in Hl; [done|]. enough (0 <= Z.lor 65536 (32 + i)) by lia. apply Z.lor_nonneg. lia.
Qed.

Lemma wp_enables es maxintr (s : plat i82093) : maxintr <= 119 -> Forall (fun e => 0 <= e.1 <= maxintr) es ->
  forall r, (forall i, 0 <= i <= maxintr -> redirection (p_dev s) i = entry_of (r i) i) ->
  wp (for_all es (fun e => ioapicenable e.1 e.2)) s (fun _ s' => forall i, 0 <= i <= maxintr ->
    redirection (p_dev s') i = entry_of (foldl (fun r e => if e.1 =? i then Some e.2 else r) (r i) es) i).
Proof.
  intros Hmax Hes. revert s. induction Hes as [|[irq cpu] es He Hes IH]; intros s r Hr; cbn [for_all foldl fst snd] in *; [by apply wp_ret|].
  apply wp_bind, wp_entry; [lia|]. intros s' Hs' Hne. apply (IH s' (fun i => if irq =? i then Some cpu else r i)).
  intros i Hi. destruct (Z.eqb_spec irq i) as [->|Hn]; [|rewrite Hne by congruence; by apply Hr].
  rewrite Hs'. cbn [entry_of]. by rewrite (proj2 (disabled_u32 i ltac:(lia))).
Qed.

(** After the initialisation of the I/O APIC and any sequence of [ioapicenable], every pin of the redirection table
    is exactly as it should be: a pin that was enabled has its own vector and goes to the processor named last, and every other pin
    is disabled, up to the largest table that the 8-bit register numbers reach. *)
Theorem ioapic_routes es (s : plat i82093) :
  let maxintr := Z.land (Z.shiftr (u32 (default 0 (io_regs (p_dev s) !! REG_VER))) 16) 0xFF in
  maxintr <= 119 -> Forall (fun e => 0 <= e.1 <= maxintr) es ->
  wp (ioapicinit ;; for_all es (fun e => ioapicenable e.1 e.2)) s (fun _ s' => forall i, 0 <= i <= maxintr ->
    redirection (p_dev s') i = entry_of (routed es i) i).
Proof.
  intros maxintr Hmax Hes. assert (0 <= maxintr) as Hge by (apply Z.land_nonneg; lia).
  apply wp_bind. unfold ioapicinit. apply wp_bind, wp_ioapicread; [done|]. intros s' _. fold maxintr. clearbody maxintr. clear s.
  apply wp_bind, wp_ioapicread; [done|]. intros s _. apply wp_bind, wp_gets, wp_bind.
  assert (forall b s (Q : unit -> plat i82093 -> Prop), (forall s', Q tt s') -> wp (guard_ok b (say "ioapicinit: id isn't equal to ioapicid; not a MP")) s Q) as Hsay
    by (intros [] s0 Q HQ; apply HQ).
  apply Hsay. intros s1.
  replace (maxintr + 1) with (Z.of_nat (Z.to_nat (maxintr + 1))) by lia.
  apply (wp_for_range _ _ (fun k s => forall i, 0 <= i < Z.of_nat k -> redirection (p_dev s) i = entry_of None i)); [lia| |].
  - intros k s2 Hk Hs2. apply wp_entry; [lia|]. intros s3 Hs3 Hne i Hi. destruct (decide (i = Z.of_nat k)) as [->|Hn].
    + rewrite Hs3. cbn [entry_of]. by rewrite (proj1 (disabled_u32 (Z.of_nat k) ltac:(lia))).
    + rewrite Hne by done. apply Hs2. lia.
  - intros s2 Hs2. apply (wp_enables es maxintr s2 Hmax Hes (fun _ => None)). intros i Hi. apply Hs2. lia.
Qed.

(** The keyboard, the serial port and the disks of the kernel on a table of twenty-four pins. *)
Lemma ioapic_routes_witness :
  let s := Plat 0 0 (0, 0) [] (Ioapic 0 {[REG_VER := 0x170020]}) in
  wp (ioapicinit ;; for_all [(IRQ_KBD, 0); (IRQ_COM1, 0); (IRQ_IDE, 3)] (fun e => ioapicenable e.1 e.2)) s (fun _ s' =>
    redirection (p_dev s') IRQ_IDE = (Some 46, Some 0x03000000) /\ redirection (p_dev s') 0 = (Some 0x10020, Some 0)).
Proof.
  intros s. eapply wp_mono; [apply (ioapic_routes [(IRQ_KBD, 0); (IRQ_COM1, 0); (IRQ_IDE, 3)] s)|].
  - by vm_compute.
  - repeat constructor; by vm_compute.
  - intros [] s' Hs'. split; rewrite Hs' by (by vm_compute); by vm_compute.
Defined.
