(* ===== verification/Uart.v ===== *)
(** The serial port (uart.c): initialisation, sending a byte with a bounded wait, receiving, and the interrupt. *)

From S2P Require Import Prelude Bytes Port Console Trap Apic Kbd.

Definition COM1 : Z := 0x3f8.

(** The static flag [uart], next to the rest of the platform. *)
Record uartst (D : Type) := Uart { u_uart : bool; u_plat : plat D }.
Arguments Uart {D}.
Arguments u_uart {D}.
Arguments u_plat {D}.

Section Driver.
Context {D : Type} `{Ports D} `{Mmio D}.

Definition uplat {A} : M (plat D) A -> M (uartst D) A := zoom u_plat (fun p s => Uart (u_uart s) p).
Definition udev {A} (m : M D A) : M (uartst D) A := uplat (pdev m).

(** [for(i = 0; i < 128 && !(inb(COM1+5) & 0x20); i++)], with [n] rounds to go. *)
Fixpoint wait_ready (n : nat) : M (uartst D) unit :=
  match n with
  | O => mret tt
  | S n => v ← udev (inb (COM1 + 5)); if has v 0x20 then mret tt else wait_ready n
  end.

Definition uart_putc (c : Z) : M (uartst D) unit :=
  uart ← gets u_uart;
  if negb uart then mret tt
  else wait_ready 128 ;; udev (outb (COM1 + 0) c).

Definition uartgetc : M (uartst D) Z :=
  uart ← gets u_uart;
  if negb uart then mret (-1)
  else
    st ← udev (inb (COM1 + 5));
    if negb (has st 0x01) then mret (-1) else udev (inb (COM1 + 0)).

Definition uartintr (fuel : nat) (i : input) : M (uartst D) (input * list Z * bool) :=
  cs ← getc_loop fuel uartgetc; mret (consoleintr cs i).

Definition uartinit : M (uartst D) unit :=
  udev (outb (COM1 + 2) 0) ;;
  udev (outb (COM1 + 3) 0x80) ;;
  udev (outb (COM1 + 0) (115200 / 9600)) ;;
  udev (outb (COM1 + 1) 0) ;;
  udev (outb (COM1 + 3) 0x03) ;;
  udev (outb (COM1 + 4) 0) ;;
  udev (outb (COM1 + 1) 0x01) ;;
  st ← udev (inb (COM1 + 5));
  if st =? 0xFF then mret tt
  else
    modify (fun s => Uart true (u_plat s)) ;;
    _ ← udev (inb (COM1 + 2));
    _ ← udev (inb (COM1 + 0));
    uplat (ioapicenable IRQ_COM1 0) ;;
    for_all (chars "xv6..." ++ [10]) uart_putc.
End Driver.

(** ** Any device, with the accesses to its ports *)
Inductive access := In (port v : Z) | Out (port v : Z).
Record traced (D : Type) := Traced { t_dev : D; t_log : list access }.
Arguments Traced {D}.
Arguments t_dev {D}.
Arguments t_log {D}.

#[global] Instance traced_ports {D} `{Ports D} : Ports (traced D) := {
  port_in p d := let '(v, d') := port_in p (t_dev d) in (v, Traced d' (t_log d ++ [In p (u8 v)]));
  port_out p v d := Traced (port_out p v (t_dev d)) (t_log d ++ [Out p v]);
}.
#[global] Instance traced_mmio {D} `{Mmio D} : Mmio (traced D) := {
  mmio_rd a d := let '(v, d') := mmio_rd a (t_dev d) in (v, Traced d' (t_log d));
  mmio_wr a v d := Traced (mmio_wr a v (t_dev d)) (t_log d);
}.

Definition ulog {D} (s : uartst (traced D)) : list access := t_log (p_dev (u_plat s)).

Section Traces.
Context {D : Type} `{Ports D} `{Mmio D}.

(** The answers of the status register: not ready but for the last one, which is ready or the 128-th. *)
Definition polled (n : nat) (vs : list Z) : Prop :=
  (length vs <= n)%nat /\ (forall i v, vs !! i = Some v -> (S i < length vs)%nat -> has v 0x20 = false) /\
  ((exists v, last vs = Some v /\ has v 0x20 = true) \/ length vs = n /\ Forall (fun v => has v 0x20 = false) vs).

Lemma wp_wait_ready n : forall s (Q : unit -> uartst (traced D) -> Prop),
  (forall s' vs, u_uart s' = u_uart s -> polled n vs -> ulog s' = ulog s ++ (In (COM1 + 5) <$> vs) -> Q tt s') ->
  wp (wait_ready n) s Q.
Proof.
  induction n as [|n IH]; intros s Q HQ; cbn [wait_ready].
  - apply wp_ret, (HQ s []); [done| |by rewrite app_nil_r]. split; [done|]. split; [done|]. right. by split.
  - destruct (port_in (COM1 + 5) (t_dev (p_dev (u_plat s)))) as [v d'] eqn:Hv.
    assert (exists s', udev (inb (COM1 + 5)) s = Ok (u8 v) s' /\ u_uart s' = u_uart s /\ ulog s' = ulog s ++ [In (COM1 + 5) (u8 v)]) as (s' & He & Hu & Hl).
    { unfold udev, uplat, pdev, zoom, inb. cbn [port_in traced_ports]. rewrite Hv. eexists. split; [reflexivity|done]. }
    eapply wp_bind, wp_eq; [exact He|]. destruct (has (u8 v) 32) eqn:Hr.
    + apply wp_ret, (HQ s' [u8 v]); [done| |exact Hl]. split; [cbn; lia|]. split; [intros [|i] w Hw Hi; cbn in Hi; [lia|done]|]. left. by exists (u8 v).
    + apply IH. intros s2 vs Hu2 (Hlen & Hall & Hlast) Hl2. apply (HQ s2 (u8 v :: vs)); [congruence| |by rewrite Hl2, Hl, <- app_assoc].
      split; [cbn; lia|]. split.
      * intros [|i] w Hw Hi; [by injection Hw as <-|]. apply (Hall i w Hw). cbn in Hi. lia.
      * destruct Hlast as [(w & Hw & Hw')|[Hlen' Hf]]; [left; exists w; by destruct vs|right]. split; [cbn; lia|by constructor].
Qed.

(** C31: On any serial device, sending a byte ends after at most 128 reads of the status register: the byte is written once, right after the first
    status that is ready, or after 128 that are not; and without a serial port no port is touched. *)
Theorem uart_putc_bounded c (s : uartst (traced D)) :
  exists s', uart_putc c s = Ok tt s' /\
    if u_uart s then exists vs, polled 128 vs /\ ulog s' = ulog s ++ (In (COM1 + 5) <$> vs) ++ [Out (COM1 + 0) (u8 c)] else s' = s.
Proof.
  destruct (u_uart s) eqn:Hu.
  - assert (wp (uart_putc c) s (fun _ s' => exists vs, polled 128 vs /\ ulog s' = ulog s ++ (In (COM1 + 5) <$> vs) ++ [Out (COM1 + 0) (u8 c)])) as Hw.
    { apply wp_bind, wp_gets. rewrite Hu. cbn [negb]. apply wp_bind, wp_wait_ready. intros s1 vs Hu1 Hp Hl. eapply wp_eq; [reflexivity|].
      exists vs. split; [done|]. rewrite app_assoc, <- Hl. done. }
    apply wp_ok in Hw as ([] & s' & He & Hs'). by exists s'.
  - exists s. split; [|done]. unfold uart_putc. rewrite (bind_ok _ _ _ false s) by (by rewrite <- Hu). done.
Qed.
End Traces.
