(* ===== verification/Dump.v ===== *)
(** What the kernel prints for debugging: the chain of callers ([getcallerpcs] of spinlock.c), the list of processes ([procdump] of proc.c), and the message of [panic]
    (console.c).

    [word] is a word of memory by its address, [str] the string at an address, and [stack] what is on the stack behind the
    argument of [panic]. Output is the list of characters given to [consputc]. *)

From S2P Require Import Prelude Bytes Kalloc Kernel Printf Trap Console Kbd.

Section Dump.
Context (word : Z -> Z) (str : Z -> list Z) (stack : nat -> Z).

(** The return addresses on the chain of frames from [ebp] on, [n] of them at most. *)
Fixpoint callers (n : nat) (ebp : Z) : list Z :=
  match n with
  | O => []
  | S n => if (ebp =? 0) || (ebp <? KERNBASE) || (ebp =? 0xffffffff) then [] else word (u32 (ebp + 4)) :: callers n (word ebp)
  end.
Definition getcallerpcs (v : Z) : list Z := let l := callers 10 (u32 (v - 8)) in l ++ replicate (10 - length l) 0.

(** A call of [cprintf] with the arguments [args]. *)
Definition says (fmt : string) (args : list Z) : option (list Z) := cprintf_chars str (fun k => default 0 (args !! k)) (chars fmt) 0.
Definition say_all (fmt : string) (xs : list Z) : option (list Z) := mjoin <$> mapM (fun x => says fmt [x]) xs.

(** [panic(s)] on the processor [lapicid]; [v] is the address of its argument. *)
Definition panic_says (lapicid s v : Z) : option (list Z) :=
  a ← says "lapicid %d: panic: " [lapicid];
  b ← cprintf_chars str stack (str s) 0;
  c ← say_all " %p" (getcallerpcs v);
  Some (a ++ b ++ [10] ++ c).

(** The names of the states. *)
Definition states (st : procstate) : string :=
  match st with
  | UNUSED => "unused" | EMBRYO => "embryo" | SLEEPING => "sleep " | RUNNABLE => "runble" | RUNNING => "run   " | ZOMBIE => "zombie"
  end.

(** The line for the process in slot [i], whose saved frame pointer is [ebp i]; [state_at] and [name_at] are where the names of the states
    and of the processes are in memory. *)
Context (state_at : procstate -> Z) (name_at : nat -> Z) (ebp : nat -> Z).
Fixpoint until_zero (l : list Z) : list Z := match l with [] => [] | x :: l => if x =? 0 then [] else x :: until_zero l end.
Definition dump_proc (i : nat) (p : proc) : option (list Z) :=
  if decide (p_state p = UNUSED) then Some []
  else
    a ← says "%d %s %s" [p_pid p; state_at (p_state p); name_at i];
    b ← (if decide (p_state p = SLEEPING) then say_all " %p" (until_zero (getcallerpcs (u32 (ebp i + 8)))) else Some []);
    Some (a ++ b ++ [10]).
Definition procdump (ps : list proc) : option (list Z) := mjoin <$> mapM (fun ip : nat * proc => dump_proc ip.1 ip.2) (imap pair ps).
End Dump.

(** ** The numbers *)

(** The kernel prints numbers like user programs do, but for the case of the digits. *)
Definition lower (c : Z) : Z := if (65 <=? c) && (c <=? 70) then c + 32 else c.

Definition lowers (l : list Z) : list Z := lower <$> l.

Lemma cprintint_loop_lower fuel base : forall x buf, cprintint_loop fuel x base (lowers buf) = lowers <$> printint_loop fuel x base buf.
Proof.
  induction fuel as [|fuel IH]; intros x buf; [done|]. cbn [cprintint_loop printint_loop]. unfold lowers at 1. rewrite length_fmap. destruct (16 <=? length buf)%nat; [done|].
  rewrite (list_lookup_fmap lower digits _ : cdigits !! _ = _). destruct (digits !! _) as [d|]; [|done]. cbn [fmap option_fmap option_map mbind option_bind].
  replace (lowers buf ++ [lower d]) with (lowers (buf ++ [d])) by (unfold lowers; by rewrite fmap_app). destruct (x / base =? 0); [done|]. apply IH.
Qed.

Lemma cprintint_lower xx base sgn : cprintint xx base sgn = lowers <$> printint xx base sgn.
Proof.
  unfold cprintint, printint. rewrite (cprintint_loop_lower 33 base _ [] : cprintint_loop 33 _ base [] = _). destruct (printint_loop _ _ _ _) as [buf|]; [|done].
  cbn [fmap option_fmap option_map mbind option_bind]. unfold lowers at 1. rewrite length_fmap. destruct (sgn && (xx <? 0)); [destruct (16 <=? length buf)%nat; [done|]|];
    cbn [fmap option_fmap option_map]; unfold lowers; rewrite fmap_reverse, ?fmap_app; done.
Qed.

Lemma cprintint_word x base sgn : base = 10 \/ base = 16 -> is_Some (cprintint (s32 x) base sgn).
Proof.
  intros Hb. destruct (printint_prints (s32 x) base sgn Hb) as (ds & _ & Hp); [unfold s32; elia|]. rewrite cprintint_lower, Hp. by eexists.
Qed.

(** ** The list of processes *)
Section List_.
Context (word : Z -> Z) (str : Z -> list Z) (state_at : procstate -> Z) (name_at : nat -> Z) (ebp : nat -> Z).

Definition decimal (x : Z) : list Z := default [] (cprintint (s32 x) 10 true).
Definition hex (x : Z) : list Z := default [] (cprintint (s32 x) 16 false).

Lemma says_hex x : says str " %p" [x] = Some (32 :: hex x).
Proof. unfold says, hex. cbn -[cprintint s32]. destruct (cprintint_word x 16 false) as [out ->]; [by right|]. cbn. by rewrite app_nil_r. Qed.

Lemma say_all_hex xs : say_all str " %p" xs = Some (mjoin ((fun x => 32 :: hex x) <$> xs)).
Proof.
  unfold say_all. assert (mapM (fun x => says str " %p" [x]) xs = Some ((fun x => 32 :: hex x) <$> xs)) as ->; [|done].
  apply mapM_Some. induction xs; constructor; [apply says_hex|done].
Qed.

Context (Hst : forall st, state_at st <> 0 /\ str (state_at st) = chars (states st)) (Hnm : forall i, name_at i <> 0).

(** A line: the number, the state and the name of the process, and for one that sleeps the return addresses in its frames. *)
Definition dump_line (ip : nat * proc) : list Z :=
  let '(i, p) := ip in
  decimal (p_pid p) ++ [32] ++ chars (states (p_state p)) ++ [32] ++ str (name_at i) ++
  (if decide (p_state p = SLEEPING) then mjoin ((fun x => 32 :: hex x) <$> until_zero (getcallerpcs word (u32 (ebp i + 8)))) else []) ++ [10].

Lemma dump_proc_line i p : p_state p <> UNUSED -> dump_proc word str state_at name_at ebp i p = Some (dump_line (i, p)).
Proof.
  intros Hu. unfold dump_proc. rewrite decide_False by done. destruct (Hst (p_state p)) as [Hs Hstr].
  assert (says str "%d %s %s" [p_pid p; state_at (p_state p); name_at i] = Some (decimal (p_pid p) ++ 32 :: chars (states (p_state p)) ++ 32 :: str (name_at i))) as ->.
  { unfold says, decimal. change (chars "%d %s %s") with [37; 100; 32; 37; 115; 32; 37; 115]. cbn -[cprintint s32].
    destruct (cprintint_word (p_pid p) 10 true) as [out ->]; [by left|]. cbn.
    rewrite (proj2 (Z.eqb_neq _ 0) Hs), (proj2 (Z.eqb_neq _ 0) (Hnm i)), Hstr. cbn. by rewrite app_nil_r. }
  rewrite say_all_hex. cbn [mbind option_bind]. unfold dump_line.
  destruct (decide (p_state p = SLEEPING)); cbn; by repeat (rewrite <- ?app_assoc; cbn).
Qed.

(** [procdump] prints a line for each process in use, in the order of the table, and never overflows the buffer of [printint]. *)
Theorem procdump_prints ps :
  procdump word str state_at name_at ebp ps = Some (mjoin (dump_line <$> filter (fun ip : nat * proc => p_state ip.2 <> UNUSED) (imap pair ps))).
Proof.
  unfold procdump.
  assert (forall l : list (nat * proc), exists ls, Forall2 (fun (ip : nat * proc) y => dump_proc word str state_at name_at ebp ip.1 ip.2 = Some y) l ls /\
    mjoin ls = mjoin (dump_line <$> filter (fun ip : nat * proc => p_state ip.2 <> UNUSED) l)) as Hl.
  { induction l as [|[i p] l (ls & Hls & Hj)]; [by exists []|]. rewrite filter_cons. cbn [snd]. destruct (decide (p_state p = UNUSED)) as [Hu|Hu].
    - rewrite decide_False by tauto. exists ([] :: ls). split; [|done]. constructor; [|done]. unfold dump_proc. cbn. by rewrite decide_True.
    - rewrite decide_True by done. exists (dump_line (i, p) :: ls). split; [|exact (f_equal (app (dump_line (i, p))) Hj)]. constructor; [|done]. by apply dump_proc_line. }
  destruct (Hl (imap pair ps)) as (ls & Hls & Hj). rewrite (proj2 (mapM_Some _ _ _) Hls). exact (f_equal Some Hj).
Qed.
End List_.
