(* ===== verification/Boot.v ===== *)
(** The boot loader (bootmain.c): reading sectors with programmed input, and loading the segments of the kernel.

    Memory is a function from addresses to bytes. The disk is a device with ports and a string input; the one of the theorem
    answers that it is busy a number of times after each command. *)

From S2P Require Import Prelude Bytes Port Exec.

Definition SECTSIZE : Z := 512.

(** [insl port addr n]: the bytes of [n] words from a port. *)
Class PortsL (D : Type) := port_insl : Z -> Z -> D -> list Z * D.

Record boot (D : Type) := BootSt { b_mem : Z -> Z; b_dev : D }.
Arguments BootSt {D}.
Arguments b_mem {D}.
Arguments b_dev {D}.

Definition store (a : Z) (bs : list Z) (mem : Z -> Z) : Z -> Z :=
  fun x => if (a <=? x) && (x <? a + Z.of_nat (length bs)) then rd bs (x - a) else mem x.
Definition mem_at (mem : Z -> Z) (a n : Z) : list Z := mem <$> seqZ a n.
Definition ph_paddr (l : list Z) : Z := get_le 4 12 l.

Section Loader.
Context {D : Type} `{Ports D} `{PortsL D}.

Definition bdev {A} : M D A -> M (boot D) A := zoom b_dev (fun d s => BootSt (b_mem s) d).
Definition bstore (a : Z) (bs : list Z) : M (boot D) unit := modify (fun s => BootSt (store a bs (b_mem s)) (b_dev s)).
Definition insl (port n : Z) : M D (list Z) := fun d => let '(bs, d') := port_insl port n d in Ok bs d'.

Fixpoint waitdisk (fuel : nat) : M (boot D) unit :=
  match fuel with
  | O => nofuel
  | S fuel => v ← bdev (inb 0x1F7); if Z.land v 0xC0 =? 0x40 then mret tt else waitdisk fuel
  end.

Definition readsect (fuel : nat) (dst offset : Z) : M (boot D) unit :=
  waitdisk fuel ;;
  bdev (outb 0x1F2 1) ;;
  bdev (outb 0x1F3 offset) ;;
  bdev (outb 0x1F4 (Z.shiftr offset 8)) ;;
  bdev (outb 0x1F5 (Z.shiftr offset 16)) ;;
  bdev (outb 0x1F6 (Z.lor (Z.shiftr offset 24) 0xE0)) ;;
  bdev (outb 0x1F7 0x20) ;;
  waitdisk fuel ;;
  bs ← bdev (insl 0x1F0 (SECTSIZE / 4));
  bstore dst bs.

Fixpoint readseg_loop (n fuel : nat) (pa epa offset : Z) : M (boot D) unit :=
  if pa <? epa then
    match n with
    | O => nofuel
    | S n => readsect fuel pa offset ;; readseg_loop n fuel (u32 (pa + SECTSIZE)) epa (u32 (offset + 1))
    end
  else mret tt.

(** [fuel] bounds each wait for the disk. *)
Definition readseg (fuel : nat) (pa count offset : Z) : M (boot D) unit :=
  let epa := u32 (pa + count) in
  let pa := u32 (pa - offset mod SECTSIZE) in
  readseg_loop (Z.to_nat ((epa - pa) / SECTSIZE + 1)) fuel pa epa (offset / SECTSIZE + 1).

Definition ph_at (ph : Z) : M (boot D) (list Z) := gets (fun s => mem_at (b_mem s) ph 32).

(** The header is read again after the segment has been loaded. *)
Definition load_segment (fuel : nat) (ph : Z) : M (boot D) unit :=
  l ← ph_at ph;
  let pa := ph_paddr l in
  readseg fuel pa (ph_filesz l) (ph_off l) ;;
  l ← ph_at ph;
  guard_ok (ph_filesz l <? ph_memsz l)
    (bstore (u32 (pa + ph_filesz l)) (replicate (Z.to_nat (ph_memsz l - ph_filesz l)) 0)).

Fixpoint load_loop (n fuel : nat) (ph eph : Z) : M (boot D) unit :=
  if ph <? eph then
    match n with
    | O => nofuel
    | S n => load_segment fuel ph ;; load_loop n fuel (u32 (ph + 32)) eph
    end
  else mret tt.

(** [None] is the return to bootasm.S, [Some entry] the jump to the kernel. *)
Definition bootmain (fuel : nat) : M (boot D) (option Z) :=
  let elf := 0x10000 in
  readseg fuel elf 4096 0 ;;
  h ← gets (fun s => mem_at (b_mem s) elf SIZEOF_ELFHDR);
  if negb (elf_magic h =? ELF_MAGIC) then mret None
  else
    let ph := u32 (elf + elf_phoff h) in
    let eph := u32 (ph + 32 * elf_phnum h) in
    load_loop (Z.to_nat (elf_phnum h)) fuel ph eph ;;
    h ← gets (fun s => mem_at (b_mem s) elf SIZEOF_ELFHDR);
    mret (Some (elf_entry h)).
End Loader.

(** ** A disk that is busy for [a_delay] reads of its status after each command; the kernel is in its sectors from 1 on *)
Record ata := Ata { a_img : list Z; a_delay : nat; a_busy : nat; a_count : Z; a_lba : Z * Z * Z * Z; a_data : list Z }.

Definition img_bytes (img : list Z) (a n : Z) : list Z := rd img <$> seqZ a n.

Definition ata_sector (d : ata) : Z := let '(l0, l1, l2, l3) := a_lba d in l0 + 256 * l1 + 65536 * l2 + 16777216 * (l3 mod 16).

#[global] Instance ata_ports : Ports ata := {
  port_in p d := if p =? 0x1F7 then
      match a_busy d with
      | O => (0x40, d)
      | S n => (0x80, Ata (a_img d) (a_delay d) n (a_count d) (a_lba d) (a_data d))
      end else (0, d);
  port_out p v d :=
    let '(l0, l1, l2, l3) := a_lba d in
    let lba l := Ata (a_img d) (a_delay d) (a_busy d) (a_count d) l (a_data d) in
    if p =? 0x1F2 then Ata (a_img d) (a_delay d) (a_busy d) v (a_lba d) (a_data d)
    else if p =? 0x1F3 then lba (v, l1, l2, l3)
    else if p =? 0x1F4 then lba (l0, v, l2, l3)
    else if p =? 0x1F5 then lba (l0, l1, v, l3)
    else if p =? 0x1F6 then lba (l0, l1, l2, v)
    else if (p =? 0x1F7) && (v =? 0x20) && (224 <=? l3) then
      Ata (a_img d) (a_delay d) (a_delay d) (a_count d) (a_lba d) (img_bytes (a_img d) (512 * (ata_sector d - 1)) (512 * a_count d))
    else d;
}.
#[global] Instance ata_insl : PortsL ata := fun p n d =>
  (take (Z.to_nat (4 * n)) (a_data d), Ata (a_img d) (a_delay d) (a_busy d) (a_count d) (a_lba d) (drop (Z.to_nat (4 * n)) (a_data d))).

Section Loading.
Context (img : list Z) (delay : nat).

Definition disk_ok (s : boot ata) : Prop := a_img (b_dev s) = img /\ a_delay (b_dev s) = delay /\ (a_busy (b_dev s) <= delay)%nat.

Lemma wp_waitdisk fuel : forall s (Q : unit -> boot ata -> Prop), (a_busy (b_dev s) < fuel)%nat ->
  Q tt (BootSt (b_mem s) (let d := b_dev s in Ata (a_img d) (a_delay d) 0 (a_count d) (a_lba d) (a_data d))) -> wp (waitdisk fuel) s Q.
Proof.
  induction fuel as [|fuel IH]; intros [mem [im de bu co lb da]] Q Hf HQ; cbn in Hf; [lia|]. cbn [waitdisk].
  destruct bu as [|bu]; (eapply wp_bind, wp_eq; [reflexivity|]); [exact HQ|].
  apply IH; [cbn; lia|exact HQ].
Qed.

Lemma length_img_bytes a n : length (img_bytes img a n) = Z.to_nat n.
Proof. unfold img_bytes. by rewrite length_fmap, length_seqZ. Qed.

Lemma lba_sector off : 0 <= off < 268435456 ->
  u8 off + 256 * u8 (Z.shiftr off 8) + 65536 * u8 (Z.shiftr off 16) + 16777216 * (u8 (Z.lor (Z.shiftr off 24) 0xE0) mod 16) = off /\
  224 <= u8 (Z.lor (Z.shiftr off 24) 0xE0).
Proof.
  intros Ho. rewrite !Z.shiftr_div_pow2 by lia. change (2 ^ 8) with 256. change (2 ^ 16) with 65536. change (2 ^ 24) with 16777216.
  assert (0 <= off / 16777216 < 16) as Hq by elia.
  assert (forallb (fun q => (u8 (Z.lor q 0xE0) mod 16 =? q) && (224 <=? u8 (Z.lor q 0xE0))) (seqZ 0 16) = true) as Hall by (by vm_compute).
  rewrite forallb_forall in Hall. specialize (Hall (off / 16777216)). rewrite andb_true_iff, Z.eqb_eq, Z.leb_le in Hall.
  destruct Hall as [-> Hge]; [apply list_elem_of_In, elem_of_seqZ; lia|]. split; [|done]. unfold u8. elia.
Qed.

Lemma wp_outb p v s (Q : unit -> boot ata -> Prop) : Q tt (BootSt (b_mem s) (port_out p (u8 v) (b_dev s))) -> wp (bdev (outb p v)) s Q.
Proof. done. Qed.

Ltac ata_simpl := cbv beta iota zeta delta [port_out ata_ports a_lba a_img a_delay a_busy a_count a_data Z.eqb Pos.eqb andb b_dev b_mem].

Lemma wp_readsect fuel dst off s (Q : unit -> boot ata -> Prop) :
  disk_ok s -> (delay < fuel)%nat -> 0 <= off < 268435456 ->
  (forall s', disk_ok s' -> b_mem s' = store dst (img_bytes img (512 * (off - 1)) 512) (b_mem s) -> Q tt s') ->
  wp (readsect fuel dst off) s Q.
Proof.
  intros (Hi & Hd & Hb) Hf Ho HQ. apply wp_bind, wp_waitdisk; [lia|].
  destruct s as [mem [im de bu co [[[l0 l1] l2] l3] da]]. cbn [b_dev a_img a_delay a_busy] in *. subst im de.
  destruct (lba_sector off Ho) as [Hsec Hge].
  do 5 (apply wp_bind, wp_outb; ata_simpl). apply wp_bind, wp_outb. ata_simpl. rewrite (proj2 (Z.leb_le _ _) Hge). change (u8 32) with 32. ata_simpl.
  apply wp_bind, wp_waitdisk; [cbn; lia|]. eapply wp_bind, wp_eq; [reflexivity|]. eapply wp_eq; [reflexivity|]. cbn [b_mem b_dev a_data a_img a_delay a_count a_lba].
  apply HQ; [split; [done|split; [done|cbn; lia]]|]. cbn [b_mem]. f_equal. unfold ata_sector. cbn [a_lba].
  rewrite Hsec. by rewrite take_ge by (rewrite length_img_bytes; done).
Qed.
Lemma rd_img_bytes a n i : 0 <= i < n -> rd (img_bytes img a n) i = rd img (a + i).
Proof.
  intros Hi. unfold rd at 1, img_bytes. rewrite list_lookup_fmap, (proj2 (lookup_seqZ a n (Z.to_nat i) (a + i))) by lia. done.
Qed.

Lemma store_img dst a n mem x : 0 <= n ->
  store dst (img_bytes img a n) mem x = if (dst <=? x) && (x <? dst + n) then rd img (a + (x - dst)) else mem x.
Proof.
  intros Hn. unfold store. rewrite length_img_bytes, Z2Nat.id by done. destruct (Z.leb_spec dst x), (Z.ltb_spec x (dst + n)); [|done..].
  cbn [andb]. by rewrite rd_img_bytes by lia.
Qed.

Context (fuel : nat) (Hfuel : (delay < fuel)%nat).

(** [m] sectors are read. *)
Lemma wp_readseg_loop epa m : forall n pa off s (Q : unit -> boot ata -> Prop),
  disk_ok s -> (m <= n)%nat -> 0 <= pa -> epa <= pa + 512 * Z.of_nat m -> ((0 < m)%nat -> pa + 512 * (Z.of_nat m - 1) < epa) ->
  epa + 512 <= 4294967296 -> 1 <= off -> off + Z.of_nat m <= 268435456 ->
  (forall s', disk_ok s' ->
     (forall x, b_mem s' x = if (pa <=? x) && (x <? pa + 512 * Z.of_nat m) then rd img (512 * (off - 1) + (x - pa)) else b_mem s x) -> Q tt s') ->
  wp (readseg_loop n fuel pa epa off) s Q.
Proof.
  induction m as [|m IH]; intros n pa off s Q Hs Hn Hpa Hle Hlt Hmax Hoff Hsec HQ.
  - destruct n; cbn [readseg_loop]; rewrite (proj2 (Z.ltb_ge pa epa)) by lia; apply wp_ret, HQ; try done;
      intros x; destruct (Z.leb_spec pa x), (Z.ltb_spec x (pa + 512 * Z.of_nat 0)); cbn [andb]; try done; lia.
  - destruct n as [|n]; [lia|]. cbn [readseg_loop]. rewrite (proj2 (Z.ltb_lt pa epa)) by lia.
    apply wp_bind, wp_readsect; [done|done|lia|]. intros s1 Hs1 Hm1. unfold SECTSIZE. rewrite !u32_small by lia.
    apply IH; try done; try lia. intros s2 Hs2 Hm2. apply HQ; [done|]. intros x. rewrite Hm2, Hm1, store_img by lia.
    destruct (Z.leb_spec (pa + 512) x), (Z.ltb_spec x (pa + 512 + 512 * Z.of_nat m)), (Z.leb_spec pa x), (Z.ltb_spec x (pa + 512)),
      (Z.ltb_spec x (pa + 512 * Z.of_nat (S m))); cbn [andb]; try done; try lia. f_equal. lia.
Qed.

Lemma wp_readseg pa count off s (Q : unit -> boot ata -> Prop) :
  disk_ok s -> 0 <= count -> 0 <= off -> off mod 512 <= pa -> pa + count + 512 <= 4294967296 ->
  off / 512 + count / 512 + 3 <= 268435456 ->
  (forall s', disk_ok s' ->
     (forall x, pa <= x < pa + count -> b_mem s' x = rd img (off + (x - pa))) -> (forall x, x < pa - off mod 512 -> b_mem s' x = b_mem s x) -> Q tt s') ->
  wp (readseg fuel pa count off) s Q.
Proof.
  intros Hs Hc Ho Hpa Hmax Hsec HQ. unfold readseg, SECTSIZE. assert (0 <= off mod 512 < 512) by elia.
  rewrite !u32_small by lia. set (r := off mod 512) in *.
  apply (wp_readseg_loop _ (Z.to_nat ((count + r + 511) / 512))); try done; try lia.
  - apply Z2Nat.inj_le; elia.
  - rewrite Z2Nat.id by elia. elia.
  - rewrite Z2Nat.id by elia. intros _. elia.
  - elia.
  - rewrite Z2Nat.id by elia. subst r. elia.
  - intros s' Hs' Hm. apply HQ; [done| |].
    + intros x Hx. rewrite Hm, Z2Nat.id by elia. rewrite (proj2 (Z.leb_le _ _)), (proj2 (Z.ltb_lt _ _)) by elia. cbn [andb]. f_equal. subst r. elia.
    + intros x Hx. rewrite Hm. by rewrite (proj2 (Z.leb_gt _ _)) by lia.
Qed.

(** ** Segments *)
Definition header_ok (mem : Z -> Z) : Prop := forall k, 0 <= k < 4096 -> mem (65536 + k) = rd img k.

Definition seg_end (l : list Z) : Z := ph_paddr l + Z.max (ph_filesz l) (ph_memsz l).

(** The segment with the header [l] is in memory. *)
Definition loaded (mem : Z -> Z) (l : list Z) : Prop :=
  (forall k, 0 <= k < ph_filesz l -> mem (ph_paddr l + k) = rd img (ph_off l + k)) /\
  (forall k, ph_filesz l <= k < ph_memsz l -> mem (ph_paddr l + k) = 0).

(** Segments in increasing order: the sector of the first byte of one starts after the end of the one before. *)
Fixpoint placed (lo : Z) (ls : list (list Z)) : Prop :=
  match ls with
  | [] => True
  | l :: ls =>
      lo <= ph_paddr l - ph_off l mod 512 /\ seg_end l + 512 <= 4294967296 /\
      0 <= ph_filesz l /\ 0 <= ph_off l /\ ph_off l / 512 + ph_filesz l / 512 + 3 <= 268435456 /\
      placed (seg_end l) ls
  end.

Lemma mem_at_header mem a n : header_ok mem -> 0 <= a -> a + n <= 4096 -> mem_at mem (65536 + a) n = img_bytes img a n.
Proof.
  intros Hh Ha Hn. unfold mem_at, img_bytes. replace (65536 + a) with (a + 65536) by lia.
  apply list_eq. intros i. rewrite !list_lookup_fmap. destruct (decide (Z.of_nat i < n)) as [Hi|Hi].
  - rewrite !(proj2 (lookup_seqZ _ n i _)) by done. cbn. f_equal. rewrite <- Hh by lia. f_equal. lia.
  - by rewrite !lookup_seqZ_ge by lia.
Qed.

Lemma wp_load_segment a s lo (Q : unit -> boot ata -> Prop) :
  let l := img_bytes img a 32 in
  disk_ok s -> header_ok (b_mem s) -> 0 <= a -> a + 32 <= 4096 -> 69632 <= lo -> placed lo [l] ->
  (forall s', disk_ok s' -> header_ok (b_mem s') -> loaded (b_mem s') l -> (forall x, x < lo -> b_mem s' x = b_mem s x) -> Q tt s') ->
  wp (load_segment fuel (65536 + a)) s Q.
Proof.
  intros l Hs Hh Ha Ha' Hlo (Hpa & Hend & Hf & Ho & Hsec & _) HQ. unfold load_segment, ph_at. apply wp_bind, wp_gets.
  rewrite mem_at_header by (done || lia). fold l. unfold seg_end in Hend. assert (0 <= ph_off l mod 512 < 512) by elia.
  apply wp_bind, wp_readseg; try done; try lia. intros s1 Hs1 Hin Hout.
  assert (header_ok (b_mem s1)) as Hh1 by (intros k Hk; rewrite Hout by lia; by apply Hh).
  apply wp_bind, wp_gets. rewrite mem_at_header by (done || lia). fold l.
  destruct (Z.ltb_spec (ph_filesz l) (ph_memsz l)) as [Hm|Hm]; cbn [guard_ok].
  - apply wp_modify. rewrite u32_small by lia.
    assert (forall x, b_mem (BootSt (store (ph_paddr l + ph_filesz l) (replicate (Z.to_nat (ph_memsz l - ph_filesz l)) 0) (b_mem s1)) (b_dev s1)) x =
      if (ph_paddr l + ph_filesz l <=? x) && (x <? ph_paddr l + ph_memsz l) then 0 else b_mem s1 x) as Hst.
    { intros x. cbn [b_mem]. unfold store, rd. rewrite length_replicate, Z2Nat.id by lia.
      replace (ph_paddr l + ph_filesz l + (ph_memsz l - ph_filesz l)) with (ph_paddr l + ph_memsz l) by lia. destruct (_ && _); [|done].
      destruct (replicate _ 0 !! _) as [y|] eqn:Hy; [|done]. by apply lookup_replicate in Hy as [-> _]. }
    apply HQ; [done| | |].
    + intros k Hk. rewrite Hst, (proj2 (Z.leb_gt _ _)) by lia. by apply Hh1.
    + split; intros k Hk; rewrite Hst.
      * rewrite (proj2 (Z.leb_gt _ _)) by lia. cbn [andb]. rewrite Hin by lia. f_equal. lia.
      * by rewrite (proj2 (Z.leb_le _ _)), (proj2 (Z.ltb_lt _ _)) by lia.
    + intros x Hx. rewrite Hst, (proj2 (Z.leb_gt _ _)) by lia. cbn [andb]. apply Hout. lia.
  - apply wp_ret, HQ; [done|done| |].
    + split; intros k Hk; [|lia]. rewrite Hin by lia. f_equal. lia.
    + intros x Hx. apply Hout. lia.
Qed.
(** The program headers from the offset [a] on. *)
Definition headers (a : Z) (n : nat) : list (list Z) := (fun i => img_bytes img (a + 32 * Z.of_nat i) 32) <$> seq 0 n.

Lemma headers_S a n : headers a (S n) = img_bytes img a 32 :: headers (a + 32) n.
Proof.
  unfold headers. cbn [seq fmap list_fmap]. f_equal; [f_equal; lia|]. rewrite <- fmap_S_seq, <- list_fmap_compose.
  apply list_fmap_ext. intros i x _. cbn [compose]. f_equal. lia.
Qed.

Lemma wp_load_loop n : forall a s lo (Q : unit -> boot ata -> Prop),
  disk_ok s -> header_ok (b_mem s) -> 0 <= a -> a + 32 * Z.of_nat n <= 4096 -> 69632 <= lo -> placed lo (headers a n) ->
  (forall s', header_ok (b_mem s') -> Forall (loaded (b_mem s')) (headers a n) -> (forall x, x < lo -> b_mem s' x = b_mem s x) -> Q tt s') ->
  wp (load_loop n fuel (65536 + a) (65536 + a + 32 * Z.of_nat n)) s Q.
Proof.
  induction n as [|n IH]; intros a s lo Q Hs Hh Ha Hn Hlo Hp HQ; cbn [load_loop].
  - rewrite (proj2 (Z.ltb_ge _ _)) by lia. apply wp_ret, HQ; [done|constructor|done].
  - rewrite (proj2 (Z.ltb_lt _ _)) by lia. rewrite headers_S in Hp, HQ. destruct Hp as (Hpa & Hend & Hf & Ho & Hsec & Hp). set (l := img_bytes img a 32) in *.
    assert (0 <= ph_off l mod 512) by elia. assert (lo <= seg_end l) by (unfold seg_end; lia).
    apply wp_bind, (wp_load_segment a s lo); [done|done|done|lia|done|by repeat split|]. intros s1 Hs1 Hh1 Hl1 Hm1. fold l in Hl1.
    rewrite u32_small by lia. replace (65536 + a + 32) with (65536 + (a + 32)) by lia.
    replace (65536 + a + 32 * Z.of_nat (S n)) with (65536 + (a + 32) + 32 * Z.of_nat n) by lia.
    apply (IH _ _ (seg_end l)); [done|done|lia|lia|lia|done|]. intros s2 Hh2 Hl2 Hm2. apply HQ; [done| |].
    + constructor; [|done]. destruct Hl1 as [Hin Hzero].
      split; intros k Hk; (rewrite Hm2 by (unfold seg_end; lia)); [by apply Hin|by apply Hzero].
    + intros x Hx. rewrite Hm2 by lia. by apply Hm1.
Qed.

End Loading.

(** Two segments: five bytes of code, and three bytes of data with five bytes of zeroes behind them, in the middle of the next sector. *)
Definition le32 (x : Z) : list Z := [x mod 256; x / 256 mod 256; x / 65536 mod 256; x / 16777216].
Definition small_kernel : list Z :=
  le32 ELF_MAGIC ++ replicate 20 0 ++ le32 0x10000c ++ le32 52 ++ replicate 12 0 ++ [2; 0] ++ replicate 6 0 ++
  (le32 1 ++ le32 512 ++ le32 0x80100000 ++ le32 0x100000 ++ le32 5 ++ le32 5 ++ le32 5 ++ le32 4) ++
  (le32 1 ++ le32 520 ++ le32 0x80100208 ++ le32 0x100208 ++ le32 3 ++ le32 8 ++ le32 6 ++ le32 4) ++
  replicate 396 0 ++ [102; 199; 5; 114; 4; 0; 0; 0; 10; 11; 12].

