(* ===== verification/Mp.v ===== *)
(** Detection of the processors (mp.c, mp.h): the search for the floating pointer structure, the checks of the configuration
    table, and [mpinit], which goes through the entries of the table.

    [mem] is the memory by kernel virtual addresses; the search and the checks only read it. *)

From S2P Require Import Prelude Bytes Kalloc Spinlock Port Boot Apic.

Definition NCPU : Z := 8.
Definition MPPROC : Z := 0x00.
Definition MPBUS : Z := 0x01.
Definition MPIOAPIC : Z := 0x02.
Definition MPIOINTR : Z := 0x03.
Definition MPLINTR : Z := 0x04.

(** Fields of [struct mp], [struct mpconf] and the entries. *)
Definition mp_physaddr (mem : Z -> Z) (mp : Z) : Z := get_le 4 4 (mem_at mem mp 16).
Definition mp_imcrp (mem : Z -> Z) (mp : Z) : Z := mem (mp + 12).
Definition conf_length (mem : Z -> Z) (conf : Z) : Z := get_le 2 4 (mem_at mem conf 44).
Definition conf_version (mem : Z -> Z) (conf : Z) : Z := mem (conf + 6).
Definition conf_lapicaddr (mem : Z -> Z) (conf : Z) : Z := get_le 4 36 (mem_at mem conf 44).
Definition SIZEOF_MP : Z := 16.
Definition SIZEOF_MPCONF : Z := 44.
Definition SIZEOF_MPPROC : Z := 20.
Definition SIZEOF_MPIOAPIC : Z := 8.

Section Search.
Context (mem : Z -> Z).

Definition sum (addr len : Z) : Z := u8 (foldl Z.add 0 (mem_at mem addr len)).

Definition mpsearch1 (a len : Z) : option Z :=
  let addr := P2V a in
  let ps := (fun k => addr + SIZEOF_MP * k) <$> seqZ 0 ((len + SIZEOF_MP - 1) / SIZEOF_MP) in
  snd <$> list_find (fun p => mem_at mem p 4 = [95; 77; 80; 95] /\ sum p SIZEOF_MP = 0) ps.

Definition mpsearch : option Z :=
  let bda := P2V 0x400 in
  let p := Z.shiftl (Z.lor (Z.shiftl (mem (bda + 0x0F)) 8) (mem (bda + 0x0E))) 4 in
  let r := if negb (p =? 0) then mpsearch1 p 1024
           else mpsearch1 (u32 (Z.lor (Z.shiftl (mem (bda + 0x14)) 8) (mem (bda + 0x13)) * 1024 - 1024)) 1024 in
  match r with Some mp => Some mp | None => mpsearch1 0xF0000 0x10000 end.

(** The floating pointer structure and the table. *)
Definition mpconfig : option (Z * Z) :=
  mp ← mpsearch;
  if mp_physaddr mem mp =? 0 then None
  else
    let conf := P2V (mp_physaddr mem mp) in
    if negb (bool_decide (mem_at mem conf 4 = [80; 67; 77; 80])) then None
    else if negb (conf_version mem conf =? 1) && negb (conf_version mem conf =? 4) then None
    else if negb (sum conf (conf_length mem conf) =? 0) then None
    else Some (mp, conf).
End Search.

(** [cpus[i].apicid], [ncpu], and the variables of the other files that [mpinit] sets. *)
Record mpst (D : Type) := Mpst { mp_cpus : list Z; mp_ncpu : Z; mp_plat : plat D }.
Arguments Mpst {D}.
Arguments mp_cpus {D}.
Arguments mp_ncpu {D}.
Arguments mp_plat {D}.

Section Init.
Context {D : Type} `{Ports D} (mem : Z -> Z).

Definition set_lapic (v : Z) (p : plat D) : plat D := Plat v (p_ioapicid p) (p_wrv p) (p_out p) (p_dev p).
Definition set_ioapicid (v : Z) (p : plat D) : plat D := Plat (p_lapic p) v (p_wrv p) (p_out p) (p_dev p).
Definition on_plat (f : plat D -> plat D) : M (mpst D) unit := modify (fun s => Mpst (mp_cpus s) (mp_ncpu s) (f (mp_plat s))).
Definition mdev {A} (m : M D A) : M (mpst D) A := zoom mp_plat (fun p s => Mpst (mp_cpus s) (mp_ncpu s) p) (pdev m).

(** The loop over the entries; its result is [ismp]. The [break] of the default case leaves the [switch], not the loop, so [p]
    stays where it is. *)
Fixpoint entries_loop (fuel : nat) (p e : Z) (ismp : bool) : M (mpst D) bool :=
  match fuel with
  | O => nofuel
  | S fuel =>
      if p <? e then
        if mem p =? MPPROC then
          modify (fun s => if mp_ncpu s <? NCPU
            then Mpst (<[Z.to_nat (mp_ncpu s) := mem (p + 1)]> (mp_cpus s)) (mp_ncpu s + 1) (mp_plat s) else s) ;;
          entries_loop fuel (p + SIZEOF_MPPROC) e ismp
        else if mem p =? MPIOAPIC then
          on_plat (set_ioapicid (mem (p + 1))) ;; entries_loop fuel (p + SIZEOF_MPIOAPIC) e ismp
        else if (mem p =? MPBUS) || (mem p =? MPIOINTR) || (mem p =? MPLINTR) then entries_loop fuel (p + 8) e ismp
        else entries_loop fuel p e false
      else mret ismp
  end.

Definition mpinit (fuel : nat) : M (mpst D) unit :=
  match mpconfig mem with
  | None => panic "Expect to run on an SMP"
  | Some (mp, conf) =>
      on_plat (set_lapic (conf_lapicaddr mem conf)) ;;
      ismp ← entries_loop fuel (conf + SIZEOF_MPCONF) (conf + conf_length mem conf) true;
      if negb (ismp : bool) then panic "Didn't find a suitable machine"
      else
        guard_ok (negb (mp_imcrp mem mp =? 0))
          (mdev (outb 0x22 0x70) ;; v ← mdev (inb 0x23); mdev (outb 0x23 (Z.lor v 1)))
  end.
End Init.

(** ** Tables as lists of entries *)
Inductive entry := Proc (apicid : Z) | Ioapic_entry (apicno : Z) | Other (kind : Z).

Definition entry_size (e : entry) : Z := match e with Proc _ => SIZEOF_MPPROC | _ => 8 end.
Definition entry_at (mem : Z -> Z) (p : Z) (e : entry) : Prop :=
  match e with
  | Proc id => mem p = MPPROC /\ mem (p + 1) = id
  | Ioapic_entry id => mem p = MPIOAPIC /\ mem (p + 1) = id
  | Other k => mem p = k /\ (k = MPBUS \/ k = MPIOINTR \/ k = MPLINTR)
  end.
Fixpoint entries_at (mem : Z -> Z) (p : Z) (es : list entry) : Prop :=
  match es with [] => True | e :: es => entry_at mem p e /\ entries_at mem (p + entry_size e) es end.
Fixpoint entries_size (es : list entry) : Z := match es with [] => 0 | e :: es => entry_size e + entries_size es end.

(** What the entries leave: the ids of the first [NCPU] processors, and the last I/O APIC. *)
Definition found (es : list entry) : list Z := omap (fun e => match e with Proc id => Some id | _ => None end) es.
Definition last_ioapic (es : list entry) (d : Z) : Z := foldl (fun r e => match e with Ioapic_entry id => id | _ => r end) d es.

Section Entries.
Context {D : Type} `{Ports D} (mem : Z -> Z).

(** The processors recorded so far. *)
Definition cpus_are (ids : list Z) (s : mpst D) : Prop :=
  length (mp_cpus s) = Z.to_nat NCPU /\ mp_ncpu s = Z.of_nat (length ids) /\ (length ids <= Z.to_nat NCPU)%nat /\ take (length ids) (mp_cpus s) = ids.

Lemma cpus_add ids id s : cpus_are ids s ->
  cpus_are (take (Z.to_nat NCPU) (ids ++ [id])) (if mp_ncpu s <? NCPU
    then Mpst (<[Z.to_nat (mp_ncpu s) := id]> (mp_cpus s)) (mp_ncpu s + 1) (mp_plat s) else s).
Proof.
  intros (Hl & Hn & Hle & Ht). change (Z.to_nat NCPU) with 8%nat in *. rewrite Hn. unfold NCPU. destruct (Z.ltb_spec (Z.of_nat (length ids)) 8) as [Hlt|Hge].
  - rewrite take_ge by (rewrite length_app; cbn; lia). unfold cpus_are. cbn [mp_cpus mp_ncpu]. rewrite length_insert, length_app, Nat2Z.id. cbn [length].
    split; [done|]. split; [lia|]. change (Z.to_nat NCPU) with 8%nat. split; [lia|].
    rewrite Nat.add_1_r, (take_S_r _ _ id) by (apply list_lookup_insert_eq; lia). by rewrite take_insert_ge, Ht.
  - rewrite take_app_le, take_ge by lia. done.
Qed.

Lemma take_take_app {A} n (l k : list A) : take n (take n l ++ k) = take n (l ++ k).
Proof. rewrite !take_app, take_take, Nat.min_id, length_take. do 2 f_equal. lia. Qed.

Lemma wp_entries es : forall fuel p e ids s (Q : bool -> mpst D -> Prop),
  (length es < fuel)%nat -> entries_at mem p es -> e = p + entries_size es -> cpus_are ids s ->
  (forall s', cpus_are (take (Z.to_nat NCPU) (ids ++ found es)) s' -> p_lapic (mp_plat s') = p_lapic (mp_plat s) ->
     p_ioapicid (mp_plat s') = last_ioapic es (p_ioapicid (mp_plat s)) -> Q true s') ->
  wp (entries_loop mem fuel p e true) s Q.
Proof.
  induction es as [|en es IH]; intros [|fuel] p e ids s Q Hf Hat He Hs HQ; try (cbn in Hf; lia); cbn [entries_loop].
  - cbn in He. rewrite (proj2 (Z.ltb_ge p e)) by lia. apply wp_ret, HQ; [|done|done]. cbn [found]. destruct Hs as (Hl & Hn & Hle & Ht).
    cbn. by rewrite app_nil_r, take_ge.
  - destruct Hat as [Hen Hat]. cbn [entries_size] in He. assert (0 <= entries_size es) by (clear; induction es as [|[] es IH]; cbn; unfold SIZEOF_MPPROC; lia).
    assert (0 < entry_size en) by (destruct en; cbn; unfold SIZEOF_MPPROC; lia). rewrite (proj2 (Z.ltb_lt p e)) by lia.
    destruct en as [id|id|k]; destruct Hen as [-> Hid].
    + cbn [Z.eqb MPPROC]. apply wp_bind, wp_modify. rewrite Hid. eapply IH; [cbn in Hf; lia|exact Hat|cbn in He; lia|by apply cpus_add|].
      intros s' Hc Hla Hio. apply HQ; [|by destruct (mp_ncpu s <? NCPU)|by destruct (mp_ncpu s <? NCPU)].
      cbn [found omap list_omap] in *. rewrite take_take_app, <- app_assoc in Hc. exact Hc.
    + change (MPIOAPIC =? MPPROC) with false. change (MPIOAPIC =? MPIOAPIC) with true. cbv iota. apply wp_bind, wp_modify. rewrite Hid.
      eapply IH; [cbn in Hf; lia|exact Hat|cbn in He; unfold SIZEOF_MPIOAPIC; lia|exact Hs|]. intros s' Hc Hla Hio. by apply HQ.
    + destruct Hid as [-> | [-> | ->]]; cbn [Z.eqb Pos.eqb orb MPPROC MPIOAPIC MPBUS MPIOINTR MPLINTR];
        (eapply IH; [cbn in Hf; lia|exact Hat|cbn in He; lia|exact Hs|]); intros s' Hc Hla Hio; by apply HQ.
Qed.

Lemma wp_mpinit mp conf es fuel s :
  mpconfig mem = Some (mp, conf) -> entries_at mem (conf + SIZEOF_MPCONF) es -> conf_length mem conf = SIZEOF_MPCONF + entries_size es ->
  length (mp_cpus s) = Z.to_nat NCPU -> mp_ncpu s = 0 -> (length es < fuel)%nat ->
  wp (mpinit mem fuel) s (fun _ s' => cpus_are (take (Z.to_nat NCPU) (found es)) s' /\
    p_ioapicid (mp_plat s') = last_ioapic es (p_ioapicid (mp_plat s)) /\ p_lapic (mp_plat s') = conf_lapicaddr mem conf).
Proof.
  intros Hc Hat Hlen Hl Hn Hf. unfold mpinit. rewrite Hc. apply wp_bind, wp_modify, wp_bind. apply (wp_entries es fuel _ _ []); [done|done|lia|split; [done|]; split; [done|]; split; [cbn; lia|done]|].
  intros s1 Hs1 Hla Hio. cbn [negb]. cbn [mp_plat set_lapic p_lapic p_ioapicid] in *. destruct (mp_imcrp mem mp =? 0); cbn [negb guard_ok]; [by apply wp_ret|].
  apply wp_bind. eapply wp_eq; [reflexivity|]. apply wp_bind. unfold mdev at 1, pdev at 1, zoom, inb, wp. cbn [mp_plat p_dev].
  destruct (port_in 35 _) as [v d']. cbn. done.
Qed.
End Entries.

(** [mpinit] finds the processors. For every configuration table that [mpconfig] accepts and whose entries are of the kinds it knows, the
    processors are recorded in the order of the table, at most [NCPU] of them and none outside of [cpus], with the last I/O APIC and the
    address of the local APIC. *)
Theorem mpinit_records {D} `{Ports D} (mem : Z -> Z) mp conf es fuel (s : mpst D) :
  mpconfig mem = Some (mp, conf) -> entries_at mem (conf + SIZEOF_MPCONF) es -> conf_length mem conf = SIZEOF_MPCONF + entries_size es ->
  length (mp_cpus s) = Z.to_nat NCPU -> mp_ncpu s = 0 -> (length es < fuel)%nat ->
  exists s', mpinit mem fuel s = Ok tt s' /\
    mp_ncpu s' = Z.min NCPU (Z.of_nat (length (found es))) /\ take (Z.to_nat (mp_ncpu s')) (mp_cpus s') = take (Z.to_nat NCPU) (found es) /\
    length (mp_cpus s') = Z.to_nat NCPU /\
    p_ioapicid (mp_plat s') = last_ioapic es (p_ioapicid (mp_plat s)) /\ p_lapic (mp_plat s') = conf_lapicaddr mem conf.
Proof.
  intros Hc Hat Hlen Hl Hn Hf. destruct (proj1 (wp_ok _ _ _) (wp_mpinit mem mp conf es fuel s Hc Hat Hlen Hl Hn Hf)) as ([] & s' & He & (Hlc & Hnc & _ & Ht) & Hio & Hla).
  exists s'. split; [done|]. assert (mp_ncpu s' = Z.min NCPU (Z.of_nat (length (found es)))) as Hm by (rewrite Hnc, length_take; unfold NCPU; lia).
  split; [done|]. split; [|done]. etransitivity; [|exact Ht]. f_equal. rewrite Hnc. lia.
Qed.

(** A machine with two processors: its floating pointer structure is in the ROM, and its table is behind it. *)
Definition smp_table : list Z :=
  [80; 67; 77; 80; 100; 0; 4; 138] ++ replicate 26 0 ++ [4; 0] ++ [0; 0; 0xE0; 0xFE] ++ replicate 4 0 ++
  ([0; 0; 17; 3] ++ replicate 16 0) ++ ([0; 1; 17; 1] ++ replicate 16 0) ++ (1 :: replicate 7 0) ++ [2; 2; 17; 1; 0; 0; 0xC0; 0xFE].
Definition smp_memory : Z -> Z :=
  store (P2V 0xF0000) [95; 77; 80; 95; 0; 1; 15; 0; 1; 4; 144; 0; 0; 0; 0; 0] (store (P2V 0xF0100) smp_table (fun _ => 0)).
Definition mp_bss : mpst (list Z) := Mpst (replicate 8 0) 0 (Plat 0 0 (0, 0) [] []).

Lemma mpinit_records_witness : exists s',
  (let _ := Build_Ports (list Z) (fun _ d => (0, d)) (fun _ _ d => d) in mpinit smp_memory 5 mp_bss = Ok tt s') /\
  mp_ncpu s' = 2 /\ take 2 (mp_cpus s') = [0; 1] /\ p_ioapicid (mp_plat s') = 2 /\ p_lapic (mp_plat s') = 0xFEE00000.
Proof.
  destruct (mpinit_records (H := Build_Ports (list Z) (fun _ d => (0, d)) (fun _ _ d => d)) smp_memory (P2V 0xF0000) (P2V 0xF0100)
    [Proc 0; Proc 1; Other MPBUS; Ioapic_entry 2] 5 mp_bss) as (s' & He & Hn & Ht & _ & Hio & Hla);
    [by vm_compute|repeat split; try (by vm_compute); by left|by vm_compute|done|done|cbn; lia|].
  exists s'. split; [exact He|]. rewrite Hn in Ht. rewrite Hn, Hio, Hla. split; [by vm_compute|]. split; [exact Ht|]. clear. split; vm_compute; reflexivity.
Defined.

(** An entry of a kind that [mpinit] does not know makes it loop for ever at that entry, so neither the panic for an unsuitable machine nor the rest
    of the start-up is reached. *)
Theorem mpinit_hangs {D} `{Ports D} (mem : Z -> Z) mp conf fuel (s : mpst D) :
  mpconfig mem = Some (mp, conf) -> SIZEOF_MPCONF < conf_length mem conf -> 4 < mem (conf + SIZEOF_MPCONF) ->
  mpinit mem fuel s = NoFuel.
Proof.
  intros Hc Hl Hk. unfold mpinit. rewrite Hc. rewrite (bind_ok _ _ _ tt _ (eq_refl : on_plat _ s = Ok tt _)).
  enough (forall b (s : mpst D), entries_loop mem fuel (conf + SIZEOF_MPCONF) (conf + conf_length mem conf) b s = NoFuel) as He
    by (unfold mbind, M_bind; by rewrite He).
  induction fuel as [|fuel IH]; intros b s'; [done|]. cbn [entries_loop]. rewrite (proj2 (Z.ltb_lt _ _)) by lia.
  unfold MPPROC, MPIOAPIC, MPBUS, MPIOINTR, MPLINTR. repeat (rewrite (proj2 (Z.eqb_neq (mem _) _)) by lia). apply IH.
Qed.
