(* ===== verification/Mkfs.v ===== *)
(** The program that makes the file system image (mkfs.c).

    The image is the list of its blocks; a read outside of it ends the program, as a failed assertion does, and both are [Panic]. [xint] and [xshort] put the
    bytes into the order of the disk. A file that is
    added is its name and the chunks that [read] returns for it, or [None] if it cannot be opened. *)

From S2P Require Import Prelude Bytes Buf Log Inode Ide Xv6fs.

Definition NINODES : Z := 200.
Definition nbitmap : Z := FSSIZE / (BSIZE * 8) + 1.
Definition ninodeblocks : Z := NINODES / IPB + 1.
Definition nlog : Z := LOGSIZE.
Definition nmeta : Z := 2 + nlog + ninodeblocks + nbitmap.
Definition nblocks : Z := FSSIZE - nmeta.

Definition xshort (x : Z) : Z := le_dec [u8 x; u8 (Z.shiftr x 8)].
Definition xint (x : Z) : Z := le_dec [u8 x; u8 (Z.shiftr x 8); u8 (Z.shiftr x 16); u8 (Z.shiftr x 24)].

(** [sb] of [main]. *)
Definition mkfs_sb : superblock :=
  Superblock (xint FSSIZE) (xint nblocks) (xint NINODES) (xint nlog) (xint 2) (xint (2 + nlog)) (xint (2 + nlog + ninodeblocks)).

Record mk := Mk { m_img : list (list Z); m_freeinode : Z; m_freeblock : Z }.

(** The block at offset [sec * BSIZE] of the image. *)
Definition sect (sec : Z) : nat := Z.to_nat (u32 (sec * BSIZE) / BSIZE).

Definition rsect (sec : Z) : M mk (list Z) := fun s =>
  match m_img s !! sect sec with Some buf => Ok buf s | None => Panic "read" end.

(** Writing behind the end makes the image longer, with zeroes in between. *)
Definition wsect (sec : Z) (buf : list Z) : M mk unit := modify (fun s =>
  let img := m_img s ++ replicate (S (sect sec) - length (m_img s)) zero_block in
  Mk (<[sect sec := buf]> img) (m_freeinode s) (m_freeblock s)).

Definition winode (inum : Z) (ip : dinode) : M mk unit :=
  let bn := IBLOCK inum mkfs_sb in
  buf ← rsect bn;
  wsect bn (dinode_set buf inum ip).

Definition rinode (inum : Z) : M mk dinode :=
  let bn := IBLOCK inum mkfs_sb in
  buf ← rsect bn;
  mret (dinode_at buf inum).

Definition mkfs_ialloc (type : Z) : M mk Z :=
  inum ← gets m_freeinode;
  modify (fun s => Mk (m_img s) (u32 (inum + 1)) (m_freeblock s)) ;;
  winode inum (Dinode (s16 (xshort type)) 0 0 (s16 (xshort 1)) (xint 0) (replicate 13 0)) ;;
  mret inum.

(** The bitmap with the first [used] bits set. *)
Definition used_bits (used : Z) : list Z := foldl set_bit zero_block (range 0 used).
Definition mkfs_balloc (used : Z) : M mk unit :=
  guard_ok (negb (used <? BSIZE * 8)) (panic "assert") ;;
  wsect (sb_bmapstart mkfs_sb) (used_bits used).

(** [freeblock++]. *)
Definition take_block : M mk Z :=
  b ← gets m_freeblock;
  modify (fun s => Mk (m_img s) (m_freeinode s) (u32 (b + 1))) ;;
  mret b.

Definition with_addr (k : nat) (b : Z) (din : dinode) : dinode :=
  Dinode (d_type din) (d_major din) (d_minor din) (d_nlink din) (d_size din) (<[k := xint b]> (d_addrs din)).
Definition addr_of (k : nat) (din : dinode) : Z := xint (default 0 (d_addrs din !! k)).

(** Block [x] of the file for its block number [fbn]. *)
Definition map_block (din : dinode) (fbn : Z) : M mk (dinode * Z) :=
  if fbn <? Z.of_nat NDIRECT then
    din ← (if addr_of (Z.to_nat fbn) din =? 0 then b ← take_block; mret (with_addr (Z.to_nat fbn) b din) else mret din);
    mret (din, addr_of (Z.to_nat fbn) din)
  else
    din ← (if addr_of NDIRECT din =? 0 then b ← take_block; mret (with_addr NDIRECT b din) else mret din);
    indirect ← rsect (addr_of NDIRECT din);
    let k := Z.to_nat (fbn - Z.of_nat NDIRECT) in
    indirect ← (if word_at indirect k =? 0 then
                  b ← take_block;
                  let indirect := set_word indirect k (xint b) in
                  wsect (addr_of NDIRECT din) indirect ;; mret indirect
                else mret indirect);
    mret (din, xint (word_at indirect k)).

Fixpoint iappend_loop (fuel : nat) (din : dinode) (off : Z) (p : list Z) : M mk (dinode * Z) :=
  match fuel with
  | O => nofuel
  | S fuel =>
      if (0 <? Z.of_nat (length p)) then
        let fbn := off / BSIZE in
        guard_ok (negb (fbn <? MAXFILE)) (panic "assert") ;;
        r ← map_block din fbn;
        let '(din, x) := r in
        let n1 := Z.min (Z.of_nat (length p)) ((fbn + 1) * BSIZE - off) in
        buf ← rsect x;
        wsect x (splice (Z.to_nat (off - fbn * BSIZE)) (take (Z.to_nat n1) p) buf) ;;
        iappend_loop fuel din (off + n1) (drop (Z.to_nat n1) p)
      else mret (din, off)
  end.

(** Every round of the loop but the first starts at a block, so the bytes and two give enough rounds. *)
Definition iappend (inum : Z) (p : list Z) : M mk unit :=
  din ← rinode inum;
  r ← iappend_loop (rounds (Z.of_nat (length p))) din (xint (d_size din)) p;
  let '(din, off) := r in
  winode inum (Dinode (d_type din) (d_major din) (d_minor din) (d_nlink din) (xint off) (d_addrs din)).

(** [struct dirent] with a name that is cut or filled up to [DIRSIZ] bytes. *)
Definition mk_dirent (inum : Z) (name : list Z) : list Z := le_enc 2 (xshort inum) ++ take 14 (name ++ replicate 14 0).

Definition strip (name : list Z) : list Z := match name with c :: t => if c =? 95 then t else name | [] => name end.

Definition add_file (rootino : Z) (f : list Z * option (list (list Z))) : M mk unit :=
  guard_ok (bool_decide (47 ∈ f.1)) (panic "assert") ;;
  match f.2 with
  | None => panic "open"
  | Some chunks =>
      inum ← mkfs_ialloc T_FILE;
      iappend rootino (mk_dirent inum (strip f.1)) ;;
      for_all chunks (iappend inum)
  end.

Definition sb_bytes (sb : superblock) : list Z :=
  mjoin (le_enc 4 <$> [sb_size sb; sb_nblocks sb; sb_ninodes sb; sb_nlog sb; sb_logstart sb; sb_inodestart sb; sb_bmapstart sb]).

Definition fix_root (rootino : Z) : M mk unit :=
  din ← rinode rootino;
  let off := xint (d_size din) in
  let off := (off / BSIZE + 1) * BSIZE in
  winode rootino (Dinode (d_type din) (d_major din) (d_minor din) (d_nlink din) (xint off) (d_addrs din)).

Definition mkfs_main (files : list (list Z * option (list (list Z)))) : M mk unit :=
  modify (fun s => Mk (m_img s) (m_freeinode s) nmeta) ;;
  for_all (range 0 FSSIZE) (fun i => wsect i zero_block) ;;
  wsect 1 (splice 0 (sb_bytes mkfs_sb) zero_block) ;;
  rootino ← mkfs_ialloc T_DIR;
  guard_ok (negb (rootino =? ROOTINO)) (panic "assert") ;;
  iappend rootino (mk_dirent rootino [46]) ;;
  iappend rootino (mk_dirent rootino [46; 46]) ;;
  iappend rootino (mk_dirent rootino [109; 110; 116]) ;;
  for_all files (add_file rootino) ;;
  fix_root rootino ;;
  freeblock ← gets m_freeblock;
  mkfs_balloc freeblock.

(** The variables before [main]. *)
Definition mk_start : mk := Mk [] 1 0.
