(* ===== verification/MkfsSpec.v ===== *)
(** The image that mkfs makes is a file system of the kernel: its super block, its inodes and its bitmap are what the theorems on
    the kernel's file system ask for, and the files have the contents that were given.

    While mkfs runs it has not written the bitmap yet. In the view of the image that the proofs use, the bitmap has a bit for every
    block below [freeblock], so that taking a block is an allocation of the kernel, and the lemmas on [bmap] and [writei] apply
    to [iappend]. *)

From Stdlib Require Import FunctionalExtensionality.
From S2P Require Import Prelude Bytes Buf Log Inode Xv6fs Blocks InodeSpec FileSpec Mkfs.

Abbreviation dev := ROOTDEV.
Abbreviation sb := mkfs_sb.

Lemma mkfs_sb_eq : sb = Superblock 1000 954 200 30 2 32 45.
Proof. by vm_compute. Qed.

Lemma mkfs_layout : layout (fun _ _ => True) sb.
Proof. rewrite mkfs_sb_eq. split; by vm_compute. Qed.

Lemma xint_small x : 0 <= x < 4294967296 -> xint x = x.
Proof. intros Hx. unfold xint, u8. cbn [le_dec]. rewrite !Z.shiftr_div_pow2 by lia. change (2 ^ 8) with 256. change (2 ^ 16) with 65536. change (2 ^ 24) with 16777216. elia. Qed.

(** ** The bitmap *)
Lemma used_bits_S n : 0 <= n -> used_bits (n + 1) = set_bit (used_bits n) n.
Proof.
  intros Hn. unfold used_bits, range. rewrite !Z.sub_0_r. rewrite seqZ_app, foldl_app by lia. done.
Qed.

Lemma rd_zero i : rd zero_block i = 0.
Proof. unfold rd. destruct (zero_block !! Z.to_nat i) as [x|] eqn:Hx; [by apply lookup_replicate in Hx as [-> _]|done]. Qed.

Lemma used_bits_ok (n : nat) : Z.of_nat n <= 8192 -> block_ok (used_bits (Z.of_nat n)) /\
  forall c, 0 <= c < 8192 -> bit (used_bits (Z.of_nat n)) c = (c <? Z.of_nat n).
Proof.
  induction n as [|n IH]; intros Hn.
  - split; [apply zero_block_ok|]. intros c Hc. rewrite (proj2 (Z.ltb_ge c _)) by lia. unfold bit. change (used_bits (Z.of_nat 0)) with zero_block.
    rewrite rd_zero. apply Z.testbit_0_l.
  - destruct IH as [[Hl Hb] Hc]; [lia|]. rewrite Nat2Z.inj_succ, <- Z.add_1_r, used_bits_S by lia. split.
    + split; [by rewrite length_set_bit|by apply set_bit_ok].
    + intros c Hr. rewrite bit_set_bit, Hc by lia. case_decide; destruct (Z.ltb_spec c (Z.of_nat n)), (Z.ltb_spec c (Z.of_nat n + 1)); (done || lia).
Qed.

(** ** The view of an image *)
Definition view (m : mk) : Cache.blocks := fun d b =>
  if decide (d = dev) then if decide (b = 45) then used_bits (m_freeblock m) else default zero_block (if decide (0 <= b) then m_img m !! Z.to_nat b else None)
  else [].

Record minv (m : mk) : Prop := {
  mi_len : length (m_img m) = 1000%nat;
  mi_ok : Forall block_ok (m_img m);
  mi_free : 46 <= m_freeblock m <= 1000;
  mi_zero : forall b, m_freeblock m <= b < 1000 -> m_img m !! Z.to_nat b = Some zero_block;
  mi_log : forall b, 2 <= b < 32 -> m_img m !! Z.to_nat b = Some zero_block;
}.

Lemma view_block m b : minv m -> 0 <= b < 1000 -> b <> 45 -> m_img m !! Z.to_nat b = Some (view m dev b) /\ block_ok (view m dev b).
Proof.
  intros Hm Hb Hne. unfold view. rewrite decide_True, decide_False, decide_True by (done || lia).
  destruct (lookup_lt_is_Some_2 (m_img m) (Z.to_nat b)) as [x Hx]; [rewrite (mi_len _ Hm); lia|]. rewrite Hx. split; [done|].
  exact (Forall_lookup_1 _ _ _ _ (mi_ok _ Hm) Hx).
Qed.

Lemma view_in_use m c : minv m -> 0 <= c < 1000 -> in_use sb (view m) c = (c <? m_freeblock m).
Proof.
  intros Hm Hc. unfold in_use, bitmap_block. rewrite mkfs_sb_eq. cbn [sb_bmapstart]. change BPB with 8192.
  replace (c / 8192 + 45) with 45 by elia. unfold view. rewrite !decide_True by done.
  pose proof (mi_free _ Hm). replace (m_freeblock m) with (Z.of_nat (Z.to_nat (m_freeblock m))) by lia. replace (c mod 8192) with c by elia.
  apply used_bits_ok; lia.
Qed.

Lemma sb_facts : sb_size sb = 1000 /\ datastart sb = 46 /\ sb_bmapstart sb = 45 /\ sb_inodestart sb = 32 /\ sb_ninodes sb = 200.
Proof. by vm_compute. Qed.

Lemma view_bm m : minv m -> bm_ok sb (view m).
Proof.
  intros Hm b. destruct sb_facts as (-> & -> & _). intros Hb. rewrite view_in_use by done. pose proof (mi_free _ Hm). intros Hu%Z.ltb_ge. lia.
Qed.

Lemma sect_small b : 0 <= b < 1000 -> sect b = Z.to_nat b.
Proof. intros Hb. unfold sect, BSIZE. rewrite u32_small by lia. by rewrite Z.div_mul. Qed.

Lemma wp_rsect m b (Q : list Z -> mk -> Prop) : minv m -> 0 <= b < 1000 -> b <> 45 -> Q (view m dev b) m -> wp (rsect b) m Q.
Proof. intros Hm Hb Hne HQ. destruct (view_block m b Hm Hb Hne) as [Hl _]. unfold wp, rsect. by rewrite sect_small, Hl. Qed.

Lemma wp_wsect m b buf (Q : unit -> mk -> Prop) :
  minv m -> 32 <= b < m_freeblock m -> b <> 45 -> block_ok buf ->
  (forall m', minv m' -> view m' = apply_write (view m) (dev, b, buf) -> m_freeinode m' = m_freeinode m -> m_freeblock m' = m_freeblock m -> Q tt m') ->
  wp (wsect b buf) m Q.
Proof.
  intros Hm Hb Hne Hbuf HQ. pose proof (mi_free _ Hm) as Hf. apply wp_modify. rewrite sect_small by lia. rewrite (mi_len _ Hm).
  replace (S (Z.to_nat b) - 1000)%nat with 0%nat by lia. cbn [replicate]. rewrite app_nil_r. apply HQ; [|.. |done|done].
  - split; cbn [m_img m_freeblock].
    + rewrite length_insert. apply Hm.
    + apply Forall_insert; [apply Hm|done].
    + done.
    + intros c Hc. rewrite list_lookup_insert_ne by lia. by apply (mi_zero _ Hm).
    + intros c Hc. rewrite list_lookup_insert_ne by lia. by apply (mi_log _ Hm).
  - apply functional_extensionality. intros d. apply functional_extensionality. intros c. unfold view, apply_write. cbn [m_img m_freeblock fst snd].
    destruct (decide (d = dev)) as [->|Hd]; [|by rewrite decide_False by congruence].
    destruct (decide (c = b)) as [->|Hc].
    + rewrite (decide_True (P := (_, _) = _)), decide_False, decide_True by (done || lia). by rewrite list_lookup_insert_eq by (rewrite (mi_len _ Hm); lia).
    + rewrite (decide_False (P := (_, _) = _)) by congruence. destruct (decide (c = 45)); [done|]. destruct (decide (0 <= c)); [|done].
      by rewrite list_lookup_insert_ne by lia.
Qed.

Lemma data_block_range b : data_block sb b <-> 46 <= b < 1000.
Proof. unfold data_block. by destruct sb_facts as (-> & -> & _). Qed.

Lemma wp_take_block m (Q : Z -> mk -> Prop) :
  minv m -> m_freeblock m < 1000 ->
  (forall m', minv m' -> m_freeblock m' = m_freeblock m + 1 -> m_freeinode m' = m_freeinode m ->
     grows sb (view m) (view m') (m_freeblock m) -> Q (m_freeblock m) m') ->
  wp take_block m Q.
Proof.
  intros Hm Hlt HQ. pose proof (mi_free _ Hm) as Hf. apply wp_bind, wp_gets, wp_bind, wp_modify, wp_ret. rewrite u32_small by lia.
  set (m' := Mk _ _ _). assert (minv m') as Hm' by (split; cbn; [apply Hm|apply Hm|lia|intros b Hb; apply (mi_zero _ Hm); lia|apply Hm]).
  assert (forall c, c <> 45 -> view m' dev c = view m dev c) as Hv.
  { intros c Hc. unfold view. rewrite !decide_True by done. by rewrite !(decide_False (P := c = 45)) by done. }
  apply HQ; [done|done|done|]. split.
  - apply data_block_range. lia.
  - rewrite view_in_use by (done || lia). by apply Z.ltb_irrefl.
  - rewrite Hv by lia. destruct (view_block m (m_freeblock m) Hm) as [Hl _]; [lia..|]. rewrite (mi_zero _ Hm) in Hl by lia. congruence.
  - intros c Hc _. rewrite data_block_range in Hc. apply Hv. lia.
  - destruct sb_facts as (_ & _ & -> & _). intros c Hc. apply Hv. lia.
  - destruct sb_facts as (-> & _). intros c Hc. rewrite !view_in_use by done. cbn [m' m_freeblock].
    case_decide; destruct (Z.ltb_spec c (m_freeblock m + 1)), (Z.ltb_spec c (m_freeblock m)); (done || lia).
Qed.

(** ** The blocks of a file of [n] bytes *)
Definition need (n : Z) : Z := (n + 1023) / 1024 + (if n <=? 12288 then 0 else 1).

Record fstate (v : Cache.blocks) (A : list Z) (n : Z) : Prop := {
  fs_file : file_ok sb v A;
  fs_addr : forall bn, 0 <= bn < maxblk -> baddr v A bn = 0 <-> n <= bn * 1024;
  fs_ind : ind A = 0 <-> n <= 12288;
  fs_tail : forall o, Z.max 0 n <= o < maxblk * 1024 -> baddr v A (o / 1024) <> 0 -> fbyte v A o = 0;
}.

Lemma baddr_range v A bn : file_ok sb v A -> 0 <= bn < maxblk -> 0 <= baddr v A bn < 1000 /\ (baddr v A bn <> 0 -> 46 <= baddr v A bn).
Proof.
  intros [_ Hok] Hbn. destruct (decide (baddr v A bn = 0)) as [->|Hne]; [lia|]. destruct (ao_data _ _ _ _ Hok bn Hbn Hne) as [Hd _].
  rewrite data_block_range in Hd. lia.
Qed.

Lemma ind_range v A : file_ok sb v A -> 0 <= ind A < 1000 /\ (ind A <> 0 -> 46 <= ind A).
Proof.
  intros [_ Hok]. destruct (decide (ind A = 0)) as [->|Hne]; [lia|]. destruct (ao_ind _ _ _ _ Hok Hne) as [Hd _]. rewrite data_block_range in Hd. lia.
Qed.

Lemma baddr_used m A bn : minv m -> file_ok sb (view m) A -> 0 <= bn < maxblk -> baddr (view m) A bn <> 0 -> 46 <= baddr (view m) A bn < m_freeblock m.
Proof.
  intros Hm [_ Hok] Hbn Hne. destruct (ao_data _ _ _ _ Hok bn Hbn Hne) as [Hd Hu]. rewrite data_block_range in Hd.
  rewrite view_in_use in Hu by (done || lia). lia.
Qed.

Lemma ind_used m A : minv m -> file_ok sb (view m) A -> ind A <> 0 -> 46 <= ind A < m_freeblock m.
Proof.
  intros Hm [_ Hok] Hne. destruct (ao_ind _ _ _ _ Hok Hne) as [Hd Hu]. rewrite data_block_range in Hd.
  rewrite view_in_use in Hu by (done || lia). lia.
Qed.

(** The part of [map_block] behind the indirect block. *)
Definition indirect_part (din : dinode) (fbn : Z) : M mk (dinode * Z) :=
  indirect ← rsect (addr_of NDIRECT din);
  let k := Z.to_nat (fbn - Z.of_nat NDIRECT) in
  indirect ← (if word_at indirect k =? 0 then
                b ← take_block;
                let indirect := set_word indirect k (xint b) in
                wsect (addr_of NDIRECT din) indirect ;; mret indirect
              else mret indirect);
  mret (din, xint (word_at indirect k)).

Lemma wp_indirect_part m t ma mi nl sz A bn (Q : dinode * Z -> mk -> Prop) :
  minv m -> file_ok sb (view m) A -> ind A <> 0 -> 12 <= bn < maxblk ->
  m_freeblock m + (if baddr (view m) A bn =? 0 then 1 else 0) <= 1000 ->
  (forall addr m1, minv m1 -> m_freeblock m1 = m_freeblock m + (if baddr (view m) A bn =? 0 then 1 else 0) -> m_freeinode m1 = m_freeinode m ->
     maps sb 1 (view m) A (view m1) A bn addr -> Q (Dinode t ma mi nl sz A, addr) m1) ->
  wp (indirect_part (Dinode t ma mi nl sz A) bn) m Q.
Proof.
  intros Hm Hf Hi Hbn Hfree HQ. pose proof (ind_range _ _ Hf) as [Hir Hi46]. specialize (Hi46 Hi). pose proof (ind_used m A Hm Hf Hi) as Hiu.
  unfold indirect_part. assert (addr_of NDIRECT (Dinode t ma mi nl sz A) = ind A) as -> by (by apply xint_small; unfold ind in *; lia).
  apply wp_bind, wp_rsect; [done|lia|lia|]. change (Z.of_nat NDIRECT) with 12.
  assert (baddr (view m) A bn = word_at (view m dev (ind A)) (Z.to_nat (bn - 12))) as Hb.
  { unfold baddr. rewrite (proj2 (Z.ltb_ge bn 12)), (proj2 (Z.eqb_neq _ _) Hi) by lia. done. }
  destruct (baddr_range _ _ bn Hf ltac:(unfold maxblk in *; lia)) as [Hbr Hb46].
  destruct (view_block m (ind A) Hm) as [_ Hio]; [lia..|]. pose proof Hio as [Hil _].
  rewrite <- Hb. destruct (Z.eqb_spec (baddr (view m) A bn) 0) as [Hz|Hnz].
  - apply wp_bind, wp_bind, wp_take_block; [done|lia|]. intros m1 Hm1 Hfb Hfi Hg. pose proof (mi_free _ Hm1). pose proof (mi_free _ Hm).
    rewrite (xint_small (m_freeblock m)) by lia.
    apply wp_bind, wp_wsect; [done|lia|lia| |].
    { split; [rewrite length_set_word; [apply Hio|rewrite Hil; unfold maxblk in *; lia]|apply set_word_ok, Hio]. }
    intros m2 Hm2 Hv2 Hfi2 Hfb2. apply wp_ret, wp_ret.
    rewrite word_at_set_small by (rewrite ?Hil; unfold maxblk in *; lia). rewrite xint_small by lia.
    apply HQ; [done|lia|congruence|]. rewrite Hv2.
    rewrite <- (gr_other _ _ _ _ Hg (ind A)) by (rewrite ?data_block_range; lia).
    by apply (maps_indirect _ _ mkfs_layout); try (done || apply view_bm).
  - apply wp_bind, wp_ret, wp_ret. rewrite <- Hb, xint_small by lia. apply HQ; [done|lia|done|].
    eapply maps_weaken; [|apply maps_same; try (done || by apply view_bm)]; [lia|unfold maxblk in *; lia].
Qed.

Lemma need_step off : 0 <= off -> need (off + 1) - need off = (if off mod 1024 =? 0 then 1 else 0) + (if off =? 12288 then 1 else 0).
Proof.
  intros Ho. unfold need. destruct (Z.eqb_spec (off mod 1024) 0), (Z.eqb_spec off 12288), (Z.leb_spec (off + 1) 12288), (Z.leb_spec off 12288); elia.
Qed.

Lemma wp_map_block m t ma mi nl sz A off (Q : dinode * Z -> mk -> Prop) :
  minv m -> fstate (view m) A off -> 0 <= off < maxblk * 1024 -> m_freeblock m + (need (off + 1) - need off) <= 1000 ->
  (forall A1 addr m1, minv m1 -> m_freeblock m1 = m_freeblock m + (need (off + 1) - need off) -> m_freeinode m1 = m_freeinode m ->
     maps sb 2 (view m) A (view m1) A1 (off / 1024) addr -> (ind A1 = 0 <-> off + 1 <= 12288) -> Q (Dinode t ma mi nl sz A1, addr) m1) ->
  wp (map_block (Dinode t ma mi nl sz A) (off / 1024)) m Q.
Proof.
  intros Hm [Hf Ha Hi] Hoff Hfree HQ. assert (0 <= off / 1024 < maxblk) as Hbn by (unfold maxblk in *; elia). pose proof (mi_free _ Hm) as Hmf.
  destruct (baddr_range _ _ _ Hf Hbn) as [Hbr Hb46]. pose proof (Ha _ Hbn) as Hz. rewrite need_step in * by lia. pose proof Hf as [HlA _].
  unfold map_block. change (Z.of_nat NDIRECT) with 12. destruct (Z.ltb_spec (off / 1024) 12) as [Hlt|Hge].
  - rewrite (proj2 (Z.eqb_neq off 12288)) in * by elia.
    assert (forall A', addr_of (Z.to_nat (off / 1024)) (Dinode t ma mi nl sz A') = xint (baddr (view m) A' (off / 1024))) as Hadr.
    { intros A'. unfold addr_of, baddr. by rewrite (proj2 (Z.ltb_lt _ _)). }
    rewrite !Hadr, xint_small by lia. destruct (Z.eqb_spec (baddr (view m) A (off / 1024)) 0) as [Hb0|Hb0].
    + rewrite (proj2 (Z.eqb_eq (off mod 1024) 0)) in * by elia.
      apply wp_bind, wp_bind, wp_take_block; [done|lia|]. intros m1 Hm1 Hfb Hfi Hg. apply wp_ret, wp_ret. unfold with_addr. cbn [d_type d_major d_minor d_nlink d_size d_addrs].
      rewrite Hadr, (xint_small (m_freeblock m)) by lia.
      assert (baddr (view m) (<[Z.to_nat (off / 1024) := m_freeblock m]> A) (off / 1024) = m_freeblock m) as ->.
      { unfold baddr. rewrite (proj2 (Z.ltb_lt _ _)) by done. by rewrite list_lookup_insert_eq by (rewrite HlA; lia). }
      rewrite xint_small by lia. apply HQ; [done|lia|done| |].
      * eapply maps_weaken; [|apply (maps_direct _ _ mkfs_layout); (done || lia || by apply view_bm)]. lia.
      * unfold ind. rewrite list_lookup_insert_ne by (unfold NDIRECT; lia). fold (ind A). rewrite Hi. elia.
    + rewrite (proj2 (Z.eqb_neq (off mod 1024) 0)) in * by (intros ?; apply Hb0, Hz; elia).
      apply wp_bind, wp_ret, wp_ret. rewrite Hadr, xint_small by lia.
      apply HQ; [done|lia|done| |rewrite Hi; elia]. eapply maps_weaken; [|apply maps_same; (done || lia || by apply view_bm)]. lia.
  - pose proof (ind_range _ _ Hf) as [Hir _]. rewrite (eq_refl : addr_of NDIRECT (Dinode t ma mi nl sz A) = xint (ind A)), xint_small by lia.
    destruct (Z.eqb_spec (ind A) 0) as [Hi0|Hi0].
    + assert (off = 12288) as -> by (apply Hi in Hi0; elia). change ((if 12288 mod 1024 =? 0 then 1 else 0) + (if 12288 =? 12288 then 1 else 0)) with 2 in *.
      apply wp_bind, wp_bind, wp_take_block; [done|lia|]. intros m1 Hm1 Hfb Hfi Hg. apply wp_ret. unfold with_addr. cbn [d_type d_major d_minor d_nlink d_size d_addrs].
      rewrite (xint_small (m_freeblock m)) by lia. destruct (ind_fresh _ _ mkfs_layout _ _ _ _ Hf Hi0 Hg) as (Hf1 & Hi1 & Hb1).
      assert (baddr (view m1) (<[NDIRECT := m_freeblock m]> A) (12288 / 1024) = 0) as Hb10 by (rewrite Hb1 by done; by apply Hz).
      change (wp (indirect_part (Dinode t ma mi nl sz (<[NDIRECT := m_freeblock m]> A)) (12288 / 1024)) m1 Q).
      apply wp_indirect_part; [done|done|lia|done|rewrite Hb10; cbn; lia|]. intros addr m2 Hm2 Hfb2 Hfi2 Hmap. rewrite Hb10 in Hfb2. cbn in Hfb2.
      apply HQ; [done|lia|congruence| |lia]. by apply (maps_after_ind _ _ mkfs_layout 1 _ (view m1) _ _ _ _ (m_freeblock m)).
    + assert (off <> 12288) by (intros ->; by apply Hi0, Hi). rewrite (proj2 (Z.eqb_neq off 12288)) in * by done.
      apply wp_bind, wp_ret. change (wp (indirect_part (Dinode t ma mi nl sz A) (off / 1024)) m Q).
      assert ((if baddr (view m) A (off / 1024) =? 0 then 1 else 0) = (if off mod 1024 =? 0 then 1 else 0)) as He.
      { destruct (Z.eqb_spec (baddr (view m) A (off / 1024)) 0) as [H0|H0], (Z.eqb_spec (off mod 1024) 0) as [H1|H1]; try done; exfalso; [apply Hz in H0; elia|].
        apply H0, Hz. elia. }
      apply wp_indirect_part; [done|done|done|lia|lia|]. intros addr m1 Hm1 Hfb Hfi Hmap.
      apply HQ; [done|lia|done|eapply maps_weaken; [|exact Hmap]; lia|]. split; [done|]. intros; elia.
Qed.

Lemma need_block off n1 : 0 <= off -> 0 < n1 <= 1024 - off mod 1024 -> need (off + n1) = need (off + 1).
Proof. intros Ho Hn. unfold need. destruct (Z.leb_spec (off + n1) 12288), (Z.leb_spec (off + 1) 12288); elia. Qed.

Lemma need_mono a b : 0 <= a <= b -> need a <= need b.
Proof. intros Hab. unfold need. destruct (Z.leb_spec a 12288), (Z.leb_spec b 12288); elia. Qed.

(** The file after one block of it has been filled up. *)
Lemma fstate_chunk v A v1 A1 off n1 addr x :
  (forall o, off mod 1024 + n1 <= o < 1024 -> rd x o = rd (v1 dev addr) o) ->
  fstate v A off -> 0 <= off < maxblk * 1024 -> 0 < n1 <= 1024 - off mod 1024 ->
  maps sb 2 v A v1 A1 (off / 1024) addr -> (ind A1 = 0 <-> off + 1 <= 12288) ->
  file_ok sb (apply_write v1 (dev, addr, x)) A1 -> fstate (apply_write v1 (dev, addr, x)) A1 (off + n1).
Proof.
  intros Hx [_ Ha _ Htl] Hoff Hn Hmap Hi1 Hf. destruct (mp_addr _ _ _ _ _ _ _ _ Hmap) as [Hadr Hd]. rewrite data_block_range in Hd.
  assert (0 <= off / 1024 < maxblk) as Hbn by (unfold maxblk in *; elia).
  assert (addr <> ind A1) as Hne by (rewrite <- Hadr; apply (mp_ok _ _ _ _ _ _ _ _ Hmap); [done|lia]).
  split; [done| |rewrite Hi1; elia|].
  - intros bn Hb. rewrite baddr_write by done. destruct (decide (bn = off / 1024)) as [->|Hnb].
    + rewrite Hadr. split; [lia|]. intros. elia.
    + rewrite (mp_other _ _ _ _ _ _ _ _ Hmap) by done. rewrite Ha by done. elia.
  - intros o Ho. assert (0 <= o / 1024 < maxblk) as Hb by (unfold maxblk in *; elia). unfold fbyte. rewrite baddr_write by done.
    destruct (decide (o / 1024 = off / 1024)) as [He|Hnb].
    + intros _. rewrite He, Hadr, apply_write_same, Hx by elia. destruct (decide (baddr v A (off / 1024) = 0)) as [H0|H0].
      * rewrite (proj1 (mp_new _ _ _ _ _ _ _ _ Hmap H0)). apply rd_zero.
      * destruct (mp_old _ _ _ _ _ _ _ _ Hmap H0) as [-> ->]. rewrite <- Hadr, <- He. apply Htl; [lia|congruence].
    + rewrite (mp_other _ _ _ _ _ _ _ _ Hmap), Ha by done. elia.
Qed.

Lemma wp_iappend_loop fuel : forall m t ma mi nl sz A off p (Q : dinode * Z -> mk -> Prop),
  let len := Z.of_nat (length p) in
  minv m -> fstate (view m) A off -> 0 <= off -> off + len <= maxblk * 1024 -> needs fuel off len ->
  m_freeblock m + (need (off + len) - need off) <= 1000 -> bytes_ok p ->
  (forall A' m', minv m' -> m_freeblock m' = m_freeblock m + (need (off + len) - need off) -> m_freeinode m' = m_freeinode m ->
     writes sb (view m) A (view m') A' off p -> fstate (view m') A' (off + len) -> Q (Dinode t ma mi nl sz A', off + len) m') ->
  wp (iappend_loop fuel (Dinode t ma mi nl sz A) off p) m Q.
Proof.
  induction fuel as [|fuel IH]; intros m t ma mi nl sz A off p Q len Hm Hs Hoff Hmax Hneed Hfree Hp HQ; [by destruct Hneed; lia|].
  cbn [iappend_loop]. fold len. destruct (Z.ltb_spec 0 len) as [Hpos|Hpos].
  2:{ assert (len = 0) as H0 by lia. rewrite H0, Z.add_0_r, ?Z.sub_diag in *. apply wp_ret, HQ; [done|lia|done| |done].
      destruct p; [|cbn in len; lia]. apply writes_nil; [apply Hs|by apply view_bm]. }
  unfold BSIZE. change MAXFILE with maxblk. assert (off / 1024 < maxblk) as Hbn by (unfold maxblk in *; elia). rewrite (proj2 (Z.ltb_lt _ _) Hbn). cbn [negb guard_ok].
  apply wp_bind, wp_ret. pose proof (need_mono (off + 1) (off + len) ltac:(lia)).
  apply wp_bind, wp_map_block; [done|done|lia|lia|]. intros A1 addr m1 Hm1 Hfb1 Hfi1 Hmap Hi1.
  destruct (mp_addr _ _ _ _ _ _ _ _ Hmap) as [Hadr Hd]. rewrite data_block_range in Hd.
  pose proof (baddr_used m1 A1 (off / 1024) Hm1 (mp_ok _ _ _ _ _ _ _ _ Hmap) ltac:(unfold maxblk in *; elia) ltac:(lia)) as Hu. rewrite Hadr in Hu.
  apply wp_bind, wp_rsect; [done|lia|lia|]. destruct (view_block m1 addr Hm1) as [_ [Hl1 Hb1]]; [lia..|].
  replace ((off / 1024 + 1) * 1024 - off) with (1024 - off mod 1024) by elia. replace (off - off / 1024 * 1024) with (off mod 1024) by elia.
  set (n1 := Z.min len (1024 - off mod 1024)). destruct (needs_next fuel off len n1 Hneed Hpos eq_refl Hoff) as (Hneed' & Hn1 & Hn1l).
  assert (Z.of_nat (length (take (Z.to_nat n1) p)) = n1) as Hlt by (rewrite length_take; lia).
  assert (Z.of_nat (length (drop (Z.to_nat n1) p)) = len - n1) as Hld by (rewrite length_drop; lia).
  apply wp_bind, wp_wsect; [done|lia|lia| |].
  { split; [rewrite length_splice; [done|rewrite Hl1; elia]|apply Forall_splice; [by apply Forall_take|done]]. }
  intros m2 Hm2 Hv2 Hfi2 Hfb2.
  assert (writes sb (view m) A (view m2) A1 off (take (Z.to_nat n1) p)) as Hw1.
  { rewrite Hv2. apply (writes_chunk _ _ mkfs_layout); [apply Hs|done|lia|lia|lia|done|done]. }
  assert (fstate (view m2) A1 (off + n1)) as Hs2.
  { rewrite Hv2. eapply fstate_chunk; [intros o Ho; unfold rd; by rewrite lookup_splice_out by (rewrite ?length_take; elia)|exact Hs|lia|lia|done|done|]. rewrite <- Hv2. apply Hw1. }
  apply IH; rewrite ?Hld; replace (off + n1 + (len - n1)) with (off + len) by lia; [done|done|lia|lia|done| |by apply Forall_drop|].
  - rewrite (need_block off n1) by lia. lia.
  - intros A' m' Hm' Hfb' Hfi' Hw' Hs'. apply HQ; [done| |congruence| |done].
    + rewrite (need_block off n1) in Hfb' by lia. lia.
    + rewrite <- (take_drop (Z.to_nat n1) p). eapply writes_app; [done|lia|exact Hw1|]. by rewrite Hlt.
Qed.

(** ** Inodes *)
Lemma inode_block_mk inum : 1 <= inum < 200 -> IBLOCK inum sb = inode_block sb inum /\ 32 <= inode_block sb inum < 45.
Proof.
  intros Hi. destruct sb_facts as (_ & _ & _ & Hs & Hn). rewrite (IBLOCK_eq _ _ mkfs_layout) by lia. split; [done|]. unfold inode_block, IPB. rewrite Hs. elia.
Qed.

Lemma wp_rinode m inum (Q : dinode -> mk -> Prop) : minv m -> 1 <= inum < 200 -> Q (inode_on sb (view m) inum) m -> wp (rinode inum) m Q.
Proof.
  intros Hm Hi HQ. destruct (inode_block_mk inum Hi) as [Heq Hr]. unfold rinode. rewrite Heq. apply wp_bind, wp_rsect; [done|lia|lia|]. by apply wp_ret.
Qed.

Lemma wp_winode m inum di (Q : unit -> mk -> Prop) :
  minv m -> 1 <= inum < 200 -> length (d_addrs di) = 13%nat ->
  (forall m', minv m' -> view m' = inode_written sb (view m) inum di -> m_freeinode m' = m_freeinode m -> m_freeblock m' = m_freeblock m -> Q tt m') ->
  wp (winode inum di) m Q.
Proof.
  intros Hm Hi Hl HQ. destruct (inode_block_mk inum Hi) as [Heq Hr]. pose proof (mi_free _ Hm). unfold winode. rewrite Heq. apply wp_bind, wp_rsect; [done|lia|lia|].
  apply wp_wsect; [done|lia|lia| |done]. apply dinode_set_ok; [|done]. apply view_block; [done|lia|lia].
Qed.

(** ** Frames: the blocks of a file *)
Definition owned (v : Cache.blocks) (A : list Z) (c : Z) : Prop := c <> 0 /\ (c = ind A \/ exists n, 0 <= n < maxblk /\ baddr v A n = c).

Lemma owned_not_in v A c : owned v A c -> ~ not_in v A c.
Proof. intros [_ [-> | (n & Hn & <-)]] [Hi Hb]; [done|by apply (Hb n)]. Qed.

Lemma not_owned v A c : c <> 0 -> ~ owned v A c -> not_in v A c.
Proof. intros Hc Ho. split; [intros ->; apply Ho; split; [done|by left]|]. intros n Hn He. apply Ho. split; [done|right]. by exists n. Qed.

Lemma owned_data v A c : file_ok sb v A -> owned v A c -> data_block sb c /\ in_use sb v c = true.
Proof. intros [_ Hok] [Hc [-> | (n & Hn & <-)]]; [by apply Hok|by apply (ao_data _ _ _ _ Hok)]. Qed.

Section Frame.
Context (v v' : Cache.blocks) (A : list Z) (n : Z).
Context (Hs : fstate v A n) (Hv : forall c, owned v A c -> v' dev c = v dev c) (Hu : forall c, owned v A c -> in_use sb v' c = true).

Lemma frame_baddr bn : 0 <= bn < maxblk -> baddr v' A bn = baddr v A bn.
Proof.
  intros Hbn. unfold baddr. destruct (bn <? 12); [done|]. destruct (Z.eqb_spec (ind A) 0) as [|Hi]; [done|]. rewrite Hv; [done|]. split; [done|by left].
Qed.

Lemma frame_owned c : owned v' A c <-> owned v A c.
Proof.
  unfold owned. split; (intros [Hc [-> | (k & Hk & He)]]; split; [done|by left|done|right; exists k; split; [done|]]).
  - by rewrite <- frame_baddr.
  - by rewrite frame_baddr.
Qed.

Lemma frame_state : fstate v' A n.
Proof.
  destruct Hs as [[HlA [H1 H2 H3 H4]] Ha Hi Htl]. split; [|intros bn Hbn; rewrite frame_baddr by done; by apply Ha|done|].
  2:{ intros o Ho Hne. assert (0 <= o / 1024 < maxblk) as Hb by (unfold maxblk in *; elia). unfold fbyte. rewrite frame_baddr in * by done. rewrite Hv; [by apply Htl|].
      split; [done|right]. by exists (o / 1024). }
  split; [done|]. split.
  - intros bn Hbn. rewrite frame_baddr by done. intros Hne. split; [by apply H1|]. apply Hu. split; [done|right]. by exists bn.
  - intros Hne. split; [by apply H2|]. apply Hu. split; [done|by left].
  - intros bn bn' Hbn Hbn'. rewrite !frame_baddr by done. by apply H3.
  - intros bn Hbn. rewrite frame_baddr by done. by apply H4.
Qed.

Lemma frame_bytes : n <= maxblk * 1024 -> fbytes v' A 0 n = fbytes v A 0 n.
Proof.
  intros Hn. unfold fbytes, bytes_of. apply list_fmap_ext. intros i o Ho. apply lookup_seqZ in Ho as [-> Ho]. cbn [Z.add].
  assert (0 <= Z.of_nat i / 1024 < maxblk) as Hb by (unfold maxblk in *; elia). rewrite frame_baddr by done. rewrite Hv; [done|].
  split; [|right; by exists (Z.of_nat i / 1024)]. rewrite (fs_addr _ _ _ Hs) by done. elia.
Qed.
End Frame.

Lemma not_in_frame v v' A b : (owned v' A b <-> owned v A b) -> b <> 0 -> not_in v A b -> not_in v' A b.
Proof. intros He Hb Hn. apply not_owned; [done|]. rewrite He. intros Ho. by apply (owned_not_in v A b). Qed.

(** Writing an inode changes no data block. *)
Lemma frame_inode v inum di c : 1 <= inum < 200 -> data_block sb c ->
  inode_written sb v inum di dev c = v dev c /\ in_use sb (inode_written sb v inum di) c = in_use sb v c.
Proof.
  intros Hi Hd. rewrite data_block_range in Hd. destruct (inode_block_mk inum Hi) as [_ Hr].
  unfold inode_written. split; [by rewrite apply_write_ne by (intros [=]; lia)|]. rewrite in_use_write; [done|]. intros [=He].
  unfold bitmap_block in He. destruct sb_facts as (_ & _ & Hb & _). rewrite Hb in He. change BPB with 8192 in He. elia.
Qed.

Lemma frame_inode_file v inum di A n : fstate v A n -> 1 <= inum < 200 -> forall c, owned v A c ->
  inode_written sb v inum di dev c = v dev c /\ in_use sb (inode_written sb v inum di) c = true.
Proof.
  intros Hs Hi c Ho. destruct (owned_data _ _ _ (fs_file _ _ _ Hs) Ho) as [Hd Hu]. destruct (frame_inode v inum di c Hi Hd) as [? ?]. split; congruence.
Qed.

(** ** Files that have been added: their types and contents, in the order of their inodes from 1 on *)
Abbreviation files := (list (Z * list Z)).

Definition flen (c : list Z) : Z := Z.of_nat (length c).
Definition total (fs : files) : Z := foldr (fun f n => need (flen f.2) + n) 0 fs.
Definition inode_addrs (v : Cache.blocks) (i : nat) : list Z := d_addrs (inode_on sb v (1 + Z.of_nat i)).

Record file_at (v : Cache.blocks) (i : nat) (t : Z) (c : list Z) : Prop := {
  fa_inode : inode_on sb v (1 + Z.of_nat i) = Dinode t 0 0 1 (flen c) (inode_addrs v i);
  fa_state : fstate v (inode_addrs v i) (flen c);
  fa_bytes : fbytes v (inode_addrs v i) 0 (flen c) = c;
  fa_max : flen c <= maxblk * 1024;
  fa_type : s16_ok t;
}.

Record mkinv (m : mk) (fs : files) : Prop := {
  ki_m : minv m;
  ki_ino : m_freeinode m = 1 + Z.of_nat (length fs);
  ki_max : (length fs <= 199)%nat;
  ki_free : m_freeblock m = 46 + total fs;
  ki_sb : superblock_of (view m dev 1) = sb;
  ki_file : forall i t c, fs !! i = Some (t, c) -> file_at (view m) i t c;
  ki_disj : forall i j b, (i < length fs)%nat -> (j < length fs)%nat -> i <> j -> owned (view m) (inode_addrs (view m) i) b -> not_in (view m) (inode_addrs (view m) j) b;
}.

Lemma total_cons f fs : total (f :: fs) = need (flen f.2) + total fs.
Proof. done. Qed.

Lemma total_insert fs i t c c' : fs !! i = Some (t, c) -> total (<[i := (t, c')]> fs) = total fs + (need (flen c') - need (flen c)).
Proof.
  revert i. induction fs as [|f fs IH]; intros [|i] Hi; [done|done|injection Hi as ->; cbn; lia|].
  change (<[S i := (t, c')]> (f :: fs)) with (f :: <[i := (t, c')]> fs). rewrite !total_cons, (IH i Hi). lia.
Qed.

Lemma total_app fs fs' : total (fs ++ fs') = total fs + total fs'.
Proof. induction fs as [|f fs IH]; [done|]. cbn [app]. rewrite !total_cons. lia. Qed.

Lemma file_u32 v A : file_ok sb v A -> Forall u32_ok A.
Proof.
  intros Hf. pose proof Hf as [HlA _]. apply Forall_lookup. intros k x Hx. pose proof (lookup_lt_Some _ _ _ Hx) as Hk. rewrite HlA in Hk.
  destruct (decide (k < 12)%nat) as [Hd|Hd].
  - destruct (baddr_range v A (Z.of_nat k) Hf) as [Hr _]; [unfold maxblk; lia|]. unfold baddr in Hr. rewrite (proj2 (Z.ltb_lt _ _)), Nat2Z.id, Hx in Hr by lia.
    cbn in Hr. unfold u32_ok. lia.
  - destruct (ind_range v A Hf) as [Hr _]. unfold ind, NDIRECT in Hr. replace 12%nat with k in Hr by lia. rewrite Hx in Hr. cbn in Hr. unfold u32_ok. lia.
Qed.

(** Writing the inode [1 + i], when [v] already has the new contents behind the addresses [A]. *)
Lemma written_file v i t c A :
  (forall b, 0 <= b < 45 -> block_ok (v dev b)) -> (i < 199)%nat ->
  fstate v A (flen c) -> fbytes v A 0 (flen c) = c -> flen c <= maxblk * 1024 -> s16_ok t ->
  let v' := inode_written sb v (1 + Z.of_nat i) (Dinode t 0 0 1 (flen c) A) in
  file_at v' i t c /\ inode_addrs v' i = A.
Proof.
  intros Hblk Hi Hs Hc Hmax Ht v'. destruct (inode_block_mk (1 + Z.of_nat i)) as [_ Hr]; [lia|].
  assert (inode_on sb v' (1 + Z.of_nat i) = Dinode t 0 0 1 (flen c) A) as He.
  { apply inode_on_written; [apply Hblk; lia|]. unfold flen, maxblk in *. pose proof (fs_file _ _ _ Hs) as [HlA _]. split; cbn; try done; try (unfold s16_ok, u32_ok; lia).
    by eapply file_u32, Hs. }
  assert (inode_addrs v' i = A) as Ha by (unfold inode_addrs; by rewrite He).
  assert (forall b, owned v A b -> v' dev b = v dev b /\ in_use sb v' b = true) as Hfr by (eapply frame_inode_file; [exact Hs|lia]).
  split; [|done]. split; rewrite ?Ha; [done| | |done|done].
  - eapply frame_state; [exact Hs|apply Hfr|apply Hfr].
  - rewrite <- Hc at 2. eapply frame_bytes; [exact Hs|apply Hfr|done].
Qed.

(** Every other file is where it was. *)
Lemma other_file v v' j t c :
  file_at v j t c -> (j < 199)%nat -> inode_on sb v' (1 + Z.of_nat j) = inode_on sb v (1 + Z.of_nat j) ->
  (forall b, owned v (inode_addrs v j) b -> v' dev b = v dev b) -> (forall b, owned v (inode_addrs v j) b -> in_use sb v' b = true) ->
  file_at v' j t c /\ inode_addrs v' j = inode_addrs v j.
Proof.
  intros [Hin Hs Hc Hmax Ht] Hj He Hv Hu. assert (inode_addrs v' j = inode_addrs v j) as Ha by (unfold inode_addrs; by rewrite He).
  split; [|done]. split; rewrite ?Ha, ?He; [done| | |done|done].
  - by eapply frame_state.
  - rewrite <- Hc at 2. by eapply frame_bytes.
Qed.

Lemma low_blocks m : minv m -> forall b, 0 <= b < 45 -> block_ok (view m dev b).
Proof. intros Hm b Hb. apply view_block; [done|lia|lia]. Qed.

Lemma written_bytes v A v' A' c p :
  fstate v A (flen c) -> fbytes v A 0 (flen c) = c -> flen c + flen p <= maxblk * 1024 -> writes sb v A v' A' (flen c) p ->
  fbytes v' A' 0 (flen (c ++ p)) = c ++ p.
Proof.
  intros Hs Hc Hmax Hw. unfold flen in *. rewrite length_app, Nat2Z.inj_add, <- fbytes_app by lia. f_equal; [rewrite <- Hc at 2|].
  - unfold fbytes, bytes_of. apply list_fmap_ext. intros i o Ho. apply lookup_seqZ in Ho as [-> Ho]. cbn [Z.add].
    apply (wr_keep _ _ _ _ _ _ _ Hw); [unfold maxblk in *; lia|lia|]. rewrite (fs_addr _ _ _ Hs) by (unfold maxblk in *; elia). elia.
  - apply list_eq_same_length with (n := length p); [done|unfold fbytes; rewrite length_bytes_of; lia|]. intros i x y Hi Hx Hy.
    unfold fbytes, bytes_of in Hx. apply list_lookup_fmap_Some in Hx as (o & -> & Ho). apply lookup_seqZ in Ho as [-> Ho].
    change (fbyte v' A' (0 + Z.of_nat (length c) + Z.of_nat i) = y). rewrite (wr_bytes _ _ _ _ _ _ _ Hw) by lia. unfold rd.
    replace (Z.to_nat _) with i by lia. by rewrite Hy.
Qed.

Lemma inode_meta v v' i : (i < 199)%nat -> (forall b, b < sb_bmapstart sb -> v' dev b = v dev b) -> inode_on sb v' (1 + Z.of_nat i) = inode_on sb v (1 + Z.of_nat i).
Proof.
  intros Hi Hm. unfold inode_on. destruct (inode_block_mk (1 + Z.of_nat i)) as [_ Hr]; [lia|]. destruct sb_facts as (_ & _ & Hb & _). by rewrite Hm by lia.
Qed.

(** The step from [fs] to [fs'] in which file [i] is new or has grown: [v1] has its contents behind the addresses [A'], and its
    inode is written last. *)
Section Step.
Context (m : mk) (fs : files) (Hinv : mkinv m fs).
Context (i : nat) (t : Z) (c : list Z) (fs' : files) (v1 : Cache.blocks) (A' : list Z) (m2 : mk).
Context (Hi : fs' !! i = Some (t, c)) (Hfs' : forall j, j <> i -> fs' !! j = fs !! j) (Hlen : (length fs' <= 199)%nat).
Context (Hv2 : view m2 = inode_written sb v1 (1 + Z.of_nat i) (Dinode t 0 0 1 (flen c) A')).
Context (Hs' : fstate v1 A' (flen c)) (Hc : fbytes v1 A' 0 (flen c) = c) (Hmaxc : flen c <= maxblk * 1024) (Ht : s16_ok t).
Context (Hlow : forall b, b < sb_bmapstart sb -> v1 dev b = view m dev b).
Context (Hothers : forall j b, (j < length fs)%nat -> j <> i -> owned (view m) (inode_addrs (view m) j) b ->
  v1 dev b = view m dev b /\ in_use sb v1 b = true /\ not_in v1 A' b).

Lemma step_index : (i < 199)%nat.
Proof. pose proof (lookup_lt_Some _ _ _ Hi). lia. Qed.

Lemma step_low b : 0 <= b < 45 -> block_ok (v1 dev b).
Proof. intros Hb. rewrite Hlow by (destruct sb_facts as (_ & _ & -> & _); lia). by apply low_blocks; [apply Hinv|]. Qed.

Lemma step_new : file_at (view m2) i t c /\ inode_addrs (view m2) i = A'.
Proof. pose proof step_index. rewrite Hv2. by apply written_file; [apply step_low|..]. Qed.

Lemma step_lt j : (j < length fs')%nat -> j <> i -> (j < length fs)%nat.
Proof. intros Hj Hne. apply lookup_lt_is_Some_1. rewrite <- Hfs' by done. by apply lookup_lt_is_Some_2. Qed.

Lemma step_keep j b : (j < length fs)%nat -> j <> i -> owned (view m) (inode_addrs (view m) j) b ->
  view m2 dev b = view m dev b /\ in_use sb (view m2) b = true.
Proof.
  intros Hj Hne Ho. destruct (Hothers j b Hj Hne Ho) as (H1 & H2 & _). destruct (lookup_lt_is_Some_2 fs j Hj) as [[tj cj] Hfj].
  destruct (owned_data _ _ _ (fs_file _ _ _ (fa_state _ _ _ _ (ki_file _ _ Hinv j tj cj Hfj))) Ho) as [Hd _]. pose proof step_index.
  destruct (frame_inode v1 (1 + Z.of_nat i) (Dinode t 0 0 1 (flen c) A') b) as [H4 H5]; [lia|done|]. rewrite Hv2. split; congruence.
Qed.

Lemma step_inode j : (j < 199)%nat -> j <> i -> inode_on sb (view m2) (1 + Z.of_nat j) = inode_on sb (view m) (1 + Z.of_nat j).
Proof.
  intros Hj Hne. pose proof step_index. rewrite Hv2, inode_on_other; [by apply inode_meta| | |lia].
  - destruct (inode_block_mk (1 + Z.of_nat i)) as [_ Hr]; [lia|]. apply step_low. lia.
  - pose proof (fs_file _ _ _ Hs') as Hf'. pose proof Hf' as [HlA' _]. split; cbn; try done; try (unfold s16_ok, u32_ok, flen, maxblk in *; lia). by eapply file_u32.
Qed.

Lemma step_addrs j : (j < 199)%nat -> j <> i -> inode_addrs (view m2) j = inode_addrs (view m) j.
Proof. intros Hj Hne. unfold inode_addrs. by rewrite step_inode. Qed.

Lemma step_owned j b : (j < length fs)%nat -> (j < 199)%nat -> j <> i -> owned (view m2) (inode_addrs (view m2) j) b <-> owned (view m) (inode_addrs (view m) j) b.
Proof. intros Hj Hj' Hne. rewrite step_addrs by done. apply frame_owned. intros b' Hb'. by apply (step_keep j). Qed.

Lemma step_owned_new b : owned (view m2) A' b <-> owned v1 A' b.
Proof. pose proof step_index. rewrite Hv2. eapply frame_owned. apply (frame_inode_file _ _ _ _ _ Hs'); lia. Qed.

Lemma step_disjoint i' j' b : (i' < length fs')%nat -> (j' < length fs')%nat -> i' <> j' ->
  owned (view m2) (inode_addrs (view m2) i') b -> not_in (view m2) (inode_addrs (view m2) j') b.
Proof.
  intros Hi' Hj' Hne Ho. pose proof Ho as [Hb0 _]. pose proof (step_lt i' Hi') as Hl1. pose proof (step_lt j' Hj') as Hl2.
  destruct (decide (i' = i)) as [->|Hi'i]; [|destruct (decide (j' = i)) as [->|Hj'i]].
  - apply not_owned; [done|]. rewrite step_owned by (congruence || lia || auto). intros Ho'. destruct (Hothers j' b (Hl2 ltac:(congruence)) ltac:(congruence) Ho') as (_ & _ & Hn).
    rewrite (proj2 step_new), step_owned_new in Ho. by apply (owned_not_in v1 A' b).
  - rewrite step_owned in Ho by (done || lia || auto). rewrite (proj2 step_new). apply (not_in_frame v1); [apply step_owned_new|done|]. by apply (Hothers i'); auto.
  - rewrite step_owned in Ho by (done || lia || auto). rewrite step_addrs by (done || lia).
    apply (not_in_frame (view m)); [rewrite <- (step_addrs j') at 1 by (done || lia); apply step_owned; (done || lia || auto)|done|]. apply (ki_disj _ _ Hinv i'); auto.
Qed.

Lemma step_inv : minv m2 -> m_freeinode m2 = 1 + Z.of_nat (length fs') -> m_freeblock m2 = 46 + total fs' -> mkinv m2 fs'.
Proof.
  intros Hm2 Hfi Hfb. pose proof step_index. split; [done|done|done|done| | |exact step_disjoint].
  - rewrite Hv2. unfold inode_written. destruct (inode_block_mk (1 + Z.of_nat i)) as [_ Hr]; [lia|]. rewrite apply_write_ne by (intros [=]; lia).
    rewrite Hlow; [apply Hinv|]. destruct sb_facts as (_ & _ & -> & _). lia.
  - intros j tj cj Hj. destruct (decide (j = i)) as [->|Hne]; [rewrite Hi in Hj; injection Hj as <- <-; apply step_new|].
    pose proof (lookup_lt_Some _ _ _ Hj) as Hjl. pose proof (step_lt j Hjl Hne). rewrite Hfs' in Hj by done.
    apply (other_file (view m)); [by apply Hinv|lia|apply step_inode; (done || lia)|..]; intros b Hb; by apply (step_keep j).
Qed.
End Step.

Lemma wp_iappend m fs i t c p (Q : unit -> mk -> Prop) :
  mkinv m fs -> fs !! i = Some (t, c) -> flen c + flen p <= maxblk * 1024 -> bytes_ok p ->
  46 + total (<[i := (t, c ++ p)]> fs) <= 1000 ->
  (forall m', mkinv m' (<[i := (t, c ++ p)]> fs) -> Q tt m') -> wp (iappend (1 + Z.of_nat i) p) m Q.
Proof.
  intros Hinv Hi Hlen Hp Htot HQ. pose proof Hinv as [Hm Hino Hmax Hfree _ Hfile Hdisj]. pose proof (lookup_lt_Some _ _ _ Hi) as Hil.
  destruct (Hfile i t c Hi) as [Hin Hs Hc _ Ht]. unfold iappend. rewrite (total_insert _ _ _ c) in Htot by done.
  assert (flen (c ++ p) = flen c + flen p) as Hlcp by (unfold flen; rewrite length_app; lia). rewrite Hlcp in Htot.
  apply wp_bind, wp_rinode; [done|lia|]. rewrite Hin. cbn [d_size].
  assert (0 <= flen c /\ 0 <= flen p) as [Hc0 Hp0] by (unfold flen; lia). rewrite (xint_small (flen c)) by (unfold maxblk in *; lia).
  apply wp_bind, wp_iappend_loop; [done|done|done|done|by apply rounds_enough|unfold flen in *; lia|done|].
  intros A' m1 Hm1 Hfb Hfi Hw Hs'. fold (flen p) in *. cbn [d_type d_major d_minor d_nlink d_addrs]. rewrite xint_small by (unfold maxblk in *; lia).
  apply wp_winode; [done|lia|apply Hs'|]. intros m2 Hm2 Hv2 Hfi2 Hfb2. apply HQ. rewrite <- Hlcp in Hv2, Hs'.
  apply (step_inv m fs Hinv i t (c ++ p) _ (view m1) A'); rewrite ?length_insert; try done; try lia.
  - by apply list_lookup_insert_eq.
  - intros j Hj. by apply list_lookup_insert_ne.
  - by eapply written_bytes.
  - apply Hw.
  - intros j b Hj Hne Ho. destruct (lookup_lt_is_Some_2 fs j Hj) as [[tj cj] Hfj].
    destruct (owned_data _ _ _ (fs_file _ _ _ (fa_state _ _ _ _ (Hfile j tj cj Hfj))) Ho) as [Hd Hu]. apply (wr_others _ _ _ _ _ _ _ Hw); [done|done|]. by apply (Hdisj j i).
  - rewrite (total_insert _ _ _ c), Hlcp by done. unfold flen in *. lia.
Qed.

Lemma no_addrs v n : 0 <= n < maxblk -> baddr v (replicate 13 0) n = 0.
Proof.
  intros Hn. unfold baddr. destruct (Z.ltb_spec n 12); [|done]. destruct (replicate 13 0 !! Z.to_nat n) as [x|] eqn:Hx; [by apply lookup_replicate in Hx as [-> _]|done].
Qed.

Lemma empty_state v : fstate v (replicate 13 0) 0.
Proof.
  split; [split; [done|]; split| |done|intros o Ho; rewrite no_addrs by (unfold maxblk in *; elia); done].
  - intros bn Hbn. by rewrite no_addrs.
  - done.
  - intros bn bn' Hbn Hbn'. by rewrite no_addrs.
  - intros bn Hbn. by rewrite no_addrs.
  - intros bn Hbn. rewrite no_addrs by done. lia.
Qed.

Lemma wp_ialloc m fs t (Q : Z -> mk -> Prop) :
  mkinv m fs -> (length fs < 199)%nat -> 0 < t < 32768 ->
  (forall m', mkinv m' (fs ++ [(t, [])]) -> Q (1 + Z.of_nat (length fs)) m') -> wp (mkfs_ialloc t) m Q.
Proof.
  intros Hinv Hlen Ht HQ. pose proof Hinv as [Hm Hino Hmax Hfree _ Hfile _]. apply wp_bind, wp_gets, wp_bind, wp_modify, wp_bind.
  rewrite Hino, u32_small by lia. set (m1 := Mk _ _ _). assert (minv m1) as Hm1 by (by destruct Hm).
  assert (s16 (xshort t) = t) as -> by (unfold xshort, u8, s16; cbn [le_dec]; rewrite Z.shiftr_div_pow2 by lia; change (2 ^ 8) with 256; elia).
  change (s16 (xshort 1)) with 1. change (xint 0) with 0.
  apply wp_winode; [done|lia|done|]. intros m2 Hm2 Hv2 Hfi2 Hfb2. apply wp_ret, HQ. change (view m1) with (view m) in Hv2.
  apply (step_inv m fs Hinv (length fs) t [] _ (view m) (replicate 13 0)); try done.
  - by apply list_lookup_middle.
  - intros j Hj. destruct (decide (j < length fs)%nat); [by apply lookup_app_l|]. rewrite !lookup_ge_None_2; [done|lia|rewrite length_app; cbn; lia].
  - rewrite length_app. cbn. lia.
  - apply empty_state.
  - unfold s16_ok. lia.
  - intros j b Hj Hne Ho. destruct (lookup_lt_is_Some_2 fs j Hj) as [[tj cj] Hfj]. split; [done|]. split.
    + by apply (owned_data _ _ _ (fs_file _ _ _ (fa_state _ _ _ _ (Hfile j tj cj Hfj))) Ho).
    + destruct Ho as [Hb _]. split; [exact Hb|]. intros n Hn. rewrite no_addrs by done. congruence.
  - rewrite Hfi2, length_app. cbn. lia.
  - rewrite Hfb2, total_app. cbn [m1 m_freeblock]. rewrite Hfree. change (total [(t, [])]) with 0. lia.
Qed.

(** ** The whole program *)
Lemma total_last fs f f' : total (fs ++ [f]) <= total (fs ++ [f']) <-> need (flen f.2) <= need (flen f'.2).
Proof. rewrite !total_app, !total_cons. change (total []) with 0. lia. Qed.

(** The chunks of a file, added to the last inode. *)
Lemma wp_chunks chunks : forall m fs t c (Q : unit -> mk -> Prop),
  mkinv m (fs ++ [(t, c)]) -> flen (c ++ mjoin chunks) <= maxblk * 1024 -> Forall bytes_ok chunks -> 46 + total (fs ++ [(t, c ++ mjoin chunks)]) <= 1000 ->
  (forall m', mkinv m' (fs ++ [(t, c ++ mjoin chunks)]) -> Q tt m') ->
  wp (for_all chunks (iappend (1 + Z.of_nat (length fs)))) m Q.
Proof.
  induction chunks as [|p chunks IH]; intros m fs t c Q Hinv Hmax Hp Htot HQ; cbn [for_all].
  - apply wp_ret, HQ. cbn. by rewrite app_nil_r.
  - apply Forall_cons in Hp as [Hp Hps]. change (mjoin (p :: chunks)) with (p ++ mjoin chunks) in *. rewrite app_assoc in *.
    assert (flen c + flen p <= flen ((c ++ p) ++ mjoin chunks)) as Hle by (unfold flen; rewrite !length_app; lia).
    assert (<[length fs := (t, c ++ p)]> (fs ++ [(t, c)]) = fs ++ [(t, c ++ p)]) as Hins by (rewrite insert_app_r_alt, Nat.sub_diag by lia; done).
    assert (total (fs ++ [(t, c ++ p)]) <= total (fs ++ [(t, (c ++ p) ++ mjoin chunks)])) as Htl.
    { apply total_last, need_mono. unfold flen in *. cbn [snd]. rewrite !length_app. lia. }
    apply wp_bind, (wp_iappend _ (fs ++ [(t, c)]) (length fs) t c); [done|by apply list_lookup_middle|lia|done|rewrite Hins; lia|].
    rewrite Hins. intros m1 Hinv1. by apply (IH m1 fs t (c ++ p)).
Qed.

(** A file on the command line: its name and its chunks; and what is asked of it. *)
Abbreviation named := (prod (list Z) (list (list Z))).

Record file_fits (f : named) : Prop := {
  ff_name : 47 ∉ f.1;
  ff_name_ok : bytes_ok f.1;
  ff_chunks : Forall bytes_ok f.2;
  ff_size : flen (mjoin f.2) <= maxblk * 1024;
}.

(** The directory entries of the root, and the files of the image, after some files have been added. *)
Definition root_head : list Z := mk_dirent 1 [46] ++ mk_dirent 1 [46; 46] ++ mk_dirent 1 [109; 110; 116].
Definition entries (fl : list named) : list Z := mjoin (imap (fun i (f : named) => mk_dirent (2 + Z.of_nat i) (strip f.1)) fl).
Definition root_dir (fl : list named) : list Z := root_head ++ entries fl.
Definition made (fl : list named) : files := (T_DIR, root_dir fl) :: ((fun f : named => (T_FILE, mjoin f.2)) <$> fl).
Definition argv (fl : list named) : list (list Z * option (list (list Z))) := (fun f : named => (f.1, Some f.2)) <$> fl.

Lemma length_dirent inum name : length (mk_dirent inum name) = 16%nat.
Proof. unfold mk_dirent. rewrite length_app, length_le_enc, length_take, length_app, length_replicate. lia. Qed.

Lemma dirent_ok inum name : bytes_ok name -> bytes_ok (mk_dirent inum name).
Proof. intros Hn. unfold mk_dirent. apply Forall_app_2; [apply le_enc_ok|]. apply Forall_take, Forall_app_2; [done|]. by apply Forall_replicate. Qed.

Lemma strip_ok name : bytes_ok name -> bytes_ok (strip name).
Proof. intros Hn. destruct name as [|c name]; [done|]. cbn. destruct (c =? 95); [|done]. by apply Forall_cons in Hn as [_ ?]. Qed.

Lemma entries_snoc fl f : entries (fl ++ [f]) = entries fl ++ mk_dirent (2 + Z.of_nat (length fl)) (strip f.1).
Proof. unfold entries. rewrite imap_app, join_app. cbn. by rewrite app_nil_r, Nat.add_0_r. Qed.

Lemma length_root fl : flen (root_dir fl) = 16 * (3 + Z.of_nat (length fl)).
Proof.
  unfold root_dir, flen. rewrite length_app. change (length root_head) with 48%nat.
  assert (length (entries fl) = (16 * length fl)%nat) as ->; [|lia].
  induction fl as [|f fl IH] using rev_ind; [done|]. rewrite entries_snoc, !length_app, length_dirent, IH. cbn. lia.
Qed.

Lemma made_snoc fl f : made (fl ++ [f]) = <[0%nat := (T_DIR, root_dir (fl ++ [f]))]> (made fl) ++ [(T_FILE, mjoin f.2)].
Proof. unfold made. rewrite fmap_app. done. Qed.

Lemma root_snoc fl f : root_dir (fl ++ [f]) = root_dir fl ++ mk_dirent (2 + Z.of_nat (length fl)) (strip f.1).
Proof. unfold root_dir. by rewrite entries_snoc, app_assoc. Qed.

Lemma wp_add_file m fl f (Q : unit -> mk -> Prop) :
  mkinv m (made fl) -> file_fits f -> (length fl < 198)%nat -> 46 + total (made (fl ++ [f])) <= 1000 ->
  (forall m', mkinv m' (made (fl ++ [f])) -> Q tt m') -> wp (add_file 1 (f.1, Some f.2)) m Q.
Proof.
  intros Hinv [Hn Hnb Hch Hsz] Hlen Htot HQ. unfold add_file. cbn [fst snd]. rewrite bool_decide_false by done. cbn [guard_ok]. apply wp_bind, wp_ret.
  assert (length (made fl) = S (length fl)) as Hml by (cbn; by rewrite length_fmap).
  apply wp_bind, (wp_ialloc _ (made fl)); [done|lia|done|]. intros m1 Hinv1.
  rewrite Hml. replace (1 + Z.of_nat (S (length fl))) with (2 + Z.of_nat (length fl)) by lia. rewrite made_snoc in Htot, HQ.
  set (fs := <[0%nat := (T_DIR, root_dir (fl ++ [f]))]> (made fl)) in *.
  assert (<[0%nat := (T_DIR, root_dir fl ++ mk_dirent (2 + Z.of_nat (length fl)) (strip f.1))]> (made fl ++ [(T_FILE, [])]) = fs ++ [(T_FILE, [])]) as Hins
    by (rewrite <- root_snoc; done).
  assert (total (fs ++ [(T_FILE, [])]) <= total (fs ++ [(T_FILE, mjoin f.2)])) as Hle.
  { apply total_last, need_mono. unfold flen. cbn. lia. }
  apply wp_bind. change 1 with (1 + Z.of_nat 0) at 1.
  apply (wp_iappend m1 (made fl ++ [(T_FILE, [])]) 0 T_DIR (root_dir fl)); [exact Hinv1|done| |by apply dirent_ok, strip_ok|rewrite Hins; lia|].
  { rewrite length_root. unfold flen. rewrite length_dirent. unfold maxblk. lia. }
  rewrite Hins. intros m2 Hinv2. replace (2 + Z.of_nat (length fl)) with (1 + Z.of_nat (length fs)) by (unfold fs; rewrite length_insert, Hml; lia).
  by apply (wp_chunks f.2 m2 fs T_FILE []).
Qed.

Lemma total_made_mono fl f : total (made fl) <= total (made (fl ++ [f])).
Proof.
  unfold made. rewrite fmap_app, !total_cons, total_app. cbn [snd]. assert (0 <= total ((fun f : named => (T_FILE, mjoin f.2)) <$> [f])) as H1.
  { cbn [fmap list_fmap]. rewrite total_cons. change (total []) with 0. cbn [snd]. pose proof (need_mono 0 (flen (mjoin f.2))) as Hn.
    change (need 0) with 0 in Hn. unfold flen in *. lia. }
  enough (need (flen (root_dir fl)) <= need (flen (root_dir (fl ++ [f])))) by lia. apply need_mono. rewrite !length_root, length_app. cbn. lia.
Qed.

Lemma wp_add_files fl : forall pre m (Q : unit -> mk -> Prop),
  mkinv m (made pre) -> Forall file_fits fl -> (length pre + length fl <= 198)%nat -> 46 + total (made (pre ++ fl)) <= 1000 ->
  (forall m', mkinv m' (made (pre ++ fl)) -> Q tt m') -> wp (for_all (argv fl) (add_file 1)) m Q.
Proof.
  induction fl as [|f fl IH]; intros pre m Q Hinv Hfl Hlen Htot HQ.
  - apply wp_ret, HQ. by rewrite app_nil_r.
  - apply Forall_cons in Hfl as [Hf Hfl]. rewrite cons_middle, app_assoc in Htot, HQ. cbn [length] in Hlen. cbn [argv fmap list_fmap for_all].
    assert (forall l, total (made (pre ++ [f])) <= total (made ((pre ++ [f]) ++ l))) as Hle.
    { intros l. induction l as [|x l IHl] using rev_ind; [by rewrite app_nil_r|]. rewrite (app_assoc _ l). etransitivity; [exact IHl|apply total_made_mono]. }
    specialize (Hle fl). apply wp_bind, (wp_add_file _ pre); [done|done|lia|lia|]. intros m1 Hinv1.
    apply (IH (pre ++ [f])); [done|done|rewrite length_app; cbn; lia|done|done].
Qed.

(** ** The start and the end *)
Lemma wp_zero_fill m (Q : unit -> mk -> Prop) : m_img m = [] ->
  Q tt (Mk (replicate (Z.to_nat 1000) zero_block) (m_freeinode m) (m_freeblock m)) -> wp (for_all (range 0 Ide.FSSIZE) (fun i => wsect i zero_block)) m Q.
Proof.
  intros Hm HQ. change Ide.FSSIZE with (Z.of_nat (Z.to_nat 1000)).
  apply (wp_for_range _ _ (fun k s => s = Mk (replicate k zero_block) (m_freeinode m) (m_freeblock m))).
  - destruct m. cbn in *. by rewrite Hm.
  - intros k s Hk ->. apply wp_modify. cbn [m_img m_freeinode m_freeblock]. rewrite sect_small, Nat2Z.id, length_replicate by lia. f_equal.
    replace (S k - k)%nat with 1%nat by lia. rewrite insert_app_r_alt, length_replicate, Nat.sub_diag by (rewrite length_replicate; lia).
    change (<[0%nat := zero_block]> (replicate 1 zero_block)) with (replicate 1 zero_block). rewrite <- replicate_add. f_equal. lia.
  - by intros s ->.
Qed.

Lemma start_inv m : m_freeblock m = 46 -> m_freeinode m = 1 ->
  m_img m = <[1%nat := splice 0 (sb_bytes sb) zero_block]> (replicate (Z.to_nat 1000) zero_block) -> mkinv m [].
Proof.
  intros Hfb Hfi Him. assert (block_ok (splice 0 (sb_bytes sb) zero_block)) as Hok by (split; [by vm_compute|apply bytes_okb_spec; by vm_compute]).
  split; [split| | | | | |]; try done; try (cbn; lia).
  - rewrite Him, length_insert. apply length_replicate.
  - rewrite Him. apply Forall_insert; [|done]. apply Forall_replicate, zero_block_ok.
  - intros b Hb. rewrite Him, list_lookup_insert_ne by lia. apply lookup_replicate. split; [done|lia].
  - intros b Hb. rewrite Him, list_lookup_insert_ne by lia. apply lookup_replicate. split; [done|lia].
  - unfold view. rewrite decide_True, decide_False, decide_True by done. rewrite Him, list_lookup_insert_eq by (rewrite length_replicate; lia). by vm_compute.
Qed.

(** The blocks of the finished image. *)
Definition image (img : list (list Z)) : Cache.blocks := fun d b => if decide (d = dev) then default zero_block (if decide (0 <= b) then img !! Z.to_nat b else None) else [].

Lemma image_view m img : minv m -> img = <[45%nat := used_bits (m_freeblock m)]> (m_img m) -> image img = view m.
Proof.
  intros Hm ->. apply functional_extensionality. intros d. apply functional_extensionality. intros b. unfold image, view. destruct (decide (d = dev)); [|done].
  destruct (decide (b = 45)) as [->|Hb].
  - rewrite decide_True by done. by rewrite list_lookup_insert_eq by (rewrite (mi_len _ Hm); lia).
  - destruct (decide (0 <= b)); [|done]. by rewrite list_lookup_insert_ne by lia.
Qed.

(** The image has the size of a disk of FSSIZE blocks, and its log is empty. *)
Record formatted (img : list (list Z)) : Prop := {
  fm_len : length img = Z.to_nat 1000;
  fm_ok : Forall block_ok img;
  fm_log : forall b, 2 <= b < 32 -> img !! Z.to_nat b = Some zero_block;
}.

(** The contents of the image: its files, and the root directory, whose size is rounded up to the next block. *)
Record good_image (v : Cache.blocks) (fl : list named) : Prop := {
  gm_sb : superblock_of (v dev 1) = sb;
  gm_bm : bm_ok sb v;
  gm_used : forall b, 0 <= b < 1000 -> in_use sb v b = (b <? 46 + total (made fl));
  gm_root : inode_on sb v 1 = Dinode T_DIR 0 0 1 ((flen (root_dir fl) / 1024 + 1) * 1024) (inode_addrs v 0);
  gm_dir : file_ok sb v (inode_addrs v 0) /\ covered v (inode_addrs v 0) (flen (root_dir fl)) /\ fbytes v (inode_addrs v 0) 0 (flen (root_dir fl)) = root_dir fl;
  gm_tail : forall o, flen (root_dir fl) <= o < maxblk * 1024 -> baddr v (inode_addrs v 0) (o / 1024) <> 0 -> fbyte v (inode_addrs v 0) o = 0;
  gm_file : forall i name chunks, fl !! i = Some (name, chunks) ->
    let c := mjoin chunks in
    inode_on sb v (2 + Z.of_nat i) = Dinode T_FILE 0 0 1 (flen c) (inode_addrs v (S i)) /\ file_ok sb v (inode_addrs v (S i)) /\
    covered v (inode_addrs v (S i)) (flen c) /\ fbytes v (inode_addrs v (S i)) 0 (flen c) = c;
  gm_disj : forall i j b, (i <= length fl)%nat -> (j <= length fl)%nat -> i <> j -> owned v (inode_addrs v i) b -> not_in v (inode_addrs v j) b;
}.

Lemma fstate_covered v A n : fstate v A n -> n <= maxblk * 1024 -> covered v A n.
Proof. intros Hs Hn bn Hb Hlt. rewrite (fs_addr _ _ _ Hs) by (unfold maxblk in *; lia). lia. Qed.

Lemma root_ok fl m : mkinv m (made fl) -> file_at (view m) 0 T_DIR (root_dir fl).
Proof. intros Hinv. by apply (ki_file _ _ Hinv). Qed.

Lemma dinode_root v A n : file_ok sb v A -> 0 <= n < 4294967296 -> dinode_ok (Dinode T_DIR 0 0 1 n A).
Proof. intros Hf Hn. pose proof Hf as [HlA _]. split; cbn; try done. by eapply file_u32. Qed.

Section Finish.
Context (m : mk) (fl : list named) (m2 : mk) (Hinv : mkinv m (made fl)) (Hm2 : minv m2) (Hfb : m_freeblock m2 = m_freeblock m).
Context (Hv2 : view m2 = inode_written sb (view m) 1 (Dinode T_DIR 0 0 1 ((flen (root_dir fl) / 1024 + 1) * 1024) (inode_addrs (view m) 0))).

Lemma finish_length : length (made fl) = S (length fl) /\ (length fl <= 198)%nat.
Proof. assert (length (made fl) = S (length fl)) as Hl by (cbn; by rewrite length_fmap). pose proof (ki_max _ _ Hinv). split; [done|lia]. Qed.

Lemma finish_root : inode_on sb (view m2) 1 = Dinode T_DIR 0 0 1 ((flen (root_dir fl) / 1024 + 1) * 1024) (inode_addrs (view m) 0).
Proof.
  destruct (root_ok fl m Hinv) as [_ Hs _ _ _]. destruct (inode_block_mk 1) as [_ Hr]; [lia|]. destruct finish_length as [_ Hl].
  rewrite Hv2. apply inode_on_written; [by apply low_blocks; [apply Hinv|lia]|]. apply (dinode_root (view m)); [apply Hs|]. rewrite length_root. elia.
Qed.

Lemma finish_inode i : (0 < i < 199)%nat -> inode_on sb (view m2) (1 + Z.of_nat i) = inode_on sb (view m) (1 + Z.of_nat i).
Proof.
  intros Hi. destruct (root_ok fl m Hinv) as [_ Hs _ _ _]. destruct (inode_block_mk 1) as [_ Hr]; [lia|]. destruct finish_length as [_ Hl].
  rewrite Hv2. apply inode_on_other; [by apply low_blocks; [apply Hinv|lia]| |lia]. apply (dinode_root (view m)); [apply Hs|]. rewrite length_root. elia.
Qed.

Lemma finish_addrs i : (i < 199)%nat -> inode_addrs (view m2) i = inode_addrs (view m) i.
Proof. intros Hi. destruct i as [|i]; [unfold inode_addrs at 1; change (1 + Z.of_nat 0) with 1; by rewrite finish_root|]. unfold inode_addrs. by rewrite finish_inode by lia. Qed.

Lemma finish_frame A n : fstate (view m) A n -> n <= maxblk * 1024 ->
  fstate (view m2) A n /\ fbytes (view m2) A 0 n = fbytes (view m) A 0 n /\ forall b, owned (view m2) A b <-> owned (view m) A b.
Proof.
  intros Hs Hn. assert (forall b, owned (view m) A b -> view m2 dev b = view m dev b /\ in_use sb (view m2) b = true) as Hfr
    by (rewrite Hv2; by apply (frame_inode_file _ _ _ _ _ Hs)).
  split; [by eapply frame_state; [exact Hs|apply Hfr..]|]. split; [by eapply frame_bytes; [exact Hs|apply Hfr|]|]. intros b. apply frame_owned. apply Hfr.
Qed.

Lemma finish_files i : (i <= length fl)%nat -> exists t c, made fl !! i = Some (t, c) /\ file_at (view m) i t c.
Proof.
  intros Hi. destruct finish_length as [Hl _]. destruct (lookup_lt_is_Some_2 (made fl) i) as [[t c] Hf]; [lia|]. exists t, c. split; [done|]. by apply Hinv.
Qed.

Lemma finish_good : good_image (view m2) fl.
Proof.
  destruct finish_length as [Hml Hl]. split.
  - rewrite Hv2. unfold inode_written. destruct (inode_block_mk 1) as [_ Hr]; [lia|]. rewrite apply_write_ne by (intros [=]; lia). apply Hinv.
  - by apply view_bm.
  - intros b Hb. rewrite view_in_use by done. by rewrite Hfb, (ki_free _ _ Hinv).
  - by rewrite finish_root, finish_addrs by lia.
  - rewrite finish_addrs by lia. destruct (root_ok fl m Hinv) as [_ Hs Hc Hmax _]. destruct (finish_frame _ _ Hs Hmax) as (Hs2 & Hb2 & _).
    split; [apply Hs2|]. split; [by apply fstate_covered|by rewrite Hb2].
  - rewrite finish_addrs by lia. destruct (root_ok fl m Hinv) as [_ Hs _ Hmax _]. destruct (finish_frame _ _ Hs Hmax) as (Hs2 & _). intros o Ho.
    apply (fs_tail _ _ _ Hs2). unfold flen in *. lia.
  - intros i name chunks Hi c. pose proof (lookup_lt_Some _ _ _ Hi). assert (made fl !! S i = Some (T_FILE, c)) as Hmi by (change (made fl !! S i) with (((fun f : named => (T_FILE, mjoin f.2)) <$> fl) !! i); by rewrite list_lookup_fmap, Hi).
    destruct (ki_file _ _ Hinv _ _ _ Hmi) as [Hin Hs Hc Hmax _]. rewrite finish_addrs by lia. destruct (finish_frame _ _ Hs Hmax) as (Hs2 & Hb2 & _).
    replace (2 + Z.of_nat i) with (1 + Z.of_nat (S i)) by lia. rewrite finish_inode by lia.
    split; [done|]. split; [apply Hs2|]. split; [by apply fstate_covered|by rewrite Hb2].
  - intros i j b Hi Hj Hne. rewrite !finish_addrs by lia.
    destruct (finish_files i Hi) as (ti & ci & _ & [_ Hsi _ Hmi _]). destruct (finish_files j Hj) as (tj & cj & _ & [_ Hsj _ Hmj _]).
    destruct (finish_frame _ _ Hsi Hmi) as (_ & _ & Hoi). destruct (finish_frame _ _ Hsj Hmj) as (_ & _ & Hoj).
    rewrite Hoi. intros Ho. pose proof Ho as [Hb0 _]. apply (not_in_frame (view m)); [apply Hoj|done|]. apply (ki_disj _ _ Hinv i j); (done || lia).
Qed.
End Finish.

Lemma finish_formatted m : minv m -> formatted (<[45%nat := used_bits (m_freeblock m)]> (m_img m)).
Proof.
  intros [Hl Hok Hf _ Hlog]. split.
  - by rewrite length_insert.
  - apply Forall_insert; [done|]. replace (m_freeblock m) with (Z.of_nat (Z.to_nat (m_freeblock m))) by lia. apply used_bits_ok. lia.
  - intros b Hb. rewrite list_lookup_insert_ne by lia. by apply Hlog.
Qed.

Lemma root_prefix : total [(T_DIR, mk_dirent 1 [46])] = 1 /\ total [(T_DIR, mk_dirent 1 [46] ++ mk_dirent 1 [46; 46])] = 1 /\ total (made []) = 1.
Proof. by vm_compute. Qed.

Lemma wp_mkfs_main fl :
  Forall file_fits fl -> (length fl <= 198)%nat -> 46 + total (made fl) <= 1000 ->
  wp (mkfs_main (argv fl)) mk_start (fun _ m => formatted (m_img m) /\ good_image (image (m_img m)) fl).
Proof.
  intros Hfl Hlen Htot.
  unfold mkfs_main. apply wp_bind, wp_modify, wp_bind, wp_zero_fill; [done|]. apply wp_bind, wp_modify.
  cbn [m_freeinode m_freeblock m_img mk_start]. change (sect 1) with 1%nat. rewrite length_replicate. change (2 - Z.to_nat 1000)%nat with 0%nat. rewrite app_nil_r.
  set (m0 := Mk _ _ _). assert (mkinv m0 []) as Hinv0 by (by apply start_inv). clearbody m0.
  apply wp_bind, (wp_ialloc _ []); [done|cbn; lia|done|]. intros m1 Hinv1. cbn [length Z.of_nat Z.add app] in *. change (1 =? ROOTINO) with true. cbn [negb guard_ok].
  apply wp_bind, wp_ret, wp_bind. destruct root_prefix as (Ht1 & Ht2 & Ht3).
  apply (wp_iappend m1 [(T_DIR, [])] 0 T_DIR [] (mk_dirent 1 [46])); [done|done|done|by apply bytes_okb_spec; vm_compute|cbn [insert list_insert app]; rewrite Ht1; lia|].
  intros m2 Hinv2. apply wp_bind.
  apply (wp_iappend m2 [(T_DIR, mk_dirent 1 [46])] 0 T_DIR (mk_dirent 1 [46]) (mk_dirent 1 [46; 46])); [done|done|done|by apply bytes_okb_spec; vm_compute|cbn [insert list_insert]; rewrite Ht2; lia|].
  intros m3 Hinv3. apply wp_bind.
  apply (wp_iappend m3 [(T_DIR, mk_dirent 1 [46] ++ mk_dirent 1 [46; 46])] 0 T_DIR (mk_dirent 1 [46] ++ mk_dirent 1 [46; 46]) (mk_dirent 1 [109; 110; 116]));
    [done|done|done|by apply bytes_okb_spec; vm_compute|change (46 + total (made []) <= 1000); rewrite Ht3; lia|].
  intros m4 Hinv4. change (mkinv m4 (made [])) in Hinv4. apply wp_bind, (wp_add_files fl []); [done|done|cbn; lia|done|]. cbn [app]. intros m5 Hinv5.
  pose proof Hinv5 as [Hm5 _ _ Hfree5 _ _ _]. destruct (root_ok fl m5 Hinv5) as [Hin Hs _ _ _].
  apply wp_bind. unfold fix_root. apply wp_bind, wp_rinode; [done|lia|]. change 1 with (1 + Z.of_nat 0) at 1. rewrite Hin. cbn [d_type d_major d_minor d_nlink d_size d_addrs].
  rewrite (xint_small (flen (root_dir fl))), xint_small by (rewrite length_root; unfold BSIZE; elia).
  apply wp_winode; [done|lia|apply Hs|]. intros m6 Hm6 Hv6 _ Hfb6. pose proof (mi_free _ Hm6).
  apply wp_bind, wp_gets. unfold mkfs_balloc. change (BSIZE * 8) with 8192. rewrite (proj2 (Z.ltb_lt _ _)) by lia. cbn [negb guard_ok]. apply wp_bind, wp_ret, wp_modify.
  destruct sb_facts as (_ & _ & -> & _). change (sect 45) with 45%nat. rewrite (mi_len _ Hm6). change (46 - 1000)%nat with 0%nat. rewrite app_nil_r. cbn [m_img].
  split; [by apply finish_formatted|]. rewrite (image_view m6) by done. by apply (finish_good m5 fl).
Qed.

(** C10: The image that mkfs makes is a file system. For every list of at most 198 files whose names have no slash, whose contents are no longer than the
    largest file, and whose blocks fit, mkfs ends without an error; its image has an empty log, the super block and the bitmap of the layout, with exactly
    the blocks below the next free one in use; each inode has the type, the link and the size it should have, with distinct blocks for every byte, and no block
    belongs to two files; the root directory lists the files in order; and the bytes of every file, read through its inode as the kernel
    reads them, are the bytes given, however [read] split them into chunks. *)
Theorem mkfs_makes_file_system fl :
  Forall file_fits fl -> (length fl <= 198)%nat -> 46 + total (made fl) <= 1000 ->
  exists m, mkfs_main (argv fl) mk_start = Ok tt m /\ formatted (m_img m) /\ good_image (image (m_img m)) fl.
Proof.
  intros Hfl Hlen Htot.
  destruct (proj1 (wp_ok _ _ _) (wp_mkfs_main fl Hfl Hlen Htot)) as ([] & m & He & Hm). exists m. split; [exact He|exact Hm].
Qed.

(** A file of four bytes in two chunks, and one that needs its indirect block. *)
Definition two_files : list named := [([95; 99; 97; 116], [[1; 2; 3]; [4]]); ([114; 101; 97; 100; 109; 101], replicate 13 (replicate 1000 7))].

Lemma two_files_fit : Forall file_fits two_files.
Proof.
  assert (forall f : named, bool_decide (47 ∉ f.1) && bytes_okb f.1 && forallb bytes_okb f.2 && (flen (mjoin f.2) <=? maxblk * 1024) = true -> file_fits f) as Hf.
  { intros f. rewrite !andb_true_iff, Z.leb_le, forallb_forall. intros [[[H1%bool_decide_eq_true H2] H3] H4]. split; [done|by apply bytes_okb_spec| |done].
    apply Forall_forall. intros x Hx. by apply bytes_okb_spec, H3, list_elem_of_In. }
  unfold two_files. apply Forall_cons; split; [apply Hf; by vm_compute|]. apply Forall_cons; split; [apply Hf; by vm_compute|constructor].
Qed.

Lemma mkfs_makes_file_system_witness : exists m, mkfs_main (argv two_files) mk_start = Ok tt m /\ good_image (image (m_img m)) two_files.
Proof.
  destruct (mkfs_makes_file_system two_files) as (m & He & _ & Hg); [exact two_files_fit|cbn; lia|by apply Z.leb_le; vm_compute|exists m; split; [exact He|exact Hg]].
Defined.
