(* ===== verification/MkfsBoot.v ===== *)
(** * The kernel on the image of mkfs

    The composition of mkfs.c with the kernel: the buffer cache, the log and the inode cache are initialised on a disk that holds the image of mkfs, and a file
    of the image is found by its path and read. The image is a file system on which the theorems of NameSpec.v and ReadWrite.v hold. *)
From stdpp Require Import numbers list gmap.
From S2P Require Import Prelude Bytes Sleeplock Buf Ide Bio Cache Log Txn Inode Xv6fs Blocks InodeSpec FileSpec CString Kalloc Vm Ext2fs Vfs Kernel Proc ReadWrite PathSpec IcacheSpec DirSpec NameSpec Mkfs MkfsSpec.

Abbreviation sb := mkfs_sb.
Abbreviation dev := ROOTDEV.

(** ** The part of a disk outside of the log *)
Section Agree.
Context (v v' : Cache.blocks) (Hag : forall b, 0 <= b < 1000 -> ~ (2 <= b < 32) -> v' dev b = v dev b).

Lemma same_out_inode i : 1 <= i < 200 -> inode_on sb v' i = inode_on sb v i.
Proof. intros Hi. destruct (inode_block_mk i Hi) as [_ Hr]. unfold inode_on. by rewrite Hag by lia. Qed.

Lemma same_out_use b : 0 <= b < 1000 -> in_use sb v' b = in_use sb v b.
Proof. intros Hb. unfold in_use, bitmap_block. rewrite mkfs_sb_eq. cbn [sb_bmapstart]. change BPB with 8192. by rewrite Hag by elia. Qed.

Lemma same_out_bm : bm_ok sb v -> bm_ok sb v'.
Proof. intros Hb b. destruct sb_facts as (E & _). intros Hr. rewrite same_out_use by lia. by apply Hb. Qed.

Section File.
Context (A : list Z) (Hok : file_ok sb v A).

Lemma same_out_baddr bn : 0 <= bn < maxblk -> baddr v' A bn = baddr v A bn.
Proof.
  intros Hbn. unfold baddr. destruct (bn <? 12); [done|]. destruct (Z.eqb_spec (ind A) 0) as [|Hi]; [done|]. destruct (ind_range v A Hok). by rewrite Hag by lia.
Qed.

Lemma same_out_block bn : 0 <= bn < maxblk -> v' dev (baddr v' A bn) = v dev (baddr v A bn).
Proof. intros Hbn. rewrite same_out_baddr by done. destruct (baddr_range v A bn Hok Hbn). apply Hag; lia. Qed.

Lemma same_out_ok : file_ok sb v' A.
Proof.
  destruct Hok as [Hl Ha]. split; [done|]. eapply addrs_ok_ext; [exact Ha|apply same_out_baddr|]. intros c Hc. rewrite same_out_use; [done|]. rewrite data_block_range in Hc. lia.
Qed.

Lemma same_out_covered n : n <= maxblk * 1024 -> covered v A n -> covered v' A n.
Proof. intros Hn Hc bn Hb Hlt. rewrite same_out_baddr by (unfold maxblk in *; lia). by apply Hc. Qed.

Lemma same_out_bytes off n : 0 <= off -> off + n <= maxblk * 1024 -> fbytes v' A off n = fbytes v A off n.
Proof.
  intros Ho Hn. unfold fbytes, bytes_of. apply list_fmap_ext. intros i o Hi. apply lookup_seqZ in Hi as [-> Hi].
  by rewrite same_out_block by (unfold maxblk in *; elia).
Qed.

Lemma same_out_owned b : owned v' A b <-> owned v A b.
Proof.
  unfold owned. split; (intros [Hc [-> | (k & Hk & He)]]; split; [done|by left|done|right; exists k; split; [done|]]); by rewrite same_out_baddr in *.
Qed.

Lemma same_out_not_in b : not_in v A b -> not_in v' A b.
Proof. intros [Hi Hn]. split; [done|]. intros n Hr. rewrite same_out_baddr by done. by apply Hn. Qed.
End File.

Lemma same_out_good fl : Forall file_fits fl -> (length fl <= 198)%nat -> good_image v fl -> good_image v' fl.
Proof.
  intros Hfits Hlen Hg. pose proof (length_root fl) as Hlr.
  assert (forall i, (i <= length fl)%nat -> inode_addrs v' i = inode_addrs v i) as Ha by (intros i Hi; unfold inode_addrs; by rewrite same_out_inode by lia).
  assert (forall i, (i <= length fl)%nat -> file_ok sb v (inode_addrs v i)) as Hoks.
  { intros [|i] Hi; [apply (gm_dir _ _ Hg)|]. destruct (lookup_lt_is_Some_2 fl i) as [[nm ch] Hf]; [lia|]. by apply (gm_file _ _ Hg i nm ch). }
  assert (flen (root_dir fl) <= maxblk * 1024) as Hr by (unfold flen, maxblk in *; lia). destruct Hg as [Hsb Hbm Hu Hroot (Hd1 & Hd2 & Hd3) Htl Hfile Hdisj]. split.
  - by rewrite Hag by lia.
  - by apply same_out_bm.
  - intros b Hb. by rewrite same_out_use, Hu.
  - by rewrite Ha, same_out_inode by lia.
  - rewrite Ha by lia. split_and!; [by apply same_out_ok|by apply same_out_covered|]. by rewrite same_out_bytes.
  - rewrite Ha by lia. intros o Ho. assert (0 <= o / 1024 < maxblk) by (unfold flen, maxblk in *; elia). unfold fbyte.
    rewrite (same_out_block _ Hd1), (same_out_baddr _ Hd1) by done. by apply Htl.
  - intros i name chunks Hi c. pose proof (lookup_lt_Some _ _ _ Hi). destruct (Hfile _ _ _ Hi) as (H1 & H2 & H3 & H4). fold c in H1, H3, H4.
    pose proof (ff_size _ (Forall_lookup_1 _ _ _ _ Hfits Hi)) as Hs. change (flen c <= maxblk * 1024) in Hs.
    rewrite Ha, same_out_inode by lia. split_and!; [done|by apply same_out_ok|by apply same_out_covered|]. by rewrite same_out_bytes.
  - intros i j b Hi Hj Hne. rewrite !Ha, same_out_owned by auto. intros Ho. apply same_out_not_in; [by apply Hoks|]. by apply (Hdisj i j).
Qed.
End Agree.

(** ** The root directory *)
Definition entry_name (f : named) : list Z := take 14 (strip f.1).

Lemma entry_made inum name : 0 <= inum < 65536 -> 0 ∉ name -> entry_of (mk_dirent inum name) = (inum, take 14 name).
Proof.
  intros Hi Hn. unfold entry_of, mk_dirent, de_inum, de_name, get_le, slice. rewrite drop_0, take_app_length', drop_app_length' by (by rewrite length_le_enc). f_equal.
  - assert (xshort inum = inum) as -> by (unfold xshort, u8; cbn [le_dec]; rewrite Z.shiftr_div_pow2 by lia; change (2 ^ 8) with 256; elia).
    rewrite le_dec_enc_small; [done|]. change (256 ^ Z.of_nat 2) with 65536. lia.
  - unfold nm, DIRSIZ. rewrite take_app, take_replicate, cstr_padded.
    + by rewrite take_take, Nat.min_id.
    + intros Hin. apply Hn. rewrite <- (take_drop 14 name). set_solver.
Qed.

Lemma dirents_cons d c : length d = 16%nat -> dirents (d ++ c) = entry_of d :: dirents c.
Proof.
  intros Hd. unfold dirents. rewrite length_app, Hd. replace ((16 + length c) / 16)%nat with (S (length c / 16)) by (change (16 + length c)%nat with (1 * 16 + length c)%nat; rewrite Nat.div_add_l; lia).
  cbn [seq fmap list_fmap]. f_equal.
  - unfold dirent_at, slice. cbn [Nat.mul]. by rewrite drop_0, take_app_length'.
  - rewrite <- fmap_S_seq, <- list_fmap_compose. apply list_fmap_ext. intros _ i _. unfold compose, dirent_at, slice. do 2 f_equal.
    replace (16 * S i)%nat with (length d + 16 * i)%nat by lia. by rewrite drop_app_add.
Qed.

Lemma dirents_join ds : Forall (fun d => length d = 16%nat) ds -> dirents (mjoin ds) = entry_of <$> ds.
Proof. induction 1 as [|d ds Hd _ IH]; [done|]. change (mjoin (d :: ds)) with (d ++ mjoin ds). by rewrite dirents_cons, IH. Qed.

Section Root.
Context (v : Cache.blocks) (fl : list named) (Hg : good_image v fl).
Context (Hfits : Forall file_fits fl) (Hnul : Forall (fun f : named => 0 ∉ f.1) fl) (Hlen : (length fl <= 198)%nat) (Hfull : ((3 + length fl) mod 64 <> 0)%nat).

(** The entries of the root directory; the rest of its last block is free. *)
Definition root_free : nat := (64 - (3 + length fl) mod 64)%nat.
Definition root_entries : list (Z * list Z) :=
  [(1, [46]); (1, [46; 46]); (1, [109; 110; 116])] ++ imap (fun i f => (2 + Z.of_nat i, entry_name f)) fl ++ replicate root_free (0, []).

Abbreviation root_size := ((flen (root_dir fl) / 1024 + 1) * 1024).

Lemma root_size_eq : root_size = flen (root_dir fl) + 16 * Z.of_nat root_free.
Proof.
  rewrite length_root. unfold root_free. pose proof (Nat.mod_upper_bound (3 + length fl) 64 ltac:(lia)).
  rewrite Nat2Z.inj_sub, Nat2Z.inj_mod by lia. rewrite Nat2Z.inj_add. elia.
Qed.

Lemma root_covered : covered v (inode_addrs v 0) root_size.
Proof.
  intros bn Hb Hlt. destruct (gm_dir _ _ Hg) as (_ & Hc & _). apply Hc; [done|]. rewrite length_root in *.
  assert (Z.of_nat ((3 + length fl) mod 64) <> 0) as Hm by lia. rewrite Nat2Z.inj_mod, Nat2Z.inj_add in Hm. elia.
Qed.

Lemma root_bytes : fbytes v (inode_addrs v 0) 0 root_size = root_dir fl ++ replicate (16 * root_free) 0.
Proof.
  pose proof root_covered as Hc. pose proof (length_root fl) as Hl. rewrite root_size_eq in *. rewrite <- fbytes_app by lia.
  destruct (gm_dir _ _ Hg) as (_ & _ & ->). f_equal. apply list_eq. intros i. destruct (decide (i < 16 * root_free)%nat) as [Hi|Hi].
  - rewrite lookup_fbytes, lookup_replicate_2 by lia. f_equal. apply (gm_tail _ _ Hg).
    + unfold root_free, maxblk in *. lia.
    + apply Hc; [|elia]. apply Z.div_pos; lia.
  - rewrite !lookup_ge_None_2; [done|rewrite length_replicate; lia|]. unfold fbytes. rewrite length_bytes_of. lia.
Qed.

Definition root_chunks : list (list Z) :=
  [mk_dirent 1 [46]; mk_dirent 1 [46; 46]; mk_dirent 1 [109; 110; 116]] ++ imap (fun i (f : named) => mk_dirent (2 + Z.of_nat i) (strip f.1)) fl ++
  replicate root_free (replicate 16 0).

Lemma strip_nul (f : named) : 0 ∉ f.1 -> 0 ∉ strip f.1.
Proof. destruct f as [[|c n] ch]; [done|]. cbn. destruct (c =? 95); [|done]. intros [_ ?]%not_elem_of_cons. done. Qed.

Lemma root_chunks_join : root_dir fl ++ replicate (16 * root_free) 0 = mjoin root_chunks.
Proof.
  unfold root_chunks, root_dir, MkfsSpec.entries. rewrite !join_app, <- !app_assoc. f_equal. f_equal.
  generalize root_free. intros n. induction n as [|n IH]; [done|]. change (mjoin (replicate (S n) (replicate 16 0))) with (replicate 16 0 ++ mjoin (replicate n (replicate 16 0))).
  rewrite <- IH, <- replicate_add. f_equal. lia.
Qed.

Lemma root_dirents : dirents (fbytes v (inode_addrs v 0) 0 root_size) = root_entries.
Proof.
  rewrite root_bytes, root_chunks_join, dirents_join.
  - unfold root_chunks, root_entries. rewrite !fmap_app. f_equal. f_equal.
    + apply list_eq. intros i. rewrite list_lookup_fmap, !list_lookup_imap. destruct (fl !! i) as [f|] eqn:Hf; [|done]. cbn. f_equal.
      pose proof (lookup_lt_Some _ _ _ Hf). apply entry_made; [lia|]. by apply strip_nul, (Forall_lookup_1 _ _ _ _ Hnul Hf).
    + by rewrite fmap_replicate.
  - apply Forall_app. split; [by repeat constructor|]. apply Forall_app. split.
    + apply Forall_lookup. intros i d Hd. rewrite list_lookup_imap in Hd. destruct (fl !! i); [|done]. injection Hd as <-. apply length_dirent.
    + by apply Forall_replicate.
Qed.

Lemma root_dir_on : dir_on sb v 1 = dir_map root_entries.
Proof. unfold dir_on. rewrite (gm_root _ _ Hg). cbn [d_addrs d_size]. by rewrite root_dirents. Qed.

(** The inodes of the image. *)
Definition image_inums (i : Z) : Prop := 1 <= i < 2 + Z.of_nat (length fl).

Lemma root_entry k e : root_entries !! k = Some e -> e.1 <> 0 ->
  e.1 = 1 /\ e.2 ∈ [[46]; [46; 46]; [109; 110; 116]] \/ exists i f, fl !! i = Some f /\ e = (2 + Z.of_nat i, entry_name f).
Proof.
  intros He Hne. apply list_elem_of_lookup_2 in He. unfold root_entries in He. rewrite !elem_of_app in He. destruct He as [He|[He|He]].
  - left. rewrite !elem_of_cons in He. set_solver.
  - right. apply elem_of_lookup_imap in He as (i & f & -> & Hf). by exists i, f.
  - apply elem_of_replicate in He as [-> _]. done.
Qed.

Lemma image_tree : tree sb v image_inums.
Proof.
  destruct sb_facts as (_ & _ & _ & _ & Hni). destruct (gm_dir _ _ Hg) as (Hok & _ & _). split; [| |apply Hg].
  - intros i Hi. unfold image_inums in Hi. split; [rewrite Hni; lia|..]; (destruct (decide (i = 1)) as [->|Hne];
      [rewrite (gm_root _ _ Hg); try done|destruct (lookup_lt_is_Some_2 fl (Z.to_nat (i - 2))) as [[nm ch] Hf]; [lia|];
       pose proof (gm_file _ _ Hg _ _ _ Hf) as (Hin & _); replace (2 + Z.of_nat (Z.to_nat (i - 2))) with i in Hin by lia; by rewrite Hin]).
    intros _ di. unfold di. cbn [d_addrs d_size]. pose proof (length_root fl). unfold maxblk.
    split_and!; [|done|elia|elia|apply root_covered|elia]. apply (dinode_root v); [done|elia].
  - intros i n j Hi Hty. unfold image_inums in *. assert (i = 1) as ->.
    { destruct (decide (i = 1)) as [|Hne]; [done|]. destruct (lookup_lt_is_Some_2 fl (Z.to_nat (i - 2))) as [[nm ch] Hf]; [lia|].
      pose proof (gm_file _ _ Hg _ _ _ Hf) as (Hin & _). replace (2 + Z.of_nat (Z.to_nat (i - 2))) with i in Hin by lia. by rewrite Hin in Hty. }
    rewrite root_dir_on, dir_map_find. destruct (list_find _ _) as [[k e]|] eqn:Hf; [|done]. intros [= <-]. apply list_find_Some in Hf as (He & [Hne _] & _).
    destruct (root_entry k e He Hne) as [[-> _]|(m & f & Hm & ->)]; cbn [fst]; [lia|]. apply lookup_lt_Some in Hm. lia.
Qed.

(** A file is found by its name, if it is the only one. *)
Lemma image_lookup i f : fl !! i = Some f -> NoDup (entry_name <$> fl) -> entry_name f ∉ [[46]; [46; 46]; [109; 110; 116]] ->
  dir_on sb v 1 !! entry_name f = Some (2 + Z.of_nat i).
Proof.
  intros Hf Hnd Hsp. rewrite root_dir_on, dir_map_find. destruct (list_find _ _) as [[k e]|] eqn:Hk.
  - apply list_find_Some in Hk as (He & [Hne Hn] & _). destruct (root_entry k e He Hne) as [[_ Hin]|(j & g & Hj & ->)]; [by rewrite Hn in Hin|]. cbn in Hn |- *.
    f_equal. assert (j = i) as ->; [|done]. eapply NoDup_lookup; [exact Hnd|..]; rewrite list_lookup_fmap; [rewrite Hj|rewrite Hf]; cbn; [by rewrite Hn|done].
  - apply list_find_None in Hk. assert ((2 + Z.of_nat i, entry_name f) ∈ root_entries) as Hin.
    { unfold root_entries. rewrite !elem_of_app. right; left. apply elem_of_lookup_imap. by exists i, f. }
    rewrite Forall_forall in Hk. destruct (Hk _ Hin). split; cbn; [lia|done].
Qed.
End Root.

(** ** Starting the kernel *)
Section Boot.
Context {D : Type} `{DiskDriver D} `{!DiskDriverLaws D} (disk0 : D) (pid : Z) (img : list (list Z)).
Context (Hfmt : formatted img) (Hsb : superblock_of (image img dev 1) = sb).
Context (Hwf : dwf disk0) (Hroot : forall b, 0 <= b < 1000 -> dvalid disk0 dev b /\ dblock disk0 dev b = image img dev b) (Hext : dvalid disk0 EXT2DEV 1).

Abbreviation V := (dvalid disk0).

Lemma boot_layout : layout V sb.
Proof. destruct mkfs_layout. split; try done. intros b Hb. destruct sb_facts as (E & _). apply Hroot. lia. Qed.

Lemma boot_recover : recovers_to V dev 2 30 (dblock disk0) (fun b => dblock disk0 dev b).
Proof.
  exists []. split; [apply loggable_nil, (layout_geometry V sb boot_layout)|]. split; [|done]. destruct (Hroot 2) as [_ ->]; [lia|].
  unfold image. rewrite !decide_True by (done || lia). rewrite (fm_log _ Hfmt) by lia. split; [apply zero_block_ok|]. split; [by vm_compute|done].
Qed.

(** An inode cache that nothing has been read into: no entry is locked or valid, and two are free. *)
Record idle_cache (s : fsst D) : Prop := {
  id_ok : icache_ok s;
  id_locks : with_ilock initsleeplock <$> fs_inode s = fs_inode s;
  id_valid j x : fs_inode s !! j = Some x -> i_valid x = 0;
  id_spare : (2 <= spare s)%nat;
}.

(** The state of the file system after the start: the inode cache is that of [s0], the log is at rest, and the disk is as mkfs has left it. *)
Record booted (s0 s : fsst D) (v : Cache.blocks) : Prop := {
  bo_sb : fs_sb s = sb;
  bo_header : header V dev 2 30 (fs_log s) [];
  bo_log : lg_outstanding (fs_log s) = 0 /\ lg_committing (fs_log s) = 0;
  bo_rep : exists h, rep V pid (lg_bio (fs_log s)) v v h [] ∅;
  bo_inodes : exists e, s = set_ext2_sb e (set_sb sb (set_log (fs_log s) s0));
  bo_disk : forall b, 0 <= b < 1000 -> ~ (2 <= b < 32) -> v dev b = image img dev b;
}.

(** A call into the file system by the process with number [pid]. *)
Definition running (k : kern D) : Prop := exists p, k_procs k !! k_cur k = Some p /\ p_pid p = pid.

Lemma wp_fs_me {X} (m : M (fsst D) X) k (Q : X -> kern D -> Prop) :
  running k -> wp m (with_me pid (k_fs k)) (fun x s => Q x (set_fs s k)) -> wp (fs m) k Q.
Proof. intros (p & Hp & Hpid) Hw. unfold fs, myproc, proc_at. apply wp_bind, wp_bind, wp_gets. eapply wp_deref; [exact Hp|]. apply wp_zoom, wp_bind, wp_modify. by rewrite Hpid. Qed.

Lemma wp_fs {X} (m : M (fsst D) X) k (Q : X -> kern D -> Prop) :
  running k -> fs_pid (k_fs k) = pid -> wp m (k_fs k) (fun x s => Q x (set_fs s k)) -> wp (fs m) k Q.
Proof.
  intros Hrun Hme Hw. apply wp_fs_me; [done|]. replace (with_me pid (k_fs k)) with (k_fs k); [done|].
  rewrite <- Hme. unfold with_me, fs_pid. destruct (k_fs k) as [[[? ? ?] ? ? ? ? ? ? ?] ? ? ? ? ?]. done.
Qed.

(** [forkret] in the first process, after [binit] and whatever has been done with the inode cache. *)
Lemma wp_forkret s0 k : idle_cache s0 -> with_me pid (k_fs k) = set_log (set_bio (boot disk0 pid) (log_bss disk0 pid)) s0 -> running k ->
  wp (forkret true) k (fun first k' => first = false /\ k' = set_fs (k_fs k') k /\ exists v, booted s0 (k_fs k') v).
Proof.
  intros [_ Hlocks _ _] Hk Hrun. pose proof boot_layout as Hla. pose proof (layout_geometry V sb Hla) as Hgeo. change (geometry V dev 2 30) in Hgeo.
  assert (rep V pid (boot disk0 pid) (dblock disk0) (dblock disk0) (dhist disk0) [] ∅) as Hr by (by apply boot_rep_on). destruct (Hroot 1) as [HV1 Hd1]; [lia|].
  unfold forkret. apply wp_bind. cbn [guard_ok]. apply wp_bind, wp_fs_me; [done|]. rewrite Hk. unfold xv6fs_iinit. apply wp_bind, wp_modify, wp_bind, wp_zoom.
  cbn [set_log fs_inode]. rewrite Hlocks. eapply wp_readsb; [exact Hgeo|exact Hr|done|]. intros t Ht. apply wp_modify. rewrite Hd1, Hsb.
  apply wp_bind, wp_fs; [done|apply Ht|]. apply wp_zoom. eapply (wp_initlog V pid dev 2 30 Hgeo); [exact Ht|done|by rewrite Hd1; unfold sb_locates; rewrite Hsb, mkfs_sb_eq|apply boot_recover|done|].
  intros l v h Hh Ho Hc Hr' _ Hv. apply wp_fs; [done|apply Hr'|]. unfold ext2fs_iinit, ext2fs_readsb. change (u32 EXT2DEV) with EXT2DEV. apply wp_bind, wp_bind, wp_zoom, wp_zoom.
  eapply wpc_bread; [exact Hr'|done|split; [set_solver|left; cbn; rewrite size_empty; unfold NBUF; lia]|]. intros i t1 H1. apply wp_bind, wp_zoom, wp_zoom.
  eapply wpc_bdata; [exact H1|by left|]. apply wp_bind, wp_zoom, wp_zoom. eapply wpc_brelse; [exact H1|done|by right|]. intros t2 H2.
  apply wp_ret, wp_modify, wp_ret. split; [done|]. split; [done|]. exists v. split; try done.
  - by destruct Hh.
  - by exists h.
  - by eexists.
  - intros b Hb Hlog. rewrite Hv; [by apply Hroot|]. split; [lia|]. split; [by apply Hroot|lia].
Qed.

Lemma idle_bss l : idle_cache (fs_bss l).
Proof.
  split; [apply icache_ok_bss|reflexivity| |apply Nat.leb_le; reflexivity]. intros j x Hx. by apply lookup_replicate in Hx as [-> _].
Qed.

Lemma wp_boot k : k_fs k = fs_bss (log_bss disk0 pid) -> running k ->
  wp (fs (dbuf binit) ;; forkret true) k (fun first k' => first = false /\ running k' /\ exists v, booted (fs_bss (log_bss disk0 pid)) (k_fs k') v).
Proof.
  intros Hk Hrun. apply wp_bind, wp_fs; [done|by rewrite Hk|]. rewrite Hk. apply wp_zoom, wp_zoom. eapply wp_eq; [apply binit_boot|].
  eapply wp_mono; [apply wp_forkret; [apply idle_bss|done|done]|]. intros first k' (-> & -> & v & Hb). split; [done|]. split; [done|]. by exists v.
Qed.

(** ** Reading a file *)
Section Read.
Context (fl : list named) (Hg : good_image (image img) fl) (Hfits : Forall file_fits fl) (Hnul : Forall (fun f : named => 0 ∉ f.1) fl).
Context (Hlen : (length fl <= 198)%nat) (Hfull : ((3 + length fl) mod 64 <> 0)%nat) (Hnd : NoDup (entry_name <$> fl)).
Context (devsw_read : Z -> option (nat -> Z -> M (fsst D) (Z * list Z))).

(** The calls that [exec] makes before it looks at the header of the file: it opens a transaction, finds and locks the inode, and reads. *)
Definition read_file (cwd : nat) (junk path : list Z) (off n : Z) : M (kern D) (option (Z * list Z)) :=
  fs (log begin_op) ;;
  r ← fs (namei devsw_read cwd junk path);
  match r with
  | Some ip => fs (ilock ip) ;; x ← fs (readi devsw_read ip off n); mret (Some x)
  | None => mret None
  end.

Lemma booted_cache s0 s v : idle_cache s0 -> booted s0 s v -> cache_ok sb s v None /\ (2 <= spare s)%nat.
Proof.
  intros [Hok Hlocks Hval Hsp] [_ _ _ _ [e ->] _]. split; [|exact Hsp]. split.
  - by destruct Hok.
  - intros j x Hx _. assert ((with_ilock initsleeplock <$> fs_inode s0) !! j = Some x) as Hx' by (by rewrite Hlocks).
    rewrite list_lookup_fmap in Hx'. destruct (fs_inode s0 !! j); [|done]. by injection Hx' as <-.
  - intros j x k Hx _ _ Hv. destruct Hv. by eapply Hval.
Qed.

Lemma booted_good s0 s v : booted s0 s v -> good_image v fl.
Proof. intros [_ _ _ _ _ Hd]. by apply (same_out_good (image img)). Qed.

Lemma elems_name e : 47 ∉ e -> e <> [] -> elems (47 :: e) = [e].
Proof.
  intros Hs Hne. assert (fields e = [e]) as Hf; [|change 47 with slash; rewrite elems_slash; unfold elems; rewrite Hf; by destruct e].
  clear Hne. induction e as [|c e IH]; [done|]. apply not_elem_of_cons in Hs as [Hc Hs]. cbn [fields]. rewrite (proj2 (Z.eqb_neq c slash)) by (unfold slash; congruence). by rewrite IH.
Qed.

Lemma walk_file v i f : good_image v fl -> fl !! i = Some f -> strip f.1 <> [] -> entry_name f ∉ [[46]; [46; 46]; [109; 110; 116]] ->
  walk sb v false 1 (elems (47 :: strip f.1)) = Some (2 + Z.of_nat i).
Proof.
  intros Hgv Hf Hne Hsp. rewrite elems_name; [|pose proof (ff_name _ (Forall_lookup_1 _ _ _ _ Hfits Hf)) as Hs|done].
  - cbn [walk andb]. rewrite (gm_root _ _ Hgv). cbn [d_type]. change (T_DIR =? T_DIR) with true. cbn iota.
    change (take DIRSIZ (strip f.1)) with (entry_name f). by rewrite (image_lookup v fl Hgv Hfits Hnul Hlen Hfull i f).
  - destruct f as [[|c n] ch]; [done|]. cbn in *. destruct (c =? 95); [|done]. by apply not_elem_of_cons in Hs as [_ ?].
Qed.

Lemma file_open v (s : fsst D) ip y k A i f : good_image v fl -> fl !! i = Some f -> i_inum y = 2 + Z.of_nat i -> locked pid sb s v ip y k A ->
  xfile sb s v ip y k A /\ contents v y A = mjoin f.2.
Proof.
  intros Hgv Hf Hi [Ho Hops Hl _ _ Hd]. destruct f as [name ch]. destruct (gm_file _ _ Hgv _ _ _ Hf) as (Hin & Hok & Hc & Hb). pose proof (lookup_lt_Some _ _ _ Hf).
  pose proof (ff_size _ (Forall_lookup_1 _ _ _ _ Hfits Hf)) as Hs. cbn [snd] in Hs |- *. destruct sb_facts as (_ & _ & _ & _ & Hni).
  rewrite Hi, Hin in Hd. unfold dinode_of in Hd. injection Hd as H1 H2 H3 H4 H5 H6. rewrite <- H6 in *. split.
  - split; rewrite ?H1, ?H2, ?H3, ?H4, ?H5; try done; [apply Hgv|unfold flen in *; lia|rewrite Hni; lia].
  - unfold contents. by rewrite H5.
Qed.

Lemma wp_read_file s0 k v cwd junk i f off n :
  idle_cache s0 -> running k -> booted s0 (k_fs k) v -> fl !! i = Some f -> strip f.1 <> [] -> take 3 (strip f.1) <> [109; 110; 116] -> entry_name f ∉ [[46]; [46; 46]] ->
  bytes_ok junk -> (DIRSIZ <= length junk)%nat -> let c := mjoin f.2 in 0 <= off <= flen c -> 0 <= n < 2 ^ 31 ->
  wp (read_file cwd junk (47 :: strip f.1) off n) k (fun r _ => let m := Z.min n (flen c - off) in r = Some (m, slice (Z.to_nat off) (Z.to_nat m) c)).
Proof.
  intros Hid Hrun Hb Hf Hne Hmnt Hdots Hj Hjl c Hoff Hn. pose proof (booted_good _ _ _ Hb) as Hgv. pose proof boot_layout as Hla.
  destruct (booted_cache _ _ _ Hid Hb) as [Hc Hsp]. pose proof Hb as [Hb1 Hh [Ho Hcm] [h Hr] _ _].
  apply wp_bind, wp_fs; [done|apply Hr|]. apply wp_zoom. eapply wp_eq; [eapply begin_op_ok; [exact Hh|done|by rewrite Ho]|].
  set (s1 := set_log _ _). assert (ftxn V pid sb s1 v v h [] []) as Ht1.
  { split; [done|]. split; [by destruct Hh|done|cbn; lia]. }
  assert (cache_ok sb s1 v None) as Hc1 by (destruct Hc as [[] ? ?]; by split; [split|..]).
  pose proof (Forall_lookup_1 _ _ _ _ Hnul Hf) as H0. pose proof (Forall_lookup_1 _ _ _ _ Hfits Hf) as Hfit.
  apply wp_bind, wp_fs; [done|apply Ht1|]. unfold namei. apply wp_bind. eapply wp_mono.
  { eapply (wp_namex V pid sb Hla devsw_read (fun _ => None) s1 v v h [] (image_inums fl) cwd 1 (47 :: strip f.1) false junk); try done.
    - by apply image_tree.
    - cbn; lia.
    - apply not_elem_of_cons. split; [done|by apply strip_nul].
    - constructor; [done|]. apply strip_ok, Hfit.
    - intros He. apply Hmnt. by injection He.
    - unfold image_inums. lia. }
  intros r s2 (Ht2 & Hc2 & Hres). apply wp_ret. unfold resolved in Hres. rewrite (walk_file v i f) in Hres; [|done..|].
  2:{ intros Hin. rewrite !elem_of_cons in Hin. assert (entry_name f = [109; 110; 116]) as He by set_solver. apply Hmnt. unfold entry_name in He.
      change 3%nat with (Nat.min 3 14). by rewrite <- take_take, He. }
  destruct Hres as (ip & w & -> & Hw & Hl & Hd & Hi & _). cbn iota.
  apply wp_bind, wp_fs; [done|apply Ht2|]. eapply (wp_lock V pid sb Hla); [exact Ht2|exact Hc2|exact Hw|done|done| |cbn; lia|].
  { rewrite Hi. apply (image_tree v fl); try done. unfold image_inums. apply lookup_lt_Some in Hf. lia. }
  intros s3 y k3 A Ht3 _ Hlk Hiy _ _. destruct (file_open v s3 ip y k3 A i f) as [Hx Hcont]; [done|done|congruence|done|].
  apply wp_bind, wp_fs; [done|apply Ht3|]. assert (i_size y = flen c) as Hsz.
  { unfold flen, c. rewrite <- Hcont. unfold contents, fbytes. rewrite length_bytes_of. pose proof (xf_size _ _ _ _ _ _ _ Hx). lia. }
  eapply (wp_readi V pid sb Hla); [exact Ht3|exact Hx|cbn; lia|lia|done|]. intros s4 _ _ _ m. apply wp_ret. unfold m. by rewrite Hcont, Hsz.
Qed.
End Read.
End Boot.

(** The first thousand blocks of the root device are the image. *)
Definition holds {D} `{DiskDriver D} (disk : D) (img : list (list Z)) : Prop :=
  forall b, 0 <= b < 1000 -> dvalid disk dev b /\ dblock disk dev b = image img dev b.

(** Every file of [fl] can be found under its name, without the underscore that mkfs strips, and read at every offset. *)
Definition reads_back {D} `{DiskDriver D} (fl : list named) (k : kern D) : Prop :=
  forall devsw_read cwd junk i f off n, bytes_ok junk -> (DIRSIZ <= length junk)%nat ->
    fl !! i = Some f -> strip f.1 <> [] -> take 3 (strip f.1) <> [109; 110; 116] -> entry_name f ∉ [[46]; [46; 46]] ->
    let c := mjoin f.2 in let m := Z.min n (flen c - off) in 0 <= off <= flen c -> 0 <= n < 2 ^ 31 ->
    exists k2, read_file devsw_read cwd junk (slash :: strip f.1) off n k = Ok (Some (m, slice (Z.to_nat off) (Z.to_nat m) c)) k2.

(** The files for which mkfs makes an image that can be read: they fit, their names differ, and the number of directory entries is not a multiple of 64. *)
Record readable (fl : list named) : Prop := {
  rd_fits : Forall file_fits fl;
  rd_nul : Forall (fun f : named => 0 ∉ f.1) fl;
  rd_count : (length fl <= 198)%nat;
  rd_total : 46 + total (made fl) <= 1000;
  rd_tail : ((3 + length fl) mod 64 <> 0)%nat;
  rd_names : NoDup (entry_name <$> fl);
}.

Lemma booted_reads {D} `{DiskDriver D} `{!DiskDriverLaws D} (disk : D) pid img fl s0 k v : readable fl -> formatted img -> good_image (image img) fl -> dwf disk -> holds disk img ->
  dvalid disk EXT2DEV 1 -> idle_cache s0 -> running pid k -> booted disk pid img s0 (k_fs k) v -> reads_back fl k.
Proof.
  intros [Hfits Hnul Hlen Htot Hfull Hnd] Hfmt Hg Hwf Hroot Hext Hid Hrun Hv devsw_read cwd junk i f off n Hj Hjl Hf Hne Hmnt Hdots c m Hoff Hn. pose proof (gm_sb _ _ Hg) as Hsb.
  assert (wp (read_file devsw_read cwd junk (slash :: strip f.1) off n) k (fun r _ => r = Some (m, slice (Z.to_nat off) (Z.to_nat m) c))) as Hw
    by (eapply (wp_read_file disk pid img); eassumption).
  destruct (proj1 (wp_ok _ _ _) Hw) as (r & k2 & Hr & ->). exists k2. exact Hr.
Qed.

(** A kernel on [disk] before its first process, with number [pid], runs. *)
Definition started {D} (disk : D) (pid : Z) (k : kern D) : Prop := k_fs k = fs_bss (log_bss disk pid) /\ running pid k.

(** C3: What mkfs puts into the image is what the kernel reads from it. For every list of files that fit, with distinct names, mkfs makes an image;
    on every disk with a driver that obeys its laws and whose root device holds the image, the first process starts the file system ([forkret]: the super
    blocks are read and the log is recovered); and then for each file, [namei] of a slash and the name, without the underscore that mkfs strips, finds
    an inode, [ilock] locks it and [readi] returns the bytes of the file at every offset. The number of directory entries is not a multiple
    of 64, for which mkfs makes the root directory one block too long, and the name does not start with mnt, which the kernel takes for a mount point. *)
Theorem mkfs_kernel_reads fl :
  readable fl ->
  exists m, mkfs_main (argv fl) mk_start = Ok tt m /\
  forall D (HD : DiskDriver D) (HL : DiskDriverLaws D) (disk : D) pid k, dwf disk -> holds disk (m_img m) -> dvalid disk EXT2DEV 1 -> started disk pid k ->
  exists k1, (fs (dbuf binit) ;; forkret true) k = Ok false k1 /\ reads_back fl k1.
Proof.
  intros Hrd. pose proof Hrd as [Hfits Hnul Hlen Htot Hfull Hnd]. destruct (proj1 (wp_ok _ _ _) (wp_mkfs_main fl Hfits Hlen Htot)) as ([] & m & He & Hfmt & Hg).
  exists m. split; [exact He|]. intros D ? ? disk pid k Hwf Hroot Hext [Hk Hrun].
  destruct (proj1 (wp_ok _ _ _) (wp_boot disk pid (m_img m) Hfmt (gm_sb _ _ Hg) Hwf Hroot Hext k Hk Hrun)) as (first & k1 & Hb & -> & Hrun1 & v & Hv).
  exists k1. split; [exact Hb|]. eapply booted_reads; try eassumption. apply idle_bss.
Qed.

(** ** A disk with the image *)
Definition image_sector (img : list (list Z)) (n : Z) : list Z := slice (Z.to_nat (512 * (n mod 2))) 512 (image img dev (n / 2)).
Definition sectors (g : Z -> list Z) (Y : gset Z) : gmap (Z * Z * Z) (list Z) := set_to_map (fun n => ((0, 1, n), g n)) Y.

Lemma lookup_sectors g Y c d n x : sectors g Y !! (c, d, n) = Some x <-> (c, d) = (0, 1) /\ n ∈ Y /\ x = g n.
Proof.
  unfold sectors. rewrite lookup_set_to_map by (intros y y' _ _ E; by injection E). split.
  - intros (m & Hm & [= <- <- <- <-]). done.
  - intros ([= -> ->] & Hn & ->). by exists n.
Qed.

Definition image_hw (reg : Z -> Z) (img : list (list Z)) : sim := Sim reg (sectors (image_sector img) (list_to_set (seqZ 0 2000))) None None [].
Definition image_disk (img : list (list Z)) : ide sim := set_hw (image_hw (fun _ => 0) img) sim_blank.

Lemma image_block_ok img b : formatted img -> 0 <= b < 1000 -> block_ok (image img dev b).
Proof.
  intros [Hl Hok _] Hb. unfold image. rewrite !decide_True by (done || lia). destruct (lookup_lt_is_Some_2 img (Z.to_nat b)) as [x Hx]; [lia|]. rewrite Hx.
  exact (Forall_lookup_1 _ _ _ _ Hok Hx).
Qed.

Lemma elem_sectors n : n ∈ (list_to_set (seqZ 0 2000) : gset Z) <-> 0 <= n < 2000.
Proof. rewrite elem_of_list_to_set, elem_of_seqZ. lia. Qed.

Lemma image_hw_sector reg img n : 0 <= n < 2000 -> sm_sector (image_hw reg img) 0 1 n = image_sector img n.
Proof.
  intros Hn. unfold sm_sector, image_hw. cbn [sm_store].
  assert (sectors (image_sector img) (list_to_set (seqZ 0 2000)) !! (0, 1, n) = Some (image_sector img n)) as ->; [|done].
  apply lookup_sectors. split; [done|]. split; [by apply elem_sectors|done].
Qed.

Lemma image_disk_holds reg img (d : ide sim) : formatted img -> ide_hw d = image_hw reg img -> idequeue d = None -> havedisk1 d <> 0 -> havedisk2 d <> 0 ->
  dwf d /\ holds d img /\ dvalid d EXT2DEV 1.
Proof.
  intros Hf Hhw Hq H1 H2. split_and!.
  - split; [done|]. split; [done|]. split; [done|]. rewrite Hhw. split; [done|]. intros [[c e] n] x Hx. apply lookup_sectors in Hx as (_ & Hm & ->).
    apply elem_sectors in Hm. destruct (image_block_ok img (n / 2) Hf) as [Hl Hb]; [elia|].
    unfold image_sector. split; [rewrite length_slice; [done|elia]|by apply Forall_slice].
  - intros b Hb. split; [split; [by left|by rewrite Hhw]|]. destruct (image_block_ok img b Hf Hb) as [Hl _]. change (dblock d dev b) with
      (sm_sector (ide_hw d) 0 1 (2 * b) ++ sm_sector (ide_hw d) 0 1 (2 * b + 1)). rewrite Hhw, !image_hw_sector by lia.
    unfold image_sector. replace (2 * b / 2) with b by elia. replace ((2 * b + 1) / 2) with b by elia. replace ((2 * b) mod 2) with 0 by elia.
    replace ((2 * b + 1) mod 2) with 1 by elia. unfold slice. change (Z.to_nat (512 * 0)) with 0%nat. rewrite drop_0. change (Z.to_nat (512 * 1)) with 512%nat.
    rewrite (take_ge (drop _ _)) by (rewrite length_drop; lia). apply take_drop.
  - split; [right; split; [done|by vm_compute]|by rewrite Hhw].
Qed.

(** The two files, the second one with its tail beyond the direct blocks. *)
Lemma two_files_readable : readable two_files.
Proof. split; [exact two_files_fit|by apply (bool_decide_unpack _)|cbn; lia|by apply Z.leb_le; vm_compute|done|by apply (bool_decide_unpack _)]. Qed.

Lemma two_files_formatted m : mkfs_main (argv two_files) mk_start = Ok tt m -> formatted (m_img m).
Proof.
  intros He. destruct (proj1 (wp_ok _ _ _) (wp_mkfs_main two_files two_files_fit ltac:(cbn; lia) ltac:(by apply Z.leb_le; vm_compute))) as (u & m' & He' & Hf & _).
  rewrite He in He'. injection He' as _ <-. exact Hf.
Qed.

Lemma mkfs_kernel_reads_witness :
  exists (k1 k2 k3 : kern (ide sim)), read_file (fun _ => None) 0 (replicate 255 0) [47; 99; 97; 116] 0 100 k1 = Ok (Some (4, [1; 2; 3; 4])) k2 /\
    read_file (fun _ => None) 0 (replicate 255 0) [47; 114; 101; 97; 100; 109; 101] 12998 5 k1 = Ok (Some (2, [7; 7])) k3.
Proof.
  destruct (mkfs_kernel_reads two_files two_files_readable) as (m & He & Hboot). pose proof (two_files_formatted m He) as Hfm.
  clear He. destruct (image_disk_holds (fun _ => 0) (m_img m) (image_disk (m_img m)) Hfm) as (H1 & H2 & H3); [reflexivity|by vm_compute|by vm_compute|by vm_compute|]. set (disk := image_disk (m_img m)) in *. clearbody disk.
  destruct (Hboot (ide sim) _ _ disk 1 (Kern (fs_bss (log_bss disk 1)) (Vmst ∅ 0 1) [] ∅ [with_pid 1 proc_bss] 0 2 None 0) H1 H2 H3) as (k1 & _ & Hread).
  { split; [done|]. by exists (with_pid 1 proc_bss). }
  destruct (Hread (fun _ => None) 0%nat (replicate 255 0) 0%nat _ 0 100 ltac:(by apply Forall_replicate) ltac:(unfold DIRSIZ; cbn; lia) eq_refl) as (k2 & E2);
    [done|done|by apply (bool_decide_unpack _)|split; [done|by apply Z.leb_le; vm_compute]|lia|].
  destruct (Hread (fun _ => None) 0%nat (replicate 255 0) 1%nat _ 12998 5 ltac:(by apply Forall_replicate) ltac:(unfold DIRSIZ; cbn; lia) eq_refl) as (k3 & E3);
    [done|done|by apply (bool_decide_unpack _)|split; [done|by apply Z.leb_le; vm_compute]|lia|].
  exists k1, k2, k3. split; [exact E2|]. exact E3.
Defined.
