(* ===== verification/Main.v ===== *)
(** The start of the kernel (main.c): [main] on the boot processor, the start of the other processors, and [mpmain], which ends in the scheduler; with the
    initialisation functions of console.c, proc.c and file.c.

    The state is that of the kernel and of the processor that runs, next to the variables of mp.c, uart.c and console.c and the platform. [kend] and [kdata]
    are the ends of the kernel and of its read-only part, [initcode] and [entryother] the binaries linked into it; the addresses of tables are those of Seg.v.

    Another processor is started by a message to its local APIC. It runs entryother.S, which loads the stack, the page directory and the address to
    call from the three words below its code, and then C code, until it sets [started], for which [startothers] waits. *)

From S2P Require Import Prelude Bytes Spinlock Buf Ide Bio Log Inode Kalloc Vm Kernel Proc Trap Seg Port Apic Uart Mp.

(** The functions in the device switch. *)
Inductive devfn := Consoleread | Consolewrite.
Definition CONSOLE : nat := 1.

(** A processor that has been started: its stack, its first page directory, and its registers when it reaches the scheduler. *)
Record ap := Ap { ap_stack : Z; ap_pgdir : Z; ap_mach : mach }.

Record boot (H P : Type) := Boot {
  b_kern : kern (ide H); b_mach : mach; b_aps : gmap nat ap; b_cpus : list Z; b_ncpu : Z; b_started : list Z;
  b_plat : plat P; b_uart : bool; b_locks : gmap string spinlock; b_devsw : list (option devfn * option devfn); b_locking : Z; b_said : list nat;
}.
Arguments Boot {H P}.
Arguments b_kern {H P}. Arguments b_mach {H P}. Arguments b_aps {H P}. Arguments b_cpus {H P}. Arguments b_ncpu {H P}. Arguments b_started {H P}.
Arguments b_plat {H P}. Arguments b_uart {H P}. Arguments b_locks {H P}. Arguments b_devsw {H P}. Arguments b_locking {H P}. Arguments b_said {H P}.

(** [entrypgdir]: two entries for pages of 4 MB. *)
Definition PTE_PS : Z := 0x080.
Definition entrypgdir : list Z :=
  let pde := Z.lor (Z.lor (Z.lor 0 PTE_P) PTE_W) PTE_PS in
  <[Z.to_nat (Z.shiftr KERNBASE 22) := pde]> (<[0%nat := pde]> (replicate 1024 0)).

Section Main.
Context {H P : Type} `{Ata H} `{!AtaLaws H} `{Ports P} `{Mmio P}.
Context (kend kdata : Z) (initcode entryother junk : list Z) (mem : Z -> Z) (mp_fuel lapic_fuel : nat).
Context (hw0 : Z) (ap_dev : nat -> P) (gdt_at ts_at : nat -> Z) (idt_at mpenter_at entrypgdir_at : Z) (vectors : list Z).
Abbreviation st := (boot H P).
Implicit Types s : st.

Definition set_bkern v s : st := Boot v (b_mach s) (b_aps s) (b_cpus s) (b_ncpu s) (b_started s) (b_plat s) (b_uart s) (b_locks s) (b_devsw s) (b_locking s) (b_said s).
Definition set_bmach v s : st := Boot (b_kern s) v (b_aps s) (b_cpus s) (b_ncpu s) (b_started s) (b_plat s) (b_uart s) (b_locks s) (b_devsw s) (b_locking s) (b_said s).
Definition set_aps v s : st := Boot (b_kern s) (b_mach s) v (b_cpus s) (b_ncpu s) (b_started s) (b_plat s) (b_uart s) (b_locks s) (b_devsw s) (b_locking s) (b_said s).
Definition set_mp v s : st := Boot (b_kern s) (b_mach s) (b_aps s) (mp_cpus v) (mp_ncpu v) (b_started s) (mp_plat v) (b_uart s) (b_locks s) (b_devsw s) (b_locking s) (b_said s).
Definition set_started v s : st := Boot (b_kern s) (b_mach s) (b_aps s) (b_cpus s) (b_ncpu s) v (b_plat s) (b_uart s) (b_locks s) (b_devsw s) (b_locking s) (b_said s).
Definition set_uart v s : st := Boot (b_kern s) (b_mach s) (b_aps s) (b_cpus s) (b_ncpu s) (b_started s) (u_plat v) (u_uart v) (b_locks s) (b_devsw s) (b_locking s) (b_said s).
Definition set_locks v s : st := Boot (b_kern s) (b_mach s) (b_aps s) (b_cpus s) (b_ncpu s) (b_started s) (b_plat s) (b_uart s) v (b_devsw s) (b_locking s) (b_said s).
Definition set_cons d l s : st := Boot (b_kern s) (b_mach s) (b_aps s) (b_cpus s) (b_ncpu s) (b_started s) (b_plat s) (b_uart s) (b_locks s) d l (b_said s).
Definition set_said v s : st := Boot (b_kern s) (b_mach s) (b_aps s) (b_cpus s) (b_ncpu s) (b_started s) (b_plat s) (b_uart s) (b_locks s) (b_devsw s) (b_locking s) v.

Definition kern_ {A} : M (kern (ide H)) A -> M st A := zoom b_kern set_bkern.
Definition mem_ {A} (m : M vmst A) : M st A := kern_ (zoom k_vm set_vm m).
Definition mach_ {A} : M mach A -> M st A := zoom b_mach set_bmach.
Definition mp_ {A} : M (mpst P) A -> M st A := zoom (fun s => Mpst (b_cpus s) (b_ncpu s) (b_plat s)) set_mp.
Definition uart_ {A} : M (uartst P) A -> M st A := zoom (fun s => Uart (b_uart s) (b_plat s)) set_uart.
Definition plat_ {A} (m : M (plat P) A) : M st A := uart_ (uplat m).
Definition initlock_ (name : string) : M st unit := modify (fun s => set_locks (<[name := initlock]> (b_locks s)) s).

(** [cpus[i].apicid] for [i < ncpu]. *)
Definition apicids : M st (list Z) := gets (fun s => take (Z.to_nat (b_ncpu s)) (b_cpus s)).

Definition kvmalloc : M st unit :=
  k ← mem_ (setupkvm kend kdata);
  mach_ (modify (set_kpgdir k)) ;;
  mach_ switchkvm.

Definition consoleinit : M st unit :=
  initlock_ "console" ;;
  modify (fun s => set_cons (<[CONSOLE := (Some Consoleread, Some Consolewrite)]> (b_devsw s)) 1 s) ;;
  plat_ (ioapicenable IRQ_KBD 0).

Definition pinit : M st unit := initlock_ "ptable".
Definition fileinit : M st unit := initlock_ "ftable".

(** [ideinit] with the lock and the interrupts. *)
Definition disk_init : M st unit :=
  initlock_ "ide" ;;
  n ← gets b_ncpu;
  plat_ (ioapicenable IRQ_IDE (n - 1)) ;;
  plat_ (ioapicenable (IRQ_IDE + 1) (n - 1)) ;;
  kern_ (zoom k_fs set_fs (dbuf (modify (fun b => set_disk (ideinit (ide_hw (disk b))) b)))).

(** [mpmain] up to [scheduler], on the processor whose local APIC has the number [hw]. *)
Definition mpmain (hw : Z) : M st unit :=
  ids ← apicids;
  c ← mach_ (cpuid ids hw);
  modify (fun s => set_said (b_said s ++ [c]) s) ;;
  mach_ (idtinit idt_at) ;;
  c ← mach_ (cpuid ids hw);
  s ← gets b_started;
  guard_ok (negb (c <? length s)%nat) fault ;;
  modify (fun s => set_started (<[c := 1]> (b_started s)) s).

Definition mpenter (hw : Z) : M st unit :=
  mach_ switchkvm ;;
  ids ← apicids;
  mach_ (seginit ids hw gdt_at) ;;
  plat_ (lapicinit lapic_fuel) ;;
  mpmain hw.

(** Another processor has its own registers and its own local APIC. *)
Definition fresh_cpu (m : mach) : mach := Mach (Cpu false 0 false) (m_gdts m) (m_tss m) (m_idt m) [] [] 0 0 (m_kpgdir m) (m_tickslock m).
Definition back_on (m m' : mach) : mach := Mach (m_cpu m) (m_gdts m') (m_tss m') (m_idt m') (m_gdtr m) (m_idtr m) (m_tr m) (m_cr3 m) (m_kpgdir m) (m_tickslock m').
Definition on_device (d : P) (p : plat P) : plat P := Plat (p_lapic p) (p_ioapicid p) (p_wrv p) (p_out p) d.
Definition plat_dev (d : P) : M st unit := plat_ (modify (on_device d)).

Definition code : Z := P2V 0x7000.
Definition below_code : Z := code - PGSIZE.

(** Processor [c] runs the code at [code], until it has set [started]. *)
Definition run_ap (c : nat) (hw : Z) : M st unit :=
  page ← mem_ (page_at below_code);
  let stack := word_at page 1023 in
  let entry := word_at page 1022 in
  let pgdir := word_at page 1021 in
  guard_ok (negb (entry =? mpenter_at)) fault ;;
  m ← gets b_mach;
  d ← gets (fun s => p_dev (b_plat s));
  modify (set_bmach (fresh_cpu m)) ;;
  plat_dev (ap_dev c) ;;
  mpenter hw ;;
  m' ← gets b_mach;
  modify (fun s => set_aps (<[c := Ap stack pgdir m']> (b_aps s)) s) ;;
  plat_dev d ;;
  modify (set_bmach (back_on m m')).

(** The body of the loop of [startothers]. *)
Definition start_cpu (c : nat) : M st unit :=
  ids ← apicids;
  me ← mach_ (cpuid ids hw0);
  if decide (c = me) then mret tt
  else
    stack ← mem_ (kalloc);
    mem_ (page_upd below_code (fun l => set_word l 1023 (u32 (stack + KSTACKSIZE)))) ;;
    mem_ (page_upd below_code (fun l => set_word l 1022 mpenter_at)) ;;
    mem_ (page_upd below_code (fun l => set_word l 1021 (V2P entrypgdir_at))) ;;
    cpus ← gets b_cpus;
    apicid ← deref (cpus !! c);
    plat_ (lapicstartap apicid (V2P code)) ;;
    run_ap c apicid.

Definition startothers : M st unit :=
  mem_ (page_upd code (splice 0 entryother)) ;;
  n ← gets b_ncpu;
  for_all (range 0 n) (fun c => start_cpu (Z.to_nat c)).

Definition main : M st unit :=
  mem_ (kinit1 kend kend (P2V (4 * 1024 * 1024))) ;;
  kvmalloc ;;
  mp_ (mpinit mem mp_fuel) ;;
  plat_ (lapicinit lapic_fuel) ;;
  ids ← apicids;
  mach_ (seginit ids hw0 gdt_at) ;;
  plat_ picinit ;;
  plat_ ioapicinit ;;
  consoleinit ;;
  uart_ uartinit ;;
  pinit ;;
  mach_ (tvinit vectors) ;;
  kern_ (zoom k_fs set_fs (dbuf binit)) ;;
  fileinit ;;
  disk_init ;;
  startothers ;;
  mem_ (kinit2 kend (P2V (4 * 1024 * 1024)) (P2V PHYSTOP)) ;;
  kern_ (userinit kend kdata initcode junk) ;;
  mpmain hw0.
End Main.
