(* ===== verification/MainSpec.v ===== *)
(** The start of the kernel, as a whole ([main] of main.c): from the state that the boot loader leaves to the scheduler, on every processor.

    Devices are arbitrary, apart from the local APIC, which delivers an interrupt message after a bounded number of reads of its
    status. The memory is arbitrary, apart from having its pages; the kernel ends far enough below 4 MB for its page tables. *)

From S2P Require Import Prelude Bytes CString Spinlock Sleeplock Buf Ide Bio Log Inode Vfs Kalloc Vm VmSpec ForkSpec Kernel Sched Proc Trap Seg Port Apic Console Kbd Uart Mp Main.

(** * Drivers that always return *)

(** [m] returns from every state with [I], and keeps [I]. *)
Definition stays {St A} (I : St -> Prop) (m : M St A) : Prop := forall s, I s -> wp m s (fun _ => I).

Create HintDb stays.

Section Stays.
Context {St : Type} (I : St -> Prop).

Lemma stays_ret {A} (a : A) : stays I (mret a).
Proof. intros s Hs. by apply wp_ret. Qed.
Lemma stays_bind {A B} (m : M St A) (k : A -> M St B) : stays I m -> (forall a, stays I (k a)) -> stays I (m ≫= k).
Proof. intros Hm Hk s Hs. apply wp_bind. eapply wp_mono; [by apply Hm|]. intros a s' Hs'. by apply Hk. Qed.
Lemma stays_gets {A} (f : St -> A) : stays I (gets f).
Proof. intros s Hs. by apply wp_gets. Qed.
Lemma stays_guard b (m : M St unit) : stays I m -> stays I (guard_ok b m).
Proof. intros Hm. destruct b; [done|apply stays_ret]. Qed.
Lemma stays_if {A} (b : bool) (m m' : M St A) : stays I m -> stays I m' -> stays I (if b then m else m').
Proof. by destruct b. Qed.
Lemma stays_all {A} (l : list A) (f : A -> M St unit) : (forall x, stays I (f x)) -> stays I (for_all l f).
Proof. intros Hf. induction l as [|x l IH]; [apply stays_ret|]. by apply stays_bind. Qed.
Lemma stays_modify f : (forall s, I s -> I (f s)) -> stays I (modify f).
Proof. intros Hf s Hs. by apply wp_modify, Hf. Qed.
Lemma stays_zoom {T A} (J : T -> Prop) get put (m : M T A) :
  (forall s, I s -> J (get s)) -> (forall s t, I s -> J t -> I (put t s)) -> stays J m -> stays I (zoom get put m).
Proof. intros Hg Hp Hm s Hs. apply wp_zoom. eapply wp_mono; [by apply Hm, Hg|]. intros a t Ht. by apply Hp. Qed.
End Stays.

#[export] Hint Resolve stays_ret stays_gets stays_guard stays_if stays_all : stays.
#[export] Hint Extern 2 (stays _ (_ ≫= _)) => apply stays_bind; [|intros ?] : stays.

Section Devices.
Context {P : Type} `{Ports P} `{Mmio P} (base : Z).

Definition anything (_ : P) : Prop := True.
(** The local APIC is at [base]. *)
Definition at_base (p : plat P) : Prop := p_lapic p = base.
Definition uart_at_base (u : uartst P) : Prop := at_base (u_plat u).

Lemma stays_inb port : stays anything (inb port).
Proof. intros d _. unfold wp, inb. by destruct (port_in port d). Qed.
Lemma stays_mmio_read a : stays anything (mmio_read a).
Proof. intros d _. unfold wp, mmio_read. by destruct (mmio_rd a d). Qed.
Lemma stays_outb port v : stays anything (outb port v).
Proof. by apply stays_modify. Qed.
Lemma stays_mmio_write a v : stays anything (mmio_write a v).
Proof. by apply stays_modify. Qed.
Lemma stays_pdev {A} (m : M P A) : stays anything m -> stays at_base (pdev m).
Proof. by apply stays_zoom. Qed.
Lemma stays_uplat {A} (m : M (plat P) A) : stays at_base m -> stays uart_at_base (uplat m).
Proof. by apply stays_zoom. Qed.
#[local] Hint Resolve stays_inb stays_mmio_read stays_outb stays_mmio_write stays_pdev stays_uplat : stays.

Lemma stays_lapicr i : stays at_base (lapicr i).
Proof. unfold lapicr. auto with stays. Qed.
Lemma stays_lapicw i v : stays at_base (lapicw i v).
Proof. pose proof stays_lapicr. unfold lapicw. auto with stays. Qed.
#[local] Hint Resolve stays_lapicr stays_lapicw : stays.

Lemma stays_say msg : stays at_base (say msg).
Proof. by apply stays_modify. Qed.
Lemma stays_ioapicwrite reg v : stays anything (ioapicwrite reg v).
Proof. unfold ioapicwrite. auto with stays. Qed.
Lemma stays_ioapicread reg : stays anything (ioapicread reg).
Proof. unfold ioapicread. auto with stays. Qed.
#[local] Hint Resolve stays_say stays_ioapicwrite stays_ioapicread : stays.

Lemma stays_picinit : stays at_base picinit.
Proof. unfold picinit. auto with stays. Qed.
Lemma stays_ioapicinit : stays at_base ioapicinit.
Proof. unfold ioapicinit. auto 12 with stays. Qed.
Lemma stays_ioapicenable irq n : stays at_base (ioapicenable irq n).
Proof. unfold ioapicenable. auto with stays. Qed.
Lemma stays_lapicstartap id addr : stays at_base (lapicstartap id addr).
Proof. unfold lapicstartap. auto 20 using stays_modify with stays. Qed.
#[local] Hint Resolve stays_ioapicenable : stays.

Lemma stays_wait_ready n : stays uart_at_base (wait_ready n).
Proof. induction n as [|n IH]; cbn [wait_ready]; [apply stays_ret|]. unfold udev. auto with stays. Qed.
Lemma stays_uartinit : stays uart_at_base uartinit.
Proof. pose proof stays_wait_ready. unfold uartinit, uart_putc, udev. auto 30 using stays_modify with stays. Qed.

(** The status of the local APIC: after at most [pending] reads the message is delivered. *)
Context (pending : P -> nat) (fuel : nat).
Definition delivers : Prop :=
  forall d, (pending d < fuel)%nat /\ let '(v, d') := mmio_rd (base + 4 * ICRLO) d in Z.land (u32 v) DELIVS = 0 \/ (pending d' < pending d)%nat.
Context (Hdel : delivers).

Lemma wait_delivers n : forall p, at_base p -> (pending (p_dev p) < n)%nat -> wp (wait_delivery n) p (fun _ => at_base).
Proof.
  induction n as [|n IH]; intros p Hp Hn; [lia|]. cbn [wait_delivery]. unfold lapicr. apply wp_bind, wp_bind, wp_gets, wp_zoom. rewrite Hp.
  destruct (Hdel (p_dev p)) as [_ Hv]. unfold wp, mmio_read. destruct (mmio_rd _ _) as [v d']. destruct (Z.eqb_spec (Z.land (u32 v) DELIVS) 0); [by apply wp_ret|].
  destruct Hv as [|Hlt]; [done|]. apply IH; [done|cbn; lia].
Qed.

Lemma stays_lapicinit : stays at_base (lapicinit fuel).
Proof.
  assert (stays at_base (wait_delivery fuel)) by (intros p Hp; apply wait_delivers; [done|apply Hdel]). unfold lapicinit. auto 40 with stays.
Qed.
End Devices.

(** * Memory *)

(** An address space stays when the free list grows by pages [Y] that are not in use, and other pages keep their contents. *)
Lemma space_more kend v v' d T E U X Y l m :
  space kend v d T E U X l m -> kmem_ok kend v' (Y ++ l) -> (forall q, q ∈ Y -> q ∉ d :: tabs T ++ frames U ++ X) ->
  (forall q, q ∉ Y -> vm_mem v' !! q = vm_mem v !! q) -> space kend v' d T E U X (Y ++ l) (vm_mem v').
Proof.
  intros [Hc Hu] Hk HY Hm. split; [|done]. pose proof Hc as [_ Hd Ht Hn Ho Ha _ _].
  assert (forall q, q ∈ d :: tabs T ++ frames U ++ X -> vm_mem v' !! q = vm_mem v !! q) as Hm' by (intros q Hq; apply Hm; intros Hy; by apply (HY q)).
  split; [done| | |done| |done|done|].
  - destruct Hd as (pg & Hpg & Hw). exists pg. by rewrite Hm' by (by left).
  - intros i t Hi. destruct (Ht i t Hi) as [Hlt (pg & Hpg & Hw)]. split; [done|]. exists pg. rewrite Hm'; [done|].
    rewrite elem_of_cons, elem_of_app. right; left. apply elem_of_tabs. by exists i.
  - pose proof (km_nodup _ _ _ Hk) as (Hy & Hyl & _)%list.NoDup_app.
    assert (Y ++ d :: tabs T ++ (frames U ++ X) ++ l ≡ₚ d :: tabs T ++ (frames U ++ X) ++ Y ++ l) as <- by solve_Permutation.
    apply list.NoDup_app. split; [done|]. split; [|done]. intros q Hq Hin. specialize (HY q Hq). specialize (Hyl q Hq).
    rewrite !elem_of_cons, !elem_of_app in *. tauto.
  - intros q Hq. rewrite Hm' by (rewrite elem_of_cons, elem_of_app; tauto). by apply (core_loose kend v d T E (frames U ++ X) l m).
Qed.

(** A page below the kernel is no page of an address space. *)
Lemma space_below kend v d T E U X l q pg :
  space kend v d T E U X l (vm_mem v) -> q < kend -> page_ok pg ->
  let v' := set_mem (<[q := pg]> (vm_mem v)) v in space kend v' d T E U X l (vm_mem v').
Proof.
  intros [Hc Hu] Hq Hpg v'. split; [|done]. apply core_write; [done| | |done]; intros Hin.
  - assert (allocatable kend q) as (_ & Ha & _); [|lia]. apply (co_alloc _ _ _ _ _ _ _ _ Hc). rewrite elem_of_cons, elem_of_app in *. tauto.
  - destruct (fl_allocatable kend _ _ _ q (km_list _ _ _ (co_kmem _ _ _ _ _ _ _ _ Hc)) Hin) as (_ & Ha & _). lia.
Qed.

Section Memory.
Context (kend kdata : Z).
(** The kernel leaves room below 4 MB for its page tables and the stacks of the other processors. *)
Context (Hkend : KERNLINK <= kend <= P2V (4 * 1024 * 1024) - 520 * 4096).

Definition low_pages : list Z := pages_of (PGROUNDUP kend) (Z.to_nat ((P2V (4 * 1024 * 1024) - PGROUNDUP kend) / 4096)).
Definition high_pages : list Z := pages_of (P2V (4 * 1024 * 1024)) (Z.to_nat ((PHYSTOP - 4 * 1024 * 1024) / 4096)).

(** The memory when [main] is called: nothing is allocated, and the pages are there. *)
Record raw_memory (v : vmst) : Prop := {
  rw_free : freelist v = 0;
  rw_pages : map_Forall (fun _ => page_ok) (vm_mem v);
  rw_all q : q ∈ low_pages ++ high_pages ++ [code; below_code] -> is_Some (vm_mem v !! q);
}.

Lemma low_pages_spec q : q ∈ low_pages -> allocatable kend q /\ q < P2V (4 * 1024 * 1024).
Proof.
  unfold low_pages. rewrite elem_of_pages_of. intros (i & Hi & ->). change (P2V (4 * 1024 * 1024)) with 2151677952 in *.
  unfold KERNLINK, KERNBASE, EXTMEM in *. rewrite PGROUNDUP_spec in * by lia. unfold allocatable, KERNBASE, PHYSTOP. elia.
Qed.

Lemma length_pages_of n : forall p, length (pages_of p n) = n.
Proof. induction n as [|n IH]; intros p; cbn; [done|]. rewrite length_app, IH. cbn. lia. Qed.

Lemma low_pages_count : (520 <= length low_pages)%nat.
Proof.
  unfold low_pages. rewrite length_pages_of.
  change (P2V (4 * 1024 * 1024)) with 2151677952 in *. unfold KERNLINK, KERNBASE, EXTMEM in *. rewrite PGROUNDUP_spec by lia. elia.
Qed.

Lemma high_pages_spec q : q ∈ high_pages -> allocatable kend q /\ P2V (4 * 1024 * 1024) <= q.
Proof.
  unfold high_pages. rewrite elem_of_pages_of. intros (i & Hi & ->). change (P2V (4 * 1024 * 1024)) with 2151677952 in *.
  change ((PHYSTOP - 4 * 1024 * 1024) / 4096) with 56320 in *. unfold allocatable, KERNBASE, PHYSTOP. elia.
Qed.

Lemma low_pages_eq : low_pages = pages_of (PGROUNDUP kend) (Z.to_nat ((P2V (4 * 1024 * 1024) - PGROUNDUP kend) / 4096)).
Proof. reflexivity. Qed.
Lemma high_pages_eq : high_pages = pages_of (P2V (4 * 1024 * 1024)) (Z.to_nat ((PHYSTOP - 4 * 1024 * 1024) / 4096)).
Proof. reflexivity. Qed.

Lemma high_pages_count : (2048 <= length high_pages)%nat.
Proof. unfold high_pages. rewrite length_pages_of. change ((PHYSTOP - 4 * 1024 * 1024) / 4096) with 56320. lia. Qed.

#[global] Opaque low_pages high_pages.

Lemma low_disjoint q : q ∈ low_pages -> q ∉ high_pages ++ [code; below_code].
Proof.
  intros [(_ & Hk & _) Hl]%low_pages_spec. rewrite elem_of_app, !elem_of_cons, elem_of_nil. intros [[_ Hh]%high_pages_spec|Hq]; [lia|].
  change code with 2147512320 in *. change below_code with 2147508224 in *. unfold KERNLINK, KERNBASE, EXTMEM in *. lia.
Qed.

Lemma below_kernel : code < kend /\ below_code < kend.
Proof. change code with 2147512320. change below_code with 2147508224. unfold KERNLINK, KERNBASE, EXTMEM in *. lia. Qed.

Lemma wp_kinit1 v (Q : unit -> vmst -> Prop) : raw_memory v ->
  (forall v', kmem_ok kend v' low_pages -> (forall q, q ∈ high_pages ++ [code; below_code] -> is_Some (vm_mem v' !! q)) -> Q tt v') ->
  wp (kinit1 kend kend (P2V (4 * 1024 * 1024))) v Q.
Proof.
  intros [Hf Hp Ha] HQ. unfold kinit1. apply wp_bind, wp_modify.
  eapply (wp_freerange kend (Z.to_nat ((P2V (4 * 1024 * 1024) - PGROUNDUP kend) / 4096)) kend); rewrite <- ?low_pages_eq.
  - split; [cbn; rewrite Hf; constructor|apply NoDup_nil_2|exact Hp].
  - change (P2V (4 * 1024 * 1024)) with 2151677952 in *. unfold KERNLINK, KERNBASE, EXTMEM in *. rewrite PGROUNDUP_spec by lia. elia.
  - intros q Hq. split; [by apply low_pages_spec|]. split; [apply not_elem_of_nil|]. apply Ha, elem_of_app. by left.
  - intros v' Hk Hd _. rewrite app_nil_r in Hk. apply HQ; [done|]. intros q Hq. apply elem_of_dom. rewrite Hd. apply elem_of_dom, Ha, elem_of_app. by right.
Qed.

Definition kernel_map : Z -> Z := foldl map_region (fun _ => 0) (kmap kdata).

(** The memory below 4 MB is the kernel's directory [d] with its tables, the stacks [X], and the free pages [l]; the rest is not in use yet. *)
Record kernel_memory (v : vmst) (d : Z) (T : gmap nat Z) (X l : list Z) : Prop := {
  ks_space : space kend v d T kernel_map ∅ X l (vm_mem v);
  ks_low : d :: tabs T ++ X ++ l ≡ₚ low_pages;
  ks_more q : q ∈ high_pages ++ [code; below_code] -> is_Some (vm_mem v !! q);
}.

(** A stack for another processor. *)
Lemma wp_stack v d T X l (Q : Z -> vmst -> Prop) : kernel_memory v d T X l -> (0 < length l)%nat ->
  (forall p l' v', l = p :: l' -> kernel_memory v' d T (p :: X) l' -> Q p v') -> wp kalloc v Q.
Proof.
  intros [Hs HP Hm] Hl HQ. eapply wp_space_kalloc; [exact Hs|intros ->; cbn in Hl; lia|]. intros p l' pg q -> v' _ _ Hs' _ _. apply (HQ p l' v'); [done|]. split; [by eapply space_self| |done].
  rewrite <- HP. solve_Permutation.
Qed.

Lemma kernel_memory_page v d T X l q : kernel_memory v d T X l -> q ∈ [code; below_code] -> exists pg, vm_mem v !! q = Some pg /\ page_ok pg.
Proof.
  intros [Hs _ Hm] Hq. destruct (Hm q) as [pg Hpg]; [apply elem_of_app; by right|]. exists pg. split; [done|].
  by apply (km_pages _ _ _ (co_kmem _ _ _ _ _ _ _ _ (proj1 Hs))) in Hpg.
Qed.

(** A write to the code of the other processors or to the words below it. *)
Lemma kernel_memory_write v d T X l q pg : kernel_memory v d T X l -> q ∈ [code; below_code] -> page_ok pg ->
  kernel_memory (set_mem (<[q := pg]> (vm_mem v)) v) d T X l.
Proof.
  intros [Hs HP Hm] Hq Hpg. split; [|done|].
  - apply space_below; [done| |done]. destruct below_kernel. rewrite !elem_of_cons, elem_of_nil in Hq. naive_solver.
  - intros r Hr. cbn [vm_mem set_mem]. destruct (decide (r = q)) as [->|]; [by rewrite lookup_insert_eq|]. rewrite lookup_insert_ne by done. by apply Hm.
Qed.

Lemma wp_kinit2 v d T X l (Q : unit -> vmst -> Prop) : kernel_memory v d T X l ->
  (forall v', space kend v' d T kernel_map ∅ X (high_pages ++ l) (vm_mem v') -> Q tt v') ->
  wp (kinit2 kend (P2V (4 * 1024 * 1024)) (P2V PHYSTOP)) v Q.
Proof.
  intros [Hs HP Hm] HQ. unfold kinit2. apply wp_bind.
  assert (forall q, q ∈ high_pages -> q ∉ d :: tabs T ++ X ++ l) as Hdis.
  { intros q Hq. rewrite HP. intros Hin. apply (low_disjoint q Hin), elem_of_app. left. exact Hq. }
  eapply (wp_freerange kend (Z.to_nat ((PHYSTOP - 4 * 1024 * 1024) / 4096))); change (PGROUNDUP (P2V (4 * 1024 * 1024))) with (P2V (4 * 1024 * 1024)); rewrite <- ?high_pages_eq.
  - apply Hs.
  - change (P2V (4 * 1024 * 1024)) with 2151677952. change (P2V PHYSTOP) with 2382364672. change ((PHYSTOP - 4 * 1024 * 1024) / 4096) with 56320. lia.
  - intros q Hq. split; [by apply high_pages_spec|]. split; [|apply Hm, elem_of_app; by left]. intros Hl. apply (Hdis q Hq). rewrite elem_of_cons, !elem_of_app. auto.
  - intros v1 Hk _ Hsame. apply wp_modify, HQ.
    assert (space kend v1 d T kernel_map ∅ X (high_pages ++ l) (vm_mem v1)) as [Hc Hu].
    { eapply space_more; [exact Hs|done| |done]. intros q Hq Hin. apply (Hdis q Hq). change (frames ∅ ++ X) with X in Hin. rewrite elem_of_cons, elem_of_app in Hin. rewrite elem_of_cons, !elem_of_app. tauto. }
    split; [|done]. destruct Hc as [[] ? ? ? ? ? ? ?]. by split; [split|..].
Qed.
Context (Hkdata : kdata mod 4096 = 0) (Hkdata_range : KERNLINK < kdata < KERNBASE + PHYSTOP).

Lemma wp_kernel_directory v (Q : Z -> vmst -> Prop) :
  kmem_ok kend v low_pages -> (forall q, q ∈ high_pages ++ [code; below_code] -> is_Some (vm_mem v !! q)) ->
  (forall v' d T l, kernel_memory v' d T [] l -> d <> 0 -> (7 <= length l)%nat -> Q d v') -> wp (setupkvm kend kdata) v Q.
Proof.
  intros Hk Hm HQ. pose proof low_pages_count as Hn. apply (wp_setupkvm kend kdata v low_pages (vm_mem v)); [done|done|done|done| |].
  - intros v' d T l Hs Hd HP HT. apply (HQ v' d T l); [split|done|].
    + by eapply space_self.
    + done.
    + intros q Hq. rewrite (co_rest _ _ _ _ _ _ _ _ (proj1 Hs)); [by apply Hm| |]; intros Hin.
      * assert (q ∈ low_pages) as Hl by (rewrite <- HP, elem_of_cons, elem_of_app; rewrite elem_of_cons in Hin; tauto). exact (low_disjoint q Hl Hq).
      * assert (q ∈ low_pages) as Hl by (rewrite <- HP, elem_of_cons, elem_of_app; tauto). exact (low_disjoint q Hl Hq).
    + apply Permutation_length in HP. cbn [length] in HP. rewrite length_app in HP. lia.
  - intros v' l' _ _ _ Hl. lia.
Qed.
End Memory.

(** * The processors *)

Lemma Forall2_mono_in {A B} (R R' : A -> B -> Prop) l k : (forall x y, x ∈ l -> R x y -> R' x y) -> Forall2 R l k -> Forall2 R' l k.
Proof. intros HR Hl. induction Hl as [|x y l k Hx Hl IH]; constructor; [apply HR; [by left|done]|]. apply IH. intros x' y' Hin. apply HR. by right. Qed.

(** Processor [c] has loaded the tables: its own segments, the gates, and the kernel's page directory. *)
Record loaded (gdt_at : nat -> Z) (idt_at : Z) (c : nat) (d : Z) (m : mach) : Prop := {
  ld_gdt : Seg.table (m_gdtr m) = Some (gdt_at c, 47);
  ld_idt : Seg.table (m_idtr m) = Some (idt_at, 2047);
  ld_cr3 : m_cr3 m = V2P d;
  ld_cli : c_if (m_cpu m) = false /\ c_ncli (m_cpu m) = 0;
}.

Section Processors.
Context {H P : Type} `{Ata H} `{!AtaLaws H} `{Ports P} `{Mmio P}.
Context (lapic_fuel : nat) (base : Z) (pending : P -> nat) (Hdel : delivers base pending lapic_fuel).
Context (ids : list Z) (gdt_at : nat -> Z) (idt_at : Z) (Hnd : NoDup ids) (Hncpu : (length ids <= 8)%nat).
Context (Hgdt_at : forall c, (c < 8)%nat -> 0 <= gdt_at c < 2 ^ 32) (Hidt_at : 0 <= idt_at < 2 ^ 32).
Abbreviation st := (boot H P).
Implicit Types s : st.

Definition set_plat p s : st := set_uart (Uart (b_uart s) p) s.

Lemma wp_plat {A} (m : M (plat P) A) s (Q : A -> st -> Prop) :
  stays (at_base base) m -> at_base base (b_plat s) -> (forall a p, at_base base p -> Q a (set_plat p s)) -> wp (plat_ m) s Q.
Proof. intros Hm Hs HQ. apply wp_zoom, wp_zoom. eapply wp_mono; [by apply Hm|]. intros a p Hp. by apply HQ. Qed.

Lemma wp_mach {A} (m : M mach A) s (Q : A -> st -> Prop) : wp m (b_mach s) (fun a v => Q a (set_bmach v s)) -> wp (mach_ m) s Q.
Proof. apply wp_zoom. Qed.

Lemma wp_mem {A} (m : M vmst A) s (Q : A -> st -> Prop) :
  wp m (k_vm (b_kern s)) (fun a v => Q a (set_bkern (set_vm v (b_kern s)) s)) -> wp (mem_ m) s Q.
Proof. intros Hw. apply wp_zoom, wp_zoom. exact Hw. Qed.

(** [mpinit] has recorded the processors [ids]. *)
Definition recorded s : Prop := b_ncpu s = Z.of_nat (length ids) /\ length (b_cpus s) = 8%nat /\ take (length ids) (b_cpus s) = ids.

Lemma wp_apicids s (Q : list Z -> st -> Prop) : recorded s -> Q ids s -> wp apicids s Q.
Proof. intros (Hn & _ & Ht) HQ. apply wp_gets. by rewrite Hn, Nat2Z.id, Ht. Qed.

Lemma recorded_lookup s c hw : recorded s -> ids !! c = Some hw -> b_cpus s !! c = Some hw.
Proof. intros (_ & _ & Ht) Hc. rewrite <- Ht in Hc. by apply lookup_take_Some in Hc as [? _]. Qed.

Lemma found_at c hw : ids !! c = Some hw -> list_find (eq hw) ids = Some (c, hw).
Proof.
  intros Hc. apply list_find_Some. split; [done|]. split; [done|]. intros j y Hj Hlt ->. assert (j = c) by (by eapply NoDup_lookup). lia.
Qed.

Lemma wp_mpmain c hw s (Q : unit -> st -> Prop) :
  recorded s -> ids !! c = Some hw -> c_if (m_cpu (b_mach s)) = false -> length (b_started s) = 8%nat ->
  Q tt (set_started (<[c := 1]> (b_started s)) (set_bmach (set_idtr (pseudo_desc idt_at 2048) (b_mach s)) (set_said (b_said s ++ [c]) s))) ->
  wp (mpmain idt_at hw) s Q.
Proof.
  intros Hr Hc Hif Hl HQ. pose proof (found_at c hw Hc) as Hf. assert (c < 8)%nat by (apply lookup_lt_Some in Hc; lia). unfold mpmain.
  apply wp_bind, wp_apicids; [done|]. apply wp_bind, wp_mach. eapply wp_cpuid; [exact Hf|done|]. apply wp_bind, wp_modify, wp_bind, wp_mach, wp_modify, wp_bind, wp_mach.
  eapply wp_cpuid; [exact Hf|done|]. apply wp_bind, wp_gets. cbn [set_bmach set_said b_started]. rewrite Hl, (proj2 (Nat.ltb_lt _ _)) by done.
  apply wp_bind, wp_ret, wp_modify. cbn [b_said b_mach set_bmach set_said] in HQ |- *. by destruct s.
Qed.

(** A processor that enters at [mpenter]. *)
Lemma wp_mpenter c hw s d gdt (Q : unit -> st -> Prop) :
  recorded s -> ids !! c = Some hw -> at_base base (b_plat s) -> m_kpgdir (b_mach s) = d -> m_gdts (b_mach s) !! c = Some gdt -> length gdt = NSEGS ->
  c_if (m_cpu (b_mach s)) = false -> c_ncli (m_cpu (b_mach s)) = 0 -> length (b_started s) = 8%nat ->
  (forall gdt' r r' p, let m := set_idtr r' (set_gdtr r (set_gdts (<[c := gdt']> (m_gdts (b_mach s))) (set_cr3 (V2P d) (b_mach s)))) in
     segments gdt' -> loaded gdt_at idt_at c d m -> at_base base p ->
     Q tt (set_started (<[c := 1]> (b_started s)) (set_said (b_said s ++ [c]) (set_plat p (set_bmach m s))))) ->
  wp (mpenter lapic_fuel gdt_at idt_at hw) s Q.
Proof.
  intros Hr Hc Hp Hd Hg Hgl Hif Hcli Hl HQ. pose proof (found_at c hw Hc) as Hf. assert (c < 8)%nat as Hc8 by (apply lookup_lt_Some in Hc; lia). unfold mpenter.
  apply wp_bind, wp_mach. unfold switchkvm. apply wp_bind, wp_gets, wp_modify. rewrite Hd. replace (u32 (V2P d)) with (V2P d) by (by rewrite u32_small by apply u32_range).
  apply wp_bind, wp_apicids; [done|]. apply wp_bind, wp_mach. eapply wp_mono; [eapply (wp_seginit ids hw gdt_at c Hf (Hgdt_at c Hc8)); [exact Hif|exact Hg|done]|].
  intros [] m1 ([Ht (gdt1 & Hg1 & Hsg)] & gdt' & r & ->). cbn [m_gdts set_gdtr set_gdts set_cr3 set_bmach b_mach] in Hg1.
  rewrite list_lookup_insert_eq in Hg1 by (by eapply lookup_lt_Some). injection Hg1 as ->.
  apply wp_bind, wp_plat; [by eapply stays_lapicinit|done|]. intros _ p Hp'. eapply (wp_mpmain c hw); [done|done|done|done|].
  specialize (HQ gdt1 r (pseudo_desc idt_at 2048) p Hsg). assert (forall (a b : st), a = b -> Q tt a -> Q tt b) as HQe by (by intros ? ? ->). eapply HQe, HQ; [by destruct s| |done].
  split; [done|by apply table_pseudo|done|done].
Qed.

(** ** The other processors *)
Context (ap_dev : nat -> P) (mpenter_at entrypgdir_at : Z) (Hmpenter : 0 <= mpenter_at < 2 ^ 32).

(** A processor that runs the code reads its stack, its directory and where to go from the words below. *)
Lemma wp_run_ap c hw s page d gdt (Q : unit -> st -> Prop) :
  vm_mem (k_vm (b_kern s)) !! below_code = Some page -> word_at page 1022 = mpenter_at ->
  recorded s -> ids !! c = Some hw -> at_base base (b_plat s) -> m_kpgdir (b_mach s) = d -> m_gdts (b_mach s) !! c = Some gdt -> length gdt = NSEGS -> length (b_started s) = 8%nat ->
  (forall gdt' m p, segments gdt' -> loaded gdt_at idt_at c d m -> at_base base p ->
     Q tt (set_started (<[c := 1]> (b_started s)) (set_said (b_said s ++ [c]) (set_plat p
       (set_aps (<[c := Ap (word_at page 1023) (word_at page 1021) m]> (b_aps s)) (set_bmach (set_gdts (<[c := gdt']> (m_gdts (b_mach s))) (b_mach s)) s)))))) ->
  wp (run_ap lapic_fuel ap_dev gdt_at idt_at mpenter_at c hw) s Q.
Proof.
  intros Hpg Hentry Hr Hc Hp Hd Hg Hgl Hl HQ. unfold run_ap. apply wp_bind, wp_mem. eapply wp_page_at; [exact Hpg|]. rewrite Hentry, Z.eqb_refl. apply wp_bind, wp_ret.
  apply wp_bind, wp_gets, wp_bind, wp_gets, wp_bind, wp_modify, wp_bind, wp_plat; [by apply stays_modify|exact Hp|]. intros _ p1 Hp1. apply wp_bind.
  eapply (wp_mpenter c hw _ d gdt); [exact Hr|exact Hc|exact Hp1|exact Hd|exact Hg|done|done|done|exact Hl|]. intros gdt' r r' p m Hsg Hld Hp2.
  apply wp_bind, wp_gets, wp_bind, wp_modify, wp_bind, wp_plat; [by apply stays_modify|exact Hp2|]. intros _ p3 Hp3. apply wp_modify.
  specialize (HQ gdt' m p3 Hsg Hld Hp3). assert (forall (a b : st), a = b -> Q tt a -> Q tt b) as HQe by (by intros ? ? ->). eapply HQe, HQ.
  destruct s as [k0 m0 a0 c0 n0 s0 pl0 u0 l0 d0 lk0 sd0]. by destruct k0, m0, pl0.
Qed.

Context (kend kdata : Z) (entryother : list Z).
Context (Hkend : KERNLINK <= kend <= P2V (4 * 1024 * 1024) - 520 * 4096) (Hcode : (length entryother <= 4096)%nat) (Hcode_ok : bytes_ok entryother).
Context (hw0 : Z) (me : nat) (Hme : ids !! me = Some hw0).

(** The three words below the code. *)
Definition ap_words (stack : Z) (page : list Z) : list Z :=
  set_word (set_word (set_word page 1023 (u32 (stack + KSTACKSIZE))) 1022 mpenter_at) 1021 (V2P entrypgdir_at).

Lemma ap_words_ok stack page : page_ok page -> page_ok (ap_words stack page) /\ word_at (ap_words stack page) 1023 = u32 (stack + KSTACKSIZE) /\
  word_at (ap_words stack page) 1022 = mpenter_at /\ word_at (ap_words stack page) 1021 = V2P entrypgdir_at.
Proof.
  intros Hpg. pose proof (page_ok_set_word page 1023 (u32 (stack + KSTACKSIZE)) Hpg ltac:(lia)) as Hw1. pose proof (page_ok_set_word _ 1022 mpenter_at Hw1 ltac:(lia)) as Hw2.
  pose proof (page_ok_set_word _ 1021 (V2P entrypgdir_at) Hw2 ltac:(lia)) as Hw3. unfold ap_words. split; [done|]. destruct Hpg, Hw1, Hw2.
  split_and!; repeat (rewrite word_at_set_other by lia); apply word_at_set_small; try lia; apply u32_range.
Qed.

Definition others (k : nat) : list nat := filter (fun c => c <> me) (seq 0 k).

Lemma others_S k : others (S k) = others k ++ (if decide (k = me) then [] else [k]).
Proof.
  unfold others. rewrite seq_S, filter_app, filter_cons, filter_nil. change (0 + k)%nat with k. f_equal.
  destruct (decide (k = me)); [by rewrite decide_False by tauto|by rewrite decide_True].
Qed.

Lemma others_few k : (k < length ids)%nat -> k <> me -> (length (others k) <= 6)%nat.
Proof.
  intros Hk Hne. assert (me < length ids)%nat by (by eapply lookup_lt_Some). enough (length (others k ++ [k; me]) <= length (seq 0 8))%nat as Hlen by (rewrite length_app in Hlen; cbn in Hlen; lia).
  apply submseteq_length, NoDup_submseteq.
  - apply list.NoDup_app. split; [apply NoDup_filter, NoDup_seq|]. split.
    + intros x (Hx & Hin)%list_elem_of_filter. apply elem_of_seq in Hin. rewrite !elem_of_cons, elem_of_nil. lia.
    + rewrite NoDup_cons, list_elem_of_singleton. split; [done|apply NoDup_singleton].
  - intros x. unfold others. rewrite elem_of_app, list_elem_of_filter, elem_of_seq, !elem_of_cons, elem_of_nil, elem_of_seq. lia.
Qed.

(** Processor [c] is up, on the stack that ends at [p + KSTACKSIZE]. *)
Definition ap_up (d : Z) s (c : nat) (p : Z) : Prop :=
  (exists m, b_aps s !! c = Some (Ap (u32 (p + KSTACKSIZE)) (V2P entrypgdir_at) m) /\ loaded gdt_at idt_at c d m) /\
  b_started s !! c = Some 1 /\ exists gdt, m_gdts (b_mach s) !! c = Some gdt /\ segments gdt.

(** From [s0], the processors below [k] have been started. *)
Record started_upto (s0 : st) (d : Z) (T : gmap nat Z) (k : nat) s : Prop := {
  su_kern : b_kern s = set_vm (k_vm (b_kern s)) (b_kern s0);
  su_mach : b_mach s = set_gdts (m_gdts (b_mach s)) (b_mach s0);
  su_gdts : forall c, (c < 8)%nat -> exists gdt, m_gdts (b_mach s) !! c = Some gdt /\ length gdt = NSEGS;
  su_mine : m_gdts (b_mach s) !! me = m_gdts (b_mach s0) !! me;
  su_cpus : recorded s;
  su_plat : at_base base (b_plat s);
  su_same : b_locks s = b_locks s0 /\ b_devsw s = b_devsw s0 /\ b_locking s = b_locking s0;
  su_started : length (b_started s) = 8%nat;
  su_said : b_said s = b_said s0 ++ others k;
  su_aps : exists X l, kernel_memory kend kdata (k_vm (b_kern s)) d T X l /\ (7 <= length X + length l)%nat /\ Forall2 (ap_up d s) (others k) (reverse X);
}.

(** Starting one more processor leaves those that are up alone. *)
Lemma ap_up_keep d s s' c k p : c <> k ->
  (forall x, x <> k -> b_aps s' !! x = b_aps s !! x /\ b_started s' !! x = b_started s !! x /\ m_gdts (b_mach s') !! x = m_gdts (b_mach s) !! x) ->
  ap_up d s c p -> ap_up d s' c p.
Proof. intros Hne Hsame. unfold ap_up. by destruct (Hsame c Hne) as (-> & -> & ->). Qed.

Lemma wp_start_words {A} s d T X l stack (K : M st A) (Q : A -> st -> Prop) : kernel_memory kend kdata (k_vm (b_kern s)) d T X l ->
  (forall v page, page_ok page -> vm_mem v !! below_code = Some (ap_words stack page) -> kernel_memory kend kdata v d T X l -> wp K (set_bkern (set_vm v (b_kern s)) s) Q) ->
  wp (mem_ (page_upd below_code (fun l => set_word l 1023 (u32 (stack + KSTACKSIZE)))) ;; mem_ (page_upd below_code (fun l => set_word l 1022 mpenter_at)) ;;
    mem_ (page_upd below_code (fun l => set_word l 1021 (V2P entrypgdir_at))) ;; K) s Q.
Proof.
  intros Hk HQ. destruct (kernel_memory_page _ _ _ _ _ _ _ below_code Hk) as (page & Hpg & Hok); [set_solver|].
  apply wp_bind, wp_mem. eapply wp_page_upd; [exact Hpg|]. apply wp_bind, wp_mem. eapply wp_page_upd; [apply lookup_insert_eq|]. apply wp_bind, wp_mem. eapply wp_page_upd; [apply lookup_insert_eq|].
  cbn [b_kern set_bkern k_vm set_vm]. unfold set_mem. cbn [vm_mem freelist use_lock]. rewrite !insert_insert_eq. 
  refine (HQ (set_mem (<[below_code := ap_words stack page]> (vm_mem (k_vm (b_kern s)))) (k_vm (b_kern s))) page Hok _ _); [apply lookup_insert_eq|].
  eapply (kernel_memory_write kend kdata Hkend); [exact Hk|set_solver|by apply ap_words_ok].
Qed.

Abbreviation start := (start_cpu lapic_fuel hw0 ap_dev gdt_at idt_at mpenter_at entrypgdir_at).

(** The boot processor is not started again. *)
Lemma started_skip s0 d T k s : k = me -> started_upto s0 d T k s -> started_upto s0 d T (S k) s.
Proof. intros Hk []. split; try done; by rewrite others_S, decide_True, app_nil_r. Qed.

(** One more processor is up. *)
Lemma started_more s0 d T k s v X p l gdt m pl : k <> me -> (k < 8)%nat ->
  started_upto s0 d T k s -> kernel_memory kend kdata v d T (p :: X) l -> (7 <= length X + S (length l))%nat -> Forall2 (ap_up d s) (others k) (reverse X) ->
  segments gdt -> loaded gdt_at idt_at k d m -> at_base base pl ->
  started_upto s0 d T (S k) (set_started (<[k := 1]> (b_started s)) (set_said (b_said s ++ [k]) (set_plat pl
    (set_aps (<[k := Ap (u32 (p + KSTACKSIZE)) (V2P entrypgdir_at) m]> (b_aps s)) (set_bmach (set_gdts (<[k := gdt]> (m_gdts (b_mach s))) (b_mach s)) (set_bkern (set_vm v (b_kern s)) s)))))).
Proof.
  intros Hkm Hk8 [Hkern Hmach Hgdts Hmine Hcpus Hplat Hsame Hstd Hsaid _] Hmem Hlen Hup Hsg Hld Hpl. destruct (Hgdts k Hk8) as (g0 & Hg0 & _).
  assert (k < length (m_gdts (b_mach s)))%nat as Hkl by (by eapply lookup_lt_Some). split; cbn -[others reverse ap_up]; try done.
  - by rewrite Hkern.
  - by rewrite Hmach.
  - intros c Hc. destruct (decide (c = k)) as [->|Hne]; [rewrite list_lookup_insert_eq by done; exists gdt; split; [done|apply Hsg]|]. rewrite list_lookup_insert_ne by done. by apply Hgdts.
  - by rewrite list_lookup_insert_ne.
  - by rewrite length_insert.
  - by rewrite Hsaid, others_S, decide_False, <- app_assoc.
  - exists (p :: X), l. split; [done|]. split; [cbn; lia|]. rewrite others_S, decide_False, reverse_cons by done. apply Forall2_app.
    + eapply Forall2_mono_in; [|exact Hup]. intros c q Hc. assert (c < k)%nat as Hck by (apply list_elem_of_filter in Hc as [_ Hc]; apply elem_of_seq in Hc; lia).
      apply (ap_up_keep d s _ c k); [lia|]. intros x Hx. cbn. by rewrite lookup_insert_ne, !list_lookup_insert_ne by done.
    + constructor; [|constructor]. split; [exists m; cbn; by rewrite lookup_insert_eq|]. cbn. rewrite !list_lookup_insert_eq by lia. split; [done|]. by exists gdt.
Qed.

Lemma wp_start_cpu s0 d T k s : (k < length ids)%nat -> m_kpgdir (b_mach s0) = d -> c_if (m_cpu (b_mach s0)) = false ->
  started_upto s0 d T k s -> wp (start k) s (fun _ => started_upto s0 d T (S k)).
Proof.
  intros Hk Hd Hif Hs. pose proof Hs as [Hkern Hmach Hgdts Hmine Hcpus Hplat Hsame Hstd Hsaid (X & l & Hmem & Hlen & Hup)]. unfold start_cpu.
  apply wp_bind, wp_apicids; [done|]. apply wp_bind, wp_mach. eapply wp_cpuid; [by apply found_at|by rewrite Hmach|]. replace (set_bmach (b_mach s) s) with s by (by destruct s).
  destruct (decide (k = me)) as [Hkm|Hkm]; [apply wp_ret; by apply started_skip|].
  destruct (lookup_lt_is_Some_2 ids k Hk) as [hw Hhw]. assert (k < 8)%nat as Hk8 by lia. destruct (Hgdts k Hk8) as (gdt & Hg & Hgl).
  assert (length X = length (others k)) as HX by (apply Forall2_length in Hup; rewrite length_reverse in Hup; lia). pose proof (others_few k Hk Hkm).
  apply wp_bind, wp_mem. eapply (wp_stack kend kdata); [exact Hmem|lia|]. intros p l' v1 -> Hmem1.
  eapply wp_start_words; [exact Hmem1|]. intros v2 page Hpg Hw Hmem2. apply wp_bind, wp_gets, wp_bind. eapply wp_deref; [by apply recorded_lookup|].
  apply wp_bind, wp_plat; [apply stays_lapicstartap|exact Hplat|]. intros _ pl Hpl. destruct (ap_words_ok p page Hpg) as (_ & E1 & E2 & E3).
  eapply (wp_run_ap k hw _ _ d gdt); [exact Hw|done|exact Hcpus|exact Hhw|exact Hpl| |exact Hg|done|exact Hstd|]; [cbn; by rewrite Hmach|].
  intros gdt' m pl' Hsg Hld Hpl'. rewrite E1, E3. eapply (started_more s0 d T k s v2 X p l' gdt' m pl'); done.
Qed.

Lemma wp_startothers s0 d T l (Q : unit -> st -> Prop) :
  kernel_memory kend kdata (k_vm (b_kern s0)) d T [] l -> (7 <= length l)%nat -> recorded s0 -> at_base base (b_plat s0) -> m_kpgdir (b_mach s0) = d ->
  c_if (m_cpu (b_mach s0)) = false -> (forall c, (c < 8)%nat -> exists gdt, m_gdts (b_mach s0) !! c = Some gdt /\ length gdt = NSEGS) -> length (b_started s0) = 8%nat ->
  (forall s, started_upto s0 d T (length ids) s -> Q tt s) ->
  wp (startothers entryother lapic_fuel hw0 ap_dev gdt_at idt_at mpenter_at entrypgdir_at) s0 Q.
Proof.
  intros Hmem Hl Hr Hp Hd Hif Hg Hst HQ. unfold startothers. destruct (kernel_memory_page _ _ _ _ _ _ _ code Hmem) as (page & Hpg & Hok); [set_solver|].
  apply wp_bind, wp_mem. eapply wp_page_upd; [exact Hpg|]. apply wp_bind, wp_gets. pose proof Hr as (Hn & _ & _). cbn [b_ncpu set_bkern]. rewrite Hn.
  apply (wp_for_range _ _ (started_upto s0 d T)).
  - split; cbn [b_kern b_mach b_plat b_cpus b_ncpu b_started b_said b_locks b_devsw b_locking set_bkern]; try done.
    + by destruct (b_mach s0).
    + by rewrite app_nil_r.
    + exists [], l. split; [|by split; [cbn|constructor]]. eapply (kernel_memory_write kend kdata Hkend); [exact Hmem|set_solver|]. destruct Hok as [Hpl Hpb].
      split; [by rewrite length_splice by lia|by apply Forall_splice].
  - intros k s Hk Hs. rewrite Nat2Z.id. by apply wp_start_cpu.
  - exact HQ.
Qed.
End Processors.

(** * The first process *)

Definition root_inode : inode := Inode ROOTDEV ROOTINO 1 (Sleeplock 0 0) 0 (Some XV6FS) 0 0 0 0 0 (Some (XAddrs 0)).

(** The file system with the root directory in the inode cache, before anything has been read. *)
Definition root_cached {D} (lg : logst D) : fsst D :=
  let s := fs_bss lg in Fsst lg (fs_sb s) (fs_ext2_sb s) (<[0%nat := root_inode]> (fs_inode s)) (<[0%nat := Addrs 1 (replicate 13 0)]> (fs_xaddrs s)) (fs_eaddrs s).

Lemma namei_root {D} `{DiskDriver D} (lg : logst D) junk : namei (fun _ => None) 0 junk root_path (fs_bss lg) = Ok (Some 0%nat) (root_cached lg).
Proof. reflexivity. Qed.

Definition init_proc (pgdir kstack : Z) : proc :=
  Kernel.Proc PGSIZE pgdir kstack RUNNABLE 1 None init_tf None 0 (replicate NOFILE None) (Some 0%nat) (initcode_name ++ replicate 8 0).

(** The first page of the first process. *)
Definition init_page (initcode : list Z) : list Z := splice 0 initcode (fill_page 0).

Section Init.
Context (kend kdata : Z) (Hkdata : kdata mod 4096 = 0) (Hkdata_range : KERNLINK < kdata < KERNBASE + PHYSTOP).
Context (initcode : list Z) (Hcode : (length initcode < 4096)%nat) (Hcode_ok : bytes_ok initcode).

(** The pages [l] have become the directory [d'] and the tables of the first process, its page [f], its kernel stack, and the free list [l']; the kernel
    directory [d] is as before. *)
Definition init_memory (v : vmst) (d : Z) (T : gmap nat Z) (X l : list Z) (d' stack : Z) : Prop :=
  exists T' f l', d' :: tabs T' ++ f :: stack :: l' ≡ₚ l /\
    space kend v d T (kernel_map kdata) ∅ (d' :: tabs T' ++ f :: stack :: X) l' (vm_mem v) /\
    space kend v d' T' (upd (kernel_map kdata) 0 (VmSpec.entry (V2P f) (Z.lor PTE_W PTE_U))) {[0 := f]} [] l' (vm_mem v) /\
    vm_mem v !! f = Some (init_page initcode).

Lemma init_page_ok : page_ok (init_page initcode).
Proof. destruct (page_ok_fill 0) as [Hl Hb]; [done|]. split; [unfold init_page; rewrite length_splice; [done|rewrite Hl; cbn; lia]|by apply Forall_splice]. Qed.

Lemma kernel_map_low x : x < 524288 -> kernel_map kdata x = 0.
Proof. intros Hx. by apply (foldl_below _ 524288 (fun _ => 0)); [apply kmap_regions|]. Qed.

(** [inituvm], after [setupkvm] has made the directory [d'] in the memory [v0] that has the kernel's directory [d]. *)
Lemma wp_inituvm v0 d T X l v d' T1 l1 (Q : unit -> vmst -> Prop) :
  space kend v0 d T (kernel_map kdata) ∅ X l (vm_mem v0) -> space kend v d' T1 (kernel_map kdata) ∅ [] l1 (vm_mem v0) -> d' :: tabs T1 ++ l1 ≡ₚ l -> (1025 < length l1)%nat ->
  (forall v' T' f l', d' :: tabs T' ++ f :: l' ≡ₚ l ->
     space kend v' d T (kernel_map kdata) ∅ (d' :: tabs T' ++ f :: X) l' (vm_mem v') ->
     space kend v' d' T' (upd (kernel_map kdata) 0 (VmSpec.entry (V2P f) (Z.lor PTE_W PTE_U))) {[0 := f]} [] l' (vm_mem v') ->
     vm_mem v' !! f = Some (init_page initcode) -> Q tt v') ->
  wp (inituvm d' initcode (Z.of_nat (length initcode))) v Q.
Proof.
  intros Hs Hs1 HP1 Hl HQ. unfold inituvm. rewrite (proj2 (Z.leb_gt _ _)) by (unfold PGSIZE; lia). apply wp_bind, wp_ret.
  apply wp_bind. eapply wp_space_kalloc; [exact Hs1|intros ->; cbn in Hl; lia|]. intros f l2 pg q -> v2 Hpg _ Hs2 Hfa Hf0. change (mappages d' 0) with (mappages d' (0 * 4096)).
  eapply wp_fill_map; [exact Hs2|exact Hpg|by apply page_ok_fill|lia|apply lookup_empty|done| |].
  - intros v3 T3 l3 Hs3 HP3. rewrite insert_empty in Hs3, HP3. rewrite insert_insert_eq in Hs3. change (frames {[0 := f]}) with [f] in HP3. change (frames ∅) with (@nil Z) in HP3.
    rewrite Nat2Z.id, firstn_all. destruct (core_notin _ _ _ _ _ _ _ _ f (proj1 Hs3)) as [Hn1 Hn2]; [by left|].
    assert (vm_mem v3 !! f = Some (fill_page 0)) as Hf3 by (rewrite (co_rest _ _ _ _ _ _ _ _ (proj1 Hs3)) by done; apply lookup_insert_eq).
    eapply wp_page_upd; [exact Hf3|]. change (splice 0 initcode (fill_page 0)) with (init_page initcode). set (v4 := set_mem _ _).
    pose proof (core_write kend _ _ _ _ _ _ _ f (init_page initcode) (proj1 Hs3) Hn1 Hn2 init_page_ok) as Hc4. rewrite insert_insert_eq in Hc4.
    assert (d' :: tabs T3 ++ f :: l3 ≡ₚ l) as HP by (rewrite <- HP1; by rewrite HP3).
    destruct (apart_parent kend v0 d T (kernel_map kdata) ∅ X l (vm_mem v0) d' Hs v4 T3 _ {[0 := f]} [] l3 _ (conj Hc4 (proj2 Hs3))) as [_ Hk4].
    + split; [exact HP|]. intros r Hr. apply lookup_insert_ne. intros ->. apply Hr. rewrite <- HP, elem_of_cons, elem_of_app, elem_of_cons. auto.
    + apply (HQ v4 T3 f l3); [done| | |apply lookup_insert_eq].
      * replace (d' :: tabs T3 ++ f :: X) with ((d' :: tabs T3 ++ frames {[0 := f]} ++ []) ++ X); [exact Hk4|]. cbn. by rewrite <- app_assoc.
      * eapply space_self. split; [exact Hc4|apply Hs3].
  - intros v3 T3 Hs3 HP3. apply Permutation_length in HP3. rewrite !length_app in HP3. cbn [length] in *.
    assert (length (tabs T3) <= 1024)%nat; [|lia]. apply (keys_length T3 0 1024). intros i t Hi. destruct (co_tab _ _ _ _ _ _ _ _ (proj1 Hs3) i t Hi). lia.
Qed.

Context {D : Type} `{DiskDriver D}.
Implicit Types k : kern D.

Lemma wp_upd0 k f p ps (Q : unit -> kern D -> Prop) : k_procs k = p :: ps -> Q tt (set_procs (f p :: ps) k) -> wp (proc_upd 0 f) k Q.
Proof. intros Hp HQ. apply wp_bind. eapply wp_eq; [unfold proc_at; by rewrite Hp|]. apply wp_modify. by rewrite Hp. Qed.

(** The kernel when [userinit] has run: the first process is ready and is the only one. *)
Definition init_kern (d' stack : Z) (v : vmst) k : kern D :=
  Kern (root_cached (fs_log (k_fs k))) v (k_files k) (k_pipes k) (init_proc d' stack :: replicate 63 proc_bss) (k_cur k) 2 (Some 0%nat) (k_ticks k).

Lemma wp_userinit k d T X l junk (Q : unit -> kern D -> Prop) :
  k_fs k = fs_bss (fs_log (k_fs k)) -> k_procs k = replicate NPROC proc_bss -> k_nextpid k = 1 ->
  space kend (k_vm k) d T (kernel_map kdata) ∅ X l (vm_mem (k_vm k)) -> (2048 <= length l)%nat ->
  (forall v d' stack, d' <> 0 -> init_memory v d T X l d' stack -> Q tt (init_kern d' stack v k)) ->
  wp (userinit kend kdata initcode junk) k Q.
Proof.
  intros Hfs Hps Hpid Hs Hl HQ. destruct k as [fs0 v0 files pipes ps cur pid ini ticks]. cbn [k_fs k_vm k_procs k_nextpid] in *. subst ps pid. set (lg := fs_log fs0) in Hfs. clearbody lg. subst fs0.
  unfold userinit, allocproc. apply wp_bind, wp_bind, wp_gets. cbn [k_procs]. change (replicate NPROC proc_bss) with (proc_bss :: replicate 63 proc_bss).
  change (list_find free_proc (proc_bss :: replicate 63 proc_bss)) with (Some (0%nat, proc_bss)). cbv iota beta.
  apply wp_bind. eapply wp_upd0; [reflexivity|]. apply wp_bind, wp_gets, wp_bind, wp_modify, wp_bind. eapply wp_upd0; [reflexivity|]. apply wp_bind, wp_zoom.
  eapply wp_space_kalloc; [exact Hs|intros ->; cbn in Hl; lia|]. intros stack l1 pg q -> v1 Hpg _ Hs1 _ Hst. apply wp_bind. eapply wp_upd0; [reflexivity|].
  rewrite (proj2 (Z.eqb_neq stack 0)) by done. apply wp_bind, wp_zoom. eapply wp_page_at; [exact Hpg|]. apply wp_bind. eapply wp_upd0; [reflexivity|]. apply wp_ret.
  apply wp_bind, wp_modify, wp_bind. eapply wp_deref; [reflexivity|]. apply space_self in Hs1. apply wp_bind, wp_zoom. cbn [length] in Hl.
  eapply (wp_setupkvm kend kdata _ l1 (vm_mem v1)); [done|done|apply Hs1|done| |intros; lia]. intros v2 d' T2 l2 Hs2 Hd' HP2 HT2.
  assert (1025 < length l2)%nat as Hl2 by (apply Permutation_length in HP2; cbn [length] in HP2; rewrite length_app in HP2; lia).
  apply wp_bind. eapply wp_upd0; [reflexivity|]. rewrite (proj2 (Z.eqb_neq d' 0)) by done. apply wp_bind, wp_ret, wp_bind, wp_zoom.
  eapply wp_inituvm; [exact Hs1|exact Hs2|exact HP2|done|]. intros v3 T3 f l3 HP3 Hk3 Hu3 Hf3.
  apply wp_bind. eapply wp_upd0; [reflexivity|]. apply wp_bind. eapply wp_upd0; [reflexivity|]. apply wp_bind. unfold set_name. apply wp_bind. eapply wp_deref; [reflexivity|].
  eapply wp_upd0; [reflexivity|]. apply wp_bind, wp_zoom. eapply wp_eq; [apply namei_root|].
  apply wp_bind. eapply wp_upd0; [reflexivity|]. eapply wp_upd0; [reflexivity|]. refine (HQ v3 d' stack Hd' _). exists T3, f, l3.
  split; [rewrite <- HP3; solve_Permutation|done].
Qed.
End Init.

(** * The start of the kernel *)

(** What a run of [main] depends on: the layout of the kernel, the tables of the firmware, and the devices. *)
Record platform {P} `{Ports P} `{Mmio P} (kend kdata : Z) (initcode entryother : list Z) (mem : Z -> Z) (mp_fuel lapic_fuel : nat) (hw0 : Z) (gdt_at : nat -> Z)
    (idt_at mpenter_at : Z) (vectors : list Z) (ids : list Z) (me : nat) : Prop := {
  pf_kend : KERNLINK <= kend <= P2V (4 * 1024 * 1024) - 520 * 4096;
  pf_kdata : kdata mod 4096 = 0 /\ KERNLINK < kdata < KERNBASE + PHYSTOP;
  pf_initcode : (length initcode < 4096)%nat /\ bytes_ok initcode;
  pf_entryother : (length entryother <= 4096)%nat /\ bytes_ok entryother;
  pf_addresses : 0 <= idt_at < 2 ^ 32 /\ 0 <= mpenter_at < 2 ^ 32 /\ forall c, (c < 8)%nat -> 0 <= gdt_at c < 2 ^ 32;
  pf_vectors : length vectors = 256%nat /\ Forall (fun v => 0 <= v < 2 ^ 32) vectors;
  pf_tables : exists mp conf es, mpconfig mem = Some (mp, conf) /\ entries_at mem (conf + SIZEOF_MPCONF) es /\ conf_length mem conf = SIZEOF_MPCONF + entries_size es /\
    (length es < mp_fuel)%nat /\ ids = take (Z.to_nat NCPU) (found es) /\ exists pending, delivers (P := P) (conf_lapicaddr mem conf) pending lapic_fuel;
  pf_ids : NoDup ids /\ ids !! me = Some hw0;
}.

(** The state when [main] is called: the kernel's variables are as the loader has left them. *)
Record cold {H P} (kend : Z) (disk : ide H) (s : boot H P) : Prop := {
  cd_memory : raw_memory kend (k_vm (b_kern s));
  cd_fs : k_fs (b_kern s) = fs_bss (log_bss disk 0);
  cd_procs : k_procs (b_kern s) = replicate NPROC proc_bss /\ k_nextpid (b_kern s) = 1;
  cd_mach : c_if (m_cpu (b_mach s)) = false /\ c_ncli (m_cpu (b_mach s)) = 0 /\ length (m_idt (b_mach s)) = 256%nat /\ length (m_tss (b_mach s)) = 8%nat;
  cd_gdts : forall c, (c < 8)%nat -> exists gdt, m_gdts (b_mach s) !! c = Some gdt /\ length gdt = NSEGS;
  cd_cpus : length (b_cpus s) = 8%nat /\ b_ncpu s = 0 /\ b_started s = replicate 8 0 /\ b_said s = [];
  cd_devsw : (CONSOLE < length (b_devsw s))%nat;
}.

(** The kernel is up: the processors [ids] run the scheduler, each with its own segments and its own stack; the kernel's page directory is loaded everywhere; the
    first process is ready; and every page of memory has exactly one use. *)
Record kernel_up {H P} `{Ata H} (kend kdata : Z) (initcode : list Z) (gdt_at : nat -> Z) (idt_at entrypgdir_at : Z) (vectors ids : list Z) (me : nat) (disk : ide H) (s s' : boot H P) : Prop := {
  ku_cpus : recorded ids s' /\ (forall c, (c < length ids)%nat -> b_started s' !! c = Some 1) /\ b_said s' = others me (length ids) ++ [me];
  ku_gates : gates vectors (m_idt (b_mach s')) /\ length (m_tss (b_mach s')) = 8%nat;
  ku_console : b_devsw s' !! CONSOLE = Some (Some Consoleread, Some Consolewrite);
  ku_lock : b_locks s' !! "ptable"%string = Some initlock;
  ku_memory : exists d T X l d' stack v, d :: tabs T ++ X ++ l ≡ₚ high_pages ++ low_pages kend /\ init_memory kend kdata initcode v d T X l d' stack /\
    b_kern s' = init_kern d' stack v (set_fs (fs_bss (set_bio (Bio.boot (ideinit (ide_hw disk)) 0) (log_bss disk 0))) (b_kern s)) /\
    m_kpgdir (b_mach s') = d /\ loaded gdt_at idt_at me d (b_mach s') /\ (exists gdt, m_gdts (b_mach s') !! me = Some gdt /\ segments gdt) /\
    Forall2 (ap_up gdt_at idt_at entrypgdir_at d s') (others me (length ids)) (reverse X);
}.

Section Boots.
Context {H P : Type} `{Ata H} `{!AtaLaws H} `{Ports P} `{Mmio P}.
Context (kend kdata : Z) (initcode entryother junk : list Z) (mem : Z -> Z) (mp_fuel lapic_fuel : nat).
Context (hw0 : Z) (ap_dev : nat -> P) (gdt_at : nat -> Z) (idt_at mpenter_at entrypgdir_at : Z) (vectors : list Z) (ids : list Z) (me : nat).
Context (Hpf : platform (P := P) kend kdata initcode entryother mem mp_fuel lapic_fuel hw0 gdt_at idt_at mpenter_at vectors ids me).
Abbreviation st := (boot H P).
Implicit Types s : st.
Abbreviation main_ := (main (H := H) (P := P) kend kdata initcode entryother junk mem mp_fuel lapic_fuel hw0 ap_dev gdt_at idt_at mpenter_at entrypgdir_at vectors).

Lemma wp_uart {A} (m : M (uartst P) A) base s (Q : A -> st -> Prop) :
  stays (uart_at_base base) m -> at_base base (b_plat s) -> (forall a u, uart_at_base base u -> Q a (set_uart u s)) -> wp (uart_ m) s Q.
Proof. intros Hm Hs HQ. apply wp_zoom. eapply wp_mono; [by apply Hm|]. intros a u Hu. by apply HQ. Qed.

(** The boot processor has set up everything but the other processors. *)
Record wired (disk : ide H) (base d : Z) (T : gmap nat Z) (l : list Z) s0 s : Prop := {
  wi_memory : kernel_memory kend kdata (k_vm (b_kern s)) d T [] l;
  wi_kern : b_kern s = set_vm (k_vm (b_kern s)) (set_fs (fs_bss (set_bio (Bio.boot (ideinit (ide_hw disk)) 0) (log_bss disk 0))) (b_kern s0));
  wi_mach : m_kpgdir (b_mach s) = d /\ m_cr3 (b_mach s) = V2P d /\ c_if (m_cpu (b_mach s)) = false /\ c_ncli (m_cpu (b_mach s)) = 0;
  wi_gdts : forall c, (c < 8)%nat -> exists gdt, m_gdts (b_mach s) !! c = Some gdt /\ length gdt = NSEGS;
  wi_mine : Seg.table (m_gdtr (b_mach s)) = Some (gdt_at me, 47) /\ exists gdt, m_gdts (b_mach s) !! me = Some gdt /\ segments gdt;
  wi_gates : gates vectors (m_idt (b_mach s)) /\ length (m_tss (b_mach s)) = 8%nat;
  wi_cpus : recorded ids s /\ at_base base (b_plat s) /\ b_started s = replicate 8 0 /\ b_said s = [];
  wi_console : b_devsw s !! CONSOLE = Some (Some Consoleread, Some Consolewrite);
  wi_lock : b_locks s !! "ptable"%string = Some initlock;
}.

Ltac boot_simpl := cbv beta iota delta [set_bkern set_bmach set_aps set_mp set_started set_uart set_locks set_cons set_said set_plat b_kern b_mach b_aps b_cpus b_ncpu b_started b_plat b_uart
  b_locks b_devsw b_locking b_said u_plat u_uart mp_cpus mp_ncpu mp_plat
  k_fs k_vm k_files k_pipes k_procs k_cur k_nextpid k_initproc k_ticks set_vm set_fs].

Lemma wp_wire {A} disk s0 (K : M st A) (Q : A -> st -> Prop) : cold kend disk s0 ->
  (forall s base d T l pending, wired disk base d T l s0 s -> (7 <= length l)%nat -> delivers (P := P) base pending lapic_fuel -> wp K s Q) ->
  wp (mem_ (kinit1 kend kend (P2V (4 * 1024 * 1024))) ;; kvmalloc kend kdata ;; mp_ (mpinit mem mp_fuel) ;; plat_ (lapicinit lapic_fuel) ;;
    ids ← apicids; mach_ (seginit ids hw0 gdt_at) ;; plat_ picinit ;; plat_ ioapicinit ;; consoleinit ;; uart_ uartinit ;; pinit ;; mach_ (tvinit vectors) ;;
    kern_ (zoom k_fs set_fs (dbuf binit)) ;; fileinit ;; disk_init ;; K) s0 Q.
Proof.
  intros [Hmem Hfs [Hps Hpid] (Hif & Hcli & Hidt & Htss) Hgdts (Hcl & Hn & Hst & Hsd) Hdev] HK. destruct s0 as [[fs0 v0 files pipes procs cur npid ini ticks] m0 a0 c0 n0 st0 pl0 u0 l0 d0 lk0 sd0].
  cbn in *. subst fs0.
  apply wp_bind, wp_mem. eapply wp_kinit1; [apply Hpf|exact Hmem|]. intros v1 Hk1 Hm1. boot_simpl.
  unfold kvmalloc. apply wp_bind, wp_bind, wp_mem. eapply wp_kernel_directory; [apply Hpf|apply Hpf|apply Hpf|exact Hk1|exact Hm1|]. intros v2 d T l Hkm Hd Hl. boot_simpl.
  apply wp_bind, wp_mach, wp_modify, wp_mach. unfold switchkvm. apply wp_bind, wp_gets, wp_modify. boot_simpl. cbn [m_kpgdir set_kpgdir].
  destruct (pf_tables _ _ _ _ _ _ _ _ _ _ _ _ _ _ Hpf) as (mp & conf & es & Hconf & Hes & Hlen & Hfuel & Hids & pending & Hdel).
  apply wp_bind, wp_zoom. eapply wp_mono; [eapply (wp_mpinit mem mp conf es); [done..|exact Hn|done]|]. intros [] [c1 n1 pl1] (Hcpus & _ & Hla). rewrite <- Hids in Hcpus. boot_simpl.
  set (base := conf_lapicaddr mem conf) in *. assert (forall k m sta p u lo dv lk, recorded ids (Boot k m a0 c1 n1 sta p u lo dv lk sd0 : st)) as Hr by (intros; destruct Hcpus as (E1 & E2 & _ & E4); by split).
  apply wp_bind, (wp_plat base); [by eapply stays_lapicinit|exact Hla|]. intros _ pl2 Hp2. boot_simpl. apply wp_bind, (wp_apicids ids); [apply Hr|].
  destruct (pf_ids _ _ _ _ _ _ _ _ _ _ _ _ _ _ Hpf) as [Hnd Hme]. assert (length ids <= 8)%nat as Hl8 by (rewrite Hids, length_take; change (Z.to_nat NCPU) with 8%nat; lia).
  assert (me < 8)%nat as Hme8 by (apply lookup_lt_Some in Hme; lia).
  destruct (Hgdts me Hme8) as (gdt & Hg & Hgl). destruct (pf_addresses _ _ _ _ _ _ _ _ _ _ _ _ _ _ Hpf) as (Hia & _ & Hga).
  apply wp_bind, wp_mach. eapply wp_mono; [eapply (wp_seginit ids hw0 gdt_at me); [by apply found_at|by apply Hga|exact Hif|exact Hg|done]|].
  intros [] m1 ([Htab (gdt1 & Hg1 & Hsg)] & gdt' & r & ->). cbn in Hg1, Htab. rewrite list_lookup_insert_eq in Hg1 by (by eapply lookup_lt_Some).
  injection Hg1 as ->. boot_simpl. apply wp_bind, (wp_plat base); [apply stays_picinit|done|]. intros _ pl3 Hp3. boot_simpl.
  apply wp_bind, (wp_plat base); [apply stays_ioapicinit|done|]. intros _ pl4 Hp4. boot_simpl. unfold consoleinit, initlock_.
  apply wp_bind, wp_bind, wp_modify, wp_bind, wp_modify. boot_simpl. apply (wp_plat base); [apply stays_ioapicenable|done|]. intros _ pl5 Hp5. boot_simpl.
  apply wp_bind, (wp_uart _ base); [apply stays_uartinit|done|]. intros _ [u6 pl6] Hp6. boot_simpl. unfold pinit, initlock_. apply wp_bind, wp_modify. boot_simpl.
  destruct (pf_vectors _ _ _ _ _ _ _ _ _ _ _ _ _ _ Hpf) as [Hvl Hvr]. apply wp_bind, wp_mach. eapply wp_mono; [eapply (wp_tvinit vectors Hvl Hvr); exact Hidt|].
  intros [] m2 (Hga2 & ->). boot_simpl. apply wp_bind, wp_zoom, wp_zoom, wp_zoom, wp_zoom. eapply wp_eq; [apply binit_boot|].
  boot_simpl. unfold fileinit, disk_init, initlock_. apply wp_bind, wp_modify, wp_bind, wp_bind, wp_modify, wp_bind, wp_gets. boot_simpl.
  apply wp_bind, (wp_plat base); [apply stays_ioapicenable|done|]. intros _ pl7 Hp7. boot_simpl.
  apply wp_bind, (wp_plat base); [apply stays_ioapicenable|done|]. intros _ pl8 Hp8. boot_simpl.
  apply wp_zoom, wp_zoom, wp_zoom, wp_zoom, wp_modify. apply (HK _ base d T l pending); [|done|done].
  split; boot_simpl; cbn [m_kpgdir m_cr3 m_cpu m_gdts m_gdtr m_idt set_tickslock set_idt set_gdtr set_gdts set_cr3 set_kpgdir].
  - exact Hkm.
  - reflexivity.
  - split; [done|]. split; [|done]. apply u32_small, u32_range.
  - intros c Hc. destruct (decide (c = me)) as [->|Hne]; [|rewrite list_lookup_insert_ne by done; by apply Hgdts].
    exists gdt1. split; [apply list_lookup_insert_eq; by eapply lookup_lt_Some|apply Hsg].
  - split; [exact Htab|]. exists gdt1. split; [apply list_lookup_insert_eq; by eapply lookup_lt_Some|exact Hsg].
  - split; [exact Hga2|exact Htss].
  - split; [apply Hr|]. split; [exact Hp8|]. by split.
  - by apply list_lookup_insert_eq.
  - by rewrite !lookup_insert_ne, lookup_insert_eq by done.
Qed.

Lemma all_pages (d : Z) (t x l h low : list Z) : d :: t ++ x ++ l ≡ₚ low -> d :: t ++ x ++ h ++ l ≡ₚ h ++ low.
Proof. intros <-. solve_Permutation. Qed.

Lemma others_not_me k c : c ∈ others me k -> c <> me /\ (c < k)%nat.
Proof. intros [Hne Hc]%list_elem_of_filter. apply elem_of_seq in Hc. lia. Qed.

Lemma wp_main disk s : cold kend disk s -> wp main_ s (fun _ => kernel_up kend kdata initcode gdt_at idt_at entrypgdir_at vectors ids me disk s).
Proof.
  intros Hs. unfold main. eapply wp_wire; [exact Hs|]. intros s1 base d T l pending [Hmem Hkern (Hkd & Hcr & Hif & Hcli) Hgdts [Htab Hmine] Hgates (Hr & Hp & Hst & Hsd) Hcons Hlock] Hl Hdel.
  destruct (pf_ids _ _ _ _ _ _ _ _ _ _ _ _ _ _ Hpf) as [Hnd Hme]. destruct (pf_addresses _ _ _ _ _ _ _ _ _ _ _ _ _ _ Hpf) as (Hia & Hma & Hga).
  assert (length ids <= 8)%nat as Hl8. { destruct (pf_tables _ _ _ _ _ _ _ _ _ _ _ _ _ _ Hpf) as (? & ? & ? & _ & _ & _ & _ & -> & _). rewrite length_take. change (Z.to_nat NCPU) with 8%nat. lia. }
  apply wp_bind. eapply (wp_startothers _ base pending Hdel ids gdt_at idt_at Hnd Hl8 Hga Hia ap_dev _ _ Hma kend kdata entryother); try done; [apply Hpf..|by rewrite Hst|].
  intros s2 [Hk2 Hm2 Hg2 Hmi2 Hr2 Hp2 (Hlo2 & Hdv2 & _) Hst2 Hsd2 (X & l2 & Hmem2 & Hlen2 & Hup2)].
  apply wp_bind, wp_mem. eapply wp_kinit2; [apply Hpf|exact Hmem2|]. intros v3 Hs3. apply wp_bind, wp_zoom.
  eapply (wp_userinit kend kdata); [apply Hpf..| | | |exact Hs3| |].
  - cbn. by rewrite Hk2, Hkern.
  - cbn. rewrite Hk2, Hkern. apply Hs.
  - cbn. rewrite Hk2, Hkern. apply Hs.
  - rewrite length_app. pose proof high_pages_count. lia.
  - intros v d' stack Hd' Him. eapply (wp_mpmain ids idt_at Hnd Hl8 me); [exact Hr2|exact Hme|cbn; by rewrite Hm2|exact Hst2|]. set (s4 := set_started _ _).
    assert (forall x, x <> me -> b_aps s4 !! x = b_aps s2 !! x /\ b_started s4 !! x = b_started s2 !! x /\ m_gdts (b_mach s4) !! x = m_gdts (b_mach s2) !! x) as Hkeep
      by (intros x Hx; split; [done|]; split; [by apply list_lookup_insert_ne|done]).
    assert (Forall2 (ap_up gdt_at idt_at entrypgdir_at d s4) (others me (length ids)) (reverse X)) as Hup4.
    { eapply Forall2_mono_in; [|exact Hup2]. intros c q Hc. apply (ap_up_keep gdt_at idt_at entrypgdir_at d s2 s4 c me); [by eapply others_not_me|exact Hkeep]. }
    split.
    + split; [exact Hr2|]. split; [|subst s4; cbn; by rewrite Hsd2, Hsd]. intros c Hc. destruct (decide (c = me)) as [->|Hne]; [apply list_lookup_insert_eq; cbn; lia|].
      assert (c ∈ others me (length ids)) as Hin by (apply list_elem_of_filter; split; [done|]; apply elem_of_seq; lia).
      apply list_elem_of_lookup_1 in Hin as [i Hi]. destruct (Forall2_lookup_l _ _ _ _ _ Hup4 Hi) as (p & _ & _ & Hst4 & _). exact Hst4.
    + subst s4. cbn. by rewrite Hm2.
    + subst s4. cbn. by rewrite Hdv2.
    + subst s4. cbn. by rewrite Hlo2.
    + exists d, T, X, (high_pages ++ l2), d', stack, v. split; [exact (all_pages _ _ _ _ _ _ (ks_low _ _ _ _ _ _ _ Hmem2))|]. split; [exact Him|].
      split; [subst s4; cbn; unfold init_kern; by rewrite Hk2, Hkern|]. split; [subst s4; cbn; by rewrite Hm2|]. split; [|split; [subst s4; cbn; by rewrite Hmi2|exact Hup4]].
      split; subst s4; cbn; [by rewrite Hm2|by apply table_pseudo|by rewrite Hm2|by rewrite Hm2].
Qed.
End Boots.

(** C5: [main] starts the kernel. From the state in which the boot loader leaves the machine, with any devices of which only the local APIC has to deliver messages, it reaches the
    scheduler: every processor of the firmware's table, up to eight, has set its flag and has its own flat segments, the shared gates and the kernel's page directory loaded,
    with interrupts off; each but the first has a stack of its own and was started with the boot page directory; the first process is the only one, ready to run
    [initcode] at address 0 of an address space of its own, with the root directory as its working directory; the buffers are linked and the disk is probed; and the pages of
    memory up to [PHYSTOP] are each in use once or free. *)
Theorem main_boots {H P} {HA : Ata H} {HL : AtaLaws H} {HP : Ports P} {HM : Mmio P} kend kdata initcode entryother junk mem mp_fuel lapic_fuel hw0 (ap_dev : nat -> P)
    gdt_at idt_at mpenter_at entrypgdir_at vectors ids me (disk : ide H) (s : boot H P) :
  platform (P := P) kend kdata initcode entryother mem mp_fuel lapic_fuel hw0 gdt_at idt_at mpenter_at vectors ids me -> cold kend disk s ->
  exists s', main kend kdata initcode entryother junk mem mp_fuel lapic_fuel hw0 ap_dev gdt_at idt_at mpenter_at entrypgdir_at vectors s = Ok tt s' /\
    kernel_up kend kdata initcode gdt_at idt_at entrypgdir_at vectors ids me disk s s'.
Proof. intros Hpf Hc. destruct (proj1 (wp_ok _ _ _) (wp_main kend kdata initcode entryother junk mem mp_fuel lapic_fuel hw0 ap_dev gdt_at idt_at mpenter_at entrypgdir_at vectors ids me Hpf disk s Hc))
  as ([] & s' & Hs' & Hup). by exists s'. Qed.

(** ** A machine with two processors *)

(** A device that answers with zeros. *)
Inductive silent := Silent.
#[export] Instance silent_ports : Ports silent := { port_in _ d := (0, d); port_out _ _ d := d }.
#[export] Instance silent_mmio : Mmio silent := { mmio_rd _ d := (0, d); mmio_wr _ _ d := d }.

Definition pc_end : Z := 2148663296.
Definition pc_data : Z := 2148564992.
Definition pc_gdt (c : nat) : Z := 2148597760 + 176 * Z.of_nat c.
Definition pc_vectors : list Z := seqZ 2148532224 256.

Definition pc_memory : vmst := Vmst (gset_to_gmap (fill_page 0) (list_to_set (low_pages pc_end ++ high_pages ++ [code; below_code]))) 0 0.

Definition pc_mach : mach :=
  Mach (Cpu false 0 false) (replicate 8 (replicate NSEGS (segdesc_init 0 0 0 0 0 0 0 0 0 0 0 0 0))) (replicate 8 ts_zero) (replicate 256 (Gatedesc 0 0 0 0 0 0 0 0 0)) [] [] 0 0 0 initlock.

Definition pc_cold (disk : ide sim) : boot sim silent :=
  Boot (Kern (fs_bss (log_bss disk 0)) pc_memory (replicate NFILE file_bss) ∅ (replicate NPROC proc_bss) 0 1 None 0) pc_mach ∅ (replicate 8 0) 0 (replicate 8 0)
    (Plat 0 0 (0, 0) [] Silent) false ∅ (replicate 10 (None, None)) 0 [].

Lemma pc_raw : raw_memory pc_end pc_memory.
Proof.
  split; [done| |].
  - intros q pg [_ <-]%lookup_gset_to_gmap_Some. by apply page_ok_fill.
  - intros q Hq. exists (fill_page 0). apply lookup_gset_to_gmap_Some. split; [|done]. by apply elem_of_list_to_set.
Qed.

Lemma pc_is_cold disk : cold pc_end disk (pc_cold disk).
Proof.
  split; [exact pc_raw|reflexivity|split; reflexivity|split_and!; reflexivity| |split_and!; reflexivity|apply Nat.ltb_lt; reflexivity].
  intros c Hc. exists (replicate NSEGS (segdesc_init 0 0 0 0 0 0 0 0 0 0 0 0 0)). split; [by apply lookup_replicate|reflexivity].
Qed.

Lemma pc_platform : platform (P := silent) pc_end pc_data (replicate 44 144) (replicate 100 144) smp_memory 5 1 0 pc_gdt 2148600000 2148540000 pc_vectors [0; 1] 0.
Proof.
  split.
  - unfold pc_end. by vm_compute.
  - split; by vm_compute.
  - split; [cbn; lia|by apply Forall_replicate].
  - split; [cbn; lia|by apply Forall_replicate].
  - split; [lia|]. split; [lia|]. intros c Hc. unfold pc_gdt. lia.
  - split; [apply length_seqZ|]. apply Forall_seqZ. lia.
  - exists (P2V 0xF0000), (P2V 0xF0100), [Mp.Proc 0; Mp.Proc 1; Other MPBUS; Ioapic_entry 2].
    split; [by vm_compute|]. split; [repeat split; try (by vm_compute); by left|]. split; [by vm_compute|]. split; [cbn; lia|]. split; [reflexivity|].
    exists (fun _ => 0%nat). intros d. split; [lia|]. by left.
  - split; [|reflexivity]. by apply (bool_decide_unpack _).
Qed.

Lemma main_boots_witness : exists s', main pc_end pc_data (replicate 44 144) (replicate 100 144) [] smp_memory 5 1 0 (fun _ => Silent) pc_gdt 2148600000 2148540000 2148569088 pc_vectors
    (pc_cold sim_blank) = Ok tt s' /\ b_said s' = [1; 0]%nat /\ b_started s' !! 1%nat = Some 1.
Proof.
  destruct (main_boots pc_end pc_data (replicate 44 144) (replicate 100 144) [] smp_memory 5 1 0 (fun _ => Silent) pc_gdt 2148600000 2148540000 2148569088 pc_vectors [0; 1] 0 sim_blank
    (pc_cold sim_blank) pc_platform (pc_is_cold sim_blank)) as (s' & Hs' & [(_ & Hst & Hsd) _ _ _ _]).
  exists s'. split; [exact Hs'|]. split; [exact Hsd|]. apply Hst. cbn. lia.
Defined.
