(* ===== verification/PowerOn.v ===== *)
(** From power-on to the files: [main] starts the kernel, the scheduler of the boot processor takes the first process, [forkret] starts the file system in
    it, and the files that mkfs has put on the disk can be read. *)

From S2P Require Import Prelude Bytes Spinlock Sleeplock Buf Ide Bio Cache Log Inode Xv6fs Vfs Kalloc Vm VmSpec Kernel Sched Proc Seg Port Apic Mp IcacheSpec NameSpec Mkfs MkfsSpec MkfsBoot Main MainSpec.

Section Run.
Context {H P : Type} `{Ata H} `{!AtaLaws H} `{Ports P} `{Mmio P}.
Context (hw0 : Z) (ts_at : nat -> Z).
Abbreviation st := (boot H P).

(** [acquire], which waits here while another processor has the lock, and [release]. *)
Definition the_lock (name : string) : M st spinlock := lk ← gets (fun s => b_locks s !! name); deref lk.
Definition set_lock (name : string) (lk : spinlock) : M st unit := modify (fun s => set_locks (<[name := lk]> (b_locks s)) s).
Definition held_by (c : nat) (lk : spinlock) : bool := negb (Spinlock.locked lk =? 0) && bool_decide (lk_cpu lk = Some c).

Definition acquire_ (name : string) : M st unit :=
  ids ← apicids;
  mach_ (this_cpu (pushcli ids hw0)) ;;
  c ← mach_ (cpuid ids hw0);
  lk ← the_lock name;
  guard_ok (held_by c lk) (panic "acquire") ;;
  if negb (Spinlock.locked lk =? 0) then asleep else set_lock name (Spinlock 1 (Some c)).

Definition release_ (name : string) : M st unit :=
  ids ← apicids;
  c ← mach_ (cpuid ids hw0);
  lk ← the_lock name;
  guard_ok (negb (held_by c lk)) (panic "release") ;;
  set_lock name (Spinlock 0 None) ;;
  mach_ (this_cpu (popcli ids hw0)).

(** [scheduler] up to the first [swtch], or a pass over the table without a process to run. *)
Definition schedule : M st (option nat) :=
  ids ← apicids;
  _ ← mach_ (cpuid ids hw0);
  mach_ (this_cpu (modify (set_if true))) ;;
  acquire_ "ptable" ;;
  ps ← kern_ (gets k_procs);
  match first_runnable 0 ps with
  | None => release_ "ptable" ;; mret None
  | Some j =>
      kern_ (modify (set_cur j)) ;;
      p ← kern_ (proc_at j);
      mach_ (switchuvm ids hw0 ts_at (Some p)) ;;
      kern_ (proc_upd j (with_state RUNNING)) ;;
      mret (Some j)
  end.

(** [forkret], to which the stack of a new process returns. *)
Definition run_forkret (first : bool) : M st bool := release_ "ptable" ;; kern_ (forkret first).

Context (ids : list Z) (me : nat) (gdt_at : nat -> Z) (Hnd : NoDup ids) (Hl8 : (length ids <= 8)%nat) (Hme : ids !! me = Some hw0) (Hts : 0 <= ts_at me < 2 ^ 32).
Implicit Types s : st.

Lemma wp_acquire name s (Q : unit -> st -> Prop) : recorded ids s -> b_locks s !! name = Some initlock -> c_ncli (m_cpu (b_mach s)) = 0 ->
  Q tt (set_locks (<[name := Spinlock 1 (Some me)]> (b_locks s)) (set_bmach (set_cpu (Cpu false 1 (c_if (m_cpu (b_mach s)))) (b_mach s)) s)) -> wp (acquire_ name) s Q.
Proof.
  intros Hr Hlk Hn HQ. pose proof (found_at ids Hnd Hl8 me hw0 Hme) as Hf. unfold acquire_, the_lock, set_lock. apply wp_bind, (wp_apicids ids); [done|]. apply wp_bind, wp_mach.
  eapply (Seg.wp_push ids hw0 me); [exact Hf|lia|]. cbn zeta. rewrite Hn. apply wp_bind, wp_mach. eapply wp_cpuid; [exact Hf|done|]. apply wp_bind, wp_bind, wp_gets. eapply wp_deref; [exact Hlk|].
  cbn. apply wp_bind, wp_ret, wp_modify. cbn in HQ |- *. by destruct s.
Qed.

Lemma wp_release name s (Q : unit -> st -> Prop) : recorded ids s -> b_locks s !! name = Some (Spinlock 1 (Some me)) -> c_if (m_cpu (b_mach s)) = false -> c_ncli (m_cpu (b_mach s)) = 1 ->
  (let e := c_intena (m_cpu (b_mach s)) in Q tt (set_locks (<[name := initlock]> (b_locks s)) (set_bmach (set_cpu (Cpu e 0 e) (b_mach s)) s))) -> wp (release_ name) s Q.
Proof.
  intros Hr Hlk Hif Hn HQ. pose proof (found_at ids Hnd Hl8 me hw0 Hme) as Hf. unfold release_, the_lock, set_lock. apply wp_bind, (wp_apicids ids); [done|]. apply wp_bind, wp_mach.
  eapply wp_cpuid; [exact Hf|done|]. apply wp_bind, wp_bind, wp_gets. eapply wp_deref; [exact Hlk|]. unfold held_by. cbn [Spinlock.locked lk_cpu]. rewrite bool_decide_true by done.
  apply wp_bind, wp_ret, wp_bind, wp_modify, wp_mach. eapply (Seg.wp_pop ids hw0 me); [exact Hf|exact Hif|cbn; lia|]. cbn in HQ |- *. rewrite Hn. cbn. by destruct s.
Qed.

(** The first process runs, in its own address space. *)
Definition init_running (d' stack : Z) : proc := with_state RUNNING (init_proc d' stack).

Lemma wp_schedule s d' stack v k0 (Q : option nat -> st -> Prop) :
  recorded ids s -> b_locks s !! "ptable"%string = Some initlock -> seg_ok gdt_at me (b_mach s) -> c_if (m_cpu (b_mach s)) = false -> c_ncli (m_cpu (b_mach s)) = 0 ->
  length (m_tss (b_mach s)) = 8%nat -> b_kern s = init_kern d' stack v k0 -> d' <> 0 -> stack <> 0 ->
  (forall m, task_ok ts_at me (init_running d' stack) m -> c_if (m_cpu m) = false -> c_ncli (m_cpu m) = 1 -> c_intena (m_cpu m) = true -> m_idt m = m_idt (b_mach s) -> m_idtr m = m_idtr (b_mach s) -> seg_ok gdt_at me m ->
     Q (Some 0%nat) (set_bmach m (set_bkern (set_procs (init_running d' stack :: replicate 63 proc_bss) (set_cur 0 (b_kern s)))
       (set_locks (<["ptable"%string := Spinlock 1 (Some me)]> (b_locks s)) s)))) ->
  wp schedule s Q.
Proof.
  intros Hr Hlk Hseg Hif0 Hn Htss Hk Hd Hst HQ. pose proof (found_at ids Hnd Hl8 me hw0 Hme) as Hf. assert (me < 8)%nat by (apply lookup_lt_Some in Hme; lia). unfold schedule.
  apply wp_bind, (wp_apicids ids); [done|]. apply wp_bind, wp_mach. eapply wp_cpuid; [exact Hf|exact Hif0|].
  apply wp_bind, wp_mach, wp_zoom, wp_modify. apply wp_bind, wp_acquire; [done|done|done|]. apply wp_bind, wp_zoom, wp_gets.
  cbn [b_kern set_bmach set_bkern set_locks]. rewrite Hk. cbn [k_procs init_kern]. change (first_runnable 0 (init_proc d' stack :: replicate 63 proc_bss)) with (Some 0%nat). cbv iota.
  apply wp_bind, wp_zoom, wp_modify. apply wp_bind, wp_zoom. eapply wp_eq; [reflexivity|].
  apply wp_bind, wp_mach. eapply wp_mono; [apply (wp_switchuvm ids hw0 gdt_at ts_at me); [exact Hf|exact Hts|exact Hseg|cbn; lia|split; [done|done]|done|done]|].
  intros [] m ((Hseg' & Htask & Hidt & Hidtr & _) & Hif & Hn' & He). apply wp_bind, wp_zoom. eapply wp_upd0; [reflexivity|]. apply wp_ret.
  rewrite Hk in HQ. specialize (HQ m Htask Hif Hn' (He ltac:(done)) Hidt Hidtr Hseg'). by destruct s.
Qed.
End Run.

(** ** The inode cache with the root directory *)
Lemma idle_root {D} `{DiskDriver D} (lg : logst D) : idle_cache (root_cached lg).
Proof.
  split; [|reflexivity| |apply Nat.leb_le; reflexivity].
  - destruct (iget_root (fs_bss lg) ROOTINO (icache_ok_bss lg)) as (k & y & s & He & Hok & _); [exists 0%nat, inode_bss; by split; [|left]|].
    change (iget ROOTDEV ROOTINO (fs_bss lg)) with (Ok 0%nat (root_cached lg)) in He. by injection He as <- <-.
  - intros j x Hx. cbn [root_cached fs_inode] in Hx. destruct j as [|j]; [by injection Hx as <-|]. change (replicate 49 inode_bss !! j = Some x) in Hx. by apply lookup_replicate in Hx as [-> _].
Qed.

(** The first process runs on the boot processor: its page directory is loaded, its kernel stack is that of the task state, and the code that is linked into the kernel
    is at address 0. Every page of memory is the kernel's, a stack, the process's, or free. *)
Definition first_process {H P} (kend kdata : Z) (initcode : list Z) (ts_at : nat -> Z) (me : nat) (s : boot H P) : Prop :=
  exists d T X l d' stack, d :: tabs T ++ X ++ l ≡ₚ high_pages ++ low_pages kend /\ init_memory kend kdata initcode (k_vm (b_kern s)) d T X l d' stack /\
    k_procs (b_kern s) = init_running d' stack :: replicate 63 proc_bss /\ k_cur (b_kern s) = 0%nat /\ task_ok ts_at me (init_running d' stack) (b_mach s) /\ c_if (m_cpu (b_mach s)) = true.

Section Start.
Context {H P : Type} `{Ata H} `{!AtaLaws H} `{Ports P} `{Mmio P}.
Context (kend kdata : Z) (initcode entryother junk : list Z) (mem : Z -> Z) (mp_fuel lapic_fuel : nat).
Context (hw0 : Z) (ap_dev : nat -> P) (gdt_at ts_at : nat -> Z) (idt_at mpenter_at entrypgdir_at : Z) (vectors : list Z) (ids : list Z) (me : nat).
Context (Hpf : platform (P := P) kend kdata initcode entryother mem mp_fuel lapic_fuel hw0 gdt_at idt_at mpenter_at vectors ids me) (Hts : 0 <= ts_at me < 2 ^ 32).
Implicit Types s : boot H P.

Lemma init_stack v d T X l d' stack : init_memory kend kdata initcode v d T X l d' stack -> stack <> 0 /\ d' <> 0.
Proof.
  intros (T' & f & l' & _ & [Hc _] & _).
  assert (forall q, q = d' \/ q = stack -> q <> 0) as Hq; [|by split; apply Hq; auto]. intros q Hq.
  destruct (co_alloc _ _ _ _ _ _ _ _ Hc q) as (_ & _ & Ha); [|unfold KERNBASE in Ha; lia].
  rewrite elem_of_cons, !elem_of_app. right; right; right. rewrite elem_of_cons, elem_of_app, !elem_of_cons. tauto.
Qed.

Lemma wp_start (disk : ide H) s img : cold kend disk s -> formatted img -> superblock_of (image img dev 1) = sb ->
  let disk' := ideinit (ide_hw disk) in dwf disk' -> holds disk' img -> dvalid disk' EXT2DEV 1 ->
  wp (main kend kdata initcode entryother junk mem mp_fuel lapic_fuel hw0 ap_dev gdt_at idt_at mpenter_at entrypgdir_at vectors ;; schedule hw0 ts_at ;; run_forkret hw0 true) s
    (fun first s' => first = false /\ first_process kend kdata initcode ts_at me s' /\ exists c0 v, idle_cache c0 /\ booted disk' 1 img c0 (k_fs (b_kern s')) v).
Proof.
  intros Hcold Hfmt Hsb disk' Hwf Hholds Hext. apply wp_bind. eapply wp_mono; [by eapply wp_main|].
  intros [] s1 [(Hr & Hstd & _) [Hgates Htss] _ Hlk (d & T & X & l & d' & stack & v & Hall & Hinit & Hk & Hkd & Hld & (gdt & Hg & Hsg) & _)].
  destruct (pf_ids _ _ _ _ _ _ _ _ _ _ _ _ _ _ Hpf) as [Hnd Hme]. destruct (init_stack _ _ _ _ _ _ _ Hinit) as [Hst Hd'].
  assert (length ids <= 8)%nat as Hl8. { destruct (pf_tables _ _ _ _ _ _ _ _ _ _ _ _ _ _ Hpf) as (? & ? & ? & _ & _ & _ & _ & -> & _). rewrite length_take. change (Z.to_nat NCPU) with 8%nat. lia. }
  apply wp_bind. eapply (wp_schedule hw0 ts_at ids me gdt_at Hnd Hl8 Hme Hts); [exact Hr|exact Hlk|split; [apply Hld|by exists gdt]|apply Hld|apply Hld|exact Htss|exact Hk|done|done|].
  intros m Htask Hif Hn He _ _ _. unfold run_forkret. apply wp_bind, (wp_release hw0 ids me Hnd Hl8 Hme); [exact Hr|apply lookup_insert_eq|exact Hif|exact Hn|].
  cbn zeta. apply wp_zoom. eapply wp_mono; [eapply (wp_forkret disk' 1 img Hfmt Hsb Hwf Hholds Hext (root_cached (log_bss disk' 0))); [apply idle_root| |]|].
  - cbn [b_kern set_bkern set_bmach set_locks k_fs set_procs set_cur]. by rewrite Hk.
  - exists (init_running d' stack). split; reflexivity.
  - intros first k' (-> & Hk' & v' & Hb). split; [done|]. split; [|exists (root_cached (log_bss disk' 0)), v'; split; [apply idle_root|exact Hb]].
    exists d, T, X, l, d', stack. split; [exact Hall|]. cbn [b_kern set_bkern]. rewrite Hk'. cbn. rewrite Hk. split; [exact Hinit|]. split; [done|]. split; [done|]. split; [|exact He].
    exact Htask.
Qed.
End Start.

(** C4: From power-on to the files. On every platform with a table of processors, whose local APIC delivers messages, whose memory has its pages and whose root disk holds an
    image that mkfs has made: [main] returns on the boot processor, after it has set up memory, tables and devices and started the other processors; its scheduler takes the first
    process, whose kernel stack and page directory are then loaded and whose memory is the code linked into the kernel at address 0, while every page of memory has one
    use; [forkret] starts the file system in it; and then every file of the image is found by its name and its bytes are read. *)
Theorem power_on_reads {H P} {HA : Ata H} {HL : AtaLaws H} {HP : Ports P} {HM : Mmio P} kend kdata initcode entryother junk mem mp_fuel lapic_fuel hw0 (ap_dev : nat -> P)
    gdt_at ts_at idt_at mpenter_at entrypgdir_at vectors ids me fl m (disk : ide H) (s : boot H P) :
  platform (P := P) kend kdata initcode entryother mem mp_fuel lapic_fuel hw0 gdt_at idt_at mpenter_at vectors ids me -> 0 <= ts_at me < 2 ^ 32 -> cold kend disk s ->
  readable fl -> mkfs_main (argv fl) mk_start = Ok tt m ->
  let disk' := ideinit (ide_hw disk) in dwf disk' -> holds disk' (m_img m) -> dvalid disk' EXT2DEV 1 ->
  exists s', (main kend kdata initcode entryother junk mem mp_fuel lapic_fuel hw0 ap_dev gdt_at idt_at mpenter_at entrypgdir_at vectors ;; schedule hw0 ts_at ;;
      run_forkret hw0 true) s = Ok false s' /\
    first_process kend kdata initcode ts_at me s' /\ reads_back fl (b_kern s').
Proof.
  intros Hpf Hts Hcold Hrd Hm disk' Hwf Hholds Hext. pose proof Hrd as [Hfits Hnul Hlen Htot Hfull Hnd].
  destruct (proj1 (wp_ok _ _ _) (wp_mkfs_main fl Hfits Hlen Htot)) as ([] & m' & Hm' & Hfmt & Hg). rewrite Hm in Hm'. injection Hm' as <-.
  destruct (proj1 (wp_ok _ _ _) (wp_start kend kdata initcode entryother junk mem mp_fuel lapic_fuel hw0 ap_dev gdt_at ts_at idt_at mpenter_at entrypgdir_at vectors ids me Hpf Hts
    disk s (m_img m) Hcold Hfmt (gm_sb _ _ Hg) Hwf Hholds Hext)) as (first & s' & Hs' & -> & Hfp & c0 & v & Hid & Hb).
  exists s'. split; [exact Hs'|]. split; [exact Hfp|]. eapply booted_reads; try eassumption.
  destruct Hfp as (d & T & X & l & d' & stack & _ & _ & Hps & Hcur & _). exists (init_running d' stack). rewrite Hps, Hcur. split; reflexivity.
Qed.

(** ** A machine with a disk *)
Definition pc_ts (c : nat) : Z := 2148597820 + 176 * Z.of_nat c.

(** The disk of the machine after [ideinit]. *)
Lemma pc_disk img : formatted img -> let d := ideinit (image_hw (fun _ => 0) img) in dwf d /\ holds d img /\ dvalid d EXT2DEV 1.
Proof.
  intros Hf d. assert (exists reg, ide_hw d = image_hw reg img) as [reg Hreg].
  { unfold d, image_hw. generalize (sectors (image_sector img) (list_to_set (seqZ 0 2000))). intros st. eexists. reflexivity. }
  apply (image_disk_holds reg); [done|done|..]; unfold d, image_hw; generalize (sectors (image_sector img) (list_to_set (seqZ 0 2000))); intros st; by vm_compute.
Qed.

Lemma power_on_reads_witness :
  exists m s' k2, mkfs_main (argv two_files) mk_start = Ok tt m /\
    (main pc_end pc_data (replicate 44 144) (replicate 100 144) [] smp_memory 5 1 0 (fun _ => Silent) pc_gdt 2148600000 2148540000 2148569088 pc_vectors ;; schedule 0 pc_ts ;;
      run_forkret 0 true) (pc_cold (set_hw (image_hw (fun _ => 0) (m_img m)) sim_blank)) = Ok false s' /\
    read_file (fun _ => None) 0 (replicate 255 0) [47; 99; 97; 116] 0 100 (b_kern s') = Ok (Some (4, [1; 2; 3; 4])) k2.
Proof.
  destruct (proj1 (wp_ok _ _ _) (wp_mkfs_main two_files (rd_fits _ two_files_readable) (rd_count _ two_files_readable) (rd_total _ two_files_readable))) as ([] & m & Hm & Hfm & _).
  destruct (pc_disk (m_img m) Hfm) as (H1 & H2 & H3).
  destruct (power_on_reads pc_end pc_data (replicate 44 144) (replicate 100 144) [] smp_memory 5 1 0 (fun _ => Silent) pc_gdt pc_ts 2148600000 2148540000 2148569088 pc_vectors [0; 1] 0
    two_files m (set_hw (image_hw (fun _ => 0) (m_img m)) sim_blank) (pc_cold _) pc_platform ltac:(unfold pc_ts; lia) (pc_is_cold _) two_files_readable Hm H1 H2 H3) as (s' & Hs' & _ & Hread).
  assert (exists k2, read_file (fun _ => None) 0 (replicate 255 0) [47; 99; 97; 116] 0 100 (b_kern s') = Ok (Some (4, [1; 2; 3; 4])) k2) as (k2 & E2).
  { clear - Hread. destruct (Hread (fun _ => None) 0%nat (replicate 255 0) 0%nat _ 0 100 ltac:(by apply Forall_replicate) ltac:(unfold DIRSIZ; cbn; lia) eq_refl) as (k2 & E2);
      [done|done|by apply (bool_decide_unpack _)|split; [done|by apply Z.leb_le; vm_compute]|lia|]. exists k2. exact E2. }
  exists m, s', k2. split; [exact Hm|]. split; [exact Hs'|]. exact E2.
Defined.
