(* ===== verification/Asm.v ===== *)
(** The assembly code (swtch.S, trapasm.S, vectors.pl, usys.S, initcode.S, entry.S, entryother.S, bootasm.S), on a machine with the registers, the
    segments and the stack of the processor.

    A routine is the sequence of its instructions; an instruction is a computation on the state of the machine, and [Fault] is an exception of the processor.
    Segments are read from the descriptors in the format of mmu.h ([Seg.v]); memory is by words at linear addresses, and a word that is not there is
    one that is not mapped. [pad] is what a processor leaves in the upper half of a word to which it pushes a segment register, and [alu] what
    arithmetic makes of the flags; both are left open. Functions in C that are called are arguments. *)

From S2P Require Import Prelude Bytes Kalloc Vm Kernel Proc Trap Seg Port.

Inductive reg := EAX | ECX | EDX | EBX | ESP | EBP | ESI | EDI.
Inductive sreg := ES | CS | SS | DS | FS | GS.
#[export] Instance reg_eq_dec : EqDecision reg.
Proof. solve_decision. Defined.
#[export] Instance sreg_eq_dec : EqDecision sreg.
Proof. solve_decision. Defined.

(** The registers, the tables (as the processor has read them through its table registers), the stack for entry to the kernel, memory, and the devices. *)
Record x86 (P : Type) := X86 {
  x_reg : reg -> Z; x_seg : sreg -> Z; x_eflags : Z; x_eip : Z; x_cr0 : Z; x_cr3 : Z; x_cr4 : Z;
  x_gdt : list Z; x_idt : list Z; x_esp0 : Z; x_ss0 : Z; x_mem : gmap Z Z; x_dev : P;
}.
Arguments X86 {P}.
Arguments x_reg {P}.
Arguments x_seg {P}.
Arguments x_eflags {P}.
Arguments x_eip {P}.
Arguments x_cr0 {P}.
Arguments x_cr3 {P}.
Arguments x_cr4 {P}.
Arguments x_gdt {P}.
Arguments x_idt {P}.
Arguments x_esp0 {P}.
Arguments x_ss0 {P}.
Arguments x_mem {P}.
Arguments x_dev {P}.

(** [struct trapframe] of x86.h, from the words of a frame, lowest address first; its members of 16 bits are followed by paddings. *)
Definition tf_of (ws : list Z) : option trapframe :=
  match ws with
  | [edi; esi; ebp; oesp; ebx; edx; ecx; eax; gs; fs; es; ds; trapno; err; eip; cs; eflags; esp; ss] =>
      Some (Trapframe edi esi ebp oesp ebx edx ecx eax (u16 gs) (u16 fs) (u16 es) (u16 ds) trapno err eip (u16 cs) eflags esp (u16 ss))
  | _ => None
  end.

Definition upd {K} `{EqDecision K} (k : K) (v : Z) (f : K -> Z) : K -> Z := fun k' => if decide (k' = k) then v else f k'.

Section Setters.
Context {P : Type}.
Implicit Types s : x86 P.
Definition xs_reg f s : x86 P := X86 f (x_seg s) (x_eflags s) (x_eip s) (x_cr0 s) (x_cr3 s) (x_cr4 s) (x_gdt s) (x_idt s) (x_esp0 s) (x_ss0 s) (x_mem s) (x_dev s).
Definition xs_seg f s : x86 P := X86 (x_reg s) f (x_eflags s) (x_eip s) (x_cr0 s) (x_cr3 s) (x_cr4 s) (x_gdt s) (x_idt s) (x_esp0 s) (x_ss0 s) (x_mem s) (x_dev s).
Definition xs_eflags v s : x86 P := X86 (x_reg s) (x_seg s) v (x_eip s) (x_cr0 s) (x_cr3 s) (x_cr4 s) (x_gdt s) (x_idt s) (x_esp0 s) (x_ss0 s) (x_mem s) (x_dev s).
Definition xs_eip v s : x86 P := X86 (x_reg s) (x_seg s) (x_eflags s) v (x_cr0 s) (x_cr3 s) (x_cr4 s) (x_gdt s) (x_idt s) (x_esp0 s) (x_ss0 s) (x_mem s) (x_dev s).
Definition xs_cr0 v s : x86 P := X86 (x_reg s) (x_seg s) (x_eflags s) (x_eip s) v (x_cr3 s) (x_cr4 s) (x_gdt s) (x_idt s) (x_esp0 s) (x_ss0 s) (x_mem s) (x_dev s).
Definition xs_cr3 v s : x86 P := X86 (x_reg s) (x_seg s) (x_eflags s) (x_eip s) (x_cr0 s) v (x_cr4 s) (x_gdt s) (x_idt s) (x_esp0 s) (x_ss0 s) (x_mem s) (x_dev s).
Definition xs_cr4 v s : x86 P := X86 (x_reg s) (x_seg s) (x_eflags s) (x_eip s) (x_cr0 s) (x_cr3 s) v (x_gdt s) (x_idt s) (x_esp0 s) (x_ss0 s) (x_mem s) (x_dev s).
Definition xs_gdt v s : x86 P := X86 (x_reg s) (x_seg s) (x_eflags s) (x_eip s) (x_cr0 s) (x_cr3 s) (x_cr4 s) v (x_idt s) (x_esp0 s) (x_ss0 s) (x_mem s) (x_dev s).
Definition xs_mem v s : x86 P := X86 (x_reg s) (x_seg s) (x_eflags s) (x_eip s) (x_cr0 s) (x_cr3 s) (x_cr4 s) (x_gdt s) (x_idt s) (x_esp0 s) (x_ss0 s) v (x_dev s).
Definition xs_dev v s : x86 P := X86 (x_reg s) (x_seg s) (x_eflags s) (x_eip s) (x_cr0 s) (x_cr3 s) (x_cr4 s) (x_gdt s) (x_idt s) (x_esp0 s) (x_ss0 s) (x_mem s) v.
End Setters.

Section Machine.
Context {P : Type} `{Ports P} (pad alu : Z -> Z).
Abbreviation st := (x86 P).
Implicit Types s : st.

(** ** Segments *)

(** [CR0_PE]. *)
Definition protected s : bool := Z.testbit (x_cr0 s) 0.
Definition cpl s : Z := x_seg s CS mod 4.
Definition descriptor s (sel : Z) : option Z :=
  if (sel / 8 =? 0) || Z.testbit sel 2 then None else x_gdt s !! Z.to_nat (sel / 8).

Definition usable (w : Z) : bool := (desc_p w =? 1) && (desc_s w =? 1).
Definition is_code (w : Z) : bool := usable w && Z.testbit (desc_type w) 3.
Definition readable (w : Z) : bool := usable w && (negb (Z.testbit (desc_type w) 3) || Z.testbit (desc_type w) 1).
Definition writable (w : Z) : bool := usable w && negb (Z.testbit (desc_type w) 3) && Z.testbit (desc_type w) 1.

(** The linear address of a word, for a read or a write. *)
Definition linear (write : bool) s (r : sreg) (a : Z) : option Z :=
  if protected s then
    w ← descriptor s (x_seg s r);
    if (if write then writable w else readable w) && (a + 3 <=? seg_limit w) then Some (u32 (seg_base w + a)) else None
  else if a + 3 <=? 65535 then Some (16 * x_seg s r + a) else None.

Definition mem_rd (r : sreg) (a : Z) : M st Z := fun s =>
  match linear false s r a with
  | Some l => if l mod 4 =? 0 then match x_mem s !! l with Some v => Ok v s | None => Fault end else Fault
  | None => Fault
  end.
Definition mem_wr (r : sreg) (a v : Z) : M st unit := fun s =>
  match linear true s r a with
  | Some l => if l mod 4 =? 0 then match x_mem s !! l with Some _ => Ok tt (xs_mem (<[l := v]> (x_mem s)) s) | None => Fault end else Fault
  | None => Fault
  end.

(** The checks for loading a segment register other than CS, which depend on its kind and on the privilege. *)
Definition loadable s (r : sreg) (sel : Z) : bool :=
  match r with
  | SS => match descriptor s sel with Some w => writable w && (desc_dpl w =? cpl s) && (sel mod 4 =? cpl s) | None => false end
  | _ => (sel / 4 =? 0) || match descriptor s sel with Some w => readable w && (cpl s <=? desc_dpl w) && (sel mod 4 <=? desc_dpl w) | None => false end
  end.

(** ** Instructions *)
Definition rget (r : reg) : M st Z := gets (fun s => x_reg s r).
Definition rput (r : reg) (v : Z) : M st unit := modify (fun s => xs_reg (upd r v (x_reg s)) s).
Definition get_seg (r : sreg) : M st Z := gets (fun s => x_seg s r).
Definition put_seg (r : sreg) (v : Z) : M st unit := modify (fun s => xs_seg (upd r v (x_seg s)) s).
Definition load_seg (r : sreg) (sel : Z) : M st unit :=
  ok ← gets (fun s => negb (protected s) || loadable s r sel);
  if (ok : bool) then put_seg r sel else fault.
Definition arith : M st unit := modify (fun s => xs_eflags (alu (x_eflags s)) s).

Definition push_with (f : Z -> Z) : M st unit :=
  sp ← rget ESP;
  let sp := u32 (sp - 4) in
  old ← mem_rd SS sp;
  mem_wr SS sp (f old) ;;
  rput ESP sp.
Definition push (v : Z) : M st unit := push_with (fun _ => v).
(** A selector fills the lower half of the word. *)
Definition push_sel (v : Z) : M st unit := push_with (fun old => u16 v + 65536 * u16 (pad old)).
Definition pop : M st Z := sp ← rget ESP; v ← mem_rd SS sp; rput ESP (u32 (sp + 4)) ;; mret v.

Definition pushl (r : reg) : M st unit := v ← rget r; push v.
Definition popl (r : reg) : M st unit := v ← pop; rput r v.
Definition pushl_seg (r : sreg) : M st unit := v ← get_seg r; push_sel v.
Definition popl_seg (r : sreg) : M st unit := v ← pop; load_seg r (u16 v).
Definition movl (src dst : reg) : M st unit := v ← rget src; rput dst v.
Definition addl (n : Z) (r : reg) : M st unit := v ← rget r; rput r (u32 (v + n)) ;; arith.
Definition orl (n : Z) (r : reg) : M st unit := v ← rget r; rput r (Z.lor v n) ;; arith.
(** [movl d(%b), %r] and [movl %r, (%b)]. *)
Definition load (d : Z) (b r : reg) : M st unit := a ← rget b; v ← mem_rd (if decide (b = ESP) then SS else DS) (u32 (a + d)); rput r v.
Definition store (r b : reg) : M st unit := v ← rget r; a ← rget b; mem_wr (if decide (b = ESP) then SS else DS) a v.
(** [movw $n, %ax], [movw %ax, %sr]. *)
Definition movw_ax (n : Z) : M st unit := v ← rget EAX; rput EAX (65536 * (v / 65536) + u16 n).
Definition movw_seg (r : sreg) : M st unit := v ← rget EAX; load_seg r (u16 v).
Definition jmp (a : Z) : M st unit := modify (xs_eip a).
Definition ret : M st unit := a ← pop; jmp a.
(** [call f]: the function begins with the address of the next instruction, [next], on the stack, and ends with its own [ret]. *)
Definition call (next : Z) (f : M st unit) : M st unit := push next ;; f.

Definition pushal : M st unit :=
  sp ← rget ESP;
  pushl EAX ;; pushl ECX ;; pushl EDX ;; pushl EBX ;; push sp ;; pushl EBP ;; pushl ESI ;; pushl EDI.
Definition popal : M st unit :=
  popl EDI ;; popl ESI ;; popl EBP ;; _ ← pop; popl EBX ;; popl EDX ;; popl ECX ;; popl EAX.

(** The code [m], which is at [a]: [Fault] if the processor has gone somewhere else. *)
Definition code_at (a : Z) (m : M st unit) : M st unit := pc ← gets x_eip; guard_ok (negb (pc =? a)) fault ;; m.

(** ** Entry to the kernel and return, as the processor does it *)

(** Exceptions that come with an error code. *)
Definition has_error (n : nat) : bool := bool_decide (n = 8 \/ 10 <= n <= 14 \/ n = 17)%nat.

Definition FL_TF : Z := 0x100.
Definition FL_NT : Z := 0x4000.
Definition FL_RF : Z := 0x10000.
Definition FL_VM : Z := 0x20000.

(** What is pushed for vector [n], whose gate is [g]; [old] is the code segment to return to, and [err] the error code of an exception. *)
Definition deliver (soft : bool) (n : nat) (err g old : Z) : M st unit :=
  fl ← gets x_eflags;
  push fl ;;
  push_sel old ;;
  pc ← gets x_eip;
  push pc ;;
  (if has_error n && negb soft then push err else mret tt) ;;
  modify (xs_eflags (Z.ldiff fl (FL_TF + FL_NT + FL_RF + FL_VM + (if desc_type g =? STS_IG32 then FL_IF else 0)))) ;;
  jmp (gate_offset g).

(** Vector [n] is taken, by the instruction [int] if [soft]. *)
Definition interrupt (soft : bool) (n : nat) (err : Z) : M st unit :=
  idt ← gets x_idt;
  g ← deref (idt !! n);
  here ← gets cpl;
  guard_ok (negb (desc_p g =? 1) || soft && (desc_dpl g <? here)) fault ;;
  cs ← gets (fun s => descriptor s (gate_sel g));
  cs ← deref cs;
  let there := desc_dpl cs in
  guard_ok (negb (is_code cs) || (here <? there)) fault ;;
  ss ← get_seg SS;
  sp ← rget ESP;
  old ← get_seg CS;
  put_seg CS (gate_sel g / 4 * 4 + there) ;;
  (if there <? here then
     ss0 ← gets x_ss0; esp0 ← gets x_esp0;
     load_seg SS ss0 ;; rput ESP esp0 ;; push_sel ss ;; push sp
   else mret tt) ;;
  deliver soft n err g old.

(** A return to less privilege clears the segments that are above it. *)
Definition clear_seg (r : sreg) : M st unit :=
  bad ← gets (fun s => match descriptor s (x_seg s r) with Some w => desc_dpl w <? cpl s | None => false end);
  if (bad : bool) then put_seg r 0 else mret tt.

Definition iret : M st unit :=
  pc ← pop;
  cs ← pop;
  let cs := u16 cs in
  fl ← pop;
  here ← gets cpl;
  d ← gets (fun s => descriptor s cs);
  d ← deref d;
  guard_ok (negb (is_code d) || negb (desc_dpl d =? cs mod 4) || (cs mod 4 <? here)) fault ;;
  (if here <? cs mod 4 then
     sp ← pop; ss ← pop;
     put_seg CS cs ;; load_seg SS (u16 ss) ;; rput ESP sp ;;
     clear_seg ES ;; clear_seg DS ;; clear_seg FS ;; clear_seg GS
   else put_seg CS cs) ;;
  modify (xs_eflags fl) ;;
  jmp pc.

(** ** swtch.S *)
Definition swtch : M st unit :=
  load 4 ESP EAX ;;
  load 8 ESP EDX ;;
  pushl EBP ;;
  pushl EBX ;;
  pushl ESI ;;
  pushl EDI ;;
  store ESP EAX ;;
  movl EDX ESP ;;
  popl EDI ;;
  popl ESI ;;
  popl EBX ;;
  popl EBP ;;
  ret.

(** ** trapasm.S and vectors.pl *)
Definition trapret : M st unit :=
  popal ;;
  popl_seg GS ;;
  popl_seg FS ;;
  popl_seg ES ;;
  popl_seg DS ;;
  addl 8 ESP ;;
  iret.

(** [alltraps] up to the call. *)
Definition build_frame : M st unit :=
  pushl_seg DS ;;
  pushl_seg ES ;;
  pushl_seg FS ;;
  pushl_seg GS ;;
  pushal ;;
  movw_ax (selector SEG_KDATA) ;;
  movw_seg DS ;;
  movw_seg ES ;;
  pushl ESP.

Section Traps.
Context (next : Z) (trap : M st unit).

Definition alltraps : M st unit :=
  build_frame ;;
  call next trap ;;
  addl 4 ESP ;;
  trapret.

Definition vector (i : nat) : M st unit :=
  guard_ok (negb (bool_decide (i = 8 \/ (10 <= i /\ i <= 14) \/ i = 17)%nat)) (push 0) ;;
  push (Z.of_nat i) ;;
  alltraps.

(** An interrupt or exception, from the processor's entry to the end of the handler; [vectors] are the places of the entry points. *)
Definition take (vectors : list Z) (soft : bool) (n : nat) (err : Z) : M st unit :=
  interrupt soft n err ;;
  pc ← gets x_eip;
  guard_ok (negb (bool_decide (vectors !! n = Some pc))) fault ;;
  vector n.

(** ** usys.S and initcode.S, where [after] is the address behind [int] *)
Definition usys (vectors : list Z) (after num : Z) : M st unit :=
  rput EAX num ;;
  jmp after ;; take vectors true (Z.to_nat T_SYSCALL) 0 ;;
  ret.

Definition initcode (vectors : list Z) (after init_at argv_at : Z) : M st unit :=
  push argv_at ;;
  push init_at ;;
  push 0 ;;
  rput EAX 7 ;;
  jmp after ;; take vectors true (Z.to_nat T_SYSCALL) 0.
End Traps.

(** ** The stack of a new process ([allocproc] in proc.c): where its trap frame and its context are *)
Definition SIZEOF_TRAPFRAME : Z := 76.
Definition SIZEOF_CONTEXT : Z := 20.
Definition word_wr (a v : Z) (m : gmap Z Z) : gmap Z Z := <[u32 a := v]> m.
Definition new_stack (kstack trapret_at forkret_at : Z) (m : gmap Z Z) : Z * Z * gmap Z Z :=
  let sp := kstack + KSTACKSIZE in
  let sp := sp - SIZEOF_TRAPFRAME in
  let tf := sp in
  let sp := sp - 4 in
  let m := word_wr sp trapret_at m in
  let sp := sp - SIZEOF_CONTEXT in
  let context := sp in
  let m := foldl (fun m k => word_wr (context + 4 * k) 0 m) m [0; 1; 2; 3; 4] in
  (tf, context, word_wr (context + 16) forkret_at m).

(** ** entry.S *)
Definition CR0_PE : Z := 0x00000001.
Definition CR0_WP : Z := 0x00010000.
Definition CR0_PG : Z := 0x80000000.
Definition CR4_PSE : Z := 0x00000010.

Definition movl_from (f : st -> Z) (r : reg) : M st unit := v ← gets f; rput r v.
Definition movl_to (f : Z -> st -> st) (r : reg) : M st unit := v ← rget r; modify (f v).

Definition entry (entrypgdir_at stack_at main_at : Z) : M st unit :=
  movl_from x_cr4 EAX ;;
  orl CR4_PSE EAX ;;
  movl_to xs_cr4 EAX ;;
  rput EAX (V2P entrypgdir_at) ;;
  movl_to xs_cr3 EAX ;;
  movl_from x_cr0 EAX ;;
  orl (Z.lor CR0_PG CR0_WP) EAX ;;
  movl_to xs_cr0 EAX ;;
  rput ESP (u32 (stack_at + KSTACKSIZE)) ;;
  rput EAX main_at ;;
  movl_to xs_eip EAX.

(** ** From real to protected mode, in entryother.S and bootasm.S *)
Definition cli : M st unit := modify (fun s => xs_eflags (Z.ldiff (x_eflags s) FL_IF) s).

(** [lgdt] in code for 16 bits takes 24 bits of the base; the table is read at once, since it does not change. *)
Definition gdt_read (base : Z) (n : nat) (m : gmap Z Z) : option (list Z) :=
  mapM (fun i => lo ← m !! (base + 8 * Z.of_nat i); hi ← m !! (base + 8 * Z.of_nat i + 4); Some (lo + 2 ^ 32 * hi)) (seq 0 n).
Definition lgdt16 (a : Z) : M st unit :=
  w0 ← mem_rd DS a;
  w1 ← mem_rd DS (a + 4);
  let limit := w0 mod 65536 in
  let base := (w0 / 65536 + 65536 * w1) mod 2 ^ 24 in
  m ← gets x_mem;
  t ← deref (if base mod 4 =? 0 then gdt_read base (Z.to_nat ((limit + 1) / 8)) m else None);
  modify (xs_gdt t).

Definition ljmp (sel off : Z) : M st unit :=
  d ← gets (fun s => descriptor s sel);
  d ← deref d;
  here ← gets cpl;
  guard_ok (negb (is_code d) || negb (desc_dpl d =? here)) fault ;;
  put_seg CS (sel / 4 * 4 + here) ;;
  jmp off.

Definition zero_segments : M st unit :=
  cli ;;
  movw_ax 0 ;; arith ;;
  movw_seg DS ;;
  movw_seg ES ;;
  movw_seg SS.
Definition to_protected (gdtdesc start32 : Z) : M st unit :=
  lgdt16 gdtdesc ;;
  movl_from x_cr0 EAX ;;
  orl CR0_PE EAX ;;
  movl_to xs_cr0 EAX ;;
  ljmp (selector SEG_KCODE) start32.
Definition data_segments : M st unit :=
  movw_ax (selector SEG_KDATA) ;;
  movw_seg DS ;;
  movw_seg ES ;;
  movw_seg SS ;;
  movw_ax 0 ;;
  movw_seg FS ;;
  movw_seg GS.

(** [SEG_NULLASM] and [SEG_ASM] of asm.h, and the table that both files end with. *)
Definition SEG_NULLASM : list Z := [0; 0; 0; 0; 0; 0; 0; 0].
Definition SEG_ASM (type base lim : Z) : list Z :=
  le_enc 2 (Z.land (Z.shiftr lim 12) 0xffff) ++ le_enc 2 (Z.land base 0xffff) ++
  [Z.land (Z.shiftr base 16) 0xff; Z.lor 0x90 type; Z.lor 0xC0 (Z.land (Z.shiftr lim 28) 0xf); Z.land (Z.shiftr base 24) 0xff].
Definition gdt_bytes : list Z := SEG_NULLASM ++ SEG_ASM (Z.lor STA_X STA_R) 0 0xffffffff ++ SEG_ASM STA_W 0 0xffffffff.
Definition gdtdesc_bytes (gdt : Z) : list Z := le_enc 2 (Z.of_nat (length gdt_bytes) - 1) ++ le_enc 4 gdt.

(** ** entryother.S, up to the call of [mpenter] *)
Definition entryother (start gdtdesc start32 next : Z) : M st unit :=
  zero_segments ;;
  to_protected gdtdesc start32 ;;
  data_segments ;;
  movl_from x_cr4 EAX ;;
  orl CR4_PSE EAX ;;
  movl_to xs_cr4 EAX ;;
  v ← mem_rd DS (start - 12); rput EAX v ;;
  movl_to xs_cr3 EAX ;;
  movl_from x_cr0 EAX ;;
  orl (Z.lor CR0_PE (Z.lor CR0_PG CR0_WP)) EAX ;;
  movl_to xs_cr0 EAX ;;
  v ← mem_rd DS (start - 4); rput ESP v ;;
  f ← mem_rd DS (start - 8); call next (jmp f).

(** ** bootasm.S, up to the call of [bootmain] *)
Definition put_al (v : Z) : M st unit := a ← rget EAX; rput EAX (256 * (a / 256) + u8 v).
Definition xdev {A} (m : M P A) : M st A := zoom x_dev xs_dev m.
Fixpoint seta20 (fuel : nat) : M st unit :=
  match fuel with
  | O => nofuel
  | S fuel =>
      al ← xdev (inb 0x64);
      put_al al ;;
      arith ;;
      if negb (Z.land al 0x2 =? 0) then seta20 fuel else mret tt
  end.
Definition out_al (port v : Z) : M st unit := put_al v ;; xdev (outb port v).

Definition bootasm (fuel : nat) (start gdtdesc start32 next bootmain_at : Z) : M st unit :=
  zero_segments ;;
  seta20 fuel ;;
  out_al 0x64 0xd1 ;;
  seta20 fuel ;;
  out_al 0x60 0xdf ;;
  to_protected gdtdesc start32 ;;
  data_segments ;;
  rput ESP start ;;
  call next (jmp bootmain_at).
End Machine.
