(* ===== verification/AsmSpec.v ===== *)
(** The assembly code: switches between kernel stacks, entry to the kernel and return from it, and the start of a processor. *)

From S2P Require Import Prelude Bytes Kalloc Vm Kernel Proc Trap Seg Port Asm.

Lemma upd_eq {K} `{EqDecision K} (k : K) v f : upd k v f k = v.
Proof. unfold upd. by rewrite decide_True. Qed.

(** ** Segments *)
Definition flat {P} (s : x86 P) (r : sreg) : Prop :=
  protected s = true /\ exists w, descriptor s (x_seg s r) = Some w /\ seg_base w = 0 /\ seg_limit w = 2 ^ 32 - 1 /\ writable w = true.

Lemma writable_readable w : writable w = true -> readable w = true.
Proof. unfold writable, readable. destruct (usable w), (Z.testbit (desc_type w) 3); done. Qed.

Section Words.
Context {P : Type}.
Implicit Types s : x86 P.

Lemma linear_flat write s r a : flat s r -> 0 <= a -> a + 3 < 2 ^ 32 -> linear write s r a = Some a.
Proof.
  intros (Hp & w & Hd & Hb & Hl & Hw) Ha Hm. unfold linear. rewrite Hp, Hd. cbn. rewrite Hw, (writable_readable w Hw), Hb, Hl.
  assert ((a + 3 <=? 2 ^ 32 - 1) = true) as -> by (apply Z.leb_le; lia). rewrite u32_small by lia. by destruct write.
Qed.

Lemma wp_rd s r a v Q : flat s r -> 0 <= a -> a + 3 < 2 ^ 32 -> a mod 4 = 0 -> x_mem s !! a = Some v -> Q v s -> wp (mem_rd r a) s Q.
Proof. intros Hf Ha Hm H4 Hv HQ. unfold wp, mem_rd. by rewrite linear_flat, H4, Z.eqb_refl, Hv. Qed.

Lemma wp_wr s r a v w Q : flat s r -> 0 <= a -> a + 3 < 2 ^ 32 -> a mod 4 = 0 -> x_mem s !! a = Some w -> Q tt (xs_mem (<[a := v]> (x_mem s)) s) -> wp (mem_wr r a v) s Q.
Proof. intros Hf Ha Hm H4 Hv HQ. unfold wp, mem_wr. by rewrite linear_flat, H4, Z.eqb_refl, Hv. Qed.
End Words.

(** ** The stack

    [stack m0 lo top sp vs m]: in the memory [m] the stack pointer [sp] is at the words [vs]; from [lo] to [top] there is room, and outside of it memory is as
    in [m0]. *)
Definition words (a : Z) (vs : list Z) (m : gmap Z Z) : Prop := forall k v, vs !! k = Some v -> m !! (a + 4 * Z.of_nat k) = Some v.

Lemma words_cons a v vs m : words a (v :: vs) m <-> m !! a = Some v /\ words (a + 4) vs m.
Proof.
  split.
  - intros Hw. split; [rewrite <- (Hw 0%nat v) by done; f_equal; lia|]. intros k x Hk. rewrite <- (Hw (S k) x) by done. f_equal. lia.
  - intros [Hv Hw] [|k] x Hk; [injection Hk as <-; rewrite <- Hv; f_equal; lia|]. rewrite <- (Hw k x) by done. f_equal. lia.
Qed.

Record stack (m0 : gmap Z Z) (lo top sp : Z) (vs : list Z) (m : gmap Z Z) : Prop := {
  sk_align : sp mod 4 = 0;
  sk_range : 0 <= lo <= sp /\ top < 2 ^ 32 /\ sp + 4 * Z.of_nat (length vs) < 2 ^ 32;
  sk_room : forall a, lo <= a < top -> a mod 4 = 0 -> is_Some (m !! a);
  sk_same : forall a, ~ (lo <= a < top) -> m !! a = m0 !! a;
  sk_words : words sp vs m;
}.

Lemma words_insert a b v vs m : b + 4 <= a \/ a + 4 * Z.of_nat (length vs) <= b -> words a vs m -> words a vs (<[b := v]> m).
Proof. intros Hb Hw k x Hk. pose proof (lookup_lt_Some _ _ _ Hk). rewrite lookup_insert_ne by lia. by apply Hw. Qed.

Lemma stack_push m0 lo top sp vs m v : lo + 4 <= sp <= top -> stack m0 lo top sp vs m ->
  is_Some (m !! (sp - 4)) /\ stack m0 lo top (sp - 4) (v :: vs) (<[sp - 4 := v]> m).
Proof.
  intros Hsp [Ha Hr Hroom Hsame Hw]. split; [apply Hroom; [lia|elia]|]. split.
  - elia.
  - cbn. lia.
  - intros a Hin H4. destruct (decide (a = sp - 4)) as [->|]; [rewrite lookup_insert_eq; by eexists|]. rewrite lookup_insert_ne by done. by apply Hroom.
  - intros a Hout. rewrite lookup_insert_ne by lia. by apply Hsame.
  - apply words_cons. split; [apply lookup_insert_eq|]. replace (sp - 4 + 4) with sp by lia. apply words_insert; [lia|done].
Qed.

Lemma stack_pop m0 lo top sp v vs m : stack m0 lo top sp (v :: vs) m -> m !! sp = Some v /\ stack m0 lo top (sp + 4) vs m.
Proof.
  intros [Ha Hr Hroom Hsame Hw]. apply words_cons in Hw as [Hv Hw]. split; [done|]. cbn in Hr. split; [elia|lia|done|done|done].
Qed.

Ltac xsimpl :=
  cbv beta delta [xs_reg xs_seg xs_eflags xs_eip xs_cr0 xs_cr3 xs_cr4 xs_gdt xs_mem xs_dev];
  cbn [x_reg x_seg x_eflags x_eip x_cr0 x_cr3 x_cr4 x_gdt x_idt x_esp0 x_ss0 x_mem x_dev].
(** A push or a pop on the stack of [H], as the next instruction. *)
Tactic Notation "push_step" uconstr(L) constr(H) constr(Hf) ident(m) ident(H') :=
  apply wp_bind; eapply L; cycle 2; [exact H|lia| |exact Hf|reflexivity || eassumption]; intros m H'; xsimpl.
Tactic Notation "pop_step" uconstr(L) hyp(H) constr(Hf) :=
  apply wp_bind; eapply L; cycle 2; [exact H| |exact Hf|reflexivity || eassumption]; clear H; intros H; xsimpl.

Section Stack.
Context {P : Type}.
Implicit Types s : x86 P.

Lemma wp_get_reg s r (Q : Z -> x86 P -> Prop) : Q (x_reg s r) s -> wp (rget r) s Q.
Proof. intros HQ. by apply wp_gets. Qed.
Lemma wp_put_reg s r v Q : Q tt (xs_reg (upd r v (x_reg s)) s) -> wp (rput r v) s Q.
Proof. intros HQ. by apply wp_modify. Qed.

Lemma wp_push_with m0 lo top sp vs s f Q : flat s SS -> x_reg s ESP = sp -> stack m0 lo top sp vs (x_mem s) -> lo + 4 <= sp <= top ->
  (forall old m', stack m0 lo top (sp - 4) (f old :: vs) m' -> Q tt (xs_reg (upd ESP (sp - 4) (x_reg s)) (xs_mem m' s))) -> wp (push_with f) s Q.
Proof.
  intros Hf Hsp Hst Hroom HQ. destruct (stack_push _ _ _ _ _ _ 0 Hroom Hst) as [[old Hold] _]. pose proof (sk_align _ _ _ _ _ _ Hst) as Ha. pose proof (sk_range _ _ _ _ _ _ Hst) as Hr.
  unfold push_with. apply wp_bind, wp_get_reg. rewrite Hsp, u32_small by lia. cbv zeta. apply wp_bind. eapply wp_rd; [done|lia|lia|elia|exact Hold|].
  apply wp_bind. eapply wp_wr; [done|lia|lia|elia|exact Hold|]. apply wp_put_reg. by apply (HQ old), stack_push.
Qed.

Lemma wp_pop_word m0 lo top sp v vs s Q : flat s SS -> x_reg s ESP = sp -> stack m0 lo top sp (v :: vs) (x_mem s) ->
  (stack m0 lo top (sp + 4) vs (x_mem s) -> Q v (xs_reg (upd ESP (sp + 4) (x_reg s)) s)) -> wp pop s Q.
Proof.
  intros Hf Hsp Hst HQ. pose proof (sk_align _ _ _ _ _ _ Hst) as Ha. pose proof (sk_range _ _ _ _ _ _ Hst) as Hr. cbn in Hr. destruct (stack_pop _ _ _ _ _ _ _ Hst) as [Hv Hst'].
  unfold pop. apply wp_bind, wp_get_reg. rewrite Hsp. apply wp_bind. eapply wp_rd; [done|lia|lia|done|exact Hv|]. apply wp_bind, wp_put_reg. rewrite u32_small by lia. apply wp_ret. by apply HQ.
Qed.

Lemma wp_push_word m0 lo top sp vs s v Q : flat s SS -> x_reg s ESP = sp -> stack m0 lo top sp vs (x_mem s) -> lo + 4 <= sp <= top ->
  (forall m', stack m0 lo top (sp - 4) (v :: vs) m' -> Q tt (xs_reg (upd ESP (sp - 4) (x_reg s)) (xs_mem m' s))) -> wp (push v) s Q.
Proof. intros Hf Hsp Hst Hroom HQ. eapply wp_push_with; [done|done|done|done|]. auto. Qed.

(** A push with its effect on the memory. *)
Lemma wp_push_exact s v sp w Q : flat s SS -> x_reg s ESP = sp -> sp mod 4 = 0 -> 4 <= sp < 2 ^ 32 -> x_mem s !! (sp - 4) = Some w ->
  Q tt (xs_reg (upd ESP (sp - 4) (x_reg s)) (xs_mem (<[sp - 4 := v]> (x_mem s)) s)) -> wp (push v) s Q.
Proof.
  intros Hf Hsp H4 Hr Hw HQ. unfold push, push_with. apply wp_bind, wp_get_reg. rewrite Hsp, u32_small by lia. cbv zeta. apply wp_bind. eapply wp_rd; [done|lia|lia|elia|exact Hw|].
  apply wp_bind. eapply wp_wr; [done|lia|lia|elia|exact Hw|]. by apply wp_put_reg.
Qed.

Lemma wp_pushl m0 lo top sp vs s r Q : flat s SS -> x_reg s ESP = sp -> stack m0 lo top sp vs (x_mem s) -> lo + 4 <= sp <= top ->
  (forall m', stack m0 lo top (sp - 4) (x_reg s r :: vs) m' -> Q tt (xs_reg (upd ESP (sp - 4) (x_reg s)) (xs_mem m' s))) -> wp (pushl r) s Q.
Proof. intros. apply wp_bind, wp_get_reg. by eapply wp_push_word. Qed.

Lemma wp_popl m0 lo top sp v vs s r Q : flat s SS -> x_reg s ESP = sp -> stack m0 lo top sp (v :: vs) (x_mem s) ->
  (stack m0 lo top (sp + 4) vs (x_mem s) -> Q tt (xs_reg (upd r v (upd ESP (sp + 4) (x_reg s))) s)) -> wp (popl r) s Q.
Proof. intros Hf Hsp Hst HQ. apply wp_bind. eapply wp_pop_word; [done|done|done|]. intros Hst'. apply wp_put_reg. by apply HQ. Qed.

Lemma wp_load s d b r a v Q : flat s (if decide (b = ESP) then SS else DS) -> x_reg s b = a -> 0 <= a + d -> a + d + 3 < 2 ^ 32 -> (a + d) mod 4 = 0 -> x_mem s !! (a + d) = Some v ->
  Q tt (xs_reg (upd r v (x_reg s)) s) -> wp (load d b r) s Q.
Proof. intros Hf Hb H0 Hm H4 Hv HQ. apply wp_bind, wp_get_reg. rewrite Hb, u32_small by lia. apply wp_bind. eapply wp_rd; [done|lia|lia|done|exact Hv|]. by apply wp_put_reg. Qed.

Lemma wp_store s b r a v w Q : flat s (if decide (b = ESP) then SS else DS) -> x_reg s b = a -> x_reg s r = v -> 0 <= a -> a + 3 < 2 ^ 32 -> a mod 4 = 0 -> x_mem s !! a = Some w ->
  Q tt (xs_mem (<[a := v]> (x_mem s)) s) -> wp (store r b) s Q.
Proof. intros Hf Hb Hr H0 Hm H4 Hv HQ. apply wp_bind, wp_get_reg. apply wp_bind, wp_get_reg. rewrite Hb, Hr. by eapply wp_wr. Qed.

(** ** swtch.S *)

(** [swtch(old, new)] saves the registers below the return address [next], stores in [old] where they are, and goes on where the context [new] has stopped. *)
Lemma wp_swtch m0 lo top sp s next old new rest edi esi ebx ebp eip Q :
  flat s SS -> flat s DS -> x_reg s ESP = sp -> stack m0 lo top sp (next :: old :: new :: rest) (x_mem s) -> lo + 16 <= sp <= top ->
  old mod 4 = 0 -> 0 <= old < 2 ^ 32 - 4 -> is_Some (m0 !! old) -> ~ (lo - 4 < old < top) ->
  new mod 4 = 0 -> 0 <= new -> new + 20 < 2 ^ 32 -> words new [edi; esi; ebx; ebp; eip] m0 -> new + 20 <= lo \/ top <= new -> old + 4 <= new \/ new + 20 <= old ->
  (forall s', (forall r, x_reg s' r = match r with EDI => edi | ESI => esi | EBX => ebx | EBP => ebp | ESP => new + 20 | EAX => old | EDX => new | ECX => x_reg s ECX end) ->
     (exists m, s' = xs_reg (x_reg s') (xs_eip eip (xs_mem (<[old := sp - 16]> m) s)) /\
       stack m0 lo top (sp - 16) (x_reg s EDI :: x_reg s ESI :: x_reg s EBX :: x_reg s EBP :: next :: old :: new :: rest) m) -> Q tt s') ->
  wp swtch s Q.
Proof.
  intros Hss Hds Hsp Hst Hroom H4 Hold Hin Hout Hn4 Hn0 Hnew Hctx Hapart Hon HQ. destruct (stack_pop _ _ _ _ _ _ _ Hst) as [Hnext Hst1].
  destruct (stack_pop _ _ _ _ _ _ _ Hst1) as [Hv1 Hst2]. destruct (stack_pop _ _ _ _ _ _ _ Hst2) as [Hv2 _]. pose proof (sk_align _ _ _ _ _ _ Hst) as Ha.
  pose proof (sk_range _ _ _ _ _ _ Hst) as Hr. cbn in Hr. replace (sp + 4 + 4) with (sp + 8) in Hv2 by lia. unfold swtch.
  apply wp_bind. eapply (wp_load s); [exact Hss|exact Hsp|lia|lia|elia|exact Hv1|]. apply wp_bind. eapply wp_load; [exact Hss|exact Hsp|lia|lia|elia|exact Hv2|].
  push_step wp_pushl Hst Hss m1 Hm1. push_step wp_pushl Hm1 Hss m2 Hm2. push_step wp_pushl Hm2 Hss m3 Hm3. push_step wp_pushl Hm3 Hss m4 Hm4.
  clear Hm1 Hm2 Hm3 Hst Hst1 Hst2. replace (sp - 4 - 4 - 4 - 4) with (sp - 16) in * by lia.
  assert (m4 !! old = m0 !! old) as Eold by (apply (sk_same _ _ _ _ _ _ Hm4); lia). destruct Hin as [w Hw].
  apply wp_bind. eapply (wp_store _ EAX ESP old (sp - 16)); [exact Hds|reflexivity|reflexivity|lia|lia|done|exact (eq_trans Eold Hw)|]. apply wp_bind, wp_bind, wp_get_reg, wp_put_reg.
  assert (stack (<[old := sp - 16]> m4) new new new [edi; esi; ebx; ebp; eip] (<[old := sp - 16]> m4)) as Hc.
  { split; [done|cbn; lia|intros; lia|done|]. apply words_insert; [cbn; lia|]. intros k x Hk. pose proof (lookup_lt_Some _ _ _ Hk). cbn in *. rewrite (sk_same _ _ _ _ _ _ Hm4) by lia. by apply Hctx. }
  do 4 pop_step wp_popl Hc Hss.
  pop_step wp_pop_word Hc Hss. apply wp_modify. apply HQ; [|by exists m4].
  intros []; try reflexivity. change (new + 4 + 4 + 4 + 4 + 4 = new + 20). lia.
Qed.

(** [swtch(old, new)] is about to run, with the return address [next] and free stack down to [lo]. *)
Record swtch_call s (lo next old new : Z) : Prop := {
  sc_flat : flat s SS /\ flat s DS;
  sc_stack : exists rest, stack (x_mem s) lo (x_reg s ESP) (x_reg s ESP) (next :: old :: new :: rest) (x_mem s);
  sc_room : lo + 16 <= x_reg s ESP;
  sc_old : old mod 4 = 0 /\ 0 <= old < 2 ^ 32 - 4 /\ is_Some (x_mem s !! old) /\ ~ (lo - 4 < old < x_reg s ESP + 4);
  sc_new : new mod 4 = 0 /\ 0 <= new /\ new + 20 < 2 ^ 32 /\ (new + 20 <= lo \/ x_reg s ESP <= new) /\ (old + 4 <= new \/ new + 20 <= old);
}.

(** The registers that belong to the processor and not to what runs on it. *)
Definition same_system s s' : Prop := x_cr0 s' = x_cr0 s /\ x_gdt s' = x_gdt s /\ x_idt s' = x_idt s /\ x_esp0 s' = x_esp0 s /\ x_ss0 s' = x_ss0 s.

(** The context that it leaves behind. *)
Definition context_of s (next : Z) : list Z := [x_reg s EDI; x_reg s ESI; x_reg s EBX; x_reg s EBP; next].

(** The registers that a function in C keeps for its caller, the stack pointer and the place are those of the context [ctx] at [a]. *)
Definition continues (a : Z) (ctx : list Z) s : Prop :=
  [x_reg s EDI; x_reg s ESI; x_reg s EBX; x_reg s EBP; x_eip s] = ctx /\ x_reg s ESP = a + 20.

Lemma swtch_switches s lo next old new ctx (Q : unit -> x86 P -> Prop) : swtch_call s lo next old new -> length ctx = 5%nat -> words new ctx (x_mem s) ->
  (forall s', continues new ctx s' -> x_seg s' = x_seg s -> same_system s s' -> x_mem s' !! old = Some (x_reg s ESP - 16) -> words (x_reg s ESP - 16) (context_of s next) (x_mem s') ->
     (forall a, ~ (lo <= a < x_reg s ESP) -> a <> old -> x_mem s' !! a = x_mem s !! a) -> Q tt s') ->
  wp swtch s Q.
Proof.
  intros [[Hss Hds] [rest Hst] Hroom (H4 & Hold & Hin & Hout) (Hn4 & Hn0 & Hnew & Hapart & Hon)] Hl Hctx HQ. destruct ctx as [|edi [|esi [|ebx [|ebp [|eip [|]]]]]]; try done.
  eapply wp_swtch; try eassumption; [reflexivity|lia|lia|]. intros s' Hr (m & Hs & Hm). apply HQ.
  - split; [|exact (Hr ESP)]. by rewrite !Hr, Hs.
  - by rewrite Hs.
  - by rewrite Hs.
  - rewrite Hs. apply lookup_insert_eq.
  - rewrite Hs. apply words_insert; [cbn; lia|]. intros k v Hk. apply (sk_words _ _ _ _ _ _ Hm). unfold context_of in Hk. by do 5 (destruct k as [|k]; [exact Hk|]).
  - intros a Ha Hne. rewrite Hs. cbn [x_mem xs_mem xs_eip xs_reg]. rewrite lookup_insert_ne by done. by apply (sk_same _ _ _ _ _ _ Hm).
Qed.
End Stack.

(** C15: A process that gives up the processor with [swtch(old, new)] gets it back as it was. [new] goes on where it stopped; when later, on any other stack, [swtch] is called with the
    context that the first call has stored in [old], and meanwhile nobody has written to that word, to the context or to the stack above it, up to [hi], then the first call returns: to its
    return address, with the registers that the caller relies on and the stack as they were. *)
Theorem swtch_resumes {P} (s : x86 P) lo next old new ctx hi (others : M (x86 P) unit) : swtch_call s lo next old new -> length ctx = 5%nat -> words new ctx (x_mem s) -> x_reg s ESP + 4 <= hi -> ~ (x_reg s ESP <= old < hi) ->
  (forall s1, continues new ctx s1 -> x_seg s1 = x_seg s -> same_system s s1 -> x_mem s1 !! old = Some (x_reg s ESP - 16) ->
     (forall a, ~ (lo <= a < x_reg s ESP) -> a <> old -> x_mem s1 !! a = x_mem s !! a) ->
     wp others s1 (fun _ s2 => exists lo2 next2 old2 new2, swtch_call s2 lo2 next2 old2 new2 /\ x_mem s2 !! old = Some new2 /\
       x_mem s2 !! old = x_mem s1 !! old /\ (forall a, x_reg s ESP - 16 <= a < hi -> x_mem s2 !! a = x_mem s1 !! a) /\
       (x_reg s2 ESP <= x_reg s ESP - 16 \/ hi <= lo2) /\ ~ (x_reg s ESP <= old2 < hi))) ->
  wp (swtch ;; others ;; swtch) s (fun _ s' =>
    continues (x_reg s ESP - 16) (context_of s next) s' /\ x_reg s' ESP = x_reg s ESP + 4 /\ forall a, x_reg s ESP <= a < hi -> x_mem s' !! a = x_mem s !! a).
Proof.
  intros Hc Hl Hctx Hhi Hold Hothers. apply wp_bind. eapply swtch_switches; [exact Hc|exact Hl|exact Hctx|]. intros s1 Hgo Hseg Hsys Hsaved Hw Hsame. apply wp_bind.
  eapply wp_mono; [by apply Hothers|]. intros [] s2 (lo2 & next2 & old2 & new2 & Hc2 & Hnew & Hkept & Hmine & Hapart & Hold2). rewrite Hkept, Hsaved in Hnew. injection Hnew as <-.
  pose proof (sc_old _ _ _ _ _ Hc2) as Ho2. destruct (sc_stack _ _ _ _ _ Hc) as [rest Hst]. pose proof (sk_range _ _ _ _ _ _ Hst) as Hr.
  eapply (swtch_switches s2 lo2 next2 old2 _ (context_of s next)); [exact Hc2|reflexivity| |].
  - intros k v Hk. pose proof (lookup_lt_Some _ _ _ Hk) as Hlt. cbn [length context_of] in Hlt. rewrite Hmine by lia. by apply Hw.
  - intros s3 Hgo3 _ _ _ _ Hsame3. split; [done|]. split; [destruct Hgo3 as [_ ->]; lia|]. intros a Ha. rewrite Hsame3, Hmine, Hsame by lia. done.
Qed.

(** ** The segments of the kernel *)
Section Tables.
Context {P : Type}.
Implicit Types s : x86 P.

(** The processor is in protected mode, with the descriptors of [seginit]. *)
Definition tables s : Prop := protected s = true /\ exists gdt, x_gdt s = seg_word <$> gdt /\ segments gdt.

Definition seg_at s (sel type dpl : Z) : Prop :=
  exists w, descriptor s sel = Some w /\ seg_base w = 0 /\ seg_limit w = 2 ^ 32 - 1 /\ desc_type w = type /\ desc_s w = 1 /\ desc_dpl w = dpl /\ desc_p w = 1.

(** Selectors for a data segment register that user code can have, and that the kernel can have. *)
Definition user_sel (sel : Z) : Prop := 0 <= sel < 4 \/ 24 <= sel < 28 \/ 32 <= sel < 36.
Definition kernel_sel (sel : Z) : Prop := user_sel sel \/ sel = 8 \/ sel = 16.

Lemma seg_at_in s (k : nat) sel type dpl gdt : x_gdt s = seg_word <$> gdt -> (exists d, gdt !! k = Some d /\ segment 0 (2 ^ 32 - 1) type 1 dpl d) -> (0 < k)%nat ->
  8 * Z.of_nat k <= sel < 8 * Z.of_nat k + 4 -> seg_at s sel type dpl.
Proof.
  intros Hg (d & Hd & Hb & Hl & Ht & Hs & Hp & H1) Hk Hsel. exists (seg_word d). split; [|by split_and!]. unfold descriptor.
  assert (sel / 8 = Z.of_nat k) as -> by elia. assert (Z.testbit sel 2 = false) as -> by (rewrite Z.testbit_false by lia; change (2 ^ 2) with 4; elia).
  rewrite orb_false_r, (proj2 (Z.eqb_neq _ _)) by lia. by rewrite Nat2Z.id, Hg, list_lookup_fmap, Hd.
Qed.

Lemma tables_seg s sel : tables s -> (sel = 8 -> seg_at s sel 10 0) /\ (sel = 16 -> seg_at s sel 2 0) /\ (24 <= sel < 28 -> seg_at s sel 10 3) /\ (32 <= sel < 36 -> seg_at s sel 2 3).
Proof.
  intros (_ & gdt & Hg & [_ H1 H2 H3 H4]). split_and!; intros Hsel; [eapply (seg_at_in s SEG_KCODE)|eapply (seg_at_in s SEG_KDATA)|eapply (seg_at_in s SEG_UCODE)|eapply (seg_at_in s SEG_UDATA)];
    try eassumption; unfold SEG_KCODE, SEG_KDATA, SEG_UCODE, SEG_UDATA; lia.
Qed.

Lemma flat_data s r dpl : protected s = true -> seg_at s (x_seg s r) 2 dpl -> flat s r.
Proof. intros Hp (w & Hd & Hb & Hl & Ht & Hs & _ & H1). split; [done|]. exists w. split_and!; try done. unfold writable, usable. by rewrite Ht, Hs, H1. Qed.

Lemma flat_kernel s r : tables s -> x_seg s r = 16 -> flat s r.
Proof. intros Ht Hr. apply (flat_data s r 0); [apply Ht|]. rewrite Hr. by apply (tables_seg s 16 Ht). Qed.
Lemma flat_user s r : tables s -> 32 <= x_seg s r < 36 -> flat s r.
Proof. intros Ht Hr. apply (flat_data s r 3); [apply Ht|]. by apply (tables_seg s (x_seg s r) Ht). Qed.

Lemma kernel_sel_loadable s r sel : tables s -> cpl s = 0 -> r <> SS -> kernel_sel sel -> loadable s r sel = true.
Proof.
  intros Ht Hc Hr Hsel. assert ((sel / 4 =? 0) || match descriptor s sel with Some w => readable w && (cpl s <=? desc_dpl w) && (sel mod 4 <=? desc_dpl w) | None => false end = true) as Hok; [|by destruct r].
  pose proof (tables_seg s sel Ht) as (H8 & H16 & H24 & H32). apply orb_true_iff. destruct Hsel as [[Hs|[Hs|Hs]]|[Hs|Hs]]; [left; apply Z.eqb_eq; elia|right..];
    [destruct (H24 Hs) as (w & -> & _ & _ & Ety & Es & Ed & Ep)|destruct (H32 Hs) as (w & -> & _ & _ & Ety & Es & Ed & Ep)|destruct (H8 Hs) as (w & -> & _ & _ & Ety & Es & Ed & Ep)
    |destruct (H16 Hs) as (w & -> & _ & _ & Ety & Es & Ed & Ep)]; unfold readable, usable; rewrite Ety, Es, Ep, Ed, Hc; cbn; apply Z.leb_le; subst; elia.
Qed.

Lemma wp_load_seg s r sel Q : tables s -> cpl s = 0 -> r <> SS -> kernel_sel sel -> Q tt (xs_seg (upd r sel (x_seg s)) s) -> wp (load_seg r sel) s Q.
Proof. intros Ht Hc Hr Hsel HQ. unfold load_seg. apply wp_bind, wp_gets. rewrite kernel_sel_loadable, orb_true_r by done. by apply wp_modify. Qed.
End Tables.

(** ** Entry to the kernel *)
Section Traps.
Context {P : Type} (pad alu : Z -> Z).
Implicit Types s : x86 P.

Lemma wp_push_sel m0 lo top sp vs s v Q : flat s SS -> x_reg s ESP = sp -> stack m0 lo top sp vs (x_mem s) -> lo + 4 <= sp <= top -> 0 <= v < 65536 ->
  (forall w m', u16 w = v -> stack m0 lo top (sp - 4) (w :: vs) m' -> Q tt (xs_reg (upd ESP (sp - 4) (x_reg s)) (xs_mem m' s))) -> wp (push_sel pad v) s Q.
Proof.
  intros Hf Hsp Hst Hroom Hv HQ. eapply wp_push_with; [done|done|done|done|]. intros old m' Hm. eapply HQ; [|exact Hm]. unfold u16. change (2 ^ 16) with 65536. elia.
Qed.

Lemma sel_range sel : kernel_sel sel -> 0 <= sel < 65536.
Proof. unfold kernel_sel, user_sel. lia. Qed.

Record kernel_mode s : Prop := { km_tables : tables s; km_cs : x_seg s CS = 8; km_ss : x_seg s SS = 16 }.
Lemma km_cpl s : kernel_mode s -> cpl s = 0.
Proof. intros [_ Hc _]. unfold cpl. by rewrite Hc. Qed.
Lemma km_flat s : kernel_mode s -> flat s SS.
Proof. intros [Ht _ Hs]. by apply flat_kernel. Qed.

Ltac push_seg H Hf w E m H' := apply wp_bind; apply wp_bind, wp_gets; eapply wp_push_sel; cycle 2; [exact H|lia| | |exact Hf|reflexivity || eassumption]; [apply sel_range; eauto|intros w m E H'; xsimpl].
Lemma wp_movw_ax s n Q : (forall v, u16 v = u16 n -> Q tt (xs_reg (upd EAX v (x_reg s)) s)) -> wp (movw_ax n) s Q.
Proof. clear pad alu. intros HQ. apply wp_bind, wp_get_reg, wp_put_reg, HQ. unfold u16. elia. Qed.
Lemma wp_movw_seg s r sel Q : tables s -> cpl s = 0 -> r <> SS -> kernel_sel sel -> u16 (x_reg s EAX) = sel -> Q tt (xs_seg (upd r sel (x_seg s)) s) -> wp (movw_seg r) s Q.
Proof. clear pad alu. intros Ht Hc Hr Hsel E HQ. apply wp_bind, wp_get_reg. rewrite E. by apply wp_load_seg. Qed.
Lemma kdata_sel : kernel_sel 16.
Proof. right. by right. Qed.

(** The first half of a trap frame. *)
Lemma wp_build_frame m0 lo top sp s tail Q : kernel_mode s -> (forall r, r <> CS -> r <> SS -> kernel_sel (x_seg s r)) -> x_reg s ESP = sp -> stack m0 lo top sp tail (x_mem s) -> lo + 52 <= sp <= top ->
  (forall f m g fs e d, f ESP = sp - 52 -> u16 g = x_seg s GS -> u16 fs = x_seg s FS -> u16 e = x_seg s ES -> u16 d = x_seg s DS ->
     stack m0 lo top (sp - 52) (sp - 48 :: x_reg s EDI :: x_reg s ESI :: x_reg s EBP :: sp - 16 :: x_reg s EBX :: x_reg s EDX :: x_reg s ECX :: x_reg s EAX :: g :: fs :: e :: d :: tail) m ->
     Q tt (xs_reg f (xs_seg (upd ES 16 (upd DS 16 (x_seg s))) (xs_mem m s)))) ->
  wp (build_frame pad) s Q.
Proof.
  intros Hk Hsel Hsp Hst Hroom HQ. pose proof (km_flat s Hk) as Hf. unfold build_frame.
  push_seg Hst Hf d Ed m1 H1. push_seg H1 Hf e Ee m2 H2. push_seg H2 Hf x Ex m3 H3. push_seg H3 Hf g Eg m4 H4.
  apply wp_bind. unfold pushal. apply wp_bind, wp_get_reg. push_step wp_pushl H4 Hf m5 H5. push_step wp_pushl H5 Hf m6 H6. push_step wp_pushl H6 Hf m7 H7. push_step wp_pushl H7 Hf m8 H8.
  push_step wp_push_word H8 Hf m9 H9. push_step wp_pushl H9 Hf m10 H10. push_step wp_pushl H10 Hf m11 H11. eapply wp_pushl; cycle 2; [exact H11|lia| |exact Hf|reflexivity]. intros m12 H12.
  clear H1 H2 H3 H4 H5 H6 H7 H8 H9 H10 H11. xsimpl. pose proof (km_cpl s Hk) as Hc. pose proof (km_tables s Hk) as Ht.
  apply wp_bind, wp_movw_ax. intros ax Eax. apply wp_bind. eapply wp_movw_seg; [exact Ht|exact Hc|done|apply kdata_sel|exact Eax|]. xsimpl.
  apply wp_bind. eapply wp_movw_seg; [exact Ht|exact Hc|done|apply kdata_sel|exact Eax|]. xsimpl.
  eapply wp_pushl; cycle 2; [exact H12|lia| |exact Hf|reflexivity]. intros m13 H13. xsimpl.
  replace (sp - 52) with (sp - 4 - 4 - 4 - 4 - 4 - 4 - 4 - 4 - 4 - 4 - 4 - 4 - 4) in HQ by lia. replace (sp - 48) with (sp - 4 - 4 - 4 - 4 - 4 - 4 - 4 - 4 - 4 - 4 - 4 - 4) in HQ by lia. replace (sp - 16) with (sp - 4 - 4 - 4 - 4) in HQ by lia.
  by apply (HQ _ m13 g x e d).
Qed.

(** ** Return from the kernel *)
Definition frame_reg (tf : trapframe) (r : reg) : Z :=
  match r with EAX => tf_eax tf | ECX => tf_ecx tf | EDX => tf_edx tf | EBX => tf_ebx tf | ESP => tf_esp tf | EBP => tf_ebp tf | ESI => tf_esi tf | EDI => tf_edi tf end.
Definition frame_seg (tf : trapframe) (r : sreg) : Z :=
  match r with ES => tf_es tf | CS => tf_cs tf | SS => tf_ss tf | DS => tf_ds tf | FS => tf_fs tf | GS => tf_gs tf end.

(** All registers are those of the frame. *)
Record resumes (tf : trapframe) s : Prop := {
  rs_reg : forall r, x_reg s r = frame_reg tf r;
  rs_seg : forall r, x_seg s r = frame_seg tf r;
  rs_eip : x_eip s = tf_eip tf;
  rs_eflags : x_eflags s = tf_eflags tf;
}.

Definition user_frame (tf : trapframe) : Prop :=
  tf_cs tf = 27 /\ tf_ss tf = 35 /\ user_sel (tf_ds tf) /\ user_sel (tf_es tf) /\ user_sel (tf_fs tf) /\ user_sel (tf_gs tf).
Definition kernel_frame (tf : trapframe) : Prop :=
  tf_cs tf = 8 /\ tf_ss tf = 16 /\ kernel_sel (tf_ds tf) /\ kernel_sel (tf_es tf) /\ kernel_sel (tf_fs tf) /\ kernel_sel (tf_gs tf).

Lemma wp_clear_seg s r Q : tables s -> cpl s = 3 -> user_sel (x_seg s r) -> Q tt s -> wp (clear_seg r) s Q.
Proof.
  clear pad alu. intros Ht Hc Hsel HQ. unfold clear_seg. apply wp_bind, wp_gets.
  assert (match descriptor s (x_seg s r) with Some w => desc_dpl w <? cpl s | None => false end = false) as ->; [|by apply wp_ret].
  destruct (tables_seg s (x_seg s r) Ht) as (_ & _ & H24 & H32). destruct Hsel as [Hs|[Hs|Hs]].
  - unfold descriptor. by assert (x_seg s r / 8 = 0) as -> by elia.
  - destruct (H24 Hs) as (w & -> & _ & _ & _ & _ & -> & _). by rewrite Hc.
  - destruct (H32 Hs) as (w & -> & _ & _ & _ & _ & -> & _). by rewrite Hc.
Qed.

Lemma wp_popl_seg m0 lo top sp v vs s r Q : flat s SS -> x_reg s ESP = sp -> stack m0 lo top sp (v :: vs) (x_mem s) -> tables s -> cpl s = 0 -> r <> SS -> kernel_sel (u16 v) ->
  (stack m0 lo top (sp + 4) vs (x_mem s) -> Q tt (xs_seg (upd r (u16 v) (x_seg s)) (xs_reg (upd ESP (sp + 4) (x_reg s)) s))) -> wp (popl_seg r) s Q.
Proof. intros Hf Hsp Hst Ht Hc Hr Hsel HQ. apply wp_bind. eapply wp_pop_word; [done|done|done|]. intros Hst'. apply wp_load_seg; [done|done|done|done|]. by apply HQ. Qed.

(** [trapret] up to [iret]. *)
Lemma wp_restore m0 lo top sp s edi esi ebp oesp ebx edx ecx eax gs fs es ds trapno err rest (K : M (x86 P) unit) Q :
  kernel_mode s -> x_reg s ESP = sp -> stack m0 lo top sp (edi :: esi :: ebp :: oesp :: ebx :: edx :: ecx :: eax :: gs :: fs :: es :: ds :: trapno :: err :: rest) (x_mem s) ->
  kernel_sel (u16 gs) -> kernel_sel (u16 fs) -> kernel_sel (u16 es) -> kernel_sel (u16 ds) ->
  (forall f sg, (forall r, f r = match r with EAX => eax | ECX => ecx | EDX => edx | EBX => ebx | ESP => sp + 56 | EBP => ebp | ESI => esi | EDI => edi end) ->
     (forall r, sg r = match r with GS => u16 gs | FS => u16 fs | ES => u16 es | DS => u16 ds | r => x_seg s r end) ->
     stack m0 lo top (sp + 56) rest (x_mem s) -> wp K (xs_eflags (alu (x_eflags s)) (xs_seg sg (xs_reg f s))) Q) ->
  wp (popal ;; popl_seg GS ;; popl_seg FS ;; popl_seg ES ;; popl_seg DS ;; addl alu 8 ESP ;; K) s Q.
Proof.
  intros Hk Hsp Hst Hgs Hfs Hes Hds HQ. pose proof (km_flat s Hk) as Hf. pose proof (km_cpl s Hk) as Hc. pose proof (km_tables s Hk) as Ht.
  pose proof (sk_range _ _ _ _ _ _ Hst) as Hr. apply wp_bind. unfold popal. cbn [length] in Hr.
  do 3 pop_step wp_popl Hst Hf. pop_step wp_pop_word Hst Hf. do 3 pop_step wp_popl Hst Hf. eapply wp_popl; cycle 2; [exact Hst| |exact Hf|reflexivity]. clear Hst. intros Hst. xsimpl.
  do 4 (apply wp_bind; eapply wp_popl_seg; cycle 2; [exact Hst|exact Ht|exact Hc|done|assumption| |exact Hf|reflexivity]; clear Hst; intros Hst; xsimpl).
  apply wp_bind, wp_bind, wp_get_reg. apply wp_bind, wp_put_reg, wp_modify. xsimpl. destruct (stack_pop _ _ _ _ _ _ _ Hst) as [_ Hst1]. destruct (stack_pop _ _ _ _ _ _ _ Hst1) as [_ Hst2].
  match goal with |- wp _ (X86 ?f ?sg _ _ _ _ _ _ _ _ _ _ _) _ => apply (HQ f sg) end.
  - intros []; try reflexivity. change (u32 (sp + 4 + 4 + 4 + 4 + 4 + 4 + 4 + 4 + 4 + 4 + 4 + 4 + 8) = sp + 56). rewrite u32_small; lia.
  - by intros [].
  - by replace (sp + 56) with (sp + 4 + 4 + 4 + 4 + 4 + 4 + 4 + 4 + 4 + 4 + 4 + 4 + 4 + 4) by lia.
Qed.

(** The privilege that [iret] returns to, and the check of the code segment. *)
Lemma iret_code s cs dpl : tables s -> cs = 8 /\ dpl = 0 \/ cs = 27 /\ dpl = 3 -> exists d, descriptor s cs = Some d /\ is_code d = true /\ desc_dpl d = dpl /\ cs mod 4 = dpl.
Proof.
  clear pad alu. intros Ht Hcs. destruct (tables_seg s cs Ht) as (H8 & _ & H24 & _).
  assert (seg_at s cs 10 dpl) as (d & Hd & _ & _ & Ety & Es & Ed & Ep) by (destruct Hcs as [[-> ->]|[-> ->]]; [by apply H8|by apply H24]).
  exists d. split; [done|]. split; [unfold is_code, usable; by rewrite Ety, Es, Ep|]. split; [done|]. by destruct Hcs as [[-> ->]|[-> ->]].
Qed.

Lemma wp_iret_user m0 lo top sp s eip cs fl esp ss rest Q :
  kernel_mode s -> x_reg s ESP = sp -> stack m0 lo top sp (eip :: cs :: fl :: esp :: ss :: rest) (x_mem s) -> u16 cs = 27 -> u16 ss = 35 ->
  (forall r, r <> CS -> r <> SS -> user_sel (x_seg s r)) ->
  (forall f, f ESP = esp -> (forall r, r <> ESP -> f r = x_reg s r) -> Q tt (xs_eip eip (xs_eflags fl (xs_seg (upd SS 35 (upd CS 27 (x_seg s))) (xs_reg f s))))) ->
  wp iret s Q.
Proof.
  clear pad alu. intros Hk Hsp Hst Hcs Hss Hsel HQ. pose proof (km_flat s Hk) as Hf. pose proof (km_cpl s Hk) as Hc. pose proof (km_tables s Hk) as Ht. unfold iret.
  do 2 pop_step wp_pop_word Hst Hf. cbv zeta. rewrite Hcs. pop_step wp_pop_word Hst Hf. apply wp_bind, wp_gets. destruct (iret_code s 27 3 Ht) as (d & Hd & Hcode & Hdpl & _); [by right|].
  apply wp_bind, wp_gets. apply wp_bind. eapply wp_deref; [exact Hd|]. change (cpl _) with (cpl s). rewrite Hc, Hcode, Hdpl. apply wp_bind, wp_ret.
  change (0 <? 27 mod 4) with true. cbv iota. apply wp_bind. do 2 pop_step wp_pop_word Hst Hf. apply wp_bind, wp_modify. xsimpl. rewrite Hss.
  set (s1 := X86 _ _ _ _ _ _ _ _ _ _ _ _ _). apply wp_bind. unfold load_seg. apply wp_bind, wp_gets.
  assert (loadable s1 SS 35 = true) as ->.
  { unfold loadable. destruct (proj2 (proj2 (proj2 (tables_seg s1 35 Ht))) ltac:(lia)) as (w & -> & _ & _ & Ety & Es & Ed & Ep). unfold writable, usable. by rewrite Ety, Es, Ed, Ep. }
  rewrite orb_true_r. apply wp_modify, wp_bind, wp_put_reg. subst s1. xsimpl.
  apply wp_bind, wp_clear_seg; [exact Ht|reflexivity|apply (Hsel ES); done|]. apply wp_bind, wp_clear_seg; [exact Ht|reflexivity|apply (Hsel DS); done|].
  apply wp_bind, wp_clear_seg; [exact Ht|reflexivity|apply (Hsel FS); done|]. apply wp_clear_seg; [exact Ht|reflexivity|apply (Hsel GS); done|].
  apply wp_bind, wp_modify, wp_modify. xsimpl. match goal with |- Q tt (X86 ?f _ _ _ _ _ _ _ _ _ _ _ _) => apply (HQ f) end; [done|]. by intros [].
Qed.

Lemma wp_iret_kernel m0 lo top sp s eip cs fl rest Q :
  kernel_mode s -> x_reg s ESP = sp -> stack m0 lo top sp (eip :: cs :: fl :: rest) (x_mem s) -> u16 cs = 8 ->
  (forall f, f ESP = sp + 12 -> (forall r, r <> ESP -> f r = x_reg s r) -> Q tt (xs_eip eip (xs_eflags fl (xs_seg (upd CS 8 (x_seg s)) (xs_reg f s))))) ->
  wp iret s Q.
Proof.
  clear pad alu. intros Hk Hsp Hst Hcs HQ. pose proof (km_flat s Hk) as Hf. pose proof (km_cpl s Hk) as Hc. pose proof (km_tables s Hk) as Ht. unfold iret.
  do 2 pop_step wp_pop_word Hst Hf. cbv zeta. rewrite Hcs. pop_step wp_pop_word Hst Hf. apply wp_bind, wp_gets. destruct (iret_code s 8 0 Ht) as (d & Hd & Hcode & Hdpl & _); [by left|].
  apply wp_bind, wp_gets. apply wp_bind. eapply wp_deref; [exact Hd|]. change (cpl _) with (cpl s). rewrite Hc, Hcode, Hdpl. apply wp_bind, wp_ret.
  change (0 <? 8 mod 4) with false. cbv iota. apply wp_bind, wp_modify, wp_bind, wp_modify, wp_modify. xsimpl.
  match goal with |- Q tt (X86 ?f _ _ _ _ _ _ _ _ _ _ _ _) => apply (HQ f) end; [change (sp + 4 + 4 + 4 = sp + 12); lia|]. by intros [].
Qed.

Lemma user_kernel_sel sel : user_sel sel -> kernel_sel sel.
Proof. by left. Qed.

Lemma tables_eq s s' : same_system s s' -> tables s -> tables s'.
Proof. intros (Hcr & Hg & _) [Hp (gdt & Hgdt & Hseg)]. split; [unfold protected; by rewrite Hcr|]. exists gdt. by rewrite Hg. Qed.
Lemma kernel_mode_eq s s' : same_system s s' -> x_seg s' CS = x_seg s CS -> x_seg s' SS = x_seg s SS -> kernel_mode s -> kernel_mode s'.
Proof. intros Hsys Hcs Hss [Ht Hc Hs]. split; [by eapply tables_eq|congruence|congruence]. Qed.

Lemma tf_of_inv ws tf : tf_of ws = Some tf -> exists edi esi ebp oesp ebx edx ecx eax gs fs es ds trapno err eip cs eflags esp ss,
  ws = [edi; esi; ebp; oesp; ebx; edx; ecx; eax; gs; fs; es; ds; trapno; err; eip; cs; eflags; esp; ss] /\
  tf = Trapframe edi esi ebp oesp ebx edx ecx eax (u16 gs) (u16 fs) (u16 es) (u16 ds) trapno err eip (u16 cs) eflags esp (u16 ss).
Proof. intros Htf. do 19 (destruct ws as [|? ws]; [done|]). destruct ws; [|done]. injection Htf as <-. do 19 eexists. split; reflexivity. Qed.

(** [trapret] with a frame of user code. *)
Lemma wp_trapret_user m0 lo top sp s ws tf rest Q : kernel_mode s -> x_reg s ESP = sp -> stack m0 lo top sp (ws ++ rest) (x_mem s) -> tf_of ws = Some tf -> user_frame tf ->
  (forall s', resumes tf s' -> x_mem s' = x_mem s -> same_system s s' -> Q tt s') -> wp (trapret alu) s Q.
Proof.
  intros Hk Hsp Hst Htf (Hcs & Hss & Hds & Hes & Hfs & Hgs) HQ. apply tf_of_inv in Htf as (edi & esi & ebp & oesp & ebx & edx & ecx & eax & gs & x & es & ds & trapno & err & eip & cs & eflags & esp & ss & -> & ->).
  cbn in Hcs, Hss, Hds, Hes, Hfs, Hgs, Hst.
  unfold trapret. eapply wp_restore; [exact Hk|exact Hsp|exact Hst|by apply user_kernel_sel..|]. intros f sg Hf Hsg Hst'. eapply wp_iret_user; [|by xsimpl; rewrite Hf|exact Hst'|exact Hcs|exact Hss| |].
  - eapply kernel_mode_eq; [|exact (Hsg CS)|exact (Hsg SS)|exact Hk]. done.
  - intros r Hr1 Hr2. xsimpl. rewrite Hsg. by destruct r.
  - intros f' Hf' Hfr. pose proof (eq_sym Hcs) as Hcs0. pose proof (eq_sym Hss) as Hss0. apply HQ; [|done|done]. split; [| |reflexivity|reflexivity].
    + intros r. destruct (decide (r = ESP)) as [->|Hr]; [exact Hf'|]. etrans; [exact (Hfr r Hr)|]. etrans; [exact (Hf r)|]. by destruct r.
    + intros r. destruct r; [exact (Hsg ES)|exact Hcs0|exact Hss0|exact (Hsg DS)|exact (Hsg FS)|exact (Hsg GS)].
Qed.

(** [trapret] with a frame of kernel code, which has no stack pointer of its own. *)
Lemma wp_trapret_kernel m0 lo top sp s ws tf rest Q : kernel_mode s -> x_reg s ESP = sp -> stack m0 lo top sp (ws ++ rest) (x_mem s) -> tf_of (ws ++ [sp + 68; 16]) = Some tf -> kernel_frame tf ->
  (forall s', resumes tf s' -> x_mem s' = x_mem s -> same_system s s' -> Q tt s') -> wp (trapret alu) s Q.
Proof.
  intros Hk Hsp Hst Htf (Hcs & Hss & Hds & Hes & Hfs & Hgs) HQ. do 17 (destruct ws as [|? ws]; [done|]). destruct ws as [|? ws]; [|by destruct ws as [|? [|]]]. injection Htf as <-.
  cbn in Hcs, Hss, Hds, Hes, Hfs, Hgs, Hst. unfold trapret. eapply wp_restore; [exact Hk|exact Hsp|exact Hst|assumption..|]. intros f sg Hf Hsg Hst'.
  eapply wp_iret_kernel; [|by xsimpl; rewrite Hf|exact Hst'|exact Hcs|].
  - eapply kernel_mode_eq; [|exact (Hsg CS)|exact (Hsg SS)|exact Hk]. done.
  - intros f' Hf' Hfr. pose proof (eq_sym Hcs) as Hcs0. pose proof (eq_sym Hss) as Hss0. apply HQ; [|done|done]. split; [| |reflexivity|reflexivity].
    + intros r. destruct (decide (r = ESP)) as [->|Hr]; [etrans; [exact Hf'|]; cbn; lia|]. etrans; [exact (Hfr r Hr)|]. etrans; [exact (Hf r)|]. by destruct r.
    + intros r. destruct r; [exact (Hsg ES)|exact Hcs0|exact (eq_trans (Hsg SS) (km_ss s Hk))|exact (Hsg DS)|exact (Hsg FS)|exact (Hsg GS)].
Qed.

(** ** Delivery of an interrupt *)
Context (vectors : list Z).
Definition has_gates s : Prop := exists idt, x_idt s = gate_word <$> idt /\ gates vectors idt.

(** The words that the processor pushes on top of [tail]. *)
Definition pushed s (n : nat) (err cs : Z) (tail : list Z) : list Z := (if has_error n then [err] else []) ++ x_eip s :: cs :: x_eflags s :: tail.

Lemma wp_deliver m0 lo top sp s tail soft n err g Q :
  kernel_mode s -> x_reg s ESP = sp -> stack m0 lo top sp tail (x_mem s) -> lo + 16 <= sp <= top -> (soft = true -> n = 64%nat) -> forall old, 0 <= old < 65536 ->
  (forall f m w fl, u16 w = old -> f ESP = sp - 12 - (if has_error n then 4 else 0) -> (forall r, r <> ESP -> f r = x_reg s r) -> stack m0 lo top (f ESP) (pushed s n err w tail) m ->
     Q tt (xs_eip (gate_offset g) (xs_eflags fl (xs_reg f (xs_mem m s))))) ->
  wp (deliver pad soft n err g old) s Q.
Proof.
  intros Hk Hsp Hst Hroom Hsoft old Hold HQ. pose proof (km_flat s Hk) as Hf. unfold deliver. apply wp_bind, wp_gets.
  push_step wp_push_word Hst Hf m1 H1. apply wp_bind. eapply wp_push_sel; cycle 2; [exact H1|lia|exact Hold| |exact Hf|reflexivity]. intros w m2 Hw H2. xsimpl.
  apply wp_bind, wp_gets. push_step wp_push_word H2 Hf m3 H3. replace (has_error n && negb soft) with (has_error n) by (destruct soft; [by rewrite Hsoft|by rewrite andb_true_r]).
  unfold pushed in HQ. destruct (has_error n).
  - push_step wp_push_word H3 Hf m4 H4. apply wp_bind, wp_modify, wp_modify. xsimpl.
    match goal with |- Q tt (X86 ?f _ ?fl _ _ _ _ _ _ _ _ _ _) => apply (HQ f m4 w fl Hw) end; [change (sp - 4 - 4 - 4 - 4 = sp - 12 - 4); lia|by intros []|exact H4].
  - apply wp_bind, wp_ret, wp_bind, wp_modify, wp_modify. xsimpl.
    match goal with |- Q tt (X86 ?f _ ?fl _ _ _ _ _ _ _ _ _ _) => apply (HQ f m3 w fl Hw) end; [change (sp - 4 - 4 - 4 = sp - 12 - 0); lia|by intros []|exact H3].
Qed.

Lemma gate_at s n : has_gates s -> (n < 256)%nat ->
  exists g v, x_idt s !! n = Some g /\ vectors !! n = Some v /\ gate_offset g = v /\ gate_sel g = 8 /\ desc_p g = 1 /\ desc_dpl g = (if (n =? 64)%nat then 3 else 0).
Proof.
  intros (idt & Hidt & _ & Hg) Hn. destruct (Hg n Hn) as (g & v & Hi & Hv & Ho & Hs & _ & _ & Hd & Hp). exists (gate_word g), v. split; [by rewrite Hidt, list_lookup_fmap, Hi|].
  split_and!; try done. rewrite Hd. destruct (Nat.eqb_spec n 64) as [->|Hne]; [done|]. by rewrite (proj2 (Z.eqb_neq _ _)) by (unfold T_SYSCALL; lia).
Qed.

(** Up to the choice of the stack. *)
Lemma wp_interrupt soft n err s here Q : tables s -> has_gates s -> (n < 256)%nat -> (soft = true -> n = 64%nat) -> cpl s = here -> here = 0 \/ here = 3 ->
  (forall g v, vectors !! n = Some v -> gate_offset g = v ->
     wp ((if 0 <? here then ss0 ← gets x_ss0; esp0 ← gets x_esp0; load_seg SS ss0 ;; rput ESP esp0 ;; push_sel pad (x_seg s SS) ;; push (x_reg s ESP) else mret tt) ;;
         deliver pad soft n err g (x_seg s CS)) (xs_seg (upd CS 8 (x_seg s)) s) Q) ->
  wp (interrupt pad soft n err) s Q.
Proof.
  intros Ht Hg Hn Hsoft Hc Hh HQ. destruct (gate_at s n Hg Hn) as (g & v & Hi & Hv & Ho & Hs & Hp & Hd). unfold interrupt. apply wp_bind, wp_gets. apply wp_bind. eapply wp_deref; [exact Hi|].
  apply wp_bind, wp_gets. assert (negb (desc_p g =? 1) || soft && (desc_dpl g <? cpl s) = false) as ->.
  { rewrite Hp, Hd, Hc. destruct soft; [|done]. rewrite (Hsoft eq_refl). by destruct Hh as [->| ->]. }
  apply wp_bind, wp_ret, wp_bind, wp_gets. rewrite Hs. destruct (iret_code s 8 0 Ht) as (d & Hdesc & Hcode & Hdpl & _); [by left|]. apply wp_bind. eapply wp_deref; [exact Hdesc|]. cbv zeta.
  rewrite Hcode, Hdpl, Hc. assert (negb true || (here <? 0) = false) as -> by (by destruct Hh as [->| ->]). apply wp_bind, wp_ret, wp_bind, wp_gets. apply wp_bind, wp_get_reg. apply wp_bind, wp_gets.
  apply wp_bind, wp_modify. by eapply HQ.
Qed.

Lemma wp_interrupt_user m0 lo top soft n err s Q : tables s -> has_gates s -> (n < 256)%nat -> (soft = true -> n = 64%nat) -> x_seg s CS = 27 -> 0 <= x_seg s SS < 65536 ->
  x_ss0 s = 16 -> x_esp0 s = top -> stack m0 lo top top [] (x_mem s) -> lo + 24 <= top ->
  (forall v f m cs ss fl, vectors !! n = Some v -> u16 cs = 27 -> u16 ss = x_seg s SS -> f ESP = top - 20 - (if has_error n then 4 else 0) -> (forall r, r <> ESP -> f r = x_reg s r) ->
     stack m0 lo top (f ESP) (pushed s n err cs [x_reg s ESP; ss]) m -> Q tt (xs_eip v (xs_eflags fl (xs_seg (upd SS (x_ss0 s) (upd CS 8 (x_seg s))) (xs_reg f (xs_mem m s)))))) ->
  wp (interrupt pad soft n err) s Q.
Proof.
  intros Ht Hg Hn Hsoft Hcs Hss Hss0 <- Hst Hroom HQ. eapply wp_interrupt; [done|done|done|done|unfold cpl; by rewrite Hcs|by right|]. intros g v Hv Ho. rewrite Hcs.
  change (0 <? 27 mod 4) with true. cbv iota. apply wp_bind, wp_bind, wp_gets. apply wp_bind, wp_gets. xsimpl. apply wp_bind. unfold load_seg. apply wp_bind, wp_gets.
  set (s1 := X86 _ _ _ _ _ _ _ _ _ _ _ _ _). assert (loadable s1 SS (x_ss0 s) = true) as ->.
  { rewrite Hss0. unfold loadable. destruct (proj1 (proj2 (tables_seg s1 16 Ht)) eq_refl) as (w & -> & _ & _ & Ety & Es & Ed & Ep). unfold writable, usable. by rewrite Ety, Es, Ed, Ep. }
  rewrite orb_true_r. apply wp_modify, wp_bind, wp_put_reg. subst s1. xsimpl.
  assert (forall f m fl ip, kernel_mode (X86 f (upd SS (x_ss0 s) (upd CS 8 (x_seg s))) fl ip (x_cr0 s) (x_cr3 s) (x_cr4 s) (x_gdt s) (x_idt s) (x_esp0 s) (x_ss0 s) m (x_dev s))) as Hk by (intros; by split).
  apply wp_bind. eapply wp_push_sel; cycle 2; [exact Hst|lia|exact Hss| |apply km_flat, Hk|reflexivity]. intros ss m1 Ess H1. xsimpl.
  eapply wp_push_word; cycle 2; [exact H1|lia| |apply km_flat, Hk|reflexivity]. intros m2 H2. xsimpl.
  eapply (wp_deliver m0 lo (x_esp0 s) (x_esp0 s - 4 - 4)); [apply Hk|reflexivity|exact H2|lia|done|lia|]. intros f m cs fl Ecs Hf Hr Hm. rewrite Ho.
  apply (HQ v f m cs ss fl Hv Ecs Ess); [rewrite Hf; destruct (has_error n); lia|intros r Hne; rewrite Hr by done; by destruct r|exact Hm].
Qed.

Lemma wp_interrupt_kernel m0 lo top soft n err s Q : kernel_mode s -> has_gates s -> (n < 256)%nat -> (soft = true -> n = 64%nat) ->
  x_reg s ESP = top -> stack m0 lo top top [] (x_mem s) -> lo + 16 <= top ->
  (forall v f m cs fl, vectors !! n = Some v -> u16 cs = 8 -> f ESP = top - 12 - (if has_error n then 4 else 0) -> (forall r, r <> ESP -> f r = x_reg s r) ->
     stack m0 lo top (f ESP) (pushed s n err cs []) m -> Q tt (xs_eip v (xs_eflags fl (xs_seg (upd CS 8 (x_seg s)) (xs_reg f (xs_mem m s)))))) ->
  wp (interrupt pad soft n err) s Q.
Proof.
  intros Hk Hg Hn Hsoft Hesp Hst Hroom HQ. eapply wp_interrupt; [apply Hk|done|done|done|by apply km_cpl|by left|]. intros g v Hv Ho. apply wp_bind, wp_ret. rewrite (km_cs s Hk).
  eapply (wp_deliver m0 lo top top); [destruct Hk; by split|exact Hesp|exact Hst|lia|done|lia|]. intros f m cs fl Ecs Hf Hr Hm. rewrite Ho.
  apply (HQ v f m cs fl Hv Ecs); [done|done|exact Hm].
Qed.

(** ** From the entry point to [trap] *)
Context (next : Z) (trap : M (x86 P) unit).

(** The words of a frame at [base]: the registers of [s], the number of the trap, the error code, and [tail] that the processor has pushed. *)
Definition frame_words s (n : nat) (err base : Z) (tail ws : list Z) : Prop :=
  exists g x e d, u16 g = x_seg s GS /\ u16 x = x_seg s FS /\ u16 e = x_seg s ES /\ u16 d = x_seg s DS /\
    ws = x_reg s EDI :: x_reg s ESI :: x_reg s EBP :: base + 32 :: x_reg s EBX :: x_reg s EDX :: x_reg s ECX :: x_reg s EAX :: g :: x :: e :: d :: Z.of_nat n :: (if has_error n then err else 0) :: tail.

(** [trap] is called with the address of the frame, in the segments of the kernel. *)
Record trap_entry (m0 : gmap Z Z) (lo top base : Z) (ws : list Z) s : Prop := {
  te_mode : kernel_mode s;
  te_data : x_seg s DS = 16 /\ x_seg s ES = 16;
  te_esp : x_reg s ESP = base - 8;
  te_stack : stack m0 lo top (base - 8) (next :: base :: ws) (x_mem s);
}.

Lemma wp_vector m0 lo top base s n err tail Q : kernel_mode s -> (forall r, r <> CS -> r <> SS -> kernel_sel (x_seg s r)) ->
  x_reg s ESP = base + 52 + (if has_error n then 0 else 4) -> stack m0 lo top (x_reg s ESP) ((if has_error n then [err] else []) ++ tail) (x_mem s) -> lo + 8 <= base -> base + 56 <= top ->
  (forall s1 ws, trap_entry m0 lo top base ws s1 -> same_system s s1 -> frame_words s n err base tail ws -> wp trap s1 (fun _ s2 => wp (addl alu 4 ESP ;; trapret alu) s2 Q)) ->
  wp (vector pad alu next trap n) s Q.
Proof.
  intros Hk Hsel Hesp Hst Hlo Htop HQ. pose proof (km_flat s Hk) as Hf. unfold vector. change (bool_decide (n = 8 \/ 10 <= n /\ n <= 14 \/ n = 17)%nat) with (has_error n).
  assert (wp (guard_ok (negb (has_error n)) (push 0)) s (fun _ s' => exists f m, s' = xs_reg f (xs_mem m s) /\ f ESP = base + 52 /\ (forall r, r <> ESP -> f r = x_reg s r) /\
    stack m0 lo top (base + 52) ((if has_error n then err else 0) :: tail) m)) as Hcode.
  { destruct (has_error n).
    - apply wp_ret. exists (x_reg s), (x_mem s). split; [by destruct s|]. split; [lia|]. split; [done|]. by replace (base + 52) with (x_reg s ESP) by lia.
    - eapply wp_push_word; [done|reflexivity|exact Hst|lia|]. intros m Hm. replace (x_reg s ESP - 4) with (base + 52) in Hm |- * by lia. exists (upd ESP (base + 52) (x_reg s)), m.
      split; [done|]. split; [done|]. split; [by intros []|done]. }
  apply wp_bind. eapply wp_mono; [exact Hcode|]. clear Hcode. intros [] s' (f & m & -> & Hfe & Hfr & Hm).
  push_step wp_push_word Hm Hf m1 H1. replace (base + 52 - 4) with (base + 48) in * by lia. unfold alltraps. apply wp_bind.
  eapply (wp_build_frame m0 lo top (base + 48)); [destruct Hk; by split|exact Hsel|reflexivity|exact H1|lia|]. intros f' m' g x e d Hf' Eg Ex Ee Ed Hm'. xsimpl.
  replace (base + 48 - 52) with (base - 4) in * by lia. replace (base + 48 - 48) with base in * by lia. replace (base + 48 - 16) with (base + 32) in * by lia.
  apply wp_bind. unfold call. push_step wp_push_word Hm' Hf m2 H2. replace (base - 4 - 4) with (base - 8) in * by lia.
  eapply HQ; [split; [destruct Hk; by split|by split|reflexivity|exact H2]|done|]. exists g, x, e, d. split_and!; [done..|]. by rewrite <- !Hfr.
Qed.

(** ** A trap as a whole *)

(** Code is interrupted, of the user or of the kernel; [top] is where the kernel's stack begins for it, with room down to [lo]. *)
Record interrupted (user : bool) (lo top : Z) s : Prop := {
  in_tables : tables s;
  in_gates : has_gates s;
  in_mode : if user then x_seg s CS = 27 /\ x_seg s SS = 35 /\ x_ss0 s = 16 /\ x_esp0 s = top else x_seg s CS = 8 /\ x_seg s SS = 16 /\ x_reg s ESP = top;
  in_segs : forall r, r <> CS -> r <> SS -> if user then user_sel (x_seg s r) else kernel_sel (x_seg s r);
  in_stack : stack (x_mem s) lo top top [] (x_mem s);
  in_room : lo + 84 <= top;
}.

(** Where the frame is, and what a frame does not hold when kernel code was interrupted: it goes on with the same stack. *)
Definition frame_at (user : bool) (top : Z) : Z := if user then top - SIZEOF_TRAPFRAME else top - SIZEOF_TRAPFRAME + 8.
Definition unsaved (user : bool) (top : Z) : list Z := if user then [] else [top; 16].
(** The frame for trap [n]. *)
Definition saved (n : nat) (err base : Z) s : trapframe :=
  Trapframe (x_reg s EDI) (x_reg s ESI) (x_reg s EBP) (base + 32) (x_reg s EBX) (x_reg s EDX) (x_reg s ECX) (x_reg s EAX) (x_seg s GS) (x_seg s FS) (x_seg s ES) (x_seg s DS)
    (Z.of_nat n) (if has_error n then err else 0) (x_eip s) (x_seg s CS) (x_eflags s) (x_reg s ESP) (x_seg s SS).

(** [trap], as a function in C that gets the frame [tf], returns with the frame [tf'] in its place; it may change all other registers but those of the system, and all other memory. *)
Definition handles (user : bool) (m0 : gmap Z Z) (lo top : Z) (tf tf' : trapframe) (R : x86 P -> Prop) : Prop :=
  forall s ws, let base := frame_at user top in trap_entry m0 lo top base ws s -> tf_of (ws ++ unsaved user top) = Some tf ->
    wp trap s (fun _ s' => kernel_mode s' /\ x_reg s' ESP = base - 4 /\ R s' /\ exists ws', words base ws' (x_mem s') /\ tf_of (ws' ++ unsaved user top) = Some tf').

Lemma tf_of_length ws tf : tf_of ws = Some tf -> length ws = 19%nat.
Proof. intros Htf. apply tf_of_inv in Htf. by destruct Htf as (? & ? & ? & ? & ? & ? & ? & ? & ? & ? & ? & ? & ? & ? & ? & ? & ? & ? & ? & -> & _). Qed.

(** After [trap]. *)
Lemma wp_return (user : bool) top base s ws tf Q : kernel_mode s -> x_reg s ESP = base - 4 -> base = frame_at user top -> words base ws (x_mem s) -> tf_of (ws ++ unsaved user top) = Some tf ->
  base mod 4 = 0 -> 4 <= base -> top < 2 ^ 32 -> (if user then user_frame tf else kernel_frame tf) ->
  (forall s', resumes tf s' -> x_mem s' = x_mem s -> same_system s s' -> Q tt s') -> wp (addl alu 4 ESP ;; trapret alu) s Q.
Proof.
  intros Hk Hesp Hbase Hw Htf H4 H0 Htop Hfr HQ. apply wp_bind, wp_bind, wp_get_reg. rewrite Hesp, u32_small by (unfold frame_at, SIZEOF_TRAPFRAME in Hbase; destruct user; lia).
  apply wp_bind, wp_put_reg, wp_modify. replace (base - 4 + 4) with base by lia. set (s1 := xs_eflags _ _).
  assert (kernel_mode s1) as Hk1 by (destruct Hk; by split). pose proof (tf_of_length _ _ Htf) as Hl. rewrite length_app in Hl.
  assert (stack (x_mem s) base base base (ws ++ []) (x_mem s1)) as Hst.
  { rewrite app_nil_r. split; [done| |intros; lia|done|done]. unfold frame_at, SIZEOF_TRAPFRAME in Hbase. destruct user; cbn in Hl; lia. }
  assert (forall s', resumes tf s' -> x_mem s' = x_mem s1 -> same_system s1 s' -> Q tt s') as HQ1 by (intros s' Hr Hm Hs; by apply HQ).
  destruct user.
  - rewrite app_nil_r in Htf. by eapply (wp_trapret_user _ base base base s1 ws tf []).
  - eapply (wp_trapret_kernel _ base base base s1 ws tf []); [done|done|done| |done|done]. rewrite Hbase. unfold frame_at, SIZEOF_TRAPFRAME.
    by replace (top - 76 + 8 + 68) with top by lia.
Qed.

Lemma saved_frame (user : bool) lo top s n err ws tail base s0 :
  interrupted user lo top s -> frame_words s0 n err base tail ws -> (forall r, r <> ESP -> x_reg s0 r = x_reg s r) -> (forall r, r <> CS -> r <> SS -> x_seg s0 r = x_seg s r) ->
  (exists cs ss, u16 cs = x_seg s CS /\ u16 ss = x_seg s SS /\ tail = x_eip s :: cs :: x_eflags s :: if user then [x_reg s ESP; ss] else []) ->
  tf_of (ws ++ unsaved user top) = Some (saved n err base s).
Proof.
  intros Hin (g & x & e & d & Eg & Ex & Ee & Ed & ->) Hr Hs (cs & ss & Ecs & Ess & ->). pose proof (in_mode _ _ _ _ Hin) as Hm. rewrite !Hr, Hs in * by done.
  unfold saved. destruct user; cbn.
  - by rewrite Eg, Ex, Ee, Ed, Ecs, Ess.
  - destruct Hm as (_ & Hss & <-). by rewrite Eg, Ex, Ee, Ed, Ecs, Hss.
Qed.

(** What is left to run when the processor has delivered the interrupt. *)
Lemma wp_taken (user : bool) lo top s n err s1 tail tf' R Q : interrupted user lo top s -> (n < 256)%nat -> handles user (x_mem s) lo top (saved n err (frame_at user top) s) tf' R ->
  (if user then user_frame tf' else kernel_frame tf') -> kernel_mode s1 -> vectors !! n = Some (x_eip s1) -> (forall r, r <> ESP -> x_reg s1 r = x_reg s r) ->
  (forall r, r <> CS -> r <> SS -> x_seg s1 r = x_seg s r) -> x_reg s1 ESP = frame_at user top + 52 + (if has_error n then 0 else 4) ->
  stack (x_mem s) lo top (x_reg s1 ESP) ((if has_error n then [err] else []) ++ tail) (x_mem s1) ->
  (exists cs ss, u16 cs = x_seg s CS /\ u16 ss = x_seg s SS /\ tail = x_eip s :: cs :: x_eflags s :: if user then [x_reg s ESP; ss] else []) ->
  (forall s', resumes tf' s' /\ (exists s2, R s2 /\ x_mem s' = x_mem s2 /\ same_system s2 s') -> Q tt s') ->
  wp (pc ← gets x_eip; guard_ok (negb (bool_decide (vectors !! n = Some pc))) fault ;; vector pad alu next trap n) s1 Q.
Proof.
  intros Hin Hn Hh Hfr Hk Hv Hr Hs Hesp Hst Htail HQ. pose proof (in_room _ _ _ _ Hin) as Hroom. pose proof (sk_align _ _ _ _ _ _ (in_stack _ _ _ _ Hin)) as H4.
  pose proof (sk_range _ _ _ _ _ _ (in_stack _ _ _ _ Hin)) as Hrange. assert (top - 76 <= frame_at user top <= top - 68 /\ frame_at user top mod 4 = 0) as [Hb Hb4].
  { unfold frame_at, SIZEOF_TRAPFRAME. destruct user; split; (lia || elia). }
  apply wp_bind, wp_gets. rewrite bool_decide_true by done. apply wp_bind, wp_ret.
  eapply (wp_vector (x_mem s) lo top (frame_at user top) s1 n err tail); [done| |exact Hesp|exact Hst|lia|lia|].
  { intros r Hr1 Hr2. rewrite Hs by done. pose proof (in_segs _ _ _ _ Hin r Hr1 Hr2) as Hsel. destruct user; [by left|done]. }
  intros s2 ws Hte Hsys Hws. eapply wp_mono; [apply (Hh s2 ws Hte); by eapply saved_frame|]. intros [] s3 (Hk3 & He3 & HR & ws' & Hw' & Htf').
  eapply wp_return; [exact Hk3|exact He3|reflexivity|exact Hw'|exact Htf'|done|lia|lia|done|]. intros s' Hres Hm Hsys'. apply HQ. split; [done|]. by exists s3.
Qed.

Lemma wp_take (user : bool) lo top s soft n err tf' R Q : interrupted user lo top s -> (n < 256)%nat -> (soft = true -> n = 64%nat) ->
  handles user (x_mem s) lo top (saved n err (frame_at user top) s) tf' R -> (if user then user_frame tf' else kernel_frame tf') ->
  (forall s', resumes tf' s' /\ (exists s2, R s2 /\ x_mem s' = x_mem s2 /\ same_system s2 s') -> Q tt s') -> wp (take pad alu next trap vectors soft n err) s Q.
Proof.
  intros Hin Hn Hsoft Hh Hfr HQ. pose proof (in_room _ _ _ _ Hin) as Hroom. unfold take. apply wp_bind. pose proof (in_mode _ _ _ _ Hin) as Hm. destruct user.
  - destruct Hm as (Hcs & Hss & Hss0 & Hesp0). eapply (wp_interrupt_user (x_mem s) lo top); [apply Hin|apply Hin|done|done|done|lia|done|done|apply Hin|lia|].
    intros v f m cs ss fl Hv Ecs Ess Hf Hr Hst. eapply (wp_taken true); try eassumption; [|by intros []| |exists cs, ss; by rewrite Hcs].
    + split; [apply Hin|done|exact Hss0].
    + xsimpl. rewrite Hf. unfold frame_at, SIZEOF_TRAPFRAME. destruct (has_error n); lia.
  - destruct Hm as (Hcs & Hss & Hesp). eapply (wp_interrupt_kernel (x_mem s) lo top); [split; [apply Hin|done|done]|apply Hin|done|done|done|apply Hin|lia|].
    intros v f m cs fl Hv Ecs Hf Hr Hst. eapply (wp_taken false); try eassumption; [|by intros []| |exists cs, 16; by rewrite Hcs, Hss].
    + split; [apply Hin|done|exact Hss].
    + xsimpl. rewrite Hf. unfold frame_at, SIZEOF_TRAPFRAME. destruct (has_error n); lia.
Qed.
End Traps.

(** C14: An interrupt, an exception or a system call, from user code or from kernel code, with interrupts of any number: the processor finds the entry point of its vector, the code in
    vectors.S and trapasm.S builds a trap frame with all registers of the code that was interrupted, the number of the trap and the error code, at the top of the kernel's
    stack, and calls [trap] with it in the segments of the kernel. When [trap] returns, the code goes on with exactly the registers of the frame, as [trap] has left it. No load of a
    segment and no access to the stack faults. *)
Theorem trap_roundtrip {P} pad alu vectors next (trap : M (x86 P) unit) (user : bool) lo top s soft n err tf' R : interrupted vectors user lo top s -> (n < 256)%nat -> (soft = true -> n = 64%nat) ->
  handles next trap user (x_mem s) lo top (saved n err (frame_at user top) s) tf' R -> (if user then user_frame tf' else kernel_frame tf') ->
  wp (take pad alu next trap vectors soft n err) s (fun _ s' => resumes tf' s' /\ exists s2, R s2 /\ x_mem s' = x_mem s2 /\ same_system s2 s').
Proof. intros Hin Hn Hsoft Hh Hfr. by eapply wp_take. Qed.

(** ** System calls *)
Lemma handles_kernel {P} next (trap : M (x86 P) unit) user m0 lo top tf tf' R : handles next trap user m0 lo top tf tf' R -> handles next trap user m0 lo top tf tf' (fun s => kernel_mode s /\ R s).
Proof. intros Hh s ws base Hte Htf. eapply wp_mono; [exact (Hh s ws Hte Htf)|]. intros [] s' (Hk & He & HR & Hws). done. Qed.

(** A system call through its stub in usys.S, on any kernel that keeps its side: [trap] gets a frame with the number of the call and the caller's stack pointer, below which the return address
    and above it the arguments are found; when it has put the result into the frame and has left the return address alone, the caller goes on behind the call, with the result in EAX and
    all other registers as they were. *)
Theorem system_call_returns {P} pad alu vectors next (trap : M (x86 P) unit) lo top (s : x86 P) after num back r :
  interrupted vectors true lo top s -> x_mem s !! x_reg s ESP = Some back -> x_reg s ESP mod 4 = 0 -> 0 <= x_reg s ESP -> x_reg s ESP + 4 < 2 ^ 32 ->
  (let tf := saved 64 0 (frame_at true top) (xs_eip after (xs_reg (upd EAX num (x_reg s)) s)) in
   handles next trap true (x_mem s) lo top tf (with_eax r tf) (fun s2 => x_mem s2 !! x_reg s ESP = Some back)) ->
  wp (usys pad alu next trap vectors after num) s (fun _ s' =>
    x_eip s' = back /\ x_reg s' EAX = r /\ x_reg s' ESP = x_reg s ESP + 4 /\ (forall r, r <> EAX -> r <> ESP -> x_reg s' r = x_reg s r) /\ (forall r, x_seg s' r = x_seg s r) /\
    x_eflags s' = x_eflags s).
Proof.
  intros Hin Hback H4 H0 Hm Hh. cbv zeta in Hh. pose proof (in_mode _ _ _ _ _ Hin) as (Hcs & Hss & Hss0 & Hesp0). unfold usys. apply wp_bind, wp_put_reg, wp_bind, wp_modify. xsimpl. apply wp_bind.
  eapply (wp_take _ _ _ _ _ true lo top); [|by apply Nat.ltb_lt|done|apply (handles_kernel _ _ _ _ _ _ _ _ _ Hh)| |].
  - destruct Hin. by split.
  - split_and!; try done; apply (in_segs _ _ _ _ _ Hin); done.
  - intros s' [Hres (s2 & [Hk Hkept] & Hmem & Hsys)]. pose proof (tables_eq _ _ Hsys (km_tables _ Hk)) as Ht. pose proof (rs_reg _ _ Hres) as Hr. pose proof (rs_seg _ _ Hres) as Hs.
    assert (x_reg s' ESP = x_reg s ESP) as Hsp by apply (Hr ESP). apply wp_bind.
    eapply (wp_pop_word (x_mem s') (x_reg s ESP) (x_reg s ESP) (x_reg s ESP) back []); [apply flat_user; [done|by rewrite Hs; cbn; rewrite Hss]|done| |].
    + split; [done|cbn; lia|intros; lia|done|]. apply words_cons. split; [by rewrite Hmem|by intros ? ? ?].
    + intros _. apply wp_modify. xsimpl. split_and!; [done|exact (Hr EAX)|done| |intros q; rewrite Hs; by destruct q|exact (rs_eflags _ _ Hres)]. intros q Hq1 Hq2. unfold upd. rewrite decide_False by done.
      rewrite Hr. by destruct q.
Qed.

(** Words that were stored, one by one. *)
Lemma words_store a v vs m : m !! a = Some v -> words (a + 4) vs m -> words a (v :: vs) m.
Proof. intros Hv Hw. by apply words_cons. Qed.
Lemma words_none a m : words a [] m.
Proof. by intros ? ? ?. Qed.
Lemma stored_here (m : gmap Z Z) k j v : k = j -> <[k := v]> m !! j = Some v.
Proof. intros ->. apply lookup_insert_eq. Qed.
Lemma stored_before (m : gmap Z Z) k j v w : k <> j -> m !! j = Some v -> <[k := w]> m !! j = Some v.
Proof. intros Hne Hv. by rewrite lookup_insert_ne. Qed.
Ltac stored := repeat (simple apply words_store; [repeat first [simple apply stored_here; lia|simple apply stored_before; [lia|]]|]); simple apply words_none.

(** ** The first run of a process *)
Lemma new_stack_words kstack trapret_at forkret_at m : kstack mod 4 = 0 -> 0 <= kstack -> kstack + 4096 < 2 ^ 32 ->
  let '(tf, ctx, m') := new_stack kstack trapret_at forkret_at m in
  tf = frame_at true (kstack + KSTACKSIZE) /\ ctx = tf - 24 /\ words ctx [0; 0; 0; 0; forkret_at; trapret_at] m' /\ forall a, ~ (ctx <= a < tf) -> m' !! a = m !! a.
Proof.
  intros H4 H0 Htop. unfold new_stack, frame_at, SIZEOF_TRAPFRAME, SIZEOF_CONTEXT, KSTACKSIZE, word_wr. set (c := kstack + 4096 - 76 - 4 - 20). assert (0 <= c < 2 ^ 32 - 80) by lia. cbn [foldl].
  rewrite !u32_small by lia. split; [lia|]. split; [lia|]. split.
  - stored.
  - intros a Ha. by rewrite !lookup_insert_ne by lia.
Qed.

(** C16: A new process enters user mode. [allocproc] leaves room for a trap frame at the top of the kernel stack, where traps of the process will build theirs, and prepares a context below it;
    when the scheduler first switches to that context, [forkret] runs and returns to [trapret], which loads all registers from the frame that [fork] or [userinit] has put there. *)
Theorem new_process_enters_user {P} alu (s : x86 P) lo next old kstack trapret_at forkret_at m forkret ws tf :
  kstack mod 4 = 0 -> 0 <= kstack -> kstack + 4096 < 2 ^ 32 -> kernel_mode s ->
  let '(tf_at, ctx, m1) := new_stack kstack trapret_at forkret_at m in
  (forall a, ctx <= a < tf_at -> x_mem s !! a = m1 !! a) -> words tf_at ws (x_mem s) -> tf_of ws = Some tf -> user_frame tf ->
  swtch_call s lo next old ctx -> (kstack + 4096 <= lo \/ x_reg s ESP <= ctx) -> ~ (ctx - 4 < old < kstack + 4096) ->
  (forall s1 a, kernel_mode s1 -> x_reg s1 ESP = tf_at - 4 -> x_mem s1 !! x_reg s1 ESP = Some a -> wp forkret s1 (fun _ s2 =>
     kernel_mode s2 /\ x_reg s2 ESP = x_reg s1 ESP + 4 /\ x_eip s2 = a /\ forall b, x_reg s1 ESP < b < kstack + 4096 -> x_mem s2 !! b = x_mem s1 !! b)) ->
  wp (swtch ;; code_at forkret_at forkret ;; code_at trapret_at (trapret alu)) s (fun _ s' => resumes tf s').
Proof.
  intros H4 H0 Htop Hk. pose proof (new_stack_words kstack trapret_at forkret_at m H4 H0 Htop) as Hnew. destruct (new_stack kstack trapret_at forkret_at m) as [[tf_at ctx] m1].
  destruct Hnew as (Htf_at & Hctx & Hw & _). unfold frame_at, SIZEOF_TRAPFRAME, KSTACKSIZE in Htf_at. intros Hm1 Hws Htf Huser Hc Hapart Hold Hfork.
  apply wp_bind. eapply (swtch_switches s lo next old ctx [0; 0; 0; 0; forkret_at]); [exact Hc|done| |].
  { intros k v Hv. pose proof (lookup_lt_Some _ _ _ Hv) as Hlt. cbn [length] in Hlt. rewrite Hm1 by lia. apply Hw. by do 5 (destruct k as [|k]; [exact Hv|]). }
  intros s1 [Hregs Hesp] Hseg Hsys _ _ Hsame. injection Hregs as _ _ _ _ Heip. unfold code_at. apply wp_bind, wp_bind, wp_gets. rewrite Heip, Z.eqb_refl. apply wp_bind, wp_ret.
  assert (forall b, ctx <= b < kstack + 4096 -> x_mem s1 !! b = x_mem s !! b) as Hkeep by (intros b Hb; apply Hsame; lia).
  eapply wp_mono; [apply (Hfork s1 trapret_at)|].
  - eapply kernel_mode_eq; [exact Hsys|by rewrite Hseg|by rewrite Hseg|done].
  - lia.
  - rewrite Hesp, Hkeep, Hm1 by lia. rewrite <- (Hw 5%nat trapret_at) by done. f_equal; lia.
  - intros [] s2 (Hk2 & Hesp2 & Heip2 & Hkeep2). apply wp_bind, wp_gets. rewrite Heip2, Z.eqb_refl. apply wp_bind, wp_ret.
    pose proof (tf_of_length _ _ Htf) as Hlen.
    eapply (wp_trapret_user alu (x_mem s2) tf_at tf_at tf_at s2 ws tf []); [done|lia| |done|done|done].
    rewrite app_nil_r. split; [elia|lia|intros; lia|done|]. intros k v Hv. pose proof (lookup_lt_Some _ _ _ Hv) as Hlt. rewrite Hkeep2, Hkeep by lia. by apply Hws.
Qed.

(** ** The first user code *)
Lemma stack_insert lo top m a v : stack m lo top top [] m -> stack (<[a := v]> m) lo top top [] (<[a := v]> m).
Proof.
  intros [H4 Hr Hroom _ _]. split; [done|done| |done|by intros ? ? ?]. intros b Hb Hb4. destruct (decide (b = a)) as [->|]; [rewrite lookup_insert_eq; by eexists|]. rewrite lookup_insert_ne by done. by apply Hroom.
Qed.

(** The code that the first process starts with calls [exec("/init", argv)]: it traps with the number of [exec] in EAX, and with a stack on which the kernel finds the two arguments, above a return address. It then
    goes on with the registers that [trap] leaves in the frame. *)
Theorem initcode_execs {P} pad alu vectors next (trap : M (x86 P) unit) lo top (s : x86 P) after init_at argv_at sp w1 w2 w3 tf' R :
  interrupted vectors true lo top s -> x_reg s ESP = sp -> sp mod 4 = 0 -> 12 <= sp < 2 ^ 32 -> x_mem s !! (sp - 4) = Some w1 -> x_mem s !! (sp - 8) = Some w2 -> x_mem s !! (sp - 12) = Some w3 ->
  (forall s1 : x86 P, x_reg s1 EAX = 7 -> x_reg s1 ESP = sp - 12 -> words (sp - 12) [0; init_at; argv_at] (x_mem s1) -> interrupted vectors true lo top s1 ->
     (forall r, r <> EAX -> r <> ESP -> x_reg s1 r = x_reg s r) -> (forall a, ~ (sp - 12 <= a < sp) -> x_mem s1 !! a = x_mem s !! a) -> x_eip s1 = after ->
     handles next trap true (x_mem s1) lo top (saved 64 0 (frame_at true top) s1) tf' R) -> user_frame tf' ->
  wp (initcode pad alu next trap vectors after init_at argv_at) s (fun _ s' => resumes tf' s').
Proof.
  intros Hin Hsp H4 Hr H1 H2 H3 Hh Huser. pose proof (in_mode _ _ _ _ _ Hin) as (_ & Hss & _). assert (flat s SS) as Hf by (apply flat_user; [apply Hin|lia]).
  unfold initcode. apply wp_bind. eapply wp_push_exact; [exact Hf|exact Hsp|done|lia|exact H1|]. xsimpl. replace (sp - 8) with (sp - 4 - 4) in H2 by lia. replace (sp - 12) with (sp - 4 - 4 - 4) in H3 by lia.
  apply wp_bind. eapply (wp_push_exact _ _ (sp - 4)); [exact Hf|done|elia|lia|xsimpl; rewrite lookup_insert_ne by lia; exact H2|]. xsimpl.
  apply wp_bind. eapply (wp_push_exact _ _ (sp - 4 - 4)); [exact Hf|done|elia|lia|xsimpl; rewrite !lookup_insert_ne by lia; exact H3|]. xsimpl.
  apply wp_bind, wp_put_reg, wp_bind, wp_modify. xsimpl. match goal with |- wp _ ?x _ => set (s1 := x) end.
  assert (interrupted vectors true lo top s1) as Hin1.
  { destruct Hin as [Ht Hg Hm Hs Hst Hroom]. split; [exact Ht|exact Hg|exact Hm|exact Hs| |exact Hroom]. by do 3 apply stack_insert. }
  eapply (wp_take _ _ _ _ _ true lo top); [exact Hin1|by apply Nat.ltb_lt|done|apply (Hh s1)|done|by intros s' [Hres _]]; try done.
  - change (sp - 4 - 4 - 4 = sp - 12). lia.
  - subst s1. xsimpl. stored.
  - by intros [].
  - intros a Ha. subst s1. xsimpl. by rewrite !lookup_insert_ne by lia.
Qed.

(** ** A machine for examples *)
Definition toy_gdt : list segdesc :=
  [SEG 0 0 0 0; SEG (Z.lor STA_X STA_R) 0 0xffffffff 0; SEG STA_W 0 0xffffffff 0; SEG (Z.lor STA_X STA_R) 0 0xffffffff 3; SEG STA_W 0 0xffffffff 3; SEG 0 0 0 0].
Definition toy_vectors : list Z := seqZ 2148532224 256.
Definition toy_gate (n : nat) (v : Z) : gatedesc := let sys := Z.of_nat n =? T_SYSCALL in SETGATE sys (selector SEG_KCODE) v (if sys then 3 else 0).
Definition toy_idt : list gatedesc := imap toy_gate toy_vectors.

Lemma toy_segments : segments toy_gdt.
Proof. split; [done|eexists; split; [reflexivity|by apply seg_flat]..]. Qed.

Lemma toy_gates : gates toy_vectors toy_idt.
Proof.
  split; [reflexivity|]. intros n Hn. exists (toy_gate n (2148532224 + Z.of_nat n)), (2148532224 + Z.of_nat n).
  assert (toy_vectors !! n = Some (2148532224 + Z.of_nat n)) as Hv by (apply lookup_seqZ_Some || apply lookup_seqZ; lia).
  split; [unfold toy_idt; by rewrite list_lookup_imap, Hv|]. split; [done|]. cbv zeta. apply gate_set; [done|lia|by destruct (Z.of_nat n =? T_SYSCALL)].
Qed.

(** [n] words of memory from [lo] on. *)
Definition zeros (lo : Z) (n : nat) : gmap Z Z := gset_to_gmap 0 (list_to_set ((fun k => lo + 4 * Z.of_nat k) <$> seq 0 n)).

Lemma zeros_lookup lo n a : lo mod 4 = 0 -> lo <= a < lo + 4 * Z.of_nat n -> a mod 4 = 0 -> zeros lo n !! a = Some 0.
Proof.
  intros Hl Ha H4. apply lookup_gset_to_gmap_Some. split; [|done]. apply elem_of_list_to_set, list_elem_of_fmap. exists (Z.to_nat ((a - lo) / 4)). split; [elia|]. apply elem_of_seq. elia.
Qed.

Lemma zeros_stack lo n top : lo mod 4 = 0 -> 0 <= lo -> top = lo + 4 * Z.of_nat n -> top < 2 ^ 32 -> stack (zeros lo n) lo top top [] (zeros lo n).
Proof.
  intros Hl H0 Htop Hm. split; [subst; elia|cbn [length]; lia| |reflexivity|by intros ? ? ?]. intros a Ha H4. exists 0. by apply zeros_lookup; [|lia|].
Qed.

#[local] Opaque zeros.

(** A [trap] that answers every call with [v]. *)
Definition answer {P} (v : Z) : M (x86 P) unit := load 4 ESP EAX ;; a ← rget EAX; mem_wr DS (a + 28) v ;; ret.

Lemma answer_handles {P} next v m0 lo top tf : handles next (answer (P := P) v) true m0 lo top tf (with_eax v tf) (fun _ => True).
Proof.
  intros s ws base [Hk [Hds _] Hesp Hst] Htf. clearbody base. rewrite app_nil_r in Htf. apply tf_of_inv in Htf as (edi & esi & ebp & oesp & ebx & edx & ecx & eax & gs & x & es & ds & trapno & err & eip & cs & eflags & esp & ss & -> & ->).
  pose proof (km_flat s Hk) as Hf. assert (flat s DS) as Hfd by (apply flat_kernel; [apply Hk|done]). pose proof (sk_align _ _ _ _ _ _ Hst) as H4. pose proof (sk_range _ _ _ _ _ _ Hst) as Hr.
  pose proof (sk_words _ _ _ _ _ _ Hst) as Hw. cbn [length] in Hr. unfold answer. apply wp_bind. eapply (wp_load s 4 ESP EAX (base - 8) base); [exact Hf|done|lia|lia|elia|by apply (Hw 1%nat)|].
  apply wp_bind, wp_get_reg. xsimpl. rewrite upd_eq. apply wp_bind. eapply wp_wr; [exact Hfd|lia|lia|elia|xsimpl; etrans; [|by apply (Hw 9%nat)]; f_equal; lia|]. xsimpl.
  assert (words base (edi :: esi :: ebp :: oesp :: ebx :: edx :: ecx :: v :: gs :: x :: es :: ds :: trapno :: err :: eip :: cs :: eflags :: esp :: [ss]) (<[base + 28 := v]> (x_mem s))) as Hw'.
  { intros k y Hk'. destruct (decide (k = 7%nat)) as [->|Hne]; [injection Hk' as <-; apply lookup_insert_Some; left; split; [lia|done]|]. rewrite lookup_insert_ne by lia.
    replace (base + 4 * Z.of_nat k) with (base - 8 + 4 * Z.of_nat (S (S k))) by lia. apply Hw. by do 7 (destruct k as [|k]; [exact Hk'|]); destruct k. }
  apply wp_bind. eapply (wp_pop_word (<[base + 28 := v]> (x_mem s)) (base - 8) (base - 8) (base - 8) next []); [exact Hf|exact Hesp| |].
  - split; [done|cbn; lia|intros; lia|done|]. apply words_cons. split; [|by intros ? ? ?]. xsimpl. rewrite lookup_insert_ne by lia. rewrite <- (Hw 0%nat next) by done. f_equal; lia.
  - intros _. apply wp_modify. xsimpl. split; [destruct Hk; by split|]. split; [change (base - 8 + 4 = base - 4); lia|]. split; [done|]. eexists. split; [exact Hw'|]. done.
Qed.

(** User code with its kernel stack in one page. *)
Definition toy_user : x86 unit :=
  X86 (fun r => match r with ESP => 8192 | EAX => 5 | EBX => 6 | _ => 7 end) (fun r => match r with CS => 27 | FS | GS => 0 | _ => 35 end) 514 4096 1 0 0
    (seg_word <$> toy_gdt) (gate_word <$> toy_idt) 2147487744 16 (zeros 2147483648 1024) tt.

Lemma toy_tables fl eip cr3 cr4 idt e0 s0 m (r : reg -> Z) (g : sreg -> Z) : tables (X86 r g fl eip 1 cr3 cr4 (seg_word <$> toy_gdt) idt e0 s0 m tt).
Proof. split; [done|]. exists toy_gdt. split; [done|apply toy_segments]. Qed.

Lemma toy_interrupted : interrupted toy_vectors true 2147483648 2147487744 toy_user.
Proof.
  split; [apply toy_tables|exists toy_idt; split; [done|apply toy_gates]|done| | |lia].
  - intros [] Hc Hs; try done; cbn; unfold user_sel; lia.
  - change (x_mem toy_user) with (zeros 2147483648 1024). apply zeros_stack; [done|lia|lia|lia].
Qed.

Lemma trap_roundtrip_witness :
  exists s', take (fun w => w / 65536) (fun fl => fl) 0 (answer 42) toy_vectors true 64 0 toy_user = Ok tt s' /\ x_reg s' EAX = 42 /\ x_reg s' EBX = 6 /\ x_eip s' = 4096.
Proof.
  destruct (proj1 (wp_ok _ _ _) (trap_roundtrip (fun w => w / 65536) (fun fl => fl) toy_vectors 0 (answer 42) true 2147483648 2147487744 toy_user true 64 0
    (with_eax 42 (saved 64 0 (frame_at true 2147487744) toy_user)) (fun _ => True) toy_interrupted ltac:(lia) ltac:(done) (answer_handles _ _ _ _ _ _)
    ltac:(split_and!; [done|done|right; right; cbn; lia|right; right; cbn; lia|left; cbn; lia|left; cbn; lia]))) as ([] & s' & Hs' & [Hr _ He _] & _).
  exists s'. split; [exact Hs'|]. split; [exact (Hr EAX)|]. split; [exact (Hr EBX)|exact He].
Defined.

(** Two kernel stacks, in the pages at 0x80000000 and 0x80001000; behind them the words in which the contexts are stored. *)
Definition toy_stacks : gmap Z Z :=
  <[2147483904 := 111]> (<[2147483908 := 2147491840]> (<[2147483912 := 2147488000]> (<[2147488000 := 1]> (<[2147488004 := 2]> (<[2147488008 := 3]> (<[2147488012 := 4]> (<[2147488016 := 222]>
  (zeros 2147483648 2050)))))))).
Definition toy_kernel (m : gmap Z Z) : x86 unit :=
  X86 (fun r => match r with ESP => 2147483904 | EBX => 6 | _ => 7 end) (fun r => match r with CS => 8 | _ => 16 end) 2 4096 1 0 0 (seg_word <$> toy_gdt) (gate_word <$> toy_idt) 0 16 m tt.
(** The other side: it calls [swtch] with the context that was stored. *)
Definition toy_other : M (x86 unit) unit := v ← mem_rd DS 2147491840; push v ;; push 2147491844 ;; push 333.

Lemma toy_kernel_mode m : kernel_mode (toy_kernel m).
Proof. split; [apply toy_tables|done|done]. Qed.

Lemma is_Some_insert {V} (m : gmap Z V) a b v : is_Some (m !! b) -> is_Some (<[a := v]> m !! b).
Proof. intros Hb. destruct (decide (a = b)) as [->|Hne]; [rewrite lookup_insert_eq; by eexists|by rewrite lookup_insert_ne]. Qed.

Lemma toy_mapped a : 2147483648 <= a < 2147491848 -> a mod 4 = 0 -> is_Some (toy_stacks !! a).
Proof. intros Ha H4. unfold toy_stacks. do 8 apply is_Some_insert. exists 0. by apply zeros_lookup; [|lia|]. Qed.

Lemma toy_stack : stack toy_stacks 2147483648 2147483904 2147483904 [111; 2147491840; 2147488000] toy_stacks.
Proof.
  split.
  - reflexivity.
  - cbn [length]. lia.
  - intros a Ha H4. apply toy_mapped; [lia|exact H4].
  - intros a _. reflexivity.
  - unfold toy_stacks. stored.
Qed.

Lemma toy_call : swtch_call (toy_kernel toy_stacks) 2147483648 111 2147491840 2147488000.
Proof.
  pose proof (toy_kernel_mode toy_stacks) as Hk. split; [split; [by apply km_flat|by apply flat_kernel; [apply Hk|]]|exists []; exact toy_stack| | |]; change (x_reg _ ESP) with 2147483904.
  - lia.
  - split; [reflexivity|]. split; [lia|]. split; [apply toy_mapped; [lia|reflexivity]|lia].
  - split; [reflexivity|]. lia.
Qed.

Definition toy_s : x86 unit := toy_kernel toy_stacks.

Lemma toy_other_calls s1 : continues 2147488000 [1; 2; 3; 4; 222] s1 -> x_seg s1 = x_seg toy_s -> same_system toy_s s1 -> x_mem s1 !! 2147491840 = Some 2147483888 ->
  (forall a, ~ (2147483648 <= a < 2147483904) -> a <> 2147491840 -> x_mem s1 !! a = toy_stacks !! a) ->
  wp toy_other s1 (fun _ s2 => swtch_call s2 2147487744 333 2147491844 2147483888 /\ x_reg s2 ESP = 2147488008 /\
    forall a, ~ (2147488008 <= a < 2147488020) -> x_mem s2 !! a = x_mem s1 !! a).
Proof.
  intros [_ Hesp] Hseg Hsys Hold Hsame. assert (kernel_mode s1) as Hk by (eapply kernel_mode_eq; [exact Hsys|by rewrite Hseg|by rewrite Hseg|apply toy_kernel_mode]).
  pose proof (km_flat s1 Hk) as Hf. assert (flat s1 DS) as Hfd by (apply flat_kernel; [apply Hk|by rewrite Hseg]).
  assert (forall a, 2147487744 <= a < 2147491848 -> a mod 4 = 0 -> is_Some (x_mem s1 !! a)) as Hmap.
  { intros a Ha H4. destruct (decide (a = 2147491840)) as [->|Hne]; [rewrite Hold; by eexists|]. rewrite Hsame by lia. apply toy_mapped; [lia|done]. }
  unfold toy_other. apply wp_bind. eapply wp_rd; [exact Hfd|lia|lia|reflexivity|exact Hold|].
  destruct (Hmap 2147488016) as [w1 Hw1]; [lia|reflexivity|]. destruct (Hmap 2147488012) as [w2 Hw2]; [lia|reflexivity|]. destruct (Hmap 2147488008) as [w3 Hw3]; [lia|reflexivity|].
  apply wp_bind. eapply (wp_push_exact s1 _ 2147488020); [exact Hf|exact Hesp|reflexivity|lia|exact Hw1|]. xsimpl.
  apply wp_bind. eapply (wp_push_exact _ _ 2147488016); [exact Hf|reflexivity|reflexivity|lia|xsimpl; rewrite lookup_insert_ne by lia; exact Hw2|]. xsimpl.
  eapply (wp_push_exact _ _ 2147488012); [exact Hf|reflexivity|reflexivity|lia|xsimpl; rewrite !lookup_insert_ne by lia; exact Hw3|]. xsimpl.
  split; [|split; [reflexivity|]].
  - split; xsimpl; change (upd ESP (2147488012 - 4) _ ESP) with 2147488008.
    + split; [exact Hf|exact Hfd].
    + exists []. split; [reflexivity|cbn [length]; lia| |reflexivity|stored]. intros a Ha H4. do 3 apply is_Some_insert. apply Hmap; [lia|exact H4].
    + lia.
    + split; [reflexivity|]. split; [lia|]. split; [do 3 apply is_Some_insert; apply Hmap; [lia|reflexivity]|lia].
    + split; [reflexivity|]. lia.
  - intros a Ha. rewrite !lookup_insert_ne by lia. reflexivity.
Qed.

Lemma swtch_resumes_witness : exists s', (swtch ;; toy_other ;; swtch) toy_s = Ok tt s' /\ x_eip s' = 111 /\ x_reg s' EBX = 6 /\ x_reg s' ESP = 2147483908.
Proof.
  destruct (proj1 (wp_ok _ _ _) (swtch_resumes toy_s 2147483648 111 2147491840 2147488000 [1; 2; 3; 4; 222] 2147484160 toy_other toy_call eq_refl ltac:(unfold toy_s, toy_kernel, toy_stacks; cbn [x_mem]; stored)
    ltac:(change (x_reg toy_s ESP) with 2147483904; lia) ltac:(change (x_reg toy_s ESP) with 2147483904; lia)
    ltac:(intros s1 Hgo Hseg Hsys Hold Hsame; change (x_reg toy_s ESP) with 2147483904 in *; eapply wp_mono; [exact (toy_other_calls s1 Hgo Hseg Hsys Hold Hsame)|];
      intros [] s2 (Hc & He & Hm); exists 2147487744, 333, 2147491844, 2147483888; split; [exact Hc|]; split; [rewrite Hm by lia; exact Hold|]; split; [apply Hm; lia|];
      split; [intros a Ha; apply Hm; lia|]; split; [right; lia|lia]))) as ([] & s' & Hs' & [Hc _] & He & _).
  exists s'. split; [exact Hs'|]. injection Hc as _ _ Hb _ Hi. split; [exact Hi|]. split; [exact Hb|exact He].
Defined.

(** A new process with its kernel stack in the second page, and the frame of [userinit]. *)
Definition toy_frame : list Z := [0; 0; 0; 0; 0; 0; 0; 0; 0; 0; 35; 35; 0; 0; 0; 27; 512; 4096; 35].
Definition toy_framed : gmap Z Z :=
  <[2147483904 := 111]> (<[2147483908 := 2147491840]> (<[2147483912 := 2147491740]>
  (foldr (fun (k : nat) m => <[2147491764 + 4 * Z.of_nat k := default 0 (toy_frame !! k)]> m) (zeros 2147483648 2050) (seq 0 19)))).
Definition toy_new : gmap Z Z := (new_stack 2147487744 777 888 toy_framed).2.

Lemma toy_new_mapped a : 2147483648 <= a < 2147491848 -> a mod 4 = 0 -> is_Some (toy_new !! a).
Proof. intros Ha H4. unfold toy_new, new_stack, word_wr, toy_framed. cbn [foldl foldr seq snd]. repeat simple apply is_Some_insert. exists 0. by apply zeros_lookup; [|lia|]. Qed.

Lemma toy_new_stack : stack toy_new 2147483648 2147483904 2147483904 [111; 2147491840; 2147491740] toy_new.
Proof.
  split; [reflexivity|cbn [length]; lia|intros a Ha H4; apply toy_new_mapped; [lia|exact H4]|reflexivity|].
  intros k v Hk. pose proof (lookup_lt_Some _ _ _ Hk) as Hl. cbn [length] in Hl. pose proof (new_stack_words 2147487744 777 888 toy_framed eq_refl ltac:(lia) ltac:(lia)) as Hn.
  unfold toy_new. destruct (new_stack 2147487744 777 888 toy_framed) as [[t c] m'] eqn:E. destruct Hn as (Ht & Hc & _ & Hsame). unfold frame_at, SIZEOF_TRAPFRAME, KSTACKSIZE in Ht. cbn [snd].
  rewrite Hsame by lia. clear -Hk. revert k v Hk. unfold toy_framed. change (words 2147483904 [111; 2147491840; 2147491740] toy_framed). unfold toy_framed. stored.
Qed.

Lemma toy_new_call : swtch_call (toy_kernel toy_new) 2147483648 111 2147491840 2147491740.
Proof.
  pose proof (toy_kernel_mode toy_new) as Hk. split; [split; [by apply km_flat|by apply flat_kernel; [apply Hk|]]|exists []; exact toy_new_stack| | |]; change (x_reg _ ESP) with 2147483904.
  - lia.
  - split; [reflexivity|]. split; [lia|]. split; [apply toy_new_mapped; [lia|reflexivity]|lia].
  - split; [reflexivity|]. lia.
Qed.

(** A [forkret] that does nothing but return. *)
Lemma ret_returns {P} (s : x86 P) a hi Q : kernel_mode s -> x_mem s !! x_reg s ESP = Some a -> x_reg s ESP mod 4 = 0 -> 0 <= x_reg s ESP -> x_reg s ESP + 4 < 2 ^ 32 ->
  (forall s2, kernel_mode s2 /\ x_reg s2 ESP = x_reg s ESP + 4 /\ x_eip s2 = a /\ (forall b, x_reg s ESP < b < hi -> x_mem s2 !! b = x_mem s !! b) -> Q tt s2) -> wp ret s Q.
Proof.
  intros Hk Ha H4 H0 Hm HQ. unfold ret. apply wp_bind. eapply (wp_pop_word (x_mem s) (x_reg s ESP) (x_reg s ESP) (x_reg s ESP) a []); [by apply km_flat|reflexivity| |].
  - split; [done|cbn [length]; lia|intros; lia|done|]. by apply words_store; [|apply words_none].
  - intros _. apply wp_modify. apply HQ. split; [destruct Hk; by split|done].
Qed.

Lemma toy_new_frame : words 2147491764 toy_frame toy_new.
Proof.
  pose proof (new_stack_words 2147487744 777 888 toy_framed eq_refl ltac:(lia) ltac:(lia)) as Hn. unfold toy_new.
  destruct (new_stack 2147487744 777 888 toy_framed) as [[t c] m']. destruct Hn as (Ht & Hc & _ & Hsame). unfold frame_at, SIZEOF_TRAPFRAME, KSTACKSIZE in Ht. cbn [snd].
  intros k v Hk. rewrite Hsame by lia. revert k v Hk. change (words 2147491764 toy_frame toy_framed). unfold toy_framed, toy_frame. cbn [foldr seq lookup list_lookup default from_option]. stored.
Qed.

Lemma toy_apart : 2147483904 <= 2147491740 /\ ~ (2147491740 - 4 < 2147491840 < 2147491840).
Proof. lia. Qed.

Lemma toy_forkret (s1 : x86 unit) a : kernel_mode s1 -> x_reg s1 ESP = 2147491760 -> x_mem s1 !! x_reg s1 ESP = Some a -> wp ret s1 (fun _ s2 =>
  kernel_mode s2 /\ x_reg s2 ESP = x_reg s1 ESP + 4 /\ x_eip s2 = a /\ forall b, x_reg s1 ESP < b < 2147491840 -> x_mem s2 !! b = x_mem s1 !! b).
Proof. intros Hk Hesp Ha. eapply (ret_returns s1 a 2147491840); [exact Hk|exact Ha|by rewrite Hesp|lia|lia|done]. Qed.

Lemma new_process_enters_user_witness :
  exists s', (swtch ;; code_at 888 ret ;; code_at 777 (trapret (fun fl => fl))) (toy_kernel toy_new) = Ok tt s' /\ x_eip s' = 0 /\ x_reg s' ESP = 4096 /\ x_seg s' CS = 27 /\ x_eflags s' = 512.
Proof.
  pose proof (new_process_enters_user (fun fl => fl) (toy_kernel toy_new) 2147483648 111 2147491840 2147487744 777 888 toy_framed ret toy_frame
    (Trapframe 0 0 0 0 0 0 0 0 0 0 35 35 0 0 0 27 512 4096 35) eq_refl ltac:(lia) ltac:(lia) (toy_kernel_mode toy_new)) as Hthm. unfold new_stack in Hthm. cbv zeta iota in Hthm.
  specialize (Hthm ltac:(reflexivity) toy_new_frame eq_refl ltac:(split_and!; [done|done|right; right; cbn; lia|right; right; cbn; lia|left; cbn; lia|left; cbn; lia]) toy_new_call).
  destruct (proj1 (wp_ok _ _ _) (Hthm (or_intror (proj1 toy_apart)) (proj2 toy_apart) toy_forkret)) as ([] & s' & Hs' & [Hr Hsg He Hfl]).
  exists s'. split; [exact Hs'|]. split; [exact He|]. split; [exact (Hr ESP)|]. split; [exact (Hsg CS)|exact Hfl].
Defined.
