(* ===== verification/AsmBoot.v ===== *)
(** The start of a processor in assembly (entry.S, entryother.S, bootasm.S): from real mode to the first function in C. *)

From S2P Require Import Prelude Bytes Kalloc Vm Kernel Proc Trap Seg Port Main Asm AsmSpec.

(** ** The table of descriptors for the start *)
Definition boot_gdt : list Z := [0; 0x00cf9a000000ffff; 0x00cf92000000ffff].

(** The bytes [l] are in memory, from [a] on. *)
Definition loaded_at (a : Z) (l : list Z) (m : gmap Z Z) : Prop := forall i, (4 * i < length l)%nat -> m !! (a + 4 * Z.of_nat i) = Some (word_at l i).

(** The table, and behind it what [lgdt] reads; [rest] is whatever comes after it. *)
Record gdt_loaded (gdt : Z) (m : gmap Z Z) : Prop := {
  gl_align : gdt mod 4 = 0;
  gl_range : 0 <= gdt /\ gdt + 32 <= 65536;
  gl_table : loaded_at gdt gdt_bytes m;
  gl_desc : exists rest, length rest = 2%nat /\ bytes_ok rest /\ loaded_at (gdt + 24) (gdtdesc_bytes gdt ++ rest) m;
}.

Lemma boot_gdt_read gdt m : gdt_loaded gdt m -> gdt_read gdt 3 m = Some boot_gdt.
Proof.
  intros [_ _ Ht _]. unfold gdt_read. cbn [seq mapM mbind option_bind]. pose proof (fun i => Ht i) as Hi.
  change (gdt + 8 * Z.of_nat 0) with (gdt + 4 * Z.of_nat 0).
  replace (gdt + 4 * Z.of_nat 0 + 4) with (gdt + 4 * Z.of_nat 1) by lia. replace (gdt + 8 * Z.of_nat 1) with (gdt + 4 * Z.of_nat 2) by lia.
  replace (gdt + 4 * Z.of_nat 2 + 4) with (gdt + 4 * Z.of_nat 3) by lia. replace (gdt + 8 * Z.of_nat 2) with (gdt + 4 * Z.of_nat 4) by lia.
  replace (gdt + 4 * Z.of_nat 4 + 4) with (gdt + 4 * Z.of_nat 5) by lia. rewrite !Hi by (cbn; lia). vm_compute. reflexivity.
Qed.

Lemma gdtdesc_words gdt rest : 0 <= gdt < 65536 -> length rest = 2%nat ->
  word_at (gdtdesc_bytes gdt ++ rest) 0 = 23 + 65536 * gdt /\ exists k, word_at (gdtdesc_bytes gdt ++ rest) 1 = 65536 * k.
Proof.
  intros Hg Hr. destruct rest as [|x [|y [|]]]; try done. unfold gdtdesc_bytes. change (Z.of_nat (length gdt_bytes) - 1) with 23. unfold word_at, get_le. cbn [le_enc app length].
  cbn -[Z.mul Z.add Z.div Z.modulo]. split; [elia|]. exists (x + 256 * (y + 256 * 0)). elia.
Qed.

(** The next instruction. *)
Tactic Notation "boot_step" uconstr(L) := apply wp_bind, L; xsimpl; rewrite ?upd_eq.

Section Boot.
Context {P : Type} `{Ports P} (alu : Z -> Z) (Halu : forall fl, Z.testbit (alu fl) 9 = Z.testbit fl 9).
Implicit Types s : x86 P.

Lemma wp_real_rd s r a v Q : protected s = false -> x_seg s r = 0 -> a + 3 <= 65535 -> a mod 4 = 0 -> x_mem s !! a = Some v -> Q v s -> wp (mem_rd r a) s Q.
Proof.
  intros Hp Hr Ha H4 Hv HQ. unfold wp, mem_rd, linear. rewrite Hp, Hr, (proj2 (Z.leb_le _ _)) by lia. change (16 * 0 + a) with a. by rewrite H4, Z.eqb_refl, Hv.
Qed.

Lemma wp_movl_from s f r Q : Q tt (xs_reg (upd r (f s) (x_reg s)) s) -> wp (movl_from f r) s Q.
Proof. intros HQ. by apply wp_bind, wp_gets, wp_put_reg. Qed.
Lemma wp_movl_to s f r Q : Q tt (f (x_reg s r) s) -> wp (movl_to f r) s Q.
Proof. intros HQ. by apply wp_bind, wp_get_reg, wp_modify. Qed.
Lemma wp_orl s n r Q : Q tt (xs_eflags (alu (x_eflags s)) (xs_reg (upd r (Z.lor (x_reg s r) n) (x_reg s)) s)) -> wp (orl alu n r) s Q.
Proof. intros HQ. by apply wp_bind, wp_get_reg, wp_bind, wp_put_reg, wp_modify. Qed.

(** [s'] has the memory, the devices and the control registers of [s]. *)
Definition same_machine s s' : Prop := x_mem s' = x_mem s /\ x_dev s' = x_dev s /\ x_cr3 s' = x_cr3 s /\ x_cr4 s' = x_cr4 s.

Lemma wp_real_seg s r Q : protected s = false -> Q tt (xs_seg (upd r (u16 (x_reg s EAX)) (x_seg s)) s) -> wp (movw_seg r) s Q.
Proof. intros Hp HQ. apply wp_bind, wp_get_reg. unfold load_seg. apply wp_bind, wp_gets. rewrite Hp. by apply wp_modify. Qed.

Lemma wp_zero_segments s Q : protected s = false ->
  (forall s', protected s' = false -> x_cr0 s' = x_cr0 s -> same_machine s s' -> x_seg s' DS = 0 -> x_seg s' CS = x_seg s CS -> Z.testbit (x_eflags s') 9 = false ->
     Q tt s') -> wp (zero_segments alu) s Q.
Proof.
  intros Hp HQ. unfold zero_segments. apply wp_bind, wp_modify. apply wp_bind, wp_movw_ax. intros v Ev. xsimpl. apply wp_bind, wp_modify. xsimpl.
  apply wp_bind, wp_real_seg; [exact Hp|]. xsimpl. apply wp_bind, wp_real_seg; [exact Hp|]. xsimpl. apply wp_real_seg; [exact Hp|]. xsimpl.
  apply HQ; try done. change (Z.testbit (alu (Z.ldiff (x_eflags s) FL_IF)) 9 = false). rewrite Halu, Z.ldiff_spec. apply andb_false_r.
Qed.

Lemma wp_lgdt16 s gdt Q : protected s = false -> x_seg s DS = 0 -> gdt_loaded gdt (x_mem s) -> Q tt (xs_gdt boot_gdt s) -> wp (lgdt16 (gdt + 24)) s Q.
Proof.
  clear Halu alu. intros Hp Hds Hl HQ. pose proof (boot_gdt_read _ _ Hl) as Hread. destruct Hl as [H4 Hr _ (rest & Hlen & _ & Hd)]. destruct (gdtdesc_words gdt rest) as (Hw0 & k & Hw1); [lia|done|].
  assert (length (gdtdesc_bytes gdt ++ rest) = 8%nat) as Hl8 by (rewrite length_app, Hlen; done).
  assert (x_mem s !! (gdt + 24) = Some (23 + 65536 * gdt)) as H0 by (rewrite <- Hw0, <- (Hd 0%nat) by lia; f_equal; lia).
  assert (x_mem s !! (gdt + 24 + 4) = Some (65536 * k)) as H1 by (rewrite <- Hw1, <- (Hd 1%nat) by lia; f_equal; lia).
  unfold lgdt16. apply wp_bind. eapply wp_real_rd; [done|done|lia|elia|exact H0|]. apply wp_bind. eapply wp_real_rd; [done|done|lia|elia|exact H1|]. cbv zeta. apply wp_bind, wp_gets.
  assert (((23 + 65536 * gdt) / 65536 + 65536 * (65536 * k)) mod 2 ^ 24 = gdt) as -> by (change (2 ^ 24) with 16777216; elia).
  assert (((23 + 65536 * gdt) mod 65536 + 1) / 8 = 3) as -> by elia. rewrite H4, Z.eqb_refl. change (Z.to_nat 3) with 3%nat. apply wp_bind. eapply wp_deref; [exact Hread|]. by apply wp_modify.
Qed.

(** In protected mode with the table for the start: flat segments for code and data. *)
Record flat_mode s : Prop := {
  fm_protected : protected s = true;
  fm_gdt : x_gdt s = boot_gdt;
  fm_code : x_seg s CS = 8;
  fm_data : x_seg s DS = 16 /\ x_seg s ES = 16 /\ x_seg s SS = 16 /\ x_seg s FS = 0 /\ x_seg s GS = 0;
}.

Lemma boot_desc s : x_gdt s = boot_gdt -> descriptor s 8 = Some 0x00cf9a000000ffff /\ descriptor s 16 = Some 0x00cf92000000ffff.
Proof. intros Hg. unfold descriptor. by rewrite Hg. Qed.

Lemma flat_mode_flat s r : flat_mode s -> r = DS \/ r = SS -> flat s r.
Proof.
  intros [Hp Hg _ (Hds & _ & Hss & _)] Hr. split; [done|]. exists 0x00cf92000000ffff. split; [|by vm_compute]. destruct Hr as [-> | ->]; [rewrite Hds|rewrite Hss]; by apply boot_desc.
Qed.

Lemma wp_to_protected s gdt start32 Q : protected s = false -> x_seg s DS = 0 -> x_seg s CS mod 4 = 0 -> gdt_loaded gdt (x_mem s) ->
  (forall s', x_cr0 s' = Z.lor (x_cr0 s) CR0_PE -> x_gdt s' = boot_gdt -> x_seg s' CS = 8 -> x_eip s' = start32 -> same_machine s s' -> Z.testbit (x_eflags s') 9 = Z.testbit (x_eflags s) 9 -> Q tt s') ->
  wp (to_protected alu (gdt + 24) start32) s Q.
Proof.
  intros Hp Hds Hcs Hl HQ. unfold to_protected. apply wp_bind, wp_lgdt16; [done|done|done|]. apply wp_bind, wp_movl_from. xsimpl.
  apply wp_bind, wp_orl. xsimpl. apply wp_bind, wp_movl_to. xsimpl.
  unfold ljmp. apply wp_bind, wp_gets, wp_bind. eapply wp_deref; [reflexivity|]. apply wp_bind, wp_gets. unfold cpl. xsimpl. rewrite Hcs. apply wp_bind, wp_ret.
  apply wp_bind, wp_modify, wp_modify. xsimpl. apply HQ; try done. apply Halu.
Qed.

Lemma wp_flat_seg s r sel Q : protected s = true -> x_gdt s = boot_gdt -> x_seg s CS = 8 -> u16 (x_reg s EAX) = sel -> sel = 16 \/ sel = 0 /\ r <> SS ->
  Q tt (xs_seg (upd r sel (x_seg s)) s) -> wp (movw_seg r) s Q.
Proof.
  clear Halu alu. intros Hp Hg Hcs Hax Hsel HQ. apply wp_bind, wp_get_reg. rewrite Hax. unfold load_seg. apply wp_bind, wp_gets.
  assert (loadable s r sel = true) as ->; [|rewrite orb_true_r; by apply wp_modify]. destruct (boot_desc s Hg) as [_ Hd].
  destruct Hsel as [->|[-> Hr]]; [unfold loadable, cpl; rewrite Hd, Hcs; by destruct r|by destruct r].
Qed.

Lemma wp_data_segments s Q : protected s = true -> x_gdt s = boot_gdt -> x_seg s CS = 8 ->
  (forall s', flat_mode s' -> x_cr0 s' = x_cr0 s -> same_machine s s' -> x_eip s' = x_eip s -> x_eflags s' = x_eflags s -> Q tt s') -> wp data_segments s Q.
Proof.
  clear Halu alu. intros Hp Hg Hcs HQ. unfold data_segments. apply wp_bind, wp_movw_ax. intros v Ev. xsimpl.
  do 3 (apply wp_bind; eapply wp_flat_seg; [exact Hp|exact Hg|exact Hcs|exact Ev|by left|]; xsimpl). apply wp_bind, wp_movw_ax. intros v' Ev'. xsimpl.
  apply wp_bind. eapply wp_flat_seg; [exact Hp|exact Hg|exact Hcs|exact Ev'|by right|]. xsimpl. eapply wp_flat_seg; [exact Hp|exact Hg|exact Hcs|exact Ev'|by right|]. xsimpl.
  apply HQ; try done.
Qed.

(** From real mode to flat segments. *)
Lemma wp_start32 s gdt start32 (K : M (x86 P) unit) Q : protected s = false -> x_seg s DS = 0 -> x_seg s CS mod 4 = 0 -> gdt_loaded gdt (x_mem s) ->
  (forall s', flat_mode s' -> x_cr0 s' = Z.lor (x_cr0 s) CR0_PE -> same_machine s s' -> Z.testbit (x_eflags s') 9 = Z.testbit (x_eflags s) 9 -> wp K s' Q) ->
  wp (to_protected alu (gdt + 24) start32 ;; data_segments ;; K) s Q.
Proof.
  intros Hp Hds Hcs Hl HQ. apply wp_bind, wp_to_protected; [done|done|done|done|]. intros s1 Hcr Hg Hcs1 _ Hm Hfl. assert (protected s1 = true) as Hp1.
  { unfold protected. rewrite Hcr, Z.lor_spec. apply orb_true_r. }
  apply wp_bind, wp_data_segments; [done|done|done|]. intros s2 Hfm Hcr2 Hm2 _ Hfl2. apply HQ; [done|congruence| |congruence].
  destruct Hm as (? & ? & ? & ?), Hm2 as (? & ? & ? & ?). split_and!; congruence.
Qed.

(** A call of a function in C, which begins at [a]. *)
Lemma wp_call_c s next a sp w Q : flat_mode s -> x_reg s ESP = sp -> sp mod 4 = 0 -> 4 <= sp < 2 ^ 32 -> x_mem s !! (sp - 4) = Some w ->
  Q tt (xs_eip a (xs_reg (upd ESP (sp - 4) (x_reg s)) (xs_mem (<[sp - 4 := next]> (x_mem s)) s))) -> wp (call next (jmp a)) s Q.
Proof.
  clear Halu alu. intros Hfm Hsp H4 Hr Hw HQ. unfold call. apply wp_bind. eapply wp_push_exact; [by apply flat_mode_flat; [|right]|exact Hsp|done|done|exact Hw|]. by apply wp_modify.
Qed.
End Boot.

(** ** Pages of 4 MB *)

(** The address that the directory [pd] gives to [a], where it has an entry for a page of 4 MB. *)
Definition big_page (pd : list Z) (a : Z) : option Z :=
  e ← pd !! Z.to_nat (a / 4194304);
  if Z.testbit e 0 && Z.testbit e 7 then Some (e / 4194304 * 4194304 + a mod 4194304) else None.

Lemma entrypgdir_entries : entrypgdir !! Z.to_nat 0 = Some 131 /\ entrypgdir !! Z.to_nat 512 = Some 131.
Proof. split; vm_compute; reflexivity. Qed.

(** [entry] turns paging on and goes on at [main] with the kernel's stack. Under the directory that it loads, the first 4 MB of memory are where they were, so that the instructions up to the jump
    go on to run, and also where the kernel is linked to be. *)
Theorem entry_pages {P} (alu : Z -> Z) (s : x86 P) entrypgdir_at stack_at main_at :
  wp (entry alu entrypgdir_at stack_at main_at) s (fun _ s' =>
    x_eip s' = main_at /\ x_reg s' ESP = u32 (stack_at + KSTACKSIZE) /\ x_cr3 s' = V2P entrypgdir_at /\ x_cr4 s' = Z.lor (x_cr4 s) CR4_PSE /\ x_cr0 s' = Z.lor (x_cr0 s) (Z.lor CR0_PG CR0_WP) /\
    x_seg s' = x_seg s /\ x_mem s' = x_mem s) /\
  forall a, 0 <= a < 4194304 -> big_page entrypgdir a = Some a /\ big_page entrypgdir (P2V a) = Some a.
Proof.
  split.
  - unfold entry. boot_step wp_movl_from. boot_step wp_orl. boot_step wp_movl_to. boot_step wp_put_reg. boot_step wp_movl_to. boot_step wp_movl_from. boot_step wp_orl. boot_step wp_movl_to.
    boot_step wp_put_reg. boot_step wp_put_reg. apply wp_movl_to. by split_and!.
  - intros a Ha. unfold big_page, P2V, KERNBASE. rewrite u32_small by lia. assert (a / 4194304 = 0) as -> by elia. assert ((a + 2147483648) / 4194304 = 512) as -> by elia. destruct entrypgdir_entries as [-> ->].
    cbn -[Z.modulo Z.div]. split; f_equal; elia.
Qed.

(** ** The other processors *)

Lemma flat_mode_cr {P} (s s' : x86 P) : flat_mode s -> Z.testbit (x_cr0 s') 0 = true -> x_gdt s' = x_gdt s -> x_seg s' = x_seg s -> flat_mode s'.
Proof. intros [Hp Hg Hc Hd] Hp' Hg' Hs. split; [done|congruence|by rewrite Hs|by rewrite Hs]. Qed.

(** C17: Another processor, which starts in real mode at 0x7000 with interrupts on or off, reaches [mpenter] in protected mode with flat segments, paging on and interrupts off: with the stack, the page directory and the
    address that [startothers] has left in the page below its code, the words 1023, 1021 and 1022 that [run_ap] takes from it. It writes nothing but the return address on its stack. *)
Theorem other_processor_starts {P} (alu : Z -> Z) (s : x86 P) gdt start32 next page : (forall fl, Z.testbit (alu fl) 9 = Z.testbit fl 9) ->
  protected s = false -> x_seg s CS = 0x700 -> gdt_loaded gdt (x_mem s) -> (forall i, (1021 <= i < 1024)%nat -> x_mem s !! (0x6000 + 4 * Z.of_nat i) = Some (word_at page i)) ->
  word_at page 1023 mod 4 = 0 -> 4 <= word_at page 1023 < 2 ^ 32 -> is_Some (x_mem s !! (word_at page 1023 - 4)) ->
  wp (entryother alu 0x7000 (gdt + 24) start32 next) s (fun _ s' =>
    x_eip s' = word_at page 1022 /\ x_cr3 s' = word_at page 1021 /\ x_reg s' ESP = word_at page 1023 - 4 /\ x_mem s' = <[word_at page 1023 - 4 := next]> (x_mem s) /\
    flat_mode s' /\ x_cr4 s' = Z.lor (x_cr4 s) CR4_PSE /\ Z.testbit (x_cr0 s') 31 = true /\ Z.testbit (x_cr0 s') 16 = true /\ Z.testbit (x_eflags s') 9 = false).
Proof.
  intros Halu Hp Hcs Hl Hpage H4 Hstack [w Hw]. unfold entryother. apply wp_bind, (wp_zero_segments alu Halu); [done|]. intros s1 Hp1 Hcr1 (Hm1 & Hd1 & Hc31 & Hc41) Hds Hcs1 Hif.
  assert (x_mem s !! 28660 = Some (word_at page 1021) /\ x_mem s !! 28664 = Some (word_at page 1022) /\ x_mem s !! 28668 = Some (word_at page 1023)) as (Hw1 & Hw2 & Hw3).
  { split_and!; rewrite <- Hpage by lia; f_equal; lia. }
  clear Hpage. set (pgdir := word_at page 1021) in *. set (entry := word_at page 1022) in *. set (stack := word_at page 1023) in *. clearbody pgdir entry stack.
  apply (wp_start32 alu Halu); [done|done|by rewrite Hcs1, Hcs|by rewrite Hm1|]. intros s2 Hfm Hcr2 (Hm2 & Hd2 & Hc32 & Hc42) Hif2. rewrite Hm1 in Hm2. rewrite <- Hm2 in Hw1, Hw2, Hw3, Hw |- *.
  boot_step wp_movl_from. boot_step wp_orl. boot_step wp_movl_to.
  apply wp_bind. eapply wp_rd; [exact (flat_mode_flat s2 DS Hfm (or_introl eq_refl))|lia|lia|done|exact Hw1|].
  boot_step wp_put_reg. boot_step wp_movl_to. boot_step wp_movl_from. boot_step wp_orl. boot_step wp_movl_to.
  match goal with |- wp _ ?s _ => assert (flat_mode s) as Hfm3 end.
  { eapply flat_mode_cr; [exact Hfm| |done|done]. xsimpl. rewrite Z.lor_spec. apply orb_true_r. }
  apply wp_bind. eapply wp_rd; [exact (flat_mode_flat _ DS Hfm3 (or_introl eq_refl))|lia|lia|done|exact Hw3|].
  boot_step wp_put_reg. apply wp_bind. eapply wp_rd; [exact (flat_mode_flat _ DS Hfm3 (or_introl eq_refl))|lia|lia|done|exact Hw2|].
  eapply (wp_call_c _ next _ stack); [by eapply flat_mode_cr; [exact Hfm3|apply Hfm3|done|done]|reflexivity|done|done|exact Hw|]. xsimpl. split_and!; try done.
  - by eapply flat_mode_cr; [exact Hfm3|apply Hfm3|done|done].
  - by rewrite Hc42, Hc41.
  - rewrite !Z.lor_spec. apply orb_true_r.
  - rewrite !Z.lor_spec. apply orb_true_r.
  - by rewrite !Halu, Hif2.
Qed.

(** A processor that is started with its stack at 0x80003000, whose table is at 0x7080. *)
Definition toy_page : list Z := set_word (set_word (set_word (replicate 4096 0) 1023 2147495936) 1022 2148540000) 1021 1085440.
Definition toy_low : gmap Z Z :=
  list_to_map ([(28660, 1085440); (28664, 2148540000); (28668, 2147495936); (2147495932, 0)] ++
    imap (fun i w => (28800 + 4 * Z.of_nat i, w)) [0; 0; 65535; 13605376; 65535; 13603328] ++ [(28824, 23 + 65536 * 28800); (28828, 0)]).
Definition toy_ap : x86 unit := X86 (fun _ => 0) (fun r => match r with CS => 1792 | _ => 5 end) 514 0 0 0 0 [] [] 0 0 toy_low tt.

Lemma toy_gdt_loaded : gdt_loaded 28800 toy_low.
Proof.
  split; [done|lia| |exists [0; 0]; split; [done|split; [repeat constructor; lia|]]].
  - intros i Hi. change (length gdt_bytes) with 24%nat in Hi. do 6 (destruct i as [|i]; [vm_compute; reflexivity|]). lia.
  - intros i Hi. change (length _) with 8%nat in Hi. do 2 (destruct i as [|i]; [vm_compute; reflexivity|]). lia.
Qed.

Lemma toy_page_words : word_at toy_page 1021 = 1085440 /\ word_at toy_page 1022 = 2148540000 /\ word_at toy_page 1023 = 2147495936.
Proof. split_and!; vm_compute; reflexivity. Qed.

Lemma toy_page_at i : (1021 <= i < 1024)%nat -> toy_low !! (24576 + 4 * Z.of_nat i) = Some (word_at toy_page i).
Proof.
  intros Hi. destruct toy_page_words as (H1 & H2 & H3). assert (i = 1021 \/ i = 1022 \/ i = 1023)%nat as [-> |[-> | ->]] by lia; [rewrite H1|rewrite H2|rewrite H3]; vm_compute; reflexivity.
Qed.

Lemma other_processor_starts_witness :
  exists s', entryother (fun fl => fl) 28672 28824 28700 28750 toy_ap = Ok tt s' /\ x_eip s' = 2148540000 /\ x_cr3 s' = 1085440 /\ x_reg s' ESP = 2147495932.
Proof.
  destruct toy_page_words as (H1 & H2 & H3).
  destruct (proj1 (wp_ok _ _ _) (other_processor_starts (fun fl => fl) toy_ap 28800 28700 28750 toy_page ltac:(done) eq_refl eq_refl toy_gdt_loaded toy_page_at ltac:(by rewrite H3) ltac:(rewrite H3; lia)
    ltac:(rewrite H3; exists 0; vm_compute; reflexivity))) as ([] & s' & Hs' & He & Hc & Hsp & _). rewrite H2 in He. rewrite H1 in Hc. rewrite H3 in Hsp.
  exists s'. split; [exact Hs'|]. split; [exact He|]. split; [exact Hc|exact Hsp].
Defined.

(** ** The boot sector *)

(** A device that is read until it is no longer busy. *)
Inductive polled {P} `{Ports P} : P -> P -> Prop :=
  | polled_ready d : Z.land (u8 (port_in 0x64 d).1) 0x2 = 0 -> polled d (port_in 0x64 d).2
  | polled_busy d d' : Z.land (u8 (port_in 0x64 d).1) 0x2 <> 0 -> polled (port_in 0x64 d).2 d' -> polled d d'.

(** Each state of the keyboard controller is busy for less than [fuel] readings. *)
Definition gets_ready {P} `{Ports P} (busy : P -> nat) (fuel : nat) : Prop :=
  forall d, (busy d < fuel)%nat /\ (Z.land (u8 (port_in 0x64 d).1) 0x2 <> 0 -> (busy (port_in 0x64 d).2 < busy d)%nat).

Lemma wp_seta20 {P} `{Ports P} (alu : Z -> Z) busy fuel (s : x86 P) Q : (forall d, Z.land (u8 (port_in 0x64 d).1) 0x2 <> 0 -> (busy (port_in 0x64 d).2 < busy d)%nat) -> (busy (x_dev s) < fuel)%nat ->
  (forall fl, Z.testbit (alu fl) 9 = Z.testbit fl 9) ->
  (forall f fl d, polled (x_dev s) d -> Z.testbit fl 9 = Z.testbit (x_eflags s) 9 -> Q tt (xs_reg f (xs_eflags fl (xs_dev d s)))) -> wp (seta20 alu fuel) s Q.
Proof.
  intros Hb Hf Halu. revert s Hf Q. induction fuel as [|fuel IH]; intros s Hf Q HQ; [lia|]. cbn [seta20]. apply wp_bind, wp_zoom. unfold inb, wp. pose proof (Hb (x_dev s)) as Hbs.
  pose proof (polled_ready (x_dev s)) as Hready. pose proof (polled_busy (x_dev s)) as Hbusy. destruct (port_in 100 (x_dev s)) as [v d]. cbn [fst snd] in *.
  match goal with |- match ?m ?s with _ => _ end => change (wp m s Q) end. unfold put_al. apply wp_bind, wp_bind, wp_get_reg, wp_put_reg, wp_bind, wp_modify. xsimpl.
  destruct (Z.eqb_spec (Z.land (u8 v) 2) 0) as [Hz|Hz]; cbn [negb].
  - apply wp_ret, HQ; [by apply Hready|apply Halu].
  - apply IH; [xsimpl; specialize (Hbs Hz); lia|]. intros f fl d' Hpoll Hfl. apply HQ; [by apply Hbusy|etrans; [exact Hfl|apply Halu]].
Qed.

(** The boot sector, which the firmware starts in real mode, opens address line 20 with the two commands to a keyboard controller that is ready for each, enters protected mode with flat segments
    and interrupts off, and calls [bootmain] with the stack below its own code. It writes nothing else to memory. *)
Theorem boot_sector_starts {P} `{Ports P} (alu : Z -> Z) (s : x86 P) busy fuel start gdt start32 next bootmain_at w : (forall fl, Z.testbit (alu fl) 9 = Z.testbit fl 9) ->
  gets_ready busy fuel -> protected s = false -> x_seg s CS = 0 -> gdt_loaded gdt (x_mem s) -> start mod 4 = 0 -> 4 <= start < 2 ^ 32 -> x_mem s !! (start - 4) = Some w ->
  wp (bootasm alu fuel start (gdt + 24) start32 next bootmain_at) s (fun _ s' =>
    x_eip s' = bootmain_at /\ x_reg s' ESP = start - 4 /\ x_mem s' = <[start - 4 := next]> (x_mem s) /\ flat_mode s' /\ Z.testbit (x_eflags s') 9 = false /\
    exists d1 d2, polled (x_dev s) d1 /\ polled (port_out 0x64 0xd1 d1) d2 /\ x_dev s' = port_out 0x60 0xdf d2).
Proof.
  intros Halu Hready Hp Hcs Hl H4 Hstart Hw. unfold bootasm. apply wp_bind, (wp_zero_segments alu Halu); [done|]. intros s1 Hp1 Hcr1 (Hm1 & Hd1 & _ & _) Hds Hcs1 Hif.
  apply wp_bind, (wp_seta20 alu busy); [apply Hready|apply Hready|done|]. intros f1 fl1 d1 Hpoll1 Hfl1. apply wp_bind. unfold out_al, put_al. apply wp_bind, wp_bind, wp_get_reg, wp_put_reg, wp_zoom, wp_modify. xsimpl.
  apply wp_bind, (wp_seta20 alu busy); [apply Hready|apply Hready|done|]. xsimpl. intros f2 fl2 d2 Hpoll2 Hfl2. apply wp_bind, wp_bind, wp_bind, wp_get_reg, wp_put_reg, wp_zoom, wp_modify. xsimpl.
  apply (wp_start32 alu Halu); [done|done|by rewrite <- Hcs1 in Hcs; xsimpl; rewrite Hcs|by xsimpl; rewrite Hm1|]. intros s2 Hfm _ (Hm2 & Hd2 & _ & _) Hif2. cbn [x_mem x_dev x_eflags] in Hm2, Hd2, Hif2.
  boot_step wp_put_reg. eapply (wp_call_c _ next _ start); [by eapply flat_mode_cr; [exact Hfm|apply Hfm|done|done]|reflexivity|done|done|xsimpl; rewrite Hm2, Hm1; exact Hw|]. xsimpl.
  split_and!; [done|done|by rewrite Hm2, Hm1|by eapply flat_mode_cr; [exact Hfm|apply Hfm|done|done]|by rewrite Hif2, Hfl2, Hfl1|].
  exists d1, d2. rewrite <- Hd1, Hd2. done.
Qed.
