(* ===== verification/Prog.v ===== *)
(** User programs (cat.c, echo.c, wc.c, ls.c, ln.c, rm.c, mkdir.c, kill.c, init.c, [stat] of ulib.c, [grep] and [main] of grep.c) as trees of system calls.

    A program is an interaction tree whose events are its system calls (user.h); what the calls do is said by the handlers in the files
    with the theorems. Strings are the lists of their characters, without the zero at their end. *)

From ITree Require Import ITree.
From S2P Require Import Prelude Bytes Ulib Printf Grep.

Record ustat := Ustat { st_type : Z; st_ino : Z; st_size : Z }.

(** The calls, with what they return; [Read] also has the bytes that it stores. *)
Inductive sysE : Type -> Type :=
  | Fork : sysE Z
  | Exit : sysE Empty_set
  | Wait : sysE Z
  | PipeCall : sysE (option (Z * Z))
  | ReadCall (fd n : Z) : sysE (Z * list Z)
  | KillCall (pid : Z) : sysE Z
  | ExecCall (path : list Z) (argv : list (list Z)) : sysE Z
  | Fstat (fd : Z) : sysE (option ustat)
  | Chdir (path : list Z) : sysE Z
  | Dup (fd : Z) : sysE Z
  | OpenCall (path : list Z) (mode : Z) : sysE Z
  | WriteCall (fd : Z) (bytes : list Z) : sysE Z
  | Mknod (path : list Z) (major minor : Z) : sysE Z
  | Unlink (path : list Z) : sysE Z
  | Link (old new : list Z) : sysE Z
  | MkdirCall (path : list Z) : sysE Z
  | CloseCall (fd : Z) : sysE Z.

Definition prog (A : Type) : Type := itree sysE A.

#[global] Instance prog_ret : MRet prog := fun A a => Ret a.
#[global] Instance prog_bind : MBind prog := fun A B f m => ITree.bind m f.

Definition call {A} (e : sysE A) : prog A := ITree.trigger e.
Definition call_ {A} (e : sysE A) : prog unit := _ ← call e; mret tt.
Definition exit_ {A} : prog A := v ← call Exit; match v : Empty_set with end.

(** A [while] loop. *)
Definition loop {I R} (body : I -> prog (I + R)) : I -> prog R := ITree.iter body.

Fixpoint each {A} (l : list A) (body : A -> prog unit) : prog unit :=
  match l with [] => mret tt | x :: l => body x ;; each l body end.

(** ** [printf]: one [write] for each byte *)
Inductive parg := PStr (s : list Z) | PInt (z : Z).

Definition format (fmt : list Z) (args : list parg) : list Z :=
  default [] (printf
    (fun p => match args !! (Z.to_nat p - 1)%nat with Some (PStr s) => s | _ => [] end)
    (fun i => match args !! i with Some (PInt z) => z | Some (PStr _) => Z.of_nat (S i) | None => 0 end) fmt).

Definition ascii_of (s : string) : list Z := (fun a => Z.of_nat (Ascii.nat_of_ascii a)) <$> String.list_ascii_of_string s.
Definition line (s : string) : list Z := ascii_of s ++ [10].

Definition uprintf (fd : Z) (fmt : list Z) (args : list parg) : prog unit := each (format fmt args) (fun c => call_ (WriteCall fd [c])).

(** ** cat.c *)
Definition cat_round (fd : Z) (_ : unit) : prog (unit + Z) :=
  r ← call (ReadCall fd 512);
  let '(n, buf) := r in
  if 0 <? n then
    x ← call (WriteCall 1 (take (Z.to_nat n) buf));
    if negb (x =? n) then uprintf 1 (line "cat: write error") [] ;; exit_ else mret (inl tt)
  else mret (inr n).

Definition cat (fd : Z) : prog unit :=
  n ← loop (cat_round fd) tt;
  if n <? 0 then uprintf 1 (line "cat: read error") [] ;; exit_ else mret tt.

Definition cat_main (argv : list (list Z)) : prog Empty_set :=
  match tail argv with
  | [] => cat 0 ;; exit_
  | names =>
      each names (fun name =>
        fd ← call (OpenCall name 0);
        if fd <? 0 then uprintf 1 (line "cat: cannot open %s") [PStr name] ;; exit_
        else cat fd ;; call_ (CloseCall fd)) ;;
      exit_
  end.

(** ** grep.c

    The inner loop from [p] on; [cur] is the line read so far, and what it returns is what is left behind the last newline.
    [strchr] stops at a NUL. *)
Fixpoint grep_scan (pattern p cur : list Z) : prog (list Z) :=
  match p with
  | [] => mret cur
  | c :: p' =>
      if c =? 0 then mret (cur ++ p)
      else if c =? NL then
        (if match_ pattern cur then call_ (WriteCall 1 (cur ++ [NL])) else mret tt) ;;
        grep_scan pattern p' []
      else grep_scan pattern p' (cur ++ [c])
  end.

(** One turn of the loop; [m] is [buf[0..m)]. Without a newline in the buffer [p == buf], and what is there is dropped. *)
Definition grep_round (pattern : list Z) (fd : Z) (m : list Z) : prog (list Z + unit) :=
  r ← call (ReadCall fd (1024 - Z.of_nat (length m) - 1));
  let '(n, bs) := r in
  if 0 <? n then
    let buf := m ++ take (Z.to_nat n) bs in
    rest ← grep_scan pattern buf [];
    mret (inl (if (length rest =? length buf)%nat then [] else rest))
  else mret (inr tt).

Definition grep (pattern : list Z) (fd : Z) : prog unit := loop (grep_round pattern fd) [].

Definition grep_main (argv : list (list Z)) : prog Empty_set :=
  match tail argv with
  | [] => uprintf 2 (line "usage: grep pattern [file ...]") [] ;; exit_
  | [pattern] => grep pattern 0 ;; exit_
  | pattern :: names =>
      each names (fun name =>
        fd ← call (OpenCall name 0);
        if fd <? 0 then uprintf 1 (line "grep: cannot open %s") [PStr name] ;; exit_
        else grep pattern fd ;; call_ (CloseCall fd)) ;;
      exit_
  end.

(** ** echo.c *)
Fixpoint echo_loop (args : list (list Z)) : prog unit :=
  match args with
  | [] => mret tt
  | a :: rest => uprintf 1 (ascii_of "%s%s") [PStr a; PStr (match rest with [] => [10] | _ => [32] end)] ;; echo_loop rest
  end.
Definition echo_main (argv : list (list Z)) : prog Empty_set := echo_loop (tail argv) ;; exit_.

(** ** wc.c *)
Record counts := Counts { n_l : Z; n_w : Z; n_c : Z; inword : bool }.

Definition wc_char (s : counts) (b : Z) : counts :=
  let l := if b =? 10 then n_l s + 1 else n_l s in
  if bool_decide (b ∈ [32; 13; 9; 10; 11]) then Counts l (n_w s) (n_c s + 1) false
  else if negb (inword s) then Counts l (n_w s + 1) (n_c s + 1) true
  else Counts l (n_w s) (n_c s + 1) (inword s).

Definition wc_round (fd : Z) (s : counts) : prog (counts + (Z * counts)) :=
  r ← call (ReadCall fd 512);
  let '(n, buf) := r in
  if 0 <? n then mret (inl (foldl wc_char s (take (Z.to_nat n) buf))) else mret (inr (n, s)).

Definition wc (fd : Z) (name : list Z) : prog unit :=
  r ← loop (wc_round fd) (Counts 0 0 0 false);
  let '(n, s) := r in
  if n <? 0 then uprintf 1 (line "wc: read error") [] ;; exit_
  else uprintf 1 (line "%d %d %d %s") [PInt (n_l s); PInt (n_w s); PInt (n_c s); PStr name].

Definition wc_main (argv : list (list Z)) : prog Empty_set :=
  match tail argv with
  | [] => wc 0 [] ;; exit_
  | names =>
      each names (fun name =>
        fd ← call (OpenCall name 0);
        if fd <? 0 then uprintf 1 (line "wc: cannot open %s") [PStr name] ;; exit_
        else wc fd name ;; call_ (CloseCall fd)) ;;
      exit_
  end.

(** ** ln.c, rm.c, mkdir.c, kill.c *)
Definition ln_main (argv : list (list Z)) : prog Empty_set :=
  match argv with
  | [_; old; new] =>
      r ← call (Link old new);
      (if r <? 0 then uprintf 2 (line "link %s %s: failed") [PStr old; PStr new] else mret tt) ;; exit_
  | _ => uprintf 2 (line "Usage: ln old new") [] ;; exit_
  end.

(** The loop of rm and of mkdir, which a failure leaves. *)
Fixpoint until_failure (names : list (list Z)) (f : list Z -> sysE Z) (msg : list Z) : prog unit :=
  match names with
  | [] => mret tt
  | name :: names =>
      r ← call (f name);
      if r <? 0 then uprintf 2 msg [PStr name] else until_failure names f msg
  end.

Definition rm_main (argv : list (list Z)) : prog Empty_set :=
  if (length argv <? 2)%nat then uprintf 2 (line "Usage: rm files...") [] ;; exit_
  else until_failure (tail argv) Unlink (line "rm: %s failed to delete") ;; exit_.

Definition mkdir_main (argv : list (list Z)) : prog Empty_set :=
  if (length argv <? 2)%nat then uprintf 2 (line "Usage: mkdir files...") [] ;; exit_
  else until_failure (tail argv) MkdirCall (line "mkdir: %s failed to create") ;; exit_.

Definition kill_main (argv : list (list Z)) : prog Empty_set :=
  if (length argv <? 2)%nat then uprintf 2 (line "usage: kill pid...") [] ;; exit_
  else each (tail argv) (fun a => call_ (KillCall (default 0 (atoi (a ++ [0]))))) ;; exit_.

(** ** [stat] of ulib.c, and ls.c *)
Definition stat (n : list Z) : prog (option ustat) :=
  fd ← call (OpenCall n 0);
  if fd <? 0 then mret None
  else r ← call (Fstat fd); call_ (CloseCall fd) ;; mret r.

(** The characters after the last slash. *)
Fixpoint basename (p acc : list Z) : list Z :=
  match p with [] => acc | c :: p => if c =? 47 then basename p [] else basename p (acc ++ [c]) end.

Definition fmtname (path : list Z) : list Z :=
  let p := basename path [] in
  if (14 <=? length p)%nat then p else p ++ replicate (14 - length p) 32.

(** A string in a buffer ends at its first zero. *)
Fixpoint cut (l : list Z) : list Z := match l with [] => [] | c :: l => if c =? 0 then [] else c :: cut l end.

Definition ls_line (path : list Z) (st : ustat) : prog unit :=
  uprintf 1 (line "%s %d %d %d") [PStr (fmtname path); PInt (st_type st); PInt (st_ino st); PInt (st_size st)].

Definition ls_dir (fd : Z) (path : list Z) : prog unit :=
  loop (fun _ : unit =>
    r ← call (ReadCall fd 16);
    let '(n, de) := r in
    if negb (n =? 16) then mret (inr tt)
    else if get_le 2 0 de =? 0 then mret (inl tt)
    else
      let buf := path ++ [47] ++ cut (slice 2 14 de) in
      st ← stat buf;
      match st with
      | None => uprintf 1 (line "ls: cannot stat %s") [PStr buf] ;; mret (inl tt)
      | Some st => ls_line buf st ;; mret (inl tt)
      end) tt.

Definition ls (path : list Z) : prog unit :=
  fd ← call (OpenCall path 0);
  if fd <? 0 then uprintf 2 (line "ls: cannot open %s") [PStr path]
  else
    st ← call (Fstat fd);
    match st with
    | None => uprintf 2 (line "ls: cannot stat %s") [PStr path] ;; call_ (CloseCall fd)
    | Some st =>
        (if st_type st =? 2 then ls_line path st
         else if st_type st =? 1 then
           if (512 <? length path + 1 + 14 + 1)%nat then uprintf 1 (line "ls: path too long") []
           else ls_dir fd path
         else mret tt) ;;
        call_ (CloseCall fd)
    end.

Definition ls_main (argv : list (list Z)) : prog Empty_set :=
  if (length argv <? 2)%nat then ls [46] ;; exit_ else each (tail argv) ls ;; exit_.

(** ** init.c *)
Definition init_main : prog Empty_set :=
  fd ← call (OpenCall (ascii_of "console") 2);
  (if fd <? 0 then call_ (Mknod (ascii_of "console") 1 1) ;; call_ (OpenCall (ascii_of "console") 2) else mret tt) ;;
  call_ (Dup 0) ;;
  call_ (Dup 0) ;;
  loop (fun _ : unit =>
    uprintf 1 (line "init: starting sh") [] ;;
    pid ← call Fork;
    if pid <? 0 then uprintf 1 (line "init: fork failed") [] ;; exit_
    else if pid =? 0 then
      call_ (ExecCall (ascii_of "sh") [ascii_of "sh"]) ;;
      uprintf 1 (line "init: exec sh failed") [] ;; exit_
    else
      loop (fun _ : unit =>
        wpid ← call Wait;
        if (0 <=? wpid) && negb (wpid =? pid) then uprintf 1 (line "zombie!") [] ;; mret (inl tt)
        else mret (inr tt)) tt ;;
      mret (inl tt)) tt.
