(* ===== verification/ProgSpec.v ===== *)
(** What cat, wc and echo do: their system calls are answered by a small world of files, in which a read may return fewer bytes than
    asked for, and every run ends in [exit] with the output that the program should have. *)

From Stdlib Require Import Eqdep.
From ITree Require Import ITree ITreeFacts Events.State Events.StateFacts.
From S2P Require Import Prelude Bytes Ulib Printf Prog.

(** ** The world

    The files by their names, the bytes left to read behind each descriptor, what has been written to descriptors 1 and 2, and for every read
    that is made the number of bytes it would return at most. *)
Record world := World {
  w_files : gmap (list Z) (list Z);
  w_fds : gmap Z (list Z);
  w_out : list Z;
  w_err : list Z;
  w_short : nat -> nat;
  w_reads : nat;
}.

Definition with_fds (f : gmap Z (list Z)) (w : world) : world := World (w_files w) f (w_out w) (w_err w) (w_short w) (w_reads w).
Definition with_out (o : list Z) (w : world) : world := World (w_files w) (w_fds w) o (w_err w) (w_short w) (w_reads w).

(** The lowest descriptor that is not in use. *)
Fixpoint lowest (n : nat) (k : Z) (fds : gmap Z (list Z)) : Z :=
  match n with O => k | S n => match fds !! k with None => k | Some _ => lowest n (k + 1) fds end end.
Definition fresh_fd (fds : gmap Z (list Z)) : Z := lowest (size fds) 0 fds.

(** A read of at most [n] bytes from the bytes [rest]: at least one of them if there is one. *)
Definition chunk (n : Z) (rest : list Z) (w : world) : list Z := take (Z.to_nat n `min` S (w_short w (w_reads w))) rest.

Variant exitE : Type -> Type := Exited (w : world) : exitE Empty_set.

Definition handle : forall A, sysE A -> Monads.stateT world (itree exitE) A := fun A e w =>
  match e in sysE A return itree exitE (world * A) with
  | Exit => ITree.bind (ITree.trigger (Exited w)) (fun v => match v : Empty_set with end)
  | ReadCall fd n =>
      match w_fds w !! fd with
      | Some rest =>
          let bs := chunk n rest w in
          Ret (World (w_files w) (<[fd := drop (length bs) rest]> (w_fds w)) (w_out w) (w_err w) (w_short w) (S (w_reads w)), (Z.of_nat (length bs), bs))
      | None => Ret (w, (-1, []))
      end
  | WriteCall fd bs =>
      if fd =? 1 then Ret (with_out (w_out w ++ bs) w, Z.of_nat (length bs))
      else if fd =? 2 then Ret (World (w_files w) (w_fds w) (w_out w) (w_err w ++ bs) (w_short w) (w_reads w), Z.of_nat (length bs))
      else Ret (w, -1)
  | OpenCall path mode =>
      match w_files w !! path with
      | Some c => if mode =? 0 then Ret (with_fds (<[fresh_fd (w_fds w) := c]> (w_fds w)) w, fresh_fd (w_fds w)) else Ret (w, -1)
      | None => Ret (w, -1)
      end
  | CloseCall fd => match w_fds w !! fd with Some _ => Ret (with_fds (delete fd (w_fds w)) w, 0) | None => Ret (w, -1) end
  | Fork => Ret (w, -1) | Wait => Ret (w, -1) | PipeCall => Ret (w, None) | KillCall _ => Ret (w, -1) | ExecCall _ _ => Ret (w, -1)
  | Fstat _ => Ret (w, None) | Chdir _ => Ret (w, -1) | Dup _ => Ret (w, -1) | Mknod _ _ _ => Ret (w, -1) | Unlink _ => Ret (w, -1)
  | Link _ _ => Ret (w, -1) | MkdirCall _ => Ret (w, -1)
  end.

(** ** Runs: a program comes to an end with a value, or it exits *)
Inductive result (A : Type) := Done (a : A) (w : world) | Gone (w : world).
Arguments Done {A}.
Arguments Gone {A}.

Definition ending {A} (r : result A) : itree exitE (world * A) :=
  match r with
  | Done a w => Ret (w, a)
  | Gone w => ITree.bind (ITree.trigger (Exited w)) (fun v => match v : Empty_set with end)
  end.

Definition runs {A} (t : prog A) (w : world) (r : result A) : Prop := interp_state handle t w ≈ ending r.

(** A program has at most one ending. *)
Lemma ending_inj {A} (r r' : result A) : ending r ≈ ending r' -> r = r'.
Proof.
  destruct r as [a w|w], r' as [a' w'|w']; cbn [ending]; intros He.
  - apply eutt_inv_Ret in He. congruence.
  - symmetry in He. by apply eqit_inv_bind_ret in He as ([] & _).
  - by apply eqit_inv_bind_ret in He as ([] & _).
  - rewrite !bind_trigger in He. apply eqit_inv_Vis_weak in He as (p & He & _). rewrite (UIP_refl _ _ p) in He. cbn in He. by injection He as ->.
Qed.

Lemma runs_functional {A} (t : prog A) w r r' : runs t w r -> runs t w r' -> r = r'.
Proof. unfold runs. intros H1 H2. apply ending_inj. by rewrite <- H1. Qed.

Lemma runs_ret {A} (a : A) w : runs (mret a) w (Done a w).
Proof. unfold runs. setoid_rewrite interp_state_ret. reflexivity. Qed.

Lemma runs_bind {A B} (t : prog A) (k : A -> prog B) w a w1 r : runs t w (Done a w1) -> runs (k a) w1 r -> runs (t ≫= k) w r.
Proof.
  unfold runs. intros Ht Hk. unfold mbind, prog_bind. rewrite interp_state_bind, Ht. cbn [ending]. rewrite bind_ret_l. exact Hk.
Qed.

Lemma runs_bind_gone {A B} (t : prog A) (k : A -> prog B) w w1 : runs t w (Gone w1) -> runs (t ≫= k) w (Gone w1).
Proof.
  unfold runs. intros Ht. unfold mbind, prog_bind. rewrite interp_state_bind, Ht. cbn [ending]. rewrite bind_bind.
  apply eutt_clo_bind with (UU := eq); [reflexivity|]. intros [].
Qed.

Lemma runs_call {A} (e : sysE A) w a w1 : handle A e w = Ret (w1, a) -> runs (call e) w (Done a w1).
Proof. unfold runs, call. intros He. rewrite interp_state_trigger, He. reflexivity. Qed.

Lemma runs_call_ {A} (e : sysE A) w a w1 : handle A e w = Ret (w1, a) -> runs (call_ e) w (Done tt w1).
Proof. intros He. eapply runs_bind; [by apply runs_call|apply runs_ret]. Qed.

Lemma runs_exit {A} w : runs (exit_ (A := A)) w (Gone w).
Proof.
  unfold runs, exit_, call, mbind, prog_bind. rewrite interp_state_bind, interp_state_trigger. cbn [handle ending]. rewrite bind_bind.
  apply eutt_clo_bind with (UU := eq); [reflexivity|]. intros [].
Qed.

Lemma runs_loop {I R} (body : I -> prog (I + R)) i w j w1 r : runs (body i) w (Done (inl j) w1) -> runs (loop body j) w1 r -> runs (loop body i) w r.
Proof.
  unfold runs, loop. intros Hb Hl. rewrite unfold_iter, interp_state_bind, Hb. cbn [ending]. rewrite bind_ret_l. cbn. rewrite interp_state_tau, tau_eutt. exact Hl.
Qed.

Lemma runs_loop_end {I R} (body : I -> prog (I + R)) i w x w1 : runs (body i) w (Done (inr x) w1) -> runs (loop body i) w (Done x w1).
Proof.
  unfold runs, loop. intros Hb. rewrite unfold_iter, interp_state_bind, Hb. cbn [ending]. rewrite bind_ret_l. cbn. rewrite interp_state_ret. reflexivity.
Qed.

(** ** Descriptors *)
Lemma lowest_spec fds n : forall k, fds !! lowest n k fds = None \/ (forall i, 0 <= i <= Z.of_nat n -> is_Some (fds !! (k + i))).
Proof.
  induction n as [|n IH]; intros k; cbn [lowest]; destruct (fds !! k) as [x|] eqn:Hk.
  - right. intros i Hi. replace (k + i) with k by lia. by rewrite Hk.
  - by left.
  - destruct (IH (k + 1)) as [Hl|Hl]; [by left|right]. intros i Hi. destruct (decide (i = 0)) as [->|]; [by rewrite Z.add_0_r, Hk|].
    replace (k + i) with (k + 1 + (i - 1)) by lia. apply Hl. lia.
  - by left.
Qed.

Lemma lowest_ge fds n : forall k, k <= lowest n k fds.
Proof. induction n as [|n IH]; intros k; cbn [lowest]; [lia|]. destruct (fds !! k); [|lia]. specialize (IH (k + 1)). lia. Qed.

Lemma fresh_free fds : fds !! fresh_fd fds = None /\ 0 <= fresh_fd fds.
Proof.
  split; [|apply lowest_ge]. destruct (lowest_spec fds (size fds) 0) as [Hf|Hall]; [done|]. exfalso.
  assert (list_to_set (seqZ 0 (Z.of_nat (S (size fds)))) ⊆ dom fds) as Hsub.
  { intros i Hi. apply elem_of_list_to_set, elem_of_seqZ in Hi. apply elem_of_dom, (Hall i). lia. }
  apply subseteq_size in Hsub. rewrite size_list_to_set, length_seqZ, size_dom in Hsub by apply NoDup_seqZ. lia.
Qed.

(** ** Output *)
Lemma runs_write fd c w : fd = 1 -> runs (call_ (WriteCall fd [c])) w (Done tt (with_out (w_out w ++ [c]) w)).
Proof. intros ->. eapply runs_call_. done. Qed.

Lemma runs_bytes l : forall w, runs (each l (fun c => call_ (WriteCall 1 [c]))) w (Done tt (with_out (w_out w ++ l) w)).
Proof.
  induction l as [|c l IH]; intros w; cbn [each].
  - rewrite app_nil_r. destruct w. apply runs_ret.
  - eapply runs_bind; [by apply runs_write|]. specialize (IH (with_out (w_out w ++ [c]) w)). cbn [with_out w_out] in IH. by rewrite <- app_assoc in IH.
Qed.

Lemma runs_printf fmt args w : runs (uprintf 1 fmt args) w (Done tt (with_out (w_out w ++ format fmt args) w)).
Proof. apply runs_bytes. Qed.

Lemma format_2s a b : format (ascii_of "%s%s") [PStr a; PStr b] = a ++ b.
Proof. unfold format, printf. cbn. by rewrite app_nil_r. Qed.

(** ** Reading a file to its end

    What a read leaves: the bytes that it returned are gone, the rest of the world is as before. *)
Record same (w w' : world) : Prop := {
  sm_files : w_files w' = w_files w;
  sm_err : w_err w' = w_err w;
  sm_short : w_short w' = w_short w;
}.

Lemma same_refl w : same w w.
Proof. done. Qed.
Lemma same_trans w1 w2 w3 : same w1 w2 -> same w2 w3 -> same w1 w3.
Proof. intros [? ? ?] [? ? ?]. split; congruence. Qed.
#[local] Hint Resolve same_refl : core.

Lemma runs_read fd rest w : w_fds w !! fd = Some rest -> exists w' bs,
  runs (call (ReadCall fd 512)) w (Done (Z.of_nat (length bs), bs) w') /\ rest = bs ++ drop (length bs) rest /\ (rest <> [] -> bs <> []) /\
  w_fds w' = <[fd := drop (length bs) rest]> (w_fds w) /\ w_out w' = w_out w /\ same w w'.
Proof.
  intros Hfd. eexists _, (chunk 512 rest w). split; [eapply runs_call; cbn [handle]; rewrite Hfd; reflexivity|]. split.
  - unfold chunk at 1. set (k := (_ `min` _)%nat). assert (length (chunk 512 rest w) = k `min` length rest)%nat as -> by (unfold chunk; apply length_take).
    destruct (Nat.min_spec k (length rest)) as [[_ ->]|[Hle ->]]; [by rewrite take_drop|]. rewrite take_ge, drop_ge, app_nil_r by lia. done.
  - split; [|done]. unfold chunk. destruct rest; [done|]. change (Z.to_nat 512) with (S 511). by rewrite <- Nat.succ_min_distr.
Qed.

(** A loop that reads until there is nothing left, goes on with [step] for each byte, and writes [outp] of the bytes. *)
Section ReadLoop.
Context {St R : Type} (fd : Z) (body : St -> prog (St + R)) (step : St -> Z -> St) (fin : St -> R) (outp : list Z -> list Z).
Context (Hnil : outp [] = []) (Happ : forall a b, outp (a ++ b) = outp a ++ outp b).
Context (Hbody : forall s w rest, w_fds w !! fd = Some rest -> exists w' bs,
  runs (body s) w (Done (match bs with [] => inr (fin s) | _ => inl (foldl step s bs) end) w') /\ rest = bs ++ drop (length bs) rest /\ (rest <> [] -> bs <> []) /\
  w_fds w' = <[fd := drop (length bs) rest]> (w_fds w) /\ w_out w' = w_out w ++ outp bs /\ same w w').

Lemma runs_read_loop n : forall rest s w, (length rest < n)%nat -> w_fds w !! fd = Some rest -> exists w',
  runs (loop body s) w (Done (fin (foldl step s rest)) w') /\ w_out w' = w_out w ++ outp rest /\ w_fds w' = <[fd := []]> (w_fds w) /\ same w w'.
Proof.
  induction n as [|n IH]; intros rest s w Hn Hfd; [lia|]. destruct (Hbody s w rest Hfd) as (w1 & bs & Hr & Hbs & Hne & Hf1 & Ho1 & Hs1).
  destruct bs as [|b bs].
  - destruct rest as [|c rest]; [|by destruct Hne]. exists w1. rewrite Hnil, app_nil_r in *. cbn [length drop] in Hf1. split; [by apply runs_loop_end|done].
  - set (rest' := drop (length (b :: bs)) rest) in *. assert (length rest = length (b :: bs) + length rest')%nat as Hl by (rewrite Hbs at 1; by rewrite length_app).
    destruct (IH rest' (foldl step s (b :: bs)) w1) as (w2 & Hr2 & Ho2 & Hf2 & Hs2); [cbn [length] in Hl; lia|rewrite Hf1; apply lookup_insert_eq|].
    exists w2. split; [|split; [|split; [|by eapply same_trans]]].
    + rewrite Hbs, foldl_app. by eapply runs_loop.
    + by rewrite Ho2, Ho1, <- app_assoc, <- Happ, <- Hbs.
    + by rewrite Hf2, Hf1, insert_insert_eq.
Qed.
End ReadLoop.

Lemma cat_copies rest fd w : w_fds w !! fd = Some rest -> exists w',
  runs (cat fd) w (Done tt w') /\ w_out w' = w_out w ++ rest /\ w_fds w' = <[fd := []]> (w_fds w) /\ same w w'.
Proof.
  intros Hfd. unfold cat.
  destruct (runs_read_loop fd (cat_round fd) (fun s _ => s) (fun _ => 0) id eq_refl ltac:(done)) with (n := S (length rest)) (rest := rest) (s := tt) (w := w)
    as (w' & Hr & Hw'); [|lia|done|exists w'; split; [eapply runs_bind; [exact Hr|apply runs_ret]|exact Hw']].
  intros [] w1 rest1 H1. destruct (runs_read fd rest1 w1 H1) as (w2 & bs & Hr & Hbs & Hne & Hf & Ho & Hs).
  exists (with_out (w_out w1 ++ bs) w2), bs. split; [|rewrite <- Ho in *; by destruct Hs].
  eapply runs_bind; [exact Hr|]. destruct bs as [|b bs].
  - rewrite (proj2 (Z.ltb_ge _ _)) by done. rewrite app_nil_r, <- Ho. destruct w2. apply runs_ret.
  - rewrite (proj2 (Z.ltb_lt _ _)) by (cbn; lia). rewrite Nat2Z.id, take_ge by done. eapply runs_bind; [by eapply runs_call|].
    rewrite Z.eqb_refl. cbn [negb]. rewrite Ho.
    match goal with |- runs _ _ (Done (inl ?x) _) => destruct x end. apply runs_ret.
Qed.

Lemma wc_counted rest fd name w : w_fds w !! fd = Some rest -> exists w',
  runs (wc fd name) w (Done tt w') /\ w_fds w' = <[fd := []]> (w_fds w) /\ same w w' /\
  let s := foldl wc_char (Counts 0 0 0 false) rest in
  w_out w' = w_out w ++ format (line "%d %d %d %s") [PInt (n_l s); PInt (n_w s); PInt (n_c s); PStr name].
Proof.
  intros Hfd. unfold wc.
  destruct (runs_read_loop fd (wc_round fd) wc_char (fun s => (0, s)) (fun _ => []) eq_refl ltac:(done)) with (n := S (length rest)) (rest := rest) (s := Counts 0 0 0 false) (w := w)
    as (w' & Hr & Ho & Hf & Hs); [|lia|done|].
  - intros s w1 rest1 H1. destruct (runs_read fd rest1 w1 H1) as (w2 & bs & Hr & Hbs & Hne & Hf & Ho & Hs).
    exists w2, bs. split; [|rewrite app_nil_r; done]. eapply runs_bind; [exact Hr|]. destruct bs as [|b bs]; [apply runs_ret|].
    rewrite (proj2 (Z.ltb_lt _ _)) by (cbn; lia). rewrite Nat2Z.id, take_ge by done. apply runs_ret.
  - eexists. split; [eapply runs_bind; [exact Hr|apply runs_printf]|]. rewrite app_nil_r in Ho. cbn [with_out w_fds w_out]. rewrite Ho. by destruct Hs.
Qed.

(** ** Programs *)

(** The files named on the command line, one after the other: [f] of the name and the contents is what the program writes for each. *)
Lemma runs_each (act : Z -> list Z -> prog unit) (err : list Z) (f : list Z -> list Z -> list Z) (Q : (nat -> nat) -> list Z -> Prop) :
  (forall fd name rest w, w_fds w !! fd = Some rest -> Q (w_short w) rest -> exists w',
     runs (act fd name) w (Done tt w') /\ w_out w' = w_out w ++ f name rest /\ w_fds w' = <[fd := []]> (w_fds w) /\ same w w') ->
  forall names cs w, Forall2 (fun name c => w_files w !! name = Some c) names cs -> Forall (Q (w_short w)) cs -> exists w',
    runs (each names (fun name => fd ← call (OpenCall name 0); if fd <? 0 then uprintf 1 err [PStr name] ;; exit_ else act fd name ;; call_ (CloseCall fd))) w (Done tt w') /\
    w_out w' = w_out w ++ mjoin (zip_with f names cs) /\ w_fds w' = w_fds w /\ same w w'.
Proof.
  intros Hact names cs w Hc. remember (w_files w) as fs eqn:Hfs. revert w Hfs.
  induction Hc as [|name c names cs Hn Hc IH]; intros w -> HQ; cbn [each zip_with mjoin list_join]; [|apply Forall_cons in HQ as [HQ HQs]].
  - exists w. rewrite app_nil_r. split; [apply runs_ret|done].
  - destruct (fresh_free (w_fds w)) as [Hfree Hge]. set (fd := fresh_fd (w_fds w)) in *.
    destruct (Hact fd name c (with_fds (<[fd := c]> (w_fds w)) w)) as (w1 & Hr1 & Ho1 & Hf1 & Hs1); [apply lookup_insert_eq|done|].
    cbn [with_fds w_fds w_out] in Ho1, Hf1. rewrite insert_insert_eq in Hf1.
    destruct (IH (with_fds (w_fds w) w1)) as (w2 & Hr2 & Ho2 & Hf2 & Hs2); [by destruct Hs1| |].
    { destruct Hs1 as [_ _ Hsh]. cbn [with_fds w_short] in *. by rewrite Hsh. }
    exists w2. split; [|split; [cbn [with_fds w_out] in Ho2; by rewrite Ho2, Ho1, <- app_assoc|]; split; [done|eapply same_trans; [|exact Hs2]; by destruct Hs1]].
    eapply runs_bind; [|exact Hr2]. eapply runs_bind; [apply runs_call; cbn [handle]; by rewrite Hn|]. fold fd. rewrite (proj2 (Z.ltb_ge fd 0)) by lia.
    eapply runs_bind; [exact Hr1|]. replace (w_fds w) with (delete fd (w_fds w1)) by (rewrite Hf1; by apply delete_insert_id).
    eapply runs_call_. cbn [handle]. by rewrite Hf1, lookup_insert_eq.
Qed.

(** cat writes the files named on its command line, in order and byte by byte, and exits, whatever number of bytes the reads return; it leaves no descriptor
    open. Without arguments it copies its standard input. *)
Theorem cat_prints names cs w prog_name :
  Forall2 (fun name c => w_files w !! name = Some c) names cs -> (names = [] -> is_Some (w_fds w !! 0)) -> exists w',
    runs (cat_main (prog_name :: names)) w (Gone w') /\ same w w' /\
    w_out w' = w_out w ++ match names with [] => default [] (w_fds w !! 0) | _ => mjoin cs end /\ (names <> [] -> w_fds w' = w_fds w).
Proof.
  intros Hc H0. destruct names as [|name names].
  - destruct (H0 eq_refl) as [rest Hrest]. destruct (cat_copies rest 0 w Hrest) as (w' & Hr & Ho & Hf & Hs). exists w'. rewrite Hrest.
    split; [|done]. eapply runs_bind; [exact Hr|apply runs_exit].
  - destruct (runs_each (fun fd _ => cat fd) (line "cat: cannot open %s") (fun _ c => c) (fun _ _ => True)) with (names := name :: names) (cs := cs) (w := w) as (w' & Hr & Ho & Hf & Hs); [|done|by apply Forall_true|].
    { intros fd n rest w1 H1 _. by apply cat_copies. }
    exists w'. split; [eapply runs_bind; [exact Hr|apply runs_exit]|]. split; [done|]. split; [|done]. rewrite Ho. do 2 f_equal.
    clear -Hc. remember (name :: names) as l eqn:Hl. clear Hl. induction Hc as [|? ? ? ? ? ? IH]; [done|]. cbn. by rewrite IH.
Qed.

Definition world_ex : world := World {[ [97] := [1; 2; 3; 4; 5]; [98] := [6; 7] ]} ∅ [] [] (fun n => n) 0.

(** Two files, with reads of one, two and three bytes. *)
Lemma cat_prints_witness : exists w', runs (cat_main [[99; 97; 116]; [97]; [98]]) world_ex (Gone w') /\ w_out w' = [1; 2; 3; 4; 5; 6; 7].
Proof.
  destruct (cat_prints [[97]; [98]] [[1; 2; 3; 4; 5]; [6; 7]] world_ex [99; 97; 116]) as (w' & Hr & _ & Ho & _); [|done|by exists w'].
  repeat constructor; done.
Defined.

(** *** wc *)
Definition white (b : Z) : Prop := b ∈ [32; 13; 9; 10; 11].
Definition lines (c : list Z) : nat := length (filter (fun b => b = 10) c).
(** A word starts at a character that is not white after one that is, or at the beginning. *)
Definition words (c : list Z) : nat := length (filter (fun p : Z * Z => white p.1 /\ ~ white p.2) (zip (32 :: c) c)).

Lemma wc_char_step s b prev : inword s = negb (bool_decide (white prev)) ->
  n_l (wc_char s b) = n_l s + (if decide (b = 10) then 1 else 0) /\
  n_w (wc_char s b) = n_w s + (if decide (white prev /\ ~ white b) then 1 else 0) /\
  n_c (wc_char s b) = n_c s + 1 /\ inword (wc_char s b) = negb (bool_decide (white b)).
Proof.
  intros Hs. unfold wc_char. change (b ∈ [32; 13; 9; 10; 11]) with (white b). rewrite Hs.
  assert ((if b =? 10 then n_l s + 1 else n_l s) = n_l s + (if decide (b = 10) then 1 else 0)) as ->
    by (destruct (Z.eqb_spec b 10), (decide (b = 10)); (done || lia)).
  destruct (decide (white prev /\ ~ white b)) as [[Hp Hb]|Hd].
  - rewrite (bool_decide_false (white b)), (bool_decide_true (white prev)) by done. done.
  - destruct (decide (white b)) as [Hb|Hb]; [rewrite (bool_decide_true (white b)) by done; cbn; lia|].
    rewrite (bool_decide_false (white b)), (bool_decide_false (white prev)) by tauto. cbn. lia.
Qed.

Lemma wc_char_spec c : forall prev s, inword s = negb (bool_decide (white prev)) ->
  let s' := foldl wc_char s c in
  n_l s' = n_l s + Z.of_nat (lines c) /\ n_w s' = n_w s + Z.of_nat (length (filter (fun p : Z * Z => white p.1 /\ ~ white p.2) (zip (prev :: c) c))) /\
  n_c s' = n_c s + Z.of_nat (length c).
Proof.
  induction c as [|b c IH]; intros prev s Hs; cbn zeta; [cbn; lia|].
  cbn [foldl]. change (zip (prev :: b :: c) (b :: c)) with ((prev, b) :: zip (b :: c) c). rewrite filter_cons. unfold lines. rewrite filter_cons. cbn [fst snd].
  destruct (wc_char_step s b prev Hs) as (Hl1 & Hw1 & Hn1 & Hs1). destruct (IH b (wc_char s b) Hs1) as (Hl & Hw & Hn).
  rewrite Hl, Hw, Hn, Hl1, Hw1, Hn1. unfold lines. destruct (decide (b = 10)), (decide (white prev /\ ~ white b)); cbn [length]; lia.
Qed.

(** wc counts. For the files named on its command line it writes, for each, the number of newlines, of words and of bytes and the name; a word is
    a maximal run of characters other than the five white ones, also if the reads split it. *)
Theorem wc_prints names cs w prog_name :
  names <> [] -> Forall2 (fun name c => w_files w !! name = Some c) names cs -> exists w',
    runs (wc_main (prog_name :: names)) w (Gone w') /\ same w w' /\ w_fds w' = w_fds w /\
    w_out w' = w_out w ++ mjoin (zip_with (fun name c =>
      format (line "%d %d %d %s") [PInt (Z.of_nat (lines c)); PInt (Z.of_nat (words c)); PInt (Z.of_nat (length c)); PStr name]) names cs).
Proof.
  intros Hne Hc. destruct names as [|name names]; [done|]. unfold wc_main. cbn [tail].
  destruct (runs_each wc (line "wc: cannot open %s") (fun name c =>
    format (line "%d %d %d %s") [PInt (Z.of_nat (lines c)); PInt (Z.of_nat (words c)); PInt (Z.of_nat (length c)); PStr name]) (fun _ _ => True))
    with (names := name :: names) (cs := cs) (w := w) as (w' & Hr & Ho & Hf & Hs); [|done|by apply Forall_true|].
  - intros fd n rest w1 H1 _. destruct (wc_counted rest fd n w1 H1) as (w2 & Hr & Hf & Hs & Ho). exists w2. split; [done|]. split; [|done].
    destruct (wc_char_spec rest 32 (Counts 0 0 0 false)) as (Hl & Hw & Hn); [done|]. cbn zeta in Ho. by rewrite Hl, Hw, Hn in Ho.
  - exists w'. split; [eapply runs_bind; [exact Hr|apply runs_exit]|done].
Qed.

(** [ab c] and a newline, read in pieces: one line, two words, five characters. *)
Lemma wc_prints_witness : exists w',
  runs (wc_main [[119; 99]; [97]]) (World {[ [97] := [97; 98; 32; 99; 10] ]} ∅ [] [] (fun n => n) 0) (Gone w') /\ w_out w' = ascii_of "1 2 5 a" ++ [10].
Proof.
  destruct (wc_prints [[97]] [[97; 98; 32; 99; 10]] (World {[ [97] := [97; 98; 32; 99; 10] ]} ∅ [] [] (fun n => n) 0) [119; 99]) as (w' & Hr & _ & _ & Ho);
    [done|by repeat constructor|]. exists w'. split; [exact Hr|]. rewrite Ho. by vm_compute.
Defined.

(** *** echo *)
Fixpoint joined (args : list (list Z)) : list Z :=
  match args with [] => [] | a :: rest => a ++ match rest with [] => [10] | _ => 32 :: joined rest end end.

(** echo writes its arguments with blanks between them and a newline, and exits. *)
Theorem echo_prints args w prog_name : runs (echo_main (prog_name :: args)) w (Gone (with_out (w_out w ++ joined args) w)).
Proof.
  unfold echo_main. cbn [tail]. eapply runs_bind; [|apply runs_exit]. revert w. induction args as [|a rest IH]; intros w; cbn [echo_loop joined].
  - rewrite app_nil_r. destruct w. apply runs_ret.
  - eapply runs_bind; [apply runs_printf|]. rewrite format_2s. destruct rest as [|b rest].
    + apply runs_ret.
    + specialize (IH (with_out (w_out w ++ a ++ [32]) w)). cbn [with_out w_out] in IH. rewrite <- !app_assoc in IH. exact IH.
Qed.
