(* ===== verification/GrepSpec.v ===== *)
(** What grep prints: the lines that match of the files named on its command line, if the lines fit into the buffer and the reads
    return as much as they can; a read that ends in the middle of a line may lose it. *)

From S2P Require Import Prelude Bytes Printf Grep Prog ProgSpec.

(** ** Texts *)
Lemma join_cons {A} (x : list A) l : mjoin (x :: l) = x ++ mjoin l.
Proof. done. Qed.

Definition text (ls : list (list Z)) : list Z := mjoin ((fun l : list Z => l ++ [NL]) <$> ls).

Lemma text_cons l ls : text (l :: ls) = l ++ NL :: text ls.
Proof. unfold text. cbn. by rewrite <- app_assoc. Qed.

Lemma text_app a b : text (a ++ b) = text a ++ text b.
Proof. unfold text. by rewrite fmap_app, join_app. Qed.

(** What has been read of a text: some of its lines and the beginning of another one. *)
Lemma text_split ls tl : forall buf x, NL ∉ tl -> Forall (fun l => NL ∉ l) ls -> buf ++ x = text ls ++ tl ->
  exists ls1 ls2 r, ls = ls1 ++ ls2 /\ buf = text ls1 ++ r /\ NL ∉ r /\ r ++ x = text ls2 ++ tl.
Proof.
  induction ls as [|l ls IH]; intros buf x Ht Hls He.
  - exists [], [], buf. cbn in He. split_and!; [done..| |done]. intros Hin. apply Ht. rewrite <- He. set_solver.
  - apply Forall_cons in Hls as [Hl Hls]. rewrite text_cons, <- app_assoc in He. destruct (decide (length buf <= length l)%nat) as [Hle|Hgt].
    + exists [], (l :: ls), buf. rewrite text_cons, <- app_assoc. split_and!; [done..| |done]. intros Hin. apply Hl.
      apply (f_equal (take (length buf))) in He. rewrite take_app_length, take_app_le in He by lia. rewrite He in Hin. 
      rewrite <- (take_drop (length buf) l). set_solver.
    + change (NL :: text ls) with ([NL] ++ text ls) in He. rewrite <- app_assoc, (app_assoc l) in He.
      pose proof He as Hb. apply (f_equal (take (length (l ++ [NL])))) in Hb. rewrite take_app_length in Hb.
      rewrite take_app_le in Hb by (rewrite length_app; cbn; lia).
      rewrite <- (take_drop (length (l ++ [NL])) buf), Hb in He |- *. rewrite <- !app_assoc in He. do 2 apply app_inv_head in He.
      destruct (IH _ _ Ht Hls He) as (ls1 & ls2 & r & -> & -> & Hr & Hx). exists (l :: ls1), ls2, r. rewrite text_cons, <- !app_assoc. done.
Qed.

Lemma text_nul ls tl : Forall (fun l => 0 ∉ l) ls -> 0 ∉ tl -> 0 ∉ text ls ++ tl.
Proof.
  induction 1 as [|l ls Hl Hls IH]; intros Ht; [done|]. specialize (IH Ht). rewrite elem_of_app in IH. rewrite text_cons, !elem_of_app, elem_of_cons.
  intros [[?|[?|?]]|?]; [done|done|by apply IH; left|done].
Qed.

(** The beginning of a line is shorter than the line, and there is more to read. *)
Lemma text_first (r x l : list Z) ls tl : r ++ x = text (l :: ls) ++ tl -> NL ∉ r -> (length r <= length l)%nat /\ x <> [].
Proof.
  rewrite text_cons, <- app_assoc. intros Hx Hr. split.
  - destruct (decide (length r <= length l)%nat) as [|Hgt]; [done|]. destruct Hr. apply (f_equal (lookup (length l))) in Hx.
    rewrite lookup_app_l in Hx by lia. rewrite <- app_comm_cons, list_lookup_middle in Hx by done. by eapply list_elem_of_lookup_2.
  - intros ->. apply Hr. rewrite app_nil_r in Hx. rewrite Hx. set_solver.
Qed.

(** ** Runs *)
Definition printed_all (pattern : list Z) (ls : list (list Z)) : list Z := mjoin (printed pattern <$> ls).

Lemma printed_all_app pattern a b : printed_all pattern (a ++ b) = printed_all pattern a ++ printed_all pattern b.
Proof. unfold printed_all. by rewrite fmap_app, join_app. Qed.

Lemma runs_scan pattern r : NL ∉ r -> 0 ∉ r -> forall cur w, runs (grep_scan pattern r cur) w (Done (cur ++ r) w).
Proof.
  induction r as [|c r IH]; intros Hn H0 cur w; cbn [grep_scan]; [rewrite app_nil_r; apply runs_ret|].
  apply not_elem_of_cons in Hn as [Hn Hr], H0 as [H0 Hr0]. rewrite (proj2 (Z.eqb_neq c 0)), (proj2 (Z.eqb_neq c NL)) by congruence.
  specialize (IH Hr Hr0 (cur ++ [c]) w). by rewrite <- app_assoc in IH.
Qed.

Lemma runs_scan_line pattern l x : NL ∉ l -> 0 ∉ l -> forall cur w res,
  runs (grep_scan pattern x []) (with_out (w_out w ++ printed pattern (cur ++ l)) w) res -> runs (grep_scan pattern (l ++ NL :: x) cur) w res.
Proof.
  induction l as [|c l IH]; intros Hn H0 cur w res Hx; cbn [grep_scan app].
  - change (NL =? 0) with false. change (NL =? NL) with true. cbv iota. rewrite app_nil_r in Hx. unfold printed in Hx. destruct (match_ pattern cur).
    + eapply runs_bind; [by eapply runs_call_|exact Hx].
    + eapply runs_bind; [apply runs_ret|]. rewrite app_nil_r in Hx. by destruct w.
  - apply not_elem_of_cons in Hn as [Hn Hr], H0 as [H0 Hr0]. rewrite (proj2 (Z.eqb_neq c 0)), (proj2 (Z.eqb_neq c NL)) by congruence.
    apply IH; [done..|]. by rewrite <- app_assoc.
Qed.

Definition plain (l : list Z) : Prop := NL ∉ l /\ 0 ∉ l.

Lemma runs_scan_text pattern ls r : Forall plain ls -> plain r -> forall w,
  runs (grep_scan pattern (text ls ++ r) []) w (Done r (with_out (w_out w ++ printed_all pattern ls) w)).
Proof.
  intros Hls [Hr Hr0]. induction Hls as [|l ls [Hl Hl0] Hls IH]; intros w.
  - rewrite app_nil_r. destruct w. by apply (runs_scan pattern r).
  - rewrite text_cons, <- app_assoc. apply runs_scan_line; [done..|]. specialize (IH (with_out (w_out w ++ printed pattern l) w)).
    cbn [with_out w_out app] in *. unfold printed_all. cbn. rewrite app_assoc. apply IH.
Qed.

(** Reads return as many bytes as there are and there is room for. *)
Definition full_reads (short : nat -> nat) : Prop := forall n, (1023 <= S (short n))%nat.

Section Loop.
Context (pattern : list Z) (fd : Z).

(** One read, and what is in the buffer then. *)
Lemma runs_grep_read (m rest : list Z) w : (length m <= 1022)%nat -> full_reads (w_short w) -> w_fds w !! fd = Some rest ->
  let bs := take (1023 - length m) rest in
  exists w', runs (call (ReadCall fd (1024 - Z.of_nat (length m) - 1))) w (Done (Z.of_nat (length bs), bs) w') /\
    w_fds w' = <[fd := drop (1023 - length m) rest]> (w_fds w) /\ w_out w' = w_out w /\ same w w'.
Proof.
  intros Hm Hw Hfd bs. eexists. assert (chunk (1024 - Z.of_nat (length m) - 1) rest w = bs) as Hc.
  { unfold chunk, bs. specialize (Hw (w_reads w)). f_equal. lia. }
  split; [eapply runs_call; cbn [handle]; rewrite Hfd, Hc; reflexivity|]. cbn [w_fds w_out w_short]. split; [|done]. f_equal. unfold bs. rewrite length_take.
  destruct (Nat.min_spec (1023 - length m) (length rest)) as [[_ ->]|[Hle ->]]; [done|]. by rewrite !drop_ge by lia.
Qed.

(** A turn of the loop at the text that the buffer and the file make up together: it prints the lines [ls1] and goes on with the others. *)
Lemma runs_grep_round (m rest : list Z) ls tl w :
  (length m <= 1022)%nat -> full_reads (w_short w) -> w_fds w !! fd = Some rest -> rest <> [] -> m ++ rest = text ls ++ tl ->
  Forall (fun l => plain l /\ (length l <= 1022)%nat) ls -> plain tl ->
  exists ls1 ls2 m' rest' tl' w', runs (grep_round pattern fd m) w (Done (inl m') w') /\ ls = ls1 ++ ls2 /\ m' ++ rest' = text ls2 ++ tl' /\ plain tl' /\
    (length m' <= 1022)%nat /\ plain m' /\ (length rest' < length rest)%nat /\
    w_fds w' = <[fd := rest']> (w_fds w) /\ w_out w' = w_out w ++ printed_all pattern ls1 /\ same w w'.
Proof.
  intros Hm Hw Hfd Hne He Hls [Ht Ht0]. destruct (runs_grep_read m rest w Hm Hw Hfd) as (w1 & Hr & Hf1 & Ho1 & Hs1).
  set (bs := take (1023 - length m) rest) in *. set (rest' := drop (1023 - length m) rest) in *.
  assert (length bs + length rest' = length rest /\ 0 < length bs)%nat as [Hlen Hpos].
  { unfold bs, rest'. rewrite length_take, length_drop. destruct rest; [done|]. cbn [length]. lia. }
  assert ((m ++ bs) ++ rest' = text ls ++ tl) as He' by (rewrite <- app_assoc; unfold bs, rest'; by rewrite take_drop).
  destruct (text_split ls tl (m ++ bs) rest' Ht) as (ls1 & ls2 & r & -> & Hb & Hrn & Hx); [by eapply Forall_impl; [exact Hls|intros l [[? _] _]]|exact He'|].
  assert (plain r) as Hr0.
  { split; [done|]. intros Hin. apply (text_nul ls2 tl); [|done|rewrite <- Hx; set_solver].
    apply Forall_app in Hls as [_ Hls2]. by eapply Forall_impl; [exact Hls2|intros l [[_ ?] _]]. }
  pose proof Hls as [Hls1 Hls2]%Forall_app.
  assert (forall m', m' = (if (length r =? length (m ++ bs))%nat then [] else r) -> runs (grep_round pattern fd m) w (Done (inl m') (with_out (w_out w1 ++ printed_all pattern ls1) w1))) as Hrun.
  { intros m' ->. eapply runs_bind; [exact Hr|]. cbv beta iota. rewrite (proj2 (Z.ltb_lt _ _)), Nat2Z.id, take_ge by lia.
    eapply runs_bind; [rewrite Hb; apply runs_scan_text; [by eapply Forall_impl; [exact Hls1|intros l [? _]]|done]|]. apply runs_ret. }
  assert (length (m ++ bs) <= 1023 /\ length (m ++ bs) = length (text ls1) + length r)%nat as [Hb1 Hb2].
  { rewrite Hb at 2. rewrite !length_app. unfold bs. rewrite length_take. lia. }
  destruct ls1 as [|l1 ls1].
  - exists [], ls2, [], rest'. destruct ls2 as [|l2 ls2].
    + exists rest', (with_out (w_out w1 ++ printed_all pattern []) w1). cbn [app] in *. split; [apply Hrun; rewrite Hb2; change (length (text [])) with 0%nat; by rewrite Nat.eqb_refl|].
      cbn [with_out w_fds w_out w_short]. rewrite Hf1, Ho1. split_and!; try done; try lia; [|cbn; lia|split; apply not_elem_of_nil|by destruct Hs1].
      split; intros Hin; [apply Ht|apply Ht0]; cbn in Hx; rewrite <- Hx; set_solver.
    + exfalso. apply Forall_cons in Hls2 as [[_ Hl2] _]. destruct (text_first _ _ _ _ _ Hx Hrn) as [Hle Hmore]. apply Hmore.
      unfold rest'. apply drop_ge. rewrite length_app in Hb2. unfold bs in Hb2. cbn in Hb2. rewrite length_take in Hb2. lia.
  - assert (0 < length (text (l1 :: ls1)))%nat as Hp by (rewrite text_cons, length_app; cbn; lia).
    exists (l1 :: ls1), ls2, r, rest', tl. eexists. split; [apply Hrun; by rewrite (proj2 (Nat.eqb_neq _ _)) by lia|].
    cbn [with_out w_fds w_out w_short]. rewrite Hf1, Ho1. split_and!; try done; try lia. by destruct Hs1.
Qed.

Lemma runs_grep n : forall rest m ls tl w,
  (length rest < n)%nat -> (length m <= 1022)%nat -> full_reads (w_short w) -> w_fds w !! fd = Some rest -> m ++ rest = text ls ++ tl ->
  Forall (fun l => plain l /\ (length l <= 1022)%nat) ls -> plain tl -> plain m ->
  exists w', runs (loop (grep_round pattern fd) m) w (Done tt w') /\
    w_out w' = w_out w ++ printed_all pattern ls /\ w_fds w' = <[fd := []]> (w_fds w) /\ same w w'.
Proof.
  induction n as [|n IH]; intros rest m ls tl w Hn Hm Hw Hfd He Hls Ht Hp; [lia|]. destruct (decide (rest = [])) as [->|Hne].
  - destruct (runs_grep_read m [] w Hm Hw Hfd) as (w1 & Hr & Hf1 & Ho1 & Hs1). rewrite take_nil, drop_nil in *. exists w1.
    split; [apply runs_loop_end; eapply runs_bind; [exact Hr|apply runs_ret]|]. rewrite Ho1, Hf1. split; [|done].
    destruct ls as [|l ls]; [by rewrite app_nil_r|]. exfalso. by apply (text_first m [] l ls tl He); [apply Hp|].
  - destruct (runs_grep_round m rest ls tl w Hm Hw Hfd Hne He Hls Ht)
      as (ls1 & ls2 & m' & rest' & tl' & w1 & Hr & -> & He1 & Ht1 & Hm1 & Hp1 & Hlt & Hf1 & Ho1 & Hs1).
    apply Forall_app in Hls as [_ Hls2].
    destruct (IH rest' m' ls2 tl' w1) as (w2 & Hr2 & Ho2 & Hf2 & Hs2); try done; [lia|intros k; rewrite (sm_short _ _ Hs1); apply Hw|rewrite Hf1; apply lookup_insert_eq|].
    exists w2. split; [by eapply runs_loop|]. rewrite Ho2, Ho1, printed_all_app, <- app_assoc, Hf2, Hf1, insert_insert_eq. split_and!; [done..|by eapply same_trans].
Qed.
End Loop.

(** The contents of a file: complete lines that fit into the buffer, and an incomplete one; no NULs. *)
Definition holds (c : list Z) (ls : list (list Z)) (tl : list Z) : Prop :=
  c = text ls ++ tl /\ Forall (fun l => plain l /\ (length l <= 1022)%nat) ls /\ plain tl.

(** C38: grep prints the complete lines that match, of the files named on its command line and in their order, and exits without a descriptor left open, if no line
    is longer than 1022 characters and the reads return as many bytes as there are. *)
Theorem grep_prints pattern names cs texts w prog_name :
  names <> [] -> Forall2 (fun name c => w_files w !! name = Some c) names cs -> full_reads (w_short w) ->
  Forall2 (fun c ls => exists tl, holds c ls tl) cs texts -> exists w',
    runs (grep_main (prog_name :: pattern :: names)) w (Gone w') /\ same w w' /\ w_fds w' = w_fds w /\
    w_out w' = w_out w ++ mjoin ((fun l => if match_ pattern l then l ++ [NL] else []) <$> mjoin texts).
Proof.
  intros Hne Hc Hw Ht. destruct names as [|name names]; [done|].
  destruct (runs_each (fun fd _ => grep pattern fd) (line "grep: cannot open %s") (fun _ c => (grep_lines pattern c []).1) (fun sh c => full_reads sh /\ exists ls tl, holds c ls tl))
    with (names := name :: names) (cs := cs) (w := w) as (w' & Hr & Ho & Hf & Hs); [|done|..].
  - intros fd n rest w1 Hfd (Hsh & ls & tl & -> & Hls & Htl). destruct (runs_grep pattern fd (S (length (text ls ++ tl))) (text ls ++ tl) [] ls tl w1) as (w2 & Hr & Ho & Hrest);
      [lia|cbn; lia|done..|split; apply not_elem_of_nil|]. exists w2. split; [exact Hr|]. split; [|done]. rewrite Ho. f_equal. symmetry.
    unfold text. rewrite grep_lines_spec; [done| |apply Htl]. by eapply Forall_impl; [exact Hls|intros l [[? _] _]].
  - clear -Ht Hw. induction Ht as [|? ? ? ? [tl ?]]; constructor; eauto.
  - exists w'. split; [eapply runs_bind; [exact Hr|apply runs_exit]|]. split; [done|]. split; [done|]. rewrite Ho. f_equal. clear -Hc Ht. revert texts Ht.
    induction Hc as [|n c ns cs _ Hc IH]; intros texts Ht; inversion Ht as [|? ls ? tx (tl & -> & Hls & Htl)]; subst; [done|]. specialize (IH tx ltac:(done)).
    rewrite (join_cons ls), fmap_app, join_app, <- IH. cbn [zip_with]. rewrite join_cons. f_equal. unfold text.
    rewrite grep_lines_spec; [done|by eapply Forall_impl; [exact Hls|intros l [[? _] _]]|apply Htl].
Qed.

Definition grep_world : world := World {[ [102] := [97; 98; 10; 99; 10; 98; 98; 10; 98]; [103] := [98; 10] ]} ∅ [] [] (fun _ => 2000%nat) 0.

(** [a*b$] in two files: the lines [ab], [bb] and [b]. *)
Lemma grep_prints_witness : exists w', runs (grep_main [[103]; [97; 42; 98; 36]; [102]; [103]]) grep_world (Gone w') /\ w_out w' = [97; 98; 10; 98; 98; 10; 98; 10].
Proof.
  destruct (grep_prints [97; 42; 98; 36] [[102]; [103]] [[97; 98; 10; 99; 10; 98; 98; 10; 98]; [98; 10]] [[[97; 98]; [99]; [98; 98]]; [[98]]] grep_world [103])
    as (w' & Hr & _ & _ & Ho).
  - discriminate.
  - repeat constructor; reflexivity.
  - intros n. cbn [grep_world w_short]. lia.
  - repeat constructor; [exists [98]|exists []]; split_and!; try reflexivity; repeat constructor; cbn; try lia; apply (bool_decide_unpack _); vm_compute; exact I.
  - exists w'. split; [exact Hr|exact Ho].
Defined.

(** A line that arrives in two reads is lost in part: what a read brings without a newline, while nothing is left from before, is forgotten. *)
Theorem grep_forgets_partial_line pattern fd bs rest w : w_fds w !! fd = Some (bs ++ rest) -> w_short w (w_reads w) = pred (length bs) -> bs <> [] ->
  (length bs <= 1023)%nat -> plain bs -> exists w', runs (grep_round pattern fd []) w (Done (inl []) w') /\ w_out w' = w_out w /\ w_fds w' !! fd = Some rest.
Proof.
  intros Hfd Hsh Hne Hlen [Hn H0]. assert (chunk (1024 - Z.of_nat (length (@nil Z)) - 1) (bs ++ rest) w = bs) as Hc.
  { unfold chunk. rewrite Hsh. destruct bs as [|b bs]; [done|]. cbn [length pred] in *. change (Z.to_nat _) with 1023%nat. rewrite Nat.min_r by lia.
    by apply (take_app_length (b :: bs)). }
  eexists. split; [|split].
  - eapply runs_bind; [eapply runs_call; cbn [handle]; rewrite Hfd, Hc; reflexivity|].
    cbv beta iota. rewrite (proj2 (Z.ltb_lt _ _)), Nat2Z.id, take_ge by (destruct bs; cbn; [done|lia]). cbn [app].
    eapply runs_bind; [by apply runs_scan|]. cbn [app]. rewrite Nat.eqb_refl. apply runs_ret.
  - done.
  - cbn [w_fds]. rewrite lookup_insert_eq. by rewrite drop_app_length.
Qed.
