(* ===== verification/ShRun.v ===== *)
(** The shell at work (sh.c): [runcmd], [fork1], [panic], [getcmd] and [main] as trees of system calls, and the processes that a command
    line makes: every program runs with exactly the three descriptors that its place in the line gives it. *)

From ITree Require Import ITree ITreeFacts.
From S2P Require Import Prelude Bytes Printf Prog Sh ShSpec.

Definition panic_ {A} (s : list Z) : prog A := uprintf 2 (line "%s") [PStr s] ;; exit_.

Definition fork1 : prog Z :=
  pid ← call Fork;
  if pid =? -1 then panic_ (ascii_of "fork") else mret pid.

(** The words of the tree are strings in the buffer. *)
Definition word_in (buf : list Z) (q : nat) : list Z := cut (drop q buf).

Fixpoint runcmd (buf : list Z) (c : cmd) : prog Empty_set :=
  match c with
  | EXEC argv =>
      match argv with
      | [] => exit_
      | a :: _ =>
          call_ (ExecCall (word_in buf a.1) (word_in buf <$> argv.*1)) ;;
          uprintf 2 (line "exec %s failed") [PStr (word_in buf a.1)] ;;
          exit_
      end
  | REDIR c file efile mode fd =>
      call_ (CloseCall fd) ;;
      r ← call (OpenCall (word_in buf file) mode);
      if r <? 0 then uprintf 2 (line "open %s failed") [PStr (word_in buf file)] ;; exit_
      else runcmd buf c
  | LIST l r =>
      pid ← fork1;
      if pid =? 0 then runcmd buf l
      else call_ Wait ;; runcmd buf r
  | PIPE l r =>
      p ← call PipeCall;
      match p with
      | None => panic_ (ascii_of "pipe")
      | Some (p0, p1) =>
          pid ← fork1;
          if pid =? 0 then
            call_ (CloseCall 1) ;; call_ (Dup p1) ;; call_ (CloseCall p0) ;; call_ (CloseCall p1) ;; runcmd buf l
          else
            pid ← fork1;
            if pid =? 0 then
              call_ (CloseCall 0) ;; call_ (Dup p0) ;; call_ (CloseCall p0) ;; call_ (CloseCall p1) ;; runcmd buf r
            else
              call_ (CloseCall p0) ;; call_ (CloseCall p1) ;; call_ Wait ;; call_ Wait ;; exit_
      end
  | BACK c =>
      pid ← fork1;
      if pid =? 0 then runcmd buf c else exit_
  end.

(** [gets] of ulib.c with room for [n] characters before the NUL. *)
Fixpoint gets_prog (n : nat) : prog (list Z) :=
  match n with
  | O => mret []
  | S n =>
      r ← call (ReadCall 0 1);
      let '(cc, bs) := r in
      match bs with
      | c :: _ =>
          if cc <? 1 then mret []
          else if (c =? 10) || (c =? 13) then mret [c]
          else l ← gets_prog n; mret (c :: l)
      | [] => mret []
      end
  end.

(** The string in [buf]; it is empty at the end of the input. *)
Definition getcmd (nbuf : nat) : prog (list Z) :=
  uprintf 2 (ascii_of "$ ") [] ;;
  l ← gets_prog (nbuf - 1);
  mret (cut l).

Definition run_line (buf : list Z) : prog Empty_set :=
  match parsecmd buf with
  | Ok (c, buf) _ => runcmd buf c
  | Panic msg => panic_ (ascii_of msg)
  | _ => exit_
  end.

Definition open_console (_ : unit) : prog (unit + unit) :=
  fd ← call (OpenCall (ascii_of "console") 2);
  if 0 <=? fd then
    if 3 <=? fd then call_ (CloseCall fd) ;; mret (inr tt) else mret (inl tt)
  else mret (inr tt).

Definition command (_ : unit) : prog (unit + unit) :=
  buf ← getcmd 100;
  match buf with
  | [] => mret (inr tt)
  | _ =>
      if bool_decide (take 3 buf = [99; 100; 32]) then
        let dir := drop 3 (take (length buf - 1) buf) in
        r ← call (Chdir dir);
        (if r <? 0 then uprintf 2 (line "cannot cd %s") [PStr dir] else mret tt) ;; mret (inl tt)
      else
        pid ← fork1;
        if pid =? 0 then v ← run_line buf; match v : Empty_set with end
        else call_ Wait ;; mret (inl tt)
  end.

Definition sh_main : prog Empty_set :=
  loop open_console tt ;;
  loop command tt ;;
  exit_.

(** ** Processes

    What a descriptor is open on; the pipes are named by the process that made them and a number. *)
Inductive desc := Tty | FileOn (path : list Z) (mode : Z) | PipeR (id : list nat) (k : nat) | PipeW (id : list nat) (k : nat) | Inherited (n : nat).

(** A process: its name, which is that of its parent and a number, the numbers of its forks and pipes so far, the number of its calls, its descriptors, and
    the input of the shell. *)
Record sproc := Proc { p_id : list nat; p_kids : nat; p_pipes : nat; p_calls : nat; p_fds : gmap Z desc; p_in : list Z }.

(** A program that has been started. *)
Record started := Started { s_path : list Z; s_argv : list (list Z); s_fds : gmap Z desc }.

Fixpoint lowest_fd (n : nat) (k : Z) (fds : gmap Z desc) : Z :=
  match n with O => k | S n => match fds !! k with None => k | Some _ => lowest_fd n (k + 1) fds end end.
Definition new_fd (fds : gmap Z desc) : Z := lowest_fd (size fds) 0 fds.

Section Processes.
(** Whether the [n]-th call of a process succeeds. *)
Context (succeeds : list nat -> nat -> bool).

Definition with_pfds (fds : gmap Z desc) (s : sproc) : sproc := Proc (p_id s) (p_kids s) (p_pipes s) (S (p_calls s)) fds (p_in s).
Definition tick (s : sproc) : sproc := with_pfds (p_fds s) s.
Definition ok (s : sproc) : bool := succeeds (p_id s) (p_calls s).

Inductive reply (X : Type) :=
  | Next (x : X) (s : sproc)
  | Both (x : X) (s : sproc) (y : X) (t : sproc)
  | Stop (l : list started).
Arguments Next {X}.
Arguments Both {X}.
Arguments Stop {X}.

(** What a call does: [fork] has two processes to go on with, and a program that is started is not the shell any more. *)
Definition answer {X} (e : sysE X) (s : sproc) : reply X :=
  match e in sysE X return reply X with
  | Fork => if ok s then
      Both 0 (Proc (p_id s ++ [p_kids s]) 0 0 0 (p_fds s) (p_in s)) 1 (Proc (p_id s) (S (p_kids s)) (p_pipes s) (S (p_calls s)) (p_fds s) (p_in s))
      else Next (-1) (tick s)
  | Exit => Stop []
  | Wait => Next 1 (tick s)
  | PipeCall => if ok s then
      let r := new_fd (p_fds s) in
      let fds := <[r := PipeR (p_id s) (p_pipes s)]> (p_fds s) in
      let w := new_fd fds in
      Next (Some (r, w)) (Proc (p_id s) (p_kids s) (S (p_pipes s)) (S (p_calls s)) (<[w := PipeW (p_id s) (p_pipes s)]> fds) (p_in s))
      else Next None (tick s)
  | ReadCall fd n => Next (Z.of_nat (length (take (Z.to_nat n) (p_in s))), take (Z.to_nat n) (p_in s))
      (Proc (p_id s) (p_kids s) (p_pipes s) (S (p_calls s)) (p_fds s) (drop (Z.to_nat n) (p_in s)))
  | ExecCall path argv => if ok s then Stop [Started path argv (p_fds s)] else Next (-1) (tick s)
  | Dup fd => match p_fds s !! fd with
              | Some d => Next (new_fd (p_fds s)) (with_pfds (<[new_fd (p_fds s) := d]> (p_fds s)) s)
              | None => Next (-1) (tick s)
              end
  | OpenCall path mode => if ok s then
      Next (new_fd (p_fds s)) (with_pfds (<[new_fd (p_fds s) := if bool_decide (path = ascii_of "console") then Tty else FileOn path mode]> (p_fds s)) s)
      else Next (-1) (tick s)
  | CloseCall fd => match p_fds s !! fd with Some _ => Next 0 (with_pfds (delete fd (p_fds s)) s) | None => Next (-1) (tick s) end
  | WriteCall fd bs => Next (Z.of_nat (length bs)) (tick s)
  | Chdir _ => Next (if ok s then 0 else -1) (tick s)
  | KillCall _ => Next (-1) (tick s) | Fstat _ => Next None (tick s) | Mknod _ _ _ => Next (-1) (tick s)
  | Unlink _ => Next (-1) (tick s) | Link _ _ => Next (-1) (tick s) | MkdirCall _ => Next (-1) (tick s)
  end.

(** The programs that a process and its descendants start, those of a child before those of its parent. *)
Fixpoint procs {A} (fuel : nat) (t : prog A) (s : sproc) : option (list started) :=
  match fuel with
  | O => None
  | S fuel =>
      match observe t with
      | RetF _ => Some []
      | TauF t => procs fuel t s
      | VisF e k =>
          match answer e s with
          | Next x s => procs fuel (k x) s
          | Both x s y s' => l ← procs fuel (k x) s; l' ← procs fuel (k y) s'; Some (l ++ l')
          | Stop l => Some l
          end
      end
  end.
End Processes.
#[global] Arguments Next {X}.
#[global] Arguments Both {X}.
#[global] Arguments Stop {X}.

(** ** Runs that come to an end *)
(** The call that a tree begins with. *)
Lemma observe_bind {A B X} (t : prog A) (f : A -> prog B) (e : sysE X) k : observe t = VisF e k -> observe (t ≫= f) = VisF e (fun x => k x ≫= f).
Proof.
  intros Ht.
  change (observe (t ≫= f)) with (observe (match observe t with RetF r => f r | TauF t => Tau (t ≫= f) | VisF e k => Vis e (fun x => k x ≫= f) end)).
  by rewrite Ht.
Qed.

Ltac sees := unfold call_, exit_, fork1; cbn [each]; repeat eapply observe_bind; reflexivity.

Section Ends.
Context (succeeds : list nat -> nat -> bool).
Abbreviation answers := (answer succeeds).
Abbreviation family := (procs succeeds).

Definition ends {A} (t : prog A) (s : sproc) (l : list started) : Prop := exists n, forall m, (n <= m)%nat -> family m t s = Some l.

Lemma procs_observe {A} (t t' : prog A) m s : observe t = observe t' -> family m t s = family m t' s.
Proof. intros He. destruct m; [done|]. cbn [procs]. by rewrite He. Qed.

Lemma ends_observe {A} (t t' : prog A) s l : observe t = observe t' -> ends t' s l -> ends t s l.
Proof. intros He [n Hn]. exists n. intros m Hm. rewrite (procs_observe t t') by done. by apply Hn. Qed.

Section Vis.
Context {A X : Type} (t : prog A) (e : sysE X) (k : X -> prog A) (Ht : observe t = VisF e k) (s : sproc).

Lemma ends_vis x s' l : answers e s = Next x s' -> ends (k x) s' l -> ends t s l.
Proof.
  intros Ha [n Hn]. exists (S n). intros [|m] Hm; [lia|]. cbn [procs]. rewrite Ht, Ha. apply Hn. lia.
Qed.

Lemma ends_vis_both x s1 y s2 l1 l2 : answers e s = Both x s1 y s2 -> ends (k x) s1 l1 -> ends (k y) s2 l2 -> ends t s (l1 ++ l2).
Proof.
  intros Ha [n1 Hn1] [n2 Hn2]. exists (S (n1 `max` n2)). intros [|m] Hm; [lia|]. cbn [procs]. rewrite Ht, Ha, Hn1, Hn2 by lia. done.
Qed.

Lemma ends_vis_stop l : answers e s = Stop l -> ends t s l.
Proof. intros Ha. exists 1%nat. intros [|m] Hm; [lia|]. cbn [procs]. by rewrite Ht, Ha. Qed.
End Vis.

Lemma ends_call {A X} (e : sysE X) (k : X -> prog A) s x s' l : answers e s = Next x s' -> ends (k x) s' l -> ends (call e ≫= k) s l.
Proof. intros Ha Hk. eapply ends_vis; [sees|exact Ha|]. by eapply ends_observe; [|exact Hk]. Qed.

Lemma ends_call_ {A X} (e : sysE X) (t : prog A) s x s' l : answers e s = Next x s' -> ends t s' l -> ends (call_ e ;; t) s l.
Proof. intros Ha Hk. eapply ends_vis; [sees|exact Ha|]. by eapply ends_observe; [|exact Hk]. Qed.

Lemma ends_exit {A} s : ends (exit_ (A := A)) s [].
Proof. eapply ends_vis_stop; [sees|done]. Qed.

Lemma ends_exit_bind {A B} (k : A -> prog B) s : ends (exit_ ≫= k) s [].
Proof. eapply ends_vis_stop; [sees|done]. Qed.

(** Messages do not matter. *)
Lemma ends_print {A} fd fmt args (t : prog A) : forall s l, (forall s', p_fds s' = p_fds s -> p_in s' = p_in s -> ends t s' l) -> ends (uprintf fd fmt args ;; t) s l.
Proof.
  unfold uprintf. induction (format fmt args) as [|c cs IH]; intros s l Ht.
  - eapply ends_observe; [|by apply Ht]. reflexivity.
  - eapply ends_vis; [sees|reflexivity|]. eapply ends_observe; [|apply (IH (tick s)); intros s' Hf Hi; by apply Ht]. reflexivity.
Qed.

Lemma ends_die {A B} fd fmt args (k : A -> prog B) : forall s, ends ((uprintf fd fmt args ;; exit_) ≫= k) s [].
Proof.
  unfold uprintf. induction (format fmt args) as [|c cs IH]; intros s.
  - eapply ends_observe; [|by apply (ends_exit_bind k)]. reflexivity.
  - eapply ends_vis; [sees|reflexivity|]. eapply ends_observe; [|apply (IH (tick s))]. reflexivity.
Qed.

Lemma ends_quit {A} fd fmt args s : ends (uprintf fd fmt args ;; exit_ (A := A)) s [].
Proof. apply ends_print. intros. apply ends_exit. Qed.

Lemma ends_fork {A} (k : Z -> prog A) s :
  let child := Proc (p_id s ++ [p_kids s]) 0 0 0 (p_fds s) (p_in s) in
  let parent := Proc (p_id s) (S (p_kids s)) (p_pipes s) (S (p_calls s)) (p_fds s) (p_in s) in
  (forall l1 l2, ends (k 0) child l1 -> ends (k 1) parent l2 -> ok succeeds s = true -> ends (fork1 ≫= k) s (l1 ++ l2)) /\
  (ok succeeds s = false -> ends (fork1 ≫= k) s []).
Proof.
  intros child parent. split.
  - intros l1 l2 H1 H2 Hok. eapply ends_vis_both; [sees|cbn [answer]; rewrite Hok; reflexivity|..].
    + by eapply ends_observe; [|exact H1].
    + by eapply ends_observe; [|exact H2].
  - intros Hok. eapply ends_vis; [sees|cbn [answer]; rewrite Hok; reflexivity|]. eapply ends_observe; [|by apply (ends_die 2 (line "%s") [PStr (ascii_of "fork")] k (tick s))].
    reflexivity.
Qed.

(** ** The programs of a command line *)
Definition std (a b d : desc) : gmap Z desc := <[0 := a]> (<[1 := b]> (<[2 := d]> ∅)).
Definition open_desc (path : list Z) (mode : Z) : desc := if bool_decide (path = ascii_of "console") then Tty else FileOn path mode.

(** The programs that a command starts, in a process with the standard descriptors [a], [b] and [d]. *)
Fixpoint wires (buf : list Z) (c : cmd) (id : list nat) (kids pipes : nat) (a b d : desc) : list started :=
  match c with
  | EXEC [] => []
  | EXEC ((x :: _) as argv) => [Started (word_in buf x.1) (word_in buf <$> argv.*1) (std a b d)]
  | REDIR c file _ mode fd =>
      let f := open_desc (word_in buf file) mode in
      if fd =? 0 then wires buf c id kids pipes f b d else wires buf c id kids pipes a f d
  | LIST l r => wires buf l (id ++ [kids]) 0 0 a b d ++ wires buf r id (S kids) pipes a b d
  | PIPE l r => wires buf l (id ++ [kids]) 0 0 a (PipeW id pipes) d ++ wires buf r (id ++ [S kids]) 0 0 (PipeR id pipes) b d
  | BACK c => wires buf c (id ++ [kids]) 0 0 a b d
  end.

(** Redirections are of descriptor 0 or 1. *)
Fixpoint redirs_ok (c : cmd) : Prop :=
  match c with
  | EXEC _ => True
  | REDIR c _ _ _ fd => (fd = 0 \/ fd = 1) /\ redirs_ok c
  | LIST l r | PIPE l r => redirs_ok l /\ redirs_ok r
  | BACK c => redirs_ok c
  end.

(** A failure may leave out programs, but it adds none. *)
Definition part (l ws : list started) : Prop := sublist l ws /\ ((forall id n, succeeds id n = true) -> l = ws).

Lemma part_app l1 w1 l2 w2 : part l1 w1 -> part l2 w2 -> part (l1 ++ l2) (w1 ++ w2).
Proof. intros [S1 E1] [S2 E2]. split; [by apply sublist_app|]. intros Hs. by rewrite E1, E2. Qed.

Lemma part_none (s : sproc) ws : ok succeeds s = false -> part [] ws.
Proof. intros Hf. split; [apply sublist_nil_l|]. intros Hs. unfold ok in Hf. by rewrite Hs in Hf. Qed.

Lemma part_refl ws : part ws ws.
Proof. done. Qed.

(** *** Changes of a table of descriptors *)
(** A file in the place of descriptor 0 or 1. *)
Lemma std_reopen fd f a b d : fd = 0 \/ fd = 1 -> new_fd (delete fd (std a b d)) = fd /\ is_Some (std a b d !! fd) /\
  <[fd := f]> (delete fd (std a b d)) = if fd =? 0 then std f b d else std a f d.
Proof. intros [-> | ->]; split_and!; try reflexivity; by eexists. Qed.

(** *** What a tree starts *)
Definition starts {A} (t : prog A) (s : sproc) (ws : list started) : Prop := exists l, ends t s l /\ part l ws.

Lemma starts_call {A X} (e : sysE X) (k : X -> prog A) s x s' ws : answers e s = Next x s' -> starts (k x) s' ws -> starts (call e ≫= k) s ws.
Proof. intros Ha (l & He & Hp). exists l. split; [by eapply ends_call|done]. Qed.

Lemma starts_call_ {A X} (e : sysE X) (t : prog A) s x s' ws : answers e s = Next x s' -> starts t s' ws -> starts (call_ e ;; t) s ws.
Proof. intros Ha (l & He & Hp). exists l. split; [by eapply ends_call_|done]. Qed.

Lemma starts_fork {A} (k : Z -> prog A) s w1 w2 :
  starts (k 0) (Proc (p_id s ++ [p_kids s]) 0 0 0 (p_fds s) (p_in s)) w1 ->
  starts (k 1) (Proc (p_id s) (S (p_kids s)) (p_pipes s) (S (p_calls s)) (p_fds s) (p_in s)) w2 -> starts (fork1 ≫= k) s (w1 ++ w2).
Proof.
  intros (l1 & E1 & P1) (l2 & E2 & P2). destruct (ends_fork k s) as [Hy Hn]. destruct (ok succeeds s) eqn:Hok.
  - exists (l1 ++ l2). split; [by apply Hy|by apply part_app].
  - exists []. split; [by apply Hn|by apply (part_none s)].
Qed.

Lemma starts_quit {A} fd fmt args (s0 s : sproc) ws : ok succeeds s0 = false -> starts (uprintf fd fmt args ;; exit_ (A := A)) s ws.
Proof. intros Hf. exists []. split; [apply ends_quit|by apply (part_none s0)]. Qed.

Lemma starts_exit {A} s : starts (exit_ (A := A)) s [].
Proof. exists []. split; [apply ends_exit|apply part_refl]. Qed.

Definition runs_ok (buf : list Z) (c : cmd) : Prop :=
  forall id kids pipes n inp a b d, starts (runcmd buf c) (Proc id kids pipes n (std a b d) inp) (wires buf c id kids pipes a b d).

Lemma runs_exec buf argv : runs_ok buf (EXEC argv).
Proof.
  intros id kids pipes n inp a b d. destruct argv as [|[q e] argv]; [apply starts_exit|]. cbn [runcmd wires fst]. set (s := Proc _ _ _ _ _ _).
  destruct (ok succeeds s) eqn:Hok.
  - eexists. split; [|apply part_refl]. eapply ends_vis_stop; [sees|]. cbn [answer]. by rewrite Hok.
  - eapply starts_call_; [cbn [answer]; rewrite Hok; reflexivity|]. by apply (starts_quit _ _ _ s).
Qed.

Lemma runs_redir buf c file efile mode fd : fd = 0 \/ fd = 1 -> runs_ok buf c -> runs_ok buf (REDIR c file efile mode fd).
Proof.
  intros Hfd Hc id kids pipes n inp a b d. destruct (std_reopen fd (open_desc (word_in buf file) mode) a b d Hfd) as (Hn & [x Hx] & Hs). cbn [runcmd wires].
  eapply starts_call_; [cbn [answer p_fds]; rewrite Hx; reflexivity|]. set (s := with_pfds _ _). destruct (ok succeeds s) eqn:Hok.
  - eapply starts_call; [cbn [answer]; rewrite Hok; reflexivity|]. unfold s, with_pfds. cbn [p_fds p_id p_kids p_pipes p_calls p_in]. rewrite Hn.
    fold (open_desc (word_in buf file) mode). rewrite Hs. destruct Hfd as [-> | ->]; cbn [Z.ltb Z.eqb Z.compare]; apply Hc.
  - eapply starts_call; [cbn [answer]; rewrite Hok; reflexivity|]. by apply (starts_quit _ _ _ s).
Qed.

Lemma runs_list buf l r : runs_ok buf l -> runs_ok buf r -> runs_ok buf (LIST l r).
Proof.
  intros Hl Hr id kids pipes n inp a b d. cbn [runcmd wires]. apply starts_fork; [apply Hl|]. eapply starts_call_; [reflexivity|]. apply Hr.
Qed.

Lemma runs_back buf c : runs_ok buf c -> runs_ok buf (BACK c).
Proof.
  intros Hc id kids pipes n inp a b d. cbn [runcmd wires]. rewrite <- (app_nil_r (wires _ _ _ _ _ _ _ _)). apply starts_fork; [apply Hc|apply starts_exit].
Qed.

Lemma runs_pipe buf l r : runs_ok buf l -> runs_ok buf r -> runs_ok buf (PIPE l r).
Proof.
  intros Hl Hr id kids pipes n inp a b d. cbn [runcmd wires]. set (s := Proc _ _ _ _ _ _). destruct (ok succeeds s) eqn:Hok.
  - eapply starts_call; [cbn [answer]; rewrite Hok; reflexivity|]. cbn [p_fds s]. change (new_fd (std a b d)) with 3.
    change (new_fd _) with 4. apply starts_fork.
    + do 4 (eapply starts_call_; [reflexivity|]). apply Hl.
    + rewrite <- (app_nil_r (wires _ r _ _ _ _ _ _)). apply starts_fork.
      * do 4 (eapply starts_call_; [reflexivity|]). apply Hr.
      * do 4 (eapply starts_call_; [reflexivity|]). apply starts_exit.
  - eapply starts_call; [cbn [answer]; rewrite Hok; reflexivity|]. by apply (starts_quit _ _ _ s).
Qed.

Lemma runcmd_ok buf c : redirs_ok c -> runs_ok buf c.
Proof.
  induction c; cbn [redirs_ok]; intros Hc.
  - apply runs_exec.
  - apply runs_redir; [apply Hc|apply IHc, Hc].
  - apply runs_pipe; [apply IHc1, Hc|apply IHc2, Hc].
  - apply runs_list; [apply IHc1, Hc|apply IHc2, Hc].
  - by apply runs_back, IHc.
Qed.

(** *** Strongly bisimilar trees start the same programs *)
Lemma procs_eq_itree {A} m : forall (t t' : prog A) s, t ≅ t' -> family m t s = family m t' s.
Proof.
  induction m as [|m IH]; intros t t' s Ht; [done|]. rewrite (itree_eta t') in Ht. cbn [procs]. destruct (observe t') as [r|u|X e k].
  - by rewrite (eqitree_inv_Ret_r _ _ Ht).
  - destruct (eqitree_inv_Tau_r _ _ Ht) as (u' & -> & Hu). by apply IH.
  - destruct (eqitree_inv_Vis_r _ _ _ Ht) as (k' & -> & Hk). destruct (answer succeeds e s) as [x s'|x s1 y s2|l]; [by apply IH| |done].
    by rewrite (IH _ _ s1 (Hk x)), (IH _ _ s2 (Hk y)).
Qed.

#[local] Instance starts_proper {A} : Proper (eq_itree eq ==> eq ==> eq ==> iff) (@starts A).
Proof.
  assert (forall (t t' : prog A) s ws, t ≅ t' -> starts t s ws -> starts t' s ws) as Himp.
  { intros t t' s ws Ht (l & [n Hn] & Hp). exists l. split; [|done]. exists n. intros m Hm. rewrite <- (procs_eq_itree m _ _ s Ht). by apply Hn. }
  intros t t' Ht s _ <- ws _ <-. split; apply Himp; [done|by symmetry].
Qed.

Lemma starts_tau {A} (t : prog A) s ws : starts t s ws -> starts (Tau t) s ws.
Proof. intros (l & [n Hn] & Hp). exists l. split; [|done]. exists (S n). intros [|m] Hm; [lia|]. apply Hn. lia. Qed.

Lemma starts_assoc {A B C} (t : prog A) (f : A -> prog B) (g : B -> prog C) s ws : starts (t ≫= fun x => f x ≫= g) s ws -> starts ((t ≫= f) ≫= g) s ws.
Proof. unfold mbind, prog_bind. by rewrite bind_bind. Qed.

Lemma starts_ret {A B} (x : A) (f : A -> prog B) s ws : starts (f x) s ws -> starts (mret x ≫= f) s ws.
Proof. unfold mbind, prog_bind, mret, prog_ret. by rewrite bind_ret_l. Qed.

(** What follows a tree that never returns is not reached. *)
Lemma starts_never {B} (t : prog Empty_set) (k : Empty_set -> prog B) s ws : starts t s ws -> starts (t ≫= k) s ws.
Proof.
  assert (forall m (t : prog Empty_set) s, family m (t ≫= k) s = family m t s) as Heq.
  { induction m as [|m IH]; intros u s'; [done|]. cbn [procs].
    change (observe (u ≫= k)) with (observe (match observe u with RetF r => k r | TauF t => Tau (t ≫= k) | VisF e h => Vis e (fun x => h x ≫= k) end)).
    destruct (observe u) as [[]|u'|X e h]; cbn; [apply IH|]. destruct (answer succeeds e s'); [apply IH| |done]. by rewrite !IH. }
  intros (l & [n Hn] & Hp). exists l. split; [|done]. exists n. intros m Hm. rewrite Heq. by apply Hn.
Qed.

Lemma starts_print {A} fd fmt args (t : prog A) id kids pipes fds inp ws :
  (forall n, starts t (Proc id kids pipes n fds inp) ws) -> forall n, starts (uprintf fd fmt args ;; t) (Proc id kids pipes n fds inp) ws.
Proof.
  intros Ht. unfold uprintf. induction (format fmt args) as [|c cs IH]; intros n.
  - apply starts_ret, Ht.
  - cbn [each]. apply starts_assoc. eapply starts_call_; [reflexivity|]. apply IH.
Qed.

(** *** The input of the shell *)
Fixpoint read_line (n : nat) (inp : list Z) : list Z * list Z :=
  match n, inp with
  | S n, c :: inp => if (c =? 10) || (c =? 13) then ([c], inp) else let '(l, rest) := read_line n inp in (c :: l, rest)
  | _, _ => ([], inp)
  end.

Lemma read_line_rest n : forall inp, length inp = (length (read_line n inp).1 + length (read_line n inp).2)%nat.
Proof.
  induction n as [|n IH]; intros [|c inp]; [done..|]. cbn [read_line]. destruct (_ || _); [done|]. specialize (IH inp). destruct (read_line n inp). cbn in *. lia.
Qed.

Lemma starts_gets {A} n : forall (k : list Z -> prog A) id kids pipes fds inp ws,
  (forall m, starts (k (read_line n inp).1) (Proc id kids pipes m fds (read_line n inp).2) ws) ->
  forall m, starts (gets_prog n ≫= k) (Proc id kids pipes m fds inp) ws.
Proof.
  induction n as [|n IH]; intros k id kids pipes fds inp ws Hk m; [apply starts_ret, Hk|].
  cbn [gets_prog]. apply starts_assoc. eapply starts_call; [reflexivity|]. cbn [p_id p_kids p_pipes p_fds p_in]. change (Z.to_nat 1) with 1%nat.
  destruct inp as [|c inp]; [apply starts_ret, Hk|]. cbn [take drop length read_line] in *. rewrite ?drop_0. change (Z.of_nat 1 <? 1) with false. cbv iota.
  destruct (_ || _); [apply starts_ret, Hk|]. apply starts_assoc. apply IH. intros m'. apply starts_ret. destruct (read_line n inp). apply Hk.
Qed.

Lemma starts_getcmd {A} n (k : list Z -> prog A) id kids pipes fds inp ws m :
  (forall m, starts (k (cut (read_line (n - 1) inp).1)) (Proc id kids pipes m fds (read_line (n - 1) inp).2) ws) ->
  starts (getcmd n ≫= k) (Proc id kids pipes m fds inp) ws.
Proof.
  intros Hk. unfold getcmd. apply starts_assoc. apply starts_print. intros m1. apply starts_assoc. apply starts_gets. intros m2.
  apply starts_ret, Hk.
Qed.

(** *** The trees of the parser *)
Lemma redirs_ok_foldl rs : forall c, redirs_ok c -> Forall (fun r => r_fd r = 0 \/ r_fd r = 1) rs -> redirs_ok (foldl redircmd c rs).
Proof. induction rs as [|r rs IH]; intros c Hc; [done|]. inversion_clear 1. by apply IH. Qed.

Lemma redirs_ok_backs n c : redirs_ok c -> redirs_ok (backs n c).
Proof. induction n; cbn; auto. Qed.

Lemma g_redirs_fd ts rs : g_redirs ts rs -> Forall (fun r => r_fd r = 0 \/ r_fd r = 1) rs.
Proof. induction 1; constructor; [|done]. unfold redirect. destruct (_ =? _); cbn; auto. Qed.

Lemma g_args_fd ts argv rs : g_args ts argv rs -> Forall (fun r => r_fd r = 0 \/ r_fd r = 1) rs.
Proof. induction 1; [done|]. apply Forall_app. split; [by eapply g_redirs_fd|done]. Qed.

Lemma g_line_redirs ts c : g_line ts c -> redirs_ok c.
Proof.
  revert ts c. apply (g_mut (fun _ c _ => redirs_ok c) (fun _ c _ => redirs_ok c) (fun _ c _ => redirs_ok c)); cbn [redirs_ok]; intros;
    eauto using redirs_ok_backs, redirs_ok_foldl, g_redirs_fd.
  apply redirs_ok_foldl; [done|]. apply Forall_app. eauto using g_redirs_fd, g_args_fd.
Qed.

(** The programs of a line: none if it is not a command. *)
Definition line_starts (buf : list Z) (id : list nat) (a b d : desc) : list started :=
  match parsecmd buf with Ok (c, buf) _ => wires buf c id 0 0 a b d | _ => [] end.

Lemma run_line_ok buf id n inp a b d : starts (run_line buf) (Proc id 0 0 n (std a b d) inp) (line_starts buf id a b d).
Proof.
  unfold run_line, line_starts. destruct (parsecmd buf) as [[c buf'] s|msg| | |] eqn:Hp; [|..].
  - apply runcmd_ok. eapply g_line_redirs. by eapply parsecmd_tree.
  - exists []. split; [apply ends_quit|apply part_refl].
  - apply starts_exit.
  - apply starts_exit.
  - apply starts_exit.
Qed.

(** ** The shell *)
(** The programs that the lines of the input start; [kids] is the number of lines run before. *)
Fixpoint session (fuel kids : nat) (inp : list Z) (a b d : desc) : list started :=
  match fuel with
  | O => []
  | S fuel =>
      let '(l, rest) := read_line 99 inp in
      match cut l with
      | [] => []
      | buf =>
          if bool_decide (take 3 buf = [99; 100; 32]) then session fuel kids rest a b d
          else line_starts buf [kids] a b d ++ session fuel (S kids) rest a b d
      end
  end.

Lemma starts_loop {I R A} (body : I -> prog (I + R)) i (k : R -> prog A) s ws :
  starts (body i ≫= fun r => match r with inl i => Tau (loop body i ≫= k) | inr r => k r end) s ws -> starts (loop body i ≫= k) s ws.
Proof.
  unfold loop, mbind, prog_bind. rewrite unfold_iter, bind_bind. intros Hs. eapply starts_proper; [|reflexivity..|exact Hs].
  apply (eqit_bind' eq); [reflexivity|]. intros r ? <-. destruct r as [i'|r]; cbn.
  - by rewrite bind_tau.
  - by rewrite bind_ret_l.
Qed.

Lemma loop_command fuel a b d : forall kids n inp, (length inp < fuel)%nat ->
  starts (loop command tt ;; exit_ (A := Empty_set)) (Proc [] kids 0 n (std a b d) inp) (session fuel kids inp a b d).
Proof.
  induction fuel as [|fuel IH]; intros kids n inp Hf; [lia|]. apply starts_loop. unfold command. apply starts_assoc. apply starts_getcmd. intros m.
  change (100 - 1)%nat with 99%nat. cbn [session]. pose proof (read_line_rest 99 inp) as Hl. destruct (read_line 99 inp) as [l rest]. cbn [fst snd] in *.
  destruct (cut l) as [|c buf] eqn:Hc; [apply starts_ret, starts_exit|]. assert (length rest < fuel)%nat as Hr by (destruct l; cbn in *; [done|lia]).
  destruct (bool_decide _).
  - apply starts_assoc. eapply starts_call; [reflexivity|]. apply starts_assoc. set (dir := drop 3 _).
    assert (forall m', starts (mret (inl tt : unit + unit) ≫= fun r => match r with inl i => Tau (loop command i ;; exit_) | inr _ => exit_ (A := Empty_set) end)
      (Proc [] kids 0 m' (std a b d) rest) (session fuel kids rest a b d)) as Hnext by (intros m'; by apply starts_ret, starts_tau, IH).
    destruct (_ <? 0); [apply starts_print; intros m'|apply starts_ret]; apply Hnext.
  - apply starts_assoc. apply starts_fork.
    + apply starts_assoc. apply starts_never. apply run_line_ok.
    + apply starts_assoc. eapply starts_call_; [reflexivity|]. by apply starts_ret, starts_tau, IH.
Qed.

(** The loop that opens the console leaves three open descriptors as they are. *)
Lemma open_console_ok {A} (t : prog A) id kids pipes a b d inp ws :
  (forall n, starts t (Proc id kids pipes n (std a b d) inp) ws) -> forall n, starts (loop open_console tt ;; t) (Proc id kids pipes n (std a b d) inp) ws.
Proof.
  intros Ht n. apply starts_loop. unfold open_console. apply starts_assoc. set (s := Proc _ _ _ _ _ _). destruct (ok succeeds s) eqn:Hok.
  - eapply starts_call; [cbn [answer]; rewrite Hok; reflexivity|]. cbn [p_fds s]. change (new_fd (std a b d)) with 3.
    apply starts_assoc. eapply starts_call_; [reflexivity|]. apply starts_ret, Ht.
  - eapply starts_call; [cbn [answer]; rewrite Hok; reflexivity|]. apply starts_ret, Ht.
Qed.

Lemma wires_three buf c : forall id kids pipes a b d, Forall (fun p => dom (s_fds p) = {[0; 1; 2]}) (wires buf c id kids pipes a b d).
Proof.
  induction c as [argv|c IH file efile mode fd|l IHl r IHr|l IHl r IHr|c IH]; intros; cbn [wires]; [| |apply Forall_app; by split..|apply IH].
  - destruct argv; [done|]. constructor; [|done]. cbn [s_fds]. unfold std. rewrite !dom_insert_L, dom_empty_L. set_solver.
  - destruct (fd =? 0); apply IH.
Qed.

Lemma session_three fuel a b d : forall kids inp, Forall (fun p => dom (s_fds p) = {[0; 1; 2]}) (session fuel kids inp a b d).
Proof.
  induction fuel as [|fuel IH]; intros kids inp; [done|]. cbn [session]. destruct (read_line 99 inp) as [l rest]. destruct (cut l) as [|c buf]; [done|].
  destruct (bool_decide _); [apply IH|]. apply Forall_app. split; [|apply IH]. unfold line_starts. destruct (parsecmd _) as [[? ?] ?| | | |]; [apply wires_three|done..].
Qed.

(** C21: The shell wires up the programs that it starts as the lines of its input say: on any input, and whichever of its calls fail, it comes to an end, and the
    programs started are among those of the command lines, in their order, each with the words of its command as arguments and with exactly the descriptors 0, 1
    and 2, open on what its place in the line gives it: the shell's own, the file of a redirection, or an end of the pipe beside it. If no call fails, all of them
    are started. *)
Theorem shell_wires inp a b d :
  exists l, ends sh_main (Proc [] 0 0 0 (std a b d) inp) l /\
    sublist l (session (S (length inp)) 0 inp a b d) /\ Forall (fun p => dom (s_fds p) = {[0; 1; 2]}) l /\
    ((forall id n, succeeds id n = true) -> l = session (S (length inp)) 0 inp a b d).
Proof.
  destruct (open_console_ok (loop command tt ;; exit_ (A := Empty_set)) [] 0 0 a b d inp (session (S (length inp)) 0 inp a b d)) with (n := 0%nat) as (l & He & Hs & Heq).
  { intros n. apply loop_command. lia. }
  exists l. split_and!; [exact He|exact Hs| |exact Heq]. apply Forall_forall. intros p Hp.
  pose proof (session_three (S (length inp)) a b d 0 inp) as H3. rewrite Forall_forall in H3. apply H3.
  eapply elem_of_submseteq; [exact Hp|by apply sublist_submseteq].
Qed.
End Ends.

(** A line with both redirections, a pipe and a list. *)
Example session_example :
  session 50 0 (line "a < f | b > g; c d &") Tty Tty Tty =
  [Started (ascii_of "a") [ascii_of "a"] (std (FileOn (ascii_of "f") 0) (PipeW [0; 0]%nat 0) Tty);
   Started (ascii_of "b") [ascii_of "b"] (std (PipeR [0; 0]%nat 0) (FileOn (ascii_of "g") 513) Tty);
   Started (ascii_of "c") [ascii_of "c"; ascii_of "d"] (std Tty Tty Tty)].
Proof. vm_compute. reflexivity. Qed.
